(* ===== verification/_CoqProject ===== *)
-Q . S2P
Prelude.v
GoStrings.v
Float64.v
NodeState.v
Schedule.v
Scheduler.v
Protocol.v
Agent.v
Requests.v
Sha256.v
Encoding.v
NodeAuth.v
Database.v
Registration.v
Ids.v
Ledger.v
LedgerTheory.v
LedgerBooks.v
LedgerExamples.v
JobStore.v
OperatorStore.v
OperatorReports.v
StoreRuns.v
JobTheory.v
JobExamples.v
JobService.v
ServiceTheory.v
ServiceExamples.v
RegistrationTheory.v
RegistrationExamples.v
OperatorTheory.v
ReportTheory.v
OperatorExamples.v
HttpApi.v
HttpOperator.v
HttpTheory.v
ChatTheory.v
SessionTheory.v
HttpExamples.v
Catalog.v
Hardware.v
FileSystem.v
FileURL.v
Releases.v
ReleaseTheory.v
Updates.v
UpdateTheory.v
ModelCache.v
CacheTheory.v
DeliveryExamples.v
NodeConfig.v
ConfigTheory.v
NodeLogin.v
LoginTheory.v
AgentSession.v
ReconnectTheory.v
CatalogFiles.v
Launcher.v
LocalRuntime.v
CatalogSync.v
SyncTheory.v
ServingTheory.v
NodeExamples.v
SyncExamples.v
Startup.v
NodeCommands.v
StartExamples.v
