(* ===== verification/Prelude.v ===== *)
(** * Thirdshift, verified

    Thirdshift is a marketplace for GPU inference. Hosts run a node agent; a coordinator
    accepts chat completions from customers, schedules each on a connected node, checks
    and bills what comes back, and pays the hosts. This library models the decision
    logic of both sides as functions on explicit state, and proves it correct.

    ** The program and its model

    - [internal/node/state], [internal/node/schedule]: [NodeState] (the transition table)
      and [Schedule] (daily work windows).
    - [internal/node/agent]: [Agent]. [Agent.Agent] is the struct behind the mutex;
      each section of a handler that runs under the lock is one function, and a handler
      that releases the lock in between ([handleJobOffer], [resume], [Run]) is split
      there, so that [agent_step] interleaves exactly what the code can interleave.
    - [internal/coordinator/jobs]: [Scheduler] (scoring and choice), [Requests]
      (admission, metering, idempotency, rate limits, API keys), [JobStore] ([store.go]),
      [JobService] ([service.go], the in-memory half).
    - [internal/coordinator/ledger]: [Ledger], double-entry postings and payouts.
    - [internal/coordinator/registration], [internal/coordinator/sessions]:
      [Registration], invites, bootstrap tokens, sessions, heartbeats and the sweeper.
    - [internal/shared/nodeauth], [internal/coordinator/auth]: [NodeAuth], signed
      completions and refreshes, access tokens.
    - [internal/shared/protocol]: [Protocol], the payloads both sides exchange.
    - [internal/shared/ids]: [Ids], the text of an identifier from a prefix, a time and
      entropy.
    - [internal/coordinator/operator]: [OperatorStore] (what an operator writes: drains,
      pauses, quarantines, cancellations, retries, payouts, fleets, regions, the waitlist
      and the log of actions) and [OperatorReports] (what the console, the public page and
      the CSV exports read).
    - [internal/coordinator/httpapi]: [HttpApi] (requests and responses, the guards, the
      routes of customers and nodes, the session of a node) and [HttpOperator] (the routes
      of the operator and of the public page, the waitlist's limiter, the status cache, and
      [serve], the table of routes). A handler is a function of the request in [Handler],
      which goes on or has answered; [chatCompletionsHandler] is cut where it waits, into
      [chat_submit] and [chat_finish], and [handleSession] into its opening, one step per
      message and its end, and [ServerEvent] interleaves all of them.
    - [internal/node/models]: [Catalog], the manifests of models, their reader and the
      choice of a model for a host; [CatalogFiles], the catalog directory and the catalog
      in the binary; [ModelCache], resumable downloads, verification, eviction, licenses.
    - [internal/coordinator/jobs], [SyncCatalog]: [CatalogSync], the manifests of a
      directory and the hashes of the releases they name, as rows of the catalog tables.
    - [internal/node/hardware]: [Hardware], what a host is (the readers of what its commands
      print), what it can serve, and the doctor.
    - [internal/node/runtime]: [Releases] ([manifest.go], [archive.go], [manager.go]: signed
      manifests, archives, installation and rollback of a runtime) and [Launcher]
      ([launcher.go], [log.go]: the server process and its log).
    - [internal/node/update]: [Updates], the update of the node's own binary.
    - [internal/node/config], [internal/node/identity], [internal/node/registration]:
      [NodeConfig], the configuration file and the environment over it, and [NodeLogin], the
      key, the credentials, login and the renewal of tokens.
    - [internal/node/session] and the rest of [internal/node/agent]: [AgentSession] (backoff,
      dials, the loop of a session, the loop that reconnects, [Run]) and [LocalRuntime]
      ([local_runtime.go]: from a model's name to a running server).
    - [internal/shared/fileurl]: [FileURL].
    - [internal/coordinator/config], [internal/coordinator/database]: [Startup], the settings
      of a coordinator and the schema migrations it applies before it serves.
    - [cmd/thirdshift]: [NodeCommands], what [configure], [start], [update] and [card] do with
      the packages above once their flags are parsed.

    [FileSystem] is the disk of a node or coordinator and what its servers answer: a finite map from
    locations to files, directories and symbolic links, resolved as the kernel does, with a
    list of faults (each call may fail, a write also after so many bytes) and a list of
    replies. [Releases], [Updates], [ModelCache], [NodeConfig], [NodeLogin], [Launcher] and
    [LocalRuntime] run in [IO], the computations on it, and so do [NodeCommands]; [AgentSession]
    pairs it with the state of [Agent], [CatalogSync] with the database, and [Startup] with a
    schema and its [schema_migrations].

    [Database] holds the tables of [migrations/*.up.sql] as finite maps, with the columns
    the modelled code reads or writes, their constraints, and [transaction]: an error,
    or a commit the balance trigger refuses, restores every table. [GoStrings],
    [Float64], [Sha256] and [Encoding] are the parts of Go's standard library the
    program's results depend on.

    ** Conventions

    Stateful code runs in [St S A := S -> result A * S], with [gerror] for Go errors.
    Times and durations are microseconds (the resolution of the database) in [Z];
    machine integers are [Z] with their wrap-around written out where a product or sum
    can leave 64 bits ([chargeForTokens], the token sums of [Requests]). [float64] is
    the Standard Library's executable IEEE 754 specification at precision 53. Random
    identifiers and tokens are drawn from a list, [db_entropy]; an operation fails when
    it is empty, as it does when the system has no entropy. Nothing assumes that drawn
    values are distinct: collisions are refused by the primary keys, as in the schema.

    Each store operation is one step: the operations that write several rows are SQL
    transactions that lock what they read, or single statements. Each method of the job
    service is one step on its maps; its database effects are store operations, so that
    a theorem about every sequence of store operations ([service_refines_store]) holds
    however the methods interleave. Each handler of the HTTP API is likewise one step, but
    for the two named above that wait.

    Recursion is structural on the data but for two functions with fuel: [sha_blocks] has one
    unit per block of the padded message, which is every block, and the resolution of paths
    in [FileSystem] follows as many links as the kernel does before it answers ELOOP. What
    comes from outside step by step (the looks at a starting process, the events of a
    session, the waits between two) is a list, and theorems about the loops over it hold
    for every list. No theorem assumes that a computation ends.

    ** Theorems

    - [LedgerTheory]: every posting balances; charges round to nearest; payouts pay what
      they reserved; one acceptance per job. [LedgerBooks]: the accounts, the hold table and
      the payout batches agree after any sequence of ledger operations ([books_agree]), where
      only the reversal of a single transaction makes a difference, which the run counts.
    - [StoreRuns] defines [store_op], the operations of the coordinator on its database,
      and the classes of the properties they preserve: [QuietInv] for every operation but the
      one that stores the answer to a keyed request, [StoreInv] for all. [JobTheory] uses
      them for the life of attempts, single completion, reputation, quarantine, eligibility,
      idempotency and API keys.
    - [ServiceTheory]: the service changes the database by store operations only; a
      waiting request is answered exactly once or still waits; however often a job is
      submitted, at most three offers go out for each submission ([retry_bound]); every
      branch of a completion message; who is offered what.
    - [RegistrationTheory]: invites and bootstrap tokens work once and not after they
      expire; registration stores the key that later verifies the node; a heartbeat
      decides eligibility; the sweeper ends exactly the stale sessions.
    - [NodeAuth]: what an agent signs verifies, a refresh is bound to its node and time,
      a token is valid for its lifetime and only with the signer's secret.
    - [Agent], [NodeState], [Schedule], [Scheduler], [Requests], [Encoding]: next to their
      definitions. An agent runs one job at a time, reports the state it is in, stops at
      the hard temperature limit and recovers; the scheduler's choice is maximal and
      does not depend on the order of candidates; admission and metering are decided
      exactly; the limiter is exact per minute.
    - [OperatorTheory]: an operator's quarantine is final, a drained node needs a new
      session, cancelled work is not billed, every action is in an append-only log;
      regions, schedules and waitlist entries are normalised. [ReportTheory]: the public
      map agrees with the regions, advertised capacity can be scheduled, and the imbalance
      alert is silent on what the ledger posts. [Ids]: identifiers fit the schema and
      sort by time.
    - [HttpTheory]: whatever arrives, the server changes the database by store operations
      only ([server_refines_store]); who may call what ([access_control]). [ChatTheory]:
      what a completion request leaves behind on every path, idempotent retries, isolation
      of organizations; the answer stored under a key is repeated as long as no other request
      with that key ends in between ([idempotent_retry]). [SessionTheory]: a session speaks for its node only, from a
      bootstrap token to a session, when a disconnection is dated, the exact window of the
      waitlist's limiter.
    - [Catalog]: a manifest that parses is well-formed; the automatic choice is the largest
      model that fits. [Hardware]: the verdict of the doctor, exactly; the vendor found is
      the vendor a runtime is chosen for.
    - [ReleaseTheory]: archives and installations stay inside of their directory
      ([extraction_stays], and [Ensure_effects] where the signed paths do) and do nothing
      without a signature; a rollback is undone by the next. [UpdateTheory]: an update
      installs what a signed release names, as long as the path it names is inside of the
      archive ([update_installs_local_file] is the other case), and the host keeps a binary
      whatever fails. [CacheTheory]: a model that is handed out
      has its hash; interrupted downloads complete; what is evicted.
    - [ConfigTheory]: the configuration is read as it was written. [LoginTheory]: the key is
      kept, a failed login leaves no credentials, a renewal is accepted by the coordinator's
      own check and stored. [ReconnectTheory]: a run that ends in order ends offline, and one
      that could not prepare its model dials nothing; an expired token is renewed on a
      refused dial, the waits between sessions.
    - [SyncTheory]: what a sync leaves in the tables, which hashes are accepted after it, and
      that it touches no other table. [ServingTheory]: node and coordinator together, what a
      node reports after it prepared a model is what the coordinator accepts once it has
      synced the same manifest; no server process is leaked.
    - [Startup]: each migration is applied once and in order ([migrations_applied_once]).
      [NodeCommands]: what a node that starts serves and remembers ([start_spec]), and that a
      schedule which is not one is never stored ([configure_checks]).
    - [LedgerExamples], [JobExamples], [ServiceExamples], [RegistrationExamples],
      [OperatorExamples], [HttpExamples], [DeliveryExamples], [NodeExamples],
      [SyncExamples] and [StartExamples] evaluate the definitions on a small deployment and instantiate the
      theorems there.

    Some theorems describe behaviour that the surrounding documentation or the evident
    intent contradicts; their comments say so ([accepted_posting_balances] with an
    overhead, [resume_race], [expired_key_not_refreshed], [late_expiry_fails_job],
    [old_session_ends_node], [pause_during_start_aborts], [telemetry_loss_reopens],
    [pause_until_heartbeat], [operator_retry_spec], [disconnect_dated_at_connect],
    [same_key_two_jobs], [nan_price_accepted], [radeon_refused], [self_link_escapes],
    [rollback_forgets], [promote_needs_one_device], [full_partial_stuck], [reconnect_waits],
    [backslash_doubles], [environment_is_persisted], [torn_key], [invite_lost],
    [catalog_revert_ignored], [stale_node_eligible], [missing_input_limit_aborts],
    [update_installs_local_file], [executable_escapes], [login_torn], [binary_overwritten],
    [stopped_preparing]).

    ** Parameters

    Ed25519, JSON and RFC 3339 are arguments of the definitions that use them, with the
    documented laws (a signature by a key verifies under its public half; what is
    encoded decodes) as hypotheses, and a concrete instance in the witnesses. The decoders
    of request bodies are the fields of [Decoders]; Unicode's lower-case table, the parsers
    of mail addresses, CSV and decimal fractions and the quoting of [strconv] are arguments
    too. The model runtime of the agent is its observed answers. Whether a message to a
    session is sent is a list of outcomes.

    The node's side has classes and one record for them: [Libraries] (Ed25519, the JSON of releases, gzip,
    tar, zip, URLs), [Parsers] and [Host] (the JSON of system commands; the commands and
    counters of a host), [Unicode] (the table of printable runes), [Identities] (the JSON of keys,
    credentials and of the coordinator's answers), [SessionURL], [SortSlice] (an unstable
    sort), [Embedded] (the files compiled into the binary), [Processes] (a free port, a
    process that starts and is polled), [Numeric] (a float in a column with so many
    decimals) and [Cards] (the JSON of a contribution card). What the SQL of a migration does
    to the schema is an argument of [Startup.Apply]. The file system of a path, by which renames fail across two, is a function.

    ** Not modelled

    Transport and I/O: the matching of URLs to routes, the encoding of answers as JSON and
    their headers, the web socket itself and logging; the parsing of command lines, what they
    print and [cmd/admin-cli], whose commands call the modelled routes, the ledger or
    [Startup.Apply]; the control socket of the agent (its commands are
    in [Agent]); the system calls behind [Host]; the sampling of a live GPU and the HTTP
    client of the model server, whose answers [Agent] is given; the signals that stop a server
    process, a stopped server being an event of [Launcher]. Permissions of files and the
    durability of writes across a crash of the machine are outside of [FileSystem]. The
    route that starts a catalog sync is not in [HttpOperator.serve], since the server of
    [HttpApi] has no disk; [sync_keeps_trade] shows that a sync touches none of the tables
    that the invariants of the ledger and the jobs speak about.

    ** This file

    The error monad and its inversion tactic [run_inv], invariants of stateful code
    ([preserves], [solve_inv]), record update, stable sorting and lemmas on lists. *)
From stdpp Require Import base gmap strings list sorting.
From Stdlib Require Import ZArith Lia.

#[global] Open Scope Z_scope.
#[global] Set Default Goal Selector "!".

(** ** Errors

    A Go [error] value: a plain message, the jobs package's [APIError], a
    statement refused by a constraint of the database schema, or any of them
    wrapped by [fmt.Errorf("...: %w", err)]. *)
Inductive gerror :=
  | ErrMsg (msg : string)
  | ErrApi (code msg : string) (retryable : bool) (status : Z)
  | ErrNoRows
  | ErrConstraint (name : string)
  | ErrWrap (ctx : string) (inner : gerror).

#[export] Instance gerror_eq_dec : EqDecision gerror.
Proof. solve_decision. Defined.

(** What [errors.As] sees: the innermost error under any wrapping. *)
Fixpoint root_cause (e : gerror) : gerror :=
  match e with
  | ErrWrap _ e' => root_cause e'
  | _ => e
  end.

(** [err.Error()]; the text of a refused statement is the database's. *)
Fixpoint error_string (e : gerror) : string :=
  match e with
  | ErrMsg m => m
  | ErrApi code msg _ _ => code +:+ ": " +:+ msg
  | ErrNoRows => "no rows in result set"
  | ErrConstraint name => "constraint " +:+ name
  | ErrWrap ctx e => ctx +:+ ": " +:+ error_string e
  end.

Inductive result (A : Type) :=
  | Ok (a : A)
  | Err (e : gerror).
Arguments Ok {A} a.
Arguments Err {A} e.

Definition is_ok {A} (r : result A) : bool :=
  match r with Ok _ => true | Err _ => false end.

#[export] Instance result_ret : MRet result := λ A a, Ok a.
#[export] Instance result_bind : MBind result := λ A B f r,
  match r with Ok a => f a | Err e => Err e end.

(** ** State and errors

    Stateful Go code: a function of the state that returns a value or an error
    and the state it leaves behind. An error does not undo earlier effects;
    only [atomically] (a database transaction) does. *)
Definition St (S A : Type) : Type := S → result A * S.

#[export] Instance St_ret {S} : MRet (St S) := λ A a s, (Ok a, s).
#[export] Instance St_bind {S} : MBind (St S) := λ A B f m s,
  match m s with
  | (Ok a, s') => f a s'
  | (Err e, s') => (Err e, s')
  end.

Definition fail {S A} (e : gerror) : St S A := λ s, (Err e, s).
Definition gets {S A} (f : S → A) : St S A := λ s, (Ok (f s), s).
Definition modify {S} (f : S → S) : St S unit := λ s, (Ok tt, f s).

(** [if err != nil { return err }] after a call whose error gets a context. *)
Definition wrap {S A} (ctx : string) (m : St S A) : St S A := λ s,
  match m s with
  | (Ok a, s') => (Ok a, s')
  | (Err e, s') => (Err (ErrWrap ctx e), s')
  end.

(** [_ = f(...)]: the error is dropped, the effects stay. *)
Definition ignore_err {S A} (m : St S A) : St S unit := λ s, (Ok tt, (m s).2).

(** The error as a value, for code that branches on [err]. *)
Definition try {S A} (m : St S A) : St S (result A) := λ s,
  let '(r, s') := m s in (Ok r, s').

(** A return of [(value, error)] computed purely. *)
Definition lift_result {S A} (r : result A) : St S A := λ s, (r, s).

Definition of_option {S A} (e : gerror) (o : option A) : St S A :=
  match o with Some a => mret a | None => fail e end.

Definition guard_err {S} (b : bool) (e : gerror) : St S unit :=
  if b then mret tt else fail e.

(** A database transaction: [BeginTx], the body, [Commit]; any error, and any
    state the commit-time check refuses, rolls the whole state back. *)
Definition atomically {S A} (commit_ok : S → result unit) (m : St S A) : St S A := λ s,
  match m s with
  | (Ok a, s') =>
      match commit_ok s' with
      | Ok _ => (Ok a, s')
      | Err e => (Err e, s)
      end
  | (Err e, _) => (Err e, s)
  end.

(** [for _, x := range xs { ... }] with early return on error. *)
Fixpoint for_each {S A} (f : A → St S unit) (xs : list A) : St S unit :=
  match xs with
  | [] => mret tt
  | x :: xs' => f x ≫= λ _, for_each f xs'
  end.

(** The same loop with an accumulator. *)
Fixpoint fold_st {S A B} (f : B → A → St S B) (b : B) (xs : list A) : St S B :=
  match xs with
  | [] => mret b
  | x :: xs' => f b x ≫= λ b', fold_st f b' xs'
  end.

(** ** Inversion of monadic runs *)

Section run_lemmas.
Context {S : Type}.

Lemma bind_ok {A B} (m : St S A) (f : A → St S B) s b s' :
  (m ≫= f) s = (Ok b, s') ↔ ∃ a s1, m s = (Ok a, s1) ∧ f a s1 = (Ok b, s').
Proof.
  unfold mbind, St_bind. destruct (m s) as [[a|e] s1]; naive_solver.
Qed.

Lemma ret_ok {A} (a b : A) (s s' : S) :
  (mret a : St S A) s = (Ok b, s') ↔ b = a ∧ s' = s.
Proof. unfold mret, St_ret. naive_solver. Qed.

Lemma gets_ok {A} (f : S → A) s b s' : gets f s = (Ok b, s') ↔ b = f s ∧ s' = s.
Proof. unfold gets. naive_solver. Qed.

Lemma modify_ok (f : S → S) s u s' : modify f s = (Ok u, s') ↔ s' = f s.
Proof. unfold modify. destruct u. naive_solver. Qed.

Lemma fail_ok {A} e (s : S) (a : A) s' : fail e s = (Ok a, s') ↔ False.
Proof. unfold fail. naive_solver. Qed.

Lemma wrap_ok {A} c (m : St S A) s a s' : wrap c m s = (Ok a, s') ↔ m s = (Ok a, s').
Proof. unfold wrap. destruct (m s) as [[]]; naive_solver. Qed.

Lemma of_option_ok {A} e (o : option A) (s : S) a s' :
  of_option e o s = (Ok a, s') ↔ o = Some a ∧ s' = s.
Proof. destruct o; unfold of_option, mret, St_ret, fail; naive_solver. Qed.

Lemma guard_ok b e (s : S) u s' : guard_err b e s = (Ok u, s') ↔ b = true ∧ s' = s.
Proof. destruct b, u; unfold guard_err, mret, St_ret, fail; naive_solver. Qed.

Lemma atomically_ok {A} ck (m : St S A) s a s' :
  atomically ck m s = (Ok a, s') ↔ m s = (Ok a, s') ∧ is_ok (ck s') = true.
Proof.
  unfold atomically. destruct (m s) as [[b|e] s1]; [|naive_solver].
  destruct (ck s1) eqn:E; (split; [intros ?|intros [? ?]]);
    simplify_eq; rewrite ?E in *; done.
Qed.

Lemma atomically_err {A} ck (m : St S A) s e s' :
  atomically ck m s = (Err e, s') → s' = s.
Proof.
  unfold atomically. destruct (m s) as [[b|e'] s1]; [|naive_solver].
  destruct (ck s1); naive_solver.
Qed.

Lemma lift_ok {A} (r : result A) (s : S) a s' : lift_result r s = (Ok a, s') ↔ r = Ok a ∧ s' = s.
Proof. unfold lift_result. naive_solver. Qed.

(** One step of a run, read forwards. *)
Lemma bind_gets {A B} (g : S → A) (f : A → St S B) s : (gets g ≫= f) s = f (g s) s.
Proof. done. Qed.
Lemma bind_option {A B} e (o : option A) (f : A → St S B) s :
  (of_option e o ≫= f) s = match o with Some a => f a s | None => (Err e, s) end.
Proof. by destruct o. Qed.
Lemma bind_guard {B} b e (f : unit → St S B) s :
  (guard_err b e ≫= f) s = if b then f tt s else (Err e, s).
Proof. by destruct b. Qed.

Lemma ignore_err_ok {A} (m : St S A) s u s' : ignore_err m s = (Ok u, s') ↔ (m s).2 = s'.
Proof. unfold ignore_err. destruct u. naive_solver. Qed.
End run_lemmas.

(** Break a successful run [m s = (Ok a, s')] into its steps. *)
Ltac step_run :=
  match goal with
  | H : (mbind _ _) _ = (Ok _, _) |- _ => apply bind_ok in H as (? & ? & ? & ?)
  | H : (mret _) _ = (Ok _, _) |- _ => apply ret_ok in H as [? ?]
  | H : gets _ _ = (Ok _, _) |- _ => apply gets_ok in H as [? ?]
  | H : modify _ _ = (Ok _, _) |- _ => apply modify_ok in H
  | H : fail _ _ = (Ok _, _) |- _ => apply fail_ok in H as []
  | H : wrap _ _ _ = (Ok _, _) |- _ => apply wrap_ok in H
  | H : of_option _ _ _ = (Ok _, _) |- _ => apply of_option_ok in H as [? ?]
  | H : guard_err _ _ _ = (Ok _, _) |- _ => apply guard_ok in H as [? ?]
  | H : atomically _ _ _ = (Ok _, _) |- _ => apply atomically_ok in H as [? ?]
  | H : lift_result _ _ = (Ok _, _) |- _ => apply lift_ok in H as [? ?]
  | H : ignore_err _ _ = (Ok _, _) |- _ => apply ignore_err_ok in H
  end.
Ltac run_inv := repeat (step_run; simplify_eq/=).

(** ** Invariants of stateful code

    [preserves P m]: running [m] from a state that satisfies [P] ends, with a
    value or with an error, in a state that satisfies [P]. *)
Definition preserves {S A} (P : S → Prop) (m : St S A) : Prop :=
  ∀ s, P s → P (m s).2.

Create HintDb inv.

Section preserves.
Context {S : Type} (P : S → Prop).

Lemma preserves_ret {A} (a : A) : preserves P (mret a).
Proof. by intros s Hs. Qed.
Lemma preserves_fail {A} e : preserves P (fail e : St S A).
Proof. by intros s Hs. Qed.
Lemma preserves_gets {A} (f : S → A) : preserves P (gets f).
Proof. by intros s Hs. Qed.
Lemma preserves_of_option {A} e (o : option A) : preserves P (of_option e o).
Proof. by destruct o; intros s Hs. Qed.
Lemma preserves_guard b e : preserves P (guard_err b e).
Proof. by destruct b; intros s Hs. Qed.
Lemma preserves_lift {A} (r : result A) : preserves P (lift_result r).
Proof. by intros s Hs. Qed.
Lemma preserves_modify f : (∀ s, P s → P (f s)) → preserves P (modify f).
Proof. by intros Hf s Hs; apply Hf. Qed.
Lemma preserves_bind {A B} (m : St S A) (f : A → St S B) :
  preserves P m → (∀ a, preserves P (f a)) → preserves P (m ≫= f).
Proof.
  intros Hm Hf s Hs. specialize (Hm s Hs). unfold mbind, St_bind.
  destruct (m s) as [[a|e] s1]; simpl in *; [by apply Hf|done].
Qed.
Lemma preserves_wrap {A} c (m : St S A) : preserves P m → preserves P (wrap c m).
Proof. intros Hm s Hs. specialize (Hm s Hs). unfold wrap. by destruct (m s) as [[]]. Qed.
Lemma preserves_ignore {A} (m : St S A) : preserves P m → preserves P (ignore_err m).
Proof. intros Hm s Hs. by apply Hm. Qed.
Lemma preserves_try {A} (m : St S A) : preserves P m → preserves P (try m).
Proof. intros Hm s Hs. specialize (Hm s Hs). unfold try. by destruct (m s). Qed.
Lemma preserves_if {A} (b : bool) (m1 m2 : St S A) :
  preserves P m1 → preserves P m2 → preserves P (if b then m1 else m2).
Proof. by destruct b. Qed.
Lemma preserves_for_each {A} (f : A → St S unit) xs :
  (∀ x, preserves P (f x)) → preserves P (for_each f xs).
Proof.
  intros Hf. induction xs as [|x xs IH]; simpl.
  { apply preserves_ret. }
  by apply preserves_bind.
Qed.
Lemma preserves_fold {A B} (f : B → A → St S B) b xs :
  (∀ b x, preserves P (f b x)) → preserves P (fold_st f b xs).
Proof.
  intros Hf. revert b. induction xs as [|x xs IH]; intros b; simpl.
  { apply preserves_ret. }
  by apply preserves_bind.
Qed.

(** A transaction preserves whatever its body preserves ... *)
Lemma preserves_atomically {A} ck (m : St S A) :
  preserves P m → preserves P (atomically ck m).
Proof.
  intros Hm s Hs. specialize (Hm s Hs). unfold atomically.
  destruct (m s) as [[a|e] s1]; simpl in *; [|done]. by destruct (ck s1).
Qed.

(** ... and whatever its commit-time check enforces. *)
Lemma preserves_commit {A} ck (m : St S A) :
  (∀ s a s', P s → m s = (Ok a, s') → is_ok (ck s') = true → P s') →
  preserves P (atomically ck m).
Proof.
  intros Hm s Hs. unfold atomically. specialize (Hm s).
  destruct (m s) as [[a|e] s1]; simpl in *; [|done].
  destruct (ck s1) eqn:E; simpl; [|done]. by apply (Hm a s1); rewrite ?E.
Qed.
End preserves.

#[export] Hint Resolve preserves_ret preserves_fail preserves_gets preserves_of_option
  preserves_guard preserves_lift preserves_bind preserves_wrap preserves_ignore
  preserves_try preserves_if preserves_for_each preserves_fold preserves_atomically : inv.
#[export] Hint Extern 1 (∀ _, preserves _ _) => intros : inv.

(** Walk through a function body; what is left are the updates that need an argument
    and the calls whose lemmas are not in the database. *)
Ltac solve_inv :=
  repeat match goal with
  | |- preserves _ (mbind _ _) => apply preserves_bind; [|intros ?]
  | |- preserves _ (wrap _ _) => apply preserves_wrap
  | |- preserves _ (ignore_err _) => apply preserves_ignore
  | |- preserves _ (try _) => apply preserves_try
  | |- preserves _ (for_each _ _) => apply preserves_for_each; intros ?
  | |- preserves _ (fold_st _ _ _) => apply preserves_fold; intros ? ?
  | |- preserves _ (match ?x with _ => _ end) => destruct x
  | |- preserves _ (modify _) => apply preserves_modify; intros ? ?; by auto
  | |- preserves _ _ => solve [eauto 3 with inv typeclass_instances]
  end.

(** ** What a computation leaves alone

    [leaves f m]: whatever comes of [m], the part [f] of the state is as before. *)
Definition leaves {S T A} (f : S → T) (m : St S A) : Prop := ∀ s, f (m s).2 = f s.

Section leaves.
Context {S T : Type} (f : S → T).
Lemma leaves_ret {A} (a : A) : leaves f (mret a).
Proof. done. Qed.
Lemma leaves_fail {A} e : leaves f (fail e : St S A).
Proof. done. Qed.
Lemma leaves_gets {A} (g : S → A) : leaves f (gets g).
Proof. done. Qed.
Lemma leaves_lift {A} (r : result A) : leaves f (lift_result r).
Proof. done. Qed.
Lemma leaves_option {A} e (o : option A) : leaves f (of_option e o).
Proof. by destruct o. Qed.
Lemma leaves_guard b e : leaves f (guard_err b e).
Proof. by destruct b. Qed.
Lemma leaves_modify g : (∀ s, f (g s) = f s) → leaves f (modify g).
Proof. intros Hg s. apply Hg. Qed.
Lemma leaves_bind {A B} (m : St S A) (g : A → St S B) : leaves f m → (∀ a, leaves f (g a)) → leaves f (m ≫= g).
Proof.
  intros Hm Hg s. unfold mbind, St_bind. specialize (Hm s). destruct (m s) as [[a|e] s1]; [|done].
  cbn in Hm. by rewrite (Hg a s1).
Qed.
Lemma leaves_try {A} (m : St S A) : leaves f m → leaves f (try m).
Proof. intros Hm s. unfold try. specialize (Hm s). by destruct (m s). Qed.
Lemma leaves_wrap {A} c (m : St S A) : leaves f m → leaves f (wrap c m).
Proof. intros Hm s. unfold wrap. specialize (Hm s). by destruct (m s) as [[]]. Qed.
Lemma leaves_for_each {A} (g : A → St S unit) l : (∀ a, leaves f (g a)) → leaves f (for_each g l).
Proof. intros Hg. induction l as [|a l IH]; [done|]. cbn [for_each]. by apply leaves_bind. Qed.
Lemma leaves_run {A} (m : St S A) s r s' : leaves f m → m s = (r, s') → f s' = f s.
Proof. intros Hm E. specialize (Hm s). by rewrite E in Hm. Qed.
End leaves.

Ltac solve_leaves :=
  repeat match goal with
  | |- leaves _ (mbind _ _) => apply leaves_bind; [|intros ?]
  | |- leaves _ (try _) => apply leaves_try
  | |- leaves _ (wrap _ _) => apply leaves_wrap
  | |- leaves _ (mret _) => apply leaves_ret
  | |- leaves _ (fail _) => apply leaves_fail
  | |- leaves _ (gets _) => apply leaves_gets
  | |- leaves _ (lift_result _) => apply leaves_lift
  | |- leaves _ (of_option _ _) => apply leaves_option
  | |- leaves _ (guard_err _ _) => apply leaves_guard
  | |- leaves _ (modify _) => apply leaves_modify; by intros []
  | |- leaves _ (for_each _ _) => apply leaves_for_each; intros ?
  | |- leaves _ (match ?x with _ => _ end) => destruct x
  end.

(** ** Record update

    [r <| f ::= g |>] applies [g] to field [f]; [r <| f := v |>] stores [v].
    A record type gets update by an [Eta] instance, its eta-expansion; the
    updater of a field is found by abstracting that field in the expansion. *)
Class Eta (R : Type) := eta_expand : R → R.
Class Updater {R T} (proj : R → T) := upd_field : (T → T) → R → R.
Arguments upd_field {R T} proj {_} _ _ /.

Ltac solve_updater :=
  lazymatch goal with
  | |- @Updater ?R ?T ?proj =>
      let g := fresh "g" in
      let r := fresh "r" in
      refine (λ (g : T → T) (r : R), _);
      let inst := constr:(_ : Eta R) in
      let body := eval hnf in (inst r) in
      let abs := eval pattern (proj r) in body in
      lazymatch abs with ?h _ => exact (h (g (proj r))) end
  end.
#[export] Hint Extern 0 (Updater _) => solve_updater : typeclass_instances.

Declare Scope record_scope.
#[global] Open Scope record_scope.
Notation "r <| f ::= g |>" := (upd_field f g r)
  (at level 12, f at next level, left associativity) : record_scope.
Notation "r <| f := v |>" := (upd_field f (λ _, v) r)
  (at level 12, f at next level, left associativity) : record_scope.

(** ** Machine integers *)

(** Go's [int] and [int64]: two's complement on 64 bits. *)
Definition wrap64 (z : Z) : Z := (z + 2 ^ 63) mod 2 ^ 64 - 2 ^ 63.
Definition in_int64 (z : Z) : Prop := - 2 ^ 63 ≤ z < 2 ^ 63.

Lemma wrap64_range z : in_int64 (wrap64 z).
Proof. unfold in_int64, wrap64. pose proof (Z.mod_pos_bound (z + 2 ^ 63) (2 ^ 64)). lia. Qed.

Lemma wrap64_id z : in_int64 z → wrap64 z = z.
Proof. unfold in_int64, wrap64. intros H. rewrite Z.mod_small; lia. Qed.

Lemma wrap64_spec z : ∃ k, wrap64 z = z + k * 2 ^ 64.
Proof.
  unfold wrap64. exists (- ((z + 2 ^ 63) / 2 ^ 64)).
  pose proof (Z.div_mod (z + 2 ^ 63) (2 ^ 64)). lia.
Qed.

#[export] Hint Rewrite wrap64_id using (unfold in_int64; lia) : int64.

(** ** Time

    Instants are counted in microseconds, the resolution of the database's
    [timestamptz]; [zero_time] is Go's zero [time.Time] (1 January of year 1). *)
Definition microsecond : Z := 1.
Definition millisecond : Z := 1000.
Definition second : Z := 1000000.
Definition minute : Z := 60 * second.
Definition hour : Z := 60 * minute.
Definition zero_time : Z := -62135596800 * second.
Definition is_zero_time (t : Z) : bool := t =? zero_time.

(** [if d <= 0 { d = def }], the idiom for optional durations and limits. *)
Definition default_pos (d def : Z) : Z := if d <=? 0 then def else d.

Lemma default_pos_pos d def : 0 < def → 0 < default_pos d def.
Proof. unfold default_pos. destruct (Z.leb_spec d 0); lia. Qed.

(** ** Sums *)

Definition sum_list {A} (f : A → Z) (l : list A) : Z := foldr (λ x acc, f x + acc) 0 l.

Lemma sum_list_nil {A} (f : A → Z) : sum_list f [] = 0.
Proof. done. Qed.
Lemma sum_list_cons {A} (f : A → Z) x l : sum_list f (x :: l) = f x + sum_list f l.
Proof. done. Qed.
Lemma sum_list_app {A} (f : A → Z) l1 l2 : sum_list f (l1 ++ l2) = sum_list f l1 + sum_list f l2.
Proof. induction l1; simpl; rewrite ?sum_list_cons; [done|lia]. Qed.
Lemma sum_list_perm {A} (f : A → Z) l1 l2 : l1 ≡ₚ l2 → sum_list f l1 = sum_list f l2.
Proof. induction 1; rewrite ?sum_list_cons in *; try done; lia. Qed.
Lemma sum_list_ext {A} (f g : A → Z) l :
  (∀ x, x ∈ l → f x = g x) → sum_list f l = sum_list g l.
Proof.
  induction l as [|x l IH]; intros Hfg; [done|].
  rewrite !sum_list_cons. f_equal; [apply Hfg|apply IH; intros]; set_solver.
Qed.
Lemma sum_list_nonneg {A} (f : A → Z) l : (∀ x, x ∈ l → 0 ≤ f x) → 0 ≤ sum_list f l.
Proof.
  induction l as [|x l IH]; intros Hf; [done|]. rewrite sum_list_cons.
  pose proof (Hf x). apply Z.add_nonneg_nonneg; [apply Hf | apply IH]; set_solver.
Qed.
Lemma sum_list_zero {A} (l : list A) : sum_list (λ _, 0) l = 0.
Proof. induction l; rewrite ?sum_list_cons; [done|lia]. Qed.
Lemma sum_list_map {A B} (f : B → Z) (g : A → B) l : sum_list f (g <$> l) = sum_list (λ x, f (g x)) l.
Proof. induction l; csimpl; [done|]. rewrite ?sum_list_cons. lia. Qed.
Lemma sum_list_opp {A} (f : A → Z) l : sum_list (λ x, - f x) l = - sum_list f l.
Proof. induction l; rewrite ?sum_list_cons; [done|]. lia. Qed.

(** The sum of a table's column. *)
Definition sum_map {V} (f : V → Z) (m : gmap string V) : Z :=
  sum_list (λ kv, f kv.2) (map_to_list m).

Section sum_map.
Context {V : Type} (f : V → Z).
Implicit Types m : gmap string V.

Lemma sum_map_empty : sum_map f ∅ = 0.
Proof. unfold sum_map. by rewrite map_to_list_empty. Qed.
Lemma sum_map_insert m k v : m !! k = None → sum_map f (<[k:=v]> m) = f v + sum_map f m.
Proof. intros H. unfold sum_map. by rewrite (sum_list_perm _ _ _ (map_to_list_insert m k v H)). Qed.
Lemma sum_map_delete m k v : m !! k = Some v → sum_map f m = f v + sum_map f (delete k m).
Proof.
  intros H. rewrite <-(insert_delete_id m k v H) at 1.
  apply sum_map_insert, lookup_delete_eq.
Qed.
Lemma sum_map_update m k v v' :
  m !! k = Some v → sum_map f (<[k:=v']> m) = sum_map f m - f v + f v'.
Proof.
  intros H. rewrite (sum_map_delete m k v H), <-insert_delete_eq.
  rewrite sum_map_insert; [lia|]. apply lookup_delete_eq.
Qed.
Lemma sum_map_nonneg m : (∀ k v, m !! k = Some v → 0 ≤ f v) → 0 ≤ sum_map f m.
Proof.
  intros H. apply sum_list_nonneg. intros [k v] Hin.
  apply (H k), elem_of_map_to_list, Hin.
Qed.
End sum_map.

Lemma sum_map_ext {V} (f g : V → Z) (m : gmap string V) :
  (∀ k v, m !! k = Some v → f v = g v) → sum_map f m = sum_map g m.
Proof.
  intros H. apply sum_list_ext. intros [k v] Hin.
  apply (H k), elem_of_map_to_list, Hin.
Qed.

(** Sums over tables that agree where it matters. *)
Lemma sum_map_agree {V W} (f : V → Z) (g : W → Z) (m : gmap string V) (m' : gmap string W) :
  (∀ k, default 0 (f <$> m !! k) = default 0 (g <$> m' !! k)) → sum_map f m = sum_map g m'.
Proof.
  revert m'. induction m as [|k v m Hk IH] using map_ind; intros m' H.
  - rewrite sum_map_empty, (sum_map_ext g (λ _, 0)).
    + unfold sum_map. by rewrite sum_list_zero.
    + intros k w Hw. specialize (H k). by rewrite lookup_empty, Hw in H.
  - rewrite sum_map_insert by done. pose proof (H k) as Hkk. rewrite lookup_insert_eq in Hkk. simpl in Hkk.
    destruct (m' !! k) as [w|] eqn:E; simpl in Hkk.
    + rewrite (sum_map_delete g m' k w E), Hkk. f_equal. apply IH. intros j.
      destruct (decide (j = k)) as [->|Hne]; [by rewrite Hk, lookup_delete_eq|].
      specialize (H j). by rewrite lookup_insert_ne in H by done; rewrite lookup_delete_ne by done.
    + rewrite Hkk, Z.add_0_l. apply IH. intros j.
      destruct (decide (j = k)) as [->|Hne]; [by rewrite Hk, E|].
      specialize (H j). by rewrite lookup_insert_ne in H by done.
Qed.

Lemma sum_map_add {V} (f g : V → Z) (m : gmap string V) :
  sum_map f m + sum_map g m = sum_map (λ v, f v + g v) m.
Proof.
  unfold sum_map. induction (map_to_list m) as [|kv l IH]; [done|]. rewrite !sum_list_cons. lia.
Qed.

Lemma sum_map_filter {V} (f : V → Z) (m m' : gmap string V) :
  m ⊆ m' → (∀ k v, m' !! k = Some v → m !! k = None → f v = 0) → sum_map f m' = sum_map f m.
Proof.
  intros Hsub Hnew. apply sum_map_agree. intros k. destruct (m !! k) as [v|] eqn:E.
  - by rewrite (lookup_weaken _ _ _ _ E Hsub).
  - destruct (m' !! k) as [v|] eqn:E'; simpl; [by apply (Hnew k)|done].
Qed.

(** ** Stable sorting

    [sort.SliceStable] and SQL's [ORDER BY]: insertion from the right, before
    the first element that is not smaller, which keeps equal elements in order. *)
Section stable_sort.
Context {A : Type} (lt : A → A → bool).

Fixpoint insert_sorted (x : A) (l : list A) : list A :=
  match l with
  | [] => [x]
  | y :: l' => if lt y x then y :: insert_sorted x l' else x :: l
  end.

Fixpoint stable_sort (l : list A) : list A :=
  match l with
  | [] => []
  | x :: l' => insert_sorted x (stable_sort l')
  end.

Lemma insert_sorted_perm x l : insert_sorted x l ≡ₚ x :: l.
Proof.
  induction l as [|y l IH]; simpl; [done|].
  destruct (lt y x); [|done]. rewrite IH. constructor.
Qed.

Lemma stable_sort_perm l : stable_sort l ≡ₚ l.
Proof. induction l as [|x l IH]; simpl; [done|]. by rewrite insert_sorted_perm, IH. Qed.

Lemma elem_of_stable_sort x l : x ∈ stable_sort l ↔ x ∈ l.
Proof. by rewrite stable_sort_perm. Qed.

Lemma length_stable_sort l : length (stable_sort l) = length l.
Proof. apply Permutation_length, stable_sort_perm. Qed.

(** The order is a strict weak order on the elements that satisfy [D]. *)
Context (D : A → Prop)
  (lt_asym : ∀ x y, D x → D y → lt x y = true → lt y x = false)
  (ge_trans : ∀ x y z, D x → D y → D z → lt y x = false → lt z y = false → lt z x = false).

Lemma insert_sorted_sorted x l :
  D x → Forall D l → StronglySorted (λ a b, lt b a = false) l →
  StronglySorted (λ a b, lt b a = false) (insert_sorted x l).
Proof.
  intros Hx. induction l as [|y l IH]; intros Hl Hs; simpl.
  { by repeat constructor. }
  apply Forall_cons in Hl as [Hy Hl]. apply StronglySorted_inv in Hs as [Hs Hall].
  destruct (lt y x) eqn:E.
  - constructor; [by apply IH|]. apply Forall_forall. intros z Hz.
    rewrite insert_sorted_perm in Hz. apply elem_of_cons in Hz as [->|Hz].
    + by apply lt_asym.
    + rewrite Forall_forall in Hall. by apply Hall.
  - constructor; [by constructor|]. constructor; [done|].
    rewrite Forall_forall in Hall, Hl |- *.
    intros z Hz. apply (ge_trans x y z); auto.
Qed.

Lemma stable_sort_sorted l :
  Forall D l → StronglySorted (λ a b, lt b a = false) (stable_sort l).
Proof.
  induction l as [|x l IH]; intros Hl; simpl; [constructor|].
  apply Forall_cons in Hl as [Hx Hl].
  apply insert_sorted_sorted; [done| |by apply IH].
  by rewrite stable_sort_perm.
Qed.

(** The first element is one no other element precedes. *)
Lemma stable_sort_head l x l' :
  Forall D l → stable_sort l = x :: l' → x ∈ l ∧ ∀ y, y ∈ l → y = x ∨ lt y x = false.
Proof.
  intros Hl Heq. pose proof (stable_sort_sorted l Hl) as Hs. rewrite Heq in Hs.
  apply StronglySorted_inv in Hs as [_ Hall]. rewrite Forall_forall in Hall. split.
  - rewrite <-elem_of_stable_sort, Heq. constructor.
  - intros y Hy. rewrite <-elem_of_stable_sort, Heq in Hy.
    apply elem_of_cons in Hy as [->|Hy]; auto.
Qed.
End stable_sort.

(** Lexicographic comparison of strings by bytes, Go's [<] on strings. *)
Definition string_ltb (a b : string) : bool := String.ltb a b.

Lemma ascii_compare_eq a b : Ascii.compare a b = Eq → a = b.
Proof.
  unfold Ascii.compare. intros H%N.compare_eq.
  by rewrite <-(Ascii.ascii_N_embedding a), <-(Ascii.ascii_N_embedding b), H.
Qed.

Lemma string_compare_lt_trans a b c :
  String.compare a b = Lt → String.compare b c = Lt → String.compare a c = Lt.
Proof.
  revert b c. induction a as [|x a IH]; intros [|y b] [|z c]; simpl; try done.
  destruct (Ascii.compare x y) eqn:Exy; [|intros _|done];
    destruct (Ascii.compare y z) eqn:Eyz; try done.
  - apply ascii_compare_eq in Exy, Eyz. subst.
    unfold Ascii.compare. rewrite N.compare_refl. apply IH.
  - apply ascii_compare_eq in Exy. subst. by rewrite Eyz.
  - apply ascii_compare_eq in Eyz. subst. by rewrite Exy.
  - unfold Ascii.compare in *. rewrite N.compare_lt_iff in *. intros _.
    by rewrite (proj2 (N.compare_lt_iff _ _)); [|etransitivity].
Qed.

Lemma string_ltb_lt a b : string_ltb a b = true ↔ String.compare a b = Lt.
Proof. unfold string_ltb, String.ltb. by destruct (String.compare a b). Qed.

Lemma string_ltb_trans a b c :
  string_ltb a b = true → string_ltb b c = true → string_ltb a c = true.
Proof. rewrite !string_ltb_lt. apply string_compare_lt_trans. Qed.

Lemma string_ltb_asym a b : string_ltb a b = true → string_ltb b a = false.
Proof.
  unfold string_ltb, String.ltb. rewrite (String.compare_antisym b a).
  by destruct (String.compare a b).
Qed.

Lemma string_ltb_total a b : string_ltb a b = false → string_ltb b a = false → a = b.
Proof.
  unfold string_ltb, String.ltb. rewrite (String.compare_antisym b a).
  destruct (String.compare a b) eqn:E; try done. intros _ _.
  by apply String.compare_eq_iff.
Qed.

Lemma string_ltb_irrefl a : string_ltb a a = false.
Proof. destruct (string_ltb a a) eqn:E; [|done]. by rewrite (string_ltb_asym _ _ E) in E. Qed.

Lemma string_geb_trans a b c :
  string_ltb b a = false → string_ltb c b = false → string_ltb c a = false.
Proof.
  intros Hba Hcb. destruct (string_ltb c a) eqn:Hca; [|done].
  destruct (string_ltb b c) eqn:Hbc.
  - by rewrite (string_ltb_trans _ _ _ Hbc Hca) in Hba.
  - by rewrite (string_ltb_total c b Hcb Hbc), Hba in Hca.
Qed.
