(* ===== verification/GoStrings.v ===== *)
(** * Go strings

    The parts of Go's [strings], [strconv], [unicode/utf8] and [fmt] the program
    uses, on byte strings: UTF-8 decoding with Go's replacement rule for invalid
    bytes, [TrimSpace], [Split], [HasPrefix]/[TrimPrefix]/[HasSuffix]/
    [TrimSuffix], [Contains], [Cut], [Trim], [EqualFold], [ToLower], [Atoi], [ParseBool] and the ["%d"]
    and ["%02d"] verbs. *)
From stdpp Require Import base gmap strings list pretty.
From Stdlib Require Import ZArith Lia Ascii.
From S2P Require Import Prelude.

Definition byte_of (a : ascii) : Z := Z.of_N (Ascii.N_of_ascii a).

Fixpoint bytes (s : string) : list ascii :=
  match s with
  | EmptyString => []
  | String a s' => a :: bytes s'
  end.

Fixpoint of_bytes (l : list ascii) : string :=
  match l with
  | [] => EmptyString
  | a :: l' => String a (of_bytes l')
  end.

Lemma of_bytes_bytes s : of_bytes (bytes s) = s.
Proof. induction s; simpl; congruence. Qed.
Lemma bytes_of_bytes l : bytes (of_bytes l) = l.
Proof. induction l; simpl; congruence. Qed.
Lemma bytes_app s t : bytes (s +:+ t) = bytes s ++ bytes t.
Proof. induction s as [|a s IH]; simpl; [done|]. by rewrite <-IH. Qed.

(** ** UTF-8 *)

Definition rune_error : Z := 0xFFFD.
Definition between (lo hi x : Z) : bool := (lo <=? x) && (x <=? hi).
Definition is_cont (a : ascii) : bool := between 0x80 0xBF (byte_of a).

(** The range the second byte must lie in, by first byte ([utf8.acceptRanges]). *)
Definition accept_range (b0 : Z) : Z * Z :=
  if b0 =? 0xE0 then (0xA0, 0xBF)
  else if b0 =? 0xED then (0x80, 0x9F)
  else if b0 =? 0xF0 then (0x90, 0xBF)
  else if b0 =? 0xF4 then (0x80, 0x8F)
  else (0x80, 0xBF).

Definition second_ok (b0 : Z) (a1 : ascii) : bool :=
  let '(lo, hi) := accept_range b0 in between lo hi (byte_of a1).

(** [range s] and [[]rune(s)]: a byte that starts no valid sequence is one
    replacement rune. Each rune is paired with the bytes it was read from. *)
Fixpoint decode_runes (l : list ascii) : list (Z * list ascii) :=
  match l with
  | [] => []
  | a0 :: l1 =>
      let b0 := byte_of a0 in
      let bad (_ : unit) := (rune_error, [a0]) :: decode_runes l1 in
      if b0 <? 0x80 then (b0, [a0]) :: decode_runes l1
      else if between 0xC2 0xDF b0 then
        match l1 with
        | a1 :: l2 =>
            if is_cont a1
            then ((b0 - 0xC0) * 64 + (byte_of a1 - 0x80), [a0; a1]) :: decode_runes l2
            else bad tt
        | [] => bad tt
        end
      else if between 0xE0 0xEF b0 then
        match l1 with
        | a1 :: a2 :: l3 =>
            if second_ok b0 a1 && is_cont a2
            then ((b0 - 0xE0) * 4096 + (byte_of a1 - 0x80) * 64 + (byte_of a2 - 0x80),
                  [a0; a1; a2]) :: decode_runes l3
            else bad tt
        | _ => bad tt
        end
      else if between 0xF0 0xF4 b0 then
        match l1 with
        | a1 :: a2 :: a3 :: l4 =>
            if second_ok b0 a1 && is_cont a2 && is_cont a3
            then ((b0 - 0xF0) * 262144 + (byte_of a1 - 0x80) * 4096
                    + (byte_of a2 - 0x80) * 64 + (byte_of a3 - 0x80),
                  [a0; a1; a2; a3]) :: decode_runes l4
            else bad tt
        | _ => bad tt
        end
      else bad tt
  end.

Definition rune_count (s : string) : Z := Z.of_nat (length (decode_runes (bytes s))).

(** [unicode.IsSpace]. *)
Definition is_space (r : Z) : bool :=
  between 9 13 r || (r =? 32) || (r =? 0x85) || (r =? 0xA0) || (r =? 0x1680)
  || between 0x2000 0x200A r || (r =? 0x2028) || (r =? 0x2029) || (r =? 0x202F)
  || (r =? 0x205F) || (r =? 0x3000).

Fixpoint drop_while {A} (p : A → bool) (l : list A) : list A :=
  match l with
  | [] => []
  | x :: l' => if p x then drop_while p l' else l
  end.

Definition trim_space (s : string) : string :=
  let sp := λ seg : Z * list ascii, is_space seg.1 in
  let kept := reverse (drop_while sp (reverse (drop_while sp (decode_runes (bytes s))))) in
  of_bytes (mjoin (kept.*2)).

(** [strings.TrimSpace(s) == ""]. *)
Definition is_blank (s : string) : bool := String.eqb (trim_space s) "".

Lemma drop_while_nil {A} (p : A → bool) l : drop_while p l = [] ↔ Forall (λ x, p x = true) l.
Proof.
  induction l as [|x l IH]; simpl; [by split|]. rewrite Forall_cons.
  destruct (p x); naive_solver.
Qed.

(** Every decoded rune comes from at least one byte and the runes cover the
    string exactly. *)
Definition covers (segs : list (Z * list ascii)) (l : list ascii) : Prop :=
  mjoin (segs.*2) = l ∧ Forall (λ seg, seg.2 ≠ []) segs.

Lemma covers_cons seg segs l l' :
  seg.2 ≠ [] → covers segs l' → l = seg.2 ++ l' → covers (seg :: segs) l.
Proof. intros Hne [<- Hall] ->. by split; [|constructor]. Qed.

Lemma decode_runes_cover l : covers (decode_runes l) l.
Proof.
  remember (length l) as n eqn:Hn. revert l Hn.
  induction (lt_wf n) as [n _ IH]. intros l ->.
  assert (Hrec : ∀ l', (length l' < length l)%nat → covers (decode_runes l') l')
    by (intros; by eapply IH).
  destruct l as [|a0 l1]; [done|]. simpl.
  repeat case_match; subst;
    (eapply covers_cons; [done|apply Hrec; simpl; lia|reflexivity]).
Qed.

(** A string is blank exactly when all its runes are white space. *)
Lemma is_blank_spec s :
  is_blank s = true ↔ Forall (λ seg, is_space seg.1 = true) (decode_runes (bytes s)).
Proof.
  unfold is_blank, trim_space. rewrite String.eqb_eq.
  pose proof (proj2 (decode_runes_cover (bytes s))) as Hne.
  set (segs := decode_runes (bytes s)) in *. rewrite <-drop_while_nil.
  split; intros H; [|by rewrite H].
  destruct (drop_while (λ seg, is_space seg.1) segs) as [|x rest] eqn:E; [done|exfalso].
  assert (Hx : is_space x.1 = false ∧ x.2 ≠ []).
  { clear H. induction segs as [|y segs IH]; simpl in E; [done|].
    apply Forall_cons in Hne as [Hy Hne]. destruct (is_space y.1) eqn:Ey; [by apply IH|].
    by simplify_eq. }
  destruct Hx as [Hx Hxne]. rewrite reverse_cons in H.
  assert (Hd : ∀ pre, drop_while (λ seg, is_space seg.1) (pre ++ [x])
               = drop_while (λ seg, is_space seg.1) pre ++ [x]).
  { induction pre as [|p pre IH]; simpl; [by rewrite Hx|]. by destruct (is_space p.1). }
  rewrite Hd, reverse_snoc in H. csimpl in H.
  destruct (x.2) as [|c cs]; [done|]. simpl in H. done.
Qed.

(** ** Prefixes, suffixes, substrings *)

Definition has_prefix (s p : string) : bool := String.prefix p s.

Fixpoint drop_string (n : nat) (s : string) : string :=
  match n, s with
  | S n', String _ s' => drop_string n' s'
  | _, _ => s
  end.

Definition trim_prefix (s p : string) : string :=
  if has_prefix s p then drop_string (String.length p) s else s.

Definition has_suffix (s p : string) : bool :=
  has_prefix (of_bytes (reverse (bytes s))) (of_bytes (reverse (bytes p))).

Definition trim_suffix (s p : string) : string :=
  if has_suffix s p
  then of_bytes (take (length (bytes s) - length (bytes p)) (bytes s)) else s.

Fixpoint contains (s sub : string) : bool :=
  String.prefix sub s || match s with EmptyString => false | String _ s' => contains s' sub end.

(** [strings.TrimRight(s, "/")] for a single cut-set byte. *)
Definition trim_right_byte (s : string) (c : ascii) : string :=
  of_bytes (reverse (drop_while (λ a, bool_decide (a = c)) (reverse (bytes s)))).

(** [strings.Split(s, sep)] for a one-byte separator. *)
Fixpoint split_on (c : ascii) (s : string) : list string :=
  match s with
  | EmptyString => [EmptyString]
  | String a s' =>
      if bool_decide (a = c) then EmptyString :: split_on c s'
      else match split_on c s' with
           | [] => [String a EmptyString]
           | w :: ws => String a w :: ws
           end
  end.

Lemma has_prefix_app p s : has_prefix (p +:+ s) p = true.
Proof.
  unfold has_prefix. induction p as [|a p IH]; simpl; [by destruct s|].
  destruct (ascii_dec a a); [apply IH|done].
Qed.
Lemma trim_prefix_app p s : trim_prefix (p +:+ s) p = s.
Proof.
  unfold trim_prefix. rewrite has_prefix_app. by induction p.
Qed.

Lemma split_on_none c s : c ∉ bytes s → split_on c s = [s].
Proof.
  induction s as [|a s IH]; simpl; [done|]. rewrite not_elem_of_cons. intros [? ?].
  rewrite bool_decide_false by congruence. by rewrite IH.
Qed.
Lemma split_on_app c s t :
  c ∉ bytes s → split_on c (s +:+ String c t) = s :: split_on c t.
Proof.
  induction s as [|a s IH]; simpl.
  { intros _. by rewrite bool_decide_true. }
  rewrite not_elem_of_cons. intros [? ?].
  rewrite bool_decide_false by congruence. by rewrite IH.
Qed.

Lemma split_on_cons c s : ∃ w ws, split_on c s = w :: ws.
Proof. destruct s as [|a s]; simpl; [by eauto|]. repeat case_match; by eauto. Qed.

Lemma split_on_one c s q : split_on c s = [q] → c ∉ bytes q ∧ s = q.
Proof.
  revert q. induction s as [|a s IH]; simpl; intros q H; [simplify_eq; split; [apply not_elem_of_nil|done]|].
  destruct (split_on_cons c s) as (w & ws & E). rewrite E in H.
  case_bool_decide; simplify_eq. destruct (IH w) as [? ->]; [done|].
  simpl. rewrite not_elem_of_cons. split; [split; congruence|done].
Qed.

Lemma split_on_two c s p q :
  split_on c s = [p; q] → c ∉ bytes p ∧ c ∉ bytes q ∧ s = p +:+ String c q.
Proof.
  revert p. induction s as [|a s IH]; simpl; intros p H; [done|].
  case_bool_decide as Ha.
  - simplify_eq. destruct (split_on_one c s q) as [? ->]; [done|]. split_and!; [apply not_elem_of_nil|done|done].
  - destruct (split_on_cons c s) as (w & ws & E). rewrite E in H. simplify_eq.
    destruct (IH w) as (? & ? & ->); [done|]. simpl. rewrite not_elem_of_cons.
    split_and!; [congruence|done|done|done].
Qed.

(** ** Decimal integers *)

Definition digit_val (a : ascii) : option Z :=
  let b := byte_of a in if between 48 57 b then Some (b - 48) else None.

Fixpoint parse_digits (acc : Z) (l : list ascii) : option Z :=
  match l with
  | [] => Some acc
  | a :: l' => d ← digit_val a; parse_digits (acc * 10 + d) l'
  end.

(** [strconv.Atoi] and [strconv.ParseInt(s, 10, 64)]: an optional sign, at least
    one digit, and a value that fits 64 bits. *)
Definition atoi (s : string) : option Z :=
  let '(neg, ds) :=
    match bytes s with
    | a :: l => if bool_decide (a = "-"%char) then (true, l)
                else if bool_decide (a = "+"%char) then (false, l) else (false, a :: l)
    | [] => (false, [])
    end in
  match ds with
  | [] => None
  | _ => v ← parse_digits 0 ds;
         let z := if neg : bool then - v else v in
         if (- 2 ^ 63 <=? z) && (z <? 2 ^ 63) then Some z else None
  end.

Definition digit_char (d : Z) : ascii := Ascii.ascii_of_N (Z.to_N (48 + d)).

(** ["%d"]. *)
Definition itoa (z : Z) : string := pretty z.

(** ["%02d"] for [0 <= z < 100]. *)
Definition pad2 (z : Z) : string := of_bytes [digit_char (z / 10); digit_char (z mod 10)].

Lemma digit_val_char d : 0 ≤ d ≤ 9 → digit_val (digit_char d) = Some d.
Proof.
  intros Hd. unfold digit_val, digit_char, byte_of.
  rewrite Ascii.N_ascii_embedding by lia. rewrite Z2N.id by lia. unfold between.
  rewrite (proj2 (Z.leb_le 48 (48 + d))) by lia.
  rewrite (proj2 (Z.leb_le (48 + d) 57)) by lia. simpl. f_equal. lia.
Qed.

Lemma digit_char_not d a : 0 ≤ d ≤ 9 → digit_val a = None → digit_char d ≠ a.
Proof. intros Hd Ha <-. by rewrite digit_val_char in Ha. Qed.

Lemma pad2_bytes z : bytes (pad2 z) = [digit_char (z / 10); digit_char (z mod 10)].
Proof. apply bytes_of_bytes. Qed.

Lemma atoi_pad2 z : 0 ≤ z < 100 → atoi (pad2 z) = Some z.
Proof.
  intros Hz. assert (0 ≤ z / 10 ≤ 9) by (split; [apply Z.div_pos|apply Z.lt_succ_r, Z.div_lt_upper_bound]; lia).
  assert (0 ≤ z mod 10 ≤ 9) by (pose proof (Z.mod_pos_bound z 10); lia).
  unfold atoi. rewrite pad2_bytes.
  rewrite !bool_decide_false by (apply digit_char_not; [lia|reflexivity]). simpl.
  rewrite !digit_val_char by lia. simpl.
  replace ((0 * 10 + z / 10) * 10 + z mod 10) with z by (pose proof (Z.div_mod z 10); lia).
  rewrite (proj2 (Z.leb_le _ _)), (proj2 (Z.ltb_lt _ _)) by lia. done.
Qed.

(** ** Cutting and trimming *)

Fixpoint index_byte (c : ascii) (l : list ascii) : option nat :=
  match l with
  | [] => None
  | a :: l' => if bool_decide (a = c) then Some 0%nat else S <$> index_byte c l'
  end.

(** [strings.Cut(s, sep)] for a separator of one byte. *)
Definition cut (c : ascii) (s : string) : option (string * string) :=
  (λ i, (of_bytes (take i (bytes s)), of_bytes (drop (S i) (bytes s)))) <$> index_byte c (bytes s).

(** [strings.Trim(s, cutset)] for a cutset of ASCII characters. *)
Definition trim_set (cutset : list ascii) (s : string) : string :=
  let out := λ a, bool_decide (a ∈ cutset) in
  of_bytes (reverse (drop_while out (reverse (drop_while out (bytes s))))).

(** Whether [atoi] fails for its range only. *)
Definition decimal_syntax (s : string) : bool :=
  let digits := match bytes s with
                | a :: l => if bool_decide (a = "-"%char) || bool_decide (a = "+"%char) then l else a :: l
                | [] => []
                end in
  bool_decide (digits ≠ []) && bool_decide (is_Some (parse_digits 0 digits)).

(** [strconv.ParseBool]. *)
Definition parse_bool (s : string) : option bool :=
  if bool_decide (s ∈ ["1"; "t"; "T"; "true"; "TRUE"; "True"]) then Some true
  else if bool_decide (s ∈ ["0"; "f"; "F"; "false"; "FALSE"; "False"]) then Some false
  else None.

(** [strings.EqualFold(s, word)] for a lower-case ASCII [word] without [k] and [s], the two
    letters another character folds to. *)
Definition equal_fold (s word : string) : bool :=
  let fold a := if between 65 90 (byte_of a) then Ascii.ascii_of_N (Z.to_N (byte_of a + 32)) else a in
  String.eqb (of_bytes (fold <$> bytes s)) word.

Lemma cut_some c s p q : cut c s = Some (p, q) → s = p +:+ String c q.
Proof.
  assert (H : ∀ l i, index_byte c l = Some i → l = take i l ++ c :: drop (S i) l).
  { induction l as [|a l IH]; intros i; simpl; [done|]. case_bool_decide as Ha; [by intros [= <-]; subst|].
    destruct (index_byte c l) as [j|] eqn:E; [|done]. intros [= <-]. simpl. f_equal. by apply IH. }
  unfold cut. destruct (index_byte c (bytes s)) as [i|] eqn:E; [|done]. intros [= <- <-].
  rewrite <-(of_bytes_bytes s) at 1. rewrite (H _ _ E) at 1.
  generalize (take i (bytes s)), (drop (S i) (bytes s)). intros l1 l2.
  induction l1 as [|a l1 IH]; [done|]. simpl in *. by rewrite IH.
Qed.

(** ** [strings.ToLower]

    The lower case of a non-ASCII rune is Go's Unicode table, a parameter. *)

Definition ascii_of (b : Z) : ascii := Ascii.ascii_of_N (Z.to_N b).

(** [utf8.AppendRune]. *)
Definition encode_rune (r : Z) : list ascii :=
  if between 0 0x7F r then [ascii_of r]
  else if between 0x80 0x7FF r then [ascii_of (0xC0 + r / 64); ascii_of (0x80 + r mod 64)]
  else
    let r := if between 0x800 0x10FFFF r && negb (between 0xD800 0xDFFF r) then r else rune_error in
    if r <=? 0xFFFF then [ascii_of (0xE0 + r / 4096); ascii_of (0x80 + r / 64 mod 64); ascii_of (0x80 + r mod 64)]
    else [ascii_of (0xF0 + r / 262144); ascii_of (0x80 + r / 4096 mod 64); ascii_of (0x80 + r / 64 mod 64);
          ascii_of (0x80 + r mod 64)].

Section lower.
Context (lower_table : Z → Z).

Definition lower_rune (r : Z) : Z :=
  if between 65 90 r then r + 32 else if r <? 0x80 then r else lower_table r.

Definition to_lower (s : string) : string :=
  of_bytes (mjoin ((λ seg, encode_rune (lower_rune seg.1)) <$> decode_runes (bytes s))).

End lower.

(** ** What a printed integer is made of *)

Lemma pretty_N_go_bytes c n s :
  (∀ d, c ≠ pretty_N_char d) → c ∉ bytes s → c ∉ bytes (pretty_N_go n s).
Proof.
  intros Hc. revert s. induction (N.lt_wf_0 n) as [n _ IH]; intros s Hs.
  destruct (decide (n = 0%N)) as [->|Hn]; [by rewrite pretty_N_go_0|].
  rewrite pretty_N_go_step by lia. apply IH.
  - apply N.div_lt; lia.
  - simpl. rewrite not_elem_of_cons. split; [apply Hc|done].
Qed.

Lemma itoa_bytes c z : (∀ d, c ≠ pretty_N_char d) → c ≠ "-"%char → c ∉ bytes (itoa z).
Proof.
  intros Hc Hm.
  assert (HN : ∀ n : N, c ∉ bytes (pretty n)).
  { intros n. unfold pretty, pretty_N. case_decide.
    - simpl. rewrite not_elem_of_cons. split; [apply (Hc 0%N)|]. set_solver.
    - apply pretty_N_go_bytes; [done|]. simpl. set_solver. }
  unfold itoa. destruct z as [|p|p]; simpl; [apply (HN 0%N)|apply (HN (N.pos p))|].
  rewrite not_elem_of_cons. split; [done|]. apply (HN (N.pos p)).
Qed.

Lemma length_bytes s : length (bytes s) = String.length s.
Proof. induction s; simpl; congruence. Qed.

(** An integer that is printed is read back. *)
Lemma digit_val_pretty d : (d < 10)%N → digit_val (pretty_N_char d) = Some (Z.of_N d).
Proof.
  intros Hd. assert (d ∈ [0; 1; 2; 3; 4; 5; 6; 7; 8; 9]%N) as Hin.
  { repeat rewrite elem_of_cons. lia. }
  repeat (apply elem_of_cons in Hin as [->|Hin]; [reflexivity|]). by apply elem_of_nil in Hin.
Qed.

Lemma parse_pretty_go n s : parse_digits 0 (bytes (pretty_N_go n s)) = parse_digits (Z.of_N n) (bytes s).
Proof.
  revert s. induction (N.lt_wf_0 n) as [n _ IH]; intros s.
  destruct (decide (n = 0%N)) as [->|Hn]; [by rewrite pretty_N_go_0|].
  rewrite pretty_N_go_step, IH by (try apply N.div_lt; lia). cbn [bytes parse_digits].
  rewrite digit_val_pretty by (apply N.mod_lt; lia). cbn. f_equal.
  rewrite N2Z.inj_div, N2Z.inj_mod. pose proof (Z.div_mod (Z.of_N n) 10). lia.
Qed.

Lemma parse_pretty (n : N) : parse_digits 0 (bytes (pretty n)) = Some (Z.of_N n).
Proof.
  unfold pretty, pretty_N. case_decide as Hn; [by subst|]. apply parse_pretty_go.
Qed.

Lemma atoi_itoa z : 0 ≤ z < 2 ^ 63 → atoi (itoa z) = Some z.
Proof.
  intros Hz. assert (E : itoa z = pretty (Z.to_N z)) by (unfold itoa; destruct z; [done|done|lia]).
  pose proof (parse_pretty (Z.to_N z)) as Hp. rewrite Z2N.id in Hp by lia.
  unfold atoi. rewrite E. destruct (bytes (pretty (Z.to_N z))) as [|a l] eqn:El.
  { cbn in Hp. injection Hp as <-. by apply (f_equal of_bytes) in El; rewrite of_bytes_bytes in El. }
  cbn [parse_digits] in Hp. destruct (digit_val a) as [d|] eqn:Ed; [|done].
  rewrite !bool_decide_false by (by intros ->). cbn [parse_digits]. rewrite Ed. cbn [mbind option_bind] in Hp |- *.
  rewrite Hp. cbn. rewrite (proj2 (Z.leb_le _ _)), (proj2 (Z.ltb_lt _ _)) by lia. done.
Qed.

(** ** Text that is ASCII *)

Definition plain_ascii (l : list ascii) : Prop := Forall (λ a, byte_of a < 0x80) l.

Lemma decode_plain l : plain_ascii l → decode_runes l = (λ a, (byte_of a, [a])) <$> l.
Proof.
  induction 1 as [|a l Ha _ IH]; [done|]. simpl. rewrite (proj2 (Z.ltb_lt _ _) Ha). by rewrite IH.
Qed.

Lemma joined_singletons (l : list ascii) : mjoin (((λ a, (byte_of a, [a])) <$> l).*2) = l.
Proof. induction l as [|a l IH]; [done|]. exact (f_equal (cons a) IH). Qed.

(** White space around a text goes, and nothing else. *)
Lemma trim_space_between l m r :
  plain_ascii (l ++ m ++ r) → Forall (λ a, is_space (byte_of a) = true) (l ++ r) →
  (∀ a, head m = Some a → is_space (byte_of a) = false) → (∀ a, last m = Some a → is_space (byte_of a) = false) → m ≠ [] →
  trim_space (of_bytes (l ++ m ++ r)) = of_bytes m.
Proof.
  intros Hp Hs Hh Ht Hm. unfold trim_space. rewrite bytes_of_bytes, decode_plain by done.
  set (seg := λ a, (byte_of a, [a])). rewrite !fmap_app. apply Forall_app in Hs as [Hl Hr].
  assert (Hdrop : ∀ l k, Forall (λ a, is_space (byte_of a) = true) l →
    drop_while (λ x : Z * list ascii, is_space x.1) ((seg <$> l) ++ k) = drop_while (λ x, is_space x.1) k).
  { intros l' k. induction 1 as [|a l' Ha _ IH]; [done|]. cbn. by rewrite Ha. }
  rewrite Hdrop by done.
  assert (Hstop : ∀ m k, m ≠ [] → (∀ a, head m = Some a → is_space (byte_of a) = false) →
    drop_while (λ x : Z * list ascii, is_space x.1) ((seg <$> m) ++ k) = (seg <$> m) ++ k).
  { intros [|a m'] k Hne Ha; [done|]. cbn. by rewrite Ha. }
  rewrite Hstop by done. rewrite reverse_app, <-!fmap_reverse, Hdrop by (by apply Forall_reverse).
  rewrite <-(app_nil_r (seg <$> reverse m)), Hstop.
  - rewrite app_nil_r, <-fmap_reverse, reverse_involutive. f_equal. apply joined_singletons.
  - intros E. apply Hm. by rewrite <-(reverse_involutive m), E.
  - intros a Ha. apply Ht. by rewrite <-head_reverse.
Qed.

Lemma drop_while_none {A} (p : A → bool) l : (∀ a, head l = Some a → p a = false) → drop_while p l = l.
Proof. destruct l as [|a l]; [done|]. cbn. intros H. by rewrite H. Qed.

Lemma cut_app c s t : c ∉ bytes s → cut c (s +:+ String c t) = Some (s, t).
Proof.
  intros Hc. unfold cut. rewrite bytes_app.
  assert (Hi : index_byte c (bytes s ++ c :: bytes t) = Some (length (bytes s))).
  { induction (bytes s) as [|a l IH]; cbn; [by rewrite bool_decide_true|].
    apply not_elem_of_cons in Hc as [Ha Hl]. rewrite bool_decide_false by congruence. by rewrite IH. }
  change (bytes (String c t)) with (c :: bytes t). rewrite Hi. cbn [fmap option_fmap option_map]. rewrite take_app_length.
  rewrite drop_app_ge by lia. replace (S (length (bytes s)) - length (bytes s))%nat with 1%nat by lia.
  rewrite of_bytes_bytes. change (drop 1 (c :: bytes t)) with (bytes t). by rewrite of_bytes_bytes.
Qed.
