(* ===== verification/Float64.v ===== *)
(** * Go's [float64]

    IEEE 754 binary64 through the Standard Library's executable specification
    [SpecFloat] (53 bits of precision, round to nearest even): the arithmetic and
    comparisons the program uses, conversions from and to integers, and the
    order of the non-NaN values. *)
From stdpp Require Import base list.
From Stdlib Require Import ZArith Lia SpecFloat.
From S2P Require Import Prelude.

Definition float64 := spec_float.

Definition fadd (x y : float64) : float64 := SFadd 53 1024 x y.
Definition fmul (x y : float64) : float64 := SFmul 53 1024 x y.
Definition fdiv (x y : float64) : float64 := SFdiv 53 1024 x y.
Definition flt (x y : float64) : bool := SFltb x y.
Definition fle (x y : float64) : bool := SFleb x y.
Definition feq (x y : float64) : bool := SFeqb x y.

(** [float64(n)]: the nearest representable value. *)
Definition float_of_Z (n : Z) : float64 := binary_normalize 53 1024 n 0 false.

(** The constant [n / d] (a decimal literal, or a [numeric] column read as
    [float8]): correctly rounded. *)
Definition float_of_ratio (n d : Z) : float64 := fdiv (float_of_Z n) (float_of_Z d).

(** [int64(math.Round(x))]: half away from zero. *)
Definition round_to_Z (x : float64) : Z :=
  match x with
  | S754_finite s m e =>
      let r := if 0 <=? e then Z.pos m * 2 ^ e
               else (2 * Z.pos m + 2 ^ (- e)) / (2 * 2 ^ (- e)) in
      if s : bool then - r else r
  | _ => 0
  end.

Definition is_nan (x : float64) : bool := match x with S754_nan => true | _ => false end.

(** ** The order of non-NaN values

    [SFcompare] is the lexicographic comparison of sign class, exponent and
    mantissa. *)
Definition key (x : float64) : Z * Z * Z :=
  match x with
  | S754_zero _ => (0, 0, 0)
  | S754_infinity s => (if s : bool then -2 else 2, 0, 0)
  | S754_nan => (0, 0, 0)
  | S754_finite s m e => if s : bool then (-1, - e, - Z.pos m) else (1, e, Z.pos m)
  end.

Definition key_lt (a b : Z * Z * Z) : Prop :=
  a.1.1 < b.1.1 ∨ a.1.1 = b.1.1 ∧ (a.1.2 < b.1.2 ∨ a.1.2 = b.1.2 ∧ a.2 < b.2).

Lemma SFcompare_key x y :
  is_nan x = false → is_nan y = false →
  match SFcompare x y with
  | Some Lt => key_lt (key x) (key y)
  | Some Eq => key x = key y
  | Some Gt => key_lt (key y) (key x)
  | None => False
  end.
Proof.
  destruct x as [sx|sx| |sx mx ex], y as [sy|sy| |sy my ey]; try done; intros _ _;
    unfold key_lt; simpl; try (destruct sx; simpl; lia); try (destruct sy; simpl; lia);
    try (destruct sx, sy; simpl; first [done|lia]).
  destruct sx, sy; simpl; try lia;
    destruct (Z.compare_spec ex ey); simpl; try lia;
    change (PosDef.Pos.compare_cont Eq mx my) with (Pos.compare mx my);
    destruct (Pos.compare_spec mx my); simpl; subst; try lia; done.
Qed.

Lemma flt_key x y : is_nan x = false → is_nan y = false → flt x y = true ↔ key_lt (key x) (key y).
Proof.
  intros Hx Hy. pose proof (SFcompare_key x y Hx Hy) as H. unfold flt, SFltb.
  destruct (SFcompare x y) as [[]|]; unfold key_lt in *; try done;
    split; intros; try done; exfalso; [rewrite H in *|]; lia.
Qed.

Lemma feq_key x y : is_nan x = false → is_nan y = false → feq x y = true ↔ key x = key y.
Proof.
  intros Hx Hy. pose proof (SFcompare_key x y Hx Hy) as H. unfold feq, SFeqb.
  destruct (SFcompare x y) as [[]|]; unfold key_lt in *; try done;
    split; intros Heq; try done; exfalso; rewrite Heq in H; lia.
Qed.
