(* ===== verification/NodeState.v ===== *)
(** * Node state machine

    [internal/node/state/state.go]: the thirteen node states, the table of legal
    transitions, [Parse], [IsKnown], [CanTransition], [Transition], [Active]. *)
From stdpp Require Import base gmap strings list relations.
From Stdlib Require Import ZArith Lia.
From S2P Require Import Prelude.

Inductive State :=
  | Unregistered | Registering | Offline | Starting | Benchmarking | Idle
  | Preparing | Available | Busy | Draining | Paused | Error | Updating.

#[export] Instance State_eq_dec : EqDecision State.
Proof. solve_decision. Defined.

Definition all_states : list State :=
  [Unregistered; Registering; Offline; Starting; Benchmarking; Idle; Preparing;
   Available; Busy; Draining; Paused; Error; Updating].

(** The wire name, Go's [string(state)]. *)
Definition state_string (s : State) : string :=
  match s with
  | Unregistered => "UNREGISTERED" | Registering => "REGISTERING"
  | Offline => "OFFLINE" | Starting => "STARTING" | Benchmarking => "BENCHMARKING"
  | Idle => "IDLE" | Preparing => "PREPARING_MODEL" | Available => "AVAILABLE"
  | Busy => "BUSY" | Draining => "DRAINING" | Paused => "PAUSED" | Error => "ERROR"
  | Updating => "UPDATING"
  end.

Definition legalTransitions (from : State) : list State :=
  match from with
  | Unregistered => [Registering]
  | Registering => [Offline; Error]
  | Offline => [Starting; Updating; Error]
  | Starting => [Benchmarking; Idle; Preparing; Paused; Draining; Error; Updating; Offline]
  | Benchmarking => [Idle; Preparing; Paused; Draining; Error; Updating; Offline]
  | Idle => [Preparing; Paused; Draining; Error; Updating; Offline]
  | Preparing => [Available; Paused; Draining; Error; Updating; Offline]
  | Available => [Busy; Draining; Paused; Error; Updating; Offline]
  | Busy => [Available; Draining; Error; Updating; Offline]
  | Draining => [Available; Paused; Error; Updating; Offline]
  | Paused => [Idle; Preparing; Draining; Error; Updating; Offline]
  | Error => [Offline; Starting; Updating]
  | Updating => [Starting; Offline; Error]
  end.

(** The key lookup [legalTransitions[state]] on an arbitrary string. *)
Definition lookup_state (value : string) : option State :=
  list_find (λ s, state_string s = value) all_states ≫= λ '(_, s), Some s.

Definition IsKnown (value : string) : bool := bool_decide (is_Some (lookup_state value)).

Definition Parse (value : string) : result State :=
  match lookup_state value with
  | Some s => Ok s
  | None => Err (ErrMsg "unknown node state")
  end.

Definition CanTransition (from to : State) : bool :=
  bool_decide (from = to) || bool_decide (to ∈ legalTransitions from).

(** The two unknown-state errors of the source cannot arise here: a [State] is a
    parsed, known state. *)
Definition Transition (from to : State) : result unit :=
  if CanTransition from to then Ok tt
  else Err (ErrMsg "illegal node state transition").

Definition Active (s : State) : bool :=
  match s with
  | Starting | Benchmarking | Idle | Preparing | Available | Busy | Draining
  | Paused | Error | Updating => true
  | _ => false
  end.

(** ** Properties *)

(** One legal move, and the states a node can get to. *)
Definition legal_step (a b : State) : Prop := Transition a b = Ok tt.

Lemma Transition_ok a b : Transition a b = Ok tt ↔ CanTransition a b = true.
Proof. unfold Transition. by destruct (CanTransition a b). Qed.

Lemma lookup_state_string s : lookup_state (state_string s) = Some s.
Proof. by destruct s. Qed.

Lemma lookup_state_sound v s : lookup_state v = Some s → state_string s = v.
Proof.
  unfold lookup_state. intros ([i s'] & (_ & H & _)%list_find_Some & ?)%bind_Some.
  by simplify_eq.
Qed.

(** Parsing a wire name gives a state exactly when the string is that state's
    name: names are distinct, and nothing else parses. *)
Theorem Parse_roundtrip v s : Parse v = Ok s ↔ v = state_string s.
Proof.
  unfold Parse. split.
  - destruct (lookup_state v) eqn:E; [|done]. intros ?. simplify_eq.
    by apply lookup_state_sound in E.
  - intros ->. by rewrite lookup_state_string.
Qed.

(** Work can only start from [Available], and registration is never undone. *)
Lemma busy_only_from_available s : s ≠ Busy → CanTransition s Busy = true → s = Available.
Proof. by destruct s. Qed.

Lemma unregistered_unreachable s : s ≠ Unregistered → CanTransition s Unregistered = false.
Proof. by destruct s. Qed.

(** Lifecycle of the state machine: every state is reachable from a fresh
    installation; whatever an active node is doing it can be taken offline in
    one move; it only becomes busy from [Available]; and no sequence of moves
    makes a registered node unregistered again. *)
Theorem state_machine_lifecycle :
  (∀ s, rtc legal_step Unregistered s) ∧
  (∀ s, Active s = true → legal_step s Offline) ∧
  (∀ s, s ≠ Busy → legal_step s Busy → s = Available) ∧
  (∀ s s', s ≠ Unregistered → rtc legal_step s s' → s' ≠ Unregistered).
Proof.
  assert (Hstep : ∀ a b, CanTransition a b = true → legal_step a b)
    by (intros a b; unfold legal_step; by rewrite Transition_ok).
  split_and!.
  - assert (Hoff : rtc legal_step Unregistered Offline).
    { apply (rtc_l _ _ Registering), rtc_once; by apply Hstep. }
    assert (Hstart : rtc legal_step Unregistered Starting)
      by (eapply rtc_r; [done|]; by apply Hstep).
    assert (Hprep : rtc legal_step Unregistered Preparing)
      by (eapply rtc_r; [done|]; by apply Hstep).
    assert (Hav : rtc legal_step Unregistered Available)
      by (eapply rtc_r; [exact Hprep|]; by apply Hstep).
    intros []; try done.
    + apply rtc_once. by apply Hstep.
    + eapply rtc_r; [exact Hstart|]. by apply Hstep.
    + eapply rtc_r; [exact Hstart|]. by apply Hstep.
    + eapply rtc_r; [exact Hav|]. by apply Hstep.
    + eapply rtc_r; [exact Hav|]. by apply Hstep.
    + eapply rtc_r; [exact Hav|]. by apply Hstep.
    + eapply rtc_r; [exact Hoff|]. by apply Hstep.
    + eapply rtc_r; [exact Hoff|]. by apply Hstep.
  - intros s Hs. apply Hstep. by destruct s.
  - intros s Hne H%Transition_ok. by apply busy_only_from_available.
  - intros s s' Hne Hrtc. induction Hrtc as [|a b c Hab _ IH]; [done|].
    apply IH. intros ->. apply Transition_ok in Hab.
    by rewrite unregistered_unreachable in Hab.
Qed.
