(* ===== verification/Schedule.v ===== *)
(** * Work windows

    [internal/node/schedule/schedule.go]: ["HH:MM"] clock times, a daily window
    that may cross midnight, and the window test at an instant. *)
From stdpp Require Import base gmap strings list.
From Stdlib Require Import ZArith Lia Ascii.
From S2P Require Import Prelude GoStrings.

Inductive ScheduleState := StateInWindow | StateOutOfWindow.

#[export] Instance ScheduleState_eq_dec : EqDecision ScheduleState.
Proof. solve_decision. Defined.

Definition schedule_state_string (s : ScheduleState) : string :=
  match s with StateInWindow => "in_window" | StateOutOfWindow => "out_of_window" end.

Record ClockTime := { Hour : Z; Minute : Z }.
Record Window := { From : ClockTime; Until : ClockTime }.

Definition ParseClockTime (value : string) : result ClockTime :=
  match split_on ":"%char value with
  | [h; m] =>
      match atoi h with
      | Some hour =>
          if (hour <? 0) || (23 <? hour) then Err (ErrMsg "hour must be 00 through 23")
          else match atoi m with
               | Some minute =>
                   if (minute <? 0) || (59 <? minute)
                   then Err (ErrMsg "minute must be 00 through 59")
                   else Ok {| Hour := hour; Minute := minute |}
               | None => Err (ErrMsg "minute must be 00 through 59")
               end
      | None => Err (ErrMsg "hour must be 00 through 23")
      end
  | _ => Err (ErrMsg "expected HH:MM")
  end.

Definition ParseWindow (from until : string) : result Window :=
  match ParseClockTime from with
  | Err e => Err (ErrWrap "parse from time" e)
  | Ok start =>
      match ParseClockTime until with
      | Err e => Err (ErrWrap "parse until time" e)
      | Ok end_ => Ok {| From := start; Until := end_ |}
      end
  end.

(** A [time.Location]: the UTC offset, in seconds, in force at an instant. *)
Definition Location := Z → Z.

(** [local.Hour()*60 + local.Minute()]. *)
Definition minute_of_day (now : Z) (loc : Location) : Z :=
  ((now / second + loc now) mod 86400) / 60.

Definition clock_minutes (c : ClockTime) : Z := Hour c * 60 + Minute c.

Definition StateAt (w : Window) (now : Z) (loc : Location) : ScheduleState :=
  let current := minute_of_day now loc in
  let start := clock_minutes (From w) in
  let end_ := clock_minutes (Until w) in
  if start =? end_ then StateInWindow
  else if start <? end_ then
    if (start <=? current) && (current <? end_) then StateInWindow else StateOutOfWindow
  else
    if (start <=? current) || (current <? end_) then StateInWindow else StateOutOfWindow.

Definition window_string (w : Window) : string :=
  pad2 (Hour (From w)) +:+ ":" +:+ pad2 (Minute (From w)) +:+ "-"
    +:+ pad2 (Hour (Until w)) +:+ ":" +:+ pad2 (Minute (Until w)).

(** ** Properties *)

Definition valid_clock (c : ClockTime) : Prop := 0 ≤ Hour c ≤ 23 ∧ 0 ≤ Minute c ≤ 59.
Definition valid_window (w : Window) : Prop := valid_clock (From w) ∧ valid_clock (Until w).

Definition clock_string (c : ClockTime) : string := pad2 (Hour c) +:+ ":" +:+ pad2 (Minute c).

Lemma ParseClockTime_valid v c : ParseClockTime v = Ok c → valid_clock c.
Proof.
  unfold ParseClockTime. repeat case_match; intros; simplify_eq.
  unfold valid_clock; simpl. repeat match goal with H : _ || _ = false |- _ =>
    apply orb_false_iff in H as [?%Z.ltb_ge ?%Z.ltb_ge] end. lia.
Qed.

Lemma colon_not_in_pad2 z : 0 ≤ z < 100 → ":"%char ∉ bytes (pad2 z).
Proof.
  intros Hz. rewrite pad2_bytes. pose proof (Z.mod_pos_bound z 10).
  assert (0 ≤ z / 10 < 10) by (split; [apply Z.div_pos|apply Z.div_lt_upper_bound]; lia).
  rewrite !not_elem_of_cons. split_and!; [..|apply not_elem_of_nil];
    apply not_eq_sym, digit_char_not; try reflexivity; lia.
Qed.

Lemma ParseClockTime_string c : valid_clock c → ParseClockTime (clock_string c) = Ok c.
Proof.
  intros [Hh Hm]. unfold ParseClockTime, clock_string.
  change (":" +:+ pad2 (Minute c)) with (String ":" (pad2 (Minute c))).
  rewrite split_on_app by (apply colon_not_in_pad2; lia).
  rewrite split_on_none by (apply colon_not_in_pad2; lia).
  rewrite !atoi_pad2 by lia.
  rewrite !(proj2 (Z.ltb_ge _ _)) by lia. simpl. by destruct c.
Qed.

(** A window printed by the agent ("HH:MM" halves of [String]) parses back to
    itself, and whatever parses denotes valid clock times. *)
Theorem window_parse_print :
  (∀ w, valid_window w →
    ParseWindow (clock_string (From w)) (clock_string (Until w)) = Ok w ∧
    window_string w = clock_string (From w) +:+ "-" +:+ clock_string (Until w)) ∧
  (∀ f u w, ParseWindow f u = Ok w → valid_window w).
Proof.
  split.
  - intros w [Hf Hu]. split.
    + unfold ParseWindow. rewrite !ParseClockTime_string by done. by destruct w.
    + reflexivity.
  - intros f u w. unfold ParseWindow.
    destruct (ParseClockTime f) eqn:Ef; [|done]. destruct (ParseClockTime u) eqn:Eu; [|done].
    intros. simplify_eq. split; by eapply ParseClockTime_valid.
Qed.

Lemma minute_of_day_range now loc : 0 ≤ minute_of_day now loc < 1440.
Proof.
  unfold minute_of_day. pose proof (Z.mod_pos_bound (now / second + loc now) 86400).
  split; [apply Z.div_pos|apply Z.div_lt_upper_bound]; lia.
Qed.

Lemma clock_minutes_range c : valid_clock c → 0 ≤ clock_minutes c < 1440.
Proof. unfold valid_clock, clock_minutes. lia. Qed.

(** Distance forward on the 24-hour circle. *)
Definition minutes_until (a b : Z) : Z := (b - a) mod 1440.

Lemma minutes_until_cases a b :
  0 ≤ a < 1440 → 0 ≤ b < 1440 →
  minutes_until a b = if a <=? b then b - a else b - a + 1440.
Proof.
  intros Ha Hb. unfold minutes_until. destruct (Z.leb_spec a b).
  - apply Z.mod_small. lia.
  - symmetry. apply (Z.mod_unique _ _ (-1)); lia.
Qed.

(** The three-way test in the code is the circular interval: a time is in the
    window exactly when, going round the clock from the start, it comes before
    the end; equal ends mean the whole day. *)
Theorem StateAt_circular w now loc :
  valid_window w →
  StateAt w now loc = StateInWindow ↔
  clock_minutes (From w) = clock_minutes (Until w) ∨
  minutes_until (clock_minutes (From w)) (minute_of_day now loc)
    < minutes_until (clock_minutes (From w)) (clock_minutes (Until w)).
Proof.
  intros [Hf%clock_minutes_range Hu%clock_minutes_range].
  pose proof (minute_of_day_range now loc) as Hc.
  rewrite !minutes_until_cases by done. unfold StateAt.
  set (c := minute_of_day now loc) in *. set (f := clock_minutes (From w)) in *.
  set (u := clock_minutes (Until w)) in *.
  destruct (Z.eqb_spec f u); [by split; auto|].
  destruct (Z.ltb_spec f u); destruct (Z.leb_spec f c); destruct (Z.ltb_spec c u);
    destruct (Z.leb_spec f u); simpl; split; intros; try done; lia.
Qed.

(** A window and the window with its ends exchanged split the day: at every
    instant exactly one of them is open. *)
Theorem StateAt_complement w now loc :
  valid_window w → clock_minutes (From w) ≠ clock_minutes (Until w) →
  StateAt w now loc = StateInWindow ↔
  StateAt {| From := Until w; Until := From w |} now loc = StateOutOfWindow.
Proof.
  intros Hw Hne. unfold StateAt; simpl.
  set (c := minute_of_day now loc). set (f := clock_minutes (From w)) in *.
  set (u := clock_minutes (Until w)) in *.
  destruct (Z.eqb_spec f u); [done|]. destruct (Z.eqb_spec u f); [congruence|].
  destruct (Z.ltb_spec f u); destruct (Z.ltb_spec u f); try lia;
  destruct (Z.leb_spec f c); destruct (Z.ltb_spec c u);
  destruct (Z.leb_spec u c); destruct (Z.ltb_spec c f); simpl; split; intros; try done; lia.
Qed.

Lemma StateAt_circular_witness :
  StateAt {| From := {| Hour := 23; Minute := 0 |}; Until := {| Hour := 8; Minute := 0 |} |}
    (2 * 3600 * second) (λ _, 0) = StateInWindow.
Proof.
  apply (StateAt_circular {| From := {| Hour := 23; Minute := 0 |}; Until := {| Hour := 8; Minute := 0 |} |});
    [by repeat split|right; vm_compute; reflexivity].
Defined.
