(* ===== verification/Scheduler.v ===== *)
(** * Scheduler

    [internal/coordinator/jobs/scheduler.go] and the candidate and weight types
    of [types.go]: the weighted float64 score of a node, the choice of the best
    candidate, and the lease clock. *)
From stdpp Require Import base gmap strings list.
From Stdlib Require Import ZArith Lia SpecFloat.
From S2P Require Import Prelude Float64.

Record Candidate := {
  NodeID : string;
  SessionID : string;
  ModelHash : string;
  RuntimeHash : string;
  RollingSuccessRate : float64;
  TokensPerSecond : float64;
  RecentFailureBonus : float64;
  ThermalHeadroom : float64;
  HostFairness : float64;
  RegionalPreference : float64
}.

Record SchedulerWeights := {
  wWarmModelBonus : float64;
  wRollingSuccessRate : float64;
  wNormalizedTokensPerSecond : float64;
  wLowRecentFailureBonus : float64;
  wThermalHeadroom : float64;
  wHostFairness : float64;
  wRegionalPreference : float64
}.

Definition DefaultSchedulerWeights : SchedulerWeights := {|
  wWarmModelBonus := float_of_Z 40;
  wRollingSuccessRate := float_of_Z 20;
  wNormalizedTokensPerSecond := float_of_Z 15;
  wLowRecentFailureBonus := float_of_Z 10;
  wThermalHeadroom := float_of_Z 5;
  wHostFairness := float_of_Z 5;
  wRegionalPreference := float_of_Z 5
|}.

(** [weights == (SchedulerWeights{})]. *)
Definition weights_zero (w : SchedulerWeights) : bool :=
  let z := float_of_Z 0 in
  feq (wWarmModelBonus w) z && feq (wRollingSuccessRate w) z
  && feq (wNormalizedTokensPerSecond w) z && feq (wLowRecentFailureBonus w) z
  && feq (wThermalHeadroom w) z && feq (wHostFairness w) z
  && feq (wRegionalPreference w) z.

Definition scoreCandidate (c : Candidate) (w : SchedulerWeights) : float64 :=
  fadd (fadd (fadd (fadd (fadd (fadd
    (fmul (wWarmModelBonus w) (float_of_Z 1))
    (fmul (wRollingSuccessRate w) (RollingSuccessRate c)))
    (fmul (wNormalizedTokensPerSecond w) (TokensPerSecond c)))
    (fmul (wLowRecentFailureBonus w) (RecentFailureBonus c)))
    (fmul (wThermalHeadroom w) (ThermalHeadroom c)))
    (fmul (wHostFairness w) (HostFairness c)))
    (fmul (wRegionalPreference w) (RegionalPreference c)).

(** The less function given to [sort.SliceStable]. *)
Definition better (w : SchedulerWeights) (a b : Candidate) : bool :=
  let left := scoreCandidate a w in
  let right := scoreCandidate b w in
  if feq left right then string_ltb (NodeID a) (NodeID b) else flt right left.

Definition effective_weights (w : SchedulerWeights) : SchedulerWeights :=
  if weights_zero w then DefaultSchedulerWeights else w.

Definition Choose (w : SchedulerWeights) (candidates : list Candidate) : option Candidate :=
  match candidates with
  | [] => None
  | _ => head (stable_sort (better (effective_weights w)) candidates)
  end.

(** [LeaseClock]. *)
Definition LeaseExpiresAt (now ttl : Z) : Z := now + default_pos ttl (10 * second).
Definition LeaseExpired (now expiresAt : Z) : bool := negb (now <? expiresAt).

(** ** The choice is the maximum of score, then the smallest node id *)

Section choose.
Context (w : SchedulerWeights).

Definition scored (c : Candidate) : Prop := is_nan (scoreCandidate c w) = false.

Definition preferred (a b : Candidate) : Prop :=
  let ka := key (scoreCandidate a w) in
  let kb := key (scoreCandidate b w) in
  key_lt kb ka ∨ ka = kb ∧ string_ltb (NodeID a) (NodeID b) = true.

Lemma better_spec a b : scored a → scored b → better w a b = true ↔ preferred a b.
Proof.
  intros Ha Hb. unfold better, preferred.
  pose proof (feq_key _ _ Ha Hb) as Heq. pose proof (flt_key _ _ Hb Ha) as Hlt.
  destruct (feq (scoreCandidate a w) (scoreCandidate b w)).
  - destruct Heq as [Heq _]. specialize (Heq eq_refl). rewrite <-Heq. unfold key_lt.
    split; [by right|]. intros [|[_ ?]]; [lia|done].
  - rewrite Hlt. split; [by left|]. intros [?|[E _]]; [done|].
    apply Heq in E. done.
Qed.

Lemma preferred_asym a b : preferred a b → ¬ preferred b a.
Proof.
  unfold preferred, key_lt. intros [H|[H Hs]] [H'|[H' Hs']]; try (rewrite <-H' in H); try lia.
  - rewrite H in H'. lia.
  - by rewrite (string_ltb_asym _ _ Hs) in Hs'.
Qed.

Lemma not_preferred_trans a b c : ¬ preferred b a → ¬ preferred c b → ¬ preferred c a.
Proof.
  unfold preferred, key_lt. intros Hba Hcb [Hca|[Hca Hs]].
  - destruct (key (scoreCandidate a w)) as [[a1 a2] a3], (key (scoreCandidate b w)) as [[b1 b2] b3],
      (key (scoreCandidate c w)) as [[c1 c2] c3]; simpl in *.
    assert (¬ (a1 < b1 ∨ a1 = b1 ∧ (a2 < b2 ∨ a2 = b2 ∧ a3 < b3))) by tauto.
    assert (¬ (b1 < c1 ∨ b1 = c1 ∧ (b2 < c2 ∨ b2 = c2 ∧ b3 < c3))) by tauto. lia.
  - rewrite Hca in Hcb.
    destruct (key (scoreCandidate a w)) as [[a1 a2] a3] eqn:Ea,
      (key (scoreCandidate b w)) as [[b1 b2] b3]; simpl in *.
    assert (¬ (a1 < b1 ∨ a1 = b1 ∧ (a2 < b2 ∨ a2 = b2 ∧ a3 < b3))) by tauto.
    assert (¬ (b1 < a1 ∨ b1 = a1 ∧ (b2 < a2 ∨ b2 = a2 ∧ b3 < a3))) by tauto.
    assert (a1 = b1 ∧ a2 = b2 ∧ a3 = b3) as (-> & -> & ->) by lia.
    assert (Hba' : string_ltb (NodeID b) (NodeID a) = false)
      by (destruct (string_ltb (NodeID b) (NodeID a)); tauto).
    assert (Hcb' : string_ltb (NodeID c) (NodeID b) = false)
      by (destruct (string_ltb (NodeID c) (NodeID b)); tauto).
    by rewrite (string_geb_trans _ _ _ Hba' Hcb') in Hs.
Qed.

Lemma better_false a b : scored a → scored b → better w a b = false ↔ ¬ preferred a b.
Proof.
  intros Ha Hb. rewrite <-(better_spec a b Ha Hb). destruct (better w a b); naive_solver.
Qed.

Lemma best_head l x l' :
  Forall scored l → stable_sort (better w) l = x :: l' →
  x ∈ l ∧ ∀ y, y ∈ l → ¬ preferred y x.
Proof.
  intros Hl Heq.
  destruct (stable_sort_head (better w) scored) with (l := l) (x := x) (l' := l') as [Hx Hmax].
  - intros a b Ha Hb. rewrite better_spec, better_false by done. apply preferred_asym.
  - intros a b c Ha Hb Hc. rewrite !better_false by done. apply not_preferred_trans.
  - done.
  - done.
  - split; [done|]. intros y Hy. rewrite Forall_forall in Hl.
    destruct (Hmax y Hy) as [->|Hf]; [|by apply better_false in Hf; auto].
    intros Hp. by apply (preferred_asym x x).
Qed.
End choose.

Lemma Choose_None w l : Choose w l = None ↔ l = [].
Proof.
  destruct l as [|c l]; [done|]. unfold Choose.
  pose proof (length_stable_sort (better (effective_weights w)) (c :: l)).
  destruct (stable_sort _ _); done.
Qed.

(** The chosen candidate is one of the candidates, and no candidate is
    preferred to it. *)
Lemma Choose_best w l c :
  Forall (scored (effective_weights w)) l → Choose w l = Some c →
  c ∈ l ∧ ∀ y, y ∈ l → ¬ preferred (effective_weights w) y c.
Proof.
  intros Hl. unfold Choose. destruct l as [|c0 l0]; [done|].
  destruct (stable_sort _ _) as [|x l'] eqn:E; [done|]. intros ?; simplify_eq/=.
  by eapply best_head.
Qed.

(** ** Candidates as the store builds them

    [EligibleNodes] reads a success rate with four decimals and sets every other
    term to one; [rate_candidate] is such a candidate. *)
Definition rate_candidate (nodeID sessionID modelHash runtimeHash : string) (rate : Z) : Candidate := {|
  NodeID := nodeID; SessionID := sessionID;
  ModelHash := modelHash; RuntimeHash := runtimeHash;
  RollingSuccessRate := float_of_ratio rate 10000;
  TokensPerSecond := float_of_Z 1; RecentFailureBonus := float_of_Z 1;
  ThermalHeadroom := float_of_Z 1; HostFairness := float_of_Z 1;
  RegionalPreference := float_of_Z 1
|}.

(** ** Main theorems *)

(** A candidate list with distinct node ids has at most one best candidate. *)
Lemma best_unique w l a b :
  NoDup (NodeID <$> l) → a ∈ l → b ∈ l → ¬ preferred w a b → ¬ preferred w b a → a = b.
Proof.
  intros Hnd Ha Hb Hab Hba. unfold preferred, key_lt in *.
  destruct (key (scoreCandidate a w)) as [[a1 a2] a3] eqn:Ea,
    (key (scoreCandidate b w)) as [[b1 b2] b3] eqn:Eb; simpl in *.
  assert (¬ (a1 < b1 ∨ a1 = b1 ∧ (a2 < b2 ∨ a2 = b2 ∧ a3 < b3))) by tauto.
  assert (¬ (b1 < a1 ∨ b1 = a1 ∧ (b2 < a2 ∨ b2 = a2 ∧ b3 < a3))) by tauto.
  assert (a1 = b1 ∧ a2 = b2 ∧ a3 = b3) as (-> & -> & ->) by lia.
  assert (Hid : NodeID a = NodeID b).
  { apply string_ltb_total.
    - destruct (string_ltb (NodeID a) (NodeID b)); tauto.
    - destruct (string_ltb (NodeID b) (NodeID a)); tauto. }
  apply list_elem_of_lookup in Ha as [i Hi], Hb as [j Hj].
  assert (i = j) as ->; [|congruence].
  apply (NoDup_lookup (NodeID <$> l) i j (NodeID a) Hnd);
    rewrite list_lookup_fmap, ?Hi, ?Hj; simpl; congruence.
Qed.

(** [Choose] fails only without candidates; otherwise it returns a candidate
    that no other beats: none has a higher score, and among equal scores it has
    the smallest node id. *)
Theorem Choose_maximal w l :
  Forall (scored (effective_weights w)) l → l ≠ [] →
  ∃ c, Choose w l = Some c ∧ c ∈ l ∧ ∀ y, y ∈ l → ¬ preferred (effective_weights w) y c.
Proof.
  intros Hl Hne. destruct (Choose w l) as [c|] eqn:E.
  - exists c. split; [done|]. by apply Choose_best.
  - by apply Choose_None in E.
Qed.

(** The choice does not depend on the order in which the database returned the
    candidates. *)
Theorem Choose_order_independent w l1 l2 :
  Forall (scored (effective_weights w)) l1 → NoDup (NodeID <$> l1) → l1 ≡ₚ l2 →
  Choose w l1 = Choose w l2.
Proof.
  intros Hs Hnd Hp. destruct (decide (l1 = [])) as [->|Hne].
  { by apply Permutation_nil in Hp as ->. }
  assert (Hne2 : l2 ≠ []) by (intros ->; by apply Permutation_nil_r in Hp).
  assert (Hs2 : Forall (scored (effective_weights w)) l2) by (by rewrite <-Hp).
  destruct (Choose w l1) as [a|] eqn:E1; [|by apply Choose_None in E1].
  destruct (Choose w l2) as [b|] eqn:E2; [|by apply Choose_None in E2].
  apply Choose_best in E1 as [Ha Hamax]; [|done]. apply Choose_best in E2 as [Hb Hbmax]; [|done].
  f_equal. rewrite <-Hp in Hb.
  eapply best_unique; [done..| |].
  - apply Hbmax. by rewrite <-Hp.
  - by apply Hamax.
Qed.

(** ** Witnesses *)

Definition sample_candidates : list Candidate :=
  [rate_candidate "node_b" "s2" "m" "r" 9000; rate_candidate "node_a" "s1" "m" "r" 9000;
   rate_candidate "node_c" "s3" "m" "r" 6000].

Definition zero_weights : SchedulerWeights :=
  let z := float_of_Z 0 in
  {| wWarmModelBonus := z; wRollingSuccessRate := z; wNormalizedTokensPerSecond := z;
     wLowRecentFailureBonus := z; wThermalHeadroom := z; wHostFairness := z;
     wRegionalPreference := z |}.

Lemma Choose_maximal_witness :
  NodeID <$> Choose zero_weights sample_candidates = Some "node_a" ∧
  ∃ c, Choose zero_weights sample_candidates = Some c ∧ c ∈ sample_candidates ∧
    ∀ y, y ∈ sample_candidates → ¬ preferred (effective_weights zero_weights) y c.
Proof.
  split; [vm_compute; reflexivity|].
  apply Choose_maximal; [|done]. repeat constructor; vm_compute; reflexivity.
Defined.

Lemma Choose_order_independent_witness :
  Choose zero_weights sample_candidates = Choose zero_weights (reverse sample_candidates).
Proof.
  apply Choose_order_independent.
  - repeat constructor; vm_compute; reflexivity.
  - apply (bool_decide_unpack _). vm_compute. exact I.
  - by rewrite reverse_Permutation.
Defined.
