(* ===== verification/Protocol.v ===== *)
(** * Protocol types

    The payloads of [internal/shared/protocol/types.go] that the modelled code
    exchanges: chat requests, job offers, the job lifecycle messages of a node,
    heartbeats, state changes and safety events. *)
From stdpp Require Import base gmap strings list.
From Stdlib Require Import ZArith Lia.
From S2P Require Import Prelude Float64 NodeState Schedule.

Record ChatMessage := { cm_Role : string; cm_Content : string }.

Record ChatRequest := {
  cr_Messages : list ChatMessage;
  cr_Temperature : option float64;
  cr_MaxTokens : Z;
  cr_Seed : option Z;
  cr_Stream : bool
}.

(** The zero value [protocol.ChatRequest{}]. *)
Definition empty_ChatRequest : ChatRequest := {|
  cr_Messages := []; cr_Temperature := None; cr_MaxTokens := 0; cr_Seed := None; cr_Stream := false
|}.

Inductive VerificationKind := KindStandard | KindDuplicate.

Record JobOfferPayload := {
  jo_JobID : string;
  jo_AttemptID : string;
  jo_LeaseExpiresAt : Z;
  jo_DeadlineAt : Z;
  jo_ModelID : string;
  jo_Request : ChatRequest;
  jo_Verification : VerificationKind
}.

Record JobAcceptedPayload := { ja_JobID : string; ja_AttemptID : string; ja_AcceptedAt : Z }.
Record JobStartedPayload := { js_JobID : string; js_AttemptID : string; js_StartedAt : Z }.

Record JobRejectedPayload := {
  jr_JobID : string;
  jr_AttemptID : string;
  jr_ReasonCode : string;
  jr_Message : string;
  jr_Retryable : bool;
  jr_RejectedAt : Z
}.

Record JobFailedPayload := {
  jf_JobID : string;
  jf_AttemptID : string;
  jf_ErrorCode : string;
  jf_Message : string;
  jf_Retryable : bool;
  jf_FailedAt : Z
}.

Record Usage := { PromptTokens : Z; CompletionTokens : Z; TotalTokens : Z }.

Record NodeSignature := {
  ns_KeyID : string;
  ns_Algorithm : string;
  ns_Value : string;
  ns_SignedAt : Z
}.

Record JobCompletedPayload := {
  jc_JobID : string;
  jc_AttemptID : string;
  jc_ModelID : string;
  jc_RuntimeHash : string;
  jc_ModelHash : string;
  jc_Message : option ChatMessage;
  jc_Usage : Usage;
  jc_DurationMillis : Z;
  jc_FinishReason : string;
  jc_CompletedAt : Z;
  jc_Signature : option NodeSignature
}.

#[export] Instance JobCompletedPayload_eta : Eta JobCompletedPayload := λ r,
  {| jc_JobID := jc_JobID r; jc_AttemptID := jc_AttemptID r; jc_ModelID := jc_ModelID r;
     jc_RuntimeHash := jc_RuntimeHash r; jc_ModelHash := jc_ModelHash r;
     jc_Message := jc_Message r; jc_Usage := jc_Usage r;
     jc_DurationMillis := jc_DurationMillis r; jc_FinishReason := jc_FinishReason r;
     jc_CompletedAt := jc_CompletedAt r; jc_Signature := jc_Signature r |}.

Record GPUStatus := {
  gpu_Name : string;
  gpu_VRAMTotalMB : Z;
  gpu_VRAMFreeMB : Z;
  gpu_TemperatureC : Z;
  gpu_PowerW : Z;
  gpu_PowerLimitW : Z;
  gpu_UtilizationPercent : Z
}.

Definition empty_GPUStatus : GPUStatus := {|
  gpu_Name := ""; gpu_VRAMTotalMB := 0; gpu_VRAMFreeMB := 0; gpu_TemperatureC := 0;
  gpu_PowerW := 0; gpu_PowerLimitW := 0; gpu_UtilizationPercent := 0
|}.

Record NodeHeartbeatPayload := {
  hb_NodeID : string;
  hb_Sequence : Z;
  hb_State : string;
  hb_ModelID : string;
  hb_RuntimeHash : string;
  hb_ModelHash : string;
  hb_GPU : GPUStatus;
  hb_GPUVendor : string;
  hb_ActiveJobID : option string;
  hb_ScheduleState : string;
  hb_ThermalState : string;
  hb_Paused : bool;
  hb_Draining : bool;
  hb_UptimeSeconds : Z;
  hb_Timestamp : Z
}.

Record NodeStateChangedPayload := {
  sc_NodeID : string;
  sc_PreviousState : string;
  sc_State : string;
  sc_Reason : string;
  sc_Timestamp : Z
}.

Record NodeSafetyEventPayload := {
  se_NodeID : string;
  se_EventCode : string;
  se_Severity : string;
  se_Message : string;
  se_TemperatureC : option Z;
  se_PowerW : option Z;
  se_OccurredAt : Z
}.
