(* ===== verification/Agent.v ===== *)
(** * Node agent

    [internal/node/agent/agent.go]: the agent's mutex-protected state, the guard
    evaluation run with every heartbeat (schedule, thermal, pause), the job offer
    handler, the thermal monitor of a running job, the local control commands and
    the session bookkeeping.

    Every function that holds [a.mu] is one atomic operation here. A job offer is
    handled in three operations: [offer_claim] (the claim, or the rejection),
    [offer_start] (the two messages and the installed cancel function) and
    [offer_finish] (report and release), because the agent's other goroutines run
    while the socket and the local runtime are busy; a resume command is split the
    same way around the runtime's preparation ([resume_begin], [resume_prepared],
    [resume_settle]). [agent_step] interleaves all of them with heartbeats,
    monitor ticks, pauses and session changes in any order. The transport, the runtime and
    the signing key are parameters: the outcome of each socket write is read from
    [w_wire], and completions, prepared runtimes and signatures are inputs. *)
From stdpp Require Import base gmap strings list relations.
From Stdlib Require Import ZArith Lia.
From S2P Require Import Prelude GoStrings Float64 NodeState Schedule Protocol.

(** ** Data *)

Record RuntimeStatus := {
  rs_ModelID : string;
  rs_RuntimeHash : string;
  rs_ModelHash : string;
  rs_BaseURL : string
}.

Definition empty_RuntimeStatus : RuntimeStatus :=
  {| rs_ModelID := ""; rs_RuntimeHash := ""; rs_ModelHash := ""; rs_BaseURL := "" |}.

(** [TUnset] is the empty string. *)
Inductive ThermalState := TUnset | TNormal | TWarm | THardLimit.

#[export] Instance ThermalState_eq_dec : EqDecision ThermalState.
Proof. solve_decision. Defined.

Definition thermal_string (t : ThermalState) : string :=
  match t with
  | TUnset => "" | TNormal => "normal" | TWarm => "warm" | THardLimit => "hard_limit"
  end.

(** The options the state machine reads. [o_RuntimeCloses]: the runtime provider
    has a [Close] method. *)
Record Options := {
  o_NodeID : string;
  o_ModelID : string;
  o_GPUVendor : string;
  o_ScheduleFrom : string;
  o_ScheduleUntil : string;
  o_ScheduleLocation : Location;
  o_MaxTempC : Z;
  o_HardTempC : Z;
  o_ThermalHysteresis : Z;
  o_PauseIdleTimeout : Z;
  o_ThermalPoll : Z;
  o_RuntimeCloses : bool
}.

#[export] Instance Options_eta : Eta Options := λ r,
  {| o_NodeID := o_NodeID r; o_ModelID := o_ModelID r; o_GPUVendor := o_GPUVendor r;
     o_ScheduleFrom := o_ScheduleFrom r; o_ScheduleUntil := o_ScheduleUntil r;
     o_ScheduleLocation := o_ScheduleLocation r; o_MaxTempC := o_MaxTempC r;
     o_HardTempC := o_HardTempC r; o_ThermalHysteresis := o_ThermalHysteresis r;
     o_PauseIdleTimeout := o_PauseIdleTimeout r; o_ThermalPoll := o_ThermalPoll r;
     o_RuntimeCloses := o_RuntimeCloses r |}.

(** [control.Status], the fields that depend on the agent's state. *)
Record Status := {
  st_State : string;
  st_GPU : string;
  st_ModelID : string;
  st_RuntimeHash : string;
  st_ModelHash : string;
  st_Schedule : string;
  st_ScheduleState : string;
  st_ThermalState : string;
  st_Paused : bool;
  st_Draining : bool;
  st_TemperatureC : option Z;
  st_PowerW : option Z;
  st_SessionConnected : bool;
  st_SessionID : string;
  st_LastHeartbeatAt : option Z;
  st_LastError : string
}.

(** The agent. [ag_activeJobCancel]: a cancel function is installed;
    [ag_jobCancelled]: it has been called for the job in progress;
    [ag_runtimeOpen]: the runtime provider has not been closed;
    [ag_statusFile]: the contents of [status.json]. *)
Record Agent := {
  ag_state : State;
  ag_runtimeStatus : RuntimeStatus;
  ag_gpu : GPUStatus;
  ag_scheduleWindow : Window;
  ag_scheduleState : ScheduleState;
  ag_thermalState : ThermalState;
  ag_sessionID : string;
  ag_connected : bool;
  ag_sequence : Z;
  ag_activeJobID : option string;
  ag_activeJobCancel : bool;
  ag_jobCancelled : bool;
  ag_pauseRequested : bool;
  ag_pausedAt : option Z;
  ag_lastSentState : option State;
  ag_lastHeartbeatAt : option Z;
  ag_lastError : string;
  ag_startedAt : Z;
  ag_runtimeOpen : bool;
  ag_statusFile : option Status
}.

#[export] Instance Agent_eta : Eta Agent := λ r,
  {| ag_state := ag_state r; ag_runtimeStatus := ag_runtimeStatus r; ag_gpu := ag_gpu r;
     ag_scheduleWindow := ag_scheduleWindow r; ag_scheduleState := ag_scheduleState r;
     ag_thermalState := ag_thermalState r; ag_sessionID := ag_sessionID r;
     ag_connected := ag_connected r; ag_sequence := ag_sequence r;
     ag_activeJobID := ag_activeJobID r; ag_activeJobCancel := ag_activeJobCancel r;
     ag_jobCancelled := ag_jobCancelled r; ag_pauseRequested := ag_pauseRequested r;
     ag_pausedAt := ag_pausedAt r; ag_lastSentState := ag_lastSentState r;
     ag_lastHeartbeatAt := ag_lastHeartbeatAt r; ag_lastError := ag_lastError r;
     ag_startedAt := ag_startedAt r; ag_runtimeOpen := ag_runtimeOpen r;
     ag_statusFile := ag_statusFile r |}.

(** ** Construction *)

(** The stored node configuration read by [config.Load]. *)
Record NodeConfig := {
  cfg_ModelID : string;
  cfg_ScheduleFrom : string;
  cfg_ScheduleUntil : string;
  cfg_MaxTempC : Z;
  cfg_HardTempC : Z;
  cfg_ThermalHysteresis : Z;
  cfg_PauseIdleTimeout : Z
}.

Definition or_string (v dflt : string) : string := if String.eqb v "" then dflt else v.
Definition or_Z (v dflt : Z) : Z := if v =? 0 then dflt else v.

(** The option defaults of [New], in order: explicit option, stored
    configuration (when it loads), built-in default. *)
Definition resolve_options (cfg : option NodeConfig) (opts : Options) : Options :=
  let opts := match cfg with
    | Some c => opts
        <| o_ModelID ::= λ v, or_string v (cfg_ModelID c) |>
        <| o_ScheduleFrom ::= λ v, or_string v (cfg_ScheduleFrom c) |>
        <| o_ScheduleUntil ::= λ v, or_string v (cfg_ScheduleUntil c) |>
        <| o_MaxTempC ::= λ v, or_Z v (cfg_MaxTempC c) |>
        <| o_HardTempC ::= λ v, or_Z v (cfg_HardTempC c) |>
        <| o_ThermalHysteresis ::= λ v, or_Z v (cfg_ThermalHysteresis c) |>
        <| o_PauseIdleTimeout ::= λ v, or_Z v (cfg_PauseIdleTimeout c) |>
    | None => opts
    end in
  let opts := opts
    <| o_ModelID ::= λ v, or_string v "thirdshift-tiny-chat-v1" |>
    <| o_ScheduleFrom ::= λ v, or_string v "00:00" |>
    <| o_ScheduleUntil ::= λ v, or_string v "00:00" |>
    <| o_MaxTempC ::= λ v, or_Z v 78 |> in
  let opts := opts <| o_HardTempC ::= λ v, or_Z v (o_MaxTempC opts + 10) |> in
  let opts := if o_HardTempC opts <=? o_MaxTempC opts
              then opts <| o_HardTempC := o_MaxTempC opts + 10 |> else opts in
  opts
    <| o_ThermalHysteresis ::= λ v, or_Z v 5 |>
    <| o_PauseIdleTimeout ::= λ v, or_Z v (5 * minute) |>
    <| o_ThermalPoll ::= λ v, or_Z v (10 * second) |>.

Definition initial_agent (window : Window) (now : Z) : Agent := {|
  ag_state := Offline; ag_runtimeStatus := empty_RuntimeStatus; ag_gpu := empty_GPUStatus;
  ag_scheduleWindow := window; ag_scheduleState := StateInWindow; ag_thermalState := TNormal;
  ag_sessionID := ""; ag_connected := false; ag_sequence := 0; ag_activeJobID := None;
  ag_activeJobCancel := false; ag_jobCancelled := false; ag_pauseRequested := false;
  ag_pausedAt := None; ag_lastSentState := None; ag_lastHeartbeatAt := None;
  ag_lastError := ""; ag_startedAt := now; ag_runtimeOpen := true; ag_statusFile := None
|}.

Definition New (cfg : option NodeConfig) (opts : Options) (now : Z) : result (Options * Agent) :=
  let opts := resolve_options cfg opts in
  match ParseWindow (o_ScheduleFrom opts) (o_ScheduleUntil opts) with
  | Err e => Err e
  | Ok window => Ok (opts, initial_agent window now)
  end.

(** ** Status file *)

Definition paused_flag (a : Agent) : bool :=
  ag_pauseRequested a || bool_decide (ag_state a = Paused).
Definition draining_flag (a : Agent) : bool := bool_decide (ag_state a = Draining).

Definition statusLocked (a : Agent) : Status :=
  let known := negb (String.eqb (gpu_Name (ag_gpu a)) "") in
  {| st_State := state_string (ag_state a);
     st_GPU := gpu_Name (ag_gpu a);
     st_ModelID := rs_ModelID (ag_runtimeStatus a);
     st_RuntimeHash := rs_RuntimeHash (ag_runtimeStatus a);
     st_ModelHash := rs_ModelHash (ag_runtimeStatus a);
     st_Schedule := window_string (ag_scheduleWindow a);
     st_ScheduleState := schedule_state_string (ag_scheduleState a);
     st_ThermalState := thermal_string (ag_thermalState a);
     st_Paused := paused_flag a;
     st_Draining := draining_flag a;
     st_TemperatureC := if known then Some (gpu_TemperatureC (ag_gpu a)) else None;
     st_PowerW := if known then Some (gpu_PowerW (ag_gpu a)) else None;
     st_SessionConnected := ag_connected a;
     st_SessionID := ag_sessionID a;
     st_LastHeartbeatAt := ag_lastHeartbeatAt a;
     st_LastError := ag_lastError a |}.

Definition writeStatusLocked (a : Agent) : Agent := a <| ag_statusFile := Some (statusLocked a) |>.

(** ** State transitions *)

Definition forceState (s to : State) : State :=
  if bool_decide (s = to) then s
  else if CanTransition s to then to
  else match to with
       | Paused | Draining | Idle | Available => to
       | _ => s
       end.

Definition forceStateLocked (to : State) (a : Agent) : Agent :=
  a <| ag_state ::= λ s, forceState s to |>.

Definition transition (to : State) (a : Agent) : result unit * Agent :=
  match Transition (ag_state a) to with
  | Err e => (Err e, a)
  | Ok _ => (Ok tt, writeStatusLocked (a <| ag_state := to |> <| ag_lastError := "" |>))
  end.

Definition setRuntime (status : RuntimeStatus) (a : Agent) : Agent :=
  writeStatusLocked (a <| ag_runtimeStatus := status |>).
Definition setConnected (sessionID : string) (connected : bool) (a : Agent) : Agent :=
  writeStatusLocked (a <| ag_sessionID := sessionID |> <| ag_connected := connected |>).
Definition setError (message : string) (a : Agent) : Agent :=
  writeStatusLocked (a <| ag_lastError := message |>).

(** ** Guards *)

Definition nextThermalStateLocked (o : Options) (t : ThermalState) (tempC : Z) : ThermalState :=
  if (tempC <=? 0) || (o_MaxTempC o <=? 0) then TNormal
  else
    let recoverAt := Z.max 0 (o_MaxTempC o - o_ThermalHysteresis o) in
    match t with
    | TWarm | THardLimit =>
        if tempC <=? recoverAt then TNormal
        else if o_HardTempC o <=? tempC then THardLimit
        else TWarm
    | _ =>
        if o_HardTempC o <=? tempC then THardLimit
        else if o_MaxTempC o <? tempC then TWarm
        else TNormal
    end.

Definition safetyEventLocked (o : Options) (prev : ThermalState) (gpu : GPUStatus) (now : Z)
    (a : Agent) : option NodeSafetyEventPayload :=
  let t := ag_thermalState a in
  if bool_decide (t = prev) || negb (bool_decide (t = TWarm) || bool_decide (t = THardLimit))
  then None
  else
    let hard := bool_decide (t = THardLimit) in
    Some {| se_NodeID := o_NodeID o;
            se_EventCode := if hard then "thermal_hard_limit" else "over_temperature";
            se_Severity := if hard then "critical" else "warning";
            se_Message := if hard then "temperature exceeded hard safety limit"
                          else "temperature exceeded configured limit";
            se_TemperatureC := Some (gpu_TemperatureC gpu);
            se_PowerW := Some (gpu_PowerW gpu);
            se_OccurredAt := now |}.

Definition runtime_ready (rs : RuntimeStatus) : bool :=
  negb (String.eqb (rs_ModelID rs) "") && negb (String.eqb (rs_ModelHash rs) "")
  && negb (String.eqb (rs_RuntimeHash rs) "") && negb (String.eqb (rs_BaseURL rs) "").

Definition is_active (a : Agent) : bool := bool_decide (is_Some (ag_activeJobID a)).

(** [a.activeJobCancel()], when one is installed. *)
Definition call_cancel (a : Agent) : Agent :=
  if ag_activeJobCancel a then a <| ag_jobCancelled := true |> else a.

Definition thermal_drain (a : Agent) : Agent :=
  if is_active a || bool_decide (ag_state a = Busy) then forceStateLocked Draining a
  else match ag_state a with
       | Available | Preparing | Draining => forceStateLocked Idle a
       | _ => a
       end.

(** The [switch] of [evaluateGuards]. *)
Definition guard_switch (a : Agent) : Agent :=
  let active := is_active a in
  if ag_pauseRequested a && active then forceStateLocked Draining a
  else if ag_pauseRequested a && negb active then forceStateLocked Paused a
  else match ag_thermalState a with
  | THardLimit => thermal_drain (call_cancel a)
  | TWarm => thermal_drain a
  | t =>
      if bool_decide (ag_scheduleState a = StateOutOfWindow) && negb active then
        match ag_state a with
        | Available | Preparing => forceStateLocked Idle a
        | _ => a
        end
      else if bool_decide (ag_scheduleState a = StateInWindow)
              && bool_decide (t = TNormal) && negb active then
        match ag_state a with
        | Idle | Draining =>
            if runtime_ready (ag_runtimeStatus a) then forceStateLocked Available a else a
        | _ => a
        end
      else a
  end.

(** Unload the runtime after [PauseIdleTimeout] of pause without a job. *)
Definition pause_idle_unload (o : Options) (now : Z) (a : Agent) : Agent :=
  match ag_pausedAt a with
  | Some pausedAt =>
      if bool_decide (ag_state a = Paused) && negb (is_active a)
         && (0 <? o_PauseIdleTimeout o) && negb (now <? pausedAt + o_PauseIdleTimeout o)
         && o_RuntimeCloses o && negb (String.eqb (rs_BaseURL (ag_runtimeStatus a)) "")
      then a <| ag_runtimeOpen := false |> <| ag_runtimeStatus := empty_RuntimeStatus |>
      else a
  | None => a
  end.

Definition evaluateGuards (o : Options) (gpu : GPUStatus) (reason : string) (now : Z) (a : Agent) :
    (option NodeStateChangedPayload * option NodeSafetyEventPayload) * Agent :=
  let previousState := ag_state a in
  let previousThermal := ag_thermalState a in
  let a := a <| ag_scheduleState := StateAt (ag_scheduleWindow a) now (o_ScheduleLocation o) |>
             <| ag_thermalState := nextThermalStateLocked o (ag_thermalState a) (gpu_TemperatureC gpu) |> in
  let a := pause_idle_unload o now (guard_switch a) in
  if negb (bool_decide (ag_state a = previousState))
     || negb (bool_decide (ag_lastSentState a = Some (ag_state a)))
  then
    let reason := or_string reason "guard_update" in
    let from := match ag_lastSentState a with
                | Some s => if bool_decide (s = ag_state a) then previousState else s
                | None => previousState
                end in
    let a := writeStatusLocked (a <| ag_lastSentState := Some (ag_state a) |>) in
    ((Some {| sc_NodeID := o_NodeID o; sc_PreviousState := state_string from;
              sc_State := state_string (ag_state a); sc_Reason := reason; sc_Timestamp := now |},
      safetyEventLocked o previousThermal gpu now a), a)
  else ((None, safetyEventLocked o previousThermal gpu now a), a).

(** ** Messages and the world *)

Inductive Message :=
  | MsgHeartbeat (p : NodeHeartbeatPayload)
  | MsgStateChanged (p : NodeStateChangedPayload)
  | MsgSafetyEvent (p : NodeSafetyEventPayload)
  | MsgJobAccepted (p : JobAcceptedPayload)
  | MsgJobRejected (p : JobRejectedPayload)
  | MsgJobStarted (p : JobStartedPayload)
  | MsgJobFailed (p : JobFailedPayload)
  | MsgJobCompleted (p : JobCompletedPayload).

(** A job offer being executed: what [handleJobOffer] holds in its frame while
    the runtime works, with the one-slot channel the monitor writes to. *)
Record Running := {
  rj_offer : JobOfferPayload;
  rj_runtime : RuntimeStatus;
  rj_start : Z;
  rj_started : bool;
  rj_safety : option string
}.

#[export] Instance Running_eta : Eta Running := λ r,
  {| rj_offer := rj_offer r; rj_runtime := rj_runtime r; rj_start := rj_start r;
     rj_started := rj_started r; rj_safety := rj_safety r |}.

(** [w_wire]: the outcomes of the coming socket writes ([true] once exhausted);
    [w_sent]: the messages written so far, newest first. [w_preparing] and
    [w_settling] count the resume commands (each on its own control connection)
    that have released the lock and wait for the runtime, or for the lock. *)
Record World := {
  w_agent : Agent;
  w_running : option Running;
  w_sent : list Message;
  w_wire : list bool;
  w_now : Z;
  w_preparing : nat;
  w_settling : nat
}.

#[export] Instance World_eta : Eta World := λ r,
  {| w_agent := w_agent r; w_running := w_running r; w_sent := w_sent r;
     w_wire := w_wire r; w_now := w_now r; w_preparing := w_preparing r; w_settling := w_settling r |}.

Definition writeEnvelope (msg : Message) : St World unit := λ w,
  match w_wire w with
  | false :: rest => (Err (ErrMsg "write failed"), w <| w_wire := rest |>)
  | _ => (Ok tt, w <| w_wire ::= tail |> <| w_sent ::= cons msg |>)
  end.

Definition on_agent (f : Agent → Agent) : St World unit := modify (λ w, w <| w_agent ::= f |>).

Definition write_opt {A} (f : A → Message) (m : option A) : St World unit :=
  match m with Some p => writeEnvelope (f p) | None => mret tt end.

(** ** Heartbeats *)

Definition buildHeartbeat (o : Options) (a : Agent) (sequence : Z) (gpu : GPUStatus)
    (uptime now : Z) : NodeHeartbeatPayload := {|
  hb_NodeID := o_NodeID o; hb_Sequence := sequence; hb_State := state_string (ag_state a);
  hb_ModelID := rs_ModelID (ag_runtimeStatus a);
  hb_RuntimeHash := rs_RuntimeHash (ag_runtimeStatus a);
  hb_ModelHash := rs_ModelHash (ag_runtimeStatus a);
  hb_GPU := gpu; hb_GPUVendor := o_GPUVendor o; hb_ActiveJobID := ag_activeJobID a;
  hb_ScheduleState := schedule_state_string (ag_scheduleState a);
  hb_ThermalState := thermal_string (ag_thermalState a);
  hb_Paused := paused_flag a; hb_Draining := draining_flag a;
  hb_UptimeSeconds := uptime; hb_Timestamp := now
|}.

(** [tele] is the telemetry provider's answer, [None] an error. *)
Definition telemetry_gpu (tele : option GPUStatus) : GPUStatus :=
  match tele with
  | Some gpu => gpu
  | None => {| gpu_Name := "telemetry-unavailable"; gpu_VRAMTotalMB := 0; gpu_VRAMFreeMB := 0;
               gpu_TemperatureC := 0; gpu_PowerW := 0; gpu_PowerLimitW := 0;
               gpu_UtilizationPercent := 0 |}
  end.

Definition sendHeartbeat (o : Options) (tele : option GPUStatus) : St World unit :=
  now ← gets w_now;
  _ ← on_agent (λ a, a <| ag_sequence ::= λ n, wrap64 (n + 1) |>);
  sequence ← gets (λ w, ag_sequence (w_agent w));
  uptime ← gets (λ w, Z.quot (now - ag_startedAt (w_agent w)) second);
  let gpu := telemetry_gpu tele in
  events ← gets (λ w, (evaluateGuards o gpu "" now (w_agent w)).1);
  _ ← on_agent (λ a, (evaluateGuards o gpu "" now a).2);
  _ ← write_opt MsgStateChanged events.1;
  _ ← write_opt MsgSafetyEvent events.2;
  a ← gets w_agent;
  _ ← writeEnvelope (MsgHeartbeat (buildHeartbeat o a sequence gpu uptime now));
  on_agent (λ a, writeStatusLocked (a <| ag_gpu := gpu |> <| ag_lastHeartbeatAt := Some now |>)).

(** ** Job offers *)

Definition known_role (role : string) : bool :=
  String.eqb role "system" || String.eqb role "user" || String.eqb role "assistant".

Definition max_node_tokens : Z := 1024.

Fixpoint check_messages (ms : list ChatMessage) : result unit :=
  match ms with
  | [] => Ok tt
  | m :: ms' =>
      if negb (known_role (cm_Role m)) then Err (ErrMsg "job request contains unsupported role")
      else if is_blank (cm_Content m) then Err (ErrMsg "job request contains an empty text message")
      else check_messages ms'
  end.

Definition validateOfferRequest (req : ChatRequest) : result unit :=
  if cr_Stream req then Err (ErrMsg "streaming jobs are not supported")
  else match cr_Messages req with
  | [] => Err (ErrMsg "job request has no messages")
  | _ =>
      if (cr_MaxTokens req <=? 0) || (max_node_tokens <? cr_MaxTokens req)
      then Err (ErrMsg "job request max_tokens is outside node limits")
      else check_messages (cr_Messages req)
  end.

Definition error_text (e : gerror) : string :=
  match e with ErrMsg m => m | _ => "error" end.

Definition thermally_blocked (t : ThermalState) : bool :=
  negb (bool_decide (t = TUnset)) && negb (bool_decide (t = TNormal)).

(** [claimJob]: the runtime to use, or the reason for refusing. *)
Definition claimJob (offer : JobOfferPayload) (now : Z) (a : Agent) : (RuntimeStatus + string) * Agent :=
  let reject msg := (inr msg, a) in
  if jo_LeaseExpiresAt offer <? now then reject "job lease expired"
  else match validateOfferRequest (jo_Request offer) with
  | Err e => reject (error_text e)
  | Ok _ =>
  if negb (bool_decide (ag_state a = Available)) then reject "node is not available"
  else if ag_pauseRequested a then reject "node is paused or draining"
  else if bool_decide (ag_scheduleState a = StateOutOfWindow)
  then reject "node is outside its configured work window"
  else if thermally_blocked (ag_thermalState a) then reject "node is thermally blocked"
  else
  let rs := ag_runtimeStatus a in
  if negb (String.eqb (rs_ModelID rs) (jo_ModelID offer)) then reject "requested model is not loaded"
  else if String.eqb (rs_ModelHash rs) "" || String.eqb (rs_RuntimeHash rs) ""
  then reject "manifest hashes are not ready"
  else if String.eqb (rs_BaseURL rs) "" then reject "local runtime is not reachable"
  else match Transition (ag_state a) Busy with
  | Err e => reject (error_text e)
  | Ok _ =>
      (inl rs, writeStatusLocked (a <| ag_activeJobID := Some (jo_JobID offer) |>
                                    <| ag_state := Busy |> <| ag_lastError := "" |>))
  end
  end.

Definition releaseJob (now : Z) (a : Agent) : Agent :=
  let a := a <| ag_activeJobID := None |> <| ag_activeJobCancel := false |> in
  let a :=
    if ag_pauseRequested a then forceStateLocked Paused (a <| ag_pausedAt := Some now |>)
    else if bool_decide (ag_scheduleState a = StateOutOfWindow) || thermally_blocked (ag_thermalState a)
    then forceStateLocked Idle a
    else match ag_state a with
         | Busy | Draining => forceStateLocked Available a
         | _ => a
         end in
  writeStatusLocked a.

(** The two messages that follow a successful claim. *)
Definition offer_sends (offer : JobOfferPayload) (now : Z) : St World unit :=
  _ ← writeEnvelope (MsgJobAccepted {|
        ja_JobID := jo_JobID offer; ja_AttemptID := jo_AttemptID offer; ja_AcceptedAt := now |});
  writeEnvelope (MsgJobStarted {|
        js_JobID := jo_JobID offer; js_AttemptID := jo_AttemptID offer; js_StartedAt := now |}).

(** [handleJobOffer], the claim. A refused claim is answered with a rejection. *)
Definition offer_claim (offer : JobOfferPayload) : St World unit := λ w,
  let now := w_now w in
  let '(r, a) := claimJob offer now (w_agent w) in
  let w := w <| w_agent := a |> in
  match r with
  | inr reason =>
      writeEnvelope (MsgJobRejected {|
        jr_JobID := jo_JobID offer; jr_AttemptID := jo_AttemptID offer;
        jr_ReasonCode := "node_not_eligible"; jr_Message := reason; jr_Retryable := true;
        jr_RejectedAt := now |}) w
  | inl rs =>
      (Ok tt, w <| w_running := Some {| rj_offer := offer; rj_runtime := rs; rj_start := now;
                                        rj_started := false; rj_safety := None |} |>)
  end.

(** [handleJobOffer] from the claim to the runtime call: the two messages, then
    the cancel function; on a failed write the deferred [releaseJob] runs. *)
Definition offer_start : St World unit := λ w,
  match w_running w with
  | Some rj =>
      if rj_started rj then (Ok tt, w) else
      let now := w_now w in
      match offer_sends (rj_offer rj) now w with
      | (Err e, w') => (Err e, w' <| w_running := None |> <| w_agent ::= releaseJob now |>)
      | (Ok _, w') =>
          (Ok tt, w' <| w_agent ::= λ a, a <| ag_activeJobCancel := true |> <| ag_jobCancelled := false |> |>
                     <| w_running := Some (rj <| rj_started := true |> <| rj_start := now |>) |>)
      end
  | None => (Ok tt, w)
  end.

Definition hard_limit_message : string := "temperature exceeded hard safety limit".

(** One tick of [monitorJobThermal]: at the hard limit it drains the node, sends
    a safety event (a failed write is ignored), leaves the reason in the channel,
    cancels the job's context and returns, so it fires at most once per job. *)
Definition monitor_tick (o : Options) (tele : option GPUStatus) : St World unit := λ w,
  match w_running w, tele with
  | Some rj, Some gpu =>
      if negb (rj_started rj) || bool_decide (is_Some (rj_safety rj)) then (Ok tt, w)
      else if (gpu_TemperatureC gpu <=? 0) || (gpu_TemperatureC gpu <? o_HardTempC o) then (Ok tt, w)
      else
        let w := w <| w_agent ::= λ a, writeStatusLocked (forceStateLocked Draining
                                         (a <| ag_thermalState := THardLimit |>)) |> in
        let event := {| se_NodeID := o_NodeID o; se_EventCode := "thermal_hard_limit";
                        se_Severity := "critical"; se_Message := hard_limit_message;
                        se_TemperatureC := Some (gpu_TemperatureC gpu);
                        se_PowerW := Some (gpu_PowerW gpu); se_OccurredAt := w_now w |} in
        let w := (writeEnvelope (MsgSafetyEvent event) w).2 in
        (Ok tt, w <| w_running := Some (rj <| rj_safety := Some hard_limit_message |>) |>
                  <| w_agent ::= λ a, a <| ag_jobCancelled := true |> |>)
  | _, _ => (Ok tt, w)
  end.

Record CompletionResponse := {
  co_Choices : list (ChatMessage * string);
  co_Usage : Usage
}.

Definition failed_message (offer : JobOfferPayload) (code msg : string) (retryable : bool) (now : Z) : Message :=
  MsgJobFailed {| jf_JobID := jo_JobID offer; jf_AttemptID := jo_AttemptID offer;
                  jf_ErrorCode := code; jf_Message := msg; jf_Retryable := retryable; jf_FailedAt := now |}.

(** What [handleJobOffer] reports once [ChatCompletion] returned. [sign] is
    [nodeauth.SignJobCompleted] with the node's key. *)
Definition job_report (sign : JobCompletedPayload → result NodeSignature) (rj : Running)
    (thermal : ThermalState) (now : Z) (completion : result CompletionResponse) : Message :=
  let offer := rj_offer rj in
  match completion with
  | Err _ =>
      match rj_safety rj with
      | Some reason => failed_message offer "safety_limit" reason true now
      | None =>
          if bool_decide (thermal = THardLimit)
          then failed_message offer "safety_limit" hard_limit_message true now
          else failed_message offer "runtime_error" "Local runtime request failed." true now
      end
  | Ok resp =>
      match co_Choices resp with
      | [] => failed_message offer "empty_completion" "Local runtime returned no choices." false now
      | (message, finish) :: _ =>
          let payload := {|
            jc_JobID := jo_JobID offer; jc_AttemptID := jo_AttemptID offer;
            jc_ModelID := jo_ModelID offer; jc_RuntimeHash := rs_RuntimeHash (rj_runtime rj);
            jc_ModelHash := rs_ModelHash (rj_runtime rj); jc_Message := Some message;
            jc_Usage := co_Usage resp;
            jc_DurationMillis := Z.max 0 (Z.quot (now - rj_start rj) millisecond);
            jc_FinishReason := or_string finish "stop"; jc_CompletedAt := now; jc_Signature := None |} in
          match sign payload with
          | Err _ => failed_message offer "signature_failed" "Node could not sign the job result." false now
          | Ok sig => MsgJobCompleted (payload <| jc_Signature := Some sig |>)
          end
      end
  end.

(** The rest of [handleJobOffer]: report, drop the cancel function, release. *)
Definition offer_finish (sign : JobCompletedPayload → result NodeSignature)
    (completion : result CompletionResponse) : St World unit := λ w,
  match w_running w with
  | None => (Ok tt, w)
  | Some rj =>
      if negb (rj_started rj) then (Ok tt, w) else
      let msg := job_report sign rj (ag_thermalState (w_agent w)) (w_now w) completion in
      let '(r, w) := writeEnvelope msg w in
      (r, w <| w_running := None |>
            <| w_agent ::= λ a, releaseJob (w_now w) (a <| ag_activeJobCancel := false |>
                                                       <| ag_jobCancelled := true |>) |>)
  end.

(** ** Control commands *)

Definition control_pause (now : Z) (a : Agent) : Agent :=
  let a := a <| ag_pauseRequested := true |> in
  let target := if is_active a then Draining else Paused in
  let a := if is_active a then a else a <| ag_pausedAt := Some now |> in
  let a := match Transition (ag_state a) target with
           | Ok _ => a <| ag_state := target |>
           | Err _ => forceStateLocked target a
           end in
  writeStatusLocked a.

(** [resume] up to the release of the lock: [None] when it returns at once,
    otherwise whether the runtime has to be prepared. *)
Definition resume_begin (a : Agent) : option bool * Agent :=
  let a := a <| ag_pauseRequested := false |> <| ag_pausedAt := None |> in
  let needsPrepare := String.eqb (rs_ModelID (ag_runtimeStatus a)) ""
                      || String.eqb (rs_BaseURL (ag_runtimeStatus a)) "" in
  if is_active a then (None, a)
  else if needsPrepare then (Some true, writeStatusLocked (forceStateLocked Preparing a))
  else (Some false, a).

(** [resume] after [Prepare] answered. *)
Definition resume_prepared (prepare : result RuntimeStatus) (a : Agent) : result unit * Agent :=
  match prepare with
  | Err e => (Err e, (transition Error a).2)
  | Ok status => (Ok tt, setRuntime status a <| ag_runtimeOpen := true |>)
  end.

(** [resume] from the second lock on. *)
Definition resume_settle (a : Agent) : Agent :=
  let blocked := bool_decide (ag_scheduleState a = StateOutOfWindow)
                 || negb (bool_decide (ag_thermalState a = TNormal)) in
  writeStatusLocked (forceStateLocked (if blocked then Idle else Available) a).

(** [resume] when no other goroutine runs in between; [prepare] is the runtime
    provider's answer. *)
Definition resume (prepare : result RuntimeStatus) (a : Agent) : result unit * Agent :=
  match resume_begin a with
  | (None, a) => (Ok tt, a)
  | (Some false, a) => (Ok tt, resume_settle a)
  | (Some true, a) =>
      match resume_prepared prepare a with
      | (Err e, a) => (Err e, a)
      | (Ok _, a) => (Ok tt, resume_settle a)
      end
  end.

Inductive Command := CmdPause | CmdResume (prepare : result RuntimeStatus) | CmdStatus | CmdOther.

(** [handleControl]: the status in the reply, or the error text. *)
Definition handleControl (cmd : Command) (now : Z) (a : Agent) : (Status + string) * Agent :=
  match cmd with
  | CmdPause => let a := control_pause now a in (inl (statusLocked a), a)
  | CmdResume prepare =>
      match resume prepare a with
      | (Err e, a) => (inr (error_text e), a)
      | (Ok _, a) => (inl (statusLocked a), a)
      end
  | CmdStatus => (inl (statusLocked a), a)
  | CmdOther => (inr "unknown control command", a)
  end.

(** ** Start-up ([Run] before its session loop) *)

Definition run_begin (a : Agent) : result unit * Agent :=
  match transition Starting a with
  | (Err e, a) => (Err e, a)
  | (Ok _, a) => transition Preparing a
  end.

(** After [Prepare] returned. *)
Definition run_ready (prepare : result RuntimeStatus) (a : Agent) : result unit * Agent :=
  match prepare with
  | Err e => (Err e, setError (error_text e) (transition Error a).2)
  | Ok status => transition Available (setRuntime status a)
  end.

(** ** Interleavings *)

Inductive Event :=
  | EvHeartbeat (tele : option GPUStatus)
  | EvOffer (offer : JobOfferPayload)
  | EvOfferStart
  | EvMonitor (tele : option GPUStatus)
  | EvFinish (completion : result CompletionResponse)
  | EvPause
  | EvResume
  | EvResumePrepared (prepare : result RuntimeStatus)
  | EvResumeSettle
  | EvConnected (sessionID : string)
  | EvDisconnected
  | EvError (message : string)
  | EvShutdown
  | EvTime (elapsed : Z).

(** The three sections of [resume] on the world. *)
Definition world_resume (w : World) : World :=
  let '(next, a) := resume_begin (w_agent w) in
  let w := w <| w_agent := a |> in
  match next with
  | None => w
  | Some true => w <| w_preparing ::= S |>
  | Some false => w <| w_settling ::= S |>
  end.

Definition world_prepared (prepare : result RuntimeStatus) (w : World) : World :=
  match w_preparing w with
  | O => w
  | S n =>
      let '(r, a) := resume_prepared prepare (w_agent w) in
      let w := w <| w_agent := a |> <| w_preparing := n |> in
      if is_ok r then w <| w_settling ::= S |> else w
  end.

Definition world_settle (w : World) : World :=
  match w_settling w with
  | O => w
  | S n => w <| w_agent ::= resume_settle |> <| w_settling := n |>
  end.

Section steps.
Context (o : Options) (sign : JobCompletedPayload → result NodeSignature).

(** One operation of one of the agent's goroutines. *)
Definition agent_event (e : Event) (w : World) : World :=
  match e with
  | EvHeartbeat tele => (sendHeartbeat o tele w).2
  | EvOffer offer => (offer_claim offer w).2
  | EvOfferStart => (offer_start w).2
  | EvMonitor tele => (monitor_tick o tele w).2
  | EvFinish completion => (offer_finish sign completion w).2
  | EvPause => w <| w_agent ::= control_pause (w_now w) |>
  | EvResume => world_resume w
  | EvResumePrepared prepare => world_prepared prepare w
  | EvResumeSettle => world_settle w
  | EvConnected sid => w <| w_agent ::= setConnected sid true |>
  | EvDisconnected => w <| w_agent ::= setConnected "" false |>
  | EvError m => w <| w_agent ::= setError m |>
  | EvShutdown => w <| w_agent ::= λ a, (transition Offline a).2 |>
  | EvTime d => w <| w_now ::= λ t, t + Z.max 0 d |>
  end.

Definition agent_step (w w' : World) : Prop := ∃ e, w' = agent_event e w.

(** A resume command between its two locked sections. *)
Definition resuming (w : World) : Prop := (0 < w_preparing w + w_settling w)%nat.

(** The interleavings in which no offer is claimed inside that gap. *)
Definition agent_step_apart (w w' : World) : Prop :=
  ∃ e, w' = agent_event e w ∧ (∀ offer, e = EvOffer offer → ¬ resuming w).
End steps.

(** A world in which [Run] has just entered its session loop. *)
Definition started (w : World) : Prop :=
  ∃ window status now a1,
    run_begin (initial_agent window now) = (Ok tt, a1) ∧
    run_ready (Ok status) a1 = (Ok tt, w_agent w) ∧ w_running w = None ∧ ¬ resuming w.

(** ** Invariant: the reported state and the job in progress agree *)

Definition job_ok (a : Agent) : Prop :=
  (ag_state a = Available → ag_activeJobID a = None) ∧
  (ag_state a = Busy → is_Some (ag_activeJobID a)).

Definition agent_inv (w : World) : Prop :=
  job_ok (w_agent w) ∧
  ag_activeJobID (w_agent w) = (λ rj, jo_JobID (rj_offer rj)) <$> w_running w ∧
  ag_activeJobCancel (w_agent w) = default false (rj_started <$> w_running w) ∧
  (resuming w → ag_activeJobID (w_agent w) = None).

Lemma forceState_cases s to : forceState s to = to ∨ forceState s to = s.
Proof. unfold forceState. repeat case_match; auto. Qed.

Lemma forceState_total s to :
  to = Paused ∨ to = Draining ∨ to = Idle ∨ to = Available → forceState s to = to.
Proof.
  unfold forceState. intros Hto. case_bool_decide; [done|].
  destruct (CanTransition s to); [done|]. by destruct Hto as [->|[->|[->| ->]]].
Qed.

(** The operations below do not touch the job fields. *)
Definition same_job (a b : Agent) : Prop :=
  ag_activeJobID a = ag_activeJobID b ∧ ag_activeJobCancel a = ag_activeJobCancel b.

Ltac solve_job :=
  unfold job_ok, same_job in *; simpl in *; destruct_and?; split_and?; intros;
  first [done | congruence | by auto | by eauto].

Lemma guard_switch_job a : same_job (guard_switch a) a.
Proof.
  unfold guard_switch, thermal_drain, call_cancel, same_job.
  repeat case_match; done.
Qed.

Lemma job_ok_forced to a :
  job_ok a → (to = Available → ag_activeJobID a = None) → to ≠ Busy → job_ok (forceStateLocked to a).
Proof.
  intros [HA HB] Hto Hne. unfold job_ok. simpl.
  destruct (forceState_cases (ag_state a) to) as [->| ->]; solve_job.
Qed.

Lemma is_active_false a : is_active a = false → ag_activeJobID a = None.
Proof. unfold is_active. intros H%bool_decide_eq_false. by apply eq_None_not_Some. Qed.

Lemma guard_switch_ok a : job_ok a → job_ok (guard_switch a).
Proof.
  intros Hok. unfold guard_switch, thermal_drain, call_cancel.
  destruct (is_active a) eqn:Ea; [|apply is_active_false in Ea];
    repeat case_match; first [exact Hok | apply job_ok_forced; [exact Hok|by intros|done]
      | exfalso; simpl in *; rewrite ?andb_false_r in *; done].
Qed.

Lemma pause_idle_unload_ok o now a : job_ok a → job_ok (pause_idle_unload o now a).
Proof. unfold pause_idle_unload, job_ok. repeat case_match; done. Qed.

Lemma pause_idle_unload_job o now a : same_job (pause_idle_unload o now a) a.
Proof. unfold pause_idle_unload, same_job. repeat case_match; done. Qed.

Lemma same_job_trans a b c : same_job a b → same_job b c → same_job a c.
Proof. unfold same_job. intros [? ?] [? ?]. split; congruence. Qed.

Lemma evaluateGuards_job o gpu reason now a :
  job_ok a → job_ok (evaluateGuards o gpu reason now a).2 ∧ same_job (evaluateGuards o gpu reason now a).2 a.
Proof.
  intros Hok. unfold evaluateGuards.
  set (a1 := a <| ag_scheduleState := _ |> <| ag_thermalState := _ |>).
  assert (Hok1 : job_ok a1) by done.
  pose proof (pause_idle_unload_ok o now _ (guard_switch_ok _ Hok1)) as Hok2.
  pose proof (same_job_trans _ _ _ (pause_idle_unload_job o now _) (guard_switch_job a1)) as Hj.
  case_match; simpl; by split.
Qed.

Lemma releaseJob_ok now a : job_ok (releaseJob now a).
Proof.
  unfold releaseJob, job_ok. simpl.
  repeat case_match; simpl; rewrite ?forceState_total by auto;
    split; intros; simplify_eq; try done; congruence.
Qed.

Lemma releaseJob_job now a :
  ag_activeJobID (releaseJob now a) = None ∧ ag_activeJobCancel (releaseJob now a) = false.
Proof. unfold releaseJob. simpl. repeat case_match; done. Qed.

Lemma control_pause_ok now a : job_ok a → job_ok (control_pause now a) ∧ same_job (control_pause now a) a.
Proof.
  intros [HA HB]. unfold control_pause, job_ok, same_job. simpl.
  destruct (is_active _) eqn:E; simpl; destruct (Transition _ _); simpl;
    rewrite ?forceState_total by auto; done.
Qed.

Lemma transition_ok to a :
  to ≠ Busy → to ≠ Available → job_ok a → job_ok (transition to a).2 ∧ same_job (transition to a).2 a.
Proof. intros ?? [? ?]. unfold transition. destruct (Transition _ _); simpl; solve_job. Qed.

Lemma resume_begin_ok a :
  job_ok a → job_ok (resume_begin a).2 ∧ same_job (resume_begin a).2 a ∧
  (is_Some (resume_begin a).1 → ag_activeJobID a = None).
Proof.
  intros Hok. unfold resume_begin.
  change (is_active (a <| ag_pauseRequested := false |> <| ag_pausedAt := None |>)) with (is_active a).
  destruct (is_active a) eqn:Ea; simpl; [split_and!; [done|done|intros [? ?]; done]|].
  apply is_active_false in Ea.
  destruct (_ || _); simpl; split_and!; try done.
  exact (job_ok_forced Preparing (a <| ag_pauseRequested := false |> <| ag_pausedAt := None |>) Hok ltac:(done) ltac:(done)).
Qed.

Lemma resume_prepared_ok prepare a :
  job_ok a → job_ok (resume_prepared prepare a).2 ∧ same_job (resume_prepared prepare a).2 a.
Proof. intros Hok. destruct prepare; simpl; [solve_job|by apply transition_ok]. Qed.

Lemma resume_settle_ok a :
  ag_activeJobID a = None → job_ok (resume_settle a) ∧ same_job (resume_settle a) a.
Proof.
  intros Hact. unfold resume_settle, job_ok, same_job. simpl.
  case_match; rewrite forceState_total by auto; done.
Qed.

Lemma claimJob_inv offer now a r a' :
  claimJob offer now a = (r, a') →
  match r with
  | inr _ => a' = a
  | inl rs => ag_state a = Available ∧ job_ok a' ∧ ag_activeJobID a' = Some (jo_JobID offer) ∧
              ag_activeJobCancel a' = ag_activeJobCancel a
  end.
Proof.
  unfold claimJob. intros H. repeat case_match; simplify_eq; try done.
  split_and!; try done.
  match goal with E : negb (bool_decide (_ = Available)) = false |- _ =>
    by apply negb_false_iff, bool_decide_eq_true in E end.
Qed.

(** Writing to the socket changes nothing but the wire. *)
Definition same_but_wire (w w' : World) : Prop :=
  w_agent w' = w_agent w ∧ w_running w' = w_running w ∧ w_now w' = w_now w ∧ (resuming w' ↔ resuming w).

Lemma writeEnvelope_frame msg w : same_but_wire w (writeEnvelope msg w).2.
Proof. unfold same_but_wire, writeEnvelope. destruct (w_wire w) as [|[] ?]; done. Qed.

Lemma offer_sends_frame offer now w : same_but_wire w (offer_sends offer now w).2.
Proof.
  unfold offer_sends, mbind, St_bind.
  match goal with |- context [writeEnvelope ?m w] =>
    pose proof (writeEnvelope_frame m w) as H1; destruct (writeEnvelope m w) as [[u|e] w1] end;
    simpl in *; [|done].
  match goal with |- context [writeEnvelope ?m w1] => pose proof (writeEnvelope_frame m w1) as H2 end.
  unfold same_but_wire in *. destruct_and!. split_and!; [congruence|congruence|congruence|tauto].
Qed.

Lemma released_inv now a w :
  w_agent w = releaseJob now a → w_running w = None → agent_inv w.
Proof.
  intros Ha Hr. unfold agent_inv. rewrite Ha, Hr.
  destruct (releaseJob_job now a) as [H1 H2]. split_and!; [apply releaseJob_ok|done|done|done].
Qed.

(** *** Every event preserves the invariant *)

Lemma agent_inv_upd f w :
  (∀ a, job_ok a → job_ok (f a) ∧ same_job (f a) a) → agent_inv w → agent_inv (w <| w_agent ::= f |>).
Proof.
  intros Hf (Hok & Hj & Hc & Hres). destruct (Hf _ Hok) as [Hok' [Hj' Hc']].
  unfold agent_inv, resuming in *. simpl. rewrite Hj', Hc'. by split_and!.
Qed.

Lemma on_agent_inv f :
  (∀ a, job_ok a → job_ok (f a) ∧ same_job (f a) a) → preserves agent_inv (on_agent f).
Proof. intros Hf. apply preserves_modify. intros w. by apply agent_inv_upd. Qed.

Lemma same_but_wire_inv w w' : same_but_wire w w' → agent_inv w → agent_inv w'.
Proof.
  intros (Ha & Hr & _ & Hres) Hw. unfold agent_inv in *. rewrite Ha, Hr, Hres. exact Hw.
Qed.

Lemma writeEnvelope_inv msg : preserves agent_inv (writeEnvelope msg).
Proof. intros w. apply same_but_wire_inv, writeEnvelope_frame. Qed.
#[export] Hint Resolve writeEnvelope_inv : inv.

Lemma write_opt_inv {A} (f : A → Message) m : preserves agent_inv (write_opt f m).
Proof. destruct m; simpl; eauto with inv. Qed.
#[export] Hint Resolve write_opt_inv : inv.

Lemma sendHeartbeat_inv o tele : preserves agent_inv (sendHeartbeat o tele).
Proof.
  unfold sendHeartbeat.
  repeat first [apply preserves_bind; [|intros] | apply preserves_gets | apply writeEnvelope_inv
               | apply write_opt_inv | apply on_agent_inv; intros ag Hok].
  - solve_job.
  - by apply evaluateGuards_job.
  - solve_job.
Qed.

Lemma offer_claim_inv offer w : ¬ resuming w → agent_inv w → agent_inv (offer_claim offer w).2.
Proof.
  intros Hnr Hw. unfold offer_claim. destruct (claimJob offer (w_now w) (w_agent w)) as [r a'] eqn:E.
  apply claimJob_inv in E. destruct r as [rs|reason].
  - destruct E as (Hav & Hok' & Hid & Hcc). destruct Hw as ([HA _] & Hj & Hc & _).
    rewrite (HA Hav) in Hj. destruct (w_running w) as [rj|] eqn:Er; [done|].
    unfold agent_inv. simpl. rewrite Hid, Hcc. split_and!; [done|done|done|]. intros Hr. by destruct Hnr.
  - subst a'. apply writeEnvelope_inv. destruct w. apply Hw.
Qed.

Lemma offer_start_inv : preserves agent_inv offer_start.
Proof.
  intros w Hw. unfold offer_start. destruct (w_running w) as [rj|] eqn:Er; [|done].
  destruct (rj_started rj) eqn:Es; [done|].
  pose proof (offer_sends_frame (rj_offer rj) (w_now w) w) as Hf.
  destruct (offer_sends _ _ _) as [[u|e] w2]; simpl in *.
  - apply (same_but_wire_inv _ _ Hf) in Hw. destruct Hf as (Ha & Hr & _).
    destruct Hw as (Hok & Hj & Hc & Hres). rewrite Hr, Er in Hj. unfold agent_inv. by simpl.
  - by eapply released_inv.
Qed.

Lemma hard_drain_job a :
  job_ok a →
  let a' := writeStatusLocked (forceStateLocked Draining (a <| ag_thermalState := THardLimit |>)) in
  job_ok a' ∧ same_job a' a.
Proof. intros Hok. unfold job_ok. simpl. rewrite forceState_total by auto. done. Qed.

Lemma monitor_tick_inv o tele : preserves agent_inv (monitor_tick o tele).
Proof.
  intros w Hw. unfold monitor_tick. destruct (w_running w) as [rj|] eqn:Er; [|done].
  destruct tele as [gpu|]; [|done]. destruct (_ || _); [done|]. destruct (_ || _); [done|].
  pose proof (agent_inv_upd _ _ hard_drain_job Hw) as Hw1.
  match goal with |- context [writeEnvelope ?m ?w1] =>
    pose proof (writeEnvelope_inv m w1 Hw1) as Hi; pose proof (writeEnvelope_frame m w1) as (_ & Hr & _);
    destruct (writeEnvelope m w1) as [r2 w2] end.
  simpl in Hr. rewrite Er in Hr. unfold agent_inv in *. simpl in *. by rewrite Hr in Hi.
Qed.

Lemma offer_finish_inv sign completion : preserves agent_inv (offer_finish sign completion).
Proof.
  intros w Hw. unfold offer_finish. destruct (w_running w) as [rj|] eqn:Er; [|done].
  destruct (negb _); [done|]. destruct (writeEnvelope _ w) as [r w1]. by eapply released_inv.
Qed.

Lemma world_resume_inv w : agent_inv w → agent_inv (world_resume w).
Proof.
  intros (Hok & Hj & Hc & Hres). destruct (resume_begin_ok _ Hok) as (Hok' & [Hj' Hc'] & Hn).
  unfold world_resume, agent_inv in *. destruct (resume_begin (w_agent w)) as [[[]|] a]; simpl in *;
    rewrite Hj', Hc'; (split; [done|]; split; [done|]; split; [done|]).
  - intros _. by apply Hn.
  - intros _. by apply Hn.
  - exact Hres.
Qed.

Lemma world_prepared_inv prepare w : agent_inv w → agent_inv (world_prepared prepare w).
Proof.
  intros Hw. pose proof Hw as (Hok & Hj & Hc & Hres). destruct (resume_prepared_ok prepare _ Hok) as (Hok' & Hj' & Hc').
  unfold world_prepared. destruct (w_preparing w) as [|n] eqn:En; [exact Hw|].
  unfold agent_inv, resuming in *.
  destruct (resume_prepared prepare (w_agent w)) as [[u|e] a]; simpl in *;
    rewrite Hj', Hc'; (split; [done|]; split; [done|]; split; [done|]); intros _; apply Hres; lia.
Qed.

Lemma world_settle_inv w : agent_inv w → agent_inv (world_settle w).
Proof.
  intros Hw. pose proof Hw as (Hok & Hj & Hc & Hres). unfold world_settle.
  destruct (w_settling w) as [|n] eqn:En; [exact Hw|]. unfold agent_inv, resuming in *.
  assert (Hn : ag_activeJobID (w_agent w) = None) by (apply Hres; lia).
  destruct (resume_settle_ok _ Hn) as (Hok' & Hj' & Hc').
  split; [exact Hok'|]. split; [exact (eq_trans Hj' Hj)|].
  split; [exact (eq_trans Hc' Hc)|]. intros _. exact (eq_trans Hj' Hn).
Qed.

Lemma agent_event_inv o sign e w :
  (∀ offer, e = EvOffer offer → ¬ resuming w) → agent_inv w → agent_inv (agent_event o sign e w).
Proof.
  intros Hap Hw. destruct e; unfold agent_event.
  - by apply sendHeartbeat_inv.
  - apply offer_claim_inv; [by eapply Hap|done].
  - by apply offer_start_inv.
  - by apply monitor_tick_inv.
  - by apply offer_finish_inv.
  - apply agent_inv_upd; [intros; by apply control_pause_ok|done].
  - by apply world_resume_inv.
  - by apply world_prepared_inv.
  - by apply world_settle_inv.
  - apply agent_inv_upd; [intros; solve_job|done].
  - apply agent_inv_upd; [intros; solve_job|done].
  - apply agent_inv_upd; [intros; solve_job|done].
  - apply agent_inv_upd; [intros; by apply transition_ok|done].
  - done.
Qed.

Lemma started_inv w : started w → agent_inv w.
Proof.
  intros (window & status & now & a1 & Hb & Hr & Hrun & Hnr). unfold agent_inv. rewrite Hrun.
  unfold run_begin, transition in Hb. simpl in Hb. simplify_eq.
  unfold run_ready, transition in Hr. simpl in Hr. by injection Hr as <-.
Qed.

(** ** Main theorems *)

(** C8. At every moment of every interleaving of heartbeats, job offers, thermal
    monitor ticks, pauses, resumes, session changes and completions in which no
    offer is claimed between the two locked sections of a resume, a node that
    reports [AVAILABLE] has no job, a node that reports [BUSY] has one, the job it
    reports is the one whose offer is executing (so never two at once), and a
    cancel function is installed exactly from the start of the job to its end. *)
Theorem agent_one_job o sign w0 w :
  started w0 → rtc (agent_step_apart o sign) w0 w → agent_inv w.
Proof.
  intros H0 Hrtc. apply started_inv in H0. induction Hrtc as [|w1 w2 w3 (e & -> & Hap) _ IH]; [done|].
  apply IH. by apply agent_event_inv.
Qed.

(** *** Accepting work *)

(** The conditions under which a node may take an offer. *)
Record eligible (offer : JobOfferPayload) (now : Z) (a : Agent) : Prop := {
  el_lease : now ≤ jo_LeaseExpiresAt offer;
  el_request : validateOfferRequest (jo_Request offer) = Ok tt;
  el_state : ag_state a = Available;
  el_not_paused : ag_pauseRequested a = false;
  el_window : ag_scheduleState a = StateInWindow;
  el_thermal : ag_thermalState a = TUnset ∨ ag_thermalState a = TNormal;
  el_model : rs_ModelID (ag_runtimeStatus a) = jo_ModelID offer;
  el_model_hash : rs_ModelHash (ag_runtimeStatus a) ≠ "";
  el_runtime_hash : rs_RuntimeHash (ag_runtimeStatus a) ≠ "";
  el_base_url : rs_BaseURL (ag_runtimeStatus a) ≠ ""
}.

Ltac bool_hyps :=
  repeat match goal with
  | H : _ || _ = false |- _ => apply orb_false_iff in H as [? ?]
  | H : _ && _ = true |- _ => apply andb_true_iff in H as [? ?]
  | H : negb _ = false |- _ => apply negb_false_iff in H
  | H : negb _ = true |- _ => apply negb_true_iff in H
  | H : bool_decide _ = true |- _ => apply bool_decide_eq_true in H
  | H : bool_decide _ = false |- _ => apply bool_decide_eq_false in H
  | H : String.eqb _ _ = true |- _ => apply String.eqb_eq in H
  | H : String.eqb _ _ = false |- _ => apply String.eqb_neq in H
  | H : (_ <? _) = false |- _ => apply Z.ltb_ge in H
  | H : (_ <? _) = true |- _ => apply Z.ltb_lt in H
  | H : (_ <=? _) = false |- _ => apply Z.leb_gt in H
  | H : (_ <=? _) = true |- _ => apply Z.leb_le in H
  | H : (_ =? _) = true |- _ => apply Z.eqb_eq in H
  | H : (_ =? _) = false |- _ => apply Z.eqb_neq in H
  end.

Lemma thermally_blocked_false t : thermally_blocked t = false ↔ t = TUnset ∨ t = TNormal.
Proof. destruct t; unfold thermally_blocked; simpl; naive_solver. Qed.

Lemma claimJob_eligible offer now a rs a' :
  claimJob offer now a = (inl rs, a') → eligible offer now a.
Proof.
  intros H. unfold claimJob in H. repeat (case_match; simplify_eq). bool_hyps.
  match goal with H : thermally_blocked _ = false |- _ => apply thermally_blocked_false in H end.
  split; try done; [|by destruct (ag_scheduleState a)].
  match goal with H : validateOfferRequest _ = Ok ?u |- _ => by destruct u end.

Qed.

Lemma eligible_claims offer now a :
  eligible offer now a → claimJob offer now a = (inl (ag_runtimeStatus a),
    writeStatusLocked (a <| ag_activeJobID := Some (jo_JobID offer) |>
                         <| ag_state := Busy |> <| ag_lastError := "" |>)).
Proof.
  intros [Hl Hr Hs Hp Hw Ht Hm Hmh Hrh Hb]. unfold claimJob.
  rewrite (proj2 (Z.ltb_ge _ _) Hl), Hr, Hs, Hp, Hw. simpl.
  rewrite (proj2 (thermally_blocked_false _) Ht), Hm, String.eqb_refl.
  rewrite !(proj2 (String.eqb_neq _ _)) by done. done.
Qed.

(** The claim is exactly the eligibility test: a job is taken if and only if
    its lease is running, the request is one the node serves, and the node is
    available, not paused, inside its window, thermally safe and has the
    requested model loaded with known hashes. Taking it makes the node busy with
    that job; refusing leaves the agent unchanged. *)
Theorem claimJob_spec offer now a :
  (∀ rs a', claimJob offer now a = (inl rs, a') ↔
     eligible offer now a ∧ rs = ag_runtimeStatus a ∧
     a' = writeStatusLocked (a <| ag_activeJobID := Some (jo_JobID offer) |>
                               <| ag_state := Busy |> <| ag_lastError := "" |>)) ∧
  (∀ reason a', claimJob offer now a = (inr reason, a') → ¬ eligible offer now a ∧ a' = a).
Proof.
  split.
  - intros rs a'. split; [|by intros (H%eligible_claims & -> & ->)]. intros H.
    pose proof (claimJob_eligible _ _ _ _ _ H) as He. rewrite (eligible_claims _ _ _ He) in H. by simplify_eq.
  - intros reason a' H. split; [intros He; by rewrite (eligible_claims _ _ _ He) in H|].
    by apply claimJob_inv in H.
Qed.

(** *** Thermal protection *)

Lemma next_hard o t temp :
  0 < o_MaxTempC o → o_MaxTempC o < o_HardTempC o → 0 ≤ o_ThermalHysteresis o → o_HardTempC o ≤ temp →
  nextThermalStateLocked o t temp = THardLimit.
Proof.
  intros. unfold nextThermalStateLocked.
  rewrite !(proj2 (Z.leb_gt _ _)) by lia. simpl.
  rewrite (proj2 (Z.leb_le (o_HardTempC o) temp)) by lia.
  destruct t; rewrite ?(proj2 (Z.leb_gt temp _)) by lia; done.
Qed.

Lemma hard_guard_state a :
  job_ok a → ag_thermalState a = THardLimit →
  ag_state (guard_switch a) ≠ Available ∧ ag_state (guard_switch a) ≠ Busy ∧
  (ag_pauseRequested a = false → ag_activeJobCancel a = true → ag_jobCancelled (guard_switch a) = true).
Proof.
  intros [HA HB] Ht. unfold guard_switch. rewrite Ht.
  destruct (ag_pauseRequested a) eqn:Hp; simpl.
  - destruct (is_active a); simpl; rewrite forceState_total by auto; done.
  - unfold thermal_drain, call_cancel.
    destruct (ag_activeJobCancel a) eqn:Hc; simpl; unfold is_active; simpl;
      destruct (bool_decide (is_Some (ag_activeJobID a))) eqn:Ea; simpl;
      rewrite ?forceState_total by auto; try (split_and!; done);
      destruct (ag_state a) eqn:Hs; simpl; rewrite ?forceState_total by auto; rewrite ?Hs.
    all: by split_and!.
Qed.

Lemma evaluateGuards_state o gpu reason now a :
  ag_state (evaluateGuards o gpu reason now a).2 =
  ag_state (guard_switch (a <| ag_scheduleState := StateAt (ag_scheduleWindow a) now (o_ScheduleLocation o) |>
     <| ag_thermalState := nextThermalStateLocked o (ag_thermalState a) (gpu_TemperatureC gpu) |>)) ∧
  ag_jobCancelled (evaluateGuards o gpu reason now a).2 =
  ag_jobCancelled (guard_switch (a <| ag_scheduleState := StateAt (ag_scheduleWindow a) now (o_ScheduleLocation o) |>
     <| ag_thermalState := nextThermalStateLocked o (ag_thermalState a) (gpu_TemperatureC gpu) |>)) ∧
  ag_thermalState (evaluateGuards o gpu reason now a).2 =
    nextThermalStateLocked o (ag_thermalState a) (gpu_TemperatureC gpu).
Proof.
  unfold evaluateGuards. set (a1 := a <| ag_scheduleState := _ |> <| ag_thermalState := _ |>).
  assert (Hthermal : ag_thermalState (guard_switch a1) = ag_thermalState a1).
  { unfold guard_switch, thermal_drain, call_cancel. repeat case_match; try done; simpl; congruence. }
  assert (Hpi : ag_state (pause_idle_unload o now (guard_switch a1)) = ag_state (guard_switch a1) ∧
    ag_jobCancelled (pause_idle_unload o now (guard_switch a1)) = ag_jobCancelled (guard_switch a1) ∧
    ag_thermalState (pause_idle_unload o now (guard_switch a1)) = ag_thermalState (guard_switch a1)).
  { unfold pause_idle_unload. repeat case_match; done. }
  destruct Hpi as (H1 & H2 & H3). case_match; simpl; rewrite ?H1, ?H2, ?H3, ?Hthermal; done.
Qed.

(** At the hard temperature limit the guards run with a heartbeat leave the
    node neither available nor busy, refuse every offer until the next heartbeat,
    and, unless the host has asked for a pause, cancel the job in progress. *)
Theorem hard_limit_stops_work o gpu reason now a :
  0 < o_MaxTempC o → o_MaxTempC o < o_HardTempC o → 0 ≤ o_ThermalHysteresis o →
  o_HardTempC o ≤ gpu_TemperatureC gpu → job_ok a →
  let a' := (evaluateGuards o gpu reason now a).2 in
  ag_state a' ≠ Available ∧ ag_state a' ≠ Busy ∧
  (∀ offer t, ∃ why, (claimJob offer t a').1 = inr why) ∧
  (ag_pauseRequested a = false → ag_activeJobCancel a = true → ag_jobCancelled a' = true).
Proof.
  intros Hm Hh Hy Ht Hok. destruct (evaluateGuards_state o gpu reason now a) as (Hs & Hc & Hth).
  rewrite next_hard in Hs, Hc, Hth by done. cbv zeta. rewrite Hs, Hc.
  set (a1 := a <| ag_scheduleState := _ |> <| ag_thermalState := _ |>) in *.
  destruct (hard_guard_state a1) as (HA & HB & Hcan); [done|done|].
  split_and!; [done|done| |done].
  intros offer t. destruct (claimJob offer t _) as [[rs|why] a2] eqn:E; [|by eexists].
  apply claimJob_eligible in E as []. congruence.
Qed.

(** Hysteresis: while readings stay between the recovery temperature and the
    soft limit, a cool node stays eligible and a blocked node stays blocked, so the
    node does not oscillate between serving and draining inside the band. *)
Theorem hysteresis_band_stable o temps t :
  0 < o_MaxTempC o → o_MaxTempC o < o_HardTempC o →
  Forall (λ temp, Z.max 0 (o_MaxTempC o - o_ThermalHysteresis o) < temp ≤ o_MaxTempC o) temps →
  thermally_blocked (foldl (nextThermalStateLocked o) t temps) = thermally_blocked t.
Proof.
  intros Hm Hh Hall. revert t. induction Hall as [|temp temps Htemp _ IH]; intros t; [done|].
  simpl. rewrite IH. unfold nextThermalStateLocked.
  rewrite !(proj2 (Z.leb_gt _ _)) by lia. simpl.
  rewrite (proj2 (Z.ltb_ge (o_MaxTempC o) temp)) by lia. by destruct t.
Qed.

(** Recovery: once a reading is at or below the recovery temperature, the
    next guard evaluation of an idle or draining node without a job, inside its
    window, not paused and with its runtime ready makes it available again. *)
Theorem cooled_node_recovers o gpu reason now a :
  gpu_TemperatureC gpu ≤ Z.max 0 (o_MaxTempC o - o_ThermalHysteresis o) →
  o_MaxTempC o < o_HardTempC o → 0 ≤ o_ThermalHysteresis o →
  StateAt (ag_scheduleWindow a) now (o_ScheduleLocation o) = StateInWindow →
  ag_pauseRequested a = false → ag_activeJobID a = None →
  ag_state a = Idle ∨ ag_state a = Draining → runtime_ready (ag_runtimeStatus a) = true →
  ag_state (evaluateGuards o gpu reason now a).2 = Available.
Proof.
  intros Ht Hh Hy Hw Hp Hact Hst Hrt.
  destruct (evaluateGuards_state o gpu reason now a) as (-> & _ & _).
  assert (Hn : nextThermalStateLocked o (ag_thermalState a) (gpu_TemperatureC gpu) = TNormal).
  { unfold nextThermalStateLocked. destruct (_ || _) eqn:E; [done|]. bool_hyps.
    rewrite (proj2 (Z.leb_le _ _) Ht), (proj2 (Z.leb_gt (o_HardTempC o) _)),
      (proj2 (Z.ltb_ge (o_MaxTempC o) _)) by lia. by destruct (ag_thermalState a). }
  rewrite Hn, Hw. unfold guard_switch, is_active. simpl. rewrite Hp, Hact. simpl.
  destruct Hst as [->| ->]; rewrite Hrt; simpl; by rewrite forceState_total by auto.
Qed.

(** A heartbeat that was sent reports the state the guards have just computed:
    its sequence number is the next one, its state, schedule, thermal, pause and
    drain fields and its job are the agent's, and [status.json] agrees. *)
Theorem sendHeartbeat_reports o tele w w' :
  sendHeartbeat o tele w = (Ok tt, w') →
  ∃ hb rest, w_sent w' = MsgHeartbeat hb :: rest ∧
    hb_Sequence hb = wrap64 (ag_sequence (w_agent w) + 1) ∧
    hb_State hb = state_string (ag_state (w_agent w')) ∧
    hb_ScheduleState hb = schedule_state_string (ag_scheduleState (w_agent w')) ∧
    hb_ThermalState hb = thermal_string (ag_thermalState (w_agent w')) ∧
    hb_Paused hb = paused_flag (w_agent w') ∧ hb_Draining hb = draining_flag (w_agent w') ∧
    hb_ActiveJobID hb = ag_activeJobID (w_agent w') ∧
    ag_statusFile (w_agent w') = Some (statusLocked (w_agent w')) ∧
    ag_lastHeartbeatAt (w_agent w') = Some (w_now w).
Proof.
  unfold sendHeartbeat, on_agent. intros H.
  assert (Hw : ∀ msg w1 u w2, writeEnvelope msg w1 = (Ok u, w2) →
    w_agent w2 = w_agent w1 ∧ w_sent w2 = msg :: w_sent w1).
  { intros msg w1 u w2. unfold writeEnvelope. destruct (w_wire w1) as [|[] ?]; intros; by simplify_eq. }
  run_inv.
  match goal with E : writeEnvelope (MsgHeartbeat ?hb) _ = _ |- _ =>
    apply Hw in E as [Ha Hs]; exists hb end.
  eexists. split; [exact Hs|]. simpl. rewrite ?Ha. split_and!; done.
Qed.

(** *** Start-up and telemetry *)

(** A host that pauses the agent while the model is being prepared ends the
    agent: the final start-up transition, [PAUSED] to [AVAILABLE], is illegal, so
    [Run] returns an error instead of staying paused. *)
Theorem pause_during_start_aborts now window status t :
  ∃ a1 e, run_begin (initial_agent window now) = (Ok tt, a1) ∧ ag_state a1 = Preparing ∧
    ag_state (control_pause t a1) = Paused ∧
    (run_ready (Ok status) (control_pause t a1)).1 = Err e.
Proof. by eexists _, _. Qed.

(** The gap inside [resume] is not covered by the one-job guarantee: from any
    available node, a resume command that finds no job and then loses the lock
    to a job offer marks the node [AVAILABLE] again while that job is running,
    and the node then accepts a second job. *)
Theorem resume_race o sign w offer offer2 :
  eligible offer (w_now w) (w_agent w) → ag_activeJobID (w_agent w) = None →
  ag_thermalState (w_agent w) = TNormal → rs_ModelID (ag_runtimeStatus (w_agent w)) ≠ "" →
  jo_ModelID offer2 = jo_ModelID offer → w_now w ≤ jo_LeaseExpiresAt offer2 →
  validateOfferRequest (jo_Request offer2) = Ok tt →
  ∃ w', rtc (agent_step o sign) w w' ∧
    ag_state (w_agent w') = Available ∧ ag_activeJobID (w_agent w') = Some (jo_JobID offer) ∧
    eligible offer2 (w_now w') (w_agent w').
Proof.
  intros He Hact Hth Hmod Hm2 Hl2 Hr2.
  exists (world_settle (offer_claim offer (world_resume w)).2). split.
  { eapply rtc_l; [by exists EvResume|]. eapply rtc_l; [by exists (EvOffer offer)|].
    apply rtc_once. by exists EvResumeSettle. }
  destruct He as [Hl Hr Hs Hp Hw Ht Hm Hmh Hrh Hb].
  unfold world_resume, resume_begin, is_active. simpl. rewrite Hact. simpl.
  rewrite (proj2 (String.eqb_neq _ _) Hmod), (proj2 (String.eqb_neq _ _) Hb). simpl.
  unfold offer_claim. simpl. rewrite eligible_claims by (by split). simpl.
  unfold world_settle. simpl. unfold resume_settle. simpl. rewrite Hw, Hth. simpl.
  split_and!; [done|done|]. split; simpl; try done; try (by right); congruence.
Qed.

(** Losing telemetry clears the thermal block: a node idled at the hard limit
    becomes available again on the first heartbeat whose temperature reading
    failed. *)
Theorem telemetry_loss_reopens o reason now a :
  ag_thermalState a = THardLimit → ag_state a = Idle → ag_activeJobID a = None →
  ag_pauseRequested a = false → runtime_ready (ag_runtimeStatus a) = true →
  StateAt (ag_scheduleWindow a) now (o_ScheduleLocation o) = StateInWindow →
  let a' := (evaluateGuards o (telemetry_gpu None) reason now a).2 in
  ag_state a' = Available ∧ ag_thermalState a' = TNormal.
Proof.
  intros _ Hst Hact Hp Hrt Hw. cbv zeta.
  destruct (evaluateGuards_state o (telemetry_gpu None) reason now a) as (-> & _ & ->).
  split; [|done]. rewrite Hw. unfold guard_switch, is_active. simpl. rewrite Hp, Hact, Hst. simpl.
  by rewrite Hrt.
Qed.

(** ** Witnesses *)

Definition sample_options : Options := resolve_options None {|
  o_NodeID := "node_1"; o_ModelID := ""; o_GPUVendor := "nvidia"; o_ScheduleFrom := "23:00";
  o_ScheduleUntil := "08:00"; o_ScheduleLocation := λ _, 0; o_MaxTempC := 0; o_HardTempC := 0;
  o_ThermalHysteresis := 0; o_PauseIdleTimeout := 0; o_ThermalPoll := 0; o_RuntimeCloses := true |}.

Definition sample_window : Window :=
  {| From := {| Hour := 23; Minute := 0 |}; Until := {| Hour := 8; Minute := 0 |} |}.
Definition sample_runtime : RuntimeStatus :=
  {| rs_ModelID := "m"; rs_RuntimeHash := "sha256:r"; rs_ModelHash := "sha256:m";
     rs_BaseURL := "http://127.0.0.1:1" |}.
Definition sample_offer : JobOfferPayload := {|
  jo_JobID := "job_1"; jo_AttemptID := "att_1"; jo_LeaseExpiresAt := 10 * second;
  jo_DeadlineAt := 60 * second; jo_ModelID := "m";
  jo_Request := {| cr_Messages := [{| cm_Role := "user"; cm_Content := "hi" |}];
                   cr_Temperature := None; cr_MaxTokens := 16; cr_Seed := None; cr_Stream := false |};
  jo_Verification := KindStandard |}.
Definition sample_gpu (temp : Z) : GPUStatus :=
  {| gpu_Name := "RTX 4070"; gpu_VRAMTotalMB := 12282; gpu_VRAMFreeMB := 9000;
     gpu_TemperatureC := temp; gpu_PowerW := 180; gpu_PowerLimitW := 200; gpu_UtilizationPercent := 90 |}.

(** The agent just after start-up, and with a job begun. *)
Definition sample_agent : Agent :=
  (run_ready (Ok sample_runtime) (run_begin (initial_agent sample_window 0)).2).2.
Definition sample_world : World :=
  {| w_agent := sample_agent; w_running := None; w_sent := []; w_wire := []; w_now := 0;
     w_preparing := 0; w_settling := 0 |}.
Definition no_sign (_ : JobCompletedPayload) : result NodeSignature :=
  Ok {| ns_KeyID := "k"; ns_Algorithm := "ed25519"; ns_Value := ""; ns_SignedAt := 0 |}.
Definition busy_world : World := (offer_start (offer_claim sample_offer sample_world).2).2.

Lemma agent_one_job_witness :
  ag_activeJobID (w_agent busy_world) = Some "job_1" ∧ agent_inv busy_world.
Proof.
  split; [reflexivity|].
  apply (agent_one_job sample_options no_sign sample_world).
  - exists sample_window, sample_runtime, 0, (run_begin (initial_agent sample_window 0)).2.
    split_and!; [vm_compute; reflexivity..|]. unfold resuming. simpl. lia.
  - apply (rtc_l _ _ (offer_claim sample_offer sample_world).2).
    { exists (EvOffer sample_offer). split; [unfold agent_event; reflexivity|]. intros ? _. unfold resuming. simpl. lia. }
    apply rtc_once. exists EvOfferStart. split; [unfold busy_world, agent_event; reflexivity|]. intros offer H. discriminate H.
Defined.

Definition hot_agent : Agent :=
  (evaluateGuards sample_options (sample_gpu 95) "" 0 (w_agent busy_world)).2.

Lemma hard_limit_stops_work_witness :
  ag_state (w_agent busy_world) = Busy ∧ ag_state hot_agent ≠ Busy ∧ ag_jobCancelled hot_agent = true.
Proof.
  destruct (hard_limit_stops_work sample_options (sample_gpu 95) "" 0 (w_agent busy_world))
    as (_ & HB & _ & Hc).
  1-4: vm_compute; intuition congruence.
  { split; vm_compute; [done|by eexists]. }
  split_and!; [reflexivity|exact HB|]. apply Hc; reflexivity.
Defined.

Lemma hysteresis_band_stable_witness :
  thermally_blocked (foldl (nextThermalStateLocked sample_options) TWarm [75; 78; 74]) = true.
Proof.
  rewrite (hysteresis_band_stable sample_options [75; 78; 74] TWarm); [reflexivity| | |];
    vm_compute; repeat constructor; intuition congruence.
Defined.

(** The same node idled by a hot reading, with no job. *)
Definition idled_agent : Agent :=
  (evaluateGuards sample_options (sample_gpu 95) "" 0 sample_agent).2.

Lemma cooled_node_recovers_witness :
  ag_state idled_agent = Idle ∧
  ag_state (evaluateGuards sample_options (sample_gpu 60) "" 0 idled_agent).2 = Available.
Proof.
  split; [reflexivity|].
  apply cooled_node_recovers; try reflexivity; try (vm_compute; intuition congruence).
Defined.

Lemma sendHeartbeat_reports_witness :
  ∃ hb rest, w_sent (sendHeartbeat sample_options (Some (sample_gpu 60)) sample_world).2
             = MsgHeartbeat hb :: rest ∧ hb_Sequence hb = 1.
Proof.
  destruct (sendHeartbeat_reports sample_options (Some (sample_gpu 60)) sample_world
    (sendHeartbeat sample_options (Some (sample_gpu 60)) sample_world).2)
    as (hb & rest & Hs & Hq & _); [vm_compute; reflexivity|].
  exists hb, rest. split; [exact Hs|exact Hq].
Defined.

Lemma resume_race_witness :
  ∃ w', rtc (agent_step sample_options no_sign) sample_world w' ∧
    ag_state (w_agent w') = Available ∧ ag_activeJobID (w_agent w') = Some "job_1".
Proof.
  destruct (resume_race sample_options no_sign sample_world sample_offer sample_offer)
    as (w' & Hr & Hs & Hj & _); [|reflexivity|reflexivity|by vm_compute|reflexivity|by vm_compute
                                 |reflexivity|by exists w'].
  split; try reflexivity; try (by vm_compute). by right.
Defined.

Lemma telemetry_loss_reopens_witness :
  ag_thermalState idled_agent = THardLimit ∧
  ag_state (evaluateGuards sample_options (telemetry_gpu None) "" 0 idled_agent).2 = Available.
Proof.
  split; [reflexivity|].
  apply (telemetry_loss_reopens sample_options "" 0 idled_agent); reflexivity.
Defined.
