(* ===== verification/Requests.v ===== *)
(** * Requests at the public API

    The jobs package's pure checks: the types of [jobs/types.go], admission of a
    chat completion ([jobs/validation.go]), plausibility of a completion reported
    by a node ([jobs/metering.go]), the idempotency decision
    ([jobs/idempotency.go]) and the per-key rate limiter ([jobs/apikey.go]).

    The theorems show that admission is exactly its list of conditions, that an
    admitted request is one a node will serve, that usage accepted for billing is
    consistent and bounded in spite of 64-bit wrap-around, and that the limiter
    lets exactly the first [LimitPerMinute] calls of a key through per minute. *)
From stdpp Require Import base gmap strings list pretty sorting.
From Stdlib Require Import ZArith Lia.
From S2P Require Import Prelude GoStrings Float64 Protocol Agent.

(** ** Types *)

Definition CodeInvalidRequest := "invalid_request".
Definition CodeUnauthorized := "unauthorized".
Definition CodeModelNotFound := "model_not_found".
Definition CodeModelUnavailable := "model_unavailable".
Definition CodeNoCapacity := "no_capacity".
Definition CodeJobTimeout := "job_timeout".
Definition CodeJobFailed := "job_failed".

Record ModelPricing := {
  CustomerInputPerMillionMicrodollars : Z;
  CustomerOutputPerMillionMicrodollars : Z;
  HostCreditPerMillionAcceptedOutputMicrodollars : Z
}.

Record ModelLimits := { MaxInputTokens : Z; MaxOutputTokens : Z; MaxRequestBytes : Z }.

Record VerificationPolicy := {
  PriceVersion : string;
  DuplicateSampleRate : float64;
  ChallengeRate : float64
}.

Record ModelInfo := {
  mi_ID : string;
  mi_DisplayName : string;
  mi_Capabilities : list string;
  mi_Pricing : ModelPricing;
  mi_DataClass : string;
  mi_AvailableNodes : Z;
  mi_Version : string;
  mi_Limits : ModelLimits;
  mi_Verification : VerificationPolicy;
  mi_ModelHash : string;
  mi_RuntimeHash : string
}.
#[export] Instance ModelInfo_eta : Eta ModelInfo := λ r,
  {| mi_ID := mi_ID r; mi_DisplayName := mi_DisplayName r; mi_Capabilities := mi_Capabilities r;
     mi_Pricing := mi_Pricing r; mi_DataClass := mi_DataClass r;
     mi_AvailableNodes := mi_AvailableNodes r; mi_Version := mi_Version r; mi_Limits := mi_Limits r;
     mi_Verification := mi_Verification r; mi_ModelHash := mi_ModelHash r;
     mi_RuntimeHash := mi_RuntimeHash r |}.

(** [Tools] and [ToolChoice] are raw JSON, the empty string when absent. *)
Record ChatCompletionRequest := {
  cc_Model : string;
  cc_Messages : list ChatMessage;
  cc_Temperature : option float64;
  cc_MaxTokens : Z;
  cc_Stream : bool;
  cc_Tools : string;
  cc_ToolChoice : string
}.

(** ** Admission *)

Definition MaxPublicRequestBytes : Z := 256 * 1024.

Definition invalid (message : string) : gerror := ErrApi CodeInvalidRequest message false 400.

Definition capabilityEnabled (capabilities : list string) (wanted : string) : bool :=
  existsb (String.eqb wanted) capabilities.

Definition estimateTokens (content : string) : Z :=
  let runes := rune_count content in
  if runes =? 0 then 0 else (runes + 3) / 4.

(** The loop over the messages, with the running estimate. *)
Fixpoint admit_messages (estimated : Z) (messages : list ChatMessage) : result Z :=
  match messages with
  | [] => Ok estimated
  | message :: rest =>
      if negb (known_role (cm_Role message)) then
        Err (invalid "messages contain an unsupported role")
      else if is_blank (cm_Content message) then
        Err (invalid "messages must be text-only with non-empty content")
      else admit_messages (wrap64 (estimated + estimateTokens (cm_Content message))) rest
  end.

(** [len(raw) > 0 && string(raw) != "null"]. *)
Definition raw_present (raw : string) : bool :=
  negb (String.eqb raw "") && negb (String.eqb raw "null").

Definition temperature_bad (t : option float64) : bool :=
  match t with
  | None => false
  | Some x => flt x (float_of_Z 0) || flt (float_of_Z 2) x
  end.

Definition request_byte_limit (model : ModelInfo) : Z :=
  let limit := MaxRequestBytes (mi_Limits model) in
  if (limit <=? 0) || (MaxPublicRequestBytes <? limit) then MaxPublicRequestBytes else limit.

Definition ValidateChatCompletion (req : ChatCompletionRequest) (model : ModelInfo)
    (bodyBytes : Z) : result ChatRequest :=
  if String.eqb (cc_Model req) "" then Err (invalid "model is required")
  else if negb (String.eqb (cc_Model req) (mi_ID model)) then
    Err (ErrApi CodeModelNotFound "Model not found." false 404)
  else if negb (capabilityEnabled (mi_Capabilities model) "chat_completions") then
    Err (ErrApi CodeModelUnavailable "Model does not support chat completions." false 409)
  else
  let maxRequestBytes := request_byte_limit model in
  if maxRequestBytes <? bodyBytes then
    Err (ErrApi CodeInvalidRequest ("Request body exceeds the " +:+ itoa maxRequestBytes +:+
                                    " byte limit for this model.") false 413)
  else if cc_Stream req then Err (invalid "stream must be false")
  else if raw_present (cc_Tools req) then
    Err (invalid "tools and function calling are not supported")
  else if raw_present (cc_ToolChoice req) then
    Err (invalid "tools and function calling are not supported")
  else
  match cc_Messages req with
  | [] => Err (invalid "messages must contain at least one text message")
  | messages =>
  match admit_messages 0 messages with
  | Err e => Err e
  | Ok estimatedInputTokens =>
  let maxInputTokens := default_pos (MaxInputTokens (mi_Limits model)) 4096 in
  if maxInputTokens <? estimatedInputTokens then
    Err (ErrApi CodeInvalidRequest "Input exceeds the model token limit." false 413)
  else
  let maxOutputTokens := default_pos (MaxOutputTokens (mi_Limits model)) 1024 in
  let maxTokens := default_pos (cc_MaxTokens req) maxOutputTokens in
  if maxOutputTokens <? maxTokens then
    Err (invalid ("max_tokens exceeds the " +:+ itoa maxOutputTokens +:+
                  " token output limit for this model"))
  else if temperature_bad (cc_Temperature req) then
    Err (invalid "temperature must be between 0 and 2")
  else Ok {| cr_Messages := messages; cr_Temperature := cc_Temperature req;
             cr_MaxTokens := maxTokens; cr_Seed := None; cr_Stream := false |}
  end
  end.

(** ** Metering *)

Inductive Severity := SevReject | SevFlag.
#[export] Instance Severity_eq_dec : EqDecision Severity.
Proof. solve_decision. Defined.

Record MeteringIssue := { is_Code : string; is_Message : string; is_Severity : Severity }.

Definition issue_when (b : bool) (code message : string) (sev : Severity) : list MeteringIssue :=
  if b then [{| is_Code := code; is_Message := message; is_Severity := sev |}] else [].

Definition estimated_prompt (messages : list ChatMessage) : Z :=
  foldl (λ acc m, wrap64 (acc + estimateTokens (cm_Content m))) 0 messages.

(** [float64(total) / (float64(millis) / 1000) > 5000]. *)
Definition throughput_outlier (total millis : Z) : bool :=
  (0 <? millis) && (0 <? total) &&
  flt (float_of_Z 5000)
      (fdiv (float_of_Z total) (fdiv (float_of_Z millis) (float_of_Z 1000))).

Definition PlausibilityIssues (request : ChatRequest) (payload : JobCompletedPayload)
    : list MeteringIssue :=
  match jc_Message payload with
  | None => [{| is_Code := "missing_message"; is_Message := "completion message is missing";
                is_Severity := SevReject |}]
  | Some message =>
  let usage := jc_Usage payload in
  let estimatedPrompt := estimated_prompt (cr_Messages request) in
  let outputLimit := default_pos (cr_MaxTokens request) 1024 in
  let estimatedCompletion := estimateTokens (cm_Content message) in
  issue_when (negb (String.eqb (cm_Role message) "assistant"))
    "bad_role" "completion role must be assistant" SevReject ++
  issue_when (is_blank (cm_Content message))
    "empty_completion" "completion content is empty" SevReject ++
  issue_when ((PromptTokens usage <? 0) || (CompletionTokens usage <? 0) || (TotalTokens usage <? 0))
    "negative_usage" "token counts cannot be negative" SevReject ++
  issue_when (negb (TotalTokens usage =? wrap64 (PromptTokens usage + CompletionTokens usage)))
    "usage_total_mismatch" "total_tokens must equal prompt_tokens plus completion_tokens" SevReject ++
  issue_when ((0 <? estimatedPrompt) &&
              (wrap64 (wrap64 (estimatedPrompt * 8) + 128) <? PromptTokens usage))
    "prompt_tokens_outlier" "prompt token count is implausibly high" SevFlag ++
  issue_when (wrap64 (wrap64 (outputLimit * 2) + 16) <? CompletionTokens usage)
    "completion_tokens_outlier" "completion token count exceeds accepted output bounds" SevReject ++
  issue_when ((0 <? estimatedCompletion) &&
              (wrap64 (wrap64 (estimatedCompletion * 8) + 128) <? CompletionTokens usage))
    "completion_length_outlier" "completion token count is implausibly high for response length" SevFlag ++
  issue_when (throughput_outlier (TotalTokens usage) (jc_DurationMillis payload))
    "duration_outlier" "reported token throughput is implausibly high" SevFlag
  end.

Definition is_reject (issue : MeteringIssue) : bool := bool_decide (is_Severity issue = SevReject).

Definition ValidateCompletionForAcceptance (request : ChatRequest) (payload : JobCompletedPayload)
    : list MeteringIssue * option gerror :=
  let issues := PlausibilityIssues request payload in
  match List.find is_reject issues with
  | Some issue => (issues, Some (ErrMsg (is_Message issue)))
  | None => (issues, None)
  end.

Inductive MeteringStatus := MsAccepted | MsFlagged | MsRejected.
#[export] Instance MeteringStatus_eq_dec : EqDecision MeteringStatus.
Proof. solve_decision. Defined.

Fixpoint metering_status_from (status : MeteringStatus) (issues : list MeteringIssue) : MeteringStatus :=
  match issues with
  | [] => status
  | issue :: rest =>
      match is_Severity issue with
      | SevReject => MsRejected
      | SevFlag => metering_status_from MsFlagged rest
      end
  end.
Definition meteringStatus (issues : list MeteringIssue) : MeteringStatus :=
  metering_status_from MsAccepted issues.

(** ** Idempotency *)

(** [ResponseMetadata] is raw JSON. *)
Record IdempotencyRecord := {
  ir_RequestHash : string;
  ir_ResponseStatus : Z;
  ir_ResponseMetadata : string;
  ir_JobID : string
}.

(** [IdempotencyDecision{}] lets the request run; otherwise the stored response
    is replayed or the request is refused. *)
Inductive IdempotencyDecision :=
  | IdemProceed
  | IdemReplay (status : Z) (body : string)
  | IdemError (e : gerror).

Definition ResolveIdempotency (record : IdempotencyRecord) (found : bool) (requestHash : string)
    : IdempotencyDecision :=
  if negb found then IdemProceed
  else if negb (String.eqb (ir_RequestHash record) requestHash) then
    IdemError (ErrApi CodeInvalidRequest
      "Idempotency-Key was already used with a different request body." false 409)
  else if 0 <? ir_ResponseStatus record then
    IdemReplay (ir_ResponseStatus record) (ir_ResponseMetadata record)
  else IdemProceed.

(** ** Rate limiter *)

Record rateBucket := { windowStart : Z; rb_count : Z }.

Record RateLimiter := { LimitPerMinute : Z; buckets : gmap string rateBucket }.
#[export] Instance RateLimiter_eta : Eta RateLimiter := λ r,
  {| LimitPerMinute := LimitPerMinute r; buckets := buckets r |}.

(** [t.Truncate(time.Minute)]. *)
Definition truncate_minute (t : Z) : Z := t - t mod minute.

Definition Allow (r : RateLimiter) (keyID : string) (clock : Z) : bool * RateLimiter :=
  if LimitPerMinute r <=? 0 then (true, r)
  else
  let now := truncate_minute clock in
  let bucket := default {| windowStart := zero_time; rb_count := 0 |} (buckets r !! keyID) in
  let bucket := if windowStart bucket =? now then bucket
                else {| windowStart := now; rb_count := 0 |} in
  if LimitPerMinute r <=? rb_count bucket then
    (false, r <| buckets := <[keyID := bucket]> (buckets r) |>)
  else
    (true, r <| buckets := <[keyID := {| windowStart := now; rb_count := rb_count bucket + 1 |}]>
                            (buckets r) |>).

(** ** Admission is its list of conditions *)

Definition message_ok (m : ChatMessage) : Prop :=
  known_role (cm_Role m) = true ∧ is_blank (cm_Content m) = false.

Record admissible (req : ChatCompletionRequest) (model : ModelInfo) (bodyBytes : Z) : Prop := {
  ad_model : cc_Model req = mi_ID model ∧ cc_Model req ≠ "";
  ad_capability : "chat_completions" ∈ mi_Capabilities model;
  ad_bytes : bodyBytes ≤ request_byte_limit model;
  ad_stream : cc_Stream req = false;
  ad_tools : raw_present (cc_Tools req) = false ∧ raw_present (cc_ToolChoice req) = false;
  ad_messages : cc_Messages req ≠ [] ∧ Forall message_ok (cc_Messages req);
  ad_input : estimated_prompt (cc_Messages req) ≤ default_pos (MaxInputTokens (mi_Limits model)) 4096;
  ad_output : cc_MaxTokens req ≤ default_pos (MaxOutputTokens (mi_Limits model)) 1024;
  ad_temperature : temperature_bad (cc_Temperature req) = false
}.

(** The request sent to nodes: [max_tokens] defaults to the model's limit. *)
Definition admitted_request (req : ChatCompletionRequest) (model : ModelInfo) : ChatRequest := {|
  cr_Messages := cc_Messages req; cr_Temperature := cc_Temperature req;
  cr_MaxTokens := default_pos (cc_MaxTokens req) (default_pos (MaxOutputTokens (mi_Limits model)) 1024);
  cr_Seed := None; cr_Stream := false
|}.

Lemma admit_messages_ok n ms n' :
  admit_messages n ms = Ok n' ↔
  Forall message_ok ms ∧ n' = foldl (λ acc m, wrap64 (acc + estimateTokens (cm_Content m))) n ms.
Proof.
  revert n. induction ms as [|m ms IH]; intros n; simpl.
  { split; [intros ?; by simplify_eq|by intros [_ ->]]. }
  rewrite Forall_cons. unfold message_ok.
  destruct (known_role (cm_Role m)), (is_blank (cm_Content m)); simpl;
    try (split; [done|by intros [[[] _] _]]).
  rewrite IH. naive_solver.
Qed.

Lemma capabilityEnabled_elem caps w : capabilityEnabled caps w = true ↔ w ∈ caps.
Proof.
  unfold capabilityEnabled. rewrite existsb_exists. split.
  - intros (x & Hx & ->%String.eqb_eq). by apply list_elem_of_In.
  - intros H%list_elem_of_In. exists w. split; [done|apply String.eqb_refl].
Qed.

Lemma default_pos_le d def : 0 < def → (default_pos d def ≤ def ↔ d ≤ def).
Proof. unfold default_pos. destruct (Z.leb_spec d 0); lia. Qed.

Lemma ValidateChatCompletion_ok req model bodyBytes r :
  ValidateChatCompletion req model bodyBytes = Ok r ↔
  admissible req model bodyBytes ∧ r = admitted_request req model.
Proof.
  assert (Hd : 0 < default_pos (MaxOutputTokens (mi_Limits model)) 1024) by by apply default_pos_pos.
  split.
  - unfold ValidateChatCompletion. intros H. repeat (case_match; simplify_eq/=). bool_hyps.
    match goal with H : admit_messages _ _ = _ |- _ => apply admit_messages_ok in H as [? ?] end.
    match goal with H : capabilityEnabled _ _ = true |- _ => apply capabilityEnabled_elem in H end.
    subst. split.
    + constructor; try done; try (split; congruence).
      1-2: match goal with H : cc_Messages _ = _ |- _ => rewrite H end.
      * split; [done|]. by repeat constructor.
      * done.
      * by apply default_pos_le.
    + unfold admitted_request. by f_equal.
  - intros [[[Hm Hne] Hc Hb Hs [Ht1 Ht2] [Hn Hms] Hi Ho Ht] ->]. unfold ValidateChatCompletion.
    rewrite (proj2 (String.eqb_neq _ _) Hne), Hm, String.eqb_refl, Hs, Ht1, Ht2, Ht.
    rewrite (proj2 (capabilityEnabled_elem _ _) Hc). cbn [negb].
    rewrite (proj2 (Z.ltb_ge _ _)) by lia.
    destruct (cc_Messages req) as [|m ms] eqn:E; [done|].
    rewrite (proj2 (admit_messages_ok 0 (m :: ms) _) (conj Hms eq_refl)).
    unfold estimated_prompt in Hi. rewrite !(proj2 (Z.ltb_ge _ _)); [|by apply default_pos_le|done].
    unfold admitted_request. by rewrite E.
Qed.

(** A chat completion is admitted if and only if it names the model, the model
    serves chat completions, the body, the estimated input and the requested output
    are within the model's limits, it does not stream or use tools, every message
    has a known role and visible text, and the temperature is in range; the request
    forwarded to nodes is then the one given, with [max_tokens] defaulted. *)
Theorem ValidateChatCompletion_spec req model bodyBytes r :
  ValidateChatCompletion req model bodyBytes = Ok r ↔
  admissible req model bodyBytes ∧ r = admitted_request req model.
Proof. apply ValidateChatCompletion_ok. Qed.

Lemma agent_check_messages_ok ms : Forall message_ok ms → check_messages ms = Ok tt.
Proof.
  induction 1 as [|m ms [Hr Hb] _ IH]; simpl; [done|]. by rewrite Hr, Hb.
Qed.

(** Coordinator and node agree: a request admitted for a model whose output limit
    is at most the node's cap of 1024 tokens passes the check every node makes on an
    offer; with a larger limit, a request that asks for more than the cap is admitted
    and then refused by every node. *)
Theorem admitted_request_served req model bodyBytes r :
  ValidateChatCompletion req model bodyBytes = Ok r →
  (validateOfferRequest r = Ok tt ↔ cr_MaxTokens r ≤ max_node_tokens) ∧
  (default_pos (MaxOutputTokens (mi_Limits model)) 1024 ≤ max_node_tokens →
   validateOfferRequest r = Ok tt).
Proof.
  intros [[[] Hc Hb Hs Ht [Hn Hms] Hi Ho Htemp] ->]%ValidateChatCompletion_ok.
  assert (Hd : 0 < default_pos (MaxOutputTokens (mi_Limits model)) 1024) by by apply default_pos_pos.
  assert (Hp : 0 < cr_MaxTokens (admitted_request req model)) by by apply default_pos_pos.
  assert (Hiff : validateOfferRequest (admitted_request req model) = Ok tt ↔
                 cr_MaxTokens (admitted_request req model) ≤ max_node_tokens).
  { unfold validateOfferRequest. simpl cr_Stream. simpl cr_Messages.
    destruct (cc_Messages req) as [|m ms] eqn:E; [done|].
    rewrite (proj2 (Z.leb_gt _ _) Hp), agent_check_messages_ok by done. simpl orb.
    unfold admitted_request; simpl cr_MaxTokens.
    destruct (Z.ltb_spec max_node_tokens (default_pos (cc_MaxTokens req)
      (default_pos (MaxOutputTokens (mi_Limits model)) 1024)));
      (split; intros ?); first [discriminate|reflexivity|lia]. }
  split; [done|]. intros Hle. apply Hiff. etransitivity; [|exact Hle].
  by apply default_pos_le.
Qed.

(** ** Accepted usage *)

Lemma issue_when_reject b code msg sev i :
  i ∈ issue_when b code msg sev → is_reject i = true → b = true ∧ sev = SevReject.
Proof.
  unfold issue_when, is_reject. destruct b; [|by intros ?%not_elem_of_nil].
  intros ->%list_elem_of_singleton. simpl. by intros H%bool_decide_eq_true.
Qed.

Lemma find_reject_none l : List.find is_reject l = None ↔ Forall (λ i, is_reject i = false) l.
Proof.
  induction l as [|i l IH]; simpl; [split; [constructor|done]|].
  rewrite Forall_cons. destruct (is_reject i); [split; [done|by intros []]|]. naive_solver.
Qed.

Lemma issue_when_forall b code msg sev :
  Forall (λ i, is_reject i = false) (issue_when b code msg sev) ↔ b = false ∨ sev = SevFlag.
Proof.
  unfold issue_when, is_reject. destruct b; [|split; [by left|constructor]].
  rewrite Forall_singleton. simpl. destruct sev; simpl; naive_solver.
Qed.

Lemma metering_status_rejected st l :
  st ≠ MsRejected → (metering_status_from st l = MsRejected ↔ List.find is_reject l ≠ None).
Proof.
  revert st. induction l as [|i l IH]; intros st Hst; simpl; [naive_solver|].
  unfold is_reject at 1. destruct (is_Severity i) eqn:E; simpl; [done|].
  by apply IH.
Qed.

(** What the coordinator bills for: a visible answer of the assistant whose token
    counts are non-negative, add up, and stay within twice the request's output limit. *)
Record acceptable (request : ChatRequest) (payload : JobCompletedPayload) : Prop := {
  ac_message : ∃ m, jc_Message payload = Some m ∧ cm_Role m = "assistant" ∧ is_blank (cm_Content m) = false;
  ac_prompt : 0 ≤ PromptTokens (jc_Usage payload);
  ac_completion : 0 ≤ CompletionTokens (jc_Usage payload) ≤ 2 * default_pos (cr_MaxTokens request) 1024 + 16;
  ac_total : TotalTokens (jc_Usage payload) =
             PromptTokens (jc_Usage payload) + CompletionTokens (jc_Usage payload)
}.

Definition usage_int64 (u : Usage) : Prop :=
  in_int64 (PromptTokens u) ∧ in_int64 (CompletionTokens u) ∧ in_int64 (TotalTokens u).

(** A wrapped sum of two non-negative counts that comes out non-negative did not wrap. *)
Lemma wrapped_sum_exact a b t :
  in_int64 a → in_int64 b → 0 ≤ a → 0 ≤ b → 0 ≤ t → t = wrap64 (a + b) → t = a + b.
Proof.
  unfold in_int64. intros Ha Hb H1 H2 Ht ->.
  destruct (decide (a + b < 2 ^ 63)); [by apply wrap64_id; unfold in_int64; lia|].
  exfalso. unfold wrap64 in Ht. rewrite <-(Z_mod_plus_full _ (-1)), Z.mod_small in Ht; lia.
Qed.

Lemma plausible_acceptable request payload :
  usage_int64 (jc_Usage payload) → cr_MaxTokens request < 2 ^ 61 →
  (Forall (λ i, is_reject i = false) (PlausibilityIssues request payload) ↔
   acceptable request payload).
Proof.
  intros (Hp & Hc & Ht) Hmax. unfold PlausibilityIssues.
  destruct (jc_Message payload) as [m|] eqn:Em.
  2: { rewrite Forall_singleton. split; [done|]. by intros [(m & ? & _)]; congruence. }
  rewrite !Forall_app, !issue_when_forall.
  assert (Hlim : wrap64 (wrap64 (default_pos (cr_MaxTokens request) 1024 * 2) + 16) =
                 2 * default_pos (cr_MaxTokens request) 1024 + 16).
  { unfold default_pos. destruct (Z.leb_spec (cr_MaxTokens request) 0);
      rewrite !wrap64_id; unfold in_int64; rewrite ?wrap64_id; unfold in_int64; lia. }
  rewrite Hlim. split.
  - intros (Hr & Hb & Hn & Hs & _ & Ho & _).
    destruct Hr as [Hr|[=]], Hb as [Hb|[=]], Hn as [Hn|[=]], Hs as [Hs|[=]], Ho as [Ho|[=]].
    bool_hyps. split; [exists m; split_and!; try done|done|lia|by apply wrapped_sum_exact; auto].
  - intros [(m' & Hm' & Hr & Hb) H1 H2 H3]. simplify_eq.
    assert (Hw : wrap64 (PromptTokens (jc_Usage payload) + CompletionTokens (jc_Usage payload)) =
      TotalTokens (jc_Usage payload)) by (rewrite wrap64_id; rewrite <-H3; done).
    rewrite Hr, Hb, Hw, Z.eqb_refl. split_and!; try (by right); left; try done.
    + rewrite !(proj2 (Z.ltb_ge _ 0)) by lia. done.
    + apply Z.ltb_ge. lia.
Qed.

(** Accepted usage is sound: with counts in the range of Go's [int], a completion
    passes the acceptance check exactly when it carries a visible assistant message and
    non-negative token counts that truly add up (no wrap-around) and stay within twice
    the output limit; the metering status stored with the result is [rejected] exactly
    for the others. *)
Theorem accepted_usage_sound request payload :
  usage_int64 (jc_Usage payload) → cr_MaxTokens request < 2 ^ 61 →
  ((ValidateCompletionForAcceptance request payload).2 = None ↔ acceptable request payload) ∧
  ((ValidateCompletionForAcceptance request payload).2 = None ↔
   meteringStatus (ValidateCompletionForAcceptance request payload).1 ≠ MsRejected).
Proof.
  intros (Hp & Hc & Ht) Hmax. unfold ValidateCompletionForAcceptance.
  set (issues := PlausibilityIssues request payload).
  assert (Hfind : (match List.find is_reject issues with
    | Some issue => (issues, Some (ErrMsg (is_Message issue))) | None => (issues, None) end).2 = None ↔
    List.find is_reject issues = None) by by destruct (List.find is_reject issues).
  assert (H1 : (match List.find is_reject issues with
    | Some issue => (issues, Some (ErrMsg (is_Message issue))) | None => (issues, None) end).1 = issues)
    by by destruct (List.find is_reject issues).
  rewrite H1, !Hfind. split.
  - rewrite find_reject_none. apply plausible_acceptable; done.
  - unfold meteringStatus. rewrite metering_status_rejected by done.
    destruct (List.find is_reject issues); naive_solver.
Qed.

(** ** The limiter admits exactly the first calls of each minute *)

Section limiter.
Context (limit : Z) (limit_pos : 0 < limit).

(** A call by a key at a time, and whether it was let through. *)
Notation call := (string * Z)%type.

Definition limiter_step (st : RateLimiter * list (call * bool)) (c : call)
    : RateLimiter * list (call * bool) :=
  let '(ok, r) := Allow st.1 c.1 c.2 in (r, st.2 ++ [(c, ok)]).
Definition limiter_run (calls : list call) : RateLimiter * list (call * bool) :=
  foldl limiter_step ({| LimitPerMinute := limit; buckets := ∅ |}, []) calls.

Definition in_window (k : string) (w : Z) (c : call) : bool :=
  String.eqb c.1 k && (truncate_minute c.2 =? w).

(** Calls of key [k] in the minute starting at [w], made and let through. *)
Definition calls_in (k : string) (w : Z) (calls : list call) : Z :=
  sum_list (λ c, if in_window k w c then 1 else 0) calls.
Definition allowed_in (k : string) (w : Z) (log : list (call * bool)) : Z :=
  sum_list (λ e, if in_window k w e.1 && e.2 then 1 else 0) log.

Lemma truncate_mono a b : a ≤ b → truncate_minute a ≤ truncate_minute b.
Proof.
  unfold truncate_minute. intros. assert (0 < minute) by done.
  rewrite !(Z.mod_eq _ minute) by lia.
  assert (a / minute ≤ b / minute) by (apply Z.div_le_mono; lia). nia.
Qed.

Record limiter_inv (calls : list call) (st : RateLimiter * list (call * bool)) : Prop := {
  li_limit : LimitPerMinute st.1 = limit;
  li_allowed : ∀ k w, allowed_in k w st.2 = Z.min limit (calls_in k w calls);
  li_bucket : ∀ k b, buckets st.1 !! k = Some b →
    rb_count b = Z.min limit (calls_in k (windowStart b) calls) ∧
    (∀ c, c ∈ calls → c.1 = k → truncate_minute c.2 ≤ windowStart b) ∧
    ∃ c, c ∈ calls ∧ c.1 = k ∧ truncate_minute c.2 = windowStart b;
  li_none : ∀ k, buckets st.1 !! k = None → ∀ c, c ∈ calls → c.1 ≠ k
}.

Lemma calls_in_none k w calls :
  (∀ c, c ∈ calls → c.1 = k → truncate_minute c.2 < w) → calls_in k w calls = 0.
Proof.
  intros H. unfold calls_in. rewrite (sum_list_ext _ (λ _, 0)).
  { induction calls; rewrite ?sum_list_cons; [done|]. rewrite IHcalls; [done|]. set_solver. }
  intros c Hc. unfold in_window. destruct (String.eqb_spec c.1 k) as [Hk|]; [|done]. simpl.
  destruct (Z.eqb_spec (truncate_minute c.2) w); [|done]. specialize (H c Hc Hk). lia.
Qed.

Lemma calls_in_nonneg k w calls : 0 ≤ calls_in k w calls.
Proof. apply sum_list_nonneg. intros. case_match; lia. Qed.

(** The bucket a call is charged to: the current one or a fresh one. *)
Lemma current_bucket_count st calls k t :
  limiter_inv calls st → Forall (λ c, c.2 ≤ t) calls →
  let now := truncate_minute t in
  let bucket := default {| windowStart := zero_time; rb_count := 0 |} (buckets st.1 !! k) in
  let bucket := if windowStart bucket =? now then bucket else {| windowStart := now; rb_count := 0 |} in
  windowStart bucket = now ∧ rb_count bucket = Z.min limit (calls_in k now calls).
Proof.
  intros [Hl _ Hb Hn] Ht now. rewrite Forall_forall in Ht.
  assert (Hmin : calls_in k now calls = 0 → 0 = Z.min limit (calls_in k now calls)) by lia.
  destruct (buckets st.1 !! k) as [b|] eqn:E; cbv zeta; cbn [from_option id windowStart rb_count].
  - apply Hb in E as (Hc & Hmax & c0 & Hc0 & _ & Hw0).
    destruct (Z.eqb_spec (windowStart b) now) as [<-|Hne]; [done|].
    split; [done|]. apply Hmin, calls_in_none. intros c Hc' Hk.
    specialize (Hmax c Hc' Hk). pose proof (truncate_mono c0.2 t (Ht c0 Hc0)). lia.
  - assert (calls_in k now calls = 0).
    { apply calls_in_none. intros c Hc Hk. by destruct (Hn k E c Hc). }
    destruct (Z.eqb_spec zero_time now); (split; [done|]); simpl; lia.
Qed.

Lemma calls_in_snoc k w calls c :
  calls_in k w (calls ++ [c]) = calls_in k w calls + (if in_window k w c then 1 else 0).
Proof. unfold calls_in. rewrite sum_list_app, sum_list_cons, sum_list_nil. lia. Qed.
Lemma allowed_in_snoc k w log e :
  allowed_in k w (log ++ [e]) = allowed_in k w log + (if in_window k w e.1 && e.2 then 1 else 0).
Proof. unfold allowed_in. rewrite sum_list_app, sum_list_cons, sum_list_nil. lia. Qed.

Lemma in_window_true k w c : in_window k w c = true ↔ c.1 = k ∧ truncate_minute c.2 = w.
Proof. unfold in_window. by rewrite andb_true_iff, String.eqb_eq, Z.eqb_eq. Qed.

Lemma Allow_eq st calls k t :
  limiter_inv calls st → Forall (λ c, c.2 ≤ t) calls →
  let n := calls_in k (truncate_minute t) calls in
  (Allow st.1 k t).1 = (n <? limit) ∧
  (Allow st.1 k t).2 = st.1 <| buckets :=
    <[k := {| windowStart := truncate_minute t; rb_count := Z.min limit (n + 1) |}]> (buckets st.1) |>.
Proof.
  intros Hinv Ht n. destruct (current_bucket_count st calls k t Hinv Ht) as [Hw Hc].
  destruct Hinv as [Hl _ _ _]. unfold Allow. rewrite Hl, (proj2 (Z.leb_gt _ _) limit_pos).
  cbv zeta in Hw, Hc |- *. set (b := if _ =? _ then _ else _) in *. fold n in Hc. rewrite Hc.
  destruct (Z.ltb_spec n limit).
  - rewrite (proj2 (Z.leb_gt _ _)) by lia. simpl.
    by replace (Z.min limit n + 1) with (Z.min limit (n + 1)) by lia.
  - rewrite (proj2 (Z.leb_le _ _)) by lia. simpl. destruct b as [w c]; simpl in *.
    by replace (Z.min limit (n + 1)) with c by lia; rewrite Hw.
Qed.

Lemma limiter_inv_step calls st c :
  limiter_inv calls st → Forall (λ c', c'.2 ≤ c.2) calls →
  limiter_inv (calls ++ [c]) (limiter_step st c).
Proof.
  intros Hinv Ht. destruct (Allow_eq st calls c.1 c.2 Hinv Ht) as [Hok Hr].
  unfold limiter_step. destruct (Allow st.1 c.1 c.2) as [ok r]; simpl in Hok, Hr; subst ok r.
  destruct Hinv as [Hl Ha Hb Hn]. rewrite Forall_forall in Ht.
  set (w0 := truncate_minute c.2) in *. split; simpl.
  - done.
  - intros k w. rewrite allowed_in_snoc, calls_in_snoc, Ha. simpl.
    pose proof (calls_in_nonneg k w calls).
    destruct (in_window k w c) eqn:E; simpl; [|lia]. apply in_window_true in E as [<- <-].
    fold w0. destruct (Z.ltb_spec (calls_in c.1 w0 calls) limit); lia.
  - intros k b. destruct (decide (c.1 = k)) as [<-|Hk].
    + rewrite lookup_insert_eq. intros [= <-]. simpl. split_and!.
      * rewrite calls_in_snoc, (proj2 (in_window_true _ _ _)) by done. done.
      * intros c' [Hc'| ->%list_elem_of_singleton]%elem_of_app _; [|done]. by apply truncate_mono, Ht.
      * exists c. split; [set_solver|done].
    + rewrite lookup_insert_ne by done. intros (H1 & H2 & c0 & H3)%Hb. split_and!.
      * rewrite calls_in_snoc. destruct (in_window k _ c) eqn:E; [|by rewrite Z.add_0_r].
        by apply in_window_true in E as [? _].
      * intros c' [Hc'| ->%list_elem_of_singleton]%elem_of_app ?; [by apply H2|done].
      * exists c0. set_solver.
  - intros k. destruct (decide (c.1 = k)) as [<-|Hk]; [by rewrite lookup_insert_eq|].
    rewrite lookup_insert_ne by done. intros H c'.
    intros [Hc'| ->%list_elem_of_singleton]%elem_of_app; [by apply Hn|done].
Qed.

Lemma limiter_run_inv calls :
  StronglySorted (λ a b, a.2 ≤ b.2) calls → limiter_inv calls (limiter_run calls).
Proof.
  induction calls as [|c calls IH] using rev_ind; intros Hs.
  { split; simpl; try done.
    - intros k w. unfold allowed_in, calls_in. simpl. lia.
    - intros k _ c Hc. by apply not_elem_of_nil in Hc. }
  unfold limiter_run. rewrite foldl_app. simpl.
  apply StronglySorted_app in Hs as (Hall & Hs & _).
  apply limiter_inv_step; [by apply IH|]. apply Forall_forall. intros c' Hc'.
  apply (Hall c' c); [done|constructor].
Qed.
End limiter.

(** C27. Rate limiting is exact: whatever calls the keys make, in time order, the calls
    let through for a key in a calendar minute are the first [limit] it made in that
    minute (all of them when it made fewer), independently of every other key. *)
Theorem rate_limiter_exact limit calls k w :
  0 < limit → StronglySorted (λ a b, a.2 ≤ b.2) calls →
  allowed_in k w (limiter_run limit calls).2 = Z.min limit (calls_in k w calls).
Proof. intros Hl Hs. apply (li_allowed _ _ _ (limiter_run_inv limit Hl calls Hs)). Qed.

(** ** Witnesses *)

Definition sample_model : ModelInfo := {|
  mi_ID := "m"; mi_DisplayName := "M"; mi_Capabilities := ["chat_completions"];
  mi_Pricing := {| CustomerInputPerMillionMicrodollars := 100000;
                   CustomerOutputPerMillionMicrodollars := 200000;
                   HostCreditPerMillionAcceptedOutputMicrodollars := 120000 |};
  mi_DataClass := "public_or_non_sensitive"; mi_AvailableNodes := 1; mi_Version := "v1";
  mi_Limits := {| MaxInputTokens := 4096; MaxOutputTokens := 512; MaxRequestBytes := 0 |};
  mi_Verification := {| PriceVersion := "alpha"; DuplicateSampleRate := float_of_Z 0;
                        ChallengeRate := float_of_Z 0 |};
  mi_ModelHash := "sha256:m"; mi_RuntimeHash := ""
|}.
Definition sample_chat : ChatCompletionRequest := {|
  cc_Model := "m"; cc_Messages := [{| cm_Role := "user"; cm_Content := "hello there" |}];
  cc_Temperature := Some (float_of_Z 1); cc_MaxTokens := 0; cc_Stream := false;
  cc_Tools := "null"; cc_ToolChoice := ""
|}.

Lemma admitted_request_served_witness :
  validateOfferRequest (admitted_request sample_chat sample_model) = Ok tt.
Proof.
  apply (admitted_request_served sample_chat sample_model 80).
  - vm_compute. reflexivity.
  - vm_compute. discriminate.
Defined.

Definition sample_completion (total : Z) : JobCompletedPayload := {|
  jc_JobID := "job_1"; jc_AttemptID := "att_1"; jc_ModelID := "m"; jc_RuntimeHash := "sha256:r";
  jc_ModelHash := "sha256:m"; jc_Message := Some {| cm_Role := "assistant"; cm_Content := "hi" |};
  jc_Usage := {| PromptTokens := 3; CompletionTokens := 1; TotalTokens := total |};
  jc_DurationMillis := 500; jc_FinishReason := "stop"; jc_CompletedAt := 0; jc_Signature := None
|}.

Lemma accepted_usage_sound_witness :
  acceptable (admitted_request sample_chat sample_model) (sample_completion 4) ∧
  ¬ acceptable (admitted_request sample_chat sample_model) (sample_completion 5).
Proof.
  assert (H : ∀ t, 0 ≤ t < 10 → usage_int64 (jc_Usage (sample_completion t))).
  { intros t Ht. unfold usage_int64, in_int64. simpl. lia. }
  split.
  - apply (accepted_usage_sound (admitted_request sample_chat sample_model) (sample_completion 4));
      [by apply H|reflexivity|vm_compute; reflexivity].
  - intros Hacc. apply (accepted_usage_sound (admitted_request sample_chat sample_model)
      (sample_completion 5)) in Hacc; [|by apply H|reflexivity].
    vm_compute in Hacc. discriminate Hacc.
Defined.

Lemma rate_limiter_exact_witness :
  allowed_in "a" 0 (limiter_run 2 [("a", 1); ("b", 2); ("a", 3); ("a", 4); ("a", minute)]).2 = 2.
Proof.
  rewrite (rate_limiter_exact 2); [vm_compute; reflexivity|reflexivity|].
  repeat constructor; vm_compute; discriminate.
Defined.
