(* ===== verification/Sha256.v ===== *)
(** * SHA-256

    [crypto/sha256] and [encoding/hex] of Go's standard library (FIPS 180-4), which
    the program uses for token, API key and request hashes, CSV checksums and
    sampling: 32-bit words as [Z] with the wrap-around written out. *)
From stdpp Require Import base list strings.
From Stdlib Require Import ZArith Lia Ascii.
From S2P Require Import Prelude GoStrings.

Definition wrap32 (z : Z) : Z := z mod 2 ^ 32.
Definition add32 (a b : Z) : Z := wrap32 (a + b).
Definition rotr (n x : Z) : Z := Z.lor (Z.shiftr x n) (wrap32 (Z.shiftl x (32 - n))).

(** The constants of FIPS 180-4: the first 32 bits of the fractional parts of the
    square roots of the first eight primes and of the cube roots of the first 64. *)
Definition small_primes : list Z :=
  let composite n := existsb (λ d, n mod Z.of_nat d =? 0) (seq 2 16) in
  filter (λ n, n < 18 ∨ composite n = false)
    ((Z.of_nat <$> [2; 3; 5; 7; 11; 13]%nat) ++ (Z.of_nat <$> seq 17 295)).

(** Integer cube root, one bit at a time from bit [n - 1] down. *)
Fixpoint cbrt_bits (n : nat) (r x : Z) : Z :=
  match n with
  | O => r
  | S n' => let r' := r + 2 ^ Z.of_nat n' in cbrt_bits n' (if r' ^ 3 <=? x then r' else r) x
  end.

Definition sha_K : list Z := Eval vm_compute in
  (λ p, wrap32 (cbrt_bits 40 0 (p * 2 ^ 96))) <$> small_primes.
Definition sha_H0 : list Z := Eval vm_compute in
  (λ p, wrap32 (Z.sqrt (p * 2 ^ 64))) <$> take 8 small_primes.

Definition sigma0 (x : Z) : Z := Z.lxor (Z.lxor (rotr 7 x) (rotr 18 x)) (Z.shiftr x 3).
Definition sigma1 (x : Z) : Z := Z.lxor (Z.lxor (rotr 17 x) (rotr 19 x)) (Z.shiftr x 10).
Definition Sigma0 (x : Z) : Z := Z.lxor (Z.lxor (rotr 2 x) (rotr 13 x)) (rotr 22 x).
Definition Sigma1 (x : Z) : Z := Z.lxor (Z.lxor (rotr 6 x) (rotr 11 x)) (rotr 25 x).
Definition Ch (x y z : Z) : Z := Z.lxor (Z.land x y) (Z.land (Z.lxor x (2 ^ 32 - 1)) z).
Definition Maj (x y z : Z) : Z := Z.lxor (Z.lxor (Z.land x y) (Z.land x z)) (Z.land y z).

(** Big-endian words of a list of bytes. *)
Fixpoint words (l : list Z) : list Z :=
  match l with
  | a :: b :: c :: d :: l' => (((a * 256 + b) * 256 + c) * 256 + d) :: words l'
  | _ => []
  end.
Definition word_bytes (w : Z) : list Z :=
  [Z.shiftr w 24; Z.shiftr w 16 mod 256; Z.shiftr w 8 mod 256; w mod 256].

(** The message followed by 0x80, zeros up to 56 modulo 64, and its bit length. *)
Definition sha_pad (l : list Z) : list Z :=
  let n := Z.of_nat (length l) in
  let bits := 8 * n in
  l ++ [128] ++ replicate (Z.to_nat ((55 - n) mod 64)) 0 ++
  word_bytes (wrap32 (Z.shiftr bits 32)) ++ word_bytes (wrap32 bits).

(** The message schedule, kept as its last 16 words, newest first. *)
Fixpoint schedule (n : nat) (rw : list Z) : list Z :=
  match n with
  | O => rw
  | S n' =>
      let w := add32 (add32 (sigma1 (nth 1 rw 0)) (nth 6 rw 0))
                     (add32 (sigma0 (nth 14 rw 0)) (nth 15 rw 0)) in
      schedule n' (w :: rw)
  end.

Definition sha_round (st : list Z) (kw : Z * Z) : list Z :=
  match st with
  | [a; b; c; d; e; f; g; h] =>
      let t1 := add32 (add32 h (Sigma1 e)) (add32 (Ch e f g) (add32 kw.1 kw.2)) in
      let t2 := add32 (Sigma0 a) (Maj a b c) in
      [add32 t1 t2; a; b; c; add32 d t1; e; f; g]
  | _ => st
  end.

Definition sha_block (h : list Z) (ws : list Z) : list Z :=
  let w := rev (schedule 48 (rev ws)) in
  zip_with add32 h (foldl sha_round h (zip sha_K w)).

Fixpoint sha_blocks (fuel : nat) (h : list Z) (ws : list Z) : list Z :=
  match fuel with
  | O => h
  | S fuel' =>
      match ws with
      | [] => h
      | _ => sha_blocks fuel' (sha_block h (take 16 ws)) (drop 16 ws)
      end
  end.

(** [sha256.Sum256]: one block of fuel per 16 words, which is every block. *)
Definition sum256 (l : list Z) : list Z :=
  let ws := words (sha_pad l) in
  mjoin (word_bytes <$> sha_blocks (length ws) sha_H0 ws).

Definition hex_digit (d : Z) : ascii :=
  Ascii.ascii_of_N (Z.to_N (if d <? 10 then 48 + d else 87 + d)).

(** [hex.EncodeToString]. *)
Definition hex_encode (l : list Z) : string :=
  of_bytes (mjoin ((λ b, [hex_digit (b / 16); hex_digit (b mod 16)]) <$> l)).

Definition string_bytes (s : string) : list Z := byte_of <$> bytes s.

(** ["sha256:" + hex(sha256(s))], the form every stored hash has. *)
Definition sha256_string (s : string) : string := "sha256:" +:+ hex_encode (sum256 (string_bytes s)).

(** The vectors of FIPS 180-4 for the empty message and a one-block message. *)
Example sum256_empty : sha256_string "" =
  "sha256:e3b0c44298fc1c149afbf4c8996fb92427ae41e4649b934ca495991b7852b855".
Proof. vm_compute. reflexivity. Qed.
Example sum256_abc : sha256_string "abc" =
  "sha256:ba7816bf8f01cfea414140de5dae2223b00361a396177a9cb410ff61f20015ad".
Proof. vm_compute. reflexivity. Qed.
