(* ===== verification/Encoding.v ===== *)
(** * Encodings

    [encoding/base64] (the padded standard alphabet and the unpadded URL alphabet,
    not strict about trailing bits, as [StdEncoding] and [RawURLEncoding] are) and
    [crypto/hmac] over SHA-256, on lists of bytes as the other hash functions. *)
From stdpp Require Import base list strings.
From Stdlib Require Import ZArith Lia Ascii.
From S2P Require Import Prelude GoStrings Sha256.

Definition char_of (b : Z) : ascii := Ascii.ascii_of_N (Z.to_N b).

(** [[]byte] as a Go string. *)
Definition bytes_string (l : list Z) : string := of_bytes (char_of <$> l).

Definition is_byte (b : Z) : Prop := 0 ≤ b < 256.

Lemma byte_of_char b : is_byte b → byte_of (char_of b) = b.
Proof.
  intros [? ?]. unfold byte_of, char_of. rewrite N_ascii_embedding; lia.
Qed.

Lemma string_bytes_string l : Forall is_byte l → string_bytes (bytes_string l) = l.
Proof.
  intros Hl. unfold string_bytes, bytes_string. rewrite bytes_of_bytes.
  induction Hl as [|b l Hb _ IH]; [done|]. rewrite !fmap_cons, byte_of_char by done. by rewrite IH.
Qed.

(** ** Base64 *)

Inductive Alphabet := Std | URL.

Definition enc_char (al : Alphabet) (n : Z) : ascii :=
  char_of (
    if n <? 26 then 65 + n
    else if n <? 52 then 97 + (n - 26)
    else if n <? 62 then 48 + (n - 52)
    else match al with
         | Std => if n =? 62 then 43 else 47
         | URL => if n =? 62 then 45 else 95
         end).

Definition dec_char (al : Alphabet) (c : ascii) : option Z :=
  let b := byte_of c in
  if between 65 90 b then Some (b - 65)
  else if between 97 122 b then Some (b - 97 + 26)
  else if between 48 57 b then Some (b - 48 + 52)
  else match al with
       | Std => if b =? 43 then Some 62 else if b =? 47 then Some 63 else None
       | URL => if b =? 45 then Some 62 else if b =? 95 then Some 63 else None
       end.

Definition pad_char : ascii := char_of 61.

(** Padding characters of an encoding: [Std] pads, [URL] is the raw form. *)
Definition padding (al : Alphabet) (n : nat) : list ascii :=
  match al with Std => replicate n pad_char | URL => [] end.

Fixpoint b64_encode (al : Alphabet) (l : list Z) : list ascii :=
  match l with
  | [] => []
  | [a] => [enc_char al (a / 4); enc_char al (a mod 4 * 16)] ++ padding al 2
  | [a; b] => [enc_char al (a / 4); enc_char al (a mod 4 * 16 + b / 16); enc_char al (b mod 16 * 4)]
              ++ padding al 1
  | a :: b :: c :: l' =>
      enc_char al (a / 4) :: enc_char al (a mod 4 * 16 + b / 16) ::
      enc_char al (b mod 16 * 4 + c / 64) :: enc_char al (c mod 64) :: b64_encode al l'
  end.

(** [EncodeToString]. *)
Definition EncodeToString (al : Alphabet) (l : list Z) : string := of_bytes (b64_encode al l).

Definition err_base64 : gerror := ErrMsg "illegal base64 data".

(** A final quantum of two or three characters. *)
Definition dec_last (al : Alphabet) (c0 c1 : ascii) (c2 : option ascii) : result (list Z) :=
  match dec_char al c0, dec_char al c1, c2 with
  | Some a, Some b, None => Ok [a * 4 + b / 16]
  | Some a, Some b, Some c2 =>
      match dec_char al c2 with
      | Some c => Ok [a * 4 + b / 16; b mod 16 * 16 + c / 4]
      | None => Err err_base64
      end
  | _, _, _ => Err err_base64
  end.

Fixpoint b64_decode (al : Alphabet) (l : list ascii) : result (list Z) :=
  match l with
  | [] => Ok []
  | c0 :: c1 :: c2 :: c3 :: l' =>
      match dec_char al c0, dec_char al c1, dec_char al c2, dec_char al c3 with
      | Some a, Some b, Some c, Some d =>
          match b64_decode al l' with
          | Ok rest => Ok (a * 4 + b / 16 :: b mod 16 * 16 + c / 4 :: c mod 4 * 64 + d :: rest)
          | Err e => Err e
          end
      | _, _, _, _ =>
          match al, l' with
          | Std, [] =>
              if bool_decide (c3 = pad_char)
              then if bool_decide (c2 = pad_char) then dec_last al c0 c1 None else dec_last al c0 c1 (Some c2)
              else Err err_base64
          | _, _ => Err err_base64
          end
      end
  | [c0; c1; c2] => match al with URL => dec_last al c0 c1 (Some c2) | Std => Err err_base64 end
  | [c0; c1] => match al with URL => dec_last al c0 c1 None | Std => Err err_base64 end
  | [_] => Err err_base64
  end.

(** Carriage returns and newlines are skipped. *)
Definition not_newline (c : ascii) : bool := negb (bool_decide (byte_of c ∈ [10; 13])).

Definition DecodeString (al : Alphabet) (s : string) : result (list Z) :=
  b64_decode al (filter (λ c, not_newline c = true) (bytes s)).

(** ** Decoding inverts encoding *)

Lemma filter_all {A} (P : A → Prop) `{!∀ x, Decision (P x)} l : Forall P l → filter P l = l.
Proof. induction 1 as [|x l Hx _ IH]; [done|]. by rewrite filter_cons_True, IH. Qed.

(** The characters of an encoding: printable ASCII, and no dot. *)
Definition b64_char (c : ascii) : Prop :=
  not_newline c = true ∧ c ≠ "."%char ∧ byte_of c < 0x80 ∧ is_space (byte_of c) = false.

Lemma enc_char_spec al n :
  0 ≤ n < 64 →
  dec_char al (enc_char al n) = Some n ∧ b64_char (enc_char al n) ∧ enc_char al n ≠ pad_char.
Proof.
  intros Hn.
  assert (Hall : Forall (λ n, dec_char al (enc_char al n) = Some n ∧ b64_char (enc_char al n) ∧
                              enc_char al n ≠ pad_char) (Z.of_nat <$> seq 0 64)).
  { unfold b64_char. destruct al; apply (bool_decide_unpack _); vm_compute; exact I. }
  rewrite Forall_forall in Hall. apply Hall, list_elem_of_fmap. exists (Z.to_nat n).
  rewrite elem_of_seq. lia.
Qed.

Lemma dec_enc_char al n : 0 ≤ n < 64 → dec_char al (enc_char al n) = Some n.
Proof. apply enc_char_spec. Qed.

Ltac sextet := try (match goal with |- _ ∧ _ => split end); Z.to_euclidean_division_equations; lia.

(** Induction in steps of three bytes. *)
Lemma triple_ind (P : list Z → Prop) :
  P [] → (∀ a, P [a]) → (∀ a b, P [a; b]) → (∀ a b c l, P l → P (a :: b :: c :: l)) → ∀ l, P l.
Proof.
  intros H0 H1 H2 H3. fix IH 1. intros [|a [|b [|c l]]]; [done|done|done|]. apply H3, IH.
Qed.

Lemma byte_sextets a b c :
  is_byte a → is_byte b → is_byte c →
  0 ≤ a / 4 < 64 ∧ 0 ≤ a mod 4 * 16 < 64 ∧ 0 ≤ a mod 4 * 16 + b / 16 < 64 ∧
  0 ≤ b mod 16 * 4 < 64 ∧ 0 ≤ b mod 16 * 4 + c / 64 < 64 ∧ 0 ≤ c mod 64 < 64.
Proof. unfold is_byte. intros. repeat split; Z.to_euclidean_division_equations; lia. Qed.

Lemma byte_rebuild a b c :
  is_byte a → is_byte b → is_byte c →
  a / 4 * 4 + (a mod 4 * 16) / 16 = a ∧ a / 4 * 4 + (a mod 4 * 16 + b / 16) / 16 = a ∧
  (a mod 4 * 16 + b / 16) mod 16 * 16 + (b mod 16 * 4) / 4 = b ∧
  (a mod 4 * 16 + b / 16) mod 16 * 16 + (b mod 16 * 4 + c / 64) / 4 = b ∧
  (b mod 16 * 4 + c / 64) mod 4 * 64 + c mod 64 = c.
Proof. unfold is_byte. intros. repeat split; Z.to_euclidean_division_equations; lia. Qed.

Lemma dec_pad al : dec_char al pad_char = None.
Proof. by destruct al. Qed.

Lemma b64_decode_encode al l : Forall is_byte l → b64_decode al (b64_encode al l) = Ok l.
Proof.
  assert (H0 : is_byte 0) by (unfold is_byte; lia).
  induction l as [|a|a b|a b c l IH] using triple_ind; intros Hl; [done|..].
  - inversion_clear Hl as [|?? Ha _].
    destruct (byte_sextets a 0 0) as (? & ? & _); [done..|].
    destruct (byte_rebuild a 0 0) as (E & _); [done..|].
    destruct al; unfold b64_encode, padding; simpl app;
      [change (replicate 2 pad_char) with [pad_char; pad_char]|]; simpl app; unfold b64_decode, dec_last;
      rewrite ?dec_pad, !dec_enc_char by done; rewrite E; [|done]. by rewrite !bool_decide_true by done.
  - inversion_clear Hl as [|?? Ha Hl']. inversion_clear Hl' as [|?? Hb _].
    destruct (byte_sextets a b 0) as (? & _ & ? & ? & _); [done..|].
    destruct (byte_rebuild a b 0) as (_ & E1 & E2 & _); [done..|].
    destruct al; unfold b64_encode, padding; simpl app;
      [change (replicate 1 pad_char) with [pad_char]|]; simpl app; unfold b64_decode, dec_last;
      rewrite ?dec_pad, !dec_enc_char by done; rewrite E1, E2; [|done].
    rewrite bool_decide_true by done. rewrite bool_decide_false; [done|]. by apply enc_char_spec.
  - inversion_clear Hl as [|?? Ha Hl']. inversion_clear Hl' as [|?? Hb Hl2]. inversion_clear Hl2 as [|?? Hc Hl3].
    destruct (byte_sextets a b c) as (? & _ & ? & _ & ? & ?); [done..|].
    destruct (byte_rebuild a b c) as (_ & E1 & _ & E2 & E3); [done..|].
    simpl. rewrite !dec_enc_char by done. rewrite IH by done. by rewrite E1, E2, E3.
Qed.

Lemma b64_chars al l :
  Forall is_byte l →
  Forall b64_char (b64_encode al l).
Proof.
  assert (H0 : is_byte 0) by (unfold is_byte; lia).
  assert (Hc : ∀ n, 0 ≤ n < 64 → b64_char (enc_char al n)) by (intros n Hn; apply (enc_char_spec al n Hn)).
  assert (Hp : ∀ n, Forall b64_char (padding al n)).
  { intros n. destruct al; [|constructor]. apply Forall_replicate. by vm_compute. }
  induction l as [|a|a b|a b c l IH] using triple_ind; intros Hl; [constructor|..];
    repeat match goal with H : Forall is_byte (_ :: _) |- _ => inversion_clear H end.
  - destruct (byte_sextets a 0 0) as (? & ? & _); [done..|].
    simpl. apply Forall_cons; split; [auto|]. apply Forall_cons; split; [auto|]. apply (Hp 2%nat).
  - destruct (byte_sextets a b 0) as (? & _ & ? & ? & _); [done..|].
    simpl. do 3 (apply Forall_cons; split; [auto|]). apply (Hp 1%nat).
  - destruct (byte_sextets a b c) as (? & _ & ? & _ & ? & ?); [done..|].
    simpl. do 4 (apply Forall_cons; split; [auto|]). auto.
Qed.

Lemma DecodeString_EncodeToString al l :
  Forall is_byte l → DecodeString al (EncodeToString al l) = Ok l.
Proof.
  intros Hl. unfold DecodeString, EncodeToString. rewrite bytes_of_bytes.
  rewrite filter_all; [by apply b64_decode_encode|].
  eapply Forall_impl; [by apply (b64_chars al l)|]. by intros c [? _].
Qed.

Lemma EncodeToString_nonempty al l : l ≠ [] → EncodeToString al l ≠ "".
Proof. by destruct l as [|a [|b [|c l]]]. Qed.

(** ** HMAC-SHA256 *)

Definition hmac_block : nat := 64.

(** [hmac.New(sha256.New, key)], [Write(msg)], [Sum(nil)]. *)
Definition hmac_sha256 (key msg : list Z) : list Z :=
  let key := if (hmac_block <? length key)%nat then sum256 key else key in
  let key := key ++ replicate (hmac_block - length key) 0 in
  let ipad := Z.lxor 0x36 <$> key in
  let opad := Z.lxor 0x5c <$> key in
  sum256 (opad ++ sum256 (ipad ++ msg)).

(** RFC 4231, test case 2. *)
Example hmac_rfc4231 :
  hex_encode (hmac_sha256 (string_bytes "Jefe") (string_bytes "what do ya want for nothing?")) =
  "5bdcc146bf60754e6a042426089575c75a003f089d2739839dec58b964ec3843".
Proof. vm_compute. reflexivity. Qed.

(** Hashes are bytes. *)

Definition is_word (w : Z) : Prop := 0 ≤ w < 2 ^ 32.

Lemma add32_word a b : is_word (add32 a b).
Proof. apply Z.mod_pos_bound. lia. Qed.

Lemma word_bytes_bytes w : is_word w → Forall is_byte (word_bytes w).
Proof.
  intros [? ?]. unfold word_bytes.
  repeat (apply Forall_cons; split); [..|constructor]; unfold is_byte;
    rewrite ?Z.shiftr_div_pow2 by lia; try (apply Z.mod_pos_bound; lia).
  split; [apply Z.div_pos; lia|]. apply Z.div_lt_upper_bound; lia.
Qed.

Lemma zip_add32_words l k : Forall is_word (zip_with add32 l k).
Proof. revert k. induction l as [|x l IH]; intros [|y k]; simpl; auto using add32_word. Qed.

Lemma sha_blocks_words n h ws : Forall is_word h → Forall is_word (sha_blocks n h ws).
Proof.
  revert h ws. induction n as [|n IH]; intros h ws Hh; simpl; [done|].
  destruct ws; [done|]. apply IH, zip_add32_words.
Qed.

Lemma sum256_bytes l : Forall is_byte (sum256 l).
Proof.
  unfold sum256. set (ws := words (sha_pad l)).
  assert (Hh : Forall is_word sha_H0).
  { apply (bool_decide_unpack _). vm_compute. exact I. }
  pose proof (sha_blocks_words (length ws) sha_H0 ws Hh) as Hw. revert Hw.
  generalize (sha_blocks (length ws) sha_H0 ws). intros k Hk.
  induction Hk as [|w k Hw _ IH]; [constructor|].
  change (Forall is_byte (word_bytes w ++ mjoin (word_bytes <$> k))). apply Forall_app. split; [by apply word_bytes_bytes|done].
Qed.

Lemma length_sha_blocks n h ws : length h = 8%nat → length (sha_blocks n h ws) = 8%nat.
Proof.
  assert (Hround : ∀ kws st, length st = 8%nat → length (foldl sha_round st kws) = 8%nat).
  { intros kws. induction kws as [|kw kws IH]; intros st Hst; simpl; [done|]. apply IH.
    do 9 (destruct st as [|? st]; [done|]). done. }
  revert h ws. induction n as [|n IH]; intros h ws Hh; simpl; [done|].
  destruct ws; [done|]. apply IH. unfold sha_block. rewrite length_zip_with, Hround by done. lia.
Qed.

Lemma length_sum256 l : length (sum256 l) = 32%nat.
Proof.
  unfold sum256. set (ws := words (sha_pad l)).
  pose proof (length_sha_blocks (length ws) sha_H0 ws eq_refl) as Hl. revert Hl.
  generalize (sha_blocks (length ws) sha_H0 ws). intros k.
  do 9 (destruct k as [|? k]; try done).
Qed.
