(* ===== verification/NodeAuth.v ===== *)
(** * Signatures and access tokens

    [internal/shared/nodeauth] (signed job completions and token refreshes) and
    [internal/coordinator/auth/tokens.go] (the access tokens of nodes). Ed25519,
    JSON and RFC 3339 are parameters of the sections; what the theorems use of them
    is a named hypothesis: a signature made with a key verifies with its public
    half, and decoding undoes encoding. *)
From stdpp Require Import base gmap strings list pretty.
From Stdlib Require Import ZArith Lia Ascii.
From S2P Require Import Prelude GoStrings Float64 Sha256 Encoding NodeState Schedule Protocol Agent.

Definition PrivateKeySize : Z := 64.
Definition PublicKeySize : Z := 32.
Definition SignatureSize : Z := 64.

Definition err_key_size (which : string) (n want : Z) : gerror :=
  ErrMsg (which +:+ " key has " +:+ itoa n +:+ " bytes, want " +:+ itoa want).

Definition blen (l : list Z) : Z := Z.of_nat (length l).

(** ** Signed job completions and token refreshes *)

Record RefreshRequest := { rr_NodeID : string; rr_Timestamp : string; rr_Signature : string }.

Definition newline : string := of_bytes [char_of 10].

(** The bytes signed for a token refresh. *)
Definition refreshMessage (nodeID timestamp : string) : list Z :=
  string_bytes ("thirdshift.node.token.refresh" +:+ newline +:+ nodeID +:+ newline +:+ timestamp +:+
                newline +:+ itoa (Z.of_nat (String.length nodeID))).

Section nodeauth.
Context (ed25519_Sign : list Z → list Z → list Z).
Context (ed25519_Verify : list Z → list Z → list Z → bool).
Context (json_Marshal : JobCompletedPayload → result (list Z)).
Context (format_rfc3339 : Z → string) (parse_rfc3339 : string → result Z).

Definition SignJobCompleted (privateKey : list Z) (keyID : string) (payload : JobCompletedPayload)
    (signedAt : Z) : result NodeSignature :=
  if negb (blen privateKey =? PrivateKeySize)
  then Err (err_key_size "private" (blen privateKey) PrivateKeySize)
  else match json_Marshal (payload <| jc_Signature := None |>) with
  | Err e => Err (ErrWrap "marshal job completion payload for signing" e)
  | Ok body =>
      Ok {| ns_KeyID := keyID; ns_Algorithm := "ed25519";
            ns_Value := EncodeToString Std (ed25519_Sign privateKey body); ns_SignedAt := signedAt |}
  end.

Definition VerifyJobCompleted (publicKey : list Z) (payload : JobCompletedPayload) : result unit :=
  if negb (blen publicKey =? PublicKeySize)
  then Err (err_key_size "public" (blen publicKey) PublicKeySize)
  else match jc_Signature payload with
  | None => Err (ErrMsg "job completion signature is required")
  | Some s =>
      if negb (String.eqb (ns_Algorithm s) "ed25519")
      then Err (ErrMsg ("unsupported job completion signature algorithm " +:+ ns_Algorithm s))
      else match DecodeString Std (ns_Value s) with
      | Err e => Err (ErrWrap "decode job completion signature" e)
      | Ok signature =>
          match json_Marshal (payload <| jc_Signature := None |>) with
          | Err e => Err (ErrWrap "marshal job completion payload for verification" e)
          | Ok body =>
              if ed25519_Verify publicKey body signature then Ok tt
              else Err (ErrMsg "job completion signature verification failed")
          end
      end
  end.

Definition SignRefresh (privateKey : list Z) (nodeID : string) (timestamp : Z) : result RefreshRequest :=
  if negb (blen privateKey =? PrivateKeySize)
  then Err (err_key_size "private" (blen privateKey) PrivateKeySize)
  else if String.eqb nodeID "" then Err (ErrMsg "node_id is required")
  else
    let ts := format_rfc3339 timestamp in
    Ok {| rr_NodeID := nodeID; rr_Timestamp := ts;
          rr_Signature := EncodeToString Std (ed25519_Sign privateKey (refreshMessage nodeID ts)) |}.

Definition VerifyRefresh (publicKey : list Z) (req : RefreshRequest) (now maxSkew : Z) : result unit :=
  if negb (blen publicKey =? PublicKeySize)
  then Err (err_key_size "public" (blen publicKey) PublicKeySize)
  else if String.eqb (rr_NodeID req) "" || String.eqb (rr_Timestamp req) "" || String.eqb (rr_Signature req) ""
  then Err (ErrMsg "refresh request is incomplete")
  else match parse_rfc3339 (rr_Timestamp req) with
  | Err e => Err (ErrWrap "parse refresh timestamp" e)
  | Ok timestamp =>
      let maxSkew := default_pos maxSkew (5 * minute) in
      if (now + maxSkew <? timestamp) || (timestamp <? now - maxSkew)
      then Err (ErrMsg "refresh timestamp outside allowed clock skew")
      else match DecodeString Std (rr_Signature req) with
      | Err e => Err (ErrWrap "decode refresh signature" e)
      | Ok signature =>
          if ed25519_Verify publicKey (refreshMessage (rr_NodeID req) (rr_Timestamp req)) signature then Ok tt
          else Err (ErrMsg "refresh signature verification failed")
      end
  end.

(** What is documented of the standard library. *)
Record ed25519_pair (privateKey publicKey : list Z) : Prop := {
  kp_private : blen privateKey = PrivateKeySize;
  kp_public : blen publicKey = PublicKeySize;
  kp_size body : blen (ed25519_Sign privateKey body) = SignatureSize;
  kp_bytes body : Forall is_byte (ed25519_Sign privateKey body);
  kp_verifies body : ed25519_Verify publicKey body (ed25519_Sign privateKey body) = true
}.

Lemma signed_verifies priv pub keyID payload now s :
  ed25519_pair priv pub →
  SignJobCompleted priv keyID payload now = Ok s →
  VerifyJobCompleted pub (payload <| jc_Signature := Some s |>) = Ok tt.
Proof.
  intros [Hpriv Hpub Hsz Hb Hv]. unfold SignJobCompleted, VerifyJobCompleted.
  rewrite Hpriv, Hpub, !Z.eqb_refl. cbn [negb]. intros H.
  change (payload <| jc_Signature := Some s |> <| jc_Signature := None |>) with
    (payload <| jc_Signature := None |>).
  destruct (json_Marshal (payload <| jc_Signature := None |>)) as [body|e] eqn:Ej; [|discriminate H].
  injection H as <-. cbn [jc_Signature ns_Algorithm ns_Value upd_field]. simpl negb. rewrite DecodeString_EncodeToString by done. by rewrite Hv.
Qed.

(** C34. Node and coordinator agree on signatures: every completion a node reports after running an
    offer, signed with its key, passes the coordinator's check against the public half,
    whatever the runtime answered. *)
Theorem reported_completion_verifies priv pub keyID rj thermal now completion p :
  ed25519_pair priv pub →
  job_report (λ payload, SignJobCompleted priv keyID payload now) rj thermal now completion = MsgJobCompleted p →
  VerifyJobCompleted pub p = Ok tt.
Proof.
  intros Hk. unfold job_report. intros H. repeat case_match; simplify_eq/=.
  match goal with E : SignJobCompleted _ _ ?q _ = Ok ?s |- _ => exact (signed_verifies _ _ _ q _ s Hk E) end.
Qed.

(** The skew test with the default applied. *)
Definition within_skew (maxSkew now t : Z) : Prop :=
  now - default_pos maxSkew (5 * minute) ≤ t ≤ now + default_pos maxSkew (5 * minute).

(** A refresh signed at a time is accepted by a coordinator whose clock is within the allowed
    skew, and by no other. *)
Theorem refresh_accepted_within_skew priv pub nodeID t req now maxSkew :
  ed25519_pair priv pub →
  (∀ u, parse_rfc3339 (format_rfc3339 u) = Ok (u / second * second) ∧ format_rfc3339 u ≠ "") →
  SignRefresh priv nodeID t = Ok req →
  VerifyRefresh pub req now maxSkew = Ok tt ↔ within_skew maxSkew now (t / second * second).
Proof.
  intros [Hpriv Hpub Hsz Hb Hv] Ht. unfold SignRefresh, VerifyRefresh, within_skew. rewrite Hpriv, Hpub. simpl.
  destruct (String.eqb_spec nodeID ""); [done|]. intros H. simplify_eq. simpl.
  destruct (Ht t) as [Hp Hne]. rewrite Hp.
  rewrite (proj2 (String.eqb_neq _ _) n), (proj2 (String.eqb_neq _ _) Hne). simpl.
  rewrite (proj2 (String.eqb_neq _ _)) by (apply EncodeToString_nonempty; intros E;
    specialize (Hsz (refreshMessage nodeID (format_rfc3339 t))); by rewrite E in Hsz).
  destruct (_ || _) eqn:E.
  - split; [done|]. intros Hs. exfalso.
    apply orb_true_iff in E as [E%Z.ltb_lt|E%Z.ltb_lt]; lia.
  - apply orb_false_iff in E as [E1%Z.ltb_ge E2%Z.ltb_ge].
    rewrite DecodeString_EncodeToString by done. rewrite Hv. split; [|done]. intros _. lia.
Qed.
End nodeauth.

(** *** A refresh message names its node *)

#[export] Instance byte_of_inj : Inj (=) (=) byte_of.
Proof.
  intros a b Hab. unfold byte_of in Hab. apply N2Z.inj in Hab.
  rewrite <-(ascii_N_embedding a), <-(ascii_N_embedding b). by f_equal.
Qed.

Lemma bytes_inj s t : bytes s = bytes t → s = t.
Proof. intros H. rewrite <-(of_bytes_bytes s), <-(of_bytes_bytes t). by f_equal. Qed.

Lemma string_bytes_inj s t : string_bytes s = string_bytes t → s = t.
Proof. intros H. by apply bytes_inj, (inj (fmap byte_of)). Qed.

Lemma split_first {A} (c : A) l1 l2 r1 r2 :
  c ∉ l1 → c ∉ l2 → l1 ++ c :: r1 = l2 ++ c :: r2 → l1 = l2 ∧ r1 = r2.
Proof.
  revert l2. induction l1 as [|x l1 IH]; intros [|y l2]; simpl;
    rewrite ?not_elem_of_cons; intros H1 H2 H; simplify_eq/=; try tauto.
  destruct (IH l2) as [-> ->]; tauto.
Qed.

Lemma split_last {A} (c : A) l1 l2 r1 r2 :
  c ∉ r1 → c ∉ r2 → l1 ++ c :: r1 = l2 ++ c :: r2 → l1 = l2 ∧ r1 = r2.
Proof.
  intros H1 H2 H. apply (f_equal reverse) in H. rewrite !reverse_app, !reverse_cons, <-!app_assoc in H.
  destruct (split_first c (reverse r1) (reverse r2) (reverse l1) (reverse l2)) as [Hr Hl];
    rewrite ?elem_of_reverse; [done..|].
  by apply (inj reverse) in Hr, Hl.
Qed.

Lemma itoa_inj_nat n m : itoa (Z.of_nat n) = itoa (Z.of_nat m) → n = m.
Proof.
  unfold itoa. intros H. apply Nat2Z.inj.
  assert (HN : ∀ k : nat, pretty (Z.of_nat k) = pretty (N.of_nat k)) by (intros [|k]; done).
  rewrite !HN in H. apply (inj pretty) in H. lia.
Qed.

(** A refresh signature cannot be moved: two requests have the same signed bytes only if they
    name the same node and the same timestamp, whatever characters these contain. *)
Theorem refreshMessage_injective n1 t1 n2 t2 :
  refreshMessage n1 t1 = refreshMessage n2 t2 ↔ n1 = n2 ∧ t1 = t2.
Proof.
  split; [|by intros [-> ->]]. unfold refreshMessage. intros H.
  apply string_bytes_inj in H. apply (f_equal bytes) in H. rewrite !bytes_app in H.
  change (bytes newline) with [char_of 10] in H.
  apply app_inv_head, app_inv_head in H. rewrite !app_assoc, <-!(app_assoc _ [_] (bytes (itoa _))) in H.
  assert (Hnl : ∀ z, char_of 10 ∉ bytes (itoa z)).
  { intros z. apply itoa_bytes; [|done]. intros d. unfold pretty_N_char. by repeat case_match. }
  apply split_last in H as [H Hlen]; [|apply Hnl|apply Hnl].
  apply bytes_inj, itoa_inj_nat in Hlen. rewrite <-!app_assoc in H.
  apply app_inj_1 in H as [Hn Ht]; [|by rewrite !length_bytes].
  simplify_eq/=. split; by apply bytes_inj.
Qed.

(** ** Access tokens *)

Record TokenSigner := { ts_Secret : list Z; ts_TTL : Z }.
Record Claims := { cl_NodeID : string; cl_Issued : Z; cl_Expiry : Z }.

(** [t.Unix()] and [time.Unix(sec, 0)]. *)
Definition unix (t : Z) : Z := t / second.
Definition of_unix (sec : Z) : Z := sec * second.

Section tokens.
Context (marshal : Claims → list Z) (unmarshal : list Z → result Claims).

Definition sign (s : TokenSigner) (encodedPayload : string) : string :=
  EncodeToString URL (hmac_sha256 (ts_Secret s) (string_bytes encodedPayload)).

Definition Issue (s : TokenSigner) (nodeID : string) (now : Z) : result (string * Z) :=
  if bool_decide (ts_Secret s = []) then Err (ErrMsg "access token secret is required")
  else if String.eqb nodeID "" then Err (ErrMsg "node_id is required")
  else
    let expiry := now + default_pos (ts_TTL s) (60 * minute) in
    let payload := marshal {| cl_NodeID := nodeID; cl_Issued := unix now; cl_Expiry := unix expiry |} in
    let encoded := EncodeToString URL payload in
    Ok (encoded +:+ "." +:+ sign s encoded, expiry).

Definition err_token (msg : string) : result Claims := Err (ErrMsg msg).

Definition Verify (s : TokenSigner) (token : string) (now : Z) : result Claims :=
  if bool_decide (ts_Secret s = []) then err_token "access token secret is required"
  else match split_on "."%char token with
  | [payload; signature] =>
      if negb (String.eqb (sign s payload) signature) then err_token "invalid access token signature"
      else match DecodeString URL payload with
      | Err e => Err (ErrWrap "decode access token payload" e)
      | Ok body =>
          match unmarshal body with
          | Err e => Err (ErrWrap "decode access token claims" e)
          | Ok claims =>
              if String.eqb (cl_NodeID claims) "" then err_token "access token missing node_id"
              else if negb (now <? of_unix (cl_Expiry claims)) then err_token "access token expired"
              else Ok claims
          end
      end
  | _ => err_token "invalid access token shape"
  end.

Lemma no_dot al l : Forall is_byte l → "."%char ∉ bytes (EncodeToString al l).
Proof.
  intros Hl Hin. unfold EncodeToString in Hin. rewrite bytes_of_bytes in Hin.
  pose proof (b64_chars al l Hl) as H. rewrite Forall_forall in H. by apply H in Hin as (_ & ? & _).
Qed.

Lemma split_two p s : "."%char ∉ bytes p → "."%char ∉ bytes s → split_on "."%char (p +:+ "." +:+ s) = [p; s].
Proof. intros Hp Hs. change ("." +:+ s) with (String "." s). by rewrite split_on_app, split_on_none. Qed.

Lemma sign_no_dot s p : "."%char ∉ bytes (sign s p).
Proof. apply no_dot, sum256_bytes. Qed.

(** An issued token and its verification at any time. *)
Lemma Issue_Verify s nodeID now token expiry :
  (∀ c, unmarshal (marshal c) = Ok c ∧ Forall is_byte (marshal c)) →
  Issue s nodeID now = Ok (token, expiry) →
  expiry = now + default_pos (ts_TTL s) (60 * minute) ∧
  ∀ t, Verify s token t =
    if t <? of_unix (unix expiry)
    then Ok {| cl_NodeID := nodeID; cl_Issued := unix now; cl_Expiry := unix expiry |}
    else err_token "access token expired".
Proof.
  intros Hjson. unfold Issue, Verify. case_bool_decide; [done|]. destruct (String.eqb_spec nodeID ""); [done|].
  intros HI. injection HI as <- <-. split; [done|]. intros t.
  match goal with |- context [marshal ?c] => destruct (Hjson c) as [Hu Hb] end.
  rewrite split_two by (apply no_dot, Hb || apply sign_no_dot).
  rewrite String.eqb_refl. simpl negb. cbn iota. rewrite DecodeString_EncodeToString by done.
  rewrite Hu. cbn [cl_NodeID cl_Expiry]. rewrite (proj2 (String.eqb_neq _ _)) by done.
  by destruct (t <? _).
Qed.

(** An issued token is accepted, with the claims it was issued for, at every moment before
    its expiry rounded down to the second, and refused from then on. *)
Theorem token_lifetime s nodeID now token expiry :
  (∀ c, unmarshal (marshal c) = Ok c ∧ Forall is_byte (marshal c)) →
  Issue s nodeID now = Ok (token, expiry) →
  expiry = now + default_pos (ts_TTL s) (60 * minute) ∧
  ∀ t, Verify s token t =
    if t <? of_unix (unix expiry)
    then Ok {| cl_NodeID := nodeID; cl_Issued := unix now; cl_Expiry := unix expiry |}
    else err_token "access token expired".
Proof. apply Issue_Verify. Qed.

(** What a verified token is: one payload and the keyed hash of exactly that payload under the
    coordinator's secret, whose claims name a node and have not expired. *)
Theorem verified_token s token now claims :
  Verify s token now = Ok claims ↔
  ts_Secret s ≠ [] ∧ ∃ payload body, "."%char ∉ bytes payload ∧ token = payload +:+ "." +:+ sign s payload ∧
    DecodeString URL payload = Ok body ∧ unmarshal body = Ok claims ∧
    cl_NodeID claims ≠ "" ∧ now < of_unix (cl_Expiry claims).
Proof.
  unfold Verify. split.
  - case_bool_decide; [done|]. intros Hv. split; [done|].
    destruct (split_on "."%char token) as [|p [|q [|]]] eqn:E; [done..| |done].
    destruct (String.eqb_spec (sign s p) q) as [<-|]; [|done]. simpl in Hv.
    destruct (DecodeString URL p) as [body|] eqn:Ed; [|done].
    destruct (unmarshal body) as [c|] eqn:Eu; [|done].
    destruct (String.eqb_spec (cl_NodeID c) ""); [done|].
    destruct (Z.ltb_spec now (of_unix (cl_Expiry c))); [|done]. simplify_eq/=.
    exists p, body. apply split_on_two in E as (? & _ & ->). done.
  - intros (Hs & payload & body & Hp & -> & Hd & Hu & Hn & Ht).
    rewrite bool_decide_false by done. rewrite split_two by (done || apply sign_no_dot).
    rewrite String.eqb_refl, Hd, Hu. simpl. rewrite (proj2 (String.eqb_neq _ _)) by done.
    by rewrite (proj2 (Z.ltb_lt _ _) Ht).
Qed.
End tokens.

(** ** Witnesses

    A toy signature scheme with the documented properties: the signature is a keyed
    hash the public key can recompute. *)
Definition toy_Sign (k body : list Z) : list Z := hmac_sha256 [] body ++ hmac_sha256 [1] body.
Definition toy_Verify (pub body sig : list Z) : bool := bool_decide (sig = toy_Sign [] body).
Definition toy_private : list Z := replicate 64 7.
Definition toy_public : list Z := replicate 32 7.

Lemma toy_pair : ed25519_pair toy_Sign toy_Verify toy_private toy_public.
Proof.
  split; [done|done| | |].
  - intros body. unfold blen, toy_Sign, hmac_sha256. rewrite length_app, !length_sum256. done.
  - intros body. apply Forall_app. split; apply sum256_bytes.
  - intros body. by apply bool_decide_true.
Qed.

(** A self-delimiting binary code of countable values, in place of JSON and RFC 3339. *)
Fixpoint pos_bits (p : positive) : list Z :=
  match p with xH => [] | xO p => 48 :: pos_bits p | xI p => 49 :: pos_bits p end.
Fixpoint of_bits (l : list Z) : positive :=
  match l with [] => xH | b :: l => if b =? 48 then xO (of_bits l) else xI (of_bits l) end.

Lemma of_pos_bits p : of_bits (pos_bits p) = p.
Proof. induction p; simpl; congruence. Qed.
Lemma pos_bits_bytes p : Forall is_byte (pos_bits p).
Proof. induction p; simpl; constructor; auto; unfold is_byte; lia. Qed.

Definition toy_encode {A} `{Countable A} (x : A) : list Z := pos_bits (encode x).
Definition toy_decode {A} `{Countable A} (l : list Z) : result A :=
  match decode (of_bits l) with Some x => Ok x | None => Err (ErrMsg "malformed") end.
Lemma toy_roundtrip {A} `{Countable A} (x : A) : toy_decode (toy_encode x) = Ok x.
Proof. unfold toy_decode, toy_encode. by rewrite of_pos_bits, decode_encode. Qed.

Definition toy_marshal (p : JobCompletedPayload) : result (list Z) := Ok (toy_encode (jc_JobID p, jc_AttemptID p)).
Definition toy_format (t : Z) : string := "T" +:+ bytes_string (toy_encode (t / second)).
Definition toy_parse (s : string) : result Z :=
  match toy_decode (string_bytes (drop_string 1 s)) with Ok u => Ok (u * second) | Err e => Err e end.
Definition toy_claims (c : Claims) : list Z := toy_encode (cl_NodeID c, cl_Issued c, cl_Expiry c).
Definition toy_unclaims (l : list Z) : result Claims :=
  match toy_decode l with
  | Ok (n, i, e) => Ok {| cl_NodeID := n; cl_Issued := i; cl_Expiry := e |}
  | Err e => Err e
  end.

Definition toy_running : Running := {|
  rj_offer := sample_offer; rj_runtime := sample_runtime; rj_start := 0; rj_started := true; rj_safety := None |}.
Definition toy_completion : CompletionResponse := {|
  co_Choices := [({| cm_Role := "assistant"; cm_Content := "hello" |}, "stop")];
  co_Usage := {| PromptTokens := 3; CompletionTokens := 1; TotalTokens := 4 |} |}.

Lemma reported_completion_verifies_witness :
  ∃ p, job_report (λ q, SignJobCompleted toy_Sign toy_marshal toy_private "key_1" q 0) toy_running TNormal 0
         (Ok toy_completion) = MsgJobCompleted p ∧
       VerifyJobCompleted toy_Verify toy_marshal toy_public p = Ok tt.
Proof.
  eexists. split; [unfold job_report, SignJobCompleted; reflexivity|].
  eapply (reported_completion_verifies toy_Sign toy_Verify toy_marshal toy_private toy_public "key_1" toy_running
            TNormal 0 (Ok toy_completion)); [apply toy_pair|reflexivity].
Defined.

Lemma refresh_accepted_within_skew_witness :
  ∃ req, SignRefresh toy_Sign toy_format toy_private "node_1" (1000 * second) = Ok req ∧
    VerifyRefresh toy_Verify toy_parse toy_public req (1100 * second) 0 = Ok tt.
Proof.
  eexists. split; [unfold SignRefresh; reflexivity|].
  apply (refresh_accepted_within_skew toy_Sign toy_Verify toy_format toy_parse toy_private toy_public "node_1"
           (1000 * second)); [apply toy_pair| |reflexivity|].
  - intros u. split; [|done]. unfold toy_parse, toy_format.
    match goal with |- context [drop_string 1 ("T" +:+ ?x)] => change (drop_string 1 ("T" +:+ x)) with x end.
    rewrite string_bytes_string by apply pos_bits_bytes. by rewrite toy_roundtrip.
  - split; vm_compute; discriminate.
Defined.

Definition toy_signer : TokenSigner := {| ts_Secret := [1; 2; 3]; ts_TTL := 0 |}.

Lemma token_lifetime_witness :
  ∃ token expiry, Issue toy_claims toy_signer "node_1" 0 = Ok (token, expiry) ∧
    Verify toy_unclaims toy_signer token (30 * minute) =
      Ok {| cl_NodeID := "node_1"; cl_Issued := 0; cl_Expiry := 3600 |} ∧
    Verify toy_unclaims toy_signer token (61 * minute) = err_token "access token expired".
Proof.
  eexists _, _. split; [unfold Issue; reflexivity|].
  destruct (token_lifetime toy_claims toy_unclaims toy_signer "node_1" 0 _ _
    ltac:(intros [n i e]; split; [unfold toy_unclaims, toy_claims; by rewrite toy_roundtrip|apply pos_bits_bytes])
    eq_refl) as [_ Hv].
  split; rewrite Hv; reflexivity.
Defined.
