(* ===== verification/Database.v ===== *)
(** * The coordinator's database

    The tables of [migrations/*.up.sql] with the columns the modelled code reads or
    writes, as maps from primary key to row; closed [CHECK (... IN ...)] columns are
    enumerations, [numeric(5,4)] rates are counts of ten-thousandths, JSON columns hold
    the structure they marshal. The operations are the SQL statements the stores use:
    insertion under the primary key, update of the rows that satisfy a condition,
    selection in an order. [ids_New] draws identifiers ([internal/shared/ids]) from an
    arbitrary supply of entropy, so a key conflict is possible and is an error.

    A transaction ([BeginTx] ... [Commit]) is undone by any error and by the deferred
    triggers that require posted ledger transactions to balance. *)
From stdpp Require Import base gmap strings list sorting.
From Stdlib Require Import ZArith Lia.
From S2P Require Import Prelude GoStrings Protocol Requests.

(** [jobs.state]. *)
Inductive JobState := JQueued | JLeased | JRunning | JVerifying | JSucceeded | JFailed | JCancelled.
#[export] Instance JobState_eq_dec : EqDecision JobState.
Proof. solve_decision. Defined.

(** [job_attempts.status]. *)
Inductive AttemptStatus := AOffered | AAccepted | ARunning | ASucceeded | AFailed | ACancelled | AExpired | ARejected | AVerified.
#[export] Instance AttemptStatus_eq_dec : EqDecision AttemptStatus.
Proof. solve_decision. Defined.

(** [ledger_transactions.status]. *)
Inductive LtStatus := LtDraft | LtPosted | LtVoid.
#[export] Instance LtStatus_eq_dec : EqDecision LtStatus.
Proof. solve_decision. Defined.

(** [host_credit_holds.state]. *)
Inductive HoldState := HPending | HAvailable | HPayoutPending | HPaid | HReversed.
#[export] Instance HoldState_eq_dec : EqDecision HoldState.
Proof. solve_decision. Defined.

(** [payout_batches.status]. *)
Inductive BatchStatus := BDraft | BExported | BPaid | BVoid.
#[export] Instance BatchStatus_eq_dec : EqDecision BatchStatus.
Proof. solve_decision. Defined.

(** [payout_items.status]. *)
Inductive ItemStatus := IPending | IExported | IPaid | IFailed | IVoid.
#[export] Instance ItemStatus_eq_dec : EqDecision ItemStatus.
Proof. solve_decision. Defined.

(** [node_sessions.state]. *)
Inductive SessionState := SsConnected | SsDraining | SsClosed | SsStale.
#[export] Instance SessionState_eq_dec : EqDecision SessionState.
Proof. solve_decision. Defined.

(** [invite_tokens.status]. *)
Inductive InviteStatus := InvActive | InvUsed | InvExpired | InvRevoked.
#[export] Instance InviteStatus_eq_dec : EqDecision InviteStatus.
Proof. solve_decision. Defined.

(** [verification_events.status]. *)
Inductive VerStatus := VPending | VAccepted | VRejected | VQuarantined.
#[export] Instance VerStatus_eq_dec : EqDecision VerStatus.
Proof. solve_decision. Defined.

Record OrganizationRow := {
  org_name : string;
  org_created_at : Z
}.
#[export] Instance OrganizationRow_eta : Eta OrganizationRow := λ r,
  {| org_name := org_name r; org_created_at := org_created_at r |}.

Record FleetRow := {
  fl_organization_id : string;
  fl_name : string;
  fl_schedule_from : option string;
  fl_schedule_until : option string;
  fl_schedule_timezone : option string;
  fl_region : option string
}.
#[export] Instance FleetRow_eta : Eta FleetRow := λ r,
  {| fl_organization_id := fl_organization_id r; fl_name := fl_name r;
     fl_schedule_from := fl_schedule_from r; fl_schedule_until := fl_schedule_until r;
     fl_schedule_timezone := fl_schedule_timezone r; fl_region := fl_region r |}.

(** [state] is the text a node reported. *)
Record NodeRow := {
  n_organization_id : option string;
  n_fleet_id : option string;
  n_state : string;
  n_hardware_fingerprint_hash : string;
  n_current_model_id : option string;
  n_quarantined_at : option Z;
  n_registered_at : option Z;
  n_last_seen_at : option Z;
  n_schedule_from : option string;
  n_schedule_until : option string;
  n_schedule_source : string;
  n_region : option string;
  n_updated_at : Z
}.
#[export] Instance NodeRow_eta : Eta NodeRow := λ r,
  {| n_organization_id := n_organization_id r; n_fleet_id := n_fleet_id r; n_state := n_state r;
     n_hardware_fingerprint_hash := n_hardware_fingerprint_hash r;
     n_current_model_id := n_current_model_id r; n_quarantined_at := n_quarantined_at r;
     n_registered_at := n_registered_at r; n_last_seen_at := n_last_seen_at r;
     n_schedule_from := n_schedule_from r; n_schedule_until := n_schedule_until r;
     n_schedule_source := n_schedule_source r; n_region := n_region r; n_updated_at := n_updated_at r |}.

Record NodeKeyRow := {
  nk_node_id : string;
  nk_public_key : string;
  nk_active : bool;
  nk_created_at : Z
}.
#[export] Instance NodeKeyRow_eta : Eta NodeKeyRow := λ r,
  {| nk_node_id := nk_node_id r; nk_public_key := nk_public_key r; nk_active := nk_active r;
     nk_created_at := nk_created_at r |}.

Record SessionRow := {
  ss_node_id : string;
  ss_protocol_version : string;
  ss_remote_addr : string;
  ss_state : SessionState;
  ss_connected_at : Z;
  ss_last_heartbeat_at : option Z;
  ss_disconnected_at : option Z
}.
#[export] Instance SessionRow_eta : Eta SessionRow := λ r,
  {| ss_node_id := ss_node_id r; ss_protocol_version := ss_protocol_version r;
     ss_remote_addr := ss_remote_addr r; ss_state := ss_state r;
     ss_connected_at := ss_connected_at r; ss_last_heartbeat_at := ss_last_heartbeat_at r;
     ss_disconnected_at := ss_disconnected_at r |}.

Record HeartbeatRow := {
  hr_node_id : string;
  hr_session_id : string;
  hr_sequence : Z;
  hr_state : string;
  hr_model_id : option string;
  hr_runtime_hash : option string;
  hr_model_hash : option string;
  hr_gpu : GPUStatus;
  hr_active_job_id : option string;
  hr_schedule_state : string;
  hr_thermal_state : string;
  hr_paused : bool;
  hr_draining : bool;
  hr_uptime_seconds : Z;
  hr_received_at : Z;
  hr_sent_at : Z
}.
#[export] Instance HeartbeatRow_eta : Eta HeartbeatRow := λ r,
  {| hr_node_id := hr_node_id r; hr_session_id := hr_session_id r; hr_sequence := hr_sequence r;
     hr_state := hr_state r; hr_model_id := hr_model_id r; hr_runtime_hash := hr_runtime_hash r;
     hr_model_hash := hr_model_hash r; hr_gpu := hr_gpu r; hr_active_job_id := hr_active_job_id r;
     hr_schedule_state := hr_schedule_state r; hr_thermal_state := hr_thermal_state r;
     hr_paused := hr_paused r; hr_draining := hr_draining r;
     hr_uptime_seconds := hr_uptime_seconds r; hr_received_at := hr_received_at r;
     hr_sent_at := hr_sent_at r |}.

(** Rates are [numeric(5,4)]: a count of ten-thousandths. *)
Record ReputationRow := {
  rp_total_accepted_jobs : Z;
  rp_rolling_success_rate : Z;
  rp_timeout_rate : Z;
  rp_hash_mismatch_count : Z;
  rp_challenge_pass_rate : Z;
  rp_duplicate_disagreement_rate : Z;
  rp_session_stability : Z;
  rp_attempt_total : Z;
  rp_attempt_failed : Z;
  rp_challenge_total : Z;
  rp_challenge_failed : Z;
  rp_duplicate_total : Z;
  rp_duplicate_disagreements : Z;
  rp_quarantined_at : option Z;
  rp_last_quarantine_reason : option string;
  rp_updated_at : Z
}.
#[export] Instance ReputationRow_eta : Eta ReputationRow := λ r,
  {| rp_total_accepted_jobs := rp_total_accepted_jobs r;
     rp_rolling_success_rate := rp_rolling_success_rate r; rp_timeout_rate := rp_timeout_rate r;
     rp_hash_mismatch_count := rp_hash_mismatch_count r;
     rp_challenge_pass_rate := rp_challenge_pass_rate r;
     rp_duplicate_disagreement_rate := rp_duplicate_disagreement_rate r;
     rp_session_stability := rp_session_stability r; rp_attempt_total := rp_attempt_total r;
     rp_attempt_failed := rp_attempt_failed r; rp_challenge_total := rp_challenge_total r;
     rp_challenge_failed := rp_challenge_failed r; rp_duplicate_total := rp_duplicate_total r;
     rp_duplicate_disagreements := rp_duplicate_disagreements r;
     rp_quarantined_at := rp_quarantined_at r;
     rp_last_quarantine_reason := rp_last_quarantine_reason r;
     rp_updated_at := rp_updated_at r |}.

(** What the public catalog shows of a model besides its name and price;
    [expected_output_tokens_per_second] is [numeric(10,2)], a count of hundredths. *)
Record ModelListing := {
  ls_description : option string;
  ls_listing_status : string;
  ls_expected_output_tokens_per_second : option Z;
  ls_market_typical_input_per_million_microdollars : option Z;
  ls_market_typical_output_per_million_microdollars : option Z;
  ls_market_comparison_source_note : option string;
  ls_attribution_display_text : option string;
  ls_attribution_notice_text : option string;
  ls_attribution_license_url : option string;
  ls_attribution_aup_url : option string
}.

Record ModelRow := {
  md_display_name : string;
  md_status : string;
  md_data_class : string;
  md_listing : ModelListing
}.
#[export] Instance ModelRow_eta : Eta ModelRow := λ r,
  {| md_display_name := md_display_name r; md_status := md_status r;
     md_data_class := md_data_class r; md_listing := md_listing r |}.

(** The defaults of the listing columns. *)
Definition live_listing : ModelListing := {|
  ls_description := None; ls_listing_status := "live"; ls_expected_output_tokens_per_second := None;
  ls_market_typical_input_per_million_microdollars := None;
  ls_market_typical_output_per_million_microdollars := None; ls_market_comparison_source_note := None;
  ls_attribution_display_text := None; ls_attribution_notice_text := None;
  ls_attribution_license_url := None; ls_attribution_aup_url := None
|}.

Record RuntimeReleaseRow := {
  rl_engine : string;
  rl_version : string;
  rl_manifest_url : string;
  rl_binary_sha256 : string;
  rl_signature_key_id : string;
  rl_signature_value : string;
  rl_status : string
}.
#[export] Instance RuntimeReleaseRow_eta : Eta RuntimeReleaseRow := λ r,
  {| rl_engine := rl_engine r; rl_version := rl_version r; rl_manifest_url := rl_manifest_url r;
     rl_binary_sha256 := rl_binary_sha256 r; rl_signature_key_id := rl_signature_key_id r;
     rl_signature_value := rl_signature_value r; rl_status := rl_status r |}.

Record ModelVersionRow := {
  mv_model_id : string;
  mv_version : string;
  mv_repository : string;
  mv_revision : string;
  mv_license_identifier : string;
  mv_manifest_sha256 : string;
  mv_runtime_release_id : option string;
  mv_status : string;
  mv_created_at : Z
}.
#[export] Instance ModelVersionRow_eta : Eta ModelVersionRow := λ r,
  {| mv_model_id := mv_model_id r; mv_version := mv_version r; mv_repository := mv_repository r;
     mv_revision := mv_revision r; mv_license_identifier := mv_license_identifier r;
     mv_manifest_sha256 := mv_manifest_sha256 r; mv_runtime_release_id := mv_runtime_release_id r;
     mv_status := mv_status r; mv_created_at := mv_created_at r |}.

Record ModelArtifactRow := {
  ma_model_version_id : string;
  ma_artifact_type : string;
  ma_url : string;
  ma_sha256 : string;
  ma_byte_size : Z
}.
#[export] Instance ModelArtifactRow_eta : Eta ModelArtifactRow := λ r,
  {| ma_model_version_id := ma_model_version_id r; ma_artifact_type := ma_artifact_type r;
     ma_url := ma_url r; ma_sha256 := ma_sha256 r; ma_byte_size := ma_byte_size r |}.

Record RuntimeArtifactRow := {
  rra_runtime_release_id : string;
  rra_platform_key : string;
  rra_sha256 : string
}.
#[export] Instance RuntimeArtifactRow_eta : Eta RuntimeArtifactRow := λ r,
  {| rra_runtime_release_id := rra_runtime_release_id r; rra_platform_key := rra_platform_key r;
     rra_sha256 := rra_sha256 r |}.

(** [tokens_per_second] is [numeric(10,2)], a count of hundredths. *)
Record HardwareProfileRow := {
  mh_model_version_id : string;
  mh_hardware_class : string;
  mh_min_vram_mb : Z;
  mh_min_ram_mb : Z;
  mh_tokens_per_second : option Z;
  mh_max_context_tokens : Z;
  mh_created_at : Z
}.
#[export] Instance HardwareProfileRow_eta : Eta HardwareProfileRow := λ r,
  {| mh_model_version_id := mh_model_version_id r; mh_hardware_class := mh_hardware_class r;
     mh_min_vram_mb := mh_min_vram_mb r; mh_min_ram_mb := mh_min_ram_mb r;
     mh_tokens_per_second := mh_tokens_per_second r;
     mh_max_context_tokens := mh_max_context_tokens r; mh_created_at := mh_created_at r |}.

Record ModelPriceRow := {
  mp_model_version_id : string;
  mp_price_version : string;
  mp_customer_input_per_million_microdollars : Z;
  mp_customer_output_per_million_microdollars : Z;
  mp_host_credit_per_million_output_microdollars : Z;
  mp_effective_from : Z;
  mp_effective_until : option Z
}.
#[export] Instance ModelPriceRow_eta : Eta ModelPriceRow := λ r,
  {| mp_model_version_id := mp_model_version_id r; mp_price_version := mp_price_version r;
     mp_customer_input_per_million_microdollars := mp_customer_input_per_million_microdollars r;
     mp_customer_output_per_million_microdollars := mp_customer_output_per_million_microdollars r;
     mp_host_credit_per_million_output_microdollars := mp_host_credit_per_million_output_microdollars r;
     mp_effective_from := mp_effective_from r; mp_effective_until := mp_effective_until r |}.

Record ModelLimitsRow := {
  ml_max_input_tokens : Z;
  ml_max_output_tokens : Z;
  ml_max_request_bytes : Z;
  ml_capabilities : list string;
  ml_content_filter_profile : string;
  ml_price_version : string;
  ml_duplicate_sample_rate : Z;
  ml_challenge_rate : Z
}.
#[export] Instance ModelLimitsRow_eta : Eta ModelLimitsRow := λ r,
  {| ml_max_input_tokens := ml_max_input_tokens r; ml_max_output_tokens := ml_max_output_tokens r;
     ml_max_request_bytes := ml_max_request_bytes r; ml_capabilities := ml_capabilities r;
     ml_content_filter_profile := ml_content_filter_profile r; ml_price_version := ml_price_version r;
     ml_duplicate_sample_rate := ml_duplicate_sample_rate r;
     ml_challenge_rate := ml_challenge_rate r |}.

Record APIKeyRow := {
  ak_organization_id : string;
  ak_name : string;
  ak_key_hash : string;
  ak_active : bool
}.
#[export] Instance APIKeyRow_eta : Eta APIKeyRow := λ r,
  {| ak_organization_id := ak_organization_id r; ak_name := ak_name r;
     ak_key_hash := ak_key_hash r; ak_active := ak_active r |}.

(** [request_metadata] is the marshalled request. *)
Record JobRow := {
  j_organization_id : string;
  j_api_key_id : string;
  j_model_id : string;
  j_state : JobState;
  j_priority : string;
  j_request_metadata : string;
  j_deadline_at : Z;
  j_created_at : Z;
  j_updated_at : Z;
  j_completed_at : option Z
}.
#[export] Instance JobRow_eta : Eta JobRow := λ r,
  {| j_organization_id := j_organization_id r; j_api_key_id := j_api_key_id r;
     j_model_id := j_model_id r; j_state := j_state r; j_priority := j_priority r;
     j_request_metadata := j_request_metadata r; j_deadline_at := j_deadline_at r;
     j_created_at := j_created_at r; j_updated_at := j_updated_at r;
     j_completed_at := j_completed_at r |}.

Record AttemptRow := {
  at_job_id : string;
  at_node_id : option string;
  at_attempt_number : Z;
  at_lease_nonce : string;
  at_lease_expires_at : Z;
  at_deadline_at : Z;
  at_status : AttemptStatus;
  at_transient_failure : bool;
  at_error_code : option string;
  at_created_at : Z;
  at_accepted_at : option Z;
  at_started_at : option Z;
  at_finished_at : option Z
}.
#[export] Instance AttemptRow_eta : Eta AttemptRow := λ r,
  {| at_job_id := at_job_id r; at_node_id := at_node_id r;
     at_attempt_number := at_attempt_number r; at_lease_nonce := at_lease_nonce r;
     at_lease_expires_at := at_lease_expires_at r; at_deadline_at := at_deadline_at r;
     at_status := at_status r; at_transient_failure := at_transient_failure r;
     at_error_code := at_error_code r; at_created_at := at_created_at r;
     at_accepted_at := at_accepted_at r; at_started_at := at_started_at r;
     at_finished_at := at_finished_at r |}.

(** [jobs/types.go]: the response stored with a result, as the structure it
    marshals. *)
Record OpenAIResponse := {
  oa_ID : string;
  oa_Object : string;
  oa_Created : Z;
  oa_Model : string;
  oa_Message : ChatMessage;
  oa_FinishReason : string;
  oa_Usage : Usage;
  oa_JobID : string;
  oa_Attempts : Z;
  oa_DataClass : string;
  oa_ServedRegion : string
}.

Record ResultRow := {
  res_job_id : string;
  res_attempt_id : string;
  res_model_hash : string;
  res_runtime_hash : string;
  res_prompt_tokens : Z;
  res_completion_tokens : Z;
  res_duration_millis : Z;
  res_coordinator_duration_millis : Z;
  res_response_metadata : OpenAIResponse;
  res_accepted : bool;
  res_metering_status : MeteringStatus;
  res_price_version : string;
  res_created_at : Z
}.
#[export] Instance ResultRow_eta : Eta ResultRow := λ r,
  {| res_job_id := res_job_id r; res_attempt_id := res_attempt_id r;
     res_model_hash := res_model_hash r; res_runtime_hash := res_runtime_hash r;
     res_prompt_tokens := res_prompt_tokens r; res_completion_tokens := res_completion_tokens r;
     res_duration_millis := res_duration_millis r;
     res_coordinator_duration_millis := res_coordinator_duration_millis r;
     res_response_metadata := res_response_metadata r; res_accepted := res_accepted r;
     res_metering_status := res_metering_status r; res_price_version := res_price_version r;
     res_created_at := res_created_at r |}.

(** The JSON details of a verification event. *)
Inductive VerDetails :=
  | DetMetering (issues : list MeteringIssue) (usage : Usage)
  | DetDuplicate (agreement : bool) (reason original_attempt_id original_node_id : string)
  | DetChallenge (passed : bool) (reason model_id : string)
  | DetQuarantine (reason model_id : string).

Record VerificationEventRow := {
  ve_job_id : string;
  ve_attempt_id : option string;
  ve_node_id : option string;
  ve_event_type : string;
  ve_status : VerStatus;
  ve_details : VerDetails;
  ve_created_at : Z
}.
#[export] Instance VerificationEventRow_eta : Eta VerificationEventRow := λ r,
  {| ve_job_id := ve_job_id r; ve_attempt_id := ve_attempt_id r; ve_node_id := ve_node_id r;
     ve_event_type := ve_event_type r; ve_status := ve_status r; ve_details := ve_details r;
     ve_created_at := ve_created_at r |}.

(** The JSON metadata is the event's message, readings and time. *)
Record SecurityEventRow := {
  se_row_severity : string;
  se_row_event_type : string;
  se_row_node_id : string;
  se_row_metadata : NodeSafetyEventPayload;
  se_row_created_at : Z
}.
#[export] Instance SecurityEventRow_eta : Eta SecurityEventRow := λ r,
  {| se_row_severity := se_row_severity r; se_row_event_type := se_row_event_type r;
     se_row_node_id := se_row_node_id r; se_row_metadata := se_row_metadata r; se_row_created_at := se_row_created_at r |}.

Record IdempotencyRow := {
  id_api_key_id : string;
  id_endpoint : string;
  id_idempotency_key : string;
  id_request_hash : string;
  id_response_status : Z;
  id_response_metadata : string;
  id_job_id : option string;
  id_created_at : Z;
  id_expires_at : Z
}.
#[export] Instance IdempotencyRow_eta : Eta IdempotencyRow := λ r,
  {| id_api_key_id := id_api_key_id r; id_endpoint := id_endpoint r;
     id_idempotency_key := id_idempotency_key r; id_request_hash := id_request_hash r;
     id_response_status := id_response_status r; id_response_metadata := id_response_metadata r;
     id_job_id := id_job_id r; id_created_at := id_created_at r;
     id_expires_at := id_expires_at r |}.

Record AccountRow := {
  ac_owner_type : string;
  ac_owner_id : string;
  ac_account_type : string;
  ac_currency : string;
  ac_status : string
}.
#[export] Instance AccountRow_eta : Eta AccountRow := λ r,
  {| ac_owner_type := ac_owner_type r; ac_owner_id := ac_owner_id r;
     ac_account_type := ac_account_type r; ac_currency := ac_currency r;
     ac_status := ac_status r |}.

(** The JSON metadata of a posting. *)
Record LtMetadata := {
  lm_prompt_tokens : option Z;
  lm_completion_tokens : Z;
  lm_coordinator_duration_millis : Z;
  lm_price_version : string
}.

Record LedgerTransactionRow := {
  lt_transaction_type : string;
  lt_status : LtStatus;
  lt_reference_type : option string;
  lt_reference_id : option string;
  lt_memo : string;
  lt_metadata : option LtMetadata;
  lt_reverses_transaction_id : option string;
  lt_created_at : Z;
  lt_posted_at : option Z
}.
#[export] Instance LedgerTransactionRow_eta : Eta LedgerTransactionRow := λ r,
  {| lt_transaction_type := lt_transaction_type r; lt_status := lt_status r;
     lt_reference_type := lt_reference_type r; lt_reference_id := lt_reference_id r;
     lt_memo := lt_memo r; lt_metadata := lt_metadata r;
     lt_reverses_transaction_id := lt_reverses_transaction_id r;
     lt_created_at := lt_created_at r; lt_posted_at := lt_posted_at r |}.

Record LedgerEntryRow := {
  le_transaction_id : string;
  le_account_id : string;
  le_amount_microdollars : Z;
  le_currency : string;
  le_memo : string;
  le_created_at : Z
}.
#[export] Instance LedgerEntryRow_eta : Eta LedgerEntryRow := λ r,
  {| le_transaction_id := le_transaction_id r; le_account_id := le_account_id r;
     le_amount_microdollars := le_amount_microdollars r; le_currency := le_currency r;
     le_memo := le_memo r; le_created_at := le_created_at r |}.

Record CreditHoldRow := {
  ch_node_id : string;
  ch_job_id : string;
  ch_attempt_id : string;
  ch_ledger_transaction_id : string;
  ch_amount_microdollars : Z;
  ch_state : HoldState;
  ch_available_at : Z;
  ch_payout_batch_id : option string;
  ch_created_at : Z;
  ch_updated_at : Z
}.
#[export] Instance CreditHoldRow_eta : Eta CreditHoldRow := λ r,
  {| ch_node_id := ch_node_id r; ch_job_id := ch_job_id r; ch_attempt_id := ch_attempt_id r;
     ch_ledger_transaction_id := ch_ledger_transaction_id r;
     ch_amount_microdollars := ch_amount_microdollars r; ch_state := ch_state r;
     ch_available_at := ch_available_at r; ch_payout_batch_id := ch_payout_batch_id r;
     ch_created_at := ch_created_at r; ch_updated_at := ch_updated_at r |}.

Record PayoutBatchRow := {
  pb_organization_id : option string;
  pb_status : BatchStatus;
  pb_currency : string;
  pb_total_microdollars : Z;
  pb_created_at : Z;
  pb_exported_at : option Z;
  pb_paid_at : option Z
}.
#[export] Instance PayoutBatchRow_eta : Eta PayoutBatchRow := λ r,
  {| pb_organization_id := pb_organization_id r; pb_status := pb_status r;
     pb_currency := pb_currency r; pb_total_microdollars := pb_total_microdollars r;
     pb_created_at := pb_created_at r; pb_exported_at := pb_exported_at r;
     pb_paid_at := pb_paid_at r |}.

Record PayoutItemRow := {
  pi_payout_batch_id : string;
  pi_host_node_id : option string;
  pi_credit_hold_id : option string;
  pi_ledger_transaction_id : option string;
  pi_amount_microdollars : Z;
  pi_currency : string;
  pi_external_reference : string;
  pi_status : ItemStatus;
  pi_memo : string;
  pi_created_at : Z
}.
#[export] Instance PayoutItemRow_eta : Eta PayoutItemRow := λ r,
  {| pi_payout_batch_id := pi_payout_batch_id r; pi_host_node_id := pi_host_node_id r;
     pi_credit_hold_id := pi_credit_hold_id r;
     pi_ledger_transaction_id := pi_ledger_transaction_id r;
     pi_amount_microdollars := pi_amount_microdollars r; pi_currency := pi_currency r;
     pi_external_reference := pi_external_reference r; pi_status := pi_status r;
     pi_memo := pi_memo r; pi_created_at := pi_created_at r |}.

Record InviteRow := {
  iv_fleet_id : string;
  iv_token_hash : string;
  iv_status : InviteStatus;
  iv_expires_at : Z;
  iv_used_at : option Z;
  iv_used_by_node_id : option string;
  iv_created_at : Z
}.
#[export] Instance InviteRow_eta : Eta InviteRow := λ r,
  {| iv_fleet_id := iv_fleet_id r; iv_token_hash := iv_token_hash r; iv_status := iv_status r;
     iv_expires_at := iv_expires_at r; iv_used_at := iv_used_at r;
     iv_used_by_node_id := iv_used_by_node_id r; iv_created_at := iv_created_at r |}.

Record BootstrapRow := {
  bt_node_id : string;
  bt_token_hash : string;
  bt_expires_at : Z;
  bt_used_at : option Z;
  bt_created_at : Z
}.
#[export] Instance BootstrapRow_eta : Eta BootstrapRow := λ r,
  {| bt_node_id := bt_node_id r; bt_token_hash := bt_token_hash r;
     bt_expires_at := bt_expires_at r; bt_used_at := bt_used_at r;
     bt_created_at := bt_created_at r |}.

(** A value of the JSON object an operator action or an audit event carries. *)
Inductive MetaValue := MvText (s : string) | MvInt (n : Z).

Record OperatorActionRow := {
  oc_action : string;
  oc_target_type : string;
  oc_target_id : string;
  oc_reason : option string;
  oc_metadata : list (string * MetaValue);
  oc_created_at : Z
}.

Record AuditEventRow := {
  ae_actor_type : string;
  ae_actor_id : option string;
  ae_action : string;
  ae_target_type : option string;
  ae_target_id : option string;
  ae_metadata : list (string * MetaValue);
  ae_created_at : Z
}.

Record WaitlistRow := {
  wl_email : string;
  wl_name : option string;
  wl_use_case : option string;
  wl_expected_volume : option string;
  wl_data_ack : bool;
  wl_model_id : option string;
  wl_source : string;
  wl_created_at : Z;
  wl_last_applied_at : Z
}.
#[export] Instance WaitlistRow_eta : Eta WaitlistRow := λ r,
  {| wl_email := wl_email r; wl_name := wl_name r; wl_use_case := wl_use_case r;
     wl_expected_volume := wl_expected_volume r; wl_data_ack := wl_data_ack r;
     wl_model_id := wl_model_id r; wl_source := wl_source r; wl_created_at := wl_created_at r;
     wl_last_applied_at := wl_last_applied_at r |}.

(** The database, with the clock ([now()] and [time.Now()]) and the entropy the next
    identifiers are drawn from. [api_key_model_permissions] is its set of keys. *)
Record DB := {
  db_now : Z;
  db_entropy : list string;
  db_organizations : gmap string OrganizationRow;
  db_fleets : gmap string FleetRow;
  db_nodes : gmap string NodeRow;
  db_node_keys : gmap string NodeKeyRow;
  db_node_sessions : gmap string SessionRow;
  db_node_heartbeats : gmap string HeartbeatRow;
  db_node_reputation : gmap string ReputationRow;
  db_models : gmap string ModelRow;
  db_model_versions : gmap string ModelVersionRow;
  db_model_artifacts : gmap string ModelArtifactRow;
  db_runtime_artifacts : gmap string RuntimeArtifactRow;
  db_model_hardware_profiles : gmap string HardwareProfileRow;
  db_model_prices : gmap string ModelPriceRow;
  db_model_manifest_limits : gmap string ModelLimitsRow;
  db_api_keys : gmap string APIKeyRow;
  db_jobs : gmap string JobRow;
  db_job_attempts : gmap string AttemptRow;
  db_job_results : gmap string ResultRow;
  db_verification_events : gmap string VerificationEventRow;
  db_security_events : gmap string SecurityEventRow;
  db_idempotency_records : gmap string IdempotencyRow;
  db_ledger_accounts : gmap string AccountRow;
  db_ledger_transactions : gmap string LedgerTransactionRow;
  db_ledger_entries : gmap string LedgerEntryRow;
  db_host_credit_holds : gmap string CreditHoldRow;
  db_payout_batches : gmap string PayoutBatchRow;
  db_payout_items : gmap string PayoutItemRow;
  db_invite_tokens : gmap string InviteRow;
  db_bootstrap_tokens : gmap string BootstrapRow;
  db_operator_actions : gmap string OperatorActionRow;
  db_audit_events : gmap string AuditEventRow;
  db_waitlist_signups : gmap string WaitlistRow;
  db_permissions : gset (string * string);
  db_runtime_releases : gmap string RuntimeReleaseRow
}.
#[export] Instance DB_eta : Eta DB := λ r,
  {| db_now := db_now r; db_entropy := db_entropy r; db_organizations := db_organizations r;
     db_fleets := db_fleets r; db_nodes := db_nodes r; db_node_keys := db_node_keys r;
     db_node_sessions := db_node_sessions r; db_node_heartbeats := db_node_heartbeats r;
     db_node_reputation := db_node_reputation r; db_models := db_models r;
     db_model_versions := db_model_versions r; db_model_artifacts := db_model_artifacts r;
     db_runtime_artifacts := db_runtime_artifacts r;
     db_model_hardware_profiles := db_model_hardware_profiles r;
     db_model_prices := db_model_prices r;
     db_model_manifest_limits := db_model_manifest_limits r; db_api_keys := db_api_keys r;
     db_jobs := db_jobs r; db_job_attempts := db_job_attempts r;
     db_job_results := db_job_results r; db_verification_events := db_verification_events r;
     db_security_events := db_security_events r;
     db_idempotency_records := db_idempotency_records r;
     db_ledger_accounts := db_ledger_accounts r;
     db_ledger_transactions := db_ledger_transactions r;
     db_ledger_entries := db_ledger_entries r; db_host_credit_holds := db_host_credit_holds r;
     db_payout_batches := db_payout_batches r; db_payout_items := db_payout_items r;
     db_invite_tokens := db_invite_tokens r; db_bootstrap_tokens := db_bootstrap_tokens r;
     db_operator_actions := db_operator_actions r; db_audit_events := db_audit_events r;
     db_waitlist_signups := db_waitlist_signups r;
     db_permissions := db_permissions r; db_runtime_releases := db_runtime_releases r |}.

Definition empty_db (now : Z) (entropy : list string) : DB := {|
  db_now := now; db_entropy := entropy;
  db_organizations := ∅;
  db_fleets := ∅;
  db_nodes := ∅;
  db_node_keys := ∅;
  db_node_sessions := ∅;
  db_node_heartbeats := ∅;
  db_node_reputation := ∅;
  db_models := ∅;
  db_model_versions := ∅;
  db_model_artifacts := ∅;
  db_runtime_artifacts := ∅;
  db_model_hardware_profiles := ∅;
  db_model_prices := ∅;
  db_model_manifest_limits := ∅;
  db_api_keys := ∅;
  db_jobs := ∅;
  db_job_attempts := ∅;
  db_job_results := ∅;
  db_verification_events := ∅;
  db_security_events := ∅;
  db_idempotency_records := ∅;
  db_ledger_accounts := ∅;
  db_ledger_transactions := ∅;
  db_ledger_entries := ∅;
  db_host_credit_holds := ∅;
  db_payout_batches := ∅;
  db_payout_items := ∅;
  db_invite_tokens := ∅;
  db_bootstrap_tokens := ∅;
  db_operator_actions := ∅;
  db_audit_events := ∅;
  db_waitlist_signups := ∅;
  db_permissions := ∅; db_runtime_releases := ∅
|}.

(** ** Statements *)

(** [ids.New(prefix)]: the prefix and 26 characters of time and entropy. *)
Definition ids_New (prefix : string) : St DB string := λ db,
  match db_entropy db with
  | [] => (Err (ErrWrap "read random entropy" (ErrMsg "entropy exhausted")), db)
  | body :: rest => (Ok (prefix +:+ "_" +:+ body), db <| db_entropy := rest |>)
  end.

(** [now()] in SQL and [time.Now().UTC()] in Go. *)
Definition sql_now : St DB Z := gets db_now.

(** [if t.IsZero() { t = time.Now().UTC() }]. *)
Definition or_now (t : Z) : St DB Z := if is_zero_time t then sql_now else mret t.

Definition constraint {S} (b : bool) (name : string) : St S unit := guard_err b (ErrConstraint name).

Section tables.
Context {V : Type}.
Implicit Types (tbl : gmap string V).

Definition fresh_key tbl (k : string) : bool := bool_decide (tbl !! k = None).
Definition has_key tbl (k : string) : bool := bool_decide (is_Some (tbl !! k)).

(** [UPDATE ... SET ... WHERE]: [f] on the rows that satisfy [p]. *)
Definition update_where (p : string → V → bool) (f : V → V) tbl : gmap string V :=
  map_imap (λ k v, Some (if p k v then f v else v)) tbl.

(** The rows that satisfy [p], in an arbitrary order; [ORDER BY] sorts them. *)
Definition rows_where (p : string → V → bool) tbl : list (string * V) :=
  filter (λ kv, p kv.1 kv.2 = true) (map_to_list tbl).
Definition exists_row (p : string → V → bool) tbl : bool :=
  negb (bool_decide (rows_where p tbl = [])).
Definition order_by (lt : string * V → string * V → bool) (rows : list (string * V)) :=
  stable_sort lt rows.

Lemma lookup_update_where p f tbl k :
  update_where p f tbl !! k = (λ v, if p k v then f v else v) <$> tbl !! k.
Proof. unfold update_where. rewrite map_lookup_imap. by destruct (tbl !! k). Qed.

Lemma elem_of_rows_where p tbl k v :
  (k, v) ∈ rows_where p tbl ↔ tbl !! k = Some v ∧ p k v = true.
Proof.
  unfold rows_where. rewrite list_elem_of_filter, elem_of_map_to_list. naive_solver.
Qed.

Lemma exists_row_spec p tbl : exists_row p tbl = true ↔ ∃ k v, tbl !! k = Some v ∧ p k v = true.
Proof.
  unfold exists_row. rewrite negb_true_iff, bool_decide_eq_false. split.
  - destruct (rows_where p tbl) as [|[k v] l] eqn:E; [done|]. intros _. exists k, v.
    apply elem_of_rows_where. rewrite E. constructor.
  - intros (k & v & H%elem_of_rows_where) E. rewrite E in H. by apply not_elem_of_nil in H.
Qed.

Lemma exists_row_false p tbl :
  exists_row p tbl = false ↔ ∀ k v, tbl !! k = Some v → p k v = false.
Proof.
  rewrite <-not_true_iff_false, exists_row_spec. split.
  - intros H k v Hk. apply not_true_iff_false. intros Hp. apply H. by exists k, v.
  - intros H (k & v & Hk & Hp). by rewrite (H k v Hk) in Hp.
Qed.

Lemma elem_of_order_by lt rows kv : kv ∈ order_by lt rows ↔ kv ∈ rows.
Proof. apply elem_of_stable_sort. Qed.

Lemma update_where_id p f tbl :
  (∀ k v, tbl !! k = Some v → p k v = false) → update_where p f tbl = tbl.
Proof.
  intros H. apply map_eq. intros k. rewrite lookup_update_where.
  destruct (tbl !! k) as [v|] eqn:E; simpl; [by rewrite (H k v)|done].
Qed.

(** [WHERE id = $1]. *)
Lemma update_where_none p f tbl : (∀ k v, p k v = false) → update_where p f tbl = tbl.
Proof. intros Hp. apply update_where_id. intros k v _. by rewrite Hp. Qed.
Lemma update_where_key id f tbl v :
  tbl !! id = Some v → update_where (λ k _, String.eqb k id) f tbl = <[id := f v]> tbl.
Proof.
  intros H. apply map_eq. intros k. rewrite lookup_update_where.
  destruct (String.eqb_spec k id) as [->|Hne].
  - by rewrite H, lookup_insert_eq.
  - rewrite lookup_insert_ne by done. by destruct (tbl !! k).
Qed.
Lemma update_where_no_key id f tbl :
  tbl !! id = None → update_where (λ k _, String.eqb k id) f tbl = tbl.
Proof.
  intros H. apply update_where_id. intros k v Hk. apply String.eqb_neq. congruence.
Qed.

Lemma sum_update_where (w : V → Z) p f tbl :
  sum_map w (update_where p f tbl) = sum_map w tbl +
    sum_list (λ kv, if p kv.1 kv.2 then w (f kv.2) - w kv.2 else 0) (map_to_list tbl).
Proof.
  unfold update_where. induction tbl as [|k v tbl Hk IH] using map_ind.
  - by rewrite map_imap_empty, map_to_list_empty, sum_map_empty.
  - rewrite map_imap_insert. simpl. rewrite !sum_map_insert; [|done|by rewrite map_lookup_imap, Hk].
    rewrite IH, (sum_list_perm _ _ _ (map_to_list_insert tbl k v Hk)), sum_list_cons. simpl.
    destruct (p k v); lia.
Qed.

Lemma rows_where_NoDup p tbl : NoDup (rows_where p tbl).*1.
Proof.
  unfold rows_where. pose proof (NoDup_fst_map_to_list tbl) as H. revert H.
  induction (map_to_list tbl) as [|[k v] l IH]; [done|]. rewrite fmap_cons, NoDup_cons.
  intros [Hk Hl]. rewrite filter_cons. case_decide; [|by apply IH].
  rewrite fmap_cons, NoDup_cons. split; [|by apply IH]. simpl in *. intros Hin. apply Hk.
  apply list_elem_of_fmap in Hin as ([k' v'] & Heq & Hin). simpl in Heq. subst.
  apply list_elem_of_filter in Hin as [_ Hin]. apply list_elem_of_fmap. by exists (k', v').
Qed.
End tables.

(** Descending by a time column: [ORDER BY col DESC]. *)
Definition desc {V} (col : V → Z) (a b : string * V) : bool := col b.2 <? col a.2.

(** [ORDER BY col DESC LIMIT 1]. *)
Definition latest {V} (col : V → Z) (rows : list (string * V)) : option (string * V) :=
  head (order_by (desc col) rows).

Lemma latest_elem {V} (col : V → Z) rows kv : latest col rows = Some kv → kv ∈ rows.
Proof.
  unfold latest. intros H. apply (elem_of_order_by (desc col)).
  destruct (order_by (desc col) rows); simplify_eq/=. constructor.
Qed.

Lemma latest_max {V} (col : V → Z) rows kv kv' :
  latest col rows = Some kv → kv' ∈ rows → col kv'.2 ≤ col kv.2.
Proof.
  unfold latest, order_by. intros H Hin.
  destruct (stable_sort (desc col) rows) as [|x l] eqn:E; simplify_eq/=.
  apply (stable_sort_head _ (λ _, True)) in E as [_ Hmax].
  - destruct (Hmax kv' Hin) as [->|Hlt]; [done|]. unfold desc in Hlt. apply Z.ltb_ge in Hlt. lia.
  - unfold desc. intros x y _ _. rewrite Z.ltb_lt, Z.ltb_ge. lia.
  - unfold desc. intros x y z _ _ _. rewrite !Z.ltb_ge. lia.
  - by apply Forall_true.
Qed.

(** ** Balance of ledger transactions *)

(** [SELECT SUM(amount_microdollars) FROM ledger_entries WHERE transaction_id = $1]. *)
Definition entry_of (txid : string) (e : LedgerEntryRow) : Z :=
  if String.eqb (le_transaction_id e) txid then le_amount_microdollars e else 0.
Definition tx_balance (db : DB) (txid : string) : Z := sum_map (entry_of txid) (db_ledger_entries db).

Definition tx_ok (db : DB) (txid : string) (lt : LedgerTransactionRow) : bool :=
  negb (bool_decide (lt_status lt = LtPosted)) || (tx_balance db txid =? 0).

(** The deferred triggers [ledger_entries_balance_zero] and
    [ledger_transactions_balance_zero] at commit. *)
Definition commit_check (db : DB) : result unit :=
  if forallb (λ kv, tx_ok db kv.1 kv.2) (map_to_list (db_ledger_transactions db))
  then Ok tt else Err (ErrConstraint "ledger_transactions_balance_zero").

Definition posted_balanced (db : DB) : Prop :=
  ∀ txid lt, db_ledger_transactions db !! txid = Some lt → lt_status lt = LtPosted →
    tx_balance db txid = 0.

Lemma commit_check_ok db : is_ok (commit_check db) = true ↔ posted_balanced db.
Proof.
  unfold commit_check. destruct (forallb _ _) eqn:E; simpl.
  - rewrite forallb_forall in E. split; [intros _|done]. intros txid lt Hlt Hp.
    specialize (E (txid, lt)). rewrite <-list_elem_of_In, elem_of_map_to_list in E.
    specialize (E Hlt). unfold tx_ok in E. simpl in E. rewrite bool_decide_eq_true_2 in E by done.
    by apply Z.eqb_eq in E.
  - split; [done|]. intros Hb. exfalso. apply not_true_iff_false in E. apply E.
    apply forallb_forall. intros [txid lt]. rewrite <-list_elem_of_In, elem_of_map_to_list.
    intros Hlt. unfold tx_ok. simpl. case_bool_decide; simpl; [|done].
    apply Z.eqb_eq. by apply (Hb txid lt).
Qed.

(** [BeginTx], body, [Commit]. An error of the body, or a commit the triggers refuse,
    leaves every table as it was; the identifiers drawn are spent all the same. *)
Definition transaction {A} (m : St DB A) : St DB A := λ db,
  let undo (db' : DB) := db <| db_entropy := db_entropy db' |> in
  match m db with
  | (Ok a, db') =>
      match commit_check db' with
      | Ok _ => (Ok a, db')
      | Err e => (Err (ErrWrap "commit" e), undo db')
      end
  | (Err e, db') => (Err e, undo db')
  end.

Lemma transaction_ok {A} (m : St DB A) db a db' :
  transaction m db = (Ok a, db') ↔ m db = (Ok a, db') ∧ posted_balanced db'.
Proof.
  unfold transaction. rewrite <-commit_check_ok. destruct (m db) as [[b|e] s1]; [|naive_solver].
  destruct (commit_check s1) eqn:E; (split; [intros ?|intros [? ?]]);
    simplify_eq; rewrite ?E in *; done.
Qed.

Lemma transaction_err {A} (m : St DB A) db e db' :
  transaction m db = (Err e, db') → ∃ ent, db' = db <| db_entropy := ent |>.
Proof.
  unfold transaction. destruct (m db) as [[b|e'] s1].
  - destruct (commit_check s1); intros; simplify_eq. by exists (db_entropy s1).
  - intros; simplify_eq. by exists (db_entropy s1).
Qed.

(** [P] looks at the tables only. *)
Class TableProp (P : DB → Prop) := table_prop : ∀ db ent, P db ↔ P (db <| db_entropy := ent |>).

Lemma preserves_transaction P `{!TableProp P} {A} (m : St DB A) :
  preserves P m → preserves P (transaction m).
Proof.
  intros Hm db Hdb. destruct (transaction m db) as [[a|e] db'] eqn:E; simpl.
  - apply transaction_ok in E as [E _]. specialize (Hm db Hdb). by rewrite E in Hm.
  - apply transaction_err in E as [ent ->]. by apply (table_prop db).
Qed.

(** A property that holds at the commit of a transaction, by what it did or by what
    the triggers checked. *)
Lemma preserves_transaction_commit P `{!TableProp P} {A} (m : St DB A) :
  (∀ db a db', P db → m db = (Ok a, db') → posted_balanced db' → P db') →
  preserves P (transaction m).
Proof.
  intros Hm db Hdb. destruct (transaction m db) as [[a|e] db'] eqn:E; simpl.
  - apply transaction_ok in E as [E Hb]. by apply (Hm db a).
  - apply transaction_err in E as [ent ->]. by apply (table_prop db).
Qed.

#[export] Instance posted_balanced_tables : TableProp posted_balanced.
Proof. intros db ent. done. Qed.

Lemma ids_New_ok p db id db' :
  ids_New p db = (Ok id, db') ↔
  ∃ b rest, db_entropy db = b :: rest ∧ id = p +:+ "_" +:+ b ∧ db' = db <| db_entropy := rest |>.
Proof.
  unfold ids_New. destruct (db_entropy db) as [|b rest] eqn:E; [naive_solver|]. split.
  - intros; simplify_eq. by exists b, rest.
  - intros (? & ? & ? & -> & ->). by simplify_eq.
Qed.

Lemma preserves_ids_New P `{!TableProp P} p : preserves P (ids_New p).
Proof.
  intros db Hdb. unfold ids_New. destruct (db_entropy db); simpl; [done|]. by apply (table_prop db).
Qed.
Lemma preserves_sql_now P : preserves P sql_now.
Proof. apply preserves_gets. Qed.
Lemma preserves_or_now P t : preserves P (or_now t).
Proof. unfold or_now. destruct (is_zero_time t); eauto with inv. Qed.
Lemma preserves_constraint {S} (P : S → Prop) b n : preserves P (constraint b n).
Proof. apply preserves_guard. Qed.

#[export] Hint Resolve preserves_transaction preserves_ids_New preserves_sql_now preserves_or_now
  preserves_constraint : inv.

Lemma or_now_ok t db t' db' :
  or_now t db = (Ok t', db') ↔ db' = db ∧ t' = (if is_zero_time t then db_now db else t).
Proof. unfold or_now, sql_now, gets, mret, St_ret. destruct (is_zero_time t); naive_solver. Qed.

Lemma constraint_ok {S} b n (s : S) u s' : constraint b n s = (Ok u, s') ↔ b = true ∧ s' = s.
Proof. apply guard_ok. Qed.

(** [solve_inv] through transactions. *)
Ltac solve_db_inv :=
  repeat first
    [ match goal with |- preserves _ (transaction _) => apply preserves_transaction end
    | progress solve_inv ].
