(* ===== verification/Registration.v ===== *)
(** * Node registration and sessions

    [internal/coordinator/registration] ([service.go], [pgstore.go]) and the stale
    session sweeper of [internal/coordinator/sessions]: invites and bootstrap tokens
    (each usable once, before it expires), node records and keys, and what sessions
    and heartbeats write. Tokens are random: their text is drawn from the entropy of
    the database record, like identifiers. *)
From stdpp Require Import base gmap strings list.
From Stdlib Require Import ZArith Lia Ascii.
From S2P Require Import Prelude GoStrings Float64 Sha256 NodeState Schedule Protocol Requests Database.

(** ** Errors and requests *)

Definition ErrInvalidInvite : gerror := ErrMsg "invalid invite token".
Definition ErrInviteUsed : gerror := ErrMsg "invite token has already been used".
Definition ErrInviteExpired : gerror := ErrMsg "invite token has expired".
Definition ErrInvalidBootstrap : gerror := ErrMsg "invalid bootstrap token".
Definition ErrBootstrapUsed : gerror := ErrMsg "bootstrap token has already been used".
Definition ErrBootstrapExpired : gerror := ErrMsg "bootstrap token has expired".

Record InviteRecord := {
  ivr_ID : string; ivr_FleetID : string; ivr_TokenHash : string; ivr_ExpiresAt : Z; ivr_CreatedAt : Z
}.
Record InviteToken := { it_ID : string; it_FleetID : string; it_Token : string; it_ExpiresAt : Z }.
Record RegisterRequest := {
  rq_InviteToken : string; rq_PublicKey : string; rq_HardwareFingerprintHash : string
}.
Record ScheduleDefaults := { sd_From : string; sd_Until : string; sd_Timezone : string }.
Record RegisterResult := {
  rgr_NodeID : string; rgr_BootstrapToken : string; rgr_BootstrapTokenExpiresAt : Z;
  rgr_FleetSchedule : option ScheduleDefaults
}.
Record NodeRegistration := {
  nr_InviteTokenHash : string; nr_NodeID : string; nr_KeyID : string; nr_PublicKey : string;
  nr_HardwareFingerprintHash : string; nr_BootstrapTokenID : string; nr_BootstrapTokenHash : string;
  nr_BootstrapTokenExpiresAt : Z; nr_Now : Z
}.
Record RegistrationCreated := {
  rc_NodeID : string; rc_BootstrapTokenExpiresAt : Z; rc_FleetSchedule : option ScheduleDefaults
}.
Record RegistrationConfig := { rgc_InviteTTL : Z; rgc_BootstrapTTL : Z }.

Definition HashToken (token : string) : string := sha256_string token.

(** [randomToken]: the prefix and the encoded random bytes. *)
Definition randomToken (prefix : string) : St DB string := λ db,
  match db_entropy db with
  | [] => (Err (ErrWrap "generate token entropy" (ErrMsg "entropy exhausted")), db)
  | body :: rest => (Ok (prefix +:+ "_" +:+ body), db <| db_entropy := rest |>)
  end.

(** ** Statements *)

(** The check of every [id] column: [^[a-z][a-z0-9]*_[0-9A-HJKMNP-TV-Z]{26}$]. *)
Definition is_lower (a : ascii) : bool := between 97 122 (byte_of a).
Definition is_digit (a : ascii) : bool := between 48 57 (byte_of a).
Definition is_crockford (a : ascii) : bool :=
  let b := byte_of a in
  is_digit a || between 65 72 b || between 74 75 b || between 77 78 b || between 80 84 b || between 86 90 b.
Definition valid_id (id : string) : bool :=
  match split_on "_"%char id with
  | [prefix; body] =>
      match bytes prefix with
      | a :: rest => is_lower a && forallb (λ a, is_lower a || is_digit a) rest
      | [] => false
      end && (length (bytes body) =? 26)%nat && forallb is_crockford (bytes body)
  | _ => false
  end.

(** [^([01][0-9]|2[0-3]):[0-5][0-9]$]. *)
Definition clock_text (s : string) : bool :=
  match bytes s with
  | [h1; h2; c; m1; m2] =>
      bool_decide (c = ":"%char) &&
      ((between 48 49 (byte_of h1) && is_digit h2) || ((byte_of h1 =? 50) && between 48 51 (byte_of h2))) &&
      between 48 53 (byte_of m1) && is_digit m2
  | _ => false
  end.
Definition schedule_check (from until : option string) : bool :=
  match from, until with
  | None, None => true
  | Some f, Some u => clock_text f && clock_text u
  | _, _ => false
  end.

Definition known_node_state (s : string) : bool := match lookup_state s with Some _ => true | None => false end.

Definition insert_organization (orgID name : string) (now : Z) : St DB unit :=
  db ← gets id;
  _ ← constraint (fresh_key (db_organizations db) orgID) "organizations_pkey";
  modify (λ d, d <| db_organizations ::= <[orgID := {| org_name := name; org_created_at := now |}]> |>).

Definition insert_fleet (fleetID : string) (row : FleetRow) : St DB unit :=
  db ← gets id;
  _ ← constraint (valid_id fleetID) "fleets_id_check";
  _ ← constraint (fresh_key (db_fleets db) fleetID) "fleets_pkey";
  modify (λ d, d <| db_fleets ::= <[fleetID := row]> |>).

Definition insert_invite (inviteID : string) (row : InviteRow) : St DB unit :=
  db ← gets id;
  _ ← constraint (fresh_key (db_invite_tokens db) inviteID) "invite_tokens_pkey";
  _ ← constraint (has_key (db_fleets db) (iv_fleet_id row)) "invite_tokens_fleet_id_fkey";
  _ ← constraint (negb (exists_row (λ _ i, String.eqb (iv_token_hash i) (iv_token_hash row)) (db_invite_tokens db)))
        "invite_tokens_token_hash_key";
  modify (λ d, d <| db_invite_tokens ::= <[inviteID := row]> |>).

Definition insert_node (nodeID : string) (row : NodeRow) : St DB unit :=
  db ← gets id;
  _ ← constraint (fresh_key (db_nodes db) nodeID) "nodes_pkey";
  _ ← constraint (schedule_check (n_schedule_from row) (n_schedule_until row)) "nodes_schedule_effective_check";
  modify (λ d, d <| db_nodes ::= <[nodeID := row]> |>).

Definition insert_node_key (keyID : string) (row : NodeKeyRow) : St DB unit :=
  db ← gets id;
  _ ← constraint (fresh_key (db_node_keys db) keyID) "node_keys_pkey";
  _ ← constraint (negb (exists_row (λ _ k, String.eqb (nk_node_id k) (nk_node_id row) &&
                                            String.eqb (nk_public_key k) (nk_public_key row)) (db_node_keys db)))
        "node_keys_node_id_public_key_key";
  modify (λ d, d <| db_node_keys ::= <[keyID := row]> |>).

Definition insert_bootstrap (tokenID : string) (row : BootstrapRow) : St DB unit :=
  db ← gets id;
  _ ← constraint (fresh_key (db_bootstrap_tokens db) tokenID) "node_bootstrap_tokens_pkey";
  _ ← constraint (negb (exists_row (λ _ b, String.eqb (bt_token_hash b) (bt_token_hash row)) (db_bootstrap_tokens db)))
        "node_bootstrap_tokens_token_hash_key";
  modify (λ d, d <| db_bootstrap_tokens ::= <[tokenID := row]> |>).

Definition update_nodes (q : string → NodeRow → bool) (f : NodeRow → NodeRow) : St DB unit :=
  modify (λ d, d <| db_nodes ::= update_where q f |>).
Definition update_sessions (q : string → SessionRow → bool) (f : SessionRow → SessionRow) : St DB unit :=
  modify (λ d, d <| db_node_sessions ::= update_where q f |>).
Definition update_invites (q : string → InviteRow → bool) (f : InviteRow → InviteRow) : St DB unit :=
  modify (λ d, d <| db_invite_tokens ::= update_where q f |>).

(** ** Invites *)

Definition ensureFleet (fleetID : string) (now : Z) : St DB string :=
  db ← gets id;
  match db_fleets db !! fleetID with
  | Some fleet => mret (fl_organization_id fleet)
  | None =>
      organizationID ← ids_New "org";
      _ ← wrap "create default organization for fleet"
            (insert_organization organizationID "Thirdshift Alpha Organization" now);
      _ ← wrap "create fleet" (insert_fleet fleetID {|
            fl_organization_id := organizationID; fl_name := "Thirdshift Alpha Fleet";
            fl_schedule_from := None; fl_schedule_until := None; fl_schedule_timezone := Some "local";
            fl_region := None |});
      mret organizationID
  end.

(** [PGStore.CreateInvite]. *)
Definition pg_CreateInvite (invite : InviteRecord) : St DB unit :=
  transaction (
    _ ← ensureFleet (ivr_FleetID invite) (ivr_CreatedAt invite);
    wrap "insert invite token" (insert_invite (ivr_ID invite) {|
      iv_fleet_id := ivr_FleetID invite; iv_token_hash := ivr_TokenHash invite; iv_status := InvActive;
      iv_expires_at := ivr_ExpiresAt invite; iv_used_at := None; iv_used_by_node_id := None;
      iv_created_at := ivr_CreatedAt invite |})).

Definition CreateInvite (cfg : RegistrationConfig) (fleetID : string) (now : Z) : St DB InviteToken :=
  _ ← guard_err (negb (String.eqb fleetID "")) (ErrMsg "fleet id is required");
  inviteID ← ids_New "inv";
  token ← randomToken "tsinv";
  let expiresAt := now + default_pos (rgc_InviteTTL cfg) (24 * 60 * minute) in
  _ ← pg_CreateInvite {| ivr_ID := inviteID; ivr_FleetID := fleetID; ivr_TokenHash := HashToken token;
                         ivr_ExpiresAt := expiresAt; ivr_CreatedAt := now |};
  mret {| it_ID := inviteID; it_FleetID := fleetID; it_Token := token; it_ExpiresAt := expiresAt |}.

(** ** Registration *)

Definition invite_with (hash : string) (_ : string) (i : InviteRow) : bool := String.eqb (iv_token_hash i) hash.

(** The single row of a query by a unique column, or [pgx.ErrNoRows]. *)
Definition select_one {V} (e : gerror) (rows : list (string * V)) : St DB (string * V) :=
  of_option e (head rows).

Definition fleet_schedule (fleet : FleetRow) : option ScheduleDefaults :=
  match fl_schedule_from fleet, fl_schedule_until fleet with
  | Some from, Some until =>
      let timezone := match fl_schedule_timezone fleet with
                      | Some tz => if String.eqb tz "" then "local" else tz
                      | None => "local"
                      end in
      Some {| sd_From := from; sd_Until := until; sd_Timezone := timezone |}
  | _, _ => None
  end.

(** The node row of a registration. *)
Definition registered_node (r : NodeRegistration) (fleetID : string) (fleet : FleetRow) : NodeRow := {|
  n_organization_id := Some (fl_organization_id fleet); n_fleet_id := Some fleetID; n_state := "OFFLINE";
  n_hardware_fingerprint_hash := nr_HardwareFingerprintHash r; n_current_model_id := None;
  n_quarantined_at := None; n_registered_at := Some (nr_Now r); n_last_seen_at := None;
  n_schedule_from := fl_schedule_from fleet; n_schedule_until := fl_schedule_until fleet;
  n_schedule_source := match fleet_schedule fleet with Some _ => "fleet" | None => "node" end;
  n_region := None;
  n_updated_at := nr_Now r |}.

Definition used_invite (now : Z) (nodeID : string) (i : InviteRow) : InviteRow :=
  i <| iv_status := InvUsed |> <| iv_used_at := Some now |> <| iv_used_by_node_id := Some nodeID |>.

(** [PGStore.RegisterNode]. *)
Definition register_tx (r : NodeRegistration) : St DB RegistrationCreated :=
  db ← gets id;
  found ← select_one ErrInvalidInvite (rows_where (invite_with (nr_InviteTokenHash r)) (db_invite_tokens db));
  let '(inviteID, invite) := found in
  _ ← guard_err (negb (bool_decide (iv_status invite = InvUsed))) ErrInviteUsed;
  _ ← guard_err (bool_decide (iv_status invite = InvActive)) ErrInvalidInvite;
  _ ← (if negb (nr_Now r <? iv_expires_at invite) then
         _ ← update_invites (λ k _, String.eqb k inviteID) (λ i, i <| iv_status := InvExpired |>);
         fail ErrInviteExpired
       else mret tt);
  fleet ← of_option (ErrWrap "select invite fleet" ErrNoRows) (db_fleets db !! iv_fleet_id invite);
  _ ← wrap "insert node" (insert_node (nr_NodeID r) (registered_node r (iv_fleet_id invite) fleet));
  _ ← wrap "insert node key" (insert_node_key (nr_KeyID r) {|
        nk_node_id := nr_NodeID r; nk_public_key := nr_PublicKey r; nk_active := true; nk_created_at := nr_Now r |});
  _ ← wrap "insert bootstrap token" (insert_bootstrap (nr_BootstrapTokenID r) {|
        bt_node_id := nr_NodeID r; bt_token_hash := nr_BootstrapTokenHash r;
        bt_expires_at := nr_BootstrapTokenExpiresAt r; bt_used_at := None; bt_created_at := nr_Now r |});
  _ ← update_invites (λ k _, String.eqb k inviteID) (used_invite (nr_Now r) (nr_NodeID r));
  mret {| rc_NodeID := nr_NodeID r; rc_BootstrapTokenExpiresAt := nr_BootstrapTokenExpiresAt r;
          rc_FleetSchedule := fleet_schedule fleet |}.
Definition pg_RegisterNode (r : NodeRegistration) : St DB RegistrationCreated := transaction (register_tx r).

(** [Service.RegisterNode]. *)
Definition RegisterNode (cfg : RegistrationConfig) (req : RegisterRequest) (now : Z) : St DB RegisterResult :=
  _ ← guard_err (negb (String.eqb (rq_InviteToken req) "")) (ErrMsg "invite token is required");
  _ ← guard_err (negb (String.eqb (rq_PublicKey req) "")) (ErrMsg "public key is required");
  _ ← guard_err (negb (String.eqb (rq_HardwareFingerprintHash req) ""))
        (ErrMsg "hardware fingerprint hash is required");
  nodeID ← ids_New "node";
  keyID ← ids_New "nkey";
  bootstrapID ← ids_New "boot";
  bootstrapToken ← randomToken "tsboot";
  let expiresAt := now + default_pos (rgc_BootstrapTTL cfg) (10 * minute) in
  created ← pg_RegisterNode {|
    nr_InviteTokenHash := HashToken (rq_InviteToken req); nr_NodeID := nodeID; nr_KeyID := keyID;
    nr_PublicKey := rq_PublicKey req; nr_HardwareFingerprintHash := rq_HardwareFingerprintHash req;
    nr_BootstrapTokenID := bootstrapID; nr_BootstrapTokenHash := HashToken bootstrapToken;
    nr_BootstrapTokenExpiresAt := expiresAt; nr_Now := now |};
  mret {| rgr_NodeID := rc_NodeID created; rgr_BootstrapToken := bootstrapToken;
          rgr_BootstrapTokenExpiresAt := rc_BootstrapTokenExpiresAt created;
          rgr_FleetSchedule := rc_FleetSchedule created |}.

(** ** Bootstrap exchange *)

Definition bootstrap_with (nodeID hash : string) (_ : string) (b : BootstrapRow) : bool :=
  String.eqb (bt_node_id b) nodeID && String.eqb (bt_token_hash b) hash.

(** [PGStore.ConsumeBootstrap]. *)
Definition pg_ConsumeBootstrap (nodeID hash : string) (now : Z) : St DB unit :=
  transaction (
    db ← gets id;
    found ← select_one ErrInvalidBootstrap (rows_where (bootstrap_with nodeID hash) (db_bootstrap_tokens db));
    let '(tokenID, token) := found in
    _ ← guard_err (bool_decide (bt_used_at token = None)) ErrBootstrapUsed;
    _ ← guard_err (now <? bt_expires_at token) ErrBootstrapExpired;
    modify (λ d, d <| db_bootstrap_tokens ::= update_where (λ k _, String.eqb k tokenID)
                                               (λ b, b <| bt_used_at := Some now |>) |>)).

Definition ConsumeBootstrap (nodeID bootstrapToken : string) (now : Z) : St DB unit :=
  _ ← guard_err (negb (String.eqb nodeID "")) (ErrMsg "node_id is required");
  _ ← guard_err (negb (String.eqb bootstrapToken "")) (ErrMsg "bootstrap token is required");
  pg_ConsumeBootstrap nodeID (HashToken bootstrapToken) now.

(** ** Sessions and heartbeats *)

Definition OpenSession (nodeID protocolVersion remoteAddr : string) (now : Z) : St DB string :=
  sessionID ← ids_New "sess";
  db ← gets id;
  _ ← wrap "insert node session" (
        _ ← constraint (fresh_key (db_node_sessions db) sessionID) "node_sessions_pkey";
        _ ← constraint (has_key (db_nodes db) nodeID) "node_sessions_node_id_fkey";
        modify (λ d, d <| db_node_sessions ::= <[sessionID := {|
          ss_node_id := nodeID; ss_protocol_version := protocolVersion; ss_remote_addr := remoteAddr;
          ss_state := SsConnected; ss_connected_at := now; ss_last_heartbeat_at := None;
          ss_disconnected_at := None |}]> |>));
  mret sessionID.

Definition null_text (s : string) : option string := if String.eqb s "" then None else Some s.

(** [INSERT INTO node_heartbeats]; an empty schedule or thermal state is a null in a
    column that has none. *)
Definition insert_heartbeat (heartbeatID sessionID : string) (h : NodeHeartbeatPayload) (receivedAt : Z) : St DB unit :=
  db ← gets id;
  _ ← constraint (fresh_key (db_node_heartbeats db) heartbeatID) "node_heartbeats_pkey";
  _ ← constraint (has_key (db_nodes db) (hb_NodeID h)) "node_heartbeats_node_id_fkey";
  _ ← constraint (has_key (db_node_sessions db) sessionID) "node_heartbeats_session_id_fkey";
  _ ← constraint (0 <=? hb_Sequence h) "node_heartbeats_sequence_check";
  _ ← constraint (0 <=? hb_UptimeSeconds h) "node_heartbeats_uptime_seconds_check";
  _ ← constraint (bool_decide (hb_ScheduleState h ∈ ["in_window"; "out_of_window"]))
        "node_heartbeats_schedule_state_check";
  _ ← constraint (bool_decide (hb_ThermalState h ∈ ["normal"; "warm"; "hard_limit"]))
        "node_heartbeats_thermal_state_check";
  modify (λ d, d <| db_node_heartbeats ::= <[heartbeatID := {|
    hr_node_id := hb_NodeID h; hr_session_id := sessionID; hr_sequence := hb_Sequence h;
    hr_state := hb_State h; hr_model_id := null_text (hb_ModelID h);
    hr_runtime_hash := null_text (hb_RuntimeHash h); hr_model_hash := null_text (hb_ModelHash h);
    hr_gpu := hb_GPU h; hr_active_job_id := hb_ActiveJobID h; hr_schedule_state := hb_ScheduleState h;
    hr_thermal_state := hb_ThermalState h; hr_paused := hb_Paused h; hr_draining := hb_Draining h;
    hr_uptime_seconds := hb_UptimeSeconds h; hr_received_at := receivedAt; hr_sent_at := hb_Timestamp h |}]> |>).

(** [UPDATE nodes SET state = ... WHERE id = $1], with the check on the state column. *)
Definition report_state (nodeID state : string) (f : NodeRow → NodeRow) : St DB unit :=
  db ← gets id;
  _ ← constraint (negb (has_key (db_nodes db) nodeID) || known_node_state state) "nodes_state_check";
  update_nodes (λ k _, String.eqb k nodeID) (λ n, f (n <| n_state := state |>)).

Definition RecordHeartbeat (sessionID : string) (h : NodeHeartbeatPayload) (receivedAt : Z) : St DB unit :=
  heartbeatID ← ids_New "hb";
  transaction (
    _ ← wrap "insert heartbeat" (insert_heartbeat heartbeatID sessionID h receivedAt);
    _ ← wrap "update node heartbeat state" (report_state (hb_NodeID h) (hb_State h)
          (λ n, n <| n_current_model_id := null_text (hb_ModelID h) |> <| n_last_seen_at := Some receivedAt |>
                  <| n_updated_at := receivedAt |>));
    update_sessions (λ k _, String.eqb k sessionID) (λ s, s <| ss_last_heartbeat_at := Some receivedAt |>)).

Definition RecordStateChanged (p : NodeStateChangedPayload) (receivedAt : Z) : St DB unit :=
  wrap "record state change" (report_state (sc_NodeID p) (sc_State p)
    (λ n, n <| n_last_seen_at := Some receivedAt |> <| n_updated_at := receivedAt |>)).

Definition RecordSafetyEvent (event : NodeSafetyEventPayload) (receivedAt : Z) : St DB unit :=
  eventID ← ids_New "sec";
  db ← gets id;
  wrap "insert safety event" (
    _ ← constraint (fresh_key (db_security_events db) eventID) "security_events_pkey";
    _ ← constraint (bool_decide (se_Severity event ∈ ["info"; "warning"; "critical"])) "security_events_severity_check";
    _ ← constraint (has_key (db_nodes db) (se_NodeID event)) "security_events_node_id_fkey";
    modify (λ d, d <| db_security_events ::= <[eventID := {|
      se_row_severity := se_Severity event; se_row_event_type := se_EventCode event;
      se_row_node_id := se_NodeID event; se_row_metadata := event; se_row_created_at := receivedAt |}]> |>)).

Definition offline_node (now : Z) (n : NodeRow) : NodeRow := n <| n_state := "OFFLINE" |> <| n_updated_at := now |>.
Definition ended_session (st : SessionState) (now : Z) (s : SessionRow) : SessionRow :=
  s <| ss_state := st |> <| ss_disconnected_at := Some now |>.

Definition CloseSession (sessionID nodeID : string) (now : Z) : St DB unit :=
  transaction (
    _ ← update_nodes (λ k _, String.eqb k nodeID) (offline_node now);
    update_sessions (λ k s, String.eqb k sessionID && bool_decide (ss_state s = SsConnected))
      (ended_session SsClosed now)).

(** The rows of the [stale_sessions] expression. *)
Definition stale_session (cutoff : Z) (_ : string) (s : SessionRow) : bool :=
  bool_decide (ss_state s = SsConnected) && (default (ss_connected_at s) (ss_last_heartbeat_at s) <? cutoff).

Definition MarkStale (cutoff now : Z) : St DB Z :=
  sessions ← gets db_node_sessions;
  nodes ← gets db_nodes;
  let stale := (λ s, ss_node_id s.2) <$> rows_where (stale_session cutoff) sessions in
  let hit := λ k (_ : NodeRow), bool_decide (k ∈ stale) in
  _ ← update_sessions (stale_session cutoff) (ended_session SsStale now);
  _ ← update_nodes hit (offline_node now);
  mret (Z.of_nat (length (rows_where hit nodes))).

(** [Sweeper.RunOnce]. *)
Definition RunOnce (staleAfter now : Z) : St DB Z := MarkStale (now - default_pos staleAfter (45 * second)) now.

(** ** Queries *)

(** [PGStore.PublicKeyForNode] of the registration store. *)
Definition node_public_key (nodeID : string) : St DB string :=
  db ← gets id;
  of_option (ErrMsg "node key not found") ((λ k, nk_public_key (snd k)) <$> latest nk_created_at
    (rows_where (λ _ k, String.eqb (nk_node_id k) nodeID && nk_active k) (db_node_keys db))).

Record NodeSummary := {
  nsm_ID : string; nsm_State : string; nsm_CurrentModelID : string; nsm_LastSeenAt : option Z;
  nsm_SessionStatus : option SessionState; nsm_LastHeartbeatAt : option Z; nsm_ScheduleState : string;
  nsm_ThermalState : string; nsm_Paused : bool; nsm_Draining : bool
}.

Definition node_summary (db : DB) (kn : string * NodeRow) : NodeSummary :=
  let session := snd <$> latest ss_connected_at (rows_where (λ _ s, String.eqb (ss_node_id s) kn.1) (db_node_sessions db)) in
  let heartbeat := snd <$> latest hr_received_at (rows_where (λ _ h, String.eqb (hr_node_id h) kn.1) (db_node_heartbeats db)) in
  {| nsm_ID := kn.1; nsm_State := n_state kn.2; nsm_CurrentModelID := default "" (n_current_model_id kn.2);
     nsm_LastSeenAt := n_last_seen_at kn.2; nsm_SessionStatus := ss_state <$> session;
     nsm_LastHeartbeatAt := session ≫= ss_last_heartbeat_at;
     nsm_ScheduleState := default "" (hr_schedule_state <$> heartbeat);
     nsm_ThermalState := default "" (hr_thermal_state <$> heartbeat);
     nsm_Paused := default false (hr_paused <$> heartbeat);
     nsm_Draining := default false (hr_draining <$> heartbeat) |}.

Definition by_node_id (a b : string * NodeRow) : bool := string_ltb a.1 b.1.

Definition ListNodes : St DB (list NodeSummary) :=
  db ← gets id;
  mret (node_summary db <$> order_by by_node_id (map_to_list (db_nodes db))).
