(* ===== verification/Ids.v ===== *)
(** * Identifiers

    [internal/shared/ids/ids.go]: a prefix, an underscore and 26 Crockford base-32
    digits, of which the first ten carry the creation time in milliseconds and the rest
    80 random bits. The digits are produced from two 64-bit words by shifting, as in the
    code; the theorems relate them to the number they stand for. *)
From stdpp Require Import base gmap strings list.
From Stdlib Require Import ZArith Lia Ascii.
From S2P Require Import Prelude GoStrings Encoding Database Registration.

(** ** The encoder *)

Definition alphabet : list ascii := bytes "0123456789ABCDEFGHJKMNPQRSTVWXYZ".
Definition crockford (d : Z) : ascii := default "0"%char (alphabet !! Z.to_nat d).

(** [binary.BigEndian.Uint64]. *)
Definition be_value (l : list Z) : Z := foldl (λ acc b, acc * 256 + b) 0 l.

(** The loop of [encodeCrockford128], last digit first: [lo] takes five bits of [hi]. *)
Fixpoint crockford_loop (n : nat) (hi lo : Z) : list ascii :=
  match n with
  | O => []
  | S n' => crockford (Z.land lo 31)
            :: crockford_loop n' (Z.shiftr hi 5) (Z.lor (Z.shiftr lo 5) (Z.shiftl (Z.land hi 31) 59))
  end.

Definition encodeCrockford128 (data : list Z) : string :=
  of_bytes (rev (crockford_loop 26 (be_value (take 8 data)) (be_value (drop 8 data)))).

(** [byte(ms >> 40)], ... [byte(ms)]. *)
Definition time_bytes (ms : Z) : list Z :=
  (λ k, Z.shiftr ms k mod 256) <$> [40; 32; 24; 16; 8; 0].

(** [uint64(t.UnixMilli())]. *)
Definition unix_milli (t : Z) : Z := (t / millisecond) mod 2 ^ 64.

Definition encodeULIDTimeEntropy (t : Z) (entropy : list Z) : string :=
  encodeCrockford128 (time_bytes (unix_milli t) ++ entropy).

(** The prefix is scanned by runes; a byte of a longer rune is none of the allowed ones. *)
Definition validatePrefix (prefix : string) : result unit :=
  match bytes prefix with
  | [] => Err (ErrMsg "id prefix is required")
  | a :: rest =>
      if is_lower a && forallb (λ a, is_lower a || is_digit a) rest then Ok tt
      else Err (ErrMsg ("invalid id prefix " +:+ prefix))
  end.

(** [NewAt], with what [rand.Read] returned. *)
Definition NewAt (prefix : string) (t : Z) (entropy : result (list Z)) : result string :=
  match validatePrefix prefix with
  | Err e => Err e
  | Ok _ =>
      match entropy with
      | Err e => Err (ErrWrap "read random entropy" e)
      | Ok bytes => Ok (prefix +:+ "_" +:+ encodeULIDTimeEntropy t bytes)
      end
  end.

Definition HasPrefix (id prefix : string) : bool := has_prefix id (prefix +:+ "_").

(** ** Base-32 digits *)

(** The reference encoding: the [n] lowest base-32 digits of [v], last one first. *)
Fixpoint digits32 (n : nat) (v : Z) : list Z :=
  match n with O => [] | S n' => v mod 32 :: digits32 n' (v / 32) end.

(** Two numbers whose bits do not overlap. *)
Lemma lor_disjoint a b k : 0 ≤ k → 0 ≤ a < 2 ^ k → Z.lor a (Z.shiftl b k) = a + b * 2 ^ k.
Proof.
  intros Hk Ha. rewrite Z.shiftl_mul_pow2 by lia.
  assert (Hand : Z.land a (b * 2 ^ k) = 0).
  { apply Z.bits_inj'. intros i Hi. rewrite Z.land_spec, Z.bits_0.
    destruct (decide (i < k)) as [Hlt|Hge].
    - rewrite Z.mul_pow2_bits_low by lia. apply andb_false_r.
    - destruct (decide (a = 0)) as [->|]; [by rewrite Z.bits_0|].
      rewrite (Z.bits_above_log2 a i), andb_false_l; [done|lia|].
      apply Z.log2_lt_pow2; [lia|]. apply Z.lt_le_trans with (2 ^ k); [lia|]. apply Z.pow_le_mono_r; lia. }
  rewrite <-Z.lxor_lor by done. symmetry. by apply Z.add_nocarry_lxor.
Qed.

Lemma land_31 x : Z.land x 31 = x mod 32.
Proof. exact (Z.land_ones x 5 ltac:(lia)). Qed.

Lemma shift_step hi lo :
  0 ≤ hi → 0 ≤ lo < 2 ^ 64 →
  let lo' := Z.lor (Z.shiftr lo 5) (Z.shiftl (Z.land hi 31) 59) in
  let hi' := Z.shiftr hi 5 in
  0 ≤ lo' < 2 ^ 64 ∧ 0 ≤ hi' ∧ hi' * 2 ^ 64 + lo' = (hi * 2 ^ 64 + lo) / 32.
Proof.
  intros Hhi Hlo lo' hi'.
  assert (Hl : lo' = lo / 32 + hi mod 32 * 2 ^ 59).
  { unfold lo'. rewrite land_31, lor_disjoint; rewrite ?Z.shiftr_div_pow2 by lia; [done|lia|].
    change (2 ^ 5) with 32. split; [apply Z.div_pos; lia|]. apply Z.div_lt_upper_bound; lia. }
  assert (Hh : hi' = hi / 32) by (unfold hi'; by rewrite Z.shiftr_div_pow2).
  pose proof (Z.div_mod hi 32 ltac:(lia)). pose proof (Z.mod_pos_bound hi 32 ltac:(lia)).
  pose proof (Z.div_mod lo 32 ltac:(lia)). pose proof (Z.mod_pos_bound lo 32 ltac:(lia)).
  rewrite Hl, Hh. split; [lia|]. split; [lia|].
  apply (Z.div_unique _ _ _ (lo mod 32)); [lia|]. lia.
Qed.

(** The shifting loop computes the digits of the 128-bit number. *)
Lemma crockford_loop_digits n hi lo :
  0 ≤ hi → 0 ≤ lo < 2 ^ 64 → crockford_loop n hi lo = crockford <$> digits32 n (hi * 2 ^ 64 + lo).
Proof.
  revert hi lo. induction n as [|n IH]; intros hi lo Hhi Hlo; [done|].
  destruct (shift_step hi lo Hhi Hlo) as (Hl & Hh & Hv). cbn [crockford_loop digits32 fmap list_fmap].
  rewrite IH, Hv by done. f_equal. f_equal. rewrite land_31.
  replace (hi * 2 ^ 64 + lo) with (lo + hi * 2 ^ 59 * 32) by lia. by rewrite Z.mod_add.
Qed.

Lemma length_digits32 n v : length (digits32 n v) = n.
Proof. revert v. induction n; intros; simpl; auto. Qed.

Lemma digits32_bound n v : Forall (λ d, 0 ≤ d < 32) (digits32 n v).
Proof. revert v. induction n; intros; simpl; constructor; auto. apply Z.mod_pos_bound. lia. Qed.

Lemma be_value_app l1 l2 : be_value (l1 ++ l2) = be_value l1 * 256 ^ Z.of_nat (length l2) + be_value l2.
Proof.
  unfold be_value. rewrite foldl_app. generalize (foldl (λ acc b, acc * 256 + b) 0 l1). intros a.
  induction l2 as [|b l2 IH] using rev_ind; [simpl; lia|].
  rewrite !foldl_snoc, IH, length_app, Nat2Z.inj_add, Z.pow_add_r by lia. simpl. lia.
Qed.

Lemma be_value_bound l : Forall is_byte l → 0 ≤ be_value l < 256 ^ Z.of_nat (length l).
Proof.
  induction l as [|b l IH] using rev_ind; [done|]. rewrite Forall_app, Forall_singleton.
  intros [Hl Hb]. specialize (IH Hl). rewrite be_value_app, length_app, Nat2Z.inj_add, Z.pow_add_r by lia.
  change (be_value [b]) with (0 * 256 + b). simpl (length [b]). unfold is_byte in Hb. nia.
Qed.

(** The encoding of 16 bytes is the 26 base-32 digits of the number they are. *)
Lemma encodeCrockford128_digits data :
  length data = 16%nat → Forall is_byte data →
  encodeCrockford128 data = of_bytes (crockford <$> rev (digits32 26 (be_value data))).
Proof.
  intros Hlen Hb. unfold encodeCrockford128. f_equal. etransitivity; [|symmetry; apply map_rev]. f_equal.
  rewrite <-(take_drop 8 data) at 3.
  pose proof (be_value_bound (take 8 data) (Forall_take _ _ _ Hb)) as Hhi.
  pose proof (be_value_bound (drop 8 data) (Forall_drop _ _ _ Hb)) as Hlo.
  rewrite length_drop, Hlen in Hlo. change (256 ^ Z.of_nat (16 - 8)) with (2 ^ 64) in Hlo.
  rewrite crockford_loop_digits by lia. rewrite be_value_app, length_drop, Hlen. done.
Qed.

(** ** Digits as text *)

(** The number of a list of base-32 digits, first one highest. *)
Fixpoint horner (l : list Z) : Z :=
  match l with [] => 0 | d :: l' => d * 32 ^ Z.of_nat (length l') + horner l' end.

Lemma horner_app l1 l2 : horner (l1 ++ l2) = horner l1 * 32 ^ Z.of_nat (length l2) + horner l2.
Proof.
  induction l1 as [|d l1 IH]; [done|]. simpl. rewrite IH, length_app, Nat2Z.inj_add, Z.pow_add_r by lia. lia.
Qed.

Lemma horner_digits n v : horner (rev (digits32 n v)) = v mod 32 ^ Z.of_nat n.
Proof.
  revert v. induction n as [|n IH]; intros v; [simpl; by rewrite Z.mod_1_r|].
  cbn [digits32 rev]. rewrite horner_app, IH, Nat2Z.inj_succ, Z.pow_succ_r by lia. simpl.
  rewrite (Z.rem_mul_r v 32) by lia. lia.
Qed.

Lemma horner_bound l : Forall (λ d, 0 ≤ d < 32) l → 0 ≤ horner l < 32 ^ Z.of_nat (length l).
Proof.
  induction 1 as [|d l Hd _ IH]; [simpl; lia|]. cbn [horner length]. rewrite Nat2Z.inj_succ, Z.pow_succ_r by lia. nia.
Qed.

(** The alphabet is in the order of its bytes. *)
Lemma crockford_compare d1 d2 :
  0 ≤ d1 < 32 → 0 ≤ d2 < 32 → Ascii.compare (crockford d1) (crockford d2) = (d1 ?= d2).
Proof.
  intros H1 H2.
  assert (Hall : forallb (λ a, forallb (λ b,
    bool_decide (Ascii.compare (crockford (Z.of_nat a)) (crockford (Z.of_nat b)) = (Z.of_nat a ?= Z.of_nat b)))
    (seq 0 32)) (seq 0 32) = true) by (by vm_compute).
  rewrite forallb_forall in Hall. specialize (Hall (Z.to_nat d1)). rewrite in_seq in Hall.
  specialize (Hall ltac:(lia)). rewrite forallb_forall in Hall. specialize (Hall (Z.to_nat d2)).
  rewrite in_seq in Hall. specialize (Hall ltac:(lia)). apply bool_decide_eq_true in Hall.
  by rewrite !Z2Nat.id in Hall by lia.
Qed.

Lemma crockford_valid d : 0 ≤ d < 32 → is_crockford (crockford d) = true ∧ crockford d ≠ "_"%char.
Proof.
  intros H. assert (Hall : forallb (λ a, is_crockford (crockford (Z.of_nat a)) &&
    bool_decide (crockford (Z.of_nat a) ≠ "_"%char)) (seq 0 32) = true) by (by vm_compute).
  rewrite forallb_forall in Hall. specialize (Hall (Z.to_nat d)). rewrite in_seq in Hall.
  specialize (Hall ltac:(lia)). rewrite Z2Nat.id in Hall by lia.
  apply andb_true_iff in Hall as [H1 H2%bool_decide_eq_true]. done.
Qed.

Lemma compare_digits l1 l2 :
  length l1 = length l2 → Forall (λ d, 0 ≤ d < 32) l1 → Forall (λ d, 0 ≤ d < 32) l2 →
  String.compare (of_bytes (crockford <$> l1)) (of_bytes (crockford <$> l2)) = (horner l1 ?= horner l2).
Proof.
  revert l2. induction l1 as [|d1 l1 IH]; intros [|d2 l2] Hlen H1 H2; try done.
  apply Forall_cons in H1 as [Hd1 H1]. apply Forall_cons in H2 as [Hd2 H2]. injection Hlen as Hlen.
  cbn [fmap list_fmap of_bytes String.compare horner]. rewrite crockford_compare, (IH l2), Hlen by done.
  pose proof (horner_bound _ H1) as B1. pose proof (horner_bound _ H2) as B2. rewrite Hlen in B1.
  set (p := 32 ^ Z.of_nat (length l2)) in *.
  destruct (Z.compare_spec d1 d2) as [->|Hlt|Hgt]; symmetry.
  - destruct (Z.compare_spec (horner l1) (horner l2)) as [->|?|?];
      [apply Z.compare_refl|apply Z.compare_lt_iff; lia|apply Z.compare_gt_iff; lia].
  - apply Z.compare_lt_iff. nia.
  - apply Z.compare_gt_iff. nia.
Qed.

Lemma compare_prefix p a b : String.compare (p +:+ a) (p +:+ b) = String.compare a b.
Proof.
  induction p as [|c p IH]; [done|]. simpl. unfold Ascii.compare at 1. by rewrite N.compare_refl.
Qed.

(** ** What an identifier says *)

Lemma time_bytes_spec ms : Forall is_byte (time_bytes ms) ∧ be_value (time_bytes ms) = ms mod 2 ^ 48.
Proof.
  split.
  - unfold time_bytes. apply Forall_fmap, Forall_forall. intros k _. apply Z.mod_pos_bound. lia.
  - unfold time_bytes, be_value. cbn [fmap list_fmap foldl]. rewrite !Z.shiftr_div_pow2 by lia.
    rewrite !Z.mod_eq by lia. rewrite !Z.div_div by lia. change (ms / 2 ^ 0) with (ms / 1). rewrite Z.div_1_r.
    change (2 ^ 40 * 256) with (2 ^ 48). change (2 ^ 32 * 256) with (2 ^ 40). change (2 ^ 24 * 256) with (2 ^ 32).
    change (2 ^ 16 * 256) with (2 ^ 24). change (2 ^ 8 * 256) with (2 ^ 16). change (2 ^ 0 * 256) with (2 ^ 8). lia.
Qed.

(** The 128-bit number of an identifier. *)
Definition ulid_value (t : Z) (entropy : list Z) : Z := unix_milli t mod 2 ^ 48 * 2 ^ 80 + be_value entropy.

Definition entropy_ok (entropy : list Z) : Prop := length entropy = 10%nat ∧ Forall is_byte entropy.

Lemma ulid_digits t entropy :
  entropy_ok entropy →
  encodeULIDTimeEntropy t entropy = of_bytes (crockford <$> rev (digits32 26 (ulid_value t entropy))) ∧
  0 ≤ be_value entropy < 2 ^ 80 ∧ 0 ≤ ulid_value t entropy < 2 ^ 128.
Proof.
  intros [Hlen Hb]. destruct (time_bytes_spec (unix_milli t)) as [Ht Hv].
  pose proof (be_value_bound entropy Hb) as He. rewrite Hlen in He. change (256 ^ Z.of_nat 10) with (2 ^ 80) in He.
  pose proof (Z.mod_pos_bound (unix_milli t) (2 ^ 48) ltac:(lia)) as Hm.
  unfold encodeULIDTimeEntropy. rewrite encodeCrockford128_digits.
  - unfold ulid_value. rewrite be_value_app, Hv, Hlen. split; [done|]. split; [done|].
    change (2 ^ 128) with (2 ^ 48 * 2 ^ 80). nia.
  - rewrite length_app, Hlen. done.
  - by apply Forall_app.
Qed.

Lemma Forall_rev_digits n v : Forall (λ d, 0 ≤ d < 32) (rev (digits32 n v)).
Proof. apply Forall_rev, digits32_bound. Qed.

(** Text order of two encodings is the order of the numbers. *)
Lemma ulid_compare t1 e1 t2 e2 :
  entropy_ok e1 → entropy_ok e2 →
  String.compare (encodeULIDTimeEntropy t1 e1) (encodeULIDTimeEntropy t2 e2) = (ulid_value t1 e1 ?= ulid_value t2 e2).
Proof.
  intros H1 H2. destruct (ulid_digits t1 e1 H1) as (-> & _ & B1). destruct (ulid_digits t2 e2 H2) as (-> & _ & B2).
  rewrite compare_digits; [|by rewrite !length_rev, !length_digits32|apply Forall_rev_digits..].
  rewrite !horner_digits. change (32 ^ Z.of_nat 26) with (2 ^ 130).
  by rewrite !Z.mod_small by lia.
Qed.

Lemma validatePrefix_ok p :
  is_ok (validatePrefix p) = true ↔
  ∃ a rest, bytes p = a :: rest ∧ is_lower a = true ∧ forallb (λ a, is_lower a || is_digit a) rest = true.
Proof.
  unfold validatePrefix. destruct (bytes p) as [|a rest]; [naive_solver|].
  destruct (is_lower a) eqn:Ea, (forallb _ rest) eqn:Er; simpl; naive_solver.
Qed.

Lemma prefix_no_underscore p : is_ok (validatePrefix p) = true → "_"%char ∉ bytes p.
Proof.
  intros (a & rest & -> & Ha & Hr)%validatePrefix_ok. rewrite not_elem_of_cons. split.
  - intros <-. by vm_compute in Ha.
  - rewrite forallb_forall in Hr. intros Hin%list_elem_of_In. specialize (Hr _ Hin). by vm_compute in Hr.
Qed.

(** Every identifier the program makes passes the check of the [id] columns: with a legal
    prefix and ten random bytes, [NewAt] succeeds, whatever the clock says, and its text
    matches the schema's pattern and carries the prefix. With an illegal prefix, or
    without entropy, it fails. *)
Theorem new_id_valid prefix t entropy :
  entropy_ok entropy →
  match NewAt prefix t (Ok entropy) with
  | Ok id => is_ok (validatePrefix prefix) = true ∧ valid_id id = true ∧ HasPrefix id prefix = true
  | Err _ => is_ok (validatePrefix prefix) = false
  end.
Proof.
  intros He. unfold NewAt. destruct (validatePrefix prefix) as [[]|e] eqn:E; [|done].
  assert (Hok : is_ok (validatePrefix prefix) = true) by (by rewrite E). split; [done|].
  destruct (ulid_digits t entropy He) as (Henc & _ & _).
  assert (Hbody : bytes (encodeULIDTimeEntropy t entropy) = crockford <$> rev (digits32 26 (ulid_value t entropy)))
    by (by rewrite Henc, bytes_of_bytes).
  assert (Hd : Forall (λ a, is_crockford a = true ∧ a ≠ "_"%char) (bytes (encodeULIDTimeEntropy t entropy))).
  { rewrite Hbody. apply Forall_fmap. eapply Forall_impl; [apply Forall_rev_digits|]. intros d. apply crockford_valid. }
  split.
  - unfold valid_id. change ("_" +:+ encodeULIDTimeEntropy t entropy) with
      (String "_"%char (encodeULIDTimeEntropy t entropy)). rewrite split_on_app by (by apply prefix_no_underscore).
    rewrite split_on_none.
    2: { intros Hin. rewrite Forall_forall in Hd. by destruct (Hd _ Hin). }
    apply validatePrefix_ok in Hok as (a & rest & -> & -> & ->).
    rewrite Hbody at 1. rewrite length_fmap, length_rev, length_digits32, Nat.eqb_refl.
    rewrite andb_true_r, andb_true_l.
    apply forallb_forall. intros x Hx%list_elem_of_In. rewrite Forall_forall in Hd. by apply Hd.
  - unfold HasPrefix. rewrite <-(of_bytes_bytes (prefix +:+ "_" +:+ _)), !bytes_app.
    rewrite (app_assoc _ _ (bytes (encodeULIDTimeEntropy _ _))), <-!bytes_app, of_bytes_bytes. apply has_prefix_app.
Qed.

(** Identifiers sort by the time they were made: of two with the same prefix, made at
    non-negative times before the year 10889, the one with the earlier millisecond is
    the smaller text; within a millisecond the random bits decide, and equal texts
    carry the same millisecond and the same bits. *)
Theorem new_id_order prefix t1 e1 t2 e2 id1 id2 :
  entropy_ok e1 → entropy_ok e2 → 0 ≤ t1 / millisecond < 2 ^ 48 → 0 ≤ t2 / millisecond < 2 ^ 48 →
  NewAt prefix t1 (Ok e1) = Ok id1 → NewAt prefix t2 (Ok e2) = Ok id2 →
  (string_ltb id1 id2 = true ↔ t1 / millisecond < t2 / millisecond ∨
     t1 / millisecond = t2 / millisecond ∧ be_value e1 < be_value e2) ∧
  (id1 = id2 ↔ t1 / millisecond = t2 / millisecond ∧ be_value e1 = be_value e2).
Proof.
  intros H1 H2 Ht1 Ht2 Hid1 Hid2. unfold NewAt in *.
  destruct (validatePrefix prefix); [|done]. simplify_eq.
  destruct (ulid_digits t1 e1 H1) as (_ & B1 & _). destruct (ulid_digits t2 e2 H2) as (_ & B2 & _).
  pose proof (ulid_compare t1 e1 t2 e2 H1 H2) as Hc.
  assert (Hv : ∀ t, 0 ≤ t / millisecond < 2 ^ 48 → unix_milli t mod 2 ^ 48 = t / millisecond).
  { intros t Ht. unfold unix_milli. rewrite (Z.mod_small (t / millisecond)) by lia. apply Z.mod_small. lia. }
  unfold ulid_value in Hc. rewrite !Hv in Hc by done. rewrite string_ltb_lt, !compare_prefix, Hc, Z.compare_lt_iff.
  split; [nia|].
  assert (Heq : ∀ x y, x = y ↔ String.compare x y = Eq).
  { intros x y. split; [intros ->|apply String.compare_eq_iff].
    pose proof (compare_prefix y "" "") as Hr. rewrite <-(of_bytes_bytes (y +:+ "")), bytes_app, app_nil_r, of_bytes_bytes in Hr.
    exact Hr. }
  rewrite Heq, !compare_prefix, Hc, Z.compare_eq_iff. nia.
Qed.

(** ** Witnesses *)

Definition sample_bytes : list Z := [1; 2; 3; 4; 5; 6; 7; 8; 9; 10].
Lemma sample_bytes_ok : entropy_ok sample_bytes.
Proof. split; [done|]. repeat constructor; unfold is_byte; lia. Qed.

Lemma new_id_valid_witness :
  ∃ id, NewAt "job" (1700000000 * second) (Ok sample_bytes) = Ok id ∧ valid_id id = true.
Proof.
  pose proof (new_id_valid "job" (1700000000 * second) sample_bytes sample_bytes_ok) as H.
  assert (E : NewAt "job" (1700000000 * second) (Ok sample_bytes) =
    Ok ("job" +:+ "_" +:+ encodeULIDTimeEntropy (1700000000 * second) sample_bytes)) by reflexivity.
  rewrite E in H. eexists. split; [exact E|apply H].
Defined.

Lemma new_id_order_witness :
  ∃ id1 id2, NewAt "job" second (Ok sample_bytes) = Ok id1 ∧ NewAt "job" (2 * second) (Ok sample_bytes) = Ok id2 ∧
    string_ltb id1 id2 = true ∧ id1 ≠ id2.
Proof.
  eexists _, _. split; [reflexivity|]. split; [reflexivity|].
  destruct (new_id_order "job" second sample_bytes (2 * second) sample_bytes _ _ sample_bytes_ok sample_bytes_ok
    ltac:(by vm_compute) ltac:(by vm_compute) eq_refl eq_refl) as [Hlt Heq].
  split.
  - apply Hlt. left. by vm_compute.
  - intros [Hm _]%Heq. by vm_compute in Hm.
Defined.
