(* ===== verification/Ledger.v ===== *)
(** * The ledger

    [internal/coordinator/ledger/store.go]: double-entry postings for accepted jobs and
    verification overhead, release of held host credit, reversal, payout batches
    (create, export, confirm, void) and the economics report, over the tables of
    [Database]. Amounts are [int64] microdollars with Go's wrap-around. *)
From stdpp Require Import base gmap strings list sorting.
From Stdlib Require Import ZArith Lia Ascii.
From S2P Require Import Prelude GoStrings Sha256 Protocol Requests Database.

Definition CurrencyUSDMicro := "USD_MICRO".

Definition AccountCustomerUsage := "customer_usage_charge".
Definition AccountHostPendingCredit := "host_pending_credit".
Definition AccountHostAvailableCredit := "host_available_credit".
Definition AccountPlatformMargin := "platform_margin".
Definition AccountPlatformVerification := "platform_verification_overhead".
Definition AccountPlatformPayoutCash := "platform_payout_cash".
Definition AccountPlatformFailed := "platform_failed_attempt_overhead".

Definition TransactionJobAcceptance := "job_acceptance".
Definition TransactionHostCreditRelease := "host_credit_release".
Definition TransactionHostPayout := "host_payout".
Definition TransactionLedgerReversal := "ledger_reversal".
Definition TransactionVerificationCost := "verification_overhead".
Definition TransactionFailedAttemptCost := "failed_attempt_overhead".
Definition DefaultPlatformLedgerOwnerID := "platform_thirdshift".
Definition DefaultPayoutMemoPrefix := "Thirdshift host payout".
Definition DefaultCreditHold : Z := 24 * hour.

Definition ErrDuplicatePosting : gerror := ErrMsg "ledger posting already exists".
Definition ErrNoAvailableCredit : gerror := ErrMsg "no available host credit".

Record AcceptedJobPosting := {
  ap_JobID : string;
  ap_AttemptID : string;
  ap_ReceivedAt : Z;
  ap_CreditHold : Z;
  ap_PromptTokens : Z;
  ap_CompletionTokens : Z;
  ap_CoordinatorDurationMillis : Z;
  ap_VerificationOverheadMicrodollars : Z
}.

Record VerificationOverheadPosting := {
  vp_JobID : string;
  vp_AttemptID : string;
  vp_ReceivedAt : Z;
  vp_CreditHold : Z;
  vp_CompletionTokens : Z;
  vp_CoordinatorDurationMillis : Z
}.

Record AcceptedJobLedger := {
  al_TransactionID : string;
  al_CreditHoldID : string;
  al_CustomerCharge : Z;
  al_HostCredit : Z;
  al_PlatformMargin : Z;
  al_PriceVersion : string;
  al_AvailableAt : Z;
  al_CoordinatorDurationMS : Z
}.

Record PayoutBatch := {
  po_ID : string;
  po_Status : BatchStatus;
  po_TotalMicrodollars : Z;
  po_ItemCount : Z;
  po_TransactionID : string;
  po_ExportedCSVChecksum : string
}.
#[export] Instance PayoutBatch_eta : Eta PayoutBatch := λ r,
  {| po_ID := po_ID r; po_Status := po_Status r; po_TotalMicrodollars := po_TotalMicrodollars r;
     po_ItemCount := po_ItemCount r; po_TransactionID := po_TransactionID r;
     po_ExportedCSVChecksum := po_ExportedCSVChecksum r |}.

Record EconomicsReport := {
  er_CustomerRevenueMicrodollars : Z;
  er_HostCreditsMicrodollars : Z;
  er_VerificationOverheadMicrodollars : Z;
  er_FailedAttemptOverheadMicrodollars : Z;
  er_ContributionMarginMicrodollars : Z
}.

(** ** Charges *)

Definition chargeForTokens (tokens perMillionMicrodollars : Z) : Z :=
  if (tokens <=? 0) || (perMillionMicrodollars <=? 0) then 0
  else Z.quot (wrap64 (wrap64 (tokens * perMillionMicrodollars) + 500000)) 1000000.

Definition firstNonEmpty (values : list string) : string :=
  default "" (head (filter (λ v, v ≠ "") values)).

(** ** Accounts and entries *)

Definition account_matches (ownerType ownerID accountType currency : string) (_ : string)
    (a : AccountRow) : bool :=
  String.eqb (ac_owner_type a) ownerType && String.eqb (ac_owner_id a) ownerID &&
  String.eqb (ac_account_type a) accountType && String.eqb (ac_currency a) currency.

(** [INSERT ... ON CONFLICT (owner_type, owner_id, account_type, currency) DO UPDATE]. *)
Definition ensureAccount (ownerType ownerID accountType : string) : St DB string :=
  accountID ← ids_New "acct";
  accounts ← gets db_ledger_accounts;
  match rows_where (account_matches ownerType ownerID accountType CurrencyUSDMicro) accounts with
  | (actual, a) :: _ =>
      _ ← modify (λ db, db <| db_ledger_accounts ::= <[actual := a <| ac_status := "active" |>]> |>);
      mret actual
  | [] =>
      _ ← wrap "ensure ledger account" (constraint (fresh_key accounts accountID) "ledger_accounts_pkey");
      _ ← modify (λ db, db <| db_ledger_accounts ::= <[accountID := {|
            ac_owner_type := ownerType; ac_owner_id := ownerID; ac_account_type := accountType;
            ac_currency := CurrencyUSDMicro; ac_status := "active" |}]> |>);
      mret accountID
  end.

(** [INSERT INTO ledger_entries], with its foreign keys and the trigger that refuses
    entries on a posted transaction. *)
Definition insert_entry_row (entryID : string) (row : LedgerEntryRow) : St DB unit :=
  db ← gets id;
  _ ← constraint (fresh_key (db_ledger_entries db) entryID) "ledger_entries_pkey";
  _ ← constraint (has_key (db_ledger_accounts db) (le_account_id row)) "ledger_entries_account_id_fkey";
  match db_ledger_transactions db !! le_transaction_id row with
  | None => fail (ErrConstraint "ledger_entries_transaction_id_fkey")
  | Some lt =>
      _ ← guard_err (negb (bool_decide (lt_status lt = LtPosted)))
            (ErrConstraint "posted ledger entries are immutable");
      modify (λ db, db <| db_ledger_entries ::= <[entryID := row]> |>)
  end.

Definition insertEntry (txID accountID : string) (amount : Z) (memo : string) (now : Z) : St DB unit :=
  entryID ← ids_New "le";
  wrap "insert ledger entry" (insert_entry_row entryID {|
    le_transaction_id := txID; le_account_id := accountID; le_amount_microdollars := amount;
    le_currency := CurrencyUSDMicro; le_memo := memo; le_created_at := now |}).

(** [INSERT INTO ledger_transactions]. *)
Definition insert_transaction (txID : string) (row : LedgerTransactionRow) : St DB unit :=
  tbl ← gets db_ledger_transactions;
  _ ← constraint (fresh_key tbl txID) "ledger_transactions_pkey";
  modify (λ db, db <| db_ledger_transactions ::= <[txID := row]> |>).

(** The partial unique index [ledger_transactions_one_job_acceptance]. *)
Definition same_acceptance (txID : string) (lt : LedgerTransactionRow) (k : string)
    (other : LedgerTransactionRow) : bool :=
  negb (String.eqb k txID) && bool_decide (lt_status other = LtPosted) &&
  String.eqb (lt_transaction_type other) TransactionJobAcceptance &&
  bool_decide (lt_reference_type other = lt_reference_type lt) &&
  bool_decide (lt_reference_id other = lt_reference_id lt).

(** [UPDATE ledger_transactions SET status = 'posted', posted_at = $2 WHERE id = $1]. *)
Definition post_transaction (txID : string) (now : Z) : St DB unit :=
  tbl ← gets db_ledger_transactions;
  match tbl !! txID with
  | None => mret tt
  | Some lt =>
      _ ← constraint (negb (String.eqb (lt_transaction_type lt) TransactionJobAcceptance &&
                            exists_row (same_acceptance txID lt) tbl))
            "ledger_transactions_one_job_acceptance";
      modify (λ db, db <| db_ledger_transactions ::=
                <[txID := lt <| lt_status := LtPosted |> <| lt_posted_at := Some now |>]> |>)
  end.

(** [INSERT INTO host_credit_holds]. *)
Definition insert_hold (holdID : string) (row : CreditHoldRow) : St DB unit :=
  db ← gets id;
  _ ← constraint (fresh_key (db_host_credit_holds db) holdID) "host_credit_holds_pkey";
  _ ← constraint (has_key (db_nodes db) (ch_node_id row)) "host_credit_holds_node_id_fkey";
  _ ← constraint (has_key (db_jobs db) (ch_job_id row)) "host_credit_holds_job_id_fkey";
  _ ← constraint (has_key (db_job_attempts db) (ch_attempt_id row)) "host_credit_holds_attempt_id_fkey";
  _ ← constraint (has_key (db_ledger_transactions db) (ch_ledger_transaction_id row))
        "host_credit_holds_ledger_transaction_id_fkey";
  _ ← constraint (0 <=? ch_amount_microdollars row) "host_credit_holds_amount_microdollars_check";
  _ ← constraint (negb (exists_row (λ _ h, String.eqb (ch_attempt_id h) (ch_attempt_id row))
                          (db_host_credit_holds db))) "host_credit_holds_attempt_id_key";
  modify (λ db, db <| db_host_credit_holds ::= <[holdID := row]> |>).

(** ** Pricing *)

Definition price_effective (mvID : string) (t : Z) (_ : string) (p : ModelPriceRow) : bool :=
  String.eqb (mp_model_version_id p) mvID && (mp_effective_from p <=? t) &&
  match mp_effective_until p with None => true | Some u => t <? u end.

Definition effective_price (db : DB) (mvID : string) (t : Z) : option ModelPriceRow :=
  snd <$> latest mp_effective_from (rows_where (price_effective mvID t) (db_model_prices db)).

(** The newest version of the model that has an effective price. *)
Definition model_price (db : DB) (modelID : string) (t : Z) : option ModelPriceRow :=
  mv ← latest mv_created_at (rows_where (λ k mv, String.eqb (mv_model_id mv) modelID &&
         bool_decide (is_Some (effective_price db k t))) (db_model_versions db));
  effective_price db (fst mv) t.

(** The pricing query: organization, node and price of an attempt of a job. *)
Definition pricing (db : DB) (jobID attemptID : string) (t : Z)
    : option (string * string * ModelPriceRow) :=
  j ← db_jobs db !! jobID;
  a ← db_job_attempts db !! attemptID;
  _ ← guard (at_job_id a = jobID);
  nodeID ← at_node_id a;
  p ← model_price db (j_model_id j) t;
  Some (j_organization_id j, nodeID, p).

Definition load_pricing (jobID attemptID : string) (t : Z) : St DB (string * string * ModelPriceRow) :=
  db ← gets id; of_option ErrNoRows (pricing db jobID attemptID t).

Definition draft_transaction (ttype refType refID memo : string) (meta : option LtMetadata) (now : Z)
    : LedgerTransactionRow := {|
  lt_transaction_type := ttype; lt_status := LtDraft; lt_reference_type := Some refType;
  lt_reference_id := Some refID; lt_memo := memo; lt_metadata := meta;
  lt_reverses_transaction_id := None; lt_created_at := now; lt_posted_at := None
|}.

(** [INSERT ... ON CONFLICT DO NOTHING] and the check of [RowsAffected]. *)
Definition insert_transaction_or_duplicate (txID : string) (row : LedgerTransactionRow) : St DB unit :=
  tbl ← gets db_ledger_transactions;
  _ ← guard_err (fresh_key tbl txID) ErrDuplicatePosting;
  modify (λ db, db <| db_ledger_transactions ::= <[txID := row]> |>).

(** ** Postings *)

Definition hold_row (nodeID jobID attemptID txID : string) (amount availableAt now : Z) : CreditHoldRow := {|
  ch_node_id := nodeID; ch_job_id := jobID; ch_attempt_id := attemptID;
  ch_ledger_transaction_id := txID; ch_amount_microdollars := amount; ch_state := HPending;
  ch_available_at := availableAt; ch_payout_batch_id := None; ch_created_at := now; ch_updated_at := now
|}.

Definition postAcceptedJob (posting : AcceptedJobPosting) : St DB AcceptedJobLedger :=
  receivedAt ← or_now (ap_ReceivedAt posting);
  let creditHold := default_pos (ap_CreditHold posting) DefaultCreditHold in
  pr ← wrap "load accepted job pricing"
         (load_pricing (ap_JobID posting) (ap_AttemptID posting) receivedAt);
  let '(orgID, nodeID, price) := pr in
  let customerCharge := wrap64 (
    chargeForTokens (ap_PromptTokens posting) (mp_customer_input_per_million_microdollars price) +
    chargeForTokens (ap_CompletionTokens posting) (mp_customer_output_per_million_microdollars price)) in
  let hostCredit :=
    chargeForTokens (ap_CompletionTokens posting) (mp_host_credit_per_million_output_microdollars price) in
  let verificationOverhead := Z.max 0 (ap_VerificationOverheadMicrodollars posting) in
  let platformMargin := wrap64 (wrap64 (customerCharge - hostCredit) - verificationOverhead) in
  txID ← ids_New "ltx";
  _ ← insert_transaction_or_duplicate txID
        (draft_transaction TransactionJobAcceptance "job" (ap_JobID posting) "accepted job" (Some {|
           lm_prompt_tokens := Some (ap_PromptTokens posting);
           lm_completion_tokens := ap_CompletionTokens posting;
           lm_coordinator_duration_millis := ap_CoordinatorDurationMillis posting;
           lm_price_version := mp_price_version price |}) receivedAt);
  customerAccount ← ensureAccount "customer" orgID AccountCustomerUsage;
  hostPendingAccount ← ensureAccount "host" nodeID AccountHostPendingCredit;
  platformMarginAccount ← ensureAccount "platform" DefaultPlatformLedgerOwnerID AccountPlatformMargin;
  _ ← insertEntry txID customerAccount customerCharge "customer usage charge" receivedAt;
  _ ← insertEntry txID hostPendingAccount (wrap64 (- hostCredit)) "host pending credit" receivedAt;
  _ ← (if 0 <? verificationOverhead then
         verificationAccount ← ensureAccount "platform" DefaultPlatformLedgerOwnerID AccountPlatformVerification;
         insertEntry txID verificationAccount verificationOverhead "verification overhead" receivedAt
       else mret tt);
  _ ← insertEntry txID platformMarginAccount (wrap64 (- platformMargin)) "platform margin" receivedAt;
  _ ← wrap "post accepted job ledger transaction" (post_transaction txID receivedAt);
  holdID ← ids_New "hcredit";
  let availableAt := receivedAt + creditHold in
  _ ← wrap "insert host credit hold" (insert_hold holdID
        (hold_row nodeID (ap_JobID posting) (ap_AttemptID posting) txID hostCredit availableAt receivedAt));
  mret {| al_TransactionID := txID; al_CreditHoldID := holdID; al_CustomerCharge := customerCharge;
          al_HostCredit := hostCredit; al_PlatformMargin := platformMargin;
          al_PriceVersion := mp_price_version price; al_AvailableAt := availableAt;
          al_CoordinatorDurationMS := ap_CoordinatorDurationMillis posting |}.

Definition PostAcceptedJob (posting : AcceptedJobPosting) : St DB AcceptedJobLedger :=
  transaction (postAcceptedJob posting).

Definition postVerificationOverhead (posting : VerificationOverheadPosting) : St DB AcceptedJobLedger :=
  receivedAt ← or_now (vp_ReceivedAt posting);
  let creditHold := default_pos (vp_CreditHold posting) DefaultCreditHold in
  pr ← wrap "load verification overhead pricing"
         (load_pricing (vp_JobID posting) (vp_AttemptID posting) receivedAt);
  let '(_, nodeID, price) := pr in
  let hostCredit :=
    chargeForTokens (vp_CompletionTokens posting) (mp_host_credit_per_million_output_microdollars price) in
  txID ← ids_New "ltx";
  _ ← wrap "insert verification overhead ledger transaction" (insert_transaction txID
        (draft_transaction TransactionVerificationCost "job" (vp_JobID posting) "verification overhead" (Some {|
           lm_prompt_tokens := None;
           lm_completion_tokens := vp_CompletionTokens posting;
           lm_coordinator_duration_millis := vp_CoordinatorDurationMillis posting;
           lm_price_version := mp_price_version price |}) receivedAt));
  verificationAccount ← ensureAccount "platform" DefaultPlatformLedgerOwnerID AccountPlatformVerification;
  hostPendingAccount ← ensureAccount "host" nodeID AccountHostPendingCredit;
  _ ← insertEntry txID verificationAccount hostCredit "verification host credit overhead" receivedAt;
  _ ← insertEntry txID hostPendingAccount (wrap64 (- hostCredit)) "host pending verification credit" receivedAt;
  _ ← wrap "post verification overhead ledger transaction" (post_transaction txID receivedAt);
  holdID ← ids_New "hcredit";
  let availableAt := receivedAt + creditHold in
  _ ← wrap "insert verification host credit hold" (insert_hold holdID
        (hold_row nodeID (vp_JobID posting) (vp_AttemptID posting) txID hostCredit availableAt receivedAt));
  mret {| al_TransactionID := txID; al_CreditHoldID := holdID; al_CustomerCharge := 0;
          al_HostCredit := hostCredit; al_PlatformMargin := 0;
          al_PriceVersion := mp_price_version price; al_AvailableAt := availableAt;
          al_CoordinatorDurationMS := vp_CoordinatorDurationMillis posting |}.

Definition PostVerificationOverhead (posting : VerificationOverheadPosting) : St DB AcceptedJobLedger :=
  transaction (postVerificationOverhead posting).

(** ** Release of held credit *)

(** [UPDATE host_credit_holds SET state = ..., updated_at = ... WHERE id = $1]. *)
Definition set_hold_state (holdID : string) (st : HoldState) (now : Z) : St DB unit :=
  modify (λ db, db <| db_host_credit_holds ::= update_where (λ k _, String.eqb k holdID)
            (λ h, h <| ch_state := st |> <| ch_updated_at := now |>) |>).

Definition releasable (now : Z) (_ : string) (h : CreditHoldRow) : bool :=
  bool_decide (ch_state h = HPending) && (ch_available_at h <=? now).

(** [ORDER BY available_at, id]. *)
Definition by_available (a b : string * CreditHoldRow) : bool :=
  (ch_available_at a.2 <? ch_available_at b.2) ||
  ((ch_available_at a.2 =? ch_available_at b.2) && string_ltb a.1 b.1).

(** The body of the loop: one release per hold. *)
Definition release_credit (now : Z) (credit : string * CreditHoldRow) : St DB unit :=
  let '(holdID, h) := credit in
  txID ← ids_New "ltx";
  _ ← wrap "insert credit release transaction" (insert_transaction txID
        (draft_transaction TransactionHostCreditRelease "host_credit_hold" holdID
           "host credit hold released" None now));
  pendingAccount ← ensureAccount "host" (ch_node_id h) AccountHostPendingCredit;
  availableAccount ← ensureAccount "host" (ch_node_id h) AccountHostAvailableCredit;
  _ ← insertEntry txID pendingAccount (ch_amount_microdollars h) "release pending host credit" now;
  _ ← insertEntry txID availableAccount (wrap64 (- ch_amount_microdollars h)) "host available credit" now;
  _ ← wrap "post credit release transaction" (post_transaction txID now);
  set_hold_state holdID HAvailable now.

Definition PromoteAvailableCredits (now : Z) : St DB Z :=
  now ← or_now now;
  transaction (
    holds ← gets db_host_credit_holds;
    let credits := order_by by_available (rows_where (releasable now) holds) in
    _ ← for_each (release_credit now) credits;
    mret (Z.of_nat (length credits))).

(** ** Reversal *)

Definition by_key {V} (a b : string * V) : bool := string_ltb a.1 b.1.

Definition reverse_entry (reversalID : string) (now : Z) (entry : string * LedgerEntryRow) : St DB unit :=
  entryID ← ids_New "le";
  wrap "insert reversal entry" (insert_entry_row entryID {|
    le_transaction_id := reversalID; le_account_id := le_account_id entry.2;
    le_amount_microdollars := wrap64 (- le_amount_microdollars entry.2);
    le_currency := le_currency entry.2; le_memo := "reversal: " +:+ le_memo entry.2;
    le_created_at := now |}).

Definition reverseTransaction (transactionID memo : string) (now : Z) : St DB string :=
  reversalID ← ids_New "ltx";
  let memo := if String.eqb memo "" then "ledger reversal" else memo in
  txs ← gets db_ledger_transactions;
  _ ← wrap "insert reversal transaction" (
        match txs !! transactionID with
        | Some lt =>
            if bool_decide (lt_status lt = LtPosted) then
              insert_transaction reversalID {|
                lt_transaction_type := TransactionLedgerReversal; lt_status := LtDraft;
                lt_reference_type := lt_reference_type lt; lt_reference_id := lt_reference_id lt;
                lt_memo := memo; lt_metadata := None;
                lt_reverses_transaction_id := Some transactionID;
                lt_created_at := now; lt_posted_at := None |}
            else mret tt
        | None => mret tt
        end);
  rows ← gets db_ledger_entries;
  let entries := order_by by_key
    (rows_where (λ _ e, String.eqb (le_transaction_id e) transactionID) rows) in
  _ ← for_each (reverse_entry reversalID now) entries;
  match entries with
  | [] => fail (ErrMsg ("posted transaction " +:+ transactionID +:+ " has no entries"))
  | _ =>
      _ ← wrap "post reversal transaction" (post_transaction reversalID now);
      mret reversalID
  end.

Definition ReverseTransaction (transactionID memo : string) (now : Z) : St DB string :=
  now ← or_now now;
  transaction (reverseTransaction transactionID memo now).

(** ** Payout batches *)

Definition batch_of (batchID : string) (row : PayoutBatchRow) : PayoutBatch := {|
  po_ID := batchID; po_Status := pb_status row; po_TotalMicrodollars := pb_total_microdollars row;
  po_ItemCount := 0; po_TransactionID := ""; po_ExportedCSVChecksum := ""
|}.

Definition select_batch (batchID : string) : St DB PayoutBatch :=
  batches ← gets db_payout_batches;
  row ← wrap "select payout batch" (of_option ErrNoRows (batches !! batchID));
  mret (batch_of batchID row).

Definition update_batch (batchID : string) (f : PayoutBatchRow → PayoutBatchRow) : St DB unit :=
  modify (λ db, db <| db_payout_batches ::= update_where (λ k _, String.eqb k batchID) f |>).

Definition update_items (p : string → PayoutItemRow → bool) (f : PayoutItemRow → PayoutItemRow) : St DB unit :=
  modify (λ db, db <| db_payout_items ::= update_where p f |>).

Definition update_holds (p : CreditHoldRow → bool) (f : CreditHoldRow → CreditHoldRow) : St DB unit :=
  modify (λ db, db <| db_host_credit_holds ::= update_where (λ _, p) f |>).

Definition hold_in_batch (batchID : string) (h : CreditHoldRow) : bool :=
  bool_decide (ch_payout_batch_id h = Some batchID).
Definition hold_reserved_by (batchID : string) (h : CreditHoldRow) : bool :=
  hold_in_batch batchID h && bool_decide (ch_state h = HPayoutPending).
Definition item_in_batch (batchID : string) (_ : string) (i : PayoutItemRow) : bool :=
  String.eqb (pi_payout_batch_id i) batchID.

(** The transaction [VoidPayoutBatch] runs. *)
Definition void_batch (batchID memo : string) (now : Z) : St DB PayoutBatch :=
  batch ← select_batch batchID;
  match po_Status batch with
  | BVoid => mret batch
  | st =>
    batch ← (if bool_decide (st = BPaid) then
      items ← gets db_payout_items;
      reversed ← (match rows_where (λ k i, item_in_batch batchID k i &&
                               bool_decide (is_Some (pi_ledger_transaction_id i))) items with
        | (_, i) :: _ =>
            reversalID ← reverseTransaction (default "" (pi_ledger_transaction_id i))
                           (firstNonEmpty [memo; "void payout batch"]) now;
            mret (batch <| po_TransactionID := reversalID |>)
        | [] => mret batch
        end);
      _ ← update_holds (hold_in_batch batchID)
            (λ h, h <| ch_state := HReversed |> <| ch_updated_at := now |>);
      mret reversed
    else
      _ ← update_holds (hold_reserved_by batchID)
            (λ h, h <| ch_state := HAvailable |> <| ch_payout_batch_id := None |>
                    <| ch_updated_at := now |>);
      mret batch);
    _ ← update_items (λ k i, item_in_batch batchID k i && negb (bool_decide (pi_status i = IVoid)))
          (λ i, i <| pi_status := IVoid |>);
    _ ← update_batch batchID (λ b, b <| pb_status := BVoid |>);
    mret (batch <| po_Status := BVoid |>)
  end.

Definition VoidPayoutBatch (batchID memo : string) (now : Z) : St DB PayoutBatch :=
  now ← or_now now;
  transaction (void_batch batchID memo now).

(** [ORDER BY h.node_id, h.created_at, h.id]. *)
Definition by_payout (a b : string * CreditHoldRow) : bool :=
  string_ltb (ch_node_id a.2) (ch_node_id b.2) ||
  (String.eqb (ch_node_id a.2) (ch_node_id b.2) &&
   ((ch_created_at a.2 <? ch_created_at b.2) ||
    ((ch_created_at a.2 =? ch_created_at b.2) && string_ltb a.1 b.1))).

Definition payable (db : DB) (organizationID : string) (_ : string) (h : CreditHoldRow) : bool :=
  bool_decide (ch_state h = HAvailable) && (0 <? ch_amount_microdollars h) &&
  match db_nodes db !! ch_node_id h with
  | None => false
  | Some n => String.eqb organizationID "" || bool_decide (n_organization_id n = Some organizationID)
  end.

(** [INSERT INTO payout_items], with the unique index on live items of a hold. *)
Definition insert_item (itemID : string) (row : PayoutItemRow) : St DB unit :=
  db ← gets id;
  _ ← constraint (fresh_key (db_payout_items db) itemID) "payout_items_pkey";
  _ ← constraint (has_key (db_payout_batches db) (pi_payout_batch_id row)) "payout_items_payout_batch_id_fkey";
  _ ← constraint (0 <=? pi_amount_microdollars row) "payout_items_amount_microdollars_check";
  _ ← constraint (negb (exists_row (λ _ i, bool_decide (pi_credit_hold_id i = pi_credit_hold_id row) &&
                                           negb (bool_decide (pi_status i = IVoid))) (db_payout_items db)))
        "payout_items_one_credit_hold";
  modify (λ db, db <| db_payout_items ::= <[itemID := row]> |>).

(** The loop body: an item for the hold, and the hold reserved. *)
Definition reserve_credit (batchID : string) (now : Z) (acc : Z * Z) (credit : string * CreditHoldRow)
    : St DB (Z * Z) :=
  let '(holdID, h) := credit in
  itemID ← ids_New "pitem";
  _ ← wrap "insert payout item" (insert_item itemID {|
        pi_payout_batch_id := batchID; pi_host_node_id := Some (ch_node_id h);
        pi_credit_hold_id := Some holdID; pi_ledger_transaction_id := None;
        pi_amount_microdollars := ch_amount_microdollars h; pi_currency := CurrencyUSDMicro;
        pi_external_reference := ch_node_id h; pi_status := IPending;
        pi_memo := DefaultPayoutMemoPrefix +:+ " " +:+ batchID; pi_created_at := now |});
  _ ← modify (λ db, db <| db_host_credit_holds ::= update_where (λ k _, String.eqb k holdID)
        (λ h, h <| ch_state := HPayoutPending |> <| ch_payout_batch_id := Some batchID |>
                <| ch_updated_at := now |>) |>);
  mret (wrap64 (acc.1 + ch_amount_microdollars h), acc.2 + 1).

Definition CreatePayoutBatch (organizationID : string) (now : Z) : St DB PayoutBatch :=
  now ← or_now now;
  transaction (
    batchID ← ids_New "payout";
    db ← gets id;
    _ ← wrap "insert payout batch" (
          _ ← constraint (fresh_key (db_payout_batches db) batchID) "payout_batches_pkey";
          constraint (String.eqb organizationID "" || has_key (db_organizations db) organizationID)
            "payout_batches_organization_id_fkey");
    _ ← modify (λ db, db <| db_payout_batches ::= <[batchID := {|
          pb_organization_id := if String.eqb organizationID "" then None else Some organizationID;
          pb_status := BDraft; pb_currency := CurrencyUSDMicro; pb_total_microdollars := 0;
          pb_created_at := now; pb_exported_at := None; pb_paid_at := None |}]> |>);
    let credits := order_by by_payout (rows_where (payable db organizationID) (db_host_credit_holds db)) in
    acc ← fold_st (reserve_credit batchID now) (0, 0) credits;
    let '(total, items) := acc in
    _ ← guard_err (negb (items =? 0)) ErrNoAvailableCredit;
    _ ← wrap "update payout batch total"
          (constraint (0 <=? total) "payout_batches_total_microdollars_check");
    _ ← update_batch batchID (λ b, b <| pb_total_microdollars := total |>);
    mret {| po_ID := batchID; po_Status := BDraft; po_TotalMicrodollars := total;
            po_ItemCount := items; po_TransactionID := ""; po_ExportedCSVChecksum := "" |}).

(** *** [encoding/csv]'s writer with its defaults *)

Definition quote_char : ascii := Ascii.ascii_of_nat 34.
Definition lf_char : ascii := Ascii.ascii_of_nat 10.
Definition cr_char : ascii := Ascii.ascii_of_nat 13.
Definition comma_char : ascii := Ascii.ascii_of_nat 44.

Definition fieldNeedsQuotes (field : string) : bool :=
  if String.eqb field "" then false
  else if String.eqb field "\." then true
  else
    existsb (λ a, existsb (Ascii.eqb a) [comma_char; quote_char; cr_char; lf_char]) (bytes field) ||
    match decode_runes (bytes field) with
    | (r, _) :: _ => is_space r
    | [] => false
    end.

Definition csv_field (field : string) : list ascii :=
  if fieldNeedsQuotes field then
    [quote_char] ++
    mjoin ((λ a, if Ascii.eqb a quote_char then [quote_char; quote_char] else [a]) <$> bytes field) ++
    [quote_char]
  else bytes field.

Fixpoint csv_record (fields : list string) : list ascii :=
  match fields with
  | [] => [lf_char]
  | [f] => csv_field f ++ [lf_char]
  | f :: rest => csv_field f ++ [comma_char] ++ csv_record rest
  end.

Definition csv_write (records : list (list string)) : string :=
  of_bytes (mjoin (csv_record <$> records)).

(** [ORDER BY host_node_id, id]; a null node sorts last. *)
Definition null_last_ltb (a b : option string) : bool :=
  match a, b with
  | Some x, Some y => string_ltb x y
  | Some _, None => true
  | None, _ => false
  end.
Definition by_host (a b : string * PayoutItemRow) : bool :=
  null_last_ltb (pi_host_node_id a.2) (pi_host_node_id b.2) ||
  (bool_decide (pi_host_node_id a.2 = pi_host_node_id b.2) && string_ltb a.1 b.1).

Definition export_header : list string := ["host_id"; "account_reference"; "amount_microdollars"; "memo"].
Definition export_row (i : PayoutItemRow) : list string :=
  [default "" (pi_host_node_id i); pi_external_reference i; itoa (pi_amount_microdollars i); pi_memo i].

Definition ExportPayoutBatch (batchID : string) (now : Z) : St DB (string * PayoutBatch) :=
  now ← or_now now;
  transaction (
    batch ← select_batch batchID;
    table ← gets db_payout_items;
    let rows := order_by by_host
      (rows_where (λ k i, item_in_batch batchID k i && negb (bool_decide (pi_status i = IVoid))) table) in
    let buf := csv_write (export_header :: ((λ r, export_row r.2) <$> rows)) in
    status ← (if bool_decide (po_Status batch = BDraft) then
        _ ← update_items (λ k i, item_in_batch batchID k i && bool_decide (pi_status i = IPending))
              (λ i, i <| pi_status := IExported |>);
        _ ← update_batch batchID (λ b, b <| pb_status := BExported |> <| pb_exported_at := Some now |>);
        mret BExported
      else mret (po_Status batch));
    mret (buf, batch <| po_Status := status |> <| po_ItemCount := Z.of_nat (length rows) |>
                     <| po_ExportedCSVChecksum := sha256_string buf |>)).

(** *** Confirmation *)

Definition add_expected (expected : gmap string Z) (host : string) (d : Z) : gmap string Z :=
  <[host := wrap64 (default 0 (expected !! host) + d)]> expected.

(** The amounts a confirmation accounts for, row by row. *)
Fixpoint subtract_confirmed (expected : gmap string Z) (records : list (list string))
    : result (gmap string Z) :=
  match records with
  | [] => Ok expected
  | record :: rest =>
      match record with
      | host :: _ :: amountText :: _ =>
          match atoi amountText with
          | None => Err (ErrWrap "parse payout confirmation amount" (ErrMsg amountText))
          | Some amount => subtract_confirmed (add_expected expected host (- amount)) rest
          end
      | _ => Err (ErrMsg "payout confirmation row has fewer than 3 columns")
      end
  end.

Definition exported_item (batchID : string) (k : string) (i : PayoutItemRow) : bool :=
  item_in_batch batchID k i && bool_decide (pi_status i = IExported).

(** The loop body: available credit consumed, the item paid. *)
Definition pay_item (txID : string) (now : Z) (total : Z) (item : string * PayoutItemRow) : St DB Z :=
  let '(itemID, i) := item in
  availableAccount ← ensureAccount "host" (default "" (pi_host_node_id i)) AccountHostAvailableCredit;
  _ ← insertEntry txID availableAccount (pi_amount_microdollars i)
        "host payout consumed available credit" now;
  _ ← update_items (λ k _, String.eqb k itemID)
        (λ i, i <| pi_status := IPaid |> <| pi_ledger_transaction_id := Some txID |>);
  mret (wrap64 (total + pi_amount_microdollars i)).

(** [records] is what [csv.NewReader(confirmation).ReadAll()] returned. *)
Definition ConfirmPayoutBatch (batchID : string) (records : result (list (list string))) (now : Z)
    : St DB PayoutBatch :=
  now ← or_now now;
  records ← wrap "read payout confirmation CSV" (lift_result records);
  match records with
  | [] | [_] => fail (ErrMsg "payout confirmation CSV has no item rows")
  | _ :: rows =>
  transaction (
    batch ← select_batch batchID;
    _ ← guard_err (bool_decide (po_Status batch = BExported))
          (ErrMsg "payout batch must be exported before confirmation");
    items ← gets db_payout_items;
    let exported := rows_where (exported_item batchID) items in
    let expected := foldl (λ m i, add_expected m (default "" (pi_host_node_id i.2))
                                    (pi_amount_microdollars i.2)) ∅ (order_by by_host exported) in
    diffs ← lift_result (subtract_confirmed expected rows);
    _ ← guard_err (forallb (λ d, d.2 =? 0) (map_to_list diffs))
          (ErrMsg "payout confirmation mismatch for host");
    txID ← ids_New "ltx";
    _ ← wrap "insert payout transaction" (insert_transaction txID
          (draft_transaction TransactionHostPayout "payout_batch" batchID "host payout paid" None now));
    total ← fold_st (pay_item txID now) 0 (order_by by_key exported);
    _ ← guard_err (0 <? total) (ErrMsg "payout batch has no payable total");
    platformCashAccount ← ensureAccount "platform" DefaultPlatformLedgerOwnerID AccountPlatformPayoutCash;
    _ ← insertEntry txID platformCashAccount (wrap64 (- total)) "manual payout cash out" now;
    _ ← wrap "post payout ledger transaction" (post_transaction txID now);
    _ ← update_holds (hold_reserved_by batchID)
          (λ h, h <| ch_state := HPaid |> <| ch_updated_at := now |>);
    _ ← update_batch batchID (λ b, b <| pb_status := BPaid |> <| pb_paid_at := Some now |>);
    mret (batch <| po_Status := BPaid |> <| po_TransactionID := txID |>))
  end.

(** ** Economics *)

(** A posted entry of an account and transaction type in the period. *)
Definition in_period (from until : Z) (lt : LedgerTransactionRow) : bool :=
  let t := default (lt_created_at lt) (lt_posted_at lt) in
  bool_decide (lt_status lt = LtPosted) && (from <=? t) && (t <? until).

Definition entry_types (db : DB) (from until : Z) (e : LedgerEntryRow) : option (string * string) :=
  lt ← db_ledger_transactions db !! le_transaction_id e;
  a ← db_ledger_accounts db !! le_account_id e;
  if in_period from until lt then Some (lt_transaction_type lt, ac_account_type a) else None.

(** [SUM ... GROUP BY account_type, transaction_type] for one group. *)
Definition econ_amount (db : DB) (from until : Z) (ttype atype : string) : Z :=
  sum_map (λ e, if bool_decide (entry_types db from until e = Some (ttype, atype))
                then le_amount_microdollars e else 0) (db_ledger_entries db).

(** Scanning a sum into [int64] fails when it does not fit. *)
Definition sums_fit (db : DB) (from until : Z) : bool :=
  forallb (λ kv, match entry_types db from until kv.2 with
                 | None => true
                 | Some (t, a) => let s := econ_amount db from until t a in
                                  (- 2 ^ 63 <=? s) && (s <? 2 ^ 63)
                 end) (map_to_list (db_ledger_entries db)).

Definition EconomicsReport_ (from until : Z) : St DB EconomicsReport :=
  db ← gets id;
  let from := if is_zero_time from then 0 else from in
  let until := if is_zero_time until then db_now db + second else until in
  _ ← guard_err (sums_fit db from until) (ErrWrap "scan economics report" (ErrMsg "out of range"));
  let amount := econ_amount db from until in
  let revenue := amount TransactionJobAcceptance AccountCustomerUsage in
  let hostCredits := wrap64 (- amount TransactionJobAcceptance AccountHostPendingCredit) in
  let verification := wrap64 (amount TransactionJobAcceptance AccountPlatformVerification +
                              amount TransactionVerificationCost AccountPlatformVerification) in
  let failed := amount TransactionFailedAttemptCost AccountPlatformFailed in
  mret {| er_CustomerRevenueMicrodollars := revenue;
          er_HostCreditsMicrodollars := hostCredits;
          er_VerificationOverheadMicrodollars := verification;
          er_FailedAttemptOverheadMicrodollars := failed;
          er_ContributionMarginMicrodollars :=
            wrap64 (wrap64 (wrap64 (revenue - hostCredits) - verification) - failed) |}.
