(* ===== verification/LedgerTheory.v ===== *)
(** * Correctness of the ledger

    The theorems about [Ledger]: rounding of charges, postings that balance by
    construction, at most one acceptance per job, host credit conserved between the
    hold table and the ledger accounts through every posting, and the payout life cycle
    ([LedgerBooks] adds reversals and puts the operations together). The statement-level lemmas say what each SQL statement adds to
    the balance of every account and of every transaction ([ldelta]); the operations'
    proofs add them up. *)
From stdpp Require Import base gmap strings list sorting.
From Stdlib Require Import ZArith Lia Ascii.
From S2P Require Import Prelude GoStrings Sha256 Protocol Requests Database Ledger.

(** ** Charges *)

Lemma charge_exact tokens price :
  0 < tokens → 0 < price → tokens * price + 500000 < 2 ^ 63 →
  chargeForTokens tokens price = (tokens * price + 500000) / 1000000.
Proof.
  intros Ht Hp Hb. unfold chargeForTokens.
  rewrite !(proj2 (Z.leb_gt _ _)) by lia. simpl.
  rewrite (wrap64_id (tokens * price)), wrap64_id by (unfold in_int64; nia).
  apply Z.quot_div_nonneg; nia.
Qed.

Lemma charge_nonneg tokens price :
  tokens * price + 500000 < 2 ^ 63 → 0 ≤ chargeForTokens tokens price.
Proof.
  intros Hb. unfold chargeForTokens.
  destruct (Z.leb_spec tokens 0), (Z.leb_spec price 0); simpl; try done.
  rewrite (wrap64_id (tokens * price)), wrap64_id by (unfold in_int64; nia).
  apply Z.quot_pos; nia.
Qed.

(** Charges are the exact price rounded to the nearest microdollar, half up, as long
    as the product fits 64 bits; they never decrease with the price, so a host credit
    price at most the output price never exceeds the customer's charge for the same
    tokens. *)
Theorem charge_rounds_to_nearest tokens price price' :
  0 ≤ tokens → 0 ≤ price ≤ price' → tokens * price' + 500000 < 2 ^ 63 →
  - 1000000 < 2 * (1000000 * chargeForTokens tokens price - tokens * price) ≤ 1000000 ∧
  0 ≤ chargeForTokens tokens price ≤ chargeForTokens tokens price'.
Proof.
  intros Ht Hp Hb. destruct (decide (tokens = 0 ∨ price = 0)) as [Hz|Hz].
  - assert (chargeForTokens tokens price = 0) as ->.
    { unfold chargeForTokens. destruct Hz as [-> | ->]; simpl; [done|by rewrite orb_true_r]. }
    assert (0 ≤ chargeForTokens tokens price') by by apply charge_nonneg.
    nia.
  - assert (0 < tokens ∧ 0 < price) as [? ?] by lia.
    rewrite !charge_exact by nia.
    pose proof (Z.div_mod (tokens * price + 500000) 1000000).
    pose proof (Z.mod_pos_bound (tokens * price + 500000) 1000000).
    split; [lia|]. split; [apply Z.div_pos; nia|apply Z.div_le_mono; nia].
Qed.

(** ** Well-formed ledgers

    What the foreign keys and unique indexes of the schema guarantee. *)

Notation acct_key := (string * string * string * string)%type.
Definition row_key (a : AccountRow) : acct_key :=
  (ac_owner_type a, ac_owner_id a, ac_account_type a, ac_currency a).
Definition key_of (db : DB) (aid : string) : option acct_key :=
  row_key <$> db_ledger_accounts db !! aid.

Definition is_acceptance (lt : LedgerTransactionRow) : Prop :=
  lt_status lt = LtPosted ∧ lt_transaction_type lt = TransactionJobAcceptance.

Definition live_item (i : PayoutItemRow) : bool := negb (bool_decide (pi_status i = IVoid)).

Record ledger_wf (db : DB) : Prop := {
  wf_entry : ∀ k e, db_ledger_entries db !! k = Some e →
    is_Some (db_ledger_transactions db !! le_transaction_id e) ∧
    is_Some (db_ledger_accounts db !! le_account_id e);
  wf_account : ∀ a1 a2 k, key_of db a1 = Some k → key_of db a2 = Some k → a1 = a2;
  wf_acceptance : ∀ t1 t2 l1 l2,
    db_ledger_transactions db !! t1 = Some l1 → db_ledger_transactions db !! t2 = Some l2 →
    is_acceptance l1 → is_acceptance l2 → lt_reference_type l1 = lt_reference_type l2 →
    lt_reference_id l1 = lt_reference_id l2 → t1 = t2
}.

#[export] Instance ledger_wf_tables : TableProp ledger_wf.
Proof. intros db ent. split; intros [? ? ?]; by split. Qed.

(** ** Balances *)

Definition entry_on (db : DB) (key : acct_key) (e : LedgerEntryRow) : Z :=
  if bool_decide (key_of db (le_account_id e) = Some key) then le_amount_microdollars e else 0.

(** The balance of the account with a key; 0 when there is none. *)
Definition acct_balance (db : DB) (key : acct_key) : Z := sum_map (entry_on db key) (db_ledger_entries db).

(** What a statement sequence did: [da] added to the account balances, [dt] to the
    transaction balances, headers changed only for the [touched] transactions, and the
    tables outside the ledger proper left alone. *)
Record ldelta (db db' : DB) (da : acct_key → Z) (dt : string → Z) (touched : list string)
    : Prop := {
  ld_acct : ∀ key, acct_balance db' key = acct_balance db key + da key;
  ld_tx : ∀ t, tx_balance db' t = tx_balance db t + dt t;
  ld_keys : ∀ a key, key_of db a = Some key → key_of db' a = Some key;
  ld_headers : ∀ t, t ∉ touched → db_ledger_transactions db' !! t = db_ledger_transactions db !! t;
  ld_wf : ledger_wf db';
  ld_holds : db_host_credit_holds db' = db_host_credit_holds db;
  ld_batches : db_payout_batches db' = db_payout_batches db;
  ld_nodes : db_nodes db' = db_nodes db;
  ld_jobs : db_jobs db' = db_jobs db;
  ld_attempts : db_job_attempts db' = db_job_attempts db;
  ld_now : db_now db' = db_now db
}.

Lemma ldelta_trans db1 db2 db3 da1 da2 dt1 dt2 l1 l2 :
  ldelta db1 db2 da1 dt1 l1 → ldelta db2 db3 da2 dt2 l2 →
  ldelta db1 db3 (λ k, da1 k + da2 k) (λ t, dt1 t + dt2 t) (l1 ++ l2).
Proof.
  intros [A1 T1 K1 D1 W1 H1 B1 N1 J1 P1 C1] [A2 T2 K2 D2 W2 H2 B2 N2 J2 P2 C2].
  split; try congruence; auto.
  - intros key. rewrite A2, A1. lia.
  - intros t. rewrite T2, T1. lia.
  - intros t Ht. rewrite D2, D1; [done|set_solver|set_solver].
Qed.

Lemma ldelta_ext db db' da dt da' dt' l :
  ldelta db db' da dt l → (∀ k, da k = da' k) → (∀ t, dt t = dt' t) → ldelta db db' da' dt' l.
Proof. intros [] Ha Ht. split; auto; intros; [rewrite <-Ha|rewrite <-Ht]; auto. Qed.

Definition no_delta {A} : A → Z := λ _, 0.
Definition at_key {A} `{EqDecision A} (k : A) (v : Z) : A → Z := λ k', if bool_decide (k' = k) then v else 0.

Lemma ldelta_touch db db' da dt l l' : ldelta db db' da dt l → ldelta db db' da dt (l ++ l').
Proof. intros [A T K D W H B N J P C]. split; auto. intros t Ht. apply D. set_solver. Qed.

Lemma ldelta_refl db : ledger_wf db → ldelta db db no_delta no_delta [].
Proof. intros. split; auto; intros; unfold no_delta; lia. Qed.

(** Only the entropy, or only the header of a transaction, changed. *)
Lemma ldelta_entropy db ent : ledger_wf db → ldelta db (db <| db_entropy := ent |>) no_delta no_delta [].
Proof.
  intros Hwf. assert (ledger_wf (db <| db_entropy := ent |>)) by by apply (table_prop db).
  split; auto; unfold no_delta; intros; rewrite ?Z.add_0_r; done.
Qed.

Lemma ids_New_delta p db id db' :
  ids_New p db = (Ok id, db') → ledger_wf db → ldelta db db' no_delta no_delta [].
Proof. intros (b & rest & _ & _ & ->)%ids_New_ok. apply ldelta_entropy. Qed.

(** ** What the statements do *)

Lemma ldelta_transactions db txID row :
  ledger_wf (db <| db_ledger_transactions ::= <[txID := row]> |>) →
  ldelta db (db <| db_ledger_transactions ::= <[txID := row]> |>) no_delta no_delta [txID].
Proof.
  intros Hwf. split; auto; unfold no_delta; intros; rewrite ?Z.add_0_r; try done.
  simpl. rewrite lookup_insert_ne; [done|]. set_solver.
Qed.

Lemma wf_insert_draft db txID row :
  ledger_wf db → db_ledger_transactions db !! txID = None → lt_status row = LtDraft →
  ledger_wf (db <| db_ledger_transactions ::= <[txID := row]> |>).
Proof.
  intros [He Ha Hu] Hfresh Hd. split; simpl; [|done|].
  - intros k e Hk. apply He in Hk as [Ht Hacc]. split; [|done].
    rewrite lookup_insert_is_Some. destruct (decide (txID = le_transaction_id e)); auto.
  - intros t1 t2 l1 l2.
    rewrite !lookup_insert_Some. intros [[<- <-]|[? H1]] [[<- <-]|[? H2]] [P1 T1] [P2 T2] Hr1 Hr2;
      try done; try congruence.
    by apply (Hu t1 t2 l1 l2).
Qed.

Lemma insert_transaction_delta txID row db u db' :
  insert_transaction txID row db = (Ok u, db') → lt_status row = LtDraft → ledger_wf db →
  ldelta db db' no_delta no_delta [txID] ∧ db_ledger_transactions db' !! txID = Some row ∧
  db_ledger_transactions db !! txID = None.
Proof.
  unfold insert_transaction. intros H Hd Hwf. run_inv.
  match goal with H : constraint _ _ _ = _ |- _ => apply constraint_ok in H as [Hf ?]; simplify_eq end.
  run_inv. apply bool_decide_eq_true in Hf.
  split_and!; [by apply ldelta_transactions, wf_insert_draft|by simpl; rewrite lookup_insert_eq|done].
Qed.

Lemma insert_transaction_or_duplicate_delta txID row db u db' :
  insert_transaction_or_duplicate txID row db = (Ok u, db') → lt_status row = LtDraft → ledger_wf db →
  ldelta db db' no_delta no_delta [txID] ∧ db_ledger_transactions db' !! txID = Some row ∧
  db_ledger_transactions db !! txID = None.
Proof.
  unfold insert_transaction_or_duplicate. intros H Hd Hwf. run_inv.
  match goal with H : fresh_key _ _ = true |- _ => apply bool_decide_eq_true in H end.
  split_and!; [by apply ldelta_transactions, wf_insert_draft|by simpl; rewrite lookup_insert_eq|done].
Qed.

(** Posting changes the header only; a second posted acceptance is refused. *)
Lemma wf_post db txID lt now :
  ledger_wf db → db_ledger_transactions db !! txID = Some lt →
  (lt_transaction_type lt = TransactionJobAcceptance →
   exists_row (same_acceptance txID lt) (db_ledger_transactions db) = false) →
  ledger_wf (db <| db_ledger_transactions ::=
    <[txID := lt <| lt_status := LtPosted |> <| lt_posted_at := Some now |>]> |>).
Proof.
  intros [He Ha Hu] Hlt Hex. split; simpl; [|done|].
  - intros k e Hk. apply He in Hk as [Ht Hacc]. split; [|done].
    rewrite lookup_insert_is_Some. destruct (decide (txID = le_transaction_id e)); auto.
  - assert (Hother : ∀ t l, t ≠ txID → db_ledger_transactions db !! t = Some l → is_acceptance l →
      lt_transaction_type lt = TransactionJobAcceptance →
      lt_reference_type l = lt_reference_type lt → lt_reference_id l = lt_reference_id lt → False).
    { intros t l Hne Hl [Hp Ht] Htl Hr1 Hr2. specialize (Hex Htl).
      rewrite exists_row_false in Hex. specialize (Hex t l Hl). unfold same_acceptance in Hex.
      rewrite (proj2 (String.eqb_neq _ _) Hne), Hp, Ht, Hr1, Hr2 in Hex. simpl in Hex.
      by rewrite !bool_decide_eq_true_2 in Hex. }
    intros t1 t2 l1 l2.
    rewrite !lookup_insert_Some. intros [[<- <-]|[? H1]] [[<- <-]|[? H2]] [P1 T1] [P2 T2] Hr1 Hr2;
      simpl in *; try done.
    + exfalso. apply (Hother t2 l2); auto; by split.
    + exfalso. apply (Hother t1 l1); auto; by split.
    + apply (Hu t1 t2 l1 l2); auto; by split.
Qed.

Lemma post_transaction_delta txID now db u db' :
  post_transaction txID now db = (Ok u, db') → ledger_wf db →
  ldelta db db' no_delta no_delta [txID].
Proof.
  unfold post_transaction. intros H Hwf. run_inv.
  destruct (db_ledger_transactions _ !! txID) as [lt|] eqn:E; run_inv;
    [|by apply (ldelta_touch _ _ _ _ []), ldelta_refl].
  match goal with H : constraint _ _ _ = _ |- _ => apply constraint_ok in H as [Hc ?]; simplify_eq end.
  run_inv. apply ldelta_transactions, wf_post; auto. intros Ht. rewrite Ht in Hc. simpl in Hc.
  by apply negb_true_iff in Hc.
Qed.

(** An entry adds its amount to its account and its transaction. *)
Lemma insert_entry_row_delta entryID row db u db' :
  insert_entry_row entryID row db = (Ok u, db') → ledger_wf db →
  ∃ key, key_of db (le_account_id row) = Some key ∧
  ldelta db db' (at_key key (le_amount_microdollars row))
                (at_key (le_transaction_id row) (le_amount_microdollars row)) [] ∧
  db_ledger_transactions db' = db_ledger_transactions db.
Proof.
  unfold insert_entry_row. intros H Hwf. run_inv.
  repeat match goal with H : constraint _ _ _ = _ |- _ => apply constraint_ok in H as [? ?]; simplify_eq end.
  destruct (db_ledger_transactions _ !! _) as [lt|] eqn:E; run_inv.
  match goal with H : fresh_key _ _ = true |- _ => apply bool_decide_eq_true in H as Hf end.
  match goal with H : has_key _ _ = true |- _ => apply bool_decide_eq_true in H as [a Ha] end.
  exists (row_key a). assert (Hk : key_of db (le_account_id row) = Some (row_key a))
    by (unfold key_of; by rewrite Ha).
  split; [done|]. split; [|done]. split; try done.
  - intros key. unfold acct_balance. simpl. rewrite sum_map_insert by done.
    rewrite (Z.add_comm (sum_map _ _)). f_equal.
    unfold entry_on, at_key. rewrite (bool_decide_ext _ (key = row_key a)); [done|].
    unfold key_of in *. simpl. rewrite Hk. naive_solver.
  - intros t. unfold tx_balance. simpl. rewrite sum_map_insert by done.
    rewrite (Z.add_comm (sum_map _ _)). f_equal. unfold entry_of, at_key.
    destruct (String.eqb_spec (le_transaction_id row) t),
      (bool_decide_reflect (t = le_transaction_id row)); congruence.
  - destruct Hwf as [He Hacc Hu]. split; simpl; [|done|done].
    intros k e. rewrite lookup_insert_Some. intros [[<- <-]|[_ Hk']]; [|by apply (He k)].
    by rewrite E, Ha.
Qed.

Lemma insertEntry_delta txID aid amount memo now db u db' key :
  insertEntry txID aid amount memo now db = (Ok u, db') → ledger_wf db → key_of db aid = Some key →
  ldelta db db' (at_key key amount) (at_key txID amount) [] ∧
  db_ledger_transactions db' = db_ledger_transactions db.
Proof.
  unfold insertEntry. intros H Hwf Hk. run_inv.
  match goal with H : ids_New _ _ = _ |- _ => pose proof H as Hid;
    apply ids_New_delta in Hid; [|done] end.
  match goal with H : insert_entry_row _ _ _ = _ |- _ => apply insert_entry_row_delta in H
    as (key' & Hk' & Hd & Ht); [|by destruct Hid] end.
  match goal with H : ids_New _ _ = _ |- _ => apply ids_New_ok in H as (? & ? & _ & _ & ->) end.
  simpl in *. assert (key' = key) as -> by (unfold key_of in *; simpl in *; congruence).
  split; [|done]. eapply ldelta_ext; [exact (ldelta_trans _ _ _ _ _ _ _ _ _ Hid Hd)| |]; done.
Qed.

Lemma account_matches_key ot oid aty cur k a :
  account_matches ot oid aty cur k a = true ↔ row_key a = (ot, oid, aty, cur).
Proof.
  unfold account_matches, row_key. rewrite !andb_true_iff, !String.eqb_eq. naive_solver.
Qed.

(** Accounts may be added or touched as long as the keys of existing ones stay. *)
Lemma ldelta_accounts db f :
  ledger_wf db →
  (∀ a key, key_of db a = Some key → key_of (db <| db_ledger_accounts ::= f |>) a = Some key) →
  (∀ a1 a2 k, key_of (db <| db_ledger_accounts ::= f |>) a1 = Some k →
              key_of (db <| db_ledger_accounts ::= f |>) a2 = Some k → a1 = a2) →
  ldelta db (db <| db_ledger_accounts ::= f |>) no_delta no_delta [].
Proof.
  intros [He Ha Hu] Hkeys Huniq. split; try done; unfold no_delta.
  - intros key. rewrite Z.add_0_r. apply (sum_map_ext _ (entry_on db key) (db_ledger_entries db)).
    intros k e Hk. apply He in Hk as [_ [a Ha']]. unfold entry_on.
    assert (Hold : key_of db (le_account_id e) = Some (row_key a)) by (unfold key_of; by rewrite Ha').
    by rewrite Hold, (Hkeys _ _ Hold).
  - intros t. by rewrite Z.add_0_r.
  - split; simpl; [|done|done]. intros k e Hk. apply He in Hk as [Ht [a Ha']]. split; [done|].
    assert (Hold : key_of db (le_account_id e) = Some (row_key a)) by (unfold key_of; by rewrite Ha').
    apply Hkeys in Hold. unfold key_of in Hold. simpl in Hold.
    by destruct (f (db_ledger_accounts db) !! le_account_id e).
Qed.

Lemma ensureAccount_delta ot oid aty db aid db' :
  ensureAccount ot oid aty db = (Ok aid, db') → ledger_wf db →
  ldelta db db' no_delta no_delta [] ∧ key_of db' aid = Some (ot, oid, aty, CurrencyUSDMicro) ∧
  db_ledger_transactions db' = db_ledger_transactions db.
Proof.
  unfold ensureAccount. intros H Hwf. run_inv.
  match goal with H : ids_New _ _ = _ |- _ => pose proof H as Hid;
    apply ids_New_delta in Hid; [|done];
    apply ids_New_ok in H as (b & rest & _ & -> & ->) end.
  set (db1 := db <| db_entropy := rest |>) in *. destruct Hwf as [He Ha Hu].
  destruct (rows_where _ _) as [|[actual a] l] eqn:E; run_inv.
  - match goal with H : constraint _ _ _ = _ |- _ => apply constraint_ok in H as [Hf ?]; simplify_eq end.
    run_inv. apply bool_decide_eq_true in Hf.
    split_and!; [|unfold key_of; simpl; by rewrite lookup_insert_eq|done].
    assert (Hnone : ∀ a, key_of db a ≠ Some (ot, oid, aty, CurrencyUSDMicro)).
    { intros a Hk. unfold key_of in Hk. destruct (db_ledger_accounts db !! a) as [r|] eqn:Er; [|done].
      apply (inj Some) in Hk. assert (Hin : (a, r) ∈ rows_where (account_matches ot oid aty CurrencyUSDMicro)
        (db_ledger_accounts db)) by (apply elem_of_rows_where; by rewrite account_matches_key).
      rewrite E in Hin. by apply not_elem_of_nil in Hin. }
    set (row := {| ac_owner_type := ot; ac_owner_id := oid; ac_account_type := aty;
      ac_currency := CurrencyUSDMicro; ac_status := "active" |}).
    assert (Hd : ldelta db1 (db1 <| db_ledger_accounts ::= <["acct" +:+ "_" +:+ b := row]> |>)
      no_delta no_delta []);
      [|by eapply ldelta_ext; [exact (ldelta_trans _ _ _ _ _ _ _ _ _ Hid Hd)| |]].
    apply ldelta_accounts; [apply Hid| |]; unfold key_of; simpl.
    + intros a key Hk. rewrite lookup_insert_ne; [done|]. intros <-. by rewrite Hf in Hk.
    + intros a1 a2 k. rewrite !fmap_Some. setoid_rewrite lookup_insert_Some.
      intros (r1 & [[<- <-]|[? H1]] & ->) (r2 & [[<- <-]|[? H2]] & Hk); try done.
      * exfalso. apply (Hnone a2). unfold key_of. rewrite H2. simpl. by rewrite <-Hk.
      * exfalso. apply (Hnone a1). unfold key_of. rewrite H1. simpl. by rewrite Hk.
      * apply (Ha a1 a2 (row_key r1)); unfold key_of; rewrite ?H1, ?H2; simpl; congruence.
  - assert (Hin : (actual, a) ∈ rows_where (account_matches ot oid aty CurrencyUSDMicro)
      (db_ledger_accounts db)) by (rewrite E; constructor).
    apply elem_of_rows_where in Hin as [Hact Hm%account_matches_key].
    assert (Hsame : ∀ x, key_of (db1 <| db_ledger_accounts ::=
      <[actual := a <| ac_status := "active" |>]> |>) x = key_of db x).
    { intros x'. unfold key_of. simpl. destruct (decide (actual = x')) as [<-|];
        [by rewrite lookup_insert_eq, Hact|by rewrite lookup_insert_ne]. }
    split_and!; [|rewrite Hsame; unfold key_of; by rewrite Hact, <-Hm|done].
    assert (Hd : ldelta db1 (db1 <| db_ledger_accounts ::=
      <[actual := a <| ac_status := "active" |>]> |>) no_delta no_delta []).
    { apply ldelta_accounts; [apply Hid|intros x' key; by rewrite Hsame|].
      intros a1 a2 k. rewrite !Hsame. apply Ha. }
    by eapply ldelta_ext; [exact (ldelta_trans _ _ _ _ _ _ _ _ _ Hid Hd)| |].
Qed.

Lemma insert_hold_ok holdID row db u db' :
  insert_hold holdID row db = (Ok u, db') →
  db' = db <| db_host_credit_holds ::= <[holdID := row]> |> ∧
  db_host_credit_holds db !! holdID = None ∧ 0 ≤ ch_amount_microdollars row ∧
  (∀ k h, db_host_credit_holds db !! k = Some h → ch_attempt_id h ≠ ch_attempt_id row).
Proof.
  unfold insert_hold. intros H. run_inv.
  repeat match goal with H : constraint _ _ _ = _ |- _ => apply constraint_ok in H as [? ?]; simplify_eq end.
  run_inv.
  match goal with H : fresh_key _ _ = true |- _ => apply bool_decide_eq_true in H end.
  match goal with H : negb _ = true |- _ => apply negb_true_iff in H; rewrite exists_row_false in H;
    rename H into Hu end.
  match goal with H : (0 <=? _) = true |- _ => apply Z.leb_le in H end.
  split_and!; try done. intros k h Hk Heq. specialize (Hu k h Hk). by rewrite Heq, String.eqb_refl in Hu.
Qed.

Lemma fresh_tx_balance db t :
  ledger_wf db → db_ledger_transactions db !! t = None → tx_balance db t = 0.
Proof.
  intros [He _ _] Ht. unfold tx_balance. rewrite (sum_map_ext _ (λ _, 0)).
  - unfold sum_map. induction (map_to_list _); rewrite ?sum_list_cons; [done|lia].
  - intros k e Hk. apply He in Hk as [[lt Hlt] _]. unfold entry_of.
    destruct (String.eqb_spec (le_transaction_id e) t); congruence.
Qed.

(** Ledger statements leave the payout items alone. *)
Definition items_are (X : gmap string PayoutItemRow) (db : DB) : Prop := db_payout_items db = X.
#[export] Instance items_are_tables X : TableProp (items_are X).
Proof. by intros db ent. Qed.


Lemma insert_transaction_items X t r : preserves (items_are X) (insert_transaction t r).
Proof. unfold insert_transaction. solve_inv. Qed.
Lemma ensureAccount_items X a b c : preserves (items_are X) (ensureAccount a b c).
Proof. unfold ensureAccount. solve_inv. Qed.
Lemma insertEntry_items X t a v m n : preserves (items_are X) (insertEntry t a v m n).
Proof. unfold insertEntry, insert_entry_row. solve_inv. Qed.
Lemma post_transaction_items X t n : preserves (items_are X) (post_transaction t n).
Proof. unfold post_transaction. solve_inv. Qed.
#[export] Hint Resolve insert_transaction_items ensureAccount_items insertEntry_items
  post_transaction_items : inv.

Lemma release_credit_items X now c : preserves (items_are X) (release_credit now c).
Proof. unfold release_credit, set_hold_state. solve_inv. Qed.

(** Adding a statement's effect to what has happened so far, and carrying the keys of
    the accounts in use forward. *)
Ltac ld_add Hacc Hd :=
  repeat match type of Hd with
  | ldelta ?d ?d' _ _ _ =>
      match goal with Hk : key_of d _ = Some _ |- _ => apply (ld_keys _ _ _ _ _ Hd) in Hk end
  end;
  let Hn := fresh "Hacc" in
  pose proof (ldelta_trans _ _ _ _ _ _ _ _ _ Hacc Hd) as Hn; clear Hacc Hd; rename Hn into Hacc.

(** One ledger statement of a run, from the state reached so far. *)
Ltac ld_step :=
  match goal with
  | Hacc : ldelta _ ?d _ _ _, Hs : ids_New _ ?d = (Ok _, _) |- _ =>
      let Hd := fresh "Hd" in
      pose proof (ids_New_delta _ _ _ _ Hs (ld_wf _ _ _ _ _ Hacc)) as Hd; clear Hs; ld_add Hacc Hd
  | Hacc : ldelta _ ?d _ _ _, Hs : insert_transaction _ _ ?d = (Ok _, _) |- _ =>
      let Hd := fresh "Hd" in let Hf := fresh "Hfresh" in
      destruct (insert_transaction_delta _ _ _ _ _ Hs eq_refl (ld_wf _ _ _ _ _ Hacc)) as (Hd & _ & Hf);
      rewrite (ld_headers _ _ _ _ _ Hacc) in Hf by set_solver; clear Hs; ld_add Hacc Hd
  | Hacc : ldelta _ ?d _ _ _, Hs : insert_transaction_or_duplicate _ _ ?d = (Ok _, _) |- _ =>
      let Hd := fresh "Hd" in let Hf := fresh "Hfresh" in
      destruct (insert_transaction_or_duplicate_delta _ _ _ _ _ Hs eq_refl (ld_wf _ _ _ _ _ Hacc))
        as (Hd & _ & Hf);
      rewrite (ld_headers _ _ _ _ _ Hacc) in Hf by set_solver; clear Hs; ld_add Hacc Hd
  | Hacc : ldelta _ ?d _ _ _, Hs : ensureAccount _ _ _ ?d = (Ok _, _) |- _ =>
      let Hd := fresh "Hd" in let Hk := fresh "Hk" in
      destruct (ensureAccount_delta _ _ _ _ _ _ Hs (ld_wf _ _ _ _ _ Hacc)) as (Hd & Hk & _);
      clear Hs; ld_add Hacc Hd
  | Hacc : ldelta _ ?d _ _ _, Hs : insertEntry _ ?a _ _ _ ?d = (Ok _, _), Hk : key_of ?d ?a = Some _ |- _ =>
      let Hd := fresh "Hd" in
      destruct (insertEntry_delta _ _ _ _ _ _ _ _ _ Hs (ld_wf _ _ _ _ _ Hacc) Hk) as (Hd & _);
      clear Hs; ld_add Hacc Hd
  | Hacc : ldelta _ ?d _ _ _, Hs : post_transaction _ _ ?d = (Ok _, _) |- _ =>
      let Hd := fresh "Hd" in
      pose proof (post_transaction_delta _ _ _ _ _ Hs (ld_wf _ _ _ _ _ Hacc)) as Hd; clear Hs; ld_add Hacc Hd
  end.

Definition host_key (node aty : string) : acct_key := ("host", node, aty, CurrencyUSDMicro).
Definition platform_key (aty : string) : acct_key :=
  ("platform", DefaultPlatformLedgerOwnerID, aty, CurrencyUSDMicro).

(** The amounts of a posting at a price. *)
Definition customer_charge (p : AcceptedJobPosting) (price : ModelPriceRow) : Z :=
  wrap64 (chargeForTokens (ap_PromptTokens p) (mp_customer_input_per_million_microdollars price) +
          chargeForTokens (ap_CompletionTokens p) (mp_customer_output_per_million_microdollars price)).
Definition host_credit (tokens : Z) (price : ModelPriceRow) : Z :=
  chargeForTokens tokens (mp_host_credit_per_million_output_microdollars price).
Definition overhead (p : AcceptedJobPosting) : Z := Z.max 0 (ap_VerificationOverheadMicrodollars p).
Definition platform_margin (p : AcceptedJobPosting) (price : ModelPriceRow) : Z :=
  wrap64 (wrap64 (customer_charge p price - host_credit (ap_CompletionTokens p) price) - overhead p).

Definition posted_at (db : DB) (t : Z) : Z := if is_zero_time t then db_now db else t.

(** What [postAcceptedJob] does when it succeeds. *)
Record accepted_posting (p : AcceptedJobPosting) (db : DB) (r : AcceptedJobLedger) (db' : DB)
    (org node : string) (price : ModelPriceRow) (db1 : DB) : Prop := {
  apo_pricing : pricing db (ap_JobID p) (ap_AttemptID p) (posted_at db (ap_ReceivedAt p)) =
                Some (org, node, price);
  apo_charge : al_CustomerCharge r = customer_charge p price;
  apo_credit : al_HostCredit r = host_credit (ap_CompletionTokens p) price;
  apo_margin : al_PlatformMargin r = platform_margin p price;
  apo_fresh : db_ledger_transactions db !! al_TransactionID r = None;
  apo_delta : ldelta db db1
    (λ k, at_key ("customer", org, AccountCustomerUsage, CurrencyUSDMicro) (customer_charge p price) k +
          at_key (host_key node AccountHostPendingCredit) (wrap64 (- host_credit (ap_CompletionTokens p) price)) k +
          at_key (platform_key AccountPlatformVerification) (overhead p) k +
          at_key (platform_key AccountPlatformMargin) (wrap64 (- platform_margin p price)) k)
    (at_key (al_TransactionID r)
       (customer_charge p price + wrap64 (- host_credit (ap_CompletionTokens p) price) + overhead p +
        wrap64 (- platform_margin p price)))
    [al_TransactionID r];
  apo_hold_fresh : db_host_credit_holds db !! al_CreditHoldID r = None;
  apo_credit_pos : 0 ≤ host_credit (ap_CompletionTokens p) price;
  apo_attempt : ∀ k h, db_host_credit_holds db !! k = Some h → ch_attempt_id h ≠ ap_AttemptID p;
  apo_state : db' = db1 <| db_host_credit_holds ::= <[al_CreditHoldID r :=
    hold_row node (ap_JobID p) (ap_AttemptID p) (al_TransactionID r)
      (host_credit (ap_CompletionTokens p) price) (al_AvailableAt r) (posted_at db (ap_ReceivedAt p))]> |>
}.

Lemma ldelta_final db db' da dt l da' dt' l' :
  ldelta db db' da dt l → (∀ k, da k = da' k) → (∀ t, dt t = dt' t) → l ⊆ l' → ldelta db db' da' dt' l'.
Proof.
  intros [A T K D W H B N J P C] Ha Ht Hl.
  split; auto; intros; rewrite <-?Ha, <-?Ht; auto.
Qed.

Lemma at_key_add {A} `{EqDecision A} (k : A) v w k' : at_key k v k' + at_key k w k' = at_key k (v + w) k'.
Proof. unfold at_key. case_bool_decide; lia. Qed.
Lemma at_key_0 {A} `{EqDecision A} (k : A) k' : at_key k 0 k' = 0.
Proof. unfold at_key. by case_bool_decide. Qed.

Ltac ld_final Hacc :=
  refine (ldelta_final _ _ _ _ _ _ _ _ Hacc _ _ _);
  [intros ?; unfold no_delta; cbv beta; rewrite ?at_key_0; lia
  |intros ?; unfold no_delta; cbv beta; rewrite <-?at_key_add, ?at_key_0;
   first [lia|unfold at_key; destruct (bool_decide _); lia]
  |set_solver].

Lemma postAcceptedJob_run p db r db' :
  postAcceptedJob p db = (Ok r, db') → ledger_wf db →
  ∃ org node price db1, accepted_posting p db r db' org node price db1.
Proof.
  unfold postAcceptedJob, load_pricing. intros H Hwf. run_inv.
  match goal with H : or_now _ _ = _ |- _ => apply or_now_ok in H as [-> ->] end. run_inv.
  match goal with pr : (string * string * ModelPriceRow)%type |- _ => destruct pr as [[org node] price] end.
  run_inv. pose proof (ldelta_refl db Hwf) as Hacc.
  repeat ld_step. exists org, node, price.
  match goal with H : (if 0 <? ?v then _ else _) ?d = _ |- _ =>
    destruct (Z.ltb_spec 0 v) as [Hv|Hv]; run_inv end; repeat ld_step.
  all: match goal with H : insert_hold _ _ _ = _ |- _ => apply insert_hold_ok in H as (-> & Hfh & Hh & Hua) end.
  all: rewrite (ld_holds _ _ _ _ _ Hacc) in Hfh, Hua; eexists.
  2: assert (Z.max 0 (ap_VerificationOverheadMicrodollars p) = 0) as Hz by lia.
  all: split; try reflexivity; try assumption.
  all: unfold platform_margin, customer_charge, host_key, platform_key, host_credit, overhead in *; rewrite ?Hz in *;
    simpl al_TransactionID; ld_final Hacc.
Qed.

(** ** Postings balance by construction *)

(** No product of tokens and price overflows. *)
Record posting_fits (p : AcceptedJobPosting) (price : ModelPriceRow) : Prop := {
  fits_input : ap_PromptTokens p * mp_customer_input_per_million_microdollars price + 500000 < 2 ^ 63;
  fits_output : ap_CompletionTokens p * mp_customer_output_per_million_microdollars price + 500000 < 2 ^ 63;
  fits_host : ap_CompletionTokens p * mp_host_credit_per_million_output_microdollars price + 500000 < 2 ^ 63;
  fits_overhead : ap_VerificationOverheadMicrodollars p < 2 ^ 61
}.

Lemma charge_small tokens price :
  tokens * price + 500000 < 2 ^ 63 → 0 ≤ chargeForTokens tokens price < 2 ^ 50.
Proof.
  intros H. split; [by apply charge_nonneg|].
  destruct (decide (0 < tokens ∧ 0 < price)) as [[Ht Hp]|Hn].
  - rewrite charge_exact by done. apply Z.div_lt_upper_bound; lia.
  - unfold chargeForTokens.
    destruct (Z.leb_spec tokens 0), (Z.leb_spec price 0); simpl orb; cbv iota; try lia.
Qed.

Lemma amounts_exact p price :
  posting_fits p price →
  customer_charge p price =
    chargeForTokens (ap_PromptTokens p) (mp_customer_input_per_million_microdollars price) +
    chargeForTokens (ap_CompletionTokens p) (mp_customer_output_per_million_microdollars price) ∧
  0 ≤ customer_charge p price < 2 ^ 51 ∧
  0 ≤ host_credit (ap_CompletionTokens p) price < 2 ^ 50 ∧
  platform_margin p price =
    customer_charge p price - host_credit (ap_CompletionTokens p) price - overhead p ∧
  wrap64 (- host_credit (ap_CompletionTokens p) price) = - host_credit (ap_CompletionTokens p) price ∧
  wrap64 (- platform_margin p price) = - platform_margin p price.
Proof.
  intros [H1%charge_small H2%charge_small H3%charge_small H4].
  assert (Hc : customer_charge p price =
    chargeForTokens (ap_PromptTokens p) (mp_customer_input_per_million_microdollars price) +
    chargeForTokens (ap_CompletionTokens p) (mp_customer_output_per_million_microdollars price)).
  { unfold customer_charge. apply wrap64_id. unfold in_int64. lia. }
  assert (Hh : 0 ≤ host_credit (ap_CompletionTokens p) price < 2 ^ 50) by done.
  assert (Ho : 0 ≤ overhead p < 2 ^ 61) by (unfold overhead; lia).
  assert (Hm : platform_margin p price =
    customer_charge p price - host_credit (ap_CompletionTokens p) price - overhead p).
  { unfold platform_margin. rewrite (wrap64_id (customer_charge p price - _)), wrap64_id;
      unfold in_int64; lia. }
  split_and!; try lia; apply wrap64_id; unfold in_int64; lia.
Qed.

Lemma at_key_eq {A} `{EqDecision A} (k : A) v : at_key k v k = v.
Proof. unfold at_key. by rewrite bool_decide_eq_true_2. Qed.
Lemma at_key_ne {A} `{EqDecision A} (k k' : A) v : k' ≠ k → at_key k v k' = 0.
Proof. intros. unfold at_key. by rewrite bool_decide_eq_false_2. Qed.

(** A single touched transaction that balances keeps every posted one balanced. *)
Lemma ldelta_balanced db db' da t v :
  ldelta db db' da (at_key t v) [t] → ledger_wf db → posted_balanced db →
  db_ledger_transactions db !! t = None → v = 0 → posted_balanced db'.
Proof.
  intros Hd Hwf Hb Hf -> t' lt Hlt Hp. rewrite (ld_tx _ _ _ _ _ Hd).
  destruct (decide (t' = t)) as [->|Hne].
  - rewrite at_key_eq, fresh_tx_balance by done. done.
  - rewrite at_key_ne by done. rewrite (ld_headers _ _ _ _ _ Hd) in Hlt by set_solver.
    rewrite (Hb t' lt) by done. done.
Qed.

Lemma posted_balanced_holds db f : posted_balanced (db <| db_host_credit_holds ::= f |>) ↔ posted_balanced db.
Proof. done. Qed.

(** Statements that leave the transaction headers alone, and the one that posts. *)
Lemma ids_New_txs p db id db' :
  ids_New p db = (Ok id, db') → db_ledger_transactions db' = db_ledger_transactions db.
Proof. by intros (b & rest & _ & _ & ->)%ids_New_ok. Qed.
Lemma ensureAccount_txs ot oid aty db aid db' :
  ensureAccount ot oid aty db = (Ok aid, db') → db_ledger_transactions db' = db_ledger_transactions db.
Proof.
  unfold ensureAccount. intros H. run_inv.
  match goal with H : ids_New _ _ = _ |- _ => apply ids_New_txs in H as Ht end.
  destruct (rows_where _ _) as [|[]]; run_inv; [|done].
  by match goal with H : constraint _ _ _ = _ |- _ => apply constraint_ok in H as [? ->] end.
Qed.
Lemma insertEntry_txs t a v m n db u db' :
  insertEntry t a v m n db = (Ok u, db') → db_ledger_transactions db' = db_ledger_transactions db.
Proof.
  unfold insertEntry, insert_entry_row. intros H. run_inv.
  match goal with H : ids_New _ _ = _ |- _ => apply ids_New_txs in H as Ht end.
  repeat match goal with H : constraint _ _ _ = _ |- _ => apply constraint_ok in H as [? ->] end.
  by case_match; run_inv.
Qed.
Lemma post_transaction_posts t n db u db' lt :
  post_transaction t n db = (Ok u, db') → db_ledger_transactions db !! t = Some lt →
  db_ledger_transactions db' !! t = Some (lt <| lt_status := LtPosted |> <| lt_posted_at := Some n |>).
Proof.
  unfold post_transaction. intros H Hlt. run_inv. rewrite Hlt in *. run_inv.
  match goal with H : constraint _ _ _ = _ |- _ => apply constraint_ok in H as [? ->] end.
  simpl. by rewrite lookup_insert_eq.
Qed.

Ltac txs_step :=
  match goal with
  | Hs : ids_New _ _ = (Ok _, _) |- _ => apply ids_New_txs in Hs
  | Hs : ensureAccount _ _ _ _ = (Ok _, _) |- _ => apply ensureAccount_txs in Hs
  | Hs : insertEntry _ _ _ _ _ _ = (Ok _, _) |- _ => apply insertEntry_txs in Hs
  | Hs : insert_hold _ _ _ = (Ok _, _) |- _ => apply insert_hold_ok in Hs as [-> _]
  end.

Ltac rewrite_txs :=
  repeat match goal with H : db_ledger_transactions ?d = _ |- context [db_ledger_transactions ?d] =>
    rewrite H end.

Lemma postAcceptedJob_posted p db r db' :
  postAcceptedJob p db = (Ok r, db') → ledger_wf db →
  ∃ lt, db_ledger_transactions db' !! al_TransactionID r = Some lt ∧ lt_status lt = LtPosted ∧
    lt_transaction_type lt = TransactionJobAcceptance ∧ lt_reference_type lt = Some "job" ∧
    lt_reference_id lt = Some (ap_JobID p).
Proof.
  unfold postAcceptedJob, load_pricing. intros H Hwf. run_inv.
  match goal with pr : (string * string * ModelPriceRow)%type |- _ => destruct pr as [[org node] price] end.
  run_inv. unfold insert_transaction_or_duplicate in *. run_inv.
  match goal with H : (if 0 <? ?v then _ else _) ?d = _ |- _ =>
    destruct (Z.ltb_spec 0 v) as [Hv|Hv]; run_inv end; repeat txs_step.
  all: match goal with H : post_transaction _ _ _ = _ |- _ => eapply post_transaction_posts in H as Hp;
    [|rewrite_txs; simpl; by rewrite lookup_insert_eq] end.
  all: eexists; split; [simpl; rewrite_txs; exact Hp|done].
Qed.

(** C7. The accepted-job posting is double-entry: on a consistent ledger whose amounts do
    not overflow, once its statements have run, what the customer is charged is what
    the host is credited plus the platform margin, and the commit check passes, so the
    posting takes effect. The one exception is a positive verification overhead, which is
    entered with the wrong sign: the entries then sum to twice the overhead and the whole
    posting is refused, leaving every table as it was. *)
Theorem accepted_posting_balances p db r db' :
  ledger_wf db → posted_balanced db → postAcceptedJob p db = (Ok r, db') →
  (∀ org node price, pricing db (ap_JobID p) (ap_AttemptID p) (posted_at db (ap_ReceivedAt p)) =
     Some (org, node, price) → posting_fits p price) →
  al_CustomerCharge r = al_HostCredit r + al_PlatformMargin r + overhead p ∧
  tx_balance db' (al_TransactionID r) = 2 * overhead p ∧
  (overhead p = 0 → PostAcceptedJob p db = (Ok r, db')) ∧
  (0 < overhead p → ∃ e ent, PostAcceptedJob p db = (Err e, db <| db_entropy := ent |>)).
Proof.
  intros Hwf Hb Hrun Hfits.
  destruct (postAcceptedJob_run p db r db' Hrun Hwf) as (org & node & price & db1 & Hpost).
  destruct Hpost as [Hpr Hc Hh Hm Hf Hd _ _ _ ->].
  destruct (amounts_exact p price (Hfits _ _ _ Hpr)) as (_ & Hcb & Hhb & Hme & Hw1 & Hw2).
  rewrite Hw1, Hw2, Hme in Hd.
  assert (Hbal : tx_balance db1 (al_TransactionID r) = 2 * overhead p).
  { rewrite (ld_tx _ _ _ _ _ Hd), at_key_eq, fresh_tx_balance by done. lia. }
  split_and!; [lia|done| |].
  - intros Ho. apply transaction_ok. split; [done|]. apply posted_balanced_holds.
    by apply (ldelta_balanced _ _ _ _ _ Hd); [..|lia].
  - intros Ho. destruct (PostAcceptedJob p db) as [[r'|e] db2] eqn:E.
    + exfalso. apply transaction_ok in E as [E Hb2]. rewrite Hrun in E. simplify_eq.
      destruct (postAcceptedJob_posted p db r' _ Hrun Hwf) as (lt & Hlt & Hps & _).
      specialize (Hb2 _ _ Hlt Hps). simpl in *. unfold tx_balance in *. simpl in Hb2. lia.
    + apply transaction_err in E as [ent ->]. by exists e, ent.
Qed.

(** ** One acceptance per job *)

Definition job_accepted (db : DB) (jobID : string) : Prop :=
  ∃ t lt, db_ledger_transactions db !! t = Some lt ∧ is_acceptance lt ∧
    lt_reference_type lt = Some "job" ∧ lt_reference_id lt = Some jobID.

Lemma postAcceptedJob_refused p db r db' :
  ledger_wf db → job_accepted db (ap_JobID p) → postAcceptedJob p db ≠ (Ok r, db').
Proof.
  intros Hwf (t & lt & Hlt & Hacc & Hr1 & Hr2) Hrun.
  destruct (postAcceptedJob_run p db r db' Hrun Hwf) as (org & node & price & db1 & Hpost).
  destruct (postAcceptedJob_posted p db r db' Hrun Hwf) as (lt' & Hlt' & Hp' & Ht' & Hr1' & Hr2').
  destruct Hpost as [_ _ _ _ Hf Hd _ _ _ ->]. simpl in Hlt'.
  assert (Hne : t ≠ al_TransactionID r) by (intros ->; congruence).
  apply Hne. apply (wf_acceptance db1 (ld_wf _ _ _ _ _ Hd) t (al_TransactionID r) lt lt');
    try congruence; try done.
  rewrite (ld_headers _ _ _ _ _ Hd) by set_solver. done.
Qed.

(** A job is billed at most once: when an acceptance of the job is already posted,
    posting it again fails and leaves every table as it was. *)
Theorem one_acceptance_per_job p db :
  ledger_wf db → job_accepted db (ap_JobID p) →
  ∃ e ent, PostAcceptedJob p db = (Err e, db <| db_entropy := ent |>).
Proof.
  intros Hwf Hacc. destruct (PostAcceptedJob p db) as [[r|e] db'] eqn:E.
  - apply transaction_ok in E as [E _]. by apply postAcceptedJob_refused in E.
  - apply transaction_err in E as [ent ->]. by exists e, ent.
Qed.

(** ** Host credit: holds and accounts agree *)

Definition hold_amount (q : CreditHoldRow → bool) (h : CreditHoldRow) : Z :=
  if q h then ch_amount_microdollars h else 0.
Definition held (db : DB) (q : CreditHoldRow → bool) : Z :=
  sum_map (hold_amount q) (db_host_credit_holds db).

Definition pending_of (node : string) (h : CreditHoldRow) : bool :=
  String.eqb (ch_node_id h) node && bool_decide (ch_state h = HPending).
(** Credit on the host's available account: released, reserved, or returned to it by
    the reversal of a payout. *)
Definition available_of (node : string) (h : CreditHoldRow) : bool :=
  String.eqb (ch_node_id h) node &&
  bool_decide (ch_state h ∈ [HAvailable; HPayoutPending; HReversed]).

(** The accounts and the holds agree, up to [off]: what reversals of single transactions have
    added to each account. *)
Record subledger_at (off : acct_key → Z) (db : DB) : Prop := {
  sl_wf : ledger_wf db;
  sl_balanced : posted_balanced db;
  sl_amounts : ∀ k h, db_host_credit_holds db !! k = Some h → 0 ≤ ch_amount_microdollars h < 2 ^ 63;
  sl_pending : ∀ node,
    acct_balance db (host_key node AccountHostPendingCredit) =
      off (host_key node AccountHostPendingCredit) - held db (pending_of node);
  sl_available : ∀ node,
    acct_balance db (host_key node AccountHostAvailableCredit) =
      off (host_key node AccountHostAvailableCredit) - held db (available_of node)
}.
(** Without any such reversal they agree. *)
Notation subledger := (subledger_at no_delta).

#[export] Instance subledger_tables off : TableProp (subledger_at off).
Proof.
  intros db ent. split; intros [W B A P V]; split; auto;
    (apply (table_prop (P := ledger_wf) db ent) || apply (table_prop (P := posted_balanced) db ent)); done.
Qed.

Lemma wrap64_opp v : 0 ≤ v < 2 ^ 63 → wrap64 (- v) = - v.
Proof. intros. apply wrap64_id. unfold in_int64. lia. Qed.

Lemma host_key_inj n a n' a' : host_key n a = host_key n' a' ↔ n = n' ∧ a = a'.
Proof. unfold host_key. naive_solver. Qed.

(** A posting that adds [- amount] to a host's pending account, together with a pending
    hold of that amount. *)
Lemma subledger_new_hold {off} db db1 da t v holdID row amount :
  subledger_at off db → ldelta db db1 da (at_key t v) [t] → db_ledger_transactions db !! t = None → v = 0 →
  (∀ n, da (host_key n AccountHostPendingCredit) = at_key (ch_node_id row) (- amount) n) →
  (∀ n, da (host_key n AccountHostAvailableCredit) = 0) →
  db_host_credit_holds db !! holdID = None → ch_amount_microdollars row = amount →
  ch_state row = HPending → 0 ≤ amount < 2 ^ 63 →
  subledger_at off (db1 <| db_host_credit_holds ::= <[holdID := row]> |>).
Proof.
  intros [W B A P V] Hd Hf Hv Hp Ha Hfresh Hamt Hst Hpos.
  assert (Hsum : ∀ q, held (db1 <| db_host_credit_holds ::= <[holdID := row]> |>) q =
    held db q + hold_amount q row).
  { intros q. unfold held. simpl. rewrite (ld_holds _ _ _ _ _ Hd), sum_map_insert by done. lia. }
  split.
  - destruct (ld_wf _ _ _ _ _ Hd). by split.
  - apply posted_balanced_holds. by apply (ldelta_balanced _ _ _ _ _ Hd).
  - simpl. rewrite (ld_holds _ _ _ _ _ Hd). intros k h.
    rewrite lookup_insert_Some. intros [[<- <-]|[_ Hk]]; [lia|by apply (A k)].
  - intros n. rewrite Hsum. change (acct_balance _ _) with (acct_balance db1 (host_key n AccountHostPendingCredit)).
    rewrite (ld_acct _ _ _ _ _ Hd), P, Hp. unfold hold_amount, pending_of, at_key. rewrite Hst, Hamt.
    rewrite (bool_decide_eq_true_2 (HPending = HPending)), andb_true_r by done.
    destruct (String.eqb_spec (ch_node_id row) n), (bool_decide_reflect (n = ch_node_id row));
      try congruence; lia.
  - intros n. rewrite Hsum. change (acct_balance _ _) with (acct_balance db1 (host_key n AccountHostAvailableCredit)).
    rewrite (ld_acct _ _ _ _ _ Hd), V, Ha. unfold hold_amount, available_of. rewrite Hst.
    rewrite bool_decide_eq_false_2, andb_false_r by set_solver. lia.
Qed.

Lemma charge_lt tokens price : chargeForTokens tokens price < 2 ^ 63.
Proof.
  unfold chargeForTokens. destruct (_ || _); [lia|].
  pose proof (wrap64_range (wrap64 (tokens * price) + 500000)) as H. unfold in_int64 in H.
  set (n := wrap64 _) in *. pose proof (Z.quot_rem' n 1000000).
  pose proof (Z.rem_bound_abs n 1000000). lia.
Qed.

Lemma committed_zero db db1 da t v lt :
  ledger_wf db → db_ledger_transactions db !! t = None → ldelta db db1 da (at_key t v) [t] →
  posted_balanced db1 → db_ledger_transactions db1 !! t = Some lt → lt_status lt = LtPosted → v = 0.
Proof.
  intros Hwf Hf Hd Hb Hlt Hp. specialize (Hb t lt Hlt Hp).
  rewrite (ld_tx _ _ _ _ _ Hd), at_key_eq, fresh_tx_balance in Hb by done. lia.
Qed.

Lemma postAcceptedJob_subledger {off} p db r db' :
  postAcceptedJob p db = (Ok r, db') → subledger_at off db → posted_balanced db' → subledger_at off db'.
Proof.
  intros Hrun Hs Hb. pose proof (sl_wf _ _ Hs) as Hwf.
  destruct (postAcceptedJob_run p db r db' Hrun Hwf) as (org & node & price & db1 & Hpost).
  destruct (postAcceptedJob_posted p db r db' Hrun Hwf) as (lt & Hlt & Hps & _).
  destruct Hpost as [Hpr Hc Hh Hm Hf Hd Hfh Hpos _ ->].
  pose proof (charge_lt (ap_CompletionTokens p) (mp_host_credit_per_million_output_microdollars price)).
  eapply (subledger_new_hold _ _ _ _ _ _ _ _ Hs Hd Hf); [|..|done|reflexivity|done|done].
  - by apply (committed_zero _ _ _ _ _ lt Hwf Hf Hd).
  - intros n. cbv beta. rewrite !at_key_ne by done. rewrite wrap64_opp by done.
    unfold at_key. rewrite (bool_decide_ext _ (n = node)); [simpl; lia|]. rewrite host_key_inj. naive_solver.
  - intros n. cbv beta. rewrite !at_key_ne; [done|..]; by intros [=].
Qed.

(** A successful verification-overhead posting leaves a consistent subledger. *)
Lemma postVerificationOverhead_subledger {off} p db r db' :
  postVerificationOverhead p db = (Ok r, db') → subledger_at off db → subledger_at off db'.
Proof.
  unfold postVerificationOverhead, load_pricing. intros H Hs. pose proof (sl_wf _ _ Hs) as Hwf. run_inv.
  match goal with H : or_now _ _ = _ |- _ => apply or_now_ok in H as [-> ->] end. run_inv.
  match goal with pr : (string * string * ModelPriceRow)%type |- _ => destruct pr as [[org node] price] end.
  run_inv. pose proof (ldelta_refl db Hwf) as Hacc. repeat ld_step.
  match goal with H : insert_hold _ _ _ = _ |- _ => apply insert_hold_ok in H as (-> & Hfh & Hpos & _) end.
  rewrite (ld_holds _ _ _ _ _ Hacc) in Hfh.
  simpl in Hpos. set (host := chargeForTokens _ _) in *.
  assert (Hhost : 0 ≤ host < 2 ^ 63) by (pose proof (charge_lt (vp_CompletionTokens p)
    (mp_host_credit_per_million_output_microdollars price)); done).
  rewrite (wrap64_opp host Hhost) in Hacc.
  eapply (subledger_new_hold db _ (λ k, at_key (platform_key AccountPlatformVerification) host k +
    at_key (host_key node AccountHostPendingCredit) (- host) k) _ 0 _ _ host Hs);
    [|exact Hfresh|done| | |exact Hfh|done|done|exact Hhost].
  - unfold platform_key, host_key. ld_final Hacc.
  - intros n. cbv beta. rewrite at_key_ne by done. unfold at_key.
    rewrite (bool_decide_ext _ (n = node)); [simpl; lia|]. rewrite host_key_inj. naive_solver.
  - intros n. cbv beta. rewrite !at_key_ne; [done|..]; by intros [=].
Qed.

Lemma subledger_intro {off} d holds :
  ledger_wf d → posted_balanced d →
  (∀ k h, holds !! k = Some h → 0 ≤ ch_amount_microdollars h < 2 ^ 63) →
  (∀ n, acct_balance d (host_key n AccountHostPendingCredit) = off (host_key n AccountHostPendingCredit) - sum_map (hold_amount (pending_of n)) holds) →
  (∀ n, acct_balance d (host_key n AccountHostAvailableCredit) = off (host_key n AccountHostAvailableCredit) - sum_map (hold_amount (available_of n)) holds) →
  subledger_at off (d <| db_host_credit_holds := holds |>).
Proof. intros [W1 W2 W3] B A P V. split; [by split|done|done|done|done]. Qed.

(** One release: the amount moves from the pending to the available account and the
    hold becomes available. *)
Lemma release_credit_subledger {off} now holdID h db u db' :
  release_credit now (holdID, h) db = (Ok u, db') → subledger_at off db →
  db_host_credit_holds db !! holdID = Some h → ch_state h = HPending →
  subledger_at off db' ∧
  db_host_credit_holds db' = <[holdID := h <| ch_state := HAvailable |> <| ch_updated_at := now |>]>
    (db_host_credit_holds db) ∧
  db_payout_items db' = db_payout_items db ∧ db_payout_batches db' = db_payout_batches db.
Proof.
  intros H Hs Hh Hst. pose proof (sl_wf _ _ Hs) as Hwf.
  assert (Hitems : db_payout_items db' = db_payout_items db).
  { pose proof (release_credit_items (db_payout_items db) now (holdID, h) db eq_refl) as Hp.
    by rewrite H in Hp. }
  unfold release_credit, set_hold_state in H. run_inv.
  pose proof (ldelta_refl db Hwf) as Hacc. repeat ld_step.
  destruct Hs as [W B A P V]. pose proof (A _ _ Hh) as Hamt. set (amt := ch_amount_microdollars h) in *.
  rewrite (wrap64_opp amt Hamt) in Hacc.
  match goal with Hf : db_ledger_transactions db !! ?t = None, Hacc : ldelta db ?d _ _ _ |- _ =>
    assert (Hd : ldelta db d (λ k, at_key (host_key (ch_node_id h) AccountHostPendingCredit) amt k +
      at_key (host_key (ch_node_id h) AccountHostAvailableCredit) (- amt) k) (at_key t 0) [t])
      by (unfold host_key; ld_final Hacc); clear Hacc; rename d into db1; rename Hf into Hfr end.
  pose proof (ld_holds _ _ _ _ _ Hd) as Hholds.
  set (h' := h <| ch_state := HAvailable |> <| ch_updated_at := now |>).
  assert (Hupd : update_where (λ k _, String.eqb k holdID)
    (λ h, h <| ch_state := HAvailable |> <| ch_updated_at := now |>) (db_host_credit_holds db1) =
    <[holdID := h']> (db_host_credit_holds db)) by by rewrite Hholds, (update_where_key _ _ _ h).
  simpl in Hupd |- *. rewrite Hupd.
  split; [|split_and!; [done|apply Hitems|apply (ld_batches _ _ _ _ _ Hd)]].
  apply (subledger_intro db1 (<[holdID := h']> (db_host_credit_holds db))).
  - apply Hd.
  - by apply (ldelta_balanced _ _ _ _ _ Hd).
  - intros k h0. rewrite lookup_insert_Some. intros [[<- <-]|[_ Hk']]; [done|by apply (A k)].
  - intros n. rewrite (ld_acct _ _ _ _ _ Hd), P. unfold held. rewrite (sum_map_update _ _ _ _ _ Hh).
    rewrite (at_key_ne (host_key _ AccountHostAvailableCredit)) by by intros [=].
    unfold hold_amount, pending_of, at_key. simpl. rewrite Hst.
    rewrite (bool_decide_ext _ (n = ch_node_id h)) by (rewrite host_key_inj; naive_solver).
    destruct (String.eqb_spec (ch_node_id h) n), (bool_decide_reflect (n = ch_node_id h));
      try congruence; simpl; fold amt; lia.
  - intros n. rewrite (ld_acct _ _ _ _ _ Hd), V. unfold held. rewrite (sum_map_update _ _ _ _ _ Hh).
    rewrite (at_key_ne (host_key _ AccountHostPendingCredit)) by by intros [=].
    unfold hold_amount, available_of, at_key. simpl. rewrite Hst.
    rewrite (bool_decide_ext _ (n = ch_node_id h)) by (rewrite host_key_inj; naive_solver).
    destruct (String.eqb_spec (ch_node_id h) n), (bool_decide_reflect (n = ch_node_id h));
      try congruence; simpl; fold amt; lia.
Qed.

#[local] Arguments release_credit : simpl never.

Definition released (now : Z) (h : CreditHoldRow) : CreditHoldRow :=
  h <| ch_state := HAvailable |> <| ch_updated_at := now |>.

Lemma release_all {off} now credits db u db' :
  for_each (release_credit now) credits db = (Ok u, db') → subledger_at off db → NoDup credits.*1 →
  (∀ k h, (k, h) ∈ credits → db_host_credit_holds db !! k = Some h ∧ ch_state h = HPending) →
  subledger_at off db' ∧
  (∀ k h, db_host_credit_holds db !! k = Some h → db_host_credit_holds db' !! k =
     Some (if bool_decide (k ∈ credits.*1) then released now h else h)) ∧
  (∀ k, db_host_credit_holds db !! k = None → db_host_credit_holds db' !! k = None) ∧
  db_payout_items db' = db_payout_items db ∧ db_payout_batches db' = db_payout_batches db.
Proof.
  revert db. induction credits as [|[k h] credits IH]; intros db H Hs Hnd Hin; simpl in H; run_inv.
  { split_and!; try done. }
  apply NoDup_cons in Hnd as [Hk Hnd].
  destruct (Hin k h) as [Hkh Hst]; [constructor|].
  match goal with H : release_credit _ _ _ = (Ok _, ?d) |- _ =>
    apply (release_credit_subledger (off := off)) in H as (Hs1 & Hh1 & Hi1 & Hb1); [|done..]; rename d into db1 end.
  match goal with H : for_each _ _ db1 = _ |- _ => apply IH in H as (Hs2 & Hh2 & Hn2 & Hi2 & Hb2);
    [|done|done|] end.
  - split_and!; try done; try congruence.
    + intros k' h' Hk'. destruct (decide (k' = k)) as [->|Hne].
      * simplify_eq. rewrite (bool_decide_eq_true_2 (k ∈ k :: _)) by constructor.
        rewrite (Hh2 k (released now h)) by (rewrite Hh1; apply lookup_insert_eq).
        by rewrite bool_decide_eq_false_2.
      * rewrite (Hh2 k' h') by (by rewrite Hh1, lookup_insert_ne).
        by rewrite (bool_decide_ext (k' ∈ k :: _) (k' ∈ credits.*1)) by set_solver.
    + intros k' Hk'. apply Hn2. rewrite Hh1. rewrite lookup_insert_ne; [done|congruence].
  - intros k' h' Hk'. destruct (Hin k' h') as [Hl Hp]; [by constructor|]. split; [|done].
    rewrite Hh1, lookup_insert_ne; [done|]. intros ->. apply Hk. apply list_elem_of_fmap. by exists (k', h').
Qed.

(** What a committed release did to the hold table. *)
Lemma PromoteAvailableCredits_run {off} now db n db' :
  subledger_at off db → PromoteAvailableCredits now db = (Ok n, db') →
  let t := posted_at db now in
  subledger_at off db' ∧ n = Z.of_nat (length (rows_where (releasable t) (db_host_credit_holds db))) ∧
  db_host_credit_holds db' = update_where (releasable t) (released t) (db_host_credit_holds db) ∧
  db_payout_items db' = db_payout_items db ∧ db_payout_batches db' = db_payout_batches db.
Proof.
  intros Hs H t. unfold PromoteAvailableCredits in H. run_inv.
  match goal with H : or_now _ _ = _ |- _ => apply or_now_ok in H as [-> ->] end.
  match goal with H : transaction _ _ = _ |- _ => apply transaction_ok in H as [H _] end. run_inv.
  change (if is_zero_time now then db_now db else now) with t in *.
  set (credits := order_by by_available _) in *.
  assert (Hperm : credits ≡ₚ rows_where (releasable t) (db_host_credit_holds db))
    by apply stable_sort_perm.
  match goal with H : for_each _ _ _ = _ |- _ => apply (release_all (off := off)) in H as (Hs' & Hh & Hn & Hi & Hb);
    [|done|rewrite Hperm; apply rows_where_NoDup|] end.
  - split_and!; try done; [by rewrite Hperm|]. apply map_eq. intros k.
    rewrite lookup_update_where. destruct (db_host_credit_holds db !! k) as [h|] eqn:E; simpl; [|by apply Hn].
    rewrite (Hh k h E). f_equal.
    rewrite (bool_decide_ext _ (releasable t k h = true)); [by destruct (releasable t k h)|].
    rewrite Hperm, list_elem_of_fmap. split.
    + intros ([k' h'] & -> & [Hk' Hr]%elem_of_rows_where). simpl in *. congruence.
    + intros Hr. exists (k, h). split; [done|]. by apply elem_of_rows_where.
  - intros k h. rewrite Hperm, elem_of_rows_where. unfold releasable. intros [Hk Hr].
    apply andb_true_iff in Hr as [Hr _]. by apply bool_decide_eq_true in Hr.
Qed.

(** Releasing held credit: exactly the pending holds whose hold time is over become
    available, the count returned is theirs, no other hold changes, and for every host the
    sum of its pending and available accounts is unchanged: credit is moved, never made
    or lost. *)
Theorem promote_conserves_credit now db n db' :
  subledger db → PromoteAvailableCredits now db = (Ok n, db') →
  let t := posted_at db now in
  n = Z.of_nat (length (rows_where (releasable t) (db_host_credit_holds db))) ∧
  db_host_credit_holds db' = update_where (releasable t) (released t) (db_host_credit_holds db) ∧
  rows_where (releasable t) (db_host_credit_holds db') = [] ∧
  ∀ node,
    acct_balance db' (host_key node AccountHostPendingCredit) +
    acct_balance db' (host_key node AccountHostAvailableCredit) =
    acct_balance db (host_key node AccountHostPendingCredit) +
    acct_balance db (host_key node AccountHostAvailableCredit).
Proof.
  intros Hs H t. destruct (PromoteAvailableCredits_run now db n db' Hs H) as (Hs' & Hn & Hh & _).
  fold t in Hn, Hh. split_and!; [done|done| |].
  - destruct (rows_where _ (db_host_credit_holds db')) as [|[k h] l] eqn:E; [done|]. exfalso.
    assert (Hin : (k, h) ∈ rows_where (releasable t) (db_host_credit_holds db')) by (rewrite E; constructor).
    apply elem_of_rows_where in Hin as [Hk Hr]. rewrite Hh, lookup_update_where in Hk.
    destruct (db_host_credit_holds db !! k) as [h0|]; simplify_eq/=.
    destruct (releasable t k h0) eqn:E0; [done|]. by rewrite E0 in Hr.
  - intros node. rewrite !(sl_pending no_delta), !(sl_available no_delta) by done. unfold held.
    rewrite Hh, !sum_update_where. set (rows := map_to_list _).
    assert (Hz : sum_list (λ kv, if releasable t kv.1 kv.2
        then hold_amount (pending_of node) (released t kv.2) - hold_amount (pending_of node) kv.2 else 0) rows =
      - sum_list (λ kv, if releasable t kv.1 kv.2
        then hold_amount (available_of node) (released t kv.2) - hold_amount (available_of node) kv.2 else 0) rows).
    { rewrite <-sum_list_opp. apply sum_list_ext. intros [k h] _. simpl.
      destruct (releasable t k h) eqn:E; [|done]. unfold releasable in E.
      apply andb_true_iff in E as [E%bool_decide_eq_true _].
      unfold hold_amount, pending_of, available_of, released. simpl. rewrite E.
      destruct (String.eqb (ch_node_id h) node); simpl; lia. }
    lia.
Qed.

(** ** Payouts *)

(** The ledger proper is the same in both states. *)
Record ledger_same (db db' : DB) : Prop := {
  ls_entries : db_ledger_entries db' = db_ledger_entries db;
  ls_txs : db_ledger_transactions db' = db_ledger_transactions db;
  ls_accounts : db_ledger_accounts db' = db_ledger_accounts db
}.

#[export] Instance ledger_same_pre : PreOrder ledger_same.
Proof.
  split; [done|]. intros a b c [] []. split; congruence.
Qed.

Lemma ledger_same_key db db' a : ledger_same db db' → key_of db' a = key_of db a.
Proof. intros [_ _ H]. unfold key_of. by rewrite H. Qed.
Lemma ledger_same_acct db db' k : ledger_same db db' → acct_balance db' k = acct_balance db k.
Proof.
  intros H. unfold acct_balance. rewrite (ls_entries _ _ H). apply sum_map_ext. intros ? e _.
  unfold entry_on. by rewrite (ledger_same_key _ _ _ H).
Qed.
Lemma ledger_same_balanced db db' : ledger_same db db' → posted_balanced db → posted_balanced db'.
Proof. intros [He Ht _] Hb t lt. unfold tx_balance. rewrite He, Ht. apply Hb. Qed.
Lemma ledger_same_wf db db' : ledger_same db db' → ledger_wf db → ledger_wf db'.
Proof.
  intros H [W1 W2 W3]. split.
  - rewrite (ls_entries _ _ H), (ls_txs _ _ H), (ls_accounts _ _ H). apply W1.
  - intros a1 a2 k. rewrite !(ledger_same_key _ _ _ H). apply W2.
  - rewrite (ls_txs _ _ H). apply W3.
Qed.

(** Changes to the hold table that keep what each account stands for. *)
Lemma subledger_same {off} db db' :
  subledger_at off db → ledger_same db db' →
  (∀ k h, db_host_credit_holds db' !! k = Some h → 0 ≤ ch_amount_microdollars h < 2 ^ 63) →
  (∀ n, held db' (pending_of n) = held db (pending_of n)) →
  (∀ n, held db' (available_of n) = held db (available_of n)) → subledger_at off db'.
Proof.
  intros [W B A P V] Hsame HA HP HV. split; auto.
  - by apply (ledger_same_wf db).
  - by apply (ledger_same_balanced db).
  - intros n. by rewrite (ledger_same_acct _ _ _ Hsame), HP.
  - intros n. by rewrite (ledger_same_acct _ _ _ Hsame), HV.
Qed.

Lemma subledger_frame {off} db db' :
  subledger_at off db → ledger_same db db' → db_host_credit_holds db' = db_host_credit_holds db → subledger_at off db'.
Proof.
  intros Hs Hsame Hh. apply (subledger_same db); unfold held; rewrite ?Hh; auto. apply Hs.
Qed.

(** Live items and reserved holds of a batch, per host. *)
Definition item_for (b node : string) (i : PayoutItemRow) : bool :=
  String.eqb (pi_payout_batch_id i) b && live_item i && bool_decide (pi_host_node_id i = Some node).
Definition item_amount (q : PayoutItemRow → bool) (i : PayoutItemRow) : Z :=
  if q i then pi_amount_microdollars i else 0.
Definition item_sum (db : DB) (b node : string) : Z :=
  sum_map (item_amount (item_for b node)) (db_payout_items db).
Definition reserved_for (b node : string) (h : CreditHoldRow) : bool :=
  hold_reserved_by b h && String.eqb (ch_node_id h) node.

Definition open_batch (row : PayoutBatchRow) : Prop := pb_status row = BDraft ∨ pb_status row = BExported.

(** An open batch holds exactly the credit it has items for. *)
Record payout_match (db : DB) : Prop := {
  pm_sum : ∀ b row node, db_payout_batches db !! b = Some row → open_batch row →
    item_sum db b node = held db (reserved_for b node);
  pm_item : ∀ i it, db_payout_items db !! i = Some it →
    is_Some (db_payout_batches db !! pi_payout_batch_id it) ∧ is_Some (pi_host_node_id it) ∧
    0 ≤ pi_amount_microdollars it;
  pm_status : ∀ i it row, db_payout_items db !! i = Some it → live_item it = true →
    db_payout_batches db !! pi_payout_batch_id it = Some row →
    (pb_status row = BDraft → pi_status it = IPending) ∧
    (pb_status row = BExported → pi_status it = IExported);
  pm_hold : ∀ k h b, db_host_credit_holds db !! k = Some h → ch_payout_batch_id h = Some b →
    is_Some (db_payout_batches db !! b);
  pm_free : ∀ k h, db_host_credit_holds db !! k = Some h → ch_state h ∈ [HPending; HAvailable] →
    ch_payout_batch_id h = None
}.
#[export] Instance payout_match_tables : TableProp payout_match.
Proof. intros db ent. split; intros [? ? ? ? ?]; by split. Qed.

Definition payout_item (batchID holdID : string) (now : Z) (h : CreditHoldRow) : PayoutItemRow := {|
  pi_payout_batch_id := batchID; pi_host_node_id := Some (ch_node_id h);
  pi_credit_hold_id := Some holdID; pi_ledger_transaction_id := None;
  pi_amount_microdollars := ch_amount_microdollars h; pi_currency := CurrencyUSDMicro;
  pi_external_reference := ch_node_id h; pi_status := IPending;
  pi_memo := DefaultPayoutMemoPrefix +:+ " " +:+ batchID; pi_created_at := now |}.
Definition reserved (batchID : string) (now : Z) (h : CreditHoldRow) : CreditHoldRow :=
  h <| ch_state := HPayoutPending |> <| ch_payout_batch_id := Some batchID |> <| ch_updated_at := now |>.

Lemma insert_item_ok itemID row db u db' :
  insert_item itemID row db = (Ok u, db') →
  db' = db <| db_payout_items ::= <[itemID := row]> |> ∧ db_payout_items db !! itemID = None ∧
  0 ≤ pi_amount_microdollars row.
Proof.
  unfold insert_item. intros H. run_inv.
  repeat match goal with H : constraint _ _ _ = _ |- _ => apply constraint_ok in H as [? ?]; simplify_eq end.
  run_inv.
  match goal with H : fresh_key _ _ = true |- _ => apply bool_decide_eq_true in H end.
  match goal with H : (0 <=? _) = true |- _ => apply Z.leb_le in H end. done.
Qed.

(** One reservation. *)
Record reservation (batchID : string) (now : Z) (db db' : DB) (holdID : string) (h : CreditHoldRow) : Prop := {
  rv_same : ledger_same db db';
  rv_item : ∃ itemID, db_payout_items db !! itemID = None ∧
    db_payout_items db' = <[itemID := payout_item batchID holdID now h]> (db_payout_items db);
  rv_hold : db_host_credit_holds db' = <[holdID := reserved batchID now h]> (db_host_credit_holds db);
  rv_batches : db_payout_batches db' = db_payout_batches db
}.

Lemma reserve_credit_run batchID now acc holdID h db acc' db' :
  reserve_credit batchID now acc (holdID, h) db = (Ok acc', db') →
  db_host_credit_holds db !! holdID = Some h →
  reservation batchID now db db' holdID h ∧
  acc' = (wrap64 (acc.1 + ch_amount_microdollars h), acc.2 + 1).
Proof.
  unfold reserve_credit. intros H Hh. run_inv.
  match goal with H : ids_New _ _ = _ |- _ => apply ids_New_ok in H as (b & rest & _ & -> & ->) end.
  match goal with H : insert_item _ _ _ = _ |- _ => apply insert_item_ok in H as (-> & Hf & _) end.
  run_inv. split; [|done]. split.
  - by split.
  - eexists. split; [exact Hf|]. done.
  - simpl. by rewrite (update_where_key _ _ _ h).
  - done.
Qed.

Lemma held_insert db db' holdID h h' q :
  db_host_credit_holds db !! holdID = Some h →
  db_host_credit_holds db' = <[holdID := h']> (db_host_credit_holds db) →
  held db' q = held db q - hold_amount q h + hold_amount q h'.
Proof. intros Hh Hd. unfold held. by rewrite Hd, (sum_map_update _ _ _ _ _ Hh). Qed.

Lemma reservation_subledger {off} batchID now db db' holdID h :
  reservation batchID now db db' holdID h → db_host_credit_holds db !! holdID = Some h →
  ch_state h = HAvailable → subledger_at off db → subledger_at off db'.
Proof.
  intros [Hsame _ Hhold _] Hh Hst Hs. apply (subledger_same db); auto.
  - intros k h'. rewrite Hhold, lookup_insert_Some.
    intros [[<- <-]|[_ Hk]]; [by apply (sl_amounts _ _ Hs holdID h)|by apply (sl_amounts _ _ Hs k)].
  - intros n. rewrite (held_insert _ _ _ _ _ _ Hh Hhold). unfold hold_amount, pending_of, reserved.
    simpl. rewrite Hst. rewrite !bool_decide_eq_false_2, !andb_false_r by done. lia.
  - intros n. rewrite (held_insert _ _ _ _ _ _ Hh Hhold). unfold hold_amount, available_of, reserved.
    simpl. rewrite Hst. rewrite !bool_decide_eq_true_2, !andb_true_r by set_solver. lia.
Qed.

Lemma reservation_match batchID now db db' holdID h row :
  reservation batchID now db db' holdID h → db_host_credit_holds db !! holdID = Some h →
  ch_state h = HAvailable → 0 ≤ ch_amount_microdollars h →
  db_payout_batches db !! batchID = Some row → pb_status row = BDraft →
  payout_match db → payout_match db'.
Proof.
  intros [_ (itemID & Hf & Hitem) Hhold Hb] Hh Hst Hamt Hrow Hdraft [M1 M2 M3 M4 M5]. split.
  - intros b row' node. rewrite Hb. intros Hr Hopen. rewrite (held_insert _ _ _ _ _ _ Hh Hhold).
    unfold item_sum. rewrite Hitem, sum_map_insert by done. fold (item_sum db b node).
    rewrite (M1 b row' node Hr Hopen).
    unfold item_amount, item_for, hold_amount, reserved_for, hold_reserved_by, hold_in_batch, reserved,
      payout_item, live_item. simpl. rewrite Hst.
    rewrite ?andb_true_r, ?andb_false_r.
    rewrite (bool_decide_ext (Some (ch_node_id h) = Some node) (ch_node_id h = node)) by naive_solver.
    rewrite (bool_decide_ext (Some batchID = Some b) (batchID = b)) by naive_solver.
    destruct (String.eqb_spec batchID b), (bool_decide_reflect (batchID = b)); try done;
      destruct (String.eqb_spec (ch_node_id h) node), (bool_decide_reflect (ch_node_id h = node));
      try done; simpl; lia.
  - rewrite Hb, Hitem. intros i it. rewrite lookup_insert_Some.
    intros [[<- <-]|[_ Hi]]; [|by apply (M2 i)]. simpl. by rewrite Hrow.
  - rewrite Hb, Hitem. intros i it row'. rewrite lookup_insert_Some.
    intros [[<- <-]|[_ Hi]]; [|by apply (M3 i)]. simpl. intros _ Hr. simplify_eq. by rewrite Hdraft.
  - rewrite Hb, Hhold. intros k h' b. rewrite lookup_insert_Some.
    intros [[<- <-]|[_ Hk]]; [|by apply (M4 k)]. simpl. intros [= <-]. by rewrite Hrow.
  - rewrite Hhold. intros k h'. rewrite lookup_insert_Some.
    intros [[<- <-]|[_ Hk]]; [|by apply (M5 k)]. simpl. set_solver.
Qed.

#[local] Arguments reserve_credit : simpl never.

(** The items of the reservation loop: one for each hold, on top of those there were. *)
Definition items_added (batchID : string) (now : Z) (credits : list (string * CreditHoldRow))
    (db db' : DB) : Prop :=
  db_payout_items db ⊆ db_payout_items db' ∧
  ∀ i it, db_payout_items db' !! i = Some it → db_payout_items db !! i = Some it ∨
    ∃ k h, (k, h) ∈ credits ∧ it = payout_item batchID k now h.

Lemma items_added_cons batchID now k h credits db db1 db2 :
  reservation batchID now db db1 k h → items_added batchID now credits db1 db2 →
  items_added batchID now ((k, h) :: credits) db db2.
Proof.
  intros [_ (itemID & Hf & Hi) _ _] [Hsub Hin]. rewrite Hi in Hsub, Hin. split.
  - etransitivity; [|exact Hsub]. by apply insert_subseteq.
  - intros i it [Hit|(k' & h' & Hk & ->)]%Hin.
    + apply lookup_insert_Some in Hit as [[_ <-]|[_ Hit]]; [|by left].
      right. exists k, h. split; [constructor|done].
    + right. exists k', h'. split; [by constructor|done].
Qed.

(** The reservation loop over distinct available holds. *)
Lemma reserve_all {off} batchID now credits db acc acc' db' row :
  fold_st (reserve_credit batchID now) acc credits db = (Ok acc', db') →
  subledger_at off db → payout_match db → NoDup credits.*1 →
  (∀ k h, (k, h) ∈ credits → db_host_credit_holds db !! k = Some h ∧ ch_state h = HAvailable) →
  db_payout_batches db !! batchID = Some row → pb_status row = BDraft →
  subledger_at off db' ∧ payout_match db' ∧ ledger_same db db' ∧
  db_payout_batches db' = db_payout_batches db ∧
  (∀ k, db_host_credit_holds db' !! k =
     (λ h, if bool_decide (k ∈ credits.*1) then reserved batchID now h else h) <$>
     db_host_credit_holds db !! k) ∧
  items_added batchID now credits db db' ∧
  acc'.1 = foldl (λ t c, wrap64 (t + ch_amount_microdollars c.2)) acc.1 credits ∧
  acc'.2 = acc.2 + Z.of_nat (length credits).
Proof.
  intros H Hs Hm Hnd Hin Hrow Hd. revert db acc H Hs Hm Hnd Hin Hrow.
  induction credits as [|[k h] credits IH]; intros db acc H Hs Hm Hnd Hin Hrow; simpl in H; run_inv.
  { split_and!; try done; [| |lia].
    - intros k. by destruct (db_host_credit_holds _ !! k).
    - split; [done|]. intros i it Hi. by left. }
  apply NoDup_cons in Hnd as [Hk Hnd]. destruct (Hin k h) as [Hkh Hst]; [constructor|].
  match goal with H : reserve_credit _ _ _ _ _ = (Ok _, ?d) |- _ =>
    apply reserve_credit_run in H as [Hr ->]; [|done]; rename d into db1 end.
  pose proof (reservation_subledger _ _ _ _ _ _ Hr Hkh Hst Hs) as Hs1.
  pose proof (reservation_match _ _ _ _ _ _ _ Hr Hkh Hst (proj1 (sl_amounts _ _ Hs _ _ Hkh)) Hrow Hd Hm) as Hm1.
  pose proof Hr as [Hsame _ Hhold Hb].
  match goal with H : fold_st _ _ _ db1 = _ |- _ =>
    apply IH in H as (Hs2 & Hm2 & Hsame2 & Hb2 & Hh2 & Hi2 & Ht2 & Hc2); [|done|done|done| |by rewrite Hb] end.
  - split_and!; try done; try congruence.
    + by transitivity db1.
    + intros k'. rewrite Hh2, Hhold. destruct (decide (k = k')) as [<-|Hne].
      * rewrite lookup_insert_eq, Hkh. simpl.
        rewrite (bool_decide_eq_true_2 (k ∈ k :: _)) by constructor. by rewrite bool_decide_eq_false_2.
      * rewrite lookup_insert_ne by done.
        by rewrite (bool_decide_ext (k' ∈ k :: _) (k' ∈ credits.*1)) by set_solver.
    + by apply (items_added_cons _ _ _ _ _ _ db1).
    + rewrite Hc2. simpl. lia.
  - intros k' h' Hk'. destruct (Hin k' h') as [Hl Hp]; [by constructor|]. split; [|done].
    rewrite Hhold, lookup_insert_ne; [done|]. intros ->. apply Hk. apply list_elem_of_fmap. by exists (k', h').
Qed.

Definition new_batch (organizationID : string) (now : Z) : PayoutBatchRow := {|
  pb_organization_id := if String.eqb organizationID "" then None else Some organizationID;
  pb_status := BDraft; pb_currency := CurrencyUSDMicro; pb_total_microdollars := 0;
  pb_created_at := now; pb_exported_at := None; pb_paid_at := None |}.

(** A batch nobody refers to yet starts with no items and no holds. *)
Lemma match_new_batch db b row :
  payout_match db → db_payout_batches db !! b = None →
  payout_match (db <| db_payout_batches ::= <[b := row]> |>).
Proof.
  intros [M1 M2 M3 M4 M5] Hf. split; simpl.
  - intros b' row' node. rewrite lookup_insert_Some. intros [[<- <-]|[Hne Hr]] Hopen; [|by apply (M1 b' row')].
    transitivity 0; [|symmetry].
    + unfold item_sum. simpl. rewrite (sum_map_ext _ (λ _, 0)).
      { unfold sum_map. induction (map_to_list _); rewrite ?sum_list_cons; [done|lia]. }
      intros i it Hi. apply M2 in Hi as [[r Hr] _]. unfold item_amount, item_for.
      destruct (String.eqb_spec (pi_payout_batch_id it) b); [congruence|done].
    + unfold held. simpl. rewrite (sum_map_ext _ (λ _, 0)).
      { unfold sum_map. induction (map_to_list _); rewrite ?sum_list_cons; [done|lia]. }
      intros k h Hk. unfold hold_amount, reserved_for, hold_reserved_by, hold_in_batch.
      destruct (bool_decide_reflect (ch_payout_batch_id h = Some b)) as [Hb|]; [|done].
      apply (M4 k) in Hb as [r Hr]; [congruence|done].
  - intros i it Hi. apply M2 in Hi as (Hb & ? & ?). split_and!; try done.
    rewrite lookup_insert_is_Some. destruct (decide (b = pi_payout_batch_id it)); auto.
  - intros i it row' Hi Hl. apply M2 in Hi as Hi'. destruct Hi' as [[r Hr] _].
    rewrite lookup_insert_ne by congruence. by apply (M3 i).
  - intros k h b' Hk Hb. rewrite lookup_insert_is_Some. destruct (decide (b = b')); eauto.
  - done.
Qed.

Lemma match_batch_total db b f :
  (∀ r, pb_status (f r) = pb_status r) → payout_match db →
  payout_match (db <| db_payout_batches ::= update_where (λ k _, String.eqb k b) f |>).
Proof.
  intros Hf [M1 M2 M3 M4 M5].
  assert (Hl : ∀ k r, update_where (λ k _, String.eqb k b) f (db_payout_batches db) !! k = Some r →
    ∃ r0, db_payout_batches db !! k = Some r0 ∧ pb_status r = pb_status r0).
  { intros k r. rewrite lookup_update_where, fmap_Some. intros (r0 & Hr0 & ->).
    exists r0. split; [done|]. by destruct (String.eqb k b). }
  assert (Hs : ∀ k, is_Some (db_payout_batches db !! k) →
    is_Some (update_where (λ k _, String.eqb k b) f (db_payout_batches db) !! k)).
  { intros k. by rewrite lookup_update_where, fmap_is_Some. }
  split; simpl.
  - intros b' row node (r0 & Hr0 & Hst)%Hl Hopen. apply (M1 b' r0); [done|].
    unfold open_batch in *. by rewrite <-Hst.
  - intros i it (? & ? & ?)%M2. auto.
  - intros i it row Hi Hlive (r0 & Hr0 & Hst)%Hl. rewrite Hst. by apply (M3 i it r0).
  - intros k h b' Hk Hb'. apply Hs. by apply (M4 k h).
  - done.
Qed.

(** What a successful [CreatePayoutBatch] did. *)
Lemma CreatePayoutBatch_run {off} org now db b db' :
  CreatePayoutBatch org now db = (Ok b, db') → subledger_at off db → payout_match db →
  let t := posted_at db now in
  let rows := rows_where (payable db org) (db_host_credit_holds db) in
  subledger_at off db' ∧ payout_match db' ∧ ledger_same db db' ∧
  db_payout_batches db !! po_ID b = None ∧
  db_payout_batches db' = <[po_ID b := new_batch org t <| pb_total_microdollars := po_TotalMicrodollars b |>]>
    (db_payout_batches db) ∧
  db_host_credit_holds db' = update_where (payable db org) (reserved (po_ID b) t) (db_host_credit_holds db) ∧
  items_added (po_ID b) t rows db db' ∧
  po_TotalMicrodollars b =
    foldl (λ t c, wrap64 (t + ch_amount_microdollars c.2)) 0 (order_by by_payout rows) ∧
  po_ItemCount b = Z.of_nat (length rows) ∧ rows ≠ [].
Proof.
  intros H Hs Hm t rows. unfold CreatePayoutBatch, update_batch in H. run_inv.
  match goal with H : or_now _ _ = _ |- _ => apply or_now_ok in H as [-> ->] end.
  change (if is_zero_time now then db_now db else now) with t in *.
  match goal with H : transaction _ _ = _ |- _ => apply transaction_ok in H as [H _] end. run_inv.
  repeat match goal with H : constraint _ _ _ = _ |- _ => apply constraint_ok in H as [? ?]; simplify_eq end.
  match goal with H : ids_New _ _ = (Ok ?i, _) |- _ => apply ids_New_ok in H as (e & rest & _ & Hid & ->);
    rename i into batchID; clear Hid end.
  match goal with H : fresh_key _ _ = true |- _ => apply bool_decide_eq_true in H as Hf end. simpl in Hf.
  set (db1 := db <| db_entropy := rest |> <| db_payout_batches ::= <[batchID := new_batch org t]> |>) in *.
  match goal with H : fold_st _ _ _ _ = (Ok ?acc, ?d) |- _ =>
    destruct acc as [total items]; rename H into Hfold; rename d into db2 end.
  run_inv. match goal with H : constraint _ _ _ = _ |- _ => apply constraint_ok in H as [? ->] end. run_inv.
  assert (Hrow : db_payout_batches db1 !! batchID = Some (new_batch org t)) by (simpl; apply lookup_insert_eq).
  change (order_by by_payout _) with (order_by by_payout rows) in Hfold.
  assert (Hperm : order_by by_payout rows ≡ₚ rows) by apply stable_sort_perm.
  assert (Hm1 : payout_match (db <| db_entropy := rest |>)) by by apply (table_prop db).
  apply (reserve_all (off := off) _ _ _ db1 _ _ _ (new_batch org t)) in Hfold
    as (Hs2 & Hm2 & Hsame & Hb2 & Hh2 & Hi2 & Ht & Hc); [|..|done|done].
  2: { by apply (subledger_frame db). }
  2: { exact (match_new_batch _ batchID (new_batch org t) Hm1 Hf). }
  2: { rewrite Hperm. apply rows_where_NoDup. }
  2: { intros k h. rewrite Hperm. intros [Hk Hp]%elem_of_rows_where. split; [done|].
       unfold payable in Hp. rewrite !andb_true_iff in Hp. destruct Hp as [[Hp _] _].
       by apply bool_decide_eq_true in Hp. }
  assert (Hm3 : payout_match (db2 <| db_payout_batches ::= update_where (λ k _, String.eqb k batchID)
    (λ b, b <| pb_total_microdollars := total |>) |>)) by by apply match_batch_total.
  simpl in Ht, Hc. simpl po_ID. simpl po_TotalMicrodollars. simpl po_ItemCount.
  split_and!; try done.
  - apply (subledger_frame db2); [exact Hs2|split; reflexivity|reflexivity].
  - transitivity db2; [|split; reflexivity]. transitivity db1; [split; reflexivity|done].
  - simpl. rewrite Hb2, (update_where_key _ _ _ (new_batch org t)) by done.
    change (db_payout_batches db1) with (<[batchID := new_batch org t]> (db_payout_batches db)).
    by rewrite insert_insert_eq.
  - simpl. apply map_eq. intros k. rewrite Hh2, lookup_update_where. simpl.
    destruct (db_host_credit_holds db !! k) as [h|] eqn:E; [|done]. simpl. f_equal.
    rewrite (bool_decide_ext _ (payable db org k h = true)); [by destruct (payable db org k h)|].
    rewrite Hperm, list_elem_of_fmap. split.
    + intros ([k' h'] & -> & [Hk' Hr]%elem_of_rows_where). simpl in *. congruence.
    + intros Hr. exists (k, h). split; [done|]. by apply elem_of_rows_where.
  - destruct Hi2 as [Hsub Hin]. split; [exact Hsub|].
    intros i it [Hit|(k & h & Hk & ->)]%Hin; [by left|]. right. exists k, h. by rewrite <-Hperm.
  - by rewrite Hc, Hperm.
  - intros Hnil. rewrite Hnil in Hc. simpl in Hc. subst. done.
Qed.

Lemma foldl_wrap_sum {A} (f : A → Z) l acc :
  (∀ x, x ∈ l → 0 ≤ f x) → 0 ≤ acc → acc + sum_list f l < 2 ^ 63 →
  foldl (λ t c, wrap64 (t + f c)) acc l = acc + sum_list f l.
Proof.
  revert acc. induction l as [|x l IH]; intros acc Hf Hacc Hlt.
  { rewrite sum_list_nil. simpl. lia. }
  rewrite sum_list_cons in *. simpl.
  assert (0 ≤ f x) by (apply Hf; constructor).
  assert (0 ≤ sum_list f l) by (apply sum_list_nonneg; intros; apply Hf; by constructor).
  rewrite wrap64_id by (unfold in_int64; lia).
  rewrite IH; [lia|intros; apply Hf; by constructor|lia|lia].
Qed.

(** A payout batch takes everything payable and nothing else: every available,
    positive hold of the chosen organization's nodes is reserved for the new batch, no
    other hold changes, and the batch total and item count are theirs (the total up to
    64-bit wrap-around). Nothing is posted, so all account balances stay. *)
Theorem payout_batch_reserves org now db b db' :
  subledger db → payout_match db → CreatePayoutBatch org now db = (Ok b, db') →
  let rows := rows_where (payable db org) (db_host_credit_holds db) in
  let total := sum_list (λ r, ch_amount_microdollars r.2) rows in
  db_host_credit_holds db' =
    update_where (payable db org) (reserved (po_ID b) (posted_at db now)) (db_host_credit_holds db) ∧
  po_ItemCount b = Z.of_nat (length rows) ∧ rows ≠ [] ∧
  (total < 2 ^ 63 → po_TotalMicrodollars b = total) ∧
  (∀ node, item_sum db' (po_ID b) node = held db' (reserved_for (po_ID b) node)) ∧
  (∀ key, acct_balance db' key = acct_balance db key).
Proof.
  intros Hs Hm H rows total.
  destruct (CreatePayoutBatch_run org now db b db' H Hs Hm)
    as (Hs' & Hm' & Hsame & Hf & Hb & Hh & _ & Ht & Hc & Hne). fold rows in Ht, Hc, Hne.
  assert (Hpay : ∀ r, r ∈ rows → 0 ≤ ch_amount_microdollars r.2).
  { intros [k h] Hr. apply elem_of_rows_where in Hr as [Hk _]. by apply (sl_amounts _ _ Hs k h). }
  assert (Hperm : order_by by_payout rows ≡ₚ rows) by apply stable_sort_perm.
  split_and!; try done.
  - intros Hlt. rewrite Ht, foldl_wrap_sum; rewrite ?(sum_list_perm _ _ _ Hperm); try done.
    intros r. rewrite Hperm. apply Hpay.
  - intros node. eapply (pm_sum _ Hm'); [rewrite Hb; apply lookup_insert_eq|by left].
  - intros key. by apply ledger_same_acct.
Qed.

(** Voiding a batch that was not paid: what it reserved is available again. *)
Definition unreserved (now : Z) (h : CreditHoldRow) : CreditHoldRow :=
  h <| ch_state := HAvailable |> <| ch_payout_batch_id := None |> <| ch_updated_at := now |>.

Lemma void_open_batch batchID memo now db row :
  posted_balanced db → db_payout_batches db !! batchID = Some row → open_batch row →
  VoidPayoutBatch batchID memo now db = (Ok (batch_of batchID row <| po_Status := BVoid |>),
    db <| db_host_credit_holds ::= update_where (λ _, hold_reserved_by batchID) (unreserved (posted_at db now)) |>
       <| db_payout_items ::= update_where
            (λ k i, item_in_batch batchID k i && negb (bool_decide (pi_status i = IVoid)))
            (λ i, i <| pi_status := IVoid |>) |>
       <| db_payout_batches ::= update_where (λ k _, String.eqb k batchID) (λ b, b <| pb_status := BVoid |>) |>).
Proof.
  intros Hb Hrow Hopen. unfold VoidPayoutBatch, or_now, posted_at.
  set (t := if is_zero_time now then db_now db else now).
  assert (Hgo : transaction (void_batch batchID memo t) db =
    (Ok (batch_of batchID row <| po_Status := BVoid |>),
    db <| db_host_credit_holds ::= update_where (λ _, hold_reserved_by batchID) (unreserved t) |>
       <| db_payout_items ::= update_where
            (λ k i, item_in_batch batchID k i && negb (bool_decide (pi_status i = IVoid)))
            (λ i, i <| pi_status := IVoid |>) |>
       <| db_payout_batches ::= update_where (λ k _, String.eqb k batchID) (λ b, b <| pb_status := BVoid |>) |>)).
  { apply transaction_ok. split; [|done].
    unfold void_batch, select_batch, gets, wrap, of_option, mbind, St_bind. rewrite Hrow.
    destruct Hopen as [Ho|Ho]; unfold mret, St_ret, batch_of; simpl; rewrite Ho; done. }
  subst t. by destruct (is_zero_time now).
Qed.

(** Two hold rows that differ in their update time only. *)
Definition same_hold (h h' : CreditHoldRow) : Prop := h' = h <| ch_updated_at := ch_updated_at h' |>.

(** Voiding undoes creating: a batch just created can always be voided, after which
    every hold is as it was before the batch (up to its update time), the batch and its
    items are void, and the ledger has not moved. *)
Theorem void_undoes_create org now now' memo db b db1 :
  subledger db → payout_match db → CreatePayoutBatch org now db = (Ok b, db1) →
  ∃ b' db2, VoidPayoutBatch (po_ID b) memo now' db1 = (Ok b', db2) ∧
    po_Status b' = BVoid ∧ ledger_same db db2 ∧
    (∀ k, option_Forall2 same_hold (db_host_credit_holds db !! k) (db_host_credit_holds db2 !! k)) ∧
    (∀ i it, db_payout_items db2 !! i = Some it → pi_payout_batch_id it = po_ID b → pi_status it = IVoid).
Proof.
  intros Hs Hm H.
  destruct (CreatePayoutBatch_run org now db b db1 H Hs Hm)
    as (Hs' & Hm' & Hsame & Hf & Hb & Hh & _).
  eexists _, _. split.
  { eapply void_open_batch; [apply Hs'|rewrite Hb; apply lookup_insert_eq|by left]. }
  split_and!; [done|by transitivity db1| |].
  - intros k. simpl. rewrite lookup_update_where, Hh, lookup_update_where.
    destruct (db_host_credit_holds db !! k) as [h|] eqn:E; simpl; constructor.
    unfold same_hold. destruct (payable db org k h) eqn:Ep.
    + unfold payable in Ep. rewrite !andb_true_iff in Ep. destruct Ep as [[Ep _] _].
      apply bool_decide_eq_true in Ep. pose proof (pm_free _ Hm k h E ltac:(rewrite Ep; set_solver)) as Hn.
      unfold hold_reserved_by, hold_in_batch, reserved. simpl. rewrite bool_decide_eq_true_2 by done.
      destruct h; simpl in *; subst. done.
    + assert (Hr : hold_reserved_by (po_ID b) h = false).
      { unfold hold_reserved_by, hold_in_batch.
        destruct (bool_decide_reflect (ch_payout_batch_id h = Some (po_ID b))) as [Hx|]; [|done].
        apply (pm_hold _ Hm k h) in Hx as [r Hr]; [congruence|done]. }
      rewrite Hr. by destruct h.
  - intros i it. simpl. rewrite lookup_update_where, fmap_Some. intros (it0 & _ & ->) Hbatch.
    unfold item_in_batch in *. revert Hbatch.
    destruct (String.eqb_spec (pi_payout_batch_id it0) (po_ID b)), (bool_decide_reflect (pi_status it0 = IVoid));
      done.
Qed.

(** *** Confirmation *)

Lemma ldelta_items db f : ledger_wf db → ldelta db (db <| db_payout_items ::= f |>) no_delta no_delta [].
Proof.
  intros Hwf. assert (ledger_wf (db <| db_payout_items ::= f |>)) by (destruct Hwf; by split).
  split; auto; unfold no_delta; intros; rewrite ?Z.add_0_r; done.
Qed.

Definition item_host (i : PayoutItemRow) : string := default "" (pi_host_node_id i).
Definition paid_item (txID : string) (i : PayoutItemRow) : PayoutItemRow :=
  i <| pi_status := IPaid |> <| pi_ledger_transaction_id := Some txID |>.

Lemma pay_item_run txID now total itemID i db total' db' :
  pay_item txID now total (itemID, i) db = (Ok total', db') → ledger_wf db →
  ldelta db db' (at_key (host_key (item_host i) AccountHostAvailableCredit) (pi_amount_microdollars i))
    (at_key txID (pi_amount_microdollars i)) [] ∧
  db_payout_items db' = update_where (λ k _, String.eqb k itemID) (paid_item txID) (db_payout_items db).
Proof.
  intros H Hwf. unfold pay_item, update_items in H. run_inv. fold (item_host i) in *.
  pose proof (ensureAccount_items (db_payout_items db)) as Hi1.
  pose proof (insertEntry_items (db_payout_items db)) as Hi2.
  match goal with H : ensureAccount ?a ?b ?c _ = _ |- _ =>
    specialize (Hi1 a b c db eq_refl); rewrite H in Hi1; simpl in Hi1 end.
  match goal with H : insertEntry ?a ?b ?c ?d ?e ?s = (Ok _, ?s') |- _ =>
    specialize (Hi2 a b c d e s Hi1); rewrite H in Hi2; simpl in Hi2 end.
  pose proof (ldelta_refl db Hwf) as Hacc. repeat ld_step.
  match type of Hacc with ldelta _ ?d _ _ _ =>
    pose proof (ldelta_items d (update_where (λ k _, String.eqb k itemID) (paid_item txID)) (ld_wf _ _ _ _ _ Hacc)) as Hd end.
  ld_add Hacc Hd. split; [unfold host_key; ld_final Hacc|]. simpl. by rewrite Hi2.
Qed.

#[local] Arguments pay_item : simpl never.

Lemma pay_items_run txID now items db total total' db' :
  fold_st (pay_item txID now) total items db = (Ok total', db') → ledger_wf db →
  ldelta db db'
    (λ k, sum_list (λ it, at_key (host_key (item_host it.2) AccountHostAvailableCredit)
                            (pi_amount_microdollars it.2) k) items)
    (λ t, sum_list (λ it, at_key txID (pi_amount_microdollars it.2) t) items) [] ∧
  (∀ i, db_payout_items db' !! i =
     (λ it, if bool_decide (i ∈ items.*1) then paid_item txID it else it) <$> db_payout_items db !! i).
Proof.
  revert db total. induction items as [|[k i] items IH]; intros db total H Hwf; simpl in H; run_inv.
  { split; [by apply ldelta_refl|]. intros i. by destruct (db_payout_items _ !! i). }
  match goal with H : pay_item _ _ _ _ _ = (Ok _, ?d) |- _ =>
    apply pay_item_run in H as [Hd1 Hi1]; [|done]; rename d into db1 end.
  match goal with H : fold_st _ _ _ db1 = _ |- _ => apply IH in H as [Hd2 Hi2]; [|apply Hd1] end.
  split; [exact (ldelta_trans _ _ _ _ _ _ _ _ _ Hd1 Hd2)|].
  intros j. rewrite Hi2, Hi1, lookup_update_where. destruct (db_payout_items db !! j) as [it|]; [|done].
  simpl. f_equal. destruct (String.eqb_spec j k) as [->|Hne].
  - rewrite (bool_decide_eq_true_2 (k ∈ k :: _)) by constructor. by case_bool_decide.
  - by rewrite (bool_decide_ext (j ∈ k :: _) (j ∈ items.*1)) by set_solver.
Qed.

Lemma sum_at_key {A B} `{EqDecision B} (k : B) (v : A → Z) l b :
  sum_list (λ x, at_key k (v x) b) l = at_key k (sum_list v l) b.
Proof.
  induction l as [|x l IH]; [by rewrite at_key_0|]. by rewrite !sum_list_cons, <-at_key_add, IH.
Qed.

Lemma sum_rows_where {V} (w : V → Z) p (tbl : gmap string V) :
  sum_list (λ r, w r.2) (rows_where p tbl) = sum_list (λ r, if p r.1 r.2 then w r.2 else 0) (map_to_list tbl).
Proof.
  unfold rows_where. induction (map_to_list tbl) as [|[k v] l IH]; [done|].
  rewrite filter_cons, sum_list_cons. simpl. destruct (p k v) eqn:E.
  - rewrite decide_True by done. rewrite sum_list_cons. simpl. lia.
  - rewrite decide_False by congruence. lia.
Qed.

(** What an item adds to a host's available account when it is paid. *)
Definition paid_to (node : string) (it : PayoutItemRow) : Z :=
  at_key (host_key (item_host it) AccountHostAvailableCredit) (pi_amount_microdollars it)
    (host_key node AccountHostAvailableCredit).

(** The exported items of an exported batch are its live items. *)
Lemma exported_sum db b row node :
  payout_match db → db_payout_batches db !! b = Some row → pb_status row = BExported →
  sum_list (λ it, paid_to node it.2)
    (order_by by_key (rows_where (exported_item b) (db_payout_items db))) = item_sum db b node.
Proof.
  intros Hm Hrow Hst. etransitivity; [apply sum_list_perm, stable_sort_perm|].
  etransitivity; [apply (sum_rows_where (paid_to node))|].
  unfold item_sum, sum_map. apply sum_list_ext. intros [i it] Hin%elem_of_map_to_list. simpl.
  destruct (pm_item _ Hm i it Hin) as (_ & [n Hn] & _).
  unfold paid_to, at_key, item_amount, item_for, exported_item, item_in_batch, item_host. rewrite Hn. simpl.
  rewrite (bool_decide_ext (host_key node _ = host_key n _) (Some n = Some node))
    by (rewrite host_key_inj; naive_solver).
  destruct (String.eqb_spec (pi_payout_batch_id it) b) as [<-|]; [|done]. simpl.
  destruct (live_item it) eqn:El; simpl.
  - destruct (pm_status _ Hm i it row Hin El Hrow) as [_ ->]; done.
  - unfold live_item in El. apply negb_false_iff, bool_decide_eq_true in El. rewrite El. done.
Qed.

Lemma frame_items {A} (m : St DB A) db r db' :
  (∀ X, preserves (items_are X) m) → m db = (r, db') → db_payout_items db' = db_payout_items db.
Proof. intros Hm H. specialize (Hm (db_payout_items db) db eq_refl). by rewrite H in Hm. Qed.

(** Record, for every ledger statement of the run, that payout items and (unless it is
    about one) transaction headers stay. *)
Ltac note_frame m s s' :=
  lazymatch goal with
  | _ : db_payout_items s' = db_payout_items s |- _ => fail
  | |- _ => assert (db_payout_items s' = db_payout_items s)
              by (eapply (frame_items m); [intros; eauto with inv typeclass_instances|eassumption])
  end.
Ltac note_frames :=
  repeat match goal with
  | H : ids_New ?a ?s = (Ok _, ?s') |- _ =>
      note_frame (ids_New a) s s'; pose proof (ids_New_txs _ _ _ _ H)
  | H : insert_transaction ?a ?b ?s = (Ok _, ?s') |- _ => note_frame (insert_transaction a b) s s'
  | H : ensureAccount ?a ?b ?c ?s = (Ok _, ?s') |- _ =>
      note_frame (ensureAccount a b c) s s'; pose proof (ensureAccount_txs _ _ _ _ _ _ H)
  | H : insertEntry ?a ?b ?c ?d ?e ?s = (Ok _, ?s') |- _ =>
      note_frame (insertEntry a b c d e) s s'; pose proof (insertEntry_txs _ _ _ _ _ _ _ _ H)
  | H : post_transaction ?a ?b ?s = (Ok _, ?s') |- _ => note_frame (post_transaction a b) s s'
  end.

Lemma insert_transaction_header t r db u db' :
  insert_transaction t r db = (Ok u, db') → db_ledger_transactions db' !! t = Some r.
Proof.
  unfold insert_transaction. intros H. run_inv.
  match goal with H : constraint _ _ _ = _ |- _ => apply constraint_ok in H as [? ->] end.
  simpl. by rewrite lookup_insert_eq.
Qed.

Definition paid_hold (now : Z) (h : CreditHoldRow) : CreditHoldRow :=
  h <| ch_state := HPaid |> <| ch_updated_at := now |>.

(** What a successful [ConfirmPayoutBatch] did. *)
Lemma ConfirmPayoutBatch_run batchID records now db b db' :
  ConfirmPayoutBatch batchID records now db = (Ok b, db') → ledger_wf db →
  let t := posted_at db now in
  let items := order_by by_key (rows_where (exported_item batchID) (db_payout_items db)) in
  ∃ row total db1,
    db_payout_batches db !! batchID = Some row ∧ pb_status row = BExported ∧ 0 < total ∧
    db_ledger_transactions db !! po_TransactionID b = None ∧
    ldelta db db1
      (λ k, sum_list (λ it, at_key (host_key (item_host it.2) AccountHostAvailableCredit)
                              (pi_amount_microdollars it.2) k) items +
            at_key (platform_key AccountPlatformPayoutCash) (wrap64 (- total)) k)
      (at_key (po_TransactionID b) (sum_list (λ it, pi_amount_microdollars it.2) items + wrap64 (- total)))
      [po_TransactionID b] ∧
    (∃ lt, db_ledger_transactions db1 !! po_TransactionID b = Some lt ∧ lt_status lt = LtPosted) ∧
    posted_balanced db' ∧
    (∀ i, db_payout_items db1 !! i = (λ it, if bool_decide (i ∈ items.*1)
       then paid_item (po_TransactionID b) it else it) <$> db_payout_items db !! i) ∧
    db' = db1 <| db_host_credit_holds ::= update_where (λ _, hold_reserved_by batchID) (paid_hold t) |>
              <| db_payout_batches ::= update_where (λ k _, String.eqb k batchID)
                   (λ b, b <| pb_status := BPaid |> <| pb_paid_at := Some t |>) |>.
Proof.
  intros H Hwf t items. unfold ConfirmPayoutBatch, update_holds, update_batch, select_batch in H. run_inv.
  match goal with H : or_now _ _ = _ |- _ => apply or_now_ok in H as [-> ->] end.
  change (if is_zero_time now then db_now db else now) with t in *.
  match goal with rs : list (list string) |- _ => destruct rs as [|r0 [|r1 rows]]; run_inv end.
  match goal with H : transaction _ _ = _ |- _ => apply transaction_ok in H as [H Hb] end.
  set (recs := r1 :: rows) in *. clearbody recs. run_inv. clear r0.
  match goal with H : bool_decide _ = true |- _ => apply bool_decide_eq_true in H; rename H into Hst end.
  note_frames.
  match goal with H : insert_transaction _ _ _ = _ |- _ => apply insert_transaction_header in H as Hhead end.
  pose proof (ldelta_refl db Hwf) as Hacc. do 2 ld_step.
  match goal with H : fold_st _ _ _ _ = (Ok ?tot, _) |- _ => rename H into Hpay; rename tot into total;
    apply pay_items_run in Hpay as [Hd Hitems]; [|apply Hacc] end.
  rewrite <-(ld_headers _ _ _ _ _ Hd) in Hhead by set_solver.
  match goal with H : post_transaction _ _ _ = _ |- _ => eapply post_transaction_posts in H as Hp;
    [|rewrite_txs; exact Hhead] end.
  ld_add Hacc Hd. repeat ld_step.
  match goal with H : _ !! batchID = Some ?r, Ha : ldelta db ?d _ _ _ |- _ => exists r, total, d end.
  split_and!; try done.
  - by apply Z.ltb_lt.
  - unfold platform_key. simpl po_TransactionID.
    refine (ldelta_final _ _ _ _ _ _ _ _ Hacc _ _ _); [| |set_solver].
    + intros k. unfold no_delta. fold items. lia.
    + intros k. unfold no_delta. fold items. rewrite sum_at_key, <-at_key_add. lia.
  - eexists. split; [exact Hp|done].
  - intros i. repeat match goal with H : db_payout_items ?d = _ |- context [db_payout_items ?d !! i] =>
      rewrite H end.
    rewrite Hitems. repeat match goal with H : db_payout_items ?d = _ |- context [db_payout_items ?d !! i] =>
      rewrite H end. done.
Qed.

Lemma held_ext db q q' :
  (∀ k h, db_host_credit_holds db !! k = Some h → q h = q' h) → held db q = held db q'.
Proof. intros H. apply sum_map_ext. intros k h Hk. unfold hold_amount. by rewrite (H k h Hk). Qed.
Lemma held_false db : held db (λ _, false) = 0.
Proof. unfold held, hold_amount, sum_map. apply sum_list_zero. Qed.

Lemma paid_held db db1 batchID t q :
  db_host_credit_holds db1 = db_host_credit_holds db →
  (∀ h, hold_reserved_by batchID h = true → hold_amount q (paid_hold t h) = 0) →
  sum_map (hold_amount q) (update_where (λ _, hold_reserved_by batchID) (paid_hold t) (db_host_credit_holds db1)) =
  held db q - held db (λ h, hold_reserved_by batchID h && q h).
Proof.
  intros Hh Hq. rewrite Hh, sum_update_where. unfold held.
  rewrite <-Z.add_opp_r. f_equal. unfold sum_map. rewrite <-sum_list_opp. apply sum_list_ext.
  intros [k h] _. simpl.
  destruct (hold_reserved_by batchID h) eqn:E; [rewrite (Hq h E)|]; unfold hold_amount; rewrite ?E; simpl; lia.
Qed.

Lemma ConfirmPayoutBatch_effect {off} batchID records now db b db' :
  subledger_at off db → payout_match db → ConfirmPayoutBatch batchID records now db = (Ok b, db') →
  let items := rows_where (exported_item batchID) (db_payout_items db) in
  (∀ node, acct_balance db' (host_key node AccountHostAvailableCredit) =
     acct_balance db (host_key node AccountHostAvailableCredit) + held db (reserved_for batchID node)) ∧
  acct_balance db' (platform_key AccountPlatformPayoutCash) =
    acct_balance db (platform_key AccountPlatformPayoutCash) -
    sum_list (λ i, pi_amount_microdollars i.2) items ∧
  db_host_credit_holds db' = update_where (λ _, hold_reserved_by batchID) (paid_hold (posted_at db now))
    (db_host_credit_holds db) ∧
  (∀ i it, (i, it) ∈ items → db_payout_items db' !! i = Some (paid_item (po_TransactionID b) it)) ∧
  subledger_at off db'.
Proof.
  intros Hs Hm H items. pose proof (sl_wf _ _ Hs) as Hwf.
  destruct (ConfirmPayoutBatch_run batchID records now db b db' H Hwf)
    as (row & total & db1 & Hrow & Hst & Htot & Hf & Hd & (lt & Hlt & Hps) & Hb & Hitems & ->).
  set (t := posted_at db now) in *. fold items in Hd, Hitems.
  set (sorted := order_by by_key items) in *.
  assert (Hperm : sorted ≡ₚ items) by apply stable_sort_perm.
  assert (Hv := committed_zero _ _ _ _ _ _ Hwf Hf Hd Hb Hlt Hps).
  rewrite (sum_list_perm _ _ _ Hperm) in Hv.
  assert (Hav : ∀ node, acct_balance db1 (host_key node AccountHostAvailableCredit) =
    acct_balance db (host_key node AccountHostAvailableCredit) + held db (reserved_for batchID node)).
  { intros node. rewrite (ld_acct _ _ _ _ _ Hd). rewrite (at_key_ne (platform_key _)) by by intros [=].
    rewrite Z.add_0_r. f_equal. rewrite <-(pm_sum _ Hm batchID row node Hrow ltac:(by right)).
    apply (exported_sum db batchID row node Hm Hrow Hst). }
  assert (Hpend : ∀ node, acct_balance db1 (host_key node AccountHostPendingCredit) =
    acct_balance db (host_key node AccountHostPendingCredit)).
  { intros node. rewrite (ld_acct _ _ _ _ _ Hd). rewrite (at_key_ne (platform_key _)) by by intros [=].
    rewrite (sum_list_ext _ (λ _, 0)); [rewrite sum_list_zero; lia|].
    intros i _. apply at_key_ne. by intros [=]. }
  split_and!.
  - exact Hav.
  - change (acct_balance _ _) with (acct_balance db1 (platform_key AccountPlatformPayoutCash)) at 1.
    rewrite (ld_acct _ _ _ _ _ Hd), at_key_eq, (sum_list_ext _ (λ _, 0)); [rewrite sum_list_zero; lia|].
    intros i _. apply at_key_ne. by intros [=].
  - simpl. by rewrite (ld_holds _ _ _ _ _ Hd).
  - intros i it Hin. simpl. rewrite Hitems. apply elem_of_rows_where in Hin as Hin'.
    destruct Hin' as [-> _]. simpl. rewrite bool_decide_eq_true_2; [done|].
    apply list_elem_of_fmap. exists (i, it). split; [done|]. by rewrite Hperm.
  - apply (subledger_frame (db1 <| db_host_credit_holds ::= update_where (λ _, hold_reserved_by batchID) (paid_hold t) |>));
      [|split; reflexivity|reflexivity].
    apply (subledger_intro db1).
    + apply Hd.
    + exact Hb.
    + rewrite (ld_holds _ _ _ _ _ Hd). intros k h. rewrite lookup_update_where, fmap_Some.
      intros (h0 & Hk & ->). pose proof (sl_amounts _ _ Hs k h0 Hk). by destruct (hold_reserved_by batchID h0).
    + intros n. rewrite Hpend, (sl_pending _ _ Hs), (paid_held db db1 batchID t); [|apply Hd|].
      * rewrite (held_ext db (λ h, hold_reserved_by batchID h && pending_of n h) (λ _, false));
          [rewrite held_false; lia|]. intros k h _.
        unfold hold_reserved_by, pending_of. destruct (ch_state h); rewrite ?andb_false_r; done.
      * intros h _. unfold hold_amount, pending_of. by rewrite andb_false_r.
    + intros n. rewrite Hav, (sl_available _ _ Hs), (paid_held db db1 batchID t); [|apply Hd|].
      * rewrite (held_ext db (reserved_for batchID n) (λ h, hold_reserved_by batchID h && available_of n h)); [lia|].
        intros k h _. unfold reserved_for, hold_reserved_by, available_of.
        destruct (ch_state h), (hold_in_batch batchID h), (String.eqb (ch_node_id h) n); done.
      * intros h _. unfold hold_amount, available_of. by rewrite andb_false_r.
Qed.

(** C14. Confirming a payout pays exactly what the batch reserved: for every host the
    credit on its available account goes down by the amount reserved for it in the batch,
    the platform's cash account moves by the sum of the exported items, the reserved holds
    and the exported items become paid, nothing else changes hands, and holds and accounts
    still agree. *)
Theorem confirm_pays_reserved batchID records now db b db' :
  subledger db → payout_match db → ConfirmPayoutBatch batchID records now db = (Ok b, db') →
  let items := rows_where (exported_item batchID) (db_payout_items db) in
  (∀ node, acct_balance db' (host_key node AccountHostAvailableCredit) =
     acct_balance db (host_key node AccountHostAvailableCredit) + held db (reserved_for batchID node)) ∧
  acct_balance db' (platform_key AccountPlatformPayoutCash) =
    acct_balance db (platform_key AccountPlatformPayoutCash) -
    sum_list (λ i, pi_amount_microdollars i.2) items ∧
  db_host_credit_holds db' = update_where (λ _, hold_reserved_by batchID) (paid_hold (posted_at db now))
    (db_host_credit_holds db) ∧
  (∀ i it, (i, it) ∈ items → db_payout_items db' !! i = Some (paid_item (po_TransactionID b) it)) ∧
  subledger db'.
Proof. apply ConfirmPayoutBatch_effect. Qed.

(** ** Every operation keeps the books consistent *)

Definition consistent_at (off : acct_key → Z) (db : DB) : Prop := subledger_at off db ∧ payout_match db.
Notation consistent := (consistent_at no_delta).
#[export] Instance consistent_tables off : TableProp (consistent_at off).
Proof.
  intros db ent. unfold consistent_at.
  by rewrite <-(table_prop (P := subledger_at off) db ent), <-(table_prop (P := payout_match) db ent).
Qed.

(** Hold tables that agree on everything reserved keep the payout invariant. *)
Lemma match_holds db db' :
  payout_match db → db_payout_items db' = db_payout_items db →
  db_payout_batches db' = db_payout_batches db →
  (∀ b n, held db' (reserved_for b n) = held db (reserved_for b n)) →
  (∀ k h, db_host_credit_holds db' !! k = Some h →
     (∃ h0, db_host_credit_holds db !! k = Some h0 ∧ ch_payout_batch_id h = ch_payout_batch_id h0 ∧
            (ch_state h ∈ [HPending; HAvailable] → ch_state h0 ∈ [HPending; HAvailable])) ∨
     ch_payout_batch_id h = None) →
  payout_match db'.
Proof.
  intros [M1 M2 M3 M4 M5] Hi Hb Hr Hk. split; unfold item_sum; rewrite ?Hi, ?Hb; auto.
  - intros b row node. rewrite Hr. apply M1.
  - intros k h b Hkh Hbat. destruct (Hk k h Hkh) as [(h0 & Hh0 & Heq & _)|Hn]; [|congruence].
    apply (M4 k h0); congruence.
  - intros k h Hkh Hst. destruct (Hk k h Hkh) as [(h0 & Hh0 & Heq & Himp)|Hn]; [|done].
    rewrite Heq. apply (M5 k h0); auto.
Qed.

Lemma match_new_hold db db1 holdID row :
  payout_match db → db_payout_items db1 = db_payout_items db →
  db_payout_batches db1 = db_payout_batches db → db_host_credit_holds db1 = db_host_credit_holds db →
  db_host_credit_holds db !! holdID = None → ch_payout_batch_id row = None →
  payout_match (db1 <| db_host_credit_holds ::= <[holdID := row]> |>).
Proof.
  intros Hm Hi Hb Hh Hf Hn. apply (match_holds db); [done|done|done| |].
  - intros b n. unfold held. simpl. rewrite Hh, sum_map_insert by done.
    unfold hold_amount, reserved_for, hold_reserved_by, hold_in_batch. by rewrite Hn.
  - simpl. rewrite Hh. intros k h. rewrite lookup_insert_Some. intros [[<- <-]|[_ Hk]]; [by right|].
    left. by exists h.
Qed.

Lemma postAcceptedJob_items X p : preserves (items_are X) (postAcceptedJob p).
Proof.
  unfold postAcceptedJob, load_pricing, insert_transaction_or_duplicate, insert_hold. solve_inv.
Qed.
Lemma postVerificationOverhead_items X p : preserves (items_are X) (postVerificationOverhead p).
Proof. unfold postVerificationOverhead, load_pricing, insert_hold. solve_inv. Qed.

Lemma postAcceptedJob_consistent {off} p db r db' :
  postAcceptedJob p db = (Ok r, db') → posted_balanced db' → consistent_at off db → consistent_at off db'.
Proof.
  intros Hrun Hb [Hs Hm].
  split; [by apply (postAcceptedJob_subledger p db r)|].
  pose proof (frame_items _ _ _ _ (λ X, postAcceptedJob_items X p) Hrun) as Hi.
  destruct (postAcceptedJob_run p db r db' Hrun (sl_wf _ _ Hs)) as (org & node & price & db1 & Hpost).
  destruct Hpost as [_ _ _ _ _ Hd Hfh _ _ ->].
  by apply (match_new_hold db); [|..|apply (ld_batches _ _ _ _ _ Hd)|apply (ld_holds _ _ _ _ _ Hd)| |].
Qed.

Lemma PostAcceptedJob_consistent {off} p : preserves (consistent_at off) (PostAcceptedJob p).
Proof.
  apply preserves_transaction_commit; [apply _|]. intros db r db' Hc Hrun Hb.
  by apply (postAcceptedJob_consistent p db r).
Qed.

Lemma postVerificationOverhead_hold p db r db' :
  postVerificationOverhead p db = (Ok r, db') → ledger_wf db →
  ∃ db1 holdID row, db' = db1 <| db_host_credit_holds ::= <[holdID := row]> |> ∧
    db_host_credit_holds db !! holdID = None ∧ ch_payout_batch_id row = None ∧
    db_payout_batches db1 = db_payout_batches db ∧ db_host_credit_holds db1 = db_host_credit_holds db.
Proof.
  unfold postVerificationOverhead, load_pricing. intros H Hwf. run_inv.
  match goal with H : or_now _ _ = _ |- _ => apply or_now_ok in H as [-> ->] end. run_inv.
  match goal with pr : (string * string * ModelPriceRow)%type |- _ => destruct pr as [[org node] price] end.
  run_inv. pose proof (ldelta_refl db Hwf) as Hacc. repeat ld_step.
  match goal with H : insert_hold _ _ _ = _ |- _ => apply insert_hold_ok in H as (-> & Hfh & _) end.
  rewrite (ld_holds _ _ _ _ _ Hacc) in Hfh. eexists _, _, _.
  split_and!; [reflexivity|exact Hfh|done|apply (ld_batches _ _ _ _ _ Hacc)|apply (ld_holds _ _ _ _ _ Hacc)].
Qed.

Lemma PostVerificationOverhead_consistent {off} p : preserves (consistent_at off) (PostVerificationOverhead p).
Proof.
  apply preserves_transaction_commit; [apply _|]. intros db r db' [Hs Hm] Hrun Hb.
  split; [by apply (postVerificationOverhead_subledger p db r)|].
  pose proof (frame_items _ _ _ _ (λ X, postVerificationOverhead_items X p) Hrun) as Hi.
  destruct (postVerificationOverhead_hold p db r db' Hrun (sl_wf _ _ Hs))
    as (db1 & holdID & row & -> & Hf & Hn & Hb1 & Hh1).
  by apply (match_new_hold db).
Qed.

(** A call that reads the clock and runs one transaction: errors change no table. *)
Lemma preserves_op {A} (P : DB → Prop) `{!TableProp P} now (f : Z → St DB A) :
  (∀ db a db', P db → (t ← or_now now; transaction (f t)) db = (Ok a, db') → P db') →
  preserves P (t ← or_now now; transaction (f t)).
Proof.
  intros Hf db Hdb. specialize (Hf db). unfold or_now, sql_now, gets, mret, St_ret, mbind, St_bind in *.
  destruct (is_zero_time now); destruct (transaction _ db) as [[a|e] db'] eqn:E; simpl; eauto;
    apply transaction_err in E as [ent ->]; by apply (table_prop db).
Qed.

Lemma PromoteAvailableCredits_consistent {off} now : preserves (consistent_at off) (PromoteAvailableCredits now).
Proof.
  apply preserves_op; [apply _|]. intros db n db' [Hs Hm] E.
  destruct (PromoteAvailableCredits_run now db n db' Hs E) as (Hs' & _ & Hh & Hi & Hb).
  split; [done|]. apply (match_holds db); [done|done|done| |].
  - intros b n'. unfold held. rewrite Hh, sum_update_where.
    rewrite (sum_list_ext _ (λ _, 0)); [rewrite sum_list_zero; lia|].
    intros [k h] _. simpl. destruct (releasable _ k h) eqn:Er; [|done].
    unfold releasable in Er. apply andb_true_iff in Er as [Er%bool_decide_eq_true _].
    unfold hold_amount, reserved_for, hold_reserved_by, released. simpl. rewrite Er.
    by rewrite !andb_false_r.
  - rewrite Hh. intros k h. rewrite lookup_update_where, fmap_Some. intros (h0 & Hk & ->). left.
    exists h0. split; [done|]. destruct (releasable _ k h0) eqn:Er; [|done]. split; [done|]. intros _.
    unfold releasable in Er. apply andb_true_iff in Er as [Er%bool_decide_eq_true _]. rewrite Er. set_solver.
Qed.

Lemma CreatePayoutBatch_consistent {off} org now : preserves (consistent_at off) (CreatePayoutBatch org now).
Proof.
  apply preserves_op; [apply _|]. intros db b db' [Hs Hm] E.
  destruct (CreatePayoutBatch_run org now db b db' E Hs Hm) as (Hs' & Hm' & _). done.
Qed.

(** Exporting a draft: its pending items become exported. *)
Definition exported (i : PayoutItemRow) : PayoutItemRow := i <| pi_status := IExported |>.

Lemma match_export db db' batchID row row' :
  payout_match db → db_payout_batches db !! batchID = Some row → pb_status row = BDraft →
  pb_status row' = BExported →
  db_host_credit_holds db' = db_host_credit_holds db →
  db_payout_batches db' = <[batchID := row']> (db_payout_batches db) →
  db_payout_items db' = update_where
    (λ k i, item_in_batch batchID k i && bool_decide (pi_status i = IPending)) exported (db_payout_items db) →
  payout_match db'.
Proof.
  intros [M1 M2 M3 M4 M5] Hrow Hst Hst' Hh Hb Hi.
  assert (Hsum : ∀ b n, item_sum db' b n = item_sum db b n).
  { intros b n. unfold item_sum. rewrite Hi, sum_update_where.
    rewrite (sum_list_ext _ (λ _, 0)); [rewrite sum_list_zero; lia|]. intros [k i] _. simpl.
    destruct (item_in_batch batchID k i && bool_decide (pi_status i = IPending)) eqn:E; [|done].
    apply andb_true_iff in E as [_ E%bool_decide_eq_true].
    unfold item_amount, item_for, live_item, exported. simpl. rewrite E. simpl. lia. }
  assert (Hbs : ∀ b, is_Some (db_payout_batches db !! b) → is_Some (db_payout_batches db' !! b)).
  { intros b. rewrite Hb, lookup_insert_is_Some. destruct (decide (batchID = b)); auto. }
  split.
  - intros b r n. rewrite Hsum, Hb, lookup_insert_Some. unfold held. rewrite Hh.
    intros [[<- <-]|[_ Hr]] Ho; [apply (M1 _ row); [done|by left]|by apply (M1 _ r)].
  - intros i it. rewrite Hi, lookup_update_where, fmap_Some. intros (it0 & (H1 & H2 & H3)%M2 & ->).
    destruct (_ && _); simpl; auto.
  - intros i it r. rewrite Hi, lookup_update_where, fmap_Some. intros (it0 & Hit & ->) Hlive.
    rewrite Hb, lookup_insert_Some.
    assert (Hbatch : pi_payout_batch_id (if item_in_batch batchID i it0 && bool_decide (pi_status it0 = IPending)
      then exported it0 else it0) = pi_payout_batch_id it0) by by destruct (_ && _).
    rewrite Hbatch. intros [[Heq <-]|[Hne Hr]].
    + rewrite Hst'. split; [done|]. intros _. subst batchID. unfold item_in_batch in *.
      rewrite String.eqb_refl in *. simpl in *.
      assert (Hl0 : live_item it0 = true).
      { revert Hlive. unfold live_item. by case_bool_decide as Hp; [rewrite Hp|]. }
      destruct (M3 i it0 row Hit Hl0 Hrow) as [Hp _]. rewrite (Hp Hst). done.
    + unfold item_in_batch in *. rewrite (proj2 (String.eqb_neq _ _)) in * by congruence. simpl in *.
      by apply (M3 i it0 r).
  - rewrite Hh. intros k h b Hk Hbat. apply Hbs. by apply (M4 k h).
  - by rewrite Hh.
Qed.

Lemma ExportPayoutBatch_consistent {off} batchID now : preserves (consistent_at off) (ExportPayoutBatch batchID now).
Proof.
  apply preserves_op; [apply _|]. intros db b db' [Hs Hm] E.
  unfold select_batch, update_items, update_batch in E. run_inv.
  match goal with H : or_now _ _ = _ |- _ => apply or_now_ok in H as [-> ->] end.
  match goal with H : transaction _ _ = _ |- _ => apply transaction_ok in H as [H Hb] end. run_inv.
  match goal with H : db_payout_batches db !! batchID = Some ?r |- _ => rename H into Hrow; rename r into row end.
  destruct (bool_decide_reflect (pb_status row = BDraft)) as [Hst|Hst]; run_inv; [|done].
  split; [by apply (subledger_frame db)|].
  eapply (match_export db _ batchID row _ Hm Hrow Hst); [| |simpl; by rewrite (update_where_key _ _ _ row)|];
    done.
Qed.

(** Closing a batch, by payment or by voiding: its items and reserved holds move on, those
    of every other batch stay. *)
Lemma match_close db db' batchID row row' pI fI pH fH :
  payout_match db → db_payout_batches db !! batchID = Some row → ¬ open_batch row' →
  db_payout_batches db' = <[batchID := row']> (db_payout_batches db) →
  db_payout_items db' = update_where pI fI (db_payout_items db) →
  (∀ k i, pI k i = true → pi_payout_batch_id i = batchID) →
  (∀ i, pi_payout_batch_id (fI i) = pi_payout_batch_id i ∧ pi_host_node_id (fI i) = pi_host_node_id i ∧
        pi_amount_microdollars (fI i) = pi_amount_microdollars i) →
  db_host_credit_holds db' = update_where (λ _, pH) fH (db_host_credit_holds db) →
  (∀ h, pH h = true → hold_in_batch batchID h = true) →
  (∀ h, ch_state (fH h) ≠ HPayoutPending ∧
        (ch_payout_batch_id (fH h) = None ∨
         ch_payout_batch_id (fH h) = ch_payout_batch_id h ∧ ch_state (fH h) ∉ [HPending; HAvailable])) →
  payout_match db'.
Proof.
  intros [M1 M2 M3 M4 M5] Hrow Hclosed Hb Hi HpI HfI Hh HpH HfH.
  assert (Hbs : ∀ b, is_Some (db_payout_batches db !! b) → is_Some (db_payout_batches db' !! b)).
  { intros b. rewrite Hb, lookup_insert_is_Some. destruct (decide (batchID = b)); auto. }
  split.
  - intros b r n. rewrite Hb, lookup_insert_Some. intros [[<- <-]|[Hne Hr]] Ho; [done|].
    assert (item_sum db' b n = item_sum db b n) as ->.
    { unfold item_sum. rewrite Hi, sum_update_where.
      rewrite (sum_list_ext _ (λ _, 0)); [rewrite sum_list_zero; lia|]. intros [k i] _. simpl.
      destruct (pI k i) eqn:E; [|done]. apply HpI in E as E'. destruct (HfI i) as (F1 & F2 & F3).
      unfold item_amount, item_for. rewrite F1, E', (proj2 (String.eqb_neq _ _) Hne). done. }
    rewrite (M1 b r n Hr Ho). unfold held. rewrite Hh, sum_update_where.
    rewrite (sum_list_ext _ (λ _, 0)); [rewrite sum_list_zero; lia|]. intros [k h] _. simpl.
    destruct (pH h) eqn:E; [|done]. destruct (HfH h) as [Hs _]. apply HpH in E.
    unfold hold_amount, reserved_for. unfold hold_reserved_by at 1. rewrite (bool_decide_eq_false_2 _ Hs).
    rewrite andb_false_r. simpl. unfold hold_reserved_by, hold_in_batch in *.
    apply bool_decide_eq_true in E. rewrite E.
    rewrite (bool_decide_eq_false_2 (Some batchID = Some b)) by congruence. done.
  - intros k it. rewrite Hi, lookup_update_where, fmap_Some. intros (it0 & (H1 & H2 & H3)%M2 & ->).
    destruct (HfI it0) as (F1 & F2 & F3). destruct (pI k it0); rewrite ?F1, ?F2, ?F3; auto.
  - intros k it r. rewrite Hi, lookup_update_where, fmap_Some. intros (it0 & Hit & ->) Hlive.
    destruct (HfI it0) as (F1 & _). rewrite Hb. destruct (pI k it0) eqn:E.
    + rewrite F1, (HpI k it0 E), lookup_insert_eq. intros [= <-].
      split; intros; exfalso; apply Hclosed; [by left|by right].
    + rewrite lookup_insert_Some. intros [[Heq <-]|[_ Hr]]; [|by apply (M3 k it0 r)].
      split; intros; exfalso; apply Hclosed; [by left|by right].
  - intros k h b. rewrite Hh, lookup_update_where, fmap_Some. intros (h0 & Hk & ->) Hbat. apply Hbs.
    destruct (pH h0); [|by apply (M4 k h0)].
    destruct (HfH h0) as [_ [Hn|[Heq _]]]; [congruence|]. apply (M4 k h0); congruence.
  - intros k h. rewrite Hh, lookup_update_where, fmap_Some. intros (h0 & Hk & ->) Hst.
    destruct (pH h0); [|by apply (M5 k h0)].
    by destruct (HfH h0) as [_ [Hn|[_ Hn]]].
Qed.

Lemma ConfirmPayoutBatch_matched {off} batchID records now db b db' :
  consistent_at off db → ConfirmPayoutBatch batchID records now db = (Ok b, db') → payout_match db'.
Proof.
  intros [Hs Hm] E.
  destruct (ConfirmPayoutBatch_run batchID records now db b db' E (sl_wf _ _ Hs))
    as (row & total & db1 & Hrow & Hst & _ & _ & Hd & _ & _ & Hitems & ->).
  eapply (match_close db _ batchID row _ (exported_item batchID) (paid_item (po_TransactionID b))
    (hold_reserved_by batchID) (paid_hold (posted_at db now)) Hm Hrow).
  - shelve.
  - simpl. rewrite (ld_batches _ _ _ _ _ Hd). by rewrite (update_where_key _ _ _ row).
  - simpl. apply map_eq. intros i. rewrite Hitems, lookup_update_where.
    destruct (db_payout_items db !! i) as [it|] eqn:Ei; [|done]. simpl. f_equal.
    rewrite (bool_decide_ext _ (exported_item batchID i it = true)); [by destruct (exported_item batchID i it)|].
    rewrite list_elem_of_fmap. split.
    + intros ([i' it'] & -> & Hin). apply elem_of_order_by, elem_of_rows_where in Hin as [? ?]. simpl in *. congruence.
    + intros He. exists (i, it). split; [done|]. by apply elem_of_order_by, elem_of_rows_where.
  - unfold exported_item, item_in_batch. intros k i [H _]%andb_true_iff. by apply String.eqb_eq.
  - done.
  - simpl. by rewrite (ld_holds _ _ _ _ _ Hd).
  - intros h [H _]%andb_true_iff. exact H.
  - intros h. split; [done|]. right. split; [done|]. simpl. set_solver.
  Unshelve. intros [H|H]; done.
Qed.

Lemma VoidPayoutBatch_consistent {off} batchID memo now db row :
  consistent_at off db → db_payout_batches db !! batchID = Some row → pb_status row ≠ BPaid →
  consistent_at off (VoidPayoutBatch batchID memo now db).2.
Proof.
  intros [Hs Hm] Hrow Hpaid. destruct (decide (pb_status row = BVoid)) as [Hv|Hv].
  - assert (Hgo : ∀ t, transaction (void_batch batchID memo t) db = (Ok (batch_of batchID row), db)).
    { intros t. apply transaction_ok. split; [|apply Hs].
      unfold void_batch, select_batch, gets, wrap, of_option, mbind, St_bind. rewrite Hrow.
      unfold mret, St_ret, batch_of. simpl. by rewrite Hv. }
    unfold VoidPayoutBatch, or_now, sql_now, gets, mret, St_ret, mbind, St_bind.
    by destruct (is_zero_time now); rewrite Hgo.
  - assert (Hopen : open_batch row) by (unfold open_batch; destruct (pb_status row); naive_solver).
    rewrite (void_open_batch _ _ _ _ row (sl_balanced _ _ Hs) Hrow Hopen). set (t := posted_at db now). split.
    + apply (subledger_same db); [done|split; reflexivity| | |].
      * simpl. intros k h. rewrite lookup_update_where, fmap_Some. intros (h0 & Hk & ->).
        pose proof (sl_amounts _ _ Hs k h0 Hk). by destruct (hold_reserved_by batchID h0).
      * intros n. unfold held. simpl. rewrite sum_update_where, (sum_list_ext _ (λ _, 0)); [rewrite sum_list_zero; lia|].
        intros [k h] _. simpl. destruct (hold_reserved_by batchID h) eqn:E; [|done].
        unfold hold_reserved_by in E. apply andb_true_iff in E as [_ E%bool_decide_eq_true].
        unfold hold_amount, pending_of. simpl. by rewrite E, !andb_false_r.
      * intros n. unfold held. simpl. rewrite sum_update_where, (sum_list_ext _ (λ _, 0)); [rewrite sum_list_zero; lia|].
        intros [k h] _. simpl. destruct (hold_reserved_by batchID h) eqn:E; [|done].
        unfold hold_reserved_by in E. apply andb_true_iff in E as [_ E%bool_decide_eq_true].
        unfold hold_amount, available_of. simpl. rewrite E. destruct (String.eqb (ch_node_id h) n); simpl; lia.
    + eapply (match_close db _ batchID row _
        (λ k i, item_in_batch batchID k i && negb (bool_decide (pi_status i = IVoid))) _ (hold_reserved_by batchID) (unreserved t) Hm Hrow);
        [|simpl; by rewrite (update_where_key _ _ _ row)|reflexivity| |done|reflexivity| |].
      * intros [H|H]; done.
      * unfold item_in_batch. intros k i [H _]%andb_true_iff. by apply String.eqb_eq.
      * intros h [H _]%andb_true_iff. exact H.
      * intros h. split; [done|]. by left.
Qed.

Lemma ConfirmPayoutBatch_consistent {off} batchID records now :
  preserves (consistent_at off) (ConfirmPayoutBatch batchID records now).
Proof.
  intros db Hc. destruct (ConfirmPayoutBatch batchID records now db) as [[b|e] db'] eqn:E; simpl.
  - split; [|by eapply ConfirmPayoutBatch_matched].
    destruct Hc as [Hs Hm]. by destruct (ConfirmPayoutBatch_effect _ _ _ _ _ _ Hs Hm E) as (_ & _ & _ & _ & ?).
  - unfold ConfirmPayoutBatch, or_now, sql_now, lift_result, wrap, gets, mret, St_ret, mbind, St_bind in E.
    destruct (is_zero_time now); destruct records as [[|r0 [|r1 rs]]|e']; simpl in E;
      try (unfold fail in E; by simplify_eq); by (apply transaction_err in E as [ent ->]; apply (table_prop db)).
Qed.

(** Steps of the rest of the coordinator, which leave the ledger, hold and payout tables
    alone. *)
Record books_same (db db' : DB) : Prop := {
  bs_ledger : ledger_same db db';
  bs_holds : db_host_credit_holds db' = db_host_credit_holds db;
  bs_items : db_payout_items db' = db_payout_items db;
  bs_batches : db_payout_batches db' = db_payout_batches db
}.

Lemma consistent_frame {off} db db' : books_same db db' → consistent_at off db → consistent_at off db'.
Proof.
  intros [Hl Hh Hi Hb] [Hs Hm]. split; [by apply (subledger_frame db)|].
  apply (match_holds db); auto; [intros; unfold held; by rewrite Hh|].
  rewrite Hh. intros k h Hk. left. by exists h.
Qed.

Lemma empty_consistent now ent : consistent (empty_db now ent).
Proof. split; split; simpl; try done. Qed.
