(* ===== verification/LedgerBooks.v ===== *)
(** * The books agree

    The ledger operations of [Ledger] in any order: postings, releases, payout creations,
    exports, confirmations and voids (of paid batches too), and reversals of single
    transactions. What the ledger accounts say of every host is compared with the hold
    table, where the only difference there can be is what the reversals of single
    transactions have moved, since these do not touch the holds. *)
From stdpp Require Import base gmap strings list sorting.
From Stdlib Require Import ZArith Lia.
From S2P Require Import Prelude GoStrings Protocol Requests Database Ledger LedgerTheory.

(** ** The ledger only grows *)

Definition posted (db : DB) (t : string) : Prop :=
  ∃ lt, db_ledger_transactions db !! t = Some lt ∧ lt_status lt = LtPosted.

(** Entries are added, never to a transaction that is posted; posted transactions stay
    posted and accounts keep their owner and type. *)
Definition grows (db db' : DB) : Prop :=
  db_ledger_entries db ⊆ db_ledger_entries db' ∧
  (∀ k e, db_ledger_entries db' !! k = Some e → db_ledger_entries db !! k = None →
     ¬ posted db (le_transaction_id e)) ∧
  (∀ t, posted db t → posted db' t) ∧
  (∀ a key, key_of db a = Some key → key_of db' a = Some key).

#[export] Instance grows_pre : PreOrder grows.
Proof.
  split.
  - intros db. split_and!; auto. intros k e H1 H2. congruence.
  - intros a b c (S1 & N1 & P1 & K1) (S2 & N2 & P2 & K2). split_and!; auto; [by etransitivity|].
    intros k e Hc Ha Hp. destruct (db_ledger_entries b !! k) as [e'|] eqn:E.
    + rewrite (lookup_weaken _ _ _ _ E S2) in Hc. simplify_eq. by apply (N1 k e).
    + apply (N2 k e Hc E). by apply P1.
Qed.

#[export] Instance grows_tables db0 : TableProp (grows db0).
Proof. by intros db ent. Qed.

(** A statement from which the ledger grows, whatever the state. *)
Definition growing {A} (m : St DB A) : Prop := ∀ db, grows db (m db).2.

Lemma growing_preserves {A} (m : St DB A) db0 : growing m → preserves (grows db0) m.
Proof. intros Hm db Hdb. etransitivity; [exact Hdb|apply Hm]. Qed.
Lemma preserves_growing {A} (m : St DB A) : (∀ db0, preserves (grows db0) m) → growing m.
Proof. intros Hm db. by apply Hm. Qed.

Lemma grows_same db db' :
  ledger_same db db' → grows db db'.
Proof.
  intros [He Ht Ha]. split_and!.
  - by rewrite He.
  - rewrite He. intros k e H1 H2. congruence.
  - intros t. unfold posted. by rewrite Ht.
  - intros a key. unfold key_of. by rewrite Ha.
Qed.

(** One new row. *)
Lemma grows_transaction db t row :
  db_ledger_transactions db !! t = None →
  grows db (db <| db_ledger_transactions ::= <[t := row]> |>).
Proof.
  intros Hf. split_and!; try done; simpl.
  - intros k e H1 H2. congruence.
  - intros t' (lt & Hlt & Hp). exists lt. simpl. rewrite lookup_insert_ne; [done|congruence].
Qed.

Lemma insert_transaction_grows t row : growing (insert_transaction t row).
Proof.
  intros db. unfold insert_transaction, constraint, guard_err, gets, modify, mbind, St_bind, mret, St_ret.
  destruct (fresh_key _ t) eqn:E; simpl; [|done].
  apply bool_decide_eq_true in E. by apply grows_transaction.
Qed.

Lemma insert_transaction_or_duplicate_grows t row : growing (insert_transaction_or_duplicate t row).
Proof.
  intros db. unfold insert_transaction_or_duplicate, guard_err, gets, modify, mbind, St_bind, mret, St_ret.
  destruct (fresh_key _ t) eqn:E; simpl; [|done].
  apply bool_decide_eq_true in E. by apply grows_transaction.
Qed.

Lemma post_transaction_grows t now : growing (post_transaction t now).
Proof.
  intros db. unfold post_transaction, constraint, guard_err, gets, modify, mbind, St_bind, mret, St_ret.
  simpl. destruct (db_ledger_transactions db !! t) as [lt|] eqn:E; [|done].
  destruct (negb _); simpl; [|done]. split_and!; try done; simpl.
  - intros k e H1 H2. congruence.
  - intros t' (lt' & Hlt & Hp). unfold posted. simpl. destruct (decide (t' = t)) as [->|Hne].
    + rewrite lookup_insert_eq. by eexists.
    + rewrite lookup_insert_ne by done. by exists lt'.
Qed.

Lemma grows_accounts db f :
  (∀ a key, key_of db a = Some key → key_of (db <| db_ledger_accounts ::= f |>) a = Some key) →
  grows db (db <| db_ledger_accounts ::= f |>).
Proof. intros Hf. split_and!; try done. simpl. intros k e H1 H2. congruence. Qed.

Lemma ensureAccount_grows ot oid aty : growing (ensureAccount ot oid aty).
Proof.
  intros db. unfold ensureAccount, gets, mbind, St_bind.
  destruct (ids_New "acct" db) as [[id|e] db1] eqn:E; simpl.
  - apply ids_New_ok in E as (b & rest & _ & _ & ->). set (db1 := db <| db_entropy := rest |>).
    transitivity db1; [by apply grows_same|].
    destruct (rows_where _ _) as [|[actual a] l] eqn:Er.
    + unfold wrap, constraint, guard_err, modify, mret, St_ret.
      destruct (fresh_key _ id) eqn:Ef; simpl; [|done]. apply bool_decide_eq_true in Ef.
      apply (grows_accounts db1 (insert id _)). unfold key_of. simpl. intros a key Ha.
      rewrite lookup_insert_ne; [done|]. intros <-. simpl in Ef. by rewrite Ef in Ha.
    + simpl. assert (Hin : (actual, a) ∈ rows_where (account_matches ot oid aty CurrencyUSDMicro)
        (db_ledger_accounts db1)) by (rewrite Er; constructor).
      apply elem_of_rows_where in Hin as [Hact _].
      apply (grows_accounts db1 (insert actual _)). unfold key_of. simpl. intros x key. destruct (decide (actual = x)) as [<-|].
      * simpl in Hact. by rewrite lookup_insert_eq, Hact.
      * by rewrite lookup_insert_ne.
  - pose proof (preserves_ids_New (grows db) "acct" db ltac:(done)) as H. by rewrite E in H.
Qed.

Lemma insert_entry_row_grows k row : growing (insert_entry_row k row).
Proof.
  intros db. unfold insert_entry_row, constraint, guard_err, gets, modify, mbind, St_bind, mret, St_ret, fail.
  simpl. destruct (fresh_key _ k) eqn:E; simpl; [|done]. apply bool_decide_eq_true in E.
  destruct (has_key _ _); simpl; [|done].
  destruct (db_ledger_transactions db !! _) as [lt|] eqn:Et; simpl; [|done].
  case_bool_decide as Hp; simpl; [done|]. split_and!; try done; simpl.
  - by apply insert_subseteq.
  - intros k' e. rewrite lookup_insert_Some. intros [[<- <-]|[_ H1]] H2; [|congruence].
    intros (lt' & Hlt & Hp'). congruence.
Qed.

Lemma insert_transaction_kept db0 t row : preserves (grows db0) (insert_transaction t row).
Proof. apply growing_preserves, insert_transaction_grows. Qed.
Lemma insert_transaction_or_duplicate_kept db0 t row :
  preserves (grows db0) (insert_transaction_or_duplicate t row).
Proof. apply growing_preserves, insert_transaction_or_duplicate_grows. Qed.
Lemma post_transaction_kept db0 t now : preserves (grows db0) (post_transaction t now).
Proof. apply growing_preserves, post_transaction_grows. Qed.
Lemma ensureAccount_kept db0 ot oid aty : preserves (grows db0) (ensureAccount ot oid aty).
Proof. apply growing_preserves, ensureAccount_grows. Qed.
Lemma insert_entry_row_kept db0 k row : preserves (grows db0) (insert_entry_row k row).
Proof. apply growing_preserves, insert_entry_row_grows. Qed.
Lemma insert_hold_kept db0 k row : preserves (grows db0) (insert_hold k row).
Proof. unfold insert_hold. solve_inv. Qed.
#[local] Hint Resolve insert_transaction_kept insert_transaction_or_duplicate_kept post_transaction_kept
  ensureAccount_kept insert_entry_row_kept insert_hold_kept : inv.
Lemma insertEntry_kept db0 t a v m n : preserves (grows db0) (insertEntry t a v m n).
Proof. unfold insertEntry. solve_inv. Qed.
#[local] Hint Resolve insertEntry_kept : inv.

(** Every operation, whatever it returns, only makes the ledger grow. *)
Lemma PostAcceptedJob_kept db0 p : preserves (grows db0) (PostAcceptedJob p).
Proof. unfold PostAcceptedJob, postAcceptedJob, load_pricing. solve_db_inv; apply _. Qed.
Lemma PostVerificationOverhead_kept db0 p : preserves (grows db0) (PostVerificationOverhead p).
Proof. unfold PostVerificationOverhead, postVerificationOverhead, load_pricing. solve_db_inv; apply _. Qed.
Lemma PromoteAvailableCredits_kept db0 now : preserves (grows db0) (PromoteAvailableCredits now).
Proof. unfold PromoteAvailableCredits, release_credit, set_hold_state. solve_db_inv; apply _. Qed.
Lemma reverseTransaction_kept db0 t m now : preserves (grows db0) (reverseTransaction t m now).
Proof. unfold reverseTransaction, reverse_entry. solve_db_inv; apply _. Qed.
#[local] Hint Resolve reverseTransaction_kept : inv.
Lemma ReverseTransaction_kept db0 t m now : preserves (grows db0) (ReverseTransaction t m now).
Proof. unfold ReverseTransaction. solve_db_inv; apply _. Qed.
Lemma CreatePayoutBatch_kept db0 org now : preserves (grows db0) (CreatePayoutBatch org now).
Proof. unfold CreatePayoutBatch, update_batch, reserve_credit, insert_item. solve_db_inv; apply _. Qed.
Lemma ExportPayoutBatch_kept db0 b now : preserves (grows db0) (ExportPayoutBatch b now).
Proof. unfold ExportPayoutBatch, select_batch, update_items, update_batch. solve_db_inv; apply _. Qed.
Lemma ConfirmPayoutBatch_kept db0 b rs now : preserves (grows db0) (ConfirmPayoutBatch b rs now).
Proof.
  unfold ConfirmPayoutBatch, select_batch, update_items, update_batch, update_holds, pay_item, update_items.
  solve_db_inv; apply _.
Qed.
Lemma VoidPayoutBatch_kept db0 b m now : preserves (grows db0) (VoidPayoutBatch b m now).
Proof.
  unfold VoidPayoutBatch, void_batch, select_batch, update_items, update_batch, update_holds. solve_db_inv; apply _.
Qed.

(** ** Reversals *)

(** What the reversal of a transaction adds to an account: the opposite of its entries there,
    each negated in 64 bits. *)
Definition reversed_on (db : DB) (t : string) (key : acct_key) (e : LedgerEntryRow) : Z :=
  if bool_decide (le_transaction_id e = t ∧ key_of db (le_account_id e) = Some key)
  then wrap64 (- le_amount_microdollars e) else 0.
Definition reversal (db : DB) (t : string) (key : acct_key) : Z :=
  sum_map (reversed_on db t key) (db_ledger_entries db).

(** Reversing a posted transaction later adds the same. *)
Lemma reversal_grows db db' t key :
  grows db db' → ledger_wf db → posted db t → reversal db' t key = reversal db t key.
Proof.
  intros (Hsub & Hnew & _ & Hkeys) Hwf Hp. unfold reversal.
  rewrite (sum_map_filter _ (db_ledger_entries db)); [|exact Hsub|].
  - apply sum_map_ext. intros k e Hk. apply (wf_entry _ Hwf) in Hk as [_ [a Ha]].
    unfold reversed_on. assert (Hkey : key_of db (le_account_id e) = Some (row_key a))
      by (unfold key_of; by rewrite Ha).
    by rewrite (Hkeys _ _ Hkey), Hkey.
  - intros k e Hk Hk'. unfold reversed_on. rewrite bool_decide_eq_false_2; [done|].
    intros [<- _]. by apply (Hnew k e).
Qed.

Definition negated_on (db : DB) (key : acct_key) (e : string * LedgerEntryRow) : Z :=
  if bool_decide (key_of db (le_account_id e.2) = Some key) then wrap64 (- le_amount_microdollars e.2) else 0.

Lemma negated_on_grows db db' key entries :
  (∀ a k, key_of db a = Some k → key_of db' a = Some k) →
  (∀ e, e ∈ entries → is_Some (key_of db (le_account_id e.2))) →
  sum_list (negated_on db' key) entries = sum_list (negated_on db key) entries.
Proof.
  intros Hkeys Hsome. apply sum_list_ext. intros e He. destruct (Hsome e He) as [k Hk].
  unfold negated_on. by rewrite (Hkeys _ _ Hk), Hk.
Qed.

(** The loop of a reversal. *)
Lemma reverse_entry_run rid now e db u db' :
  reverse_entry rid now e db = (Ok u, db') → ledger_wf db →
  ∃ dt, ldelta db db' (λ key, negated_on db key e) dt [].
Proof.
  unfold reverse_entry. intros H Hwf. run_inv.
  match goal with H : ids_New _ _ = _ |- _ => pose proof H as Hid;
    apply ids_New_delta in Hid; [|done]; apply ids_New_ok in H as (b & rest & _ & _ & ->) end.
  match goal with H : insert_entry_row _ _ _ = _ |- _ => apply insert_entry_row_delta in H
    as (key & Hk & Hd & _); [|by destruct Hid] end.
  eexists. eapply ldelta_ext; [exact (ldelta_trans _ _ _ _ _ _ _ _ _ Hid Hd)| |reflexivity].
  intros k. cbv beta. unfold no_delta, negated_on, at_key. simpl in Hk |- *.
  change (key_of _ _) with (key_of db (le_account_id e.2)) in Hk. rewrite Hk.
  rewrite (bool_decide_ext (Some key = Some k) (k = key)) by naive_solver. lia.
Qed.

Lemma reverse_entries_run rid now entries db u db' :
  for_each (reverse_entry rid now) entries db = (Ok u, db') → ledger_wf db →
  (∀ e, e ∈ entries → is_Some (key_of db (le_account_id e.2))) →
  ∃ dt, ldelta db db' (λ key, sum_list (negated_on db key) entries) dt [].
Proof.
  revert db. induction entries as [|e entries IH]; intros db H Hwf Hsome; simpl in H; run_inv.
  { eexists. by apply ldelta_refl. }
  match goal with H : reverse_entry _ _ _ _ = (Ok _, ?d) |- _ =>
    apply reverse_entry_run in H as [dt1 Hd1]; [|done]; rename d into db1 end.
  match goal with H : for_each _ _ db1 = _ |- _ => apply IH in H as [dt2 Hd2]; [|apply Hd1|] end.
  - eexists. eapply ldelta_ext; [exact (ldelta_trans _ _ _ _ _ _ _ _ _ Hd1 Hd2)| |reflexivity].
    intros key. cbv beta. f_equal.
    apply negated_on_grows; [apply (ld_keys _ _ _ _ _ Hd1)|]. intros e' He'. apply Hsome. by constructor.
  - intros e' He'. destruct (Hsome e') as [k Hk]; [by constructor|].
    exists k. by apply (ld_keys _ _ _ _ _ Hd1).
Qed.

Lemma reversal_rows db t key :
  sum_list (negated_on db key) (order_by by_key
    (rows_where (λ _ e, String.eqb (le_transaction_id e) t) (db_ledger_entries db))) = reversal db t key.
Proof.
  etransitivity; [apply sum_list_perm, stable_sort_perm|].
  etransitivity; [apply (sum_rows_where (λ e, negated_on db key ("", e)))|].
  unfold reversal, sum_map. apply sum_list_ext. intros [k e] _. simpl.
  unfold negated_on, reversed_on. simpl.
  destruct (String.eqb_spec (le_transaction_id e) t) as [Ht|Ht].
  - by rewrite (bool_decide_ext (_ ∧ _) (key_of db (le_account_id e) = Some key)) by naive_solver.
  - by rewrite bool_decide_eq_false_2 by naive_solver.
Qed.

Lemma insert_transaction_entries t row : leaves db_ledger_entries (insert_transaction t row).
Proof.
  intros db. unfold insert_transaction, constraint, guard_err, gets, modify, mbind, St_bind, mret, St_ret.
  simpl. by destruct (fresh_key _ t).
Qed.

(** What a successful reversal does: the opposite of every entry is added. *)
Lemma reverseTransaction_run t m now db r db' :
  reverseTransaction t m now db = (Ok r, db') → ledger_wf db →
  ∃ dt l, ldelta db db' (reversal db t) dt l.
Proof.
  unfold reverseTransaction. intros H Hwf. run_inv.
  match goal with H : ids_New _ _ = (Ok ?i, _) |- _ =>
    pose proof (ids_New_delta _ _ _ _ H Hwf) as Hid; rename i into rid;
    apply ids_New_ok in H as (b & rest & _ & _ & ->) end.
  match goal with H : _ _ = (Ok _, ?d) , Hf : for_each _ _ ?d = _ |- _ => rename d into db2; rename H into Hins;
    rename Hf into Hloop end.
  assert (Hd2 : (∃ l, ldelta (db <| db_entropy := rest |>) db2 no_delta no_delta l) ∧
                db_ledger_entries db2 = db_ledger_entries db).
  { simpl in Hins. destruct (db_ledger_transactions db !! t) as [lt|]; [case_bool_decide|]; run_inv;
      [|by split; [exists []; apply ldelta_refl, Hid|] ..].
    split; [|exact (leaves_run _ _ _ _ _ (insert_transaction_entries _ _) Hins)].
    eexists. by apply (insert_transaction_delta _ _ _ _ _ Hins eq_refl), Hid. }
  destruct Hd2 as [[l Hd2] He]. pose proof (ldelta_trans _ _ _ _ _ _ _ _ _ Hid Hd2) as Hacc.
  rewrite He in *.
  assert (Hsome : ∀ e, e ∈ order_by by_key (rows_where (λ _ e, String.eqb (le_transaction_id e) t)
    (db_ledger_entries db)) → is_Some (key_of db (le_account_id e.2))).
  { intros [k e] [Hk _]%elem_of_order_by%elem_of_rows_where. apply (wf_entry _ Hwf) in Hk as [_ [a Ha]].
    exists (row_key a). unfold key_of. simpl. by rewrite Ha. }
  apply reverse_entries_run in Hloop as [dt Hd3]; [|apply Hacc|].
  2: { intros e He'. destruct (Hsome e He') as [k Hk]. exists k. by apply (ld_keys _ _ _ _ _ Hacc). }
  pose proof (ldelta_trans _ _ _ _ _ _ _ _ _ Hacc Hd3) as Hacc3.
  match type of Hacc3 with ldelta _ ?d _ ?dt' ?l' => assert (Hrev : ldelta db d (reversal db t) dt' l') end.
  { eapply ldelta_ext; [exact Hacc3| |reflexivity]. intros key. cbv beta. unfold no_delta.
    rewrite (negated_on_grows db), (reversal_rows db t key);
      [lia|apply (ld_keys _ _ _ _ _ Hacc)|exact Hsome]. }
  destruct (order_by _ _) as [|e0 es]; run_inv.
  match goal with H : post_transaction _ _ _ = _ |- _ =>
    pose proof (post_transaction_delta _ _ _ _ _ H (ld_wf _ _ _ _ _ Hrev)) as Hd4 end.
  eexists _, _. eapply ldelta_ext; [exact (ldelta_trans _ _ _ _ _ _ _ _ _ Hrev Hd4)| |reflexivity].
  intros key. cbv beta. unfold no_delta. lia.
Qed.

(** The accounts move by [da], the holds stay. *)
Lemma subledger_shift {off} db db' da dt l :
  subledger_at off db → ldelta db db' da dt l → posted_balanced db' →
  subledger_at (λ k, off k + da k) db'.
Proof.
  intros [W B A P V] Hd Hb. split; [apply Hd|exact Hb|rewrite (ld_holds _ _ _ _ _ Hd); exact A|..];
    intros node; unfold held; rewrite (ld_acct _ _ _ _ _ Hd), (ld_holds _ _ _ _ _ Hd);
    [rewrite P|rewrite V]; unfold held; lia.
Qed.

Lemma match_same db db' :
  payout_match db → db_payout_items db' = db_payout_items db →
  db_payout_batches db' = db_payout_batches db → db_host_credit_holds db' = db_host_credit_holds db →
  payout_match db'.
Proof.
  intros Hm Hi Hb Hh. apply (match_holds db); auto; [intros; unfold held; by rewrite Hh|].
  rewrite Hh. intros k h Hk. left. by exists h.
Qed.

Lemma insert_entry_row_items X k r : preserves (items_are X) (insert_entry_row k r).
Proof. unfold insert_entry_row. solve_inv. Qed.
Lemma reverseTransaction_items X t m n : preserves (items_are X) (reverseTransaction t m n).
Proof.
  pose proof (insert_entry_row_items X). unfold reverseTransaction, reverse_entry. solve_inv.
Qed.

Lemma reverseTransaction_shifts {off} t m now db r db' :
  reverseTransaction t m now db = (Ok r, db') → posted_balanced db' → consistent_at off db →
  consistent_at (λ k, off k + reversal db t k) db' ∧
  db_payout_items db' = db_payout_items db ∧ db_payout_batches db' = db_payout_batches db ∧
  db_host_credit_holds db' = db_host_credit_holds db.
Proof.
  intros H Hb [Hs Hm]. destruct (reverseTransaction_run t m now db r db' H (sl_wf _ _ Hs)) as (dt & l & Hd).
  pose proof (frame_items _ _ _ _ (λ X, reverseTransaction_items X t m now) H) as Hi.
  pose proof (ld_batches _ _ _ _ _ Hd) as Hbs. pose proof (ld_holds _ _ _ _ _ Hd) as Hh.
  split_and!; try done. split; [by eapply subledger_shift|by apply (match_same db)].
Qed.

(** A call that reads the clock and commits one transaction. *)
Lemma clocked_ok {A} now (f : Z → St DB A) db r db' :
  (t ← or_now now; transaction (f t)) db = (r, db') →
  match r with
  | Ok a => f (posted_at db now) db = (Ok a, db') ∧ posted_balanced db'
  | Err _ => ∃ ent, db' = db <| db_entropy := ent |>
  end.
Proof.
  unfold or_now, sql_now, gets, mret, St_ret, mbind, St_bind, posted_at. intros H.
  assert (Ht : transaction (f (if is_zero_time now then db_now db else now)) db = (r, db'))
    by (by destruct (is_zero_time now)).
  destruct r; [by apply transaction_ok|by apply transaction_err in Ht].
Qed.

(** ** Paid batches *)

Definition hold_for (b node : string) (h : CreditHoldRow) : bool :=
  hold_in_batch b h && String.eqb (ch_node_id h) node.

(** A paid batch has one payout transaction, which all its paid items name and whose reversal
    would give back what the batch's holds carry. *)
Definition payout_of (db : DB) (b t : string) : Prop :=
  posted db t ∧
  (∃ i it, db_payout_items db !! i = Some it ∧ pi_payout_batch_id it = b ∧
           pi_ledger_transaction_id it = Some t) ∧
  (∀ i it t', db_payout_items db !! i = Some it → pi_payout_batch_id it = b →
     pi_ledger_transaction_id it = Some t' → t' = t) ∧
  ∀ node, reversal db t (host_key node AccountHostAvailableCredit) = - held db (hold_for b node) ∧
          reversal db t (host_key node AccountHostPendingCredit) = 0.

Record batch_ok (db : DB) (b : string) (row : PayoutBatchRow) : Prop := {
  bo_items : ∀ i it, db_payout_items db !! i = Some it → pi_payout_batch_id it = b →
    pi_amount_microdollars it < 2 ^ 63 ∧ (open_batch row → pi_ledger_transaction_id it = None);
  bo_holds : ∀ k h, db_host_credit_holds db !! k = Some h → ch_payout_batch_id h = Some b →
    (open_batch row → ch_state h = HPayoutPending) ∧ (pb_status row = BPaid → ch_state h = HPaid);
  bo_paid : pb_status row = BPaid → ∃ t, payout_of db b t
}.

Definition batches_ok (db : DB) : Prop :=
  ∀ b row, db_payout_batches db !! b = Some row → batch_ok db b row.

(** The items and holds of a batch are the same in both states. *)
Definition batch_same (b : string) (db db' : DB) : Prop :=
  (∀ i it, pi_payout_batch_id it = b →
     db_payout_items db' !! i = Some it ↔ db_payout_items db !! i = Some it) ∧
  (∀ k h, ch_payout_batch_id h = Some b →
     db_host_credit_holds db' !! k = Some h ↔ db_host_credit_holds db !! k = Some h).

Lemma batch_same_held b db db' node : batch_same b db db' → held db' (hold_for b node) = held db (hold_for b node).
Proof.
  intros [_ Hh]. apply sum_map_agree. intros k. unfold hold_amount, hold_for, hold_in_batch.
  destruct (db_host_credit_holds db' !! k) as [h'|] eqn:E', (db_host_credit_holds db !! k) as [h|] eqn:E; simpl.
  - case_bool_decide as H'.
    + apply (Hh k h' H') in E'. assert (h' = h) as -> by congruence. by rewrite bool_decide_eq_true_2.
    + case_bool_decide as H; [|done]. apply (Hh k h H) in E. congruence.
  - case_bool_decide as H'; [|done]. apply (Hh k h' H') in E'. congruence.
  - case_bool_decide as H; [|done]. apply (Hh k h H) in E. congruence.
  - done.
Qed.

(** What happens elsewhere leaves a batch in order. *)
Lemma batch_ok_frame db db' b row row' :
  batch_ok db b row → pb_status row' = pb_status row → ledger_wf db → grows db db' →
  batch_same b db db' → batch_ok db' b row'.
Proof.
  intros [I H P] Hst Hwf Hg Hsame. pose proof Hsame as [Hi Hh].
  assert (Ho : open_batch row' → open_batch row) by (unfold open_batch; by rewrite Hst).
  rewrite <-Hst in P, H. split.
  - intros i it Hit Hb. apply (Hi i it Hb) in Hit. destruct (I i it Hit Hb). auto.
  - intros k h Hk Hb. apply (Hh k h Hb) in Hk. destruct (H k h Hk Hb). auto.
  - intros Hp. destruct (P Hp) as (t & Hpo & (i & it & Hit & Hb & Ht) & Hu & Hr). exists t.
    pose proof Hg as (_ & _ & Hposted & _). split_and!.
    + by apply Hposted.
    + exists i, it. split; [|done]. by apply (Hi i it Hb).
    + intros i' it' t' Hit' Hb' Ht'. apply (Hi i' it' Hb') in Hit'. by apply (Hu i' it' t').
    + intros node. rewrite !(reversal_grows db db'), (batch_same_held b db db') by done. apply Hr.
Qed.

Lemma batches_ok_frame db db' :
  batches_ok db → ledger_wf db → grows db db' →
  (∀ b row', db_payout_batches db' !! b = Some row' → ∃ row, db_payout_batches db !! b = Some row ∧
     pb_status row' = pb_status row ∧ batch_same b db db') → batches_ok db'.
Proof.
  intros Hok Hwf Hg Hb b row' Hrow'. destruct (Hb b row' Hrow') as (row & Hrow & Hst & Hsame).
  by apply (batch_ok_frame db db' b row row' (Hok b row Hrow)).
Qed.

(** Every batch of the second state was there before, with the same status, items and
    holds. *)
Definition batches_same (db db' : DB) : Prop :=
  ∀ b row', db_payout_batches db' !! b = Some row' → ∃ row, db_payout_batches db !! b = Some row ∧
    pb_status row' = pb_status row ∧ batch_same b db db'.

Lemma batches_same_tables db db' :
  db_payout_items db' = db_payout_items db → db_payout_batches db' = db_payout_batches db →
  db_host_credit_holds db' = db_host_credit_holds db → batches_same db db'.
Proof.
  intros Hi Hb Hh b row. rewrite Hb. intros Hrow. exists row. split_and!; [done|done|].
  unfold batch_same. by rewrite Hi, Hh.
Qed.

(** Holds that are in no batch may be added and changed, as long as they stay out. *)
Lemma batches_same_free db db' :
  db_payout_items db' = db_payout_items db → db_payout_batches db' = db_payout_batches db →
  (∀ k, db_host_credit_holds db' !! k = db_host_credit_holds db !! k ∨
        ((∀ h, db_host_credit_holds db !! k = Some h → ch_payout_batch_id h = None) ∧
         (∀ h, db_host_credit_holds db' !! k = Some h → ch_payout_batch_id h = None))) →
  batches_same db db'.
Proof.
  intros Hi Hb Hh b row. rewrite Hb. intros Hrow. exists row. split_and!; [done|done|].
  unfold batch_same. rewrite Hi. split; [done|]. intros k h Hbh.
  destruct (Hh k) as [->|[H1 H2]]; [done|]. split; intros Hk; [apply H2 in Hk|apply H1 in Hk]; congruence.
Qed.

(** The books are in order: accounts and holds agree up to [off], open batches hold what
    they have items for, and every batch is in order. *)
Definition books (off : acct_key → Z) (db : DB) : Prop := consistent_at off db ∧ batches_ok db.

#[export] Instance books_tables off : TableProp (books off).
Proof.
  intros db ent. unfold books. rewrite <-(table_prop (P := consistent_at off) db ent).
  split; intros [Hc Hb]; (split; [done|]); intros b row Hrow; destruct (Hb b row Hrow) as [I H P];
    (split; [exact I|exact H|exact P]).
Qed.

Lemma books_frame {off off'} db db' :
  books off db → consistent_at off' db' → grows db db' → batches_same db db' → books off' db'.
Proof.
  intros [[Hs Hm] Hb] Hc Hg Hsame. split; [done|].
  apply (batches_ok_frame db); auto. apply Hs.
Qed.

Lemma books_same_books {off} db db' : books_same db db' → books off db → books off db'.
Proof.
  intros Hsame Hb. pose proof Hsame as [Hl Hh Hi Hbs].
  apply (books_frame (off := off) db); [done|by apply (consistent_frame db), Hb|by apply grows_same|].
  by apply batches_same_tables.
Qed.

(** An operation that leaves the batches alone keeps the books. *)
Lemma books_op {A off} (m : St DB A) :
  (∀ db0, preserves (grows db0) m) → preserves (consistent_at off) m →
  (∀ db a db', books off db → m db = (Ok a, db') → batches_same db db') →
  (∀ db e db', m db = (Err e, db') → ∃ ent, db' = db <| db_entropy := ent |>) →
  preserves (books off) m.
Proof.
  intros Hg Hc Hok Herr db Hb. destruct (m db) as [[a|e] db'] eqn:E; simpl.
  - apply (books_frame (off := off) db); [done| | |by apply (Hok db a)].
    + specialize (Hc db (proj1 Hb)). by rewrite E in Hc.
    + specialize (Hg db db ltac:(done)). by rewrite E in Hg.
  - destruct (Herr db e db' E) as [ent ->]. by apply (table_prop db).
Qed.

Lemma PostAcceptedJob_books {off} p : preserves (books off) (PostAcceptedJob p).
Proof.
  apply books_op; [intros; apply PostAcceptedJob_kept|apply PostAcceptedJob_consistent| |
    intros db e db'; apply transaction_err].
  intros db r db' [[Hs _] _] [H _]%transaction_ok.
  pose proof (frame_items _ _ _ _ (λ X, postAcceptedJob_items X p) H) as Hi.
  destruct (postAcceptedJob_run p db r db' H (sl_wf _ _ Hs)) as (org & node & price & db1 & Hpost).
  destruct Hpost as [_ _ _ _ _ Hd Hfh _ _ ->].
  apply batches_same_free; [exact Hi|exact (ld_batches _ _ _ _ _ Hd)|]. simpl. rewrite (ld_holds _ _ _ _ _ Hd).
  intros k. destruct (decide (k = al_CreditHoldID r)) as [->|Hne]; [right|left; by rewrite lookup_insert_ne].
  rewrite lookup_insert_eq, Hfh. by split; intros h [= <-].
Qed.

Lemma PostVerificationOverhead_books {off} p : preserves (books off) (PostVerificationOverhead p).
Proof.
  apply books_op; [intros; apply PostVerificationOverhead_kept|apply PostVerificationOverhead_consistent| |
    intros db e db'; apply transaction_err].
  intros db r db' [[Hs _] _] [H _]%transaction_ok.
  pose proof (frame_items _ _ _ _ (λ X, postVerificationOverhead_items X p) H) as Hi.
  destruct (postVerificationOverhead_hold p db r db' H (sl_wf _ _ Hs))
    as (db1 & holdID & row & -> & Hf & Hn & Hb1 & Hh1).
  apply batches_same_free; [exact Hi|exact Hb1|]. simpl. rewrite Hh1.
  intros k. destruct (decide (k = holdID)) as [->|Hne]; [right|left; by rewrite lookup_insert_ne].
  rewrite lookup_insert_eq, Hf. by split; intros h [= <-].
Qed.

Lemma PromoteAvailableCredits_books {off} now : preserves (books off) (PromoteAvailableCredits now).
Proof.
  apply books_op; [intros; apply PromoteAvailableCredits_kept|apply PromoteAvailableCredits_consistent| |].
  - intros db n db' [[Hs Hm] _] E.
    destruct (PromoteAvailableCredits_run now db n db' Hs E) as (_ & _ & Hh & Hi & Hb).
    apply batches_same_free; [done|done|]. intros k. rewrite Hh, lookup_update_where.
    destruct (db_host_credit_holds db !! k) as [h|] eqn:Ek; [|by left]. simpl.
    destruct (releasable _ k h) eqn:Er; [right|by left]. unfold releasable in Er.
    apply andb_true_iff in Er as [Er%bool_decide_eq_true _].
    pose proof (pm_free _ Hm k h Ek ltac:(rewrite Er; set_solver)). by split; intros h' [= <-].
  - intros db e db' E. exact (clocked_ok now _ db (Err e) db' E).
Qed.

Lemma CreatePayoutBatch_books {off} org now : preserves (books off) (CreatePayoutBatch org now).
Proof.
  apply preserves_op; [apply _|]. intros db b db' Hbooks E. pose proof Hbooks as [[Hs Hm] Hok].
  change (CreatePayoutBatch org now db = (Ok b, db')) in E.
  pose proof (CreatePayoutBatch_kept db org now db ltac:(done)) as Hg. rewrite E in Hg. simpl in Hg.
  destruct (CreatePayoutBatch_run org now db b db' E Hs Hm)
    as (Hs' & Hm' & _ & Hfresh & Hb & Hh & [Hsub Hadd] & _). split; [done|].
  intros b0 row'. rewrite Hb, lookup_insert_Some. intros [[<- <-]|[Hne Hrow]].
  - split; [| |done].
    + intros i it [Hit|(k & h & Hkh & ->)]%Hadd Hbi.
      * apply (pm_item _ Hm) in Hit as [[r Hr] _]. congruence.
      * apply elem_of_rows_where in Hkh as [Hk _]. split; [|done]. by apply (sl_amounts _ _ Hs k).
    + intros k h Hk Hbi. rewrite Hh, lookup_update_where, fmap_Some in Hk.
      destruct Hk as (h0 & Hk & ->). destruct (payable db org k h0); [done|].
      apply (pm_hold _ Hm k h0 _ Hk) in Hbi as [r Hr]. congruence.
  - apply (batch_ok_frame db db' b0 row'); [by apply Hok|done|apply Hs|exact Hg|]. split.
    + intros i it Hbi. split; [|intros Hit; exact (lookup_weaken _ _ _ _ Hit Hsub)].
      intros [Hit|(k & h & _ & ->)]%Hadd; [done|]. by destruct Hne.
    + intros k h Hbi. rewrite Hh, lookup_update_where, fmap_Some. split.
      * intros (h0 & Hk & ->). destruct (payable db org k h0); [|done]. simpl in Hbi. by simplify_eq.
      * intros Hk. exists h. split; [done|]. destruct (payable db org k h) eqn:Ep; [|done].
        unfold payable in Ep. rewrite !andb_true_iff in Ep. destruct Ep as [[Ep%bool_decide_eq_true _] _].
        pose proof (pm_free _ Hm k h Hk ltac:(rewrite Ep; set_solver)). congruence.
Qed.

(** Changes to the items and holds of one batch leave the others in order. *)
Lemma batches_ok_moved {off} db db' batchID row' pI fI pH fH :
  books off db → grows db db' →
  db_payout_batches db' = <[batchID := row']> (db_payout_batches db) →
  db_payout_items db' = update_where pI fI (db_payout_items db) →
  (∀ k i, pI k i = true → pi_payout_batch_id i = batchID) →
  (∀ i, pi_payout_batch_id (fI i) = pi_payout_batch_id i) →
  db_host_credit_holds db' = update_where (λ _, pH) fH (db_host_credit_holds db) →
  (∀ h, pH h = true → ch_payout_batch_id h = Some batchID ∧
        (ch_payout_batch_id (fH h) = None ∨ ch_payout_batch_id (fH h) = Some batchID)) →
  batch_ok db' batchID row' → batches_ok db'.
Proof.
  intros [[Hs Hm] Hok] Hg Hb Hi HpI HfI Hh HpH Hrow' b r. rewrite Hb, lookup_insert_Some.
  intros [[<- <-]|[Hne Hr]]; [done|].
  apply (batch_ok_frame db db' b r); [by apply Hok|done|apply Hs|exact Hg|]. split.
  - intros i it Hbi. rewrite Hi, lookup_update_where, fmap_Some. split.
    + intros (it0 & Hit & ->). destruct (pI i it0) eqn:E; [|done].
      apply HpI in E. specialize (HfI it0). congruence.
    + intros Hit. exists it. split; [done|]. destruct (pI i it) eqn:E; [|done]. apply HpI in E. congruence.
  - intros k h Hbk. rewrite Hh, lookup_update_where, fmap_Some. split.
    + intros (h0 & Hk & ->). destruct (pH h0) eqn:E; [|done]. apply HpH in E as [_ [E|E]]; congruence.
    + intros Hk. exists h. split; [done|]. destruct (pH h) eqn:E; [|done]. apply HpH in E as [E _]. congruence.
Qed.

(** A batch leaves one status for another that is not paid: its items keep amount and
    transaction, its holds change only when it closes. *)
Lemma batch_ok_moved {off} db db' batchID row row' pI fI pH fH :
  books off db → db_payout_batches db !! batchID = Some row → pb_status row' ≠ BPaid →
  db_payout_items db' = update_where pI fI (db_payout_items db) →
  (∀ i, pi_payout_batch_id (fI i) = pi_payout_batch_id i ∧
        pi_amount_microdollars (fI i) = pi_amount_microdollars i ∧
        pi_ledger_transaction_id (fI i) = pi_ledger_transaction_id i) →
  db_host_credit_holds db' = update_where (λ _, pH) fH (db_host_credit_holds db) →
  (open_batch row' → open_batch row ∧ ∀ h, pH h = false) → batch_ok db' batchID row'.
Proof.
  intros [_ Hok] Hrow Hst Hi HfI Hh Hopen. destruct (Hok batchID row Hrow) as [I H _]. split; [| |done].
  - intros i it. rewrite Hi, lookup_update_where, fmap_Some. intros (it0 & Hit & ->).
    destruct (HfI it0) as (F1 & F2 & F3). destruct (pI i it0); rewrite ?F1, ?F2, ?F3; intros Hbi;
      (destruct (I i it0 Hit Hbi) as [I1 I2]; split; [exact I1|intros Ho; apply I2, Hopen, Ho]).
  - intros k h. rewrite Hh, lookup_update_where, fmap_Some. intros (h0 & Hk & ->) Hbk.
    split; [|done]. intros Ho. destruct (Hopen Ho) as [Ho' Hno]. rewrite Hno in *. by apply (H k h0).
Qed.

Lemma ExportPayoutBatch_books {off} batchID now : preserves (books off) (ExportPayoutBatch batchID now).
Proof.
  apply preserves_op; [apply _|]. intros db b db' Hbooks E.
  change (ExportPayoutBatch batchID now db = (Ok b, db')) in E.
  pose proof (ExportPayoutBatch_kept db batchID now db ltac:(done)) as Hg.
  pose proof (ExportPayoutBatch_consistent batchID now db (proj1 Hbooks)) as Hc.
  rewrite E in Hg, Hc. simpl in Hg, Hc. split; [done|].
  unfold ExportPayoutBatch, select_batch, update_items, update_batch in E. run_inv.
  match goal with H : or_now _ _ = _ |- _ => apply or_now_ok in H as [-> ->] end.
  match goal with H : transaction _ _ = _ |- _ => apply transaction_ok in H as [H _] end. run_inv.
  match goal with H : db_payout_batches db !! batchID = Some ?r |- _ => rename H into Hrow; rename r into row end.
  destruct (bool_decide_reflect (pb_status row = BDraft)) as [Hst|Hst]; run_inv; [|apply Hbooks].
  match goal with |- batches_ok ?d => set (db2 := d) in * end.
  assert (Hi : db_payout_items db2 = update_where
    (λ k i, item_in_batch batchID k i && bool_decide (pi_status i = IPending)) exported (db_payout_items db)) by done.
  assert (Hh : db_host_credit_holds db2 = update_where (λ _ _, false) id (db_host_credit_holds db))
    by by rewrite update_where_none.
  eapply (batches_ok_moved (off := off) db db2 batchID _ _ exported (λ _, false) id Hbooks Hg);
    [simpl; by rewrite (update_where_key _ _ _ row)|exact Hi| |done|exact Hh|done|].
  - unfold item_in_batch. intros k i [H _]%andb_true_iff. by apply String.eqb_eq.
  - eapply (batch_ok_moved (off := off) db); [done|exact Hrow|done|exact Hi|done|exact Hh|].
    intros _. split; [by left|done].
Qed.

(** ** The entries of a payout *)

(** All new entries are on the transaction [t], with amounts that 64-bit negation inverts. *)
Definition adds_only (t : string) (db db' : DB) : Prop :=
  db_ledger_entries db ⊆ db_ledger_entries db' ∧
  (∀ k e, db_ledger_entries db' !! k = Some e → db_ledger_entries db !! k = None →
     le_transaction_id e = t ∧ - 2 ^ 63 < le_amount_microdollars e < 2 ^ 63) ∧
  (∀ a key, key_of db a = Some key → key_of db' a = Some key).

#[export] Instance adds_only_pre t : PreOrder (adds_only t).
Proof.
  split.
  - intros db. split_and!; auto. intros k e H1 H2. congruence.
  - intros a b c (S1 & N1 & K1) (S2 & N2 & K2). split_and!; auto; [by etransitivity|].
    intros k e Hc Ha. destruct (db_ledger_entries b !! k) as [e'|] eqn:E; [|by apply (N2 k)].
    rewrite (lookup_weaken _ _ _ _ E S2) in Hc. simplify_eq. by apply (N1 k).
Qed.

#[export] Instance adds_only_tables t db0 : TableProp (adds_only t db0).
Proof. by intros db ent. Qed.

(** The reversal of a transaction whose entries are all new is the opposite of what they did
    to the accounts. *)
Lemma reversal_added t db db' key :
  ledger_wf db → db_ledger_transactions db !! t = None → adds_only t db db' →
  reversal db' t key = acct_balance db key - acct_balance db' key.
Proof.
  intros Hwf Hf (Hsub & Hnew & Hkeys).
  assert (Hsum : reversal db' t key + acct_balance db' key = acct_balance db key); [|lia].
  unfold reversal, acct_balance. rewrite sum_map_add.
  rewrite (sum_map_filter _ (db_ledger_entries db)); [|exact Hsub|].
  - apply sum_map_ext. intros k e Hk. apply (wf_entry _ Hwf) in Hk as [[lt Hlt] [a Ha]].
    assert (Hkey : key_of db (le_account_id e) = Some (row_key a)) by (unfold key_of; by rewrite Ha).
    unfold reversed_on, entry_on. rewrite (Hkeys _ _ Hkey), Hkey.
    rewrite (bool_decide_eq_false_2 (_ ∧ _)); [done|]. intros [<- _]. congruence.
  - intros k e Hk Hk'. destruct (Hnew k e Hk Hk') as [<- Hamt]. unfold reversed_on, entry_on.
    rewrite (bool_decide_ext (_ ∧ _) (key_of db' (le_account_id e) = Some key)) by naive_solver.
    case_bool_decide; [|done]. rewrite wrap64_id; [lia|unfold in_int64; lia].
Qed.

(** The statements of a payout add nothing, or an entry on its transaction. *)
Lemma adds_none t db db' :
  grows db db' → db_ledger_entries db' = db_ledger_entries db → adds_only t db db'.
Proof.
  intros (_ & _ & _ & Hk) He. split_and!; [by rewrite He| |done]. rewrite He. intros k e H1 H2. congruence.
Qed.

Lemma ids_New_adds t p db id db' : ids_New p db = (Ok id, db') → adds_only t db db'.
Proof. intros (b & rest & _ & _ & ->)%ids_New_ok. by apply adds_none; [apply grows_same|]. Qed.

Lemma run_grows {A} (m : St DB A) db r db' :
  (∀ db0, preserves (grows db0) m) → m db = (r, db') → grows db db'.
Proof. intros Hm H. specialize (Hm db db ltac:(done)). by rewrite H in Hm. Qed.

Lemma insert_transaction_adds t t' row db u db' :
  insert_transaction t' row db = (Ok u, db') → adds_only t db db'.
Proof.
  intros H. apply adds_none; [exact (run_grows _ _ _ _ (λ db0, insert_transaction_kept db0 t' row) H)|].
  exact (leaves_run _ _ _ _ _ (insert_transaction_entries _ _) H).
Qed.

Lemma post_transaction_adds t t' now db u db' :
  post_transaction t' now db = (Ok u, db') → adds_only t db db'.
Proof.
  intros H. apply adds_none; [exact (run_grows _ _ _ _ (λ db0, post_transaction_kept db0 t' now) H)|].
  refine (leaves_run _ _ _ _ _ _ H). unfold post_transaction, constraint. solve_leaves.
Qed.

Lemma ensureAccount_adds t ot oid aty db a db' :
  ensureAccount ot oid aty db = (Ok a, db') → adds_only t db db'.
Proof.
  intros H. apply adds_none; [exact (run_grows _ _ _ _ (λ db0, ensureAccount_kept db0 ot oid aty) H)|].
  refine (leaves_run _ _ _ _ _ _ H). unfold ensureAccount, constraint. solve_leaves.
  intros d. unfold ids_New. by destruct (db_entropy d).
Qed.

Lemma insertEntry_adds t a amount memo now db u db' :
  insertEntry t a amount memo now db = (Ok u, db') → - 2 ^ 63 < amount < 2 ^ 63 → adds_only t db db'.
Proof.
  intros H Hamt. pose proof (run_grows _ _ _ _ (λ db0, insertEntry_kept db0 t a amount memo now) H)
    as (Hsub & _ & _ & Hk). split_and!; [done| |done].
  unfold insertEntry, insert_entry_row in H. run_inv.
  repeat match goal with H : constraint _ _ _ = _ |- _ => apply constraint_ok in H as [? ?]; simplify_eq end.
  match goal with H : ids_New _ _ = _ |- _ => apply ids_New_ok in H as (b & rest & _ & _ & ->) end.
  case_match; run_inv. intros k e. rewrite lookup_insert_Some. intros [[<- <-]|[_ Hin]] Hout; [done|congruence].
Qed.

Lemma pay_item_adds t now total itemID i db total' db' :
  pay_item t now total (itemID, i) db = (Ok total', db') → 0 ≤ pi_amount_microdollars i < 2 ^ 63 →
  adds_only t db db' ∧ total' = wrap64 (total + pi_amount_microdollars i).
Proof.
  unfold pay_item, update_items. intros H Hi. run_inv. split; [|done].
  match goal with H : ensureAccount _ _ _ _ = _ |- _ => apply (ensureAccount_adds t) in H as A1 end.
  match goal with H : insertEntry _ _ _ _ _ _ = _ |- _ => apply insertEntry_adds in H as A2; [|lia] end.
  etransitivity; [exact A1|]. etransitivity; [exact A2|]. apply adds_none; [by apply grows_same|done].
Qed.

#[local] Arguments pay_item : simpl never.

Lemma pay_items_add t now items db total total' db' :
  fold_st (pay_item t now) total items db = (Ok total', db') →
  (∀ it, it ∈ items → 0 ≤ pi_amount_microdollars it.2 < 2 ^ 63) → in_int64 total →
  adds_only t db db' ∧ in_int64 total'.
Proof.
  revert db total. induction items as [|[k i] items IH]; intros db total H Hin Ht; simpl in H; run_inv;
    [done|].
  match goal with H : pay_item _ _ _ _ _ = _ |- _ => apply pay_item_adds in H as [A1 ->];
    [|apply (Hin (k, i)); constructor] end.
  match goal with H : fold_st _ _ _ _ = _ |- _ => apply IH in H as [A2 A3];
    [|intros; apply Hin; by constructor|apply wrap64_range] end.
  split; [by etransitivity|done].
Qed.

Lemma ConfirmPayoutBatch_adds batchID records now db b db' :
  ConfirmPayoutBatch batchID records now db = (Ok b, db') →
  (∀ i it, db_payout_items db !! i = Some it → pi_payout_batch_id it = batchID →
     0 ≤ pi_amount_microdollars it < 2 ^ 63) →
  adds_only (po_TransactionID b) db db' ∧
  ∃ i it, db_payout_items db !! i = Some it ∧ exported_item batchID i it = true.
Proof.
  intros H Hamt. unfold ConfirmPayoutBatch, update_holds, update_batch, select_batch in H. run_inv.
  match goal with H : or_now _ _ = _ |- _ => apply or_now_ok in H as [-> ->] end.
  match goal with rs : list (list string) |- _ => destruct rs as [|r0 [|r1 rows]]; run_inv end.
  match goal with H : transaction _ _ = _ |- _ => apply transaction_ok in H as [H Hb] end.
  set (recs := r1 :: rows) in *. clearbody recs. run_inv.
  match goal with H : ids_New _ _ = (Ok ?t, _) |- _ => rename t into txID; apply (ids_New_adds txID) in H as A1 end.
  match goal with H : insert_transaction _ _ _ = _ |- _ => apply (insert_transaction_adds txID) in H as A2 end.
  match goal with H : (0 <? _) = true |- _ => apply Z.ltb_lt in H as Hpos end.
  assert (Hsome : ∃ kv, kv ∈ order_by by_key (rows_where (exported_item batchID) (db_payout_items db))).
  { match goal with H : fold_st _ _ ?l _ = _ |- context [_ ∈ ?l] =>
      destruct l as [|kv l0]; [simpl in H; run_inv; lia|exists kv; constructor] end. }
  match goal with H : fold_st _ _ _ _ = _ |- _ => apply pay_items_add in H as [A3 Ht] end.
  2: { intros [i it] [Hi He]%elem_of_order_by%elem_of_rows_where. apply (Hamt i it Hi).
       unfold exported_item, item_in_batch in He. by apply andb_true_iff in He as [He%String.eqb_eq _]. }
  2: { by vm_compute. }
  match goal with H : ensureAccount _ _ _ _ = _ |- _ => apply (ensureAccount_adds txID) in H as A4 end.
  match goal with H : insertEntry _ _ _ _ _ _ = _ |- _ => apply insertEntry_adds in H as A5;
    [|unfold in_int64 in Ht; rewrite wrap64_id; unfold in_int64; lia] end.
  match goal with H : post_transaction _ _ _ = _ |- _ => apply (post_transaction_adds txID) in H as A6 end.
  split; [simpl; do 6 (etransitivity; [eassumption|]); apply adds_none; [by apply grows_same|done]|].
  destruct Hsome as [[i it] [Hi He]%elem_of_order_by%elem_of_rows_where]. by exists i, it.
Qed.

(** The holds of an open batch are all reserved by it. *)
Lemma open_holds {off} db b row :
  books off db → db_payout_batches db !! b = Some row → open_batch row →
  ∀ k h, db_host_credit_holds db !! k = Some h → hold_in_batch b h = hold_reserved_by b h.
Proof.
  intros [_ Hok] Hrow Ho k h Hk. unfold hold_reserved_by, hold_in_batch.
  case_bool_decide as Hb; [|done]. destruct (bo_holds _ _ _ (Hok b row Hrow) k h Hk Hb) as [Hs _].
  by rewrite (Hs Ho).
Qed.

(** A payout as a change of the three payout tables. *)
Record payout_moves (batchID t : string) (now : Z) (db db' : DB) : Prop := {
  pv_items : db_payout_items db' = update_where (exported_item batchID) (paid_item t) (db_payout_items db);
  pv_holds : db_host_credit_holds db' =
    update_where (λ _, hold_reserved_by batchID) (paid_hold now) (db_host_credit_holds db);
  pv_batches : ∃ row row', db_payout_batches db !! batchID = Some row ∧ pb_status row = BExported ∧
    pb_status row' = BPaid ∧ db_payout_batches db' = <[batchID := row']> (db_payout_batches db)
}.

Lemma ConfirmPayoutBatch_moves batchID records now db b db' :
  ConfirmPayoutBatch batchID records now db = (Ok b, db') → ledger_wf db →
  payout_moves batchID (po_TransactionID b) (posted_at db now) db db' ∧ posted db' (po_TransactionID b) ∧
  db_ledger_transactions db !! po_TransactionID b = None ∧
  ∀ node, acct_balance db' (host_key node AccountHostPendingCredit) =
          acct_balance db (host_key node AccountHostPendingCredit).
Proof.
  intros H Hwf. destruct (ConfirmPayoutBatch_run batchID records now db b db' H Hwf)
    as (row & total & db1 & Hrow & Hst & _ & Hf & Hd & (lt & Hlt & Hps) & _ & Hitems & ->).
  split_and!; [split| |done|].
  - simpl. apply map_eq. intros i. rewrite Hitems, lookup_update_where.
    destruct (db_payout_items db !! i) as [it|] eqn:Ei; [|done]. simpl. f_equal.
    rewrite (bool_decide_ext _ (exported_item batchID i it = true)); [by destruct (exported_item batchID i it)|].
    rewrite list_elem_of_fmap. split.
    + intros ([i' it'] & -> & [? ?]%elem_of_order_by%elem_of_rows_where). simpl in *. congruence.
    + intros He. exists (i, it). split; [done|]. by apply elem_of_order_by, elem_of_rows_where.
  - simpl. by rewrite (ld_holds _ _ _ _ _ Hd).
  - eexists row, _. split_and!; [done|done| |simpl; rewrite (ld_batches _ _ _ _ _ Hd);
      by rewrite (update_where_key _ _ _ row)]. done.
  - exists lt. by split.
  - intros n. change (acct_balance _ _) with (acct_balance db1 (host_key n AccountHostPendingCredit)) at 1.
    rewrite (ld_acct _ _ _ _ _ Hd). rewrite (at_key_ne (platform_key _)) by by intros [=].
    rewrite (sum_list_ext _ (λ _, 0)); [rewrite sum_list_zero; lia|].
    intros i _. apply at_key_ne. by intros [=].
Qed.

(** A batch that was just paid is in order. *)
Lemma paid_batch_ok {off} batchID t now db db' row' :
  books off db → payout_moves batchID t now db db' → pb_status row' = BPaid → posted db' t →
  (∃ i it, db_payout_items db !! i = Some it ∧ exported_item batchID i it = true) →
  (∀ node, reversal db' t (host_key node AccountHostAvailableCredit) = - held db (reserved_for batchID node) ∧
           reversal db' t (host_key node AccountHostPendingCredit) = 0) →
  batch_ok db' batchID row'.
Proof.
  intros Hbooks [Hi Hh (row & _ & Hrow & Hst & _)] Hst' Hp (i0 & it0 & Hit0 & He0) Hrev.
  assert (Hopen : open_batch row) by by right. pose proof Hbooks as [_ Hok].
  pose proof (open_holds db batchID row Hbooks Hrow Hopen) as Hall.
  destruct (Hok batchID row Hrow) as [I H _]. split.
  - intros i it. rewrite Hi, lookup_update_where, fmap_Some. intros (it1 & Hit & ->) Hbi. split.
    + destruct (exported_item batchID i it1); by apply (I i it1).
    + intros [Ho|Ho]; congruence.
  - intros k h. rewrite Hh, lookup_update_where, fmap_Some. intros (h0 & Hk & ->) Hbk. split.
    { intros [Ho|Ho]; congruence. }
    intros _. destruct (hold_reserved_by batchID h0) eqn:E; [done|]. rewrite <-(Hall k h0 Hk) in E.
    unfold hold_in_batch in E. by apply bool_decide_eq_false in E.
  - intros _. exists t. split_and!; [done| | |].
    + exists i0, (paid_item t it0). rewrite Hi, lookup_update_where, Hit0. simpl. rewrite He0.
      split_and!; [done| |done]. unfold exported_item, item_in_batch in He0.
      by apply andb_true_iff in He0 as [He0%String.eqb_eq _].
    + intros i it t'. rewrite Hi, lookup_update_where, fmap_Some. intros (it1 & Hit & ->) Hbi Ht.
      destruct (exported_item batchID i it1); [by simplify_eq/=|].
      destruct (I i it1 Hit Hbi) as [_ Hn]. rewrite (Hn Hopen) in Ht. done.
    + intros node. destruct (Hrev node) as [-> ->]. split; [|done]. f_equal.
      apply sum_map_agree. intros k. rewrite Hh, lookup_update_where.
      destruct (db_host_credit_holds db !! k) as [h|] eqn:Ek; [|done]. simpl.
      pose proof (Hall k h Ek) as Hk. unfold hold_amount, reserved_for, hold_for. rewrite <-Hk.
      destruct (hold_in_batch batchID h) eqn:E; [|by rewrite E].
      unfold hold_in_batch in *. simpl. by rewrite E.
Qed.

Lemma ConfirmPayoutBatch_err P `{!TableProp P} batchID records now db e db' :
  ConfirmPayoutBatch batchID records now db = (Err e, db') → P db → P db'.
Proof.
  unfold ConfirmPayoutBatch, or_now, sql_now, lift_result, wrap, gets, mret, St_ret, mbind, St_bind.
  intros E Hdb. destruct (is_zero_time now); destruct records as [[|r0 [|r1 rs]]|e']; simpl in E;
    try (unfold fail in E; by simplify_eq); by (apply transaction_err in E as [ent ->]; apply (table_prop db)).
Qed.

Lemma ConfirmPayoutBatch_books {off} batchID records now :
  preserves (books off) (ConfirmPayoutBatch batchID records now).
Proof.
  intros db Hbooks. destruct (ConfirmPayoutBatch batchID records now db) as [[b|e] db'] eqn:E; simpl;
    [|by apply (ConfirmPayoutBatch_err (books off) _ _ _ _ _ _ E)].
  pose proof (run_grows _ _ _ _ (λ db0, ConfirmPayoutBatch_kept db0 batchID records now) E) as Hg.
  pose proof (ConfirmPayoutBatch_consistent batchID records now db (proj1 Hbooks)) as Hc. rewrite E in Hc.
  split; [done|]. pose proof Hbooks as [[Hs Hm] Hok].
  destruct (ConfirmPayoutBatch_moves batchID records now db b db' E (sl_wf _ _ Hs)) as (Hv & Hp & Hf & Hpend).
  pose proof Hv as [Hi Hh (row & row' & Hrow & Hst & Hst' & Hb)].
  destruct (ConfirmPayoutBatch_adds batchID records now db b db' E) as [Hadd Hsome].
  { intros i it Hit Hbi. destruct (bo_items _ _ _ (Hok batchID row Hrow) i it Hit Hbi) as [? _].
    by destruct (pm_item _ Hm i it Hit) as (_ & _ & ?). }
  destruct (ConfirmPayoutBatch_effect batchID records now db b db' Hs Hm E) as (Hav & _).
  eapply (batches_ok_moved (off := off) db db' batchID row'); try done.
  - unfold exported_item, item_in_batch. intros k i [H _]%andb_true_iff. by apply String.eqb_eq.
  - unfold hold_reserved_by, hold_in_batch. intros h [H%bool_decide_eq_true _]%andb_true_iff. by split; [|right].
  - eapply (paid_batch_ok (off := off)); try done. intros node.
    rewrite !(reversal_added _ db db'), Hav, Hpend by (done || apply Hs). lia.
Qed.

(** ** Voiding *)

Definition voidable (batchID k : string) (i : PayoutItemRow) : bool :=
  item_in_batch batchID k i && negb (bool_decide (pi_status i = IVoid)).
Definition voided_item (i : PayoutItemRow) : PayoutItemRow := i <| pi_status := IVoid |>.
Definition voided_batch (b : PayoutBatchRow) : PayoutBatchRow := b <| pb_status := BVoid |>.
Definition reversed_hold (now : Z) (h : CreditHoldRow) : CreditHoldRow :=
  h <| ch_state := HReversed |> <| ch_updated_at := now |>.

Lemma voidable_batch batchID k i : voidable batchID k i = true → pi_payout_batch_id i = batchID.
Proof. unfold voidable, item_in_batch. intros [H _]%andb_true_iff. by apply String.eqb_eq. Qed.
Lemma in_batch_true batchID h : hold_in_batch batchID h = true ↔ ch_payout_batch_id h = Some batchID.
Proof. apply bool_decide_eq_true. Qed.

(** Voiding an unpaid batch. *)
Lemma void_open_books {off} batchID memo now db row :
  books off db → db_payout_batches db !! batchID = Some row → open_batch row →
  books off (VoidPayoutBatch batchID memo now db).2.
Proof.
  intros Hbooks Hrow Hopen. pose proof Hbooks as [[Hs Hm] Hok].
  pose proof (VoidPayoutBatch_kept db batchID memo now db ltac:(done)) as Hg.
  pose proof (VoidPayoutBatch_consistent batchID memo now db row (proj1 Hbooks) Hrow
    ltac:(by destruct Hopen as [-> | ->])) as Hc. split; [done|].
  rewrite (void_open_batch _ _ _ _ row (sl_balanced _ _ Hs) Hrow Hopen) in *. simpl in Hg |- *.
  match goal with |- batches_ok ?d => set (db2 := d) in * end.
  assert (Hi : db_payout_items db2 = update_where (voidable batchID) voided_item (db_payout_items db)) by done.
  assert (Hh : db_host_credit_holds db2 = update_where (λ _, hold_reserved_by batchID)
    (unreserved (posted_at db now)) (db_host_credit_holds db)) by done.
  eapply (batches_ok_moved (off := off) db db2 batchID (voided_batch row));
    [done|exact Hg|simpl; by rewrite (update_where_key _ _ _ row)|exact Hi|apply voidable_batch|done|exact Hh| |].
  - intros h [H%in_batch_true _]%andb_true_iff. split; [done|by left].
  - eapply (batch_ok_moved (off := off) db); [done|exact Hrow|done|exact Hi|done|exact Hh|].
    by intros [Ho|Ho].
Qed.

(** The payout transaction of a paid batch is the one the void looks up. *)
Lemma payout_found db batchID t :
  payout_of db batchID t → ∃ kv rest, rows_where (λ k i, item_in_batch batchID k i &&
      bool_decide (is_Some (pi_ledger_transaction_id i))) (db_payout_items db) = kv :: rest ∧
    pi_ledger_transaction_id kv.2 = Some t.
Proof.
  intros (_ & (i & it & Hit & Hb & Ht) & Hu & _). destruct (rows_where _ _) as [|[k it0] rest] eqn:E.
  - assert (Hin : (i, it) ∈ rows_where (λ k i, item_in_batch batchID k i &&
      bool_decide (is_Some (pi_ledger_transaction_id i))) (db_payout_items db)).
    { apply elem_of_rows_where. split; [done|]. unfold item_in_batch.
      by rewrite Hb, String.eqb_refl, bool_decide_eq_true_2 by (rewrite Ht; eauto). }
    rewrite E in Hin. by apply not_elem_of_nil in Hin.
  - exists (k, it0), rest. split; [done|].
    assert (Hin : (k, it0) ∈ rows_where (λ k i, item_in_batch batchID k i &&
      bool_decide (is_Some (pi_ledger_transaction_id i))) (db_payout_items db)) by (rewrite E; constructor).
    apply elem_of_rows_where in Hin as [Hk [H1%String.eqb_eq [t' Ht']%bool_decide_eq_true]%andb_true_iff].
    simpl. rewrite Ht'. f_equal. by apply (Hu k it0).
Qed.

(** Voiding a paid batch: its payout is reversed and its holds are marked so. *)
Record payout_voided (batchID t : string) (now : Z) (db db1 db' : DB) : Prop := {
  vd_reverse : ∃ memo r, reverseTransaction t memo now db = (Ok r, db1);
  vd_balanced : posted_balanced db1;
  vd_state : db' = db1
    <| db_host_credit_holds ::= update_where (λ _, hold_in_batch batchID) (reversed_hold now) |>
    <| db_payout_items ::= update_where (voidable batchID) voided_item |>
    <| db_payout_batches ::= update_where (λ k _, String.eqb k batchID) voided_batch |>
}.

Lemma void_paid_run {off} batchID memo now db row b db' :
  books off db → db_payout_batches db !! batchID = Some row → pb_status row = BPaid →
  VoidPayoutBatch batchID memo now db = (Ok b, db') →
  ∃ t db1, payout_of db batchID t ∧ payout_voided batchID t (posted_at db now) db db1 db'.
Proof.
  intros [_ Hok] Hrow Hst H. destruct (bo_paid _ _ _ (Hok batchID row Hrow) Hst) as [t Hpo].
  unfold VoidPayoutBatch in H. apply clocked_ok in H as [H Hb]. set (now' := posted_at db now) in *.
  unfold void_batch, select_batch, update_holds, update_items, update_batch in H. run_inv.
  rewrite Hst in *. run_inv.
  destruct (payout_found db batchID t Hpo) as ([k it] & rest & Hrows & Ht). rewrite Hrows in *.
  run_inv. simpl in Ht. rewrite Ht in *. simpl in *.
  match goal with H : reverseTransaction _ _ _ _ = (Ok _, ?d) |- _ => exists t, d; rename H into Hrev end.
  split; [done|]. split; [eauto|exact Hb|reflexivity].
Qed.

(** The holds of a paid batch, which stood for nothing on the accounts, stand for available
    credit again. *)
Lemma reversed_held db batchID now node holds :
  (∀ k h, db_host_credit_holds db !! k = Some h → hold_in_batch batchID h = true → ch_state h = HPaid) →
  holds = update_where (λ _, hold_in_batch batchID) (reversed_hold now) (db_host_credit_holds db) →
  sum_map (hold_amount (available_of node)) holds =
    held db (available_of node) + held db (hold_for batchID node) ∧
  sum_map (hold_amount (pending_of node)) holds = held db (pending_of node).
Proof.
  intros Hpaid ->. unfold held. rewrite sum_map_add. split; apply sum_map_agree; intros k;
    rewrite lookup_update_where; (destruct (db_host_credit_holds db !! k) as [h|] eqn:Ek; [|done]); simpl;
    unfold hold_amount, available_of, pending_of, hold_for;
    (destruct (hold_in_batch batchID h) eqn:E; [|simpl; lia]); rewrite (Hpaid k h Ek E); simpl;
    by destruct (String.eqb (ch_node_id h) node).
Qed.

Lemma void_paid_consistent {off} batchID t now db db1 db' row :
  books off db → db_payout_batches db !! batchID = Some row → pb_status row = BPaid →
  payout_of db batchID t → payout_voided batchID t now db db1 db' → consistent_at off db'.
Proof.
  intros [Hc Hok] Hrow Hst (_ & _ & _ & Hrev) [(memo & r & Hrun) Hb ->].
  destruct (reverseTransaction_shifts (off := off) t memo now db r db1 Hrun Hb Hc)
    as ([[W _ A P V] Hm] & Hi & Hbs & Hh).
  assert (Hpaid : ∀ k h, db_host_credit_holds db1 !! k = Some h → hold_in_batch batchID h = true →
    ch_state h = HPaid).
  { rewrite Hh. intros k h Hk Hin%in_batch_true.
    by apply (bo_holds _ _ _ (Hok batchID row Hrow) k h Hk Hin). }
  assert (Hheld : ∀ q, held db1 q = held db q) by (intros q; unfold held; by rewrite Hh).
  assert (Hsum := λ node, reversed_held db1 batchID now node _ Hpaid eq_refl). split.
  - eapply (subledger_frame (db1 <| db_host_credit_holds := _ |>)); [|split; reflexivity|reflexivity].
    apply (subledger_intro db1).
    + exact W.
    + exact Hb.
    + intros k h. rewrite lookup_update_where, fmap_Some. intros (h0 & Hk & ->).
      pose proof (A k h0 Hk). by destruct (hold_in_batch batchID h0).
    + intros n. rewrite P. destruct (Hsum n) as [_ ->], (Hrev n) as [_ ->]. lia.
    + intros n. rewrite V. destruct (Hsum n) as [-> _], (Hrev n) as [-> _]. rewrite !Hheld. lia.
  - eapply (match_close db1 _ batchID row _ (voidable batchID) voided_item (hold_in_batch batchID)
      (reversed_hold now) Hm);
      [by rewrite Hbs| |simpl; by rewrite (update_where_key _ _ _ row) by by rewrite Hbs|reflexivity
      |apply voidable_batch|done|reflexivity|done|].
    + by intros [Ho|Ho].
    + intros h. split; [done|]. right. split; [done|]. simpl. set_solver.
Qed.

Lemma void_paid_batches {off} batchID t now db db1 db' row :
  books off db → db_payout_batches db !! batchID = Some row → pb_status row = BPaid →
  payout_voided batchID t now db db1 db' → grows db db' → batches_ok db'.
Proof.
  intros Hbooks Hrow Hst [(memo & r & Hrun) Hb ->] Hg. pose proof Hbooks as [Hc _].
  destruct (reverseTransaction_shifts (off := off) t memo now db r db1 Hrun Hb Hc) as (_ & Hi & Hbs & Hh).
  match goal with |- batches_ok ?d => set (db2 := d) in * end.
  assert (Hi2 : db_payout_items db2 = update_where (voidable batchID) voided_item (db_payout_items db))
    by (simpl; by rewrite Hi).
  assert (Hh2 : db_host_credit_holds db2 = update_where (λ _, hold_in_batch batchID) (reversed_hold now)
    (db_host_credit_holds db)) by (simpl; by rewrite Hh).
  eapply (batches_ok_moved (off := off) db db2 batchID (voided_batch row));
    [done|exact Hg| |exact Hi2|apply voidable_batch|done|exact Hh2| |].
  - simpl. rewrite Hbs. by rewrite (update_where_key _ _ _ row).
  - intros h H%in_batch_true. split; [done|by right].
  - eapply (batch_ok_moved (off := off) db); [done|exact Hrow|done|exact Hi2|done|exact Hh2|].
    by intros [Ho|Ho].
Qed.

Lemma VoidPayoutBatch_books {off} batchID memo now : preserves (books off) (VoidPayoutBatch batchID memo now).
Proof.
  intros db Hbooks. destruct (db_payout_batches db !! batchID) as [row|] eqn:Hrow.
  - destruct (decide (pb_status row = BPaid)) as [Hst|Hst].
    + destruct (VoidPayoutBatch batchID memo now db) as [[b|e] db'] eqn:E; simpl.
      * pose proof (run_grows _ _ _ _ (λ db0, VoidPayoutBatch_kept db0 batchID memo now) E) as Hg.
        destruct (void_paid_run batchID memo now db row b db' Hbooks Hrow Hst E) as (t & db1 & Hpo & Hv).
        split; [by eapply void_paid_consistent|by eapply (void_paid_batches (off := off))].
      * apply clocked_ok in E as [ent ->]. by apply (table_prop db).
    + destruct (decide (pb_status row = BVoid)) as [Hv|Hv].
      * destruct (VoidPayoutBatch batchID memo now db) as [[b|e] db'] eqn:E; simpl.
        -- apply clocked_ok in E as [E _]. unfold void_batch, select_batch in E. run_inv.
           rewrite Hv in *. by run_inv.
        -- apply clocked_ok in E as [ent ->]. by apply (table_prop db).
      * apply (void_open_books _ _ _ _ row); [done|done|].
        unfold open_batch. destruct (pb_status row); naive_solver.
  - destruct (VoidPayoutBatch batchID memo now db) as [[b|e] db'] eqn:E; simpl.
    + apply clocked_ok in E as [E _]. unfold void_batch, select_batch in E. run_inv.
    + apply clocked_ok in E as [ent ->]. by apply (table_prop db).
Qed.

(** ** Any sequence of operations *)

(** The operations on the ledger, in any order and with any outcome, interleaved with steps
    of the rest of the coordinator that leave the ledger, hold and payout tables alone.
    Beside the state, a run keeps what the reversals of single transactions have added to
    each account so far. *)
Inductive ledger_step : DB * (acct_key → Z) → DB * (acct_key → Z) → Prop :=
  | LsAccept p db off : ledger_step (db, off) ((PostAcceptedJob p db).2, off)
  | LsVerification p db off : ledger_step (db, off) ((PostVerificationOverhead p db).2, off)
  | LsPromote now db off : ledger_step (db, off) ((PromoteAvailableCredits now db).2, off)
  | LsCreate org now db off : ledger_step (db, off) ((CreatePayoutBatch org now db).2, off)
  | LsExport batchID now db off : ledger_step (db, off) ((ExportPayoutBatch batchID now db).2, off)
  | LsConfirm batchID records now db off :
      ledger_step (db, off) ((ConfirmPayoutBatch batchID records now db).2, off)
  | LsVoid batchID memo now db off : ledger_step (db, off) ((VoidPayoutBatch batchID memo now db).2, off)
  | LsReverse t memo now r db db' off :
      ReverseTransaction t memo now db = (r, db') →
      ledger_step (db, off) (db', if is_ok r then λ key, off key + reversal db t key else off)
  | LsOther db db' off : books_same db db' → ledger_step (db, off) (db', off).

Lemma ReverseTransaction_books {off} t memo now db r db' :
  books off db → ReverseTransaction t memo now db = (r, db') →
  books (if is_ok r then λ key, off key + reversal db t key else off) db'.
Proof.
  intros Hbooks E. pose proof (run_grows _ _ _ _ (λ db0, ReverseTransaction_kept db0 t memo now) E) as Hg.
  apply clocked_ok in E. destruct r as [r|e]; simpl.
  - destruct E as [E Hb].
    destruct (reverseTransaction_shifts t memo _ db r db' E Hb (proj1 Hbooks)) as (Hc & Hi & Hbs & Hh).
    apply (books_frame (off := off) db); [done|done|exact Hg|by apply batches_same_tables].
  - destruct E as [ent ->]. by apply (table_prop db).
Qed.

Lemma ledger_step_books s s' : ledger_step s s' → books s.2 s.1 → books s'.2 s'.1.
Proof.
  intros [] Hb; simpl in *.
  - by apply PostAcceptedJob_books.
  - by apply PostVerificationOverhead_books.
  - by apply PromoteAvailableCredits_books.
  - by apply CreatePayoutBatch_books.
  - by apply ExportPayoutBatch_books.
  - by apply ConfirmPayoutBatch_books.
  - by apply VoidPayoutBatch_books.
  - by eapply ReverseTransaction_books.
  - by eapply books_same_books.
Qed.

Lemma empty_books now ent : books no_delta (empty_db now ent).
Proof. split; [apply empty_consistent|]. intros b row Hrow. simpl in Hrow. by rewrite lookup_empty in Hrow. Qed.

(** C1. The books agree: from an empty database, after any sequence of postings, releases,
    payout creations, exports, confirmations, voids (of paid batches too) and reversals of
    single transactions, with any outcome and interleaved with changes to any other table,
    every posted transaction balances to zero, and for every host the ledger says exactly
    what the hold table says, up to what the single reversals have added: its pending
    account carries the sum of its pending holds, its available account the sum of its
    released, reserved and reversed holds, and every open payout batch has reserved, per
    host, exactly the amounts of its items. Only [ReverseTransaction] makes the two differ,
    since it enters the opposite of a transaction without touching the holds; a run without
    it keeps them equal. *)
Theorem books_agree now ent db off :
  rtc ledger_step (empty_db now ent, no_delta) (db, off) →
  posted_balanced db ∧
  ∀ node,
    acct_balance db (host_key node AccountHostPendingCredit) =
      off (host_key node AccountHostPendingCredit) - held db (pending_of node) ∧
    acct_balance db (host_key node AccountHostAvailableCredit) =
      off (host_key node AccountHostAvailableCredit) - held db (available_of node) ∧
    ∀ b row, db_payout_batches db !! b = Some row → open_batch row →
      item_sum db b node = held db (reserved_for b node).
Proof.
  intros H.
  assert (Hgen : ∀ a b, rtc ledger_step a b → books a.2 a.1 → books b.2 b.1).
  { induction 1; eauto using ledger_step_books. }
  destruct (Hgen _ _ H (empty_books now ent)) as [[[W B A P V] [M1 _ _ _ _]] _]. simpl in *.
  split; [done|]. intros node. split_and!; auto. intros b row Hr Ho. by apply (M1 b row).
Qed.
