(* ===== verification/LedgerExamples.v ===== *)
(** * A worked ledger

    A small deployment, one organization with two nodes, one priced model and two jobs,
    taken through posting, release, payout, export, confirmation, the void of the paid batch
    and the reversal of an acceptance. The theorems of [LedgerTheory] and [LedgerBooks] are
    applied along the way. *)
From stdpp Require Import base gmap strings list.
From Stdlib Require Import ZArith Lia.
From S2P Require Import Prelude GoStrings Protocol Requests Database Ledger LedgerTheory LedgerBooks.

Definition sample_entropy : list string := (λ n, itoa (Z.of_nat n)) <$> seq 0 64.

Definition sample_node (org : string) : NodeRow := {|
  n_organization_id := Some org; n_fleet_id := None; n_state := "AVAILABLE";
  n_hardware_fingerprint_hash := "hw"; n_current_model_id := Some "llama"; n_quarantined_at := None;
  n_registered_at := None; n_last_seen_at := None; n_schedule_from := None; n_schedule_until := None;
  n_schedule_source := "local"; n_region := None; n_updated_at := 0 |}.

Definition sample_job : JobRow := {|
  j_organization_id := "org_1"; j_api_key_id := "ak_1"; j_model_id := "llama"; j_state := JRunning;
  j_priority := "standard"; j_request_metadata := "{}"; j_deadline_at := hour; j_created_at := 0;
  j_updated_at := 0; j_completed_at := None |}.

Definition sample_attempt (job node : string) : AttemptRow := {|
  at_job_id := job; at_node_id := Some node; at_attempt_number := 1; at_lease_nonce := "lease_" +:+ job;
  at_lease_expires_at := minute; at_deadline_at := hour; at_status := ARunning;
  at_transient_failure := false; at_error_code := None; at_created_at := 0; at_accepted_at := Some 1;
  at_started_at := Some 1; at_finished_at := None |}.

Definition sample_price : ModelPriceRow := {|
  mp_model_version_id := "mv_1"; mp_price_version := "alpha";
  mp_customer_input_per_million_microdollars := 100000;
  mp_customer_output_per_million_microdollars := 400000;
  mp_host_credit_per_million_output_microdollars := 250000;
  mp_effective_from := 0; mp_effective_until := None |}.

(** Everything the ledger reads, and no posting yet. *)
Definition sample_base : DB :=
  empty_db second sample_entropy
    <| db_organizations := {[ "org_1" := {| org_name := "acme"; org_created_at := 0 |} ]} |>
    <| db_nodes := {[ "node_a" := sample_node "org_1"; "node_b" := sample_node "org_1" ]} |>
    <| db_model_versions := {[ "mv_1" := {| mv_model_id := "llama"; mv_version := "1"; mv_repository := EmptyString; mv_revision := "1";
         mv_license_identifier := "mit"; mv_manifest_sha256 := "m"; mv_runtime_release_id := None; mv_status := "alpha"; mv_created_at := 0 |} ]} |>
    <| db_model_prices := {[ "price_1" := sample_price ]} |>
    <| db_jobs := {[ "job_1" := sample_job; "job_2" := sample_job ]} |>
    <| db_job_attempts := {[ "att_1" := sample_attempt "job_1" "node_a";
                             "att_2" := sample_attempt "job_2" "node_b" ]} |>.

Definition sample_posting (job attempt : string) (overhead : Z) : AcceptedJobPosting := {|
  ap_JobID := job; ap_AttemptID := attempt; ap_ReceivedAt := 2 * second; ap_CreditHold := hour;
  ap_PromptTokens := 12; ap_CompletionTokens := 40; ap_CoordinatorDurationMillis := 900;
  ap_VerificationOverheadMicrodollars := overhead |}.

(** The states of a full cycle. *)
Definition posted_db : DB :=
  (PostAcceptedJob (sample_posting "job_2" "att_2" 0)
     (PostAcceptedJob (sample_posting "job_1" "att_1" 0) sample_base).2).2.
Definition released_db : DB := (PromoteAvailableCredits (2 * hour) posted_db).2.
Definition batched_db : DB := (CreatePayoutBatch "org_1" (3 * hour) released_db).2.
Definition sample_batch : string := default "" (head (map_to_list (db_payout_batches batched_db)).*1).
Definition exported_db : DB := (ExportPayoutBatch sample_batch (4 * hour) batched_db).2.
Definition sample_confirmation : list (list string) :=
  [export_header; ["node_a"; "node_a"; "10"; "paid"]; ["node_b"; "node_b"; "10"; "paid"]].

Lemma sample_base_consistent : consistent sample_base.
Proof.
  apply (consistent_frame (empty_db second sample_entropy)); [by split|apply empty_consistent].
Qed.
Lemma posted_consistent : consistent posted_db.
Proof. apply PostAcceptedJob_consistent, PostAcceptedJob_consistent, sample_base_consistent. Qed.
Lemma released_consistent : consistent released_db.
Proof. apply PromoteAvailableCredits_consistent, posted_consistent. Qed.
Lemma batched_consistent : consistent batched_db.
Proof. apply CreatePayoutBatch_consistent, released_consistent. Qed.
Lemma exported_consistent : consistent exported_db.
Proof. apply ExportPayoutBatch_consistent, batched_consistent. Qed.

(** A run that succeeds, with its value. *)
Lemma run_ok {S A} (m : St S A) s :
  is_ok (m s).1 = true → ∃ a s', m s = (Ok a, s').
Proof. destruct (m s) as [[a|e] s']; [intros _; by exists a, s'|done]. Qed.

Lemma charge_rounds_to_nearest_witness :
  - 1000000 < 2 * (1000000 * chargeForTokens 1 1500000 - 1 * 1500000) ≤ 1000000 ∧
  chargeForTokens 1 1500000 = 2.
Proof.
  split; [|reflexivity]. apply (charge_rounds_to_nearest 1 1500000 1500000); lia.
Defined.

(** The price of a posting is a row of the price table. *)
Lemma pricing_row db job att t org node price :
  pricing db job att t = Some (org, node, price) → ∃ k, db_model_prices db !! k = Some price.
Proof.
  unfold pricing, model_price. intros H. simplify_option_eq.
  match goal with Hp : effective_price _ _ _ = Some _ |- _ =>
    apply fmap_Some in Hp as ([k q] & Hq & ->) end.
  apply latest_elem, elem_of_rows_where in Hq as [Hq _]. by exists k.
Qed.

Lemma sample_fits overhead t org node price :
  overhead ≤ 1000 → pricing sample_base "job_1" "att_1" t = Some (org, node, price) →
  posting_fits (sample_posting "job_1" "att_1" overhead) price.
Proof.
  intros Ho [k Hk]%pricing_row.
  assert (Hm : db_model_prices sample_base = {[ "price_1" := sample_price ]}) by done.
  rewrite Hm in Hk. apply lookup_singleton_Some in Hk as [_ <-]. split; simpl; lia.
Qed.

Lemma accepted_posting_balances_witness :
  (∃ r db', PostAcceptedJob (sample_posting "job_1" "att_1" 0) sample_base = (Ok r, db') ∧
     al_CustomerCharge r = al_HostCredit r + al_PlatformMargin r ∧ tx_balance db' (al_TransactionID r) = 0) ∧
  (∃ e ent, PostAcceptedJob (sample_posting "job_1" "att_1" 5) sample_base =
     (Err e, sample_base <| db_entropy := ent |>)).
Proof.
  destruct sample_base_consistent as [[Hwf Hb _ _ _] _]. split.
  - destruct (run_ok (postAcceptedJob (sample_posting "job_1" "att_1" 0)) sample_base) as (r & db' & Hr);
      [by vm_compute|].
    destruct (accepted_posting_balances (sample_posting "job_1" "att_1" 0) sample_base r db' Hwf Hb Hr)
      as (Hc & Hbal & Hok & _); [intros ???; by apply sample_fits|].
    exists r, db'. split; [by apply Hok|]. change (overhead _) with 0 in *. split; [lia|done].
  - destruct (run_ok (postAcceptedJob (sample_posting "job_1" "att_1" 5)) sample_base) as (r & db' & Hr);
      [by vm_compute|].
    destruct (accepted_posting_balances (sample_posting "job_1" "att_1" 5) sample_base r db' Hwf Hb Hr)
      as (_ & _ & _ & Herr); [intros ???; by apply sample_fits|].
    by apply Herr.
Defined.

Lemma one_acceptance_per_job_witness :
  ∃ e ent, PostAcceptedJob (sample_posting "job_1" "att_1" 0) posted_db =
    (Err e, posted_db <| db_entropy := ent |>).
Proof.
  apply (one_acceptance_per_job (sample_posting "job_1" "att_1" 0) posted_db).
  - apply posted_consistent.
  - exists "ltx_0". eexists. split; [by vm_compute|]. by split_and!.
Defined.

Lemma promote_conserves_credit_witness :
  ∃ db', PromoteAvailableCredits (2 * hour) posted_db = (Ok 2, db') ∧
    rows_where (releasable (2 * hour)) (db_host_credit_holds db') = [].
Proof.
  destruct (run_ok (PromoteAvailableCredits (2 * hour)) posted_db) as (n & db' & Hr); [by vm_compute|].
  destruct (promote_conserves_credit (2 * hour) posted_db n db' (proj1 posted_consistent) Hr)
    as (Hn & _ & Hrows & _).
  exists db'. split; [|exact Hrows]. rewrite Hr. do 2 f_equal. rewrite Hn. by vm_compute.
Defined.

Lemma payout_batch_reserves_witness :
  ∃ b db', CreatePayoutBatch "org_1" (3 * hour) released_db = (Ok b, db') ∧
    po_ItemCount b = 2 ∧ po_TotalMicrodollars b = 20.
Proof.
  destruct (run_ok (CreatePayoutBatch "org_1" (3 * hour)) released_db) as (b & db' & Hr); [by vm_compute|].
  destruct (payout_batch_reserves "org_1" (3 * hour) released_db b db'
              (proj1 released_consistent) (proj2 released_consistent) Hr) as (_ & Hc & _ & Ht & _).
  exists b, db'. split; [exact Hr|]. split; [rewrite Hc; by vm_compute|].
  assert (Hs : sum_list (λ r, ch_amount_microdollars r.2)
    (rows_where (payable released_db "org_1") (db_host_credit_holds released_db)) = 20) by by vm_compute.
  rewrite Hs in Ht. apply Ht. lia.
Defined.

Lemma void_undoes_create_witness :
  ∃ b db1 b' db2, CreatePayoutBatch "org_1" (3 * hour) released_db = (Ok b, db1) ∧
    VoidPayoutBatch (po_ID b) "" (4 * hour) db1 = (Ok b', db2) ∧ po_Status b' = BVoid.
Proof.
  destruct (run_ok (CreatePayoutBatch "org_1" (3 * hour)) released_db) as (b & db1 & Hr); [by vm_compute|].
  destruct (void_undoes_create "org_1" (3 * hour) (4 * hour) "" released_db b db1
              (proj1 released_consistent) (proj2 released_consistent) Hr) as (b' & db2 & Hv & Hs & _).
  exists b, db1, b', db2. split; [exact Hr|]. split; [exact Hv|exact Hs].
Defined.

Lemma confirm_pays_reserved_witness :
  ∃ b db', ConfirmPayoutBatch sample_batch (Ok sample_confirmation) (5 * hour) exported_db = (Ok b, db') ∧
    acct_balance db' (platform_key AccountPlatformPayoutCash) = -20.
Proof.
  destruct (run_ok (ConfirmPayoutBatch sample_batch (Ok sample_confirmation) (5 * hour)) exported_db)
    as (b & db' & Hr); [by vm_compute|].
  destruct (confirm_pays_reserved sample_batch (Ok sample_confirmation) (5 * hour) exported_db b db'
              (proj1 exported_consistent) (proj2 exported_consistent) Hr) as (_ & Hcash & _).
  exists b, db'. split; [exact Hr|]. rewrite Hcash. by vm_compute.
Defined.

(** The payout confirmed, and then voided. *)
Definition confirmed_db : DB :=
  (ConfirmPayoutBatch sample_batch (Ok sample_confirmation) (5 * hour) exported_db).2.
Definition voided_db : DB := (VoidPayoutBatch sample_batch "" (6 * hour) confirmed_db).2.
(** The acceptance of the first job reversed: the host's pending account is up by the credit
    it was given, while its hold stays where it is. *)
Definition reversed_db : DB := (ReverseTransaction "ltx_0" "" (7 * hour) voided_db).2.
Definition sample_off (key : acct_key) : Z := no_delta key + reversal voided_db "ltx_0" key.

Example sample_cycle :
  (is_ok (ConfirmPayoutBatch sample_batch (Ok sample_confirmation) (5 * hour) exported_db).1,
   is_ok (VoidPayoutBatch sample_batch "" (6 * hour) confirmed_db).1,
   is_ok (ReverseTransaction "ltx_0" "" (7 * hour) voided_db).1) = (true, true, true) ∧
  acct_balance confirmed_db (host_key "node_a" AccountHostAvailableCredit) = 0 ∧
  acct_balance voided_db (host_key "node_a" AccountHostAvailableCredit) = -10 ∧
  reversal voided_db "ltx_0" (host_key "node_a" AccountHostPendingCredit) = 10 ∧
  acct_balance reversed_db (host_key "node_a" AccountHostPendingCredit) = 10.
Proof. by vm_compute. Qed.

Lemma books_agree_witness :
  posted_balanced reversed_db ∧
  acct_balance reversed_db (host_key "node_a" AccountHostAvailableCredit) =
    - held reversed_db (available_of "node_a") ∧
  held reversed_db (available_of "node_a") = 10 ∧
  acct_balance reversed_db (host_key "node_a" AccountHostPendingCredit) =
    10 - held reversed_db (pending_of "node_a").
Proof.
  destruct (books_agree second sample_entropy reversed_db sample_off) as [Hb Hn].
  - apply (rtc_l _ _ (sample_base, no_delta)); [apply LsOther; by split|].
    apply (rtc_l _ _ ((PostAcceptedJob (sample_posting "job_1" "att_1" 0) sample_base).2, no_delta));
      [apply LsAccept|].
    apply (rtc_l _ _ (posted_db, no_delta)); [apply LsAccept|].
    apply (rtc_l _ _ (released_db, no_delta)); [apply LsPromote|].
    apply (rtc_l _ _ (batched_db, no_delta)); [apply LsCreate|].
    apply (rtc_l _ _ (exported_db, no_delta)); [apply LsExport|].
    apply (rtc_l _ _ (confirmed_db, no_delta)); [apply LsConfirm|].
    apply (rtc_l _ _ (voided_db, no_delta)); [apply LsVoid|].
    apply rtc_once. destruct (run_ok (ReverseTransaction "ltx_0" "" (7 * hour)) voided_db) as (r & d & Hr);
      [by vm_compute|].
    pose proof (LsReverse "ltx_0" "" (7 * hour) (Ok r) voided_db d no_delta Hr) as H. simpl in H.
    unfold reversed_db. rewrite Hr. exact H.
  - destruct (Hn "node_a") as (Hp & Ha & _). split; [done|]. split; [rewrite Ha; by vm_compute|].
    split; [by vm_compute|rewrite Hp; by vm_compute].
Defined.
