(* ===== verification/JobStore.v ===== *)
(** * The job store

    [internal/coordinator/jobs/store.go]: organizations and API keys, the model catalog
    as it is read, node eligibility, the life of jobs and attempts, results, node
    reputation, verification events and idempotency records, over the tables of
    [Database]. [CompleteJob] calls the ledger inside its own transaction. A query's
    result is the list of rows the [SELECT] describes; what the schema refuses is an
    error of the statement. Errors of the connection itself are not modelled.

    Rates are [numeric(5,4)] columns, kept as ten-thousandths. *)
From stdpp Require Import base gmap strings list sorting.
From Stdlib Require Import ZArith Lia.
From S2P Require Import Prelude GoStrings Float64 Sha256 Scheduler Protocol Requests Database Ledger.

(** ** Organizations and API keys *)

Definition HashAPIKey (key : string) : string := sha256_string key.

Record APIKeyPrincipal := {
  pr_ID : string;
  pr_OrganizationID : string;
  pr_AllowedModels : gset string
}.

Definition CreateOrg (name : string) : St DB string :=
  _ ← guard_err (negb (String.eqb name "")) (ErrMsg "organization name is required");
  orgID ← ids_New "org";
  db ← gets id;
  _ ← wrap "create organization"
        (constraint (fresh_key (db_organizations db) orgID) "organizations_pkey");
  _ ← modify (λ d, d <| db_organizations ::=
        <[orgID := {| org_name := name; org_created_at := db_now db |}]> |>);
  mret orgID.

(** [INSERT INTO api_keys]. *)
Definition insert_api_key (keyID : string) (row : APIKeyRow) : St DB unit :=
  db ← gets id;
  _ ← constraint (fresh_key (db_api_keys db) keyID) "api_keys_pkey";
  _ ← constraint (has_key (db_organizations db) (ak_organization_id row)) "api_keys_organization_id_fkey";
  _ ← constraint (negb (exists_row (λ _ k, String.eqb (ak_key_hash k) (ak_key_hash row)) (db_api_keys db)))
        "api_keys_key_hash_key";
  modify (λ d, d <| db_api_keys ::= <[keyID := row]> |>).

Definition routable (m : ModelRow) : bool :=
  String.eqb (md_status m) "alpha" || String.eqb (md_status m) "active".

(** [SELECT id FROM models WHERE status IN ('alpha', 'active') ORDER BY id]. *)
Definition routable_models (db : DB) : list (string * ModelRow) :=
  order_by by_key (rows_where (λ _, routable) (db_models db)).

(** One grant of the loop, [ON CONFLICT DO NOTHING]. *)
Definition grant_model (keyID modelID : string) : St DB unit :=
  db ← gets id;
  _ ← wrap "grant api key model permission"
        (constraint (has_key (db_models db) modelID) "api_key_model_permissions_model_id_fkey");
  modify (λ d, d <| db_permissions ::= ({[ (keyID, modelID) ]} ∪.) |>).

Definition CreateAPIKey (orgID name rawKey : string) (modelIDs : list string) : St DB string :=
  _ ← guard_err (negb (String.eqb orgID "")) (ErrMsg "organization id is required");
  let name := if String.eqb name "" then "default" else name in
  keyID ← ids_New "ak";
  transaction (
    _ ← wrap "insert api key" (insert_api_key keyID {|
          ak_organization_id := orgID; ak_name := name; ak_key_hash := HashAPIKey rawKey;
          ak_active := true |});
    db ← gets id;
    let modelIDs := match modelIDs with [] => (routable_models db).*1 | _ => modelIDs end in
    _ ← for_each (grant_model keyID) modelIDs;
    mret keyID).

Definition APIKeyByHash (hash : string) : St DB APIKeyPrincipal :=
  db ← gets id;
  match rows_where (λ _ k, String.eqb (ak_key_hash k) hash && ak_active k) (db_api_keys db) with
  | [] => fail (ErrApi CodeUnauthorized "Invalid API key." false 401)
  | (keyID, k) :: _ =>
      mret {| pr_ID := keyID; pr_OrganizationID := ak_organization_id k;
              pr_AllowedModels := set_map snd (filter (λ p, p.1 = keyID) (db_permissions db)) |}
  end.

(** ** The catalog as it is read *)

Definition capability_names : list string := ["chat_completions"; "streaming"; "tools"; "embeddings"].

(** [decoded] is the set of names the JSON object maps to [true]. *)
Definition capabilitiesFromJSON (decoded : list string) : list string :=
  match filter (λ n, n ∈ decoded) capability_names with
  | [] => ["chat_completions"]
  | l => l
  end.

Record modelHashes := { mhs_ModelHash : string; mhs_RuntimeHashes : list string }.

Definition RuntimeHashValid (hashes : modelHashes) (hash : string) : bool :=
  existsb (String.eqb hash) (mhs_RuntimeHashes hashes).

Definition sha_tag (h : string) : string := "sha256:" +:+ h.

(** [model_versions mv JOIN model_artifacts ma ... 'gguf'] for a model. *)
Definition model_files (db : DB) (modelID : string) : list (string * (ModelVersionRow * ModelArtifactRow)) :=
  mv ← rows_where (λ _ mv, String.eqb (mv_model_id mv) modelID) (db_model_versions db);
  ma ← rows_where (λ _ ma, String.eqb (ma_model_version_id ma) (fst mv) &&
                           String.eqb (ma_artifact_type ma) "gguf") (db_model_artifacts db);
  [(fst mv, (snd mv, snd ma))].

Definition runtime_hashes (db : DB) (releaseID : string) : list string :=
  (λ a, sha_tag (rra_sha256 a.2)) <$>
    rows_where (λ _ a, String.eqb (rra_runtime_release_id a) releaseID) (db_runtime_artifacts db).

Definition ModelHashes (modelID : string) : St DB modelHashes :=
  db ← gets id;
  match latest (λ f, mv_created_at (fst f)) (model_files db modelID) with
  | None => fail (ErrApi CodeModelNotFound "Model not found." false 404)
  | Some (_, (mv, ma)) =>
      mret {| mhs_ModelHash := sha_tag (ma_sha256 ma);
              mhs_RuntimeHashes := match mv_runtime_release_id mv with
                                   | Some releaseID => runtime_hashes db releaseID
                                   | None => []
                                   end |}
  end.

(** ** Which nodes can take work *)

(** The newest connected session of a node. *)
Definition node_session (db : DB) (nodeID : string) : option (string * SessionRow) :=
  latest ss_connected_at (rows_where (λ _ s, String.eqb (ss_node_id s) nodeID &&
    bool_decide (ss_state s = SsConnected)) (db_node_sessions db)).

Definition freshness (s : SessionRow) : Z := default (ss_connected_at s) (ss_last_heartbeat_at s).

(** The newest heartbeat of a session. *)
Definition node_heartbeat (db : DB) (nodeID sessionID : string) : option HeartbeatRow :=
  snd <$> latest hr_received_at (rows_where (λ _ h, String.eqb (hr_node_id h) nodeID &&
    String.eqb (hr_session_id h) sessionID) (db_node_heartbeats db)).

Definition active_status (st : AttemptStatus) : bool :=
  bool_decide (st ∈ [AOffered; AAccepted; ARunning]).

(** [EXISTS (SELECT 1 FROM job_attempts ...)]. *)
Definition node_busy (db : DB) (nodeID : string) : bool :=
  exists_row (λ _ a, bool_decide (at_node_id a = Some nodeID) && active_status (at_status a))
    (db_job_attempts db).

Definition heartbeat_ready (h : HeartbeatRow) : bool :=
  String.eqb (hr_schedule_state h) "in_window" && String.eqb (hr_thermal_state h) "normal" &&
  negb (hr_paused h) && negb (hr_draining h).

(** The session and heartbeat of a node that satisfies the conditions [Availability]
    and [EligibleNodes] share. *)
Definition ready_node (db : DB) (modelID : string) (cutoff : Z) (nodeID : string) (n : NodeRow)
    : option (string * HeartbeatRow) :=
  s ← node_session db nodeID;
  h ← node_heartbeat db nodeID (fst s);
  if String.eqb (n_state n) "AVAILABLE" && bool_decide (n_current_model_id n = Some modelID) &&
     bool_decide (n_quarantined_at n = None) && (cutoff <=? freshness (snd s)) &&
     heartbeat_ready h && negb (node_busy db nodeID)
  then Some (fst s, h) else None.

Definition Availability (modelID : string) (freshnessCutoff : Z) : St DB Z :=
  db ← gets id;
  mret (Z.of_nat (length (rows_where (λ k n,
    bool_decide (is_Some (ready_node db modelID freshnessCutoff k n))) (db_nodes db)))).

(** [hb.runtime_hash] is one of the hashes of the version's runtime release. *)
Definition runtime_matches (db : DB) (mv : ModelVersionRow) (hash : option string) : bool :=
  match mv_runtime_release_id mv, hash with
  | Some releaseID, Some hash =>
      has_key (db_runtime_releases db) releaseID && existsb (String.eqb hash) (runtime_hashes db releaseID)
  | _, _ => false
  end.

Definition initial_rate : Z := 6000.

Definition candidate_of (db : DB) (nodeID sessionID : string) (h : HeartbeatRow) : Candidate :=
  let one := float_of_Z 1 in
  {| NodeID := nodeID; SessionID := sessionID;
     ModelHash := default "" (hr_model_hash h); RuntimeHash := default "" (hr_runtime_hash h);
     RollingSuccessRate := float_of_ratio (match db_node_reputation db !! nodeID with
                                           | Some r => rp_rolling_success_rate r
                                           | None => initial_rate
                                           end) 10000;
     TokensPerSecond := one; RecentFailureBonus := one; ThermalHeadroom := one;
     HostFairness := one; RegionalPreference := one |}.

(** One candidate per version file of the model that the node runs. *)
Definition node_candidates (db : DB) (modelID : string) (cutoff : Z) (kn : string * NodeRow) : list Candidate :=
  match ready_node db modelID cutoff (fst kn) (snd kn) with
  | None => []
  | Some (sessionID, h) =>
      (λ _, candidate_of db (fst kn) sessionID h) <$>
        filter (λ f, bool_decide (hr_model_hash h = Some (sha_tag (ma_sha256 (snd (snd f))))) &&
                     runtime_matches db (fst (snd f)) (hr_runtime_hash h) = true)
          (model_files db modelID)
  end.

Definition eligible_nodes (db : DB) (modelID : string) (cutoff : Z) : list Candidate :=
  mjoin (node_candidates db modelID cutoff <$> order_by by_key (map_to_list (db_nodes db))).

Definition EligibleNodes (modelID : string) (freshnessCutoff : Z) : St DB (list Candidate) :=
  gets (λ db, eligible_nodes db modelID freshnessCutoff).

(** ** Model listing *)

Definition model_info (db : DB) (modelID : string) (m : ModelRow) (vID : string) (v : ModelVersionRow)
    (available : Z) : ModelInfo :=
  let price := snd <$> latest mp_effective_from
    (rows_where (λ _ p, String.eqb (mp_model_version_id p) vID) (db_model_prices db)) in
  let profile := snd <$> latest mh_created_at
    (rows_where (λ _ p, String.eqb (mh_model_version_id p) vID) (db_model_hardware_profiles db)) in
  let limits := db_model_manifest_limits db !! modelID in
  {| mi_ID := modelID; mi_DisplayName := md_display_name m;
     mi_Capabilities := capabilitiesFromJSON (from_option ml_capabilities [] limits);
     mi_Pricing := {|
       CustomerInputPerMillionMicrodollars := from_option mp_customer_input_per_million_microdollars 0 price;
       CustomerOutputPerMillionMicrodollars := from_option mp_customer_output_per_million_microdollars 0 price;
       HostCreditPerMillionAcceptedOutputMicrodollars :=
         from_option mp_host_credit_per_million_output_microdollars 0 price |};
     mi_DataClass := md_data_class m; mi_AvailableNodes := available; mi_Version := mv_version v;
     mi_Limits := {| MaxInputTokens := from_option mh_max_context_tokens 4096 profile;
                     MaxOutputTokens := from_option ml_max_output_tokens 1024 limits;
                     MaxRequestBytes := from_option ml_max_request_bytes 262144 limits |};
     mi_Verification := {|
       PriceVersion := from_option ml_price_version "alpha" limits;
       DuplicateSampleRate := float_of_ratio (from_option ml_duplicate_sample_rate 0 limits) 10000;
       ChallengeRate := float_of_ratio (from_option ml_challenge_rate 0 limits) 10000 |};
     mi_ModelHash := ""; mi_RuntimeHash := "" |}.

(** A routable model that has a version, with its newest one. *)
Definition listed_models (db : DB) : list (string * ModelRow * (string * ModelVersionRow)) :=
  km ← routable_models db;
  match latest mv_created_at
          (rows_where (λ _ v, String.eqb (mv_model_id v) (fst km)) (db_model_versions db)) with
  | Some v => [(km, v)]
  | None => []
  end.

Definition list_step (cutoff : Z) (acc : list ModelInfo) (l : string * ModelRow * (string * ModelVersionRow))
    : St DB (list ModelInfo) :=
  let '(modelID, m, (vID, v)) := l in
  available ← Availability modelID cutoff;
  db ← gets id;
  mret (acc ++ [model_info db modelID m vID v available]).

Definition ListModels (freshnessCutoff : Z) : St DB (list ModelInfo) :=
  db ← gets id;
  fold_st (list_step freshnessCutoff) [] (listed_models db).

Definition ModelInfo_ (modelID : string) (freshnessCutoff : Z) : St DB ModelInfo :=
  models ← ListModels freshnessCutoff;
  match filter (λ m, mi_ID m = modelID) models with
  | [] => fail (ErrApi CodeModelNotFound "Model not found." false 404)
  | model :: _ =>
      hashes ← ModelHashes modelID;
      mret (model <| mi_ModelHash := mhs_ModelHash hashes |>)
  end.

(** ** Jobs and attempts *)

Record ScheduledAttempt := {
  sa_JobID : string;
  sa_AttemptID : string;
  sa_NodeID : string;
  sa_SessionID : string;
  sa_LeaseExpiresAt : Z;
  sa_DeadlineAt : Z;
  sa_ModelHash : string;
  sa_RuntimeHash : string
}.
#[export] Instance ScheduledAttempt_eta : Eta ScheduledAttempt := λ r,
  {| sa_JobID := sa_JobID r; sa_AttemptID := sa_AttemptID r; sa_NodeID := sa_NodeID r;
     sa_SessionID := sa_SessionID r; sa_LeaseExpiresAt := sa_LeaseExpiresAt r;
     sa_DeadlineAt := sa_DeadlineAt r; sa_ModelHash := sa_ModelHash r;
     sa_RuntimeHash := sa_RuntimeHash r |}.

Record ExpiredAttempt := { ea_JobID : string; ea_AttemptID : string; ea_NodeID : string }.

(** [Error] is never set by the store. *)
Record JobStatus := {
  jst_ID : string;
  jst_State : JobState;
  jst_Model : string;
  jst_CreatedAt : Z;
  jst_UpdatedAt : Z;
  jst_Result : option OpenAIResponse
}.

(** [body] is the marshalled request. *)
Definition CreateJob (orgID apiKeyID modelID priority body : string) (deadlineAt : Z) : St DB string :=
  jobID ← ids_New "job";
  let priority := if String.eqb priority "" then "standard" else priority in
  db ← gets id;
  _ ← wrap "create job" (
    _ ← constraint (fresh_key (db_jobs db) jobID) "jobs_pkey";
    _ ← constraint (has_key (db_organizations db) orgID) "jobs_organization_id_fkey";
    _ ← constraint (has_key (db_api_keys db) apiKeyID) "jobs_api_key_id_fkey";
    _ ← constraint (has_key (db_models db) modelID) "jobs_model_id_fkey";
    constraint (existsb (String.eqb priority) ["standard"; "low"; "high"]) "jobs_priority_check");
  _ ← modify (λ d, d <| db_jobs ::= <[jobID := {|
        j_organization_id := orgID; j_api_key_id := apiKeyID; j_model_id := modelID; j_state := JQueued;
        j_priority := priority; j_request_metadata := body; j_deadline_at := deadlineAt;
        j_created_at := db_now db; j_updated_at := db_now db; j_completed_at := None |}]> |>);
  mret jobID.

Definition of_job (jobID : string) (_ : string) (a : AttemptRow) : bool := String.eqb (at_job_id a) jobID.

(** [SELECT COALESCE(max(attempt_number), 0) + 1 FROM job_attempts WHERE job_id = $1]. *)
Definition next_attempt_number (db : DB) (jobID : string) : Z :=
  foldr (λ a n, Z.max (at_attempt_number a.2) n) 0 (rows_where (of_job jobID) (db_job_attempts db)) + 1.

(** [INSERT INTO job_attempts]. *)
Definition insert_attempt (attemptID : string) (row : AttemptRow) : St DB unit :=
  db ← gets id;
  let attempts := db_job_attempts db in
  _ ← constraint (fresh_key attempts attemptID) "job_attempts_pkey";
  _ ← constraint (has_key (db_jobs db) (at_job_id row)) "job_attempts_job_id_fkey";
  _ ← constraint (from_option (has_key (db_nodes db)) true (at_node_id row)) "job_attempts_node_id_fkey";
  _ ← constraint (0 <? at_attempt_number row) "job_attempts_attempt_number_check";
  _ ← constraint (negb (exists_row (λ k a, of_job (at_job_id row) k a &&
                          (at_attempt_number a =? at_attempt_number row)) attempts))
        "job_attempts_job_id_attempt_number_key";
  _ ← constraint (negb (exists_row (λ _ a, String.eqb (at_lease_nonce a) (at_lease_nonce row)) attempts))
        "job_attempts_lease_nonce_key";
  modify (λ d, d <| db_job_attempts ::= <[attemptID := row]> |>).

Definition offered_row (jobID nodeID leaseNonce : string) (number leaseExpiresAt deadlineAt now : Z)
    : AttemptRow := {|
  at_job_id := jobID; at_node_id := Some nodeID; at_attempt_number := number;
  at_lease_nonce := leaseNonce; at_lease_expires_at := leaseExpiresAt; at_deadline_at := deadlineAt;
  at_status := AOffered; at_transient_failure := false; at_error_code := None; at_created_at := now;
  at_accepted_at := None; at_started_at := None; at_finished_at := None
|}.

Definition scheduled (jobID attemptID nodeID : string) (leaseExpiresAt deadlineAt : Z) : ScheduledAttempt := {|
  sa_JobID := jobID; sa_AttemptID := attemptID; sa_NodeID := nodeID; sa_SessionID := "";
  sa_LeaseExpiresAt := leaseExpiresAt; sa_DeadlineAt := deadlineAt; sa_ModelHash := ""; sa_RuntimeHash := ""
|}.

(** [UPDATE jobs SET ... WHERE id = $1 AND p]. *)
Definition update_job (jobID : string) (p : JobRow → bool) (f : JobRow → JobRow) : St DB unit :=
  modify (λ d, d <| db_jobs ::= update_where (λ k j, String.eqb k jobID && p j) f |>).

Definition job_state (st : JobState) (now : Z) (j : JobRow) : JobRow :=
  j <| j_state := st |> <| j_updated_at := now |>.

Definition CreateAttempt (jobID nodeID : string) (leaseExpiresAt deadlineAt : Z) : St DB ScheduledAttempt :=
  attemptID ← ids_New "att";
  leaseNonce ← ids_New "lease";
  db ← gets id;
  transaction (
    _ ← wrap "insert job attempt" (insert_attempt attemptID
          (offered_row jobID nodeID leaseNonce (next_attempt_number db jobID) leaseExpiresAt deadlineAt (db_now db)));
    _ ← update_job jobID (λ _, true) (job_state JLeased (db_now db));
    mret (scheduled jobID attemptID nodeID leaseExpiresAt deadlineAt)).

Definition CreateVerificationAttempt (jobID nodeID : string) (leaseExpiresAt deadlineAt : Z)
    : St DB ScheduledAttempt :=
  attemptID ← ids_New "att";
  leaseNonce ← ids_New "lease";
  db ← gets id;
  _ ← wrap "insert verification attempt" (insert_attempt attemptID
        (offered_row jobID nodeID leaseNonce (next_attempt_number db jobID) leaseExpiresAt deadlineAt (db_now db)));
  mret (scheduled jobID attemptID nodeID leaseExpiresAt deadlineAt).

(** The attempts [WHERE id = $1 AND job_id = $2 AND p]. *)
Definition attempt_where (jobID attemptID : string) (p : AttemptRow → bool) (k : string) (a : AttemptRow) : bool :=
  String.eqb k attemptID && String.eqb (at_job_id a) jobID && p a.

Definition update_attempt (q : string → AttemptRow → bool) (f : AttemptRow → AttemptRow) : St DB unit :=
  modify (λ d, d <| db_job_attempts ::= update_where q f |>).

(** The update and the check of [RowsAffected]. *)
Definition update_attempt_or (e : gerror) (q : string → AttemptRow → bool) (f : AttemptRow → AttemptRow)
    : St DB unit :=
  attempts ← gets db_job_attempts;
  _ ← update_attempt q f;
  guard_err (exists_row q attempts) e.

Definition accept_window : Z := 2 * second.

Definition MarkAccepted (jobID attemptID : string) (acceptedAt : Z) : St DB unit :=
  transaction (
    _ ← update_attempt_or (ErrMsg "job attempt was not accepted within the offer window")
          (attempt_where jobID attemptID (λ a, bool_decide (at_status a = AOffered) &&
             (acceptedAt <=? at_lease_expires_at a) && (acceptedAt <=? at_created_at a + accept_window)))
          (λ a, a <| at_status := AAccepted |> <| at_accepted_at := Some acceptedAt |>);
    update_job jobID (λ j, negb (bool_decide (j_state j = JSucceeded))) (job_state JRunning acceptedAt)).

Definition MarkStarted (jobID attemptID : string) (startedAt : Z) : St DB unit :=
  transaction (
    _ ← update_attempt_or (ErrMsg "job attempt cannot be marked running from its current state")
          (attempt_where jobID attemptID (λ a, bool_decide (at_status a ∈ [AAccepted; ARunning])))
          (λ a, a <| at_status := ARunning |> <| at_started_at := Some startedAt |>);
    update_job jobID (λ j, negb (bool_decide (j_state j = JSucceeded))) (job_state JRunning startedAt)).

(** ** Node reputation *)

(** A rate [k / n] as stored in [numeric(5,4)], rounded half up at the fourth decimal.
    The code divides in [float64], which is off by less than a unit in 10^15 and so
    rounds to the same value for counts below 10^10. *)
Definition rate4 (k n : Z) : Z := (2 * 10000 * k + n) / (2 * n).

Definition new_reputation (now : Z) : ReputationRow := {|
  rp_total_accepted_jobs := 0; rp_rolling_success_rate := initial_rate; rp_timeout_rate := 0;
  rp_hash_mismatch_count := 0; rp_challenge_pass_rate := 10000; rp_duplicate_disagreement_rate := 0;
  rp_session_stability := initial_rate; rp_attempt_total := 0; rp_attempt_failed := 0;
  rp_challenge_total := 0; rp_challenge_failed := 0; rp_duplicate_total := 0;
  rp_duplicate_disagreements := 0; rp_quarantined_at := None; rp_last_quarantine_reason := None;
  rp_updated_at := now
|}.

(** [INSERT INTO node_reputation ... ON CONFLICT (node_id) DO NOTHING], then
    [SELECT ... FOR UPDATE]. *)
Definition ensure_reputation (nodeID : string) (now : Z) : St DB ReputationRow :=
  db ← gets id;
  match db_node_reputation db !! nodeID with
  | Some r => mret r
  | None =>
      _ ← wrap "ensure node reputation" (constraint (has_key (db_nodes db) nodeID) "node_reputation_node_id_fkey");
      _ ← modify (λ d, d <| db_node_reputation ::= <[nodeID := new_reputation now]> |>);
      mret (new_reputation now)
  end.

Definition rate_ok (r : Z) : bool := (0 <=? r) && (r <=? 10000).

(** [UPDATE node_reputation SET ... WHERE node_id = $1], with its range checks. *)
Definition set_reputation (nodeID : string) (r : ReputationRow) : St DB unit :=
  _ ← constraint (rate_ok (rp_rolling_success_rate r) && rate_ok (rp_timeout_rate r) &&
                  rate_ok (rp_challenge_pass_rate r) && rate_ok (rp_duplicate_disagreement_rate r))
        "node_reputation_rate_check";
  modify (λ d, d <| db_node_reputation ::= <[nodeID := r]> |>).

(** What one more attempt, accepted or not, makes of the counters. *)
Definition attempt_outcome (r : ReputationRow) (accepted : bool) (code : string) (now : Z) : ReputationRow :=
  let previousAttempts := rp_attempt_total r in
  let attemptTotal := previousAttempts + 1 in
  let totalAccepted := if accepted then rp_total_accepted_jobs r + 1 else rp_total_accepted_jobs r in
  let attemptFailed := if accepted then rp_attempt_failed r else rp_attempt_failed r + 1 in
  let hashMismatch :=
    if negb accepted && (contains code "hash_mismatch" || contains code "hash mismatch")
    then rp_hash_mismatch_count r + 1 else rp_hash_mismatch_count r in
  let timeoutFailures :=
    round_to_Z (fmul (float_of_ratio (rp_timeout_rate r) 10000) (float_of_Z previousAttempts)) in
  let timeoutFailures :=
    if negb accepted && String.eqb code CodeJobTimeout then timeoutFailures + 1 else timeoutFailures in
  let '(rollingSuccessRate, timeoutRateNext) :=
    if 0 <? attemptTotal
    then (rate4 (attemptTotal - attemptFailed) attemptTotal, rate4 timeoutFailures attemptTotal)
    else (initial_rate, 0) in
  r <| rp_total_accepted_jobs := totalAccepted |> <| rp_attempt_total := attemptTotal |>
    <| rp_attempt_failed := attemptFailed |> <| rp_rolling_success_rate := rollingSuccessRate |>
    <| rp_timeout_rate := timeoutRateNext |> <| rp_hash_mismatch_count := hashMismatch |>
    <| rp_updated_at := now |>.

Definition updateAttemptReputation (nodeID : string) (accepted : bool) (code : string) (now : Z) : St DB unit :=
  r ← ensure_reputation nodeID now;
  wrap "update node reputation" (set_reputation nodeID (attempt_outcome r accepted code now)).

Definition nodeIDForAttempt (attemptID : string) : St DB string :=
  attempts ← gets db_job_attempts;
  wrap "load attempt node for reputation" (of_option ErrNoRows (attempts !! attemptID ≫= at_node_id)).

Definition updateAcceptedReputation (attemptID : string) (now : Z) : St DB unit :=
  nodeID ← nodeIDForAttempt attemptID;
  updateAttemptReputation nodeID true "" now.

Definition updateFailureReputation (attemptID code : string) (now : Z) : St DB unit :=
  nodeID ← nodeIDForAttempt attemptID;
  updateAttemptReputation nodeID false code now.

Definition duplicate_outcome (r : ReputationRow) (disagreement : bool) (now : Z) : ReputationRow :=
  let total := rp_duplicate_total r + 1 in
  let disagreements := if disagreement then rp_duplicate_disagreements r + 1 else rp_duplicate_disagreements r in
  r <| rp_duplicate_total := total |> <| rp_duplicate_disagreements := disagreements |>
    <| rp_duplicate_disagreement_rate := if 0 <? total then rate4 disagreements total else 0 |>
    <| rp_updated_at := now |>.

Definition updateDuplicateReputation (nodeID : string) (disagreement : bool) (now : Z) : St DB unit :=
  r ← ensure_reputation nodeID now;
  wrap "update duplicate reputation" (set_reputation nodeID (duplicate_outcome r disagreement now)).

Definition quarantine_reason := "challenge_failure_threshold".

(** [quarantine := failure && total > 1 && failed >= threshold] and the new row. *)
Definition challenge_outcome (r : ReputationRow) (failure : bool) (threshold now : Z) : bool * ReputationRow :=
  let total := rp_challenge_total r + 1 in
  let failed := if failure then rp_challenge_failed r + 1 else rp_challenge_failed r in
  let quarantine := failure && (1 <? total) && (threshold <=? failed) in
  (quarantine,
   r <| rp_challenge_total := total |> <| rp_challenge_failed := failed |>
     <| rp_challenge_pass_rate := if 0 <? total then rate4 (total - failed) total else 10000 |>
     <| rp_quarantined_at ::= λ q, if quarantine then Some now else q |>
     <| rp_last_quarantine_reason ::= λ q, if quarantine then Some quarantine_reason else q |>
     <| rp_updated_at := now |>).

(** [UPDATE nodes SET quarantined_at = COALESCE(quarantined_at, $2), updated_at = $2]. *)
Definition quarantine_node (nodeID : string) (now : Z) : St DB unit :=
  modify (λ d, d <| db_nodes ::= update_where (λ k _, String.eqb k nodeID)
    (λ n, n <| n_quarantined_at ::= λ q, Some (default now q) |> <| n_updated_at := now |>) |>).

Definition updateChallengeReputation (nodeID : string) (failure : bool) (failureThreshold now : Z) : St DB bool :=
  r ← ensure_reputation nodeID now;
  let '(quarantine, r') := challenge_outcome r failure failureThreshold now in
  _ ← wrap "update challenge reputation" (set_reputation nodeID r');
  _ ← (if quarantine then quarantine_node nodeID now else mret tt);
  mret quarantine.

(** ** Completion *)

(** What an SQL [integer] column that is checked to be non-negative accepts. *)
Definition nat32 (n : Z) : bool := (0 <=? n) && (n <? 2 ^ 31).

(** [INSERT INTO job_results]. *)
Definition insert_result (resultID : string) (row : ResultRow) : St DB unit :=
  db ← gets id;
  _ ← constraint (fresh_key (db_job_results db) resultID) "job_results_pkey";
  _ ← constraint (has_key (db_jobs db) (res_job_id row)) "job_results_job_id_fkey";
  _ ← constraint (has_key (db_job_attempts db) (res_attempt_id row)) "job_results_attempt_id_fkey";
  _ ← constraint (nat32 (res_prompt_tokens row) && nat32 (res_completion_tokens row) &&
                  nat32 (res_duration_millis row) && nat32 (res_coordinator_duration_millis row))
        "job_results_check";
  _ ← constraint (negb (exists_row (λ _ r, String.eqb (res_attempt_id r) (res_attempt_id row))
                          (db_job_results db))) "job_results_attempt_id_key";
  modify (λ d, d <| db_job_results ::= <[resultID := row]> |>).

(** Another attempt of the job has succeeded. *)
Definition other_success (jobID attemptID : string) (k : string) (a : AttemptRow) : bool :=
  of_job jobID k a && negb (String.eqb k attemptID) && bool_decide (at_status a = ASucceeded).

(** [UPDATE job_attempts SET status = 'succeeded'], under the unique index
    [job_attempts_one_success_per_job]. *)
Definition mark_succeeded (jobID attemptID : string) (now : Z) : St DB unit :=
  attempts ← gets db_job_attempts;
  _ ← constraint (negb (exists_row (other_success jobID attemptID) attempts))
        "job_attempts_one_success_per_job";
  update_attempt (attempt_where jobID attemptID (λ _, true))
    (λ a, a <| at_status := ASucceeded |> <| at_finished_at := Some now |>).

(** The response for a completed payload; identifiers start with ["res_"], which
    [strings.Replace] turns into ["chatcmpl_"]. *)
Definition completion_response (db : DB) (resultID : string) (payload : JobCompletedPayload) : OpenAIResponse := {|
  oa_ID := "chatcmpl_" +:+ trim_prefix resultID "res_"; oa_Object := "chat.completion";
  oa_Created := jc_CompletedAt payload / second; oa_Model := jc_ModelID payload;
  oa_Message := default {| cm_Role := "assistant"; cm_Content := "" |} (jc_Message payload);
  oa_FinishReason := jc_FinishReason payload; oa_Usage := jc_Usage payload;
  oa_JobID := jc_JobID payload;
  oa_Attempts := Z.of_nat (length (rows_where (of_job (jc_JobID payload)) (db_job_attempts db)));
  oa_DataClass := from_option md_data_class "public_or_non_sensitive" (db_models db !! jc_ModelID payload);
  oa_ServedRegion := "local"
|}.

(** [SELECT ... FROM job_attempts ja WHERE ja.id = $1 AND ja.job_id = $2 FOR UPDATE]. *)
Definition select_attempt (jobID attemptID : string) : St DB AttemptRow :=
  attempts ← gets db_job_attempts;
  wrap "load attempt for completion" (
    a ← of_option ErrNoRows (attempts !! attemptID);
    _ ← guard_err (String.eqb (at_job_id a) jobID) ErrNoRows;
    mret a).

(** The guards of [CompleteJob] on the attempt it loaded. *)
Definition completable (a : AttemptRow) (completedByAnother : bool) (receivedAt : Z) : St DB Z :=
  _ ← guard_err (negb (completedByAnother || bool_decide (at_status a = ASucceeded)))
        (ErrMsg "job already has an accepted result");
  _ ← guard_err (bool_decide (at_status a ∈ [AAccepted; ARunning]))
        (ErrMsg "job attempt cannot complete from status");
  acceptedAt ← of_option (ErrMsg "job attempt was never accepted") (at_accepted_at a);
  _ ← guard_err (acceptedAt <=? at_lease_expires_at a) (ErrMsg "job attempt was accepted after lease expiry");
  _ ← guard_err (receivedAt <=? at_deadline_at a) (ErrMsg "job result arrived after deadline");
  let startedAt := default acceptedAt (at_started_at a) in
  mret (Z.max 0 ((receivedAt - startedAt) / millisecond)).

Definition posting_of (payload : JobCompletedPayload) (receivedAt creditHold durationMillis : Z)
    : AcceptedJobPosting := {|
  ap_JobID := jc_JobID payload; ap_AttemptID := jc_AttemptID payload; ap_ReceivedAt := receivedAt;
  ap_CreditHold := creditHold; ap_PromptTokens := PromptTokens (jc_Usage payload);
  ap_CompletionTokens := CompletionTokens (jc_Usage payload);
  ap_CoordinatorDurationMillis := durationMillis; ap_VerificationOverheadMicrodollars := 0
|}.

(** The accepted result; the price version is the column's default until it is updated. *)
Definition result_row (payload : JobCompletedPayload) (receivedAt : Z) (metering : MeteringStatus)
    (response : OpenAIResponse) (durationMillis : Z) (priceVersion : string) : ResultRow := {|
  res_job_id := jc_JobID payload; res_attempt_id := jc_AttemptID payload;
  res_model_hash := jc_ModelHash payload; res_runtime_hash := jc_RuntimeHash payload;
  res_prompt_tokens := PromptTokens (jc_Usage payload);
  res_completion_tokens := CompletionTokens (jc_Usage payload);
  res_duration_millis := jc_DurationMillis payload;
  res_coordinator_duration_millis := durationMillis; res_response_metadata := response;
  res_accepted := true; res_metering_status := metering; res_price_version := priceVersion;
  res_created_at := receivedAt
|}.

(** The transaction of [CompleteJob]. *)
Definition complete_tx (payload : JobCompletedPayload) (receivedAt creditHold : Z) (metering : MeteringStatus)
    (resultID : string) (response : OpenAIResponse) : St DB OpenAIResponse :=
  let jobID := jc_JobID payload in
  let attemptID := jc_AttemptID payload in
  a ← select_attempt jobID attemptID;
  attempts ← gets db_job_attempts;
  durationMillis ← completable a (exists_row (other_success jobID attemptID) attempts) receivedAt;
  _ ← wrap "insert job result"
        (insert_result resultID (result_row payload receivedAt metering response durationMillis "alpha"));
  ledgerResult ← wrap "post accepted job ledger"
                   (postAcceptedJob (posting_of payload receivedAt creditHold durationMillis));
  _ ← modify (λ d, d <| db_job_results ::= update_where (λ k _, String.eqb k resultID)
        (λ r, r <| res_price_version := al_PriceVersion ledgerResult |>) |>);
  _ ← wrap "mark job succeeded" (mark_succeeded jobID attemptID receivedAt);
  _ ← update_job jobID (λ _, true)
        (λ j, job_state JSucceeded receivedAt j <| j_completed_at := Some receivedAt |>);
  _ ← updateAcceptedReputation attemptID receivedAt;
  mret response.

Definition CompleteJob (payload : JobCompletedPayload) (receivedAt creditHold : Z) (metering : MeteringStatus)
    : St DB OpenAIResponse :=
  resultID ← ids_New "res";
  receivedAt ← or_now receivedAt;
  db ← gets id;
  transaction (complete_tx payload receivedAt creditHold metering resultID
                 (completion_response db resultID payload)).

(** ** Failure *)

Definition failed_attempt (transient : bool) (code : string) (now : Z) (a : AttemptRow) : AttemptRow :=
  a <| at_status := AFailed |> <| at_transient_failure := transient |>
    <| at_error_code := Some code |> <| at_finished_at := Some now |>.

Definition live_attempt (a : AttemptRow) : bool := active_status (at_status a).

Definition FailAttempt (jobID attemptID code : string) (transient : bool) (now : Z) : St DB unit :=
  transaction (
    _ ← update_attempt (attempt_where jobID attemptID live_attempt) (failed_attempt transient code now);
    _ ← updateFailureReputation attemptID code now;
    update_job jobID (λ j, bool_decide (j_state j ∈ [JLeased; JRunning])) (job_state JQueued now)).

(** The message and the retryable flag are not stored. *)
Definition FailJob (jobID attemptID code : string) (transient : bool) (now : Z) : St DB unit :=
  transaction (
    _ ← (if negb (String.eqb attemptID "") then
           _ ← update_attempt (attempt_where jobID attemptID (λ _, true)) (failed_attempt transient code now);
           updateFailureReputation attemptID code now
         else mret tt);
    update_job jobID (λ _, true) (λ j, job_state JFailed now j <| j_completed_at := Some now |>)).

(** ** Verification attempts *)

Definition MarkVerificationAttemptCompleted (jobID attemptID : string) (now : Z) : St DB unit :=
  transaction (
    _ ← update_attempt (attempt_where jobID attemptID (λ a, bool_decide (at_status a ∈ [AAccepted; ARunning])))
          (λ a, a <| at_status := AVerified |> <| at_finished_at := Some now |>);
    updateAcceptedReputation attemptID now).

Definition MarkVerificationAttemptFailed (jobID attemptID code : string) (now : Z) : St DB unit :=
  transaction (
    _ ← update_attempt (attempt_where jobID attemptID live_attempt) (failed_attempt true code now);
    updateFailureReputation attemptID code now).

Definition PostVerificationOverhead_ (payload : JobCompletedPayload) (creditHold receivedAt : Z) : St DB unit :=
  receivedAt ← or_now receivedAt;
  _ ← wrap "post verification overhead" (PostVerificationOverhead {|
        vp_JobID := jc_JobID payload; vp_AttemptID := jc_AttemptID payload; vp_ReceivedAt := receivedAt;
        vp_CreditHold := creditHold; vp_CompletionTokens := CompletionTokens (jc_Usage payload);
        vp_CoordinatorDurationMillis := jc_DurationMillis payload |});
  mret tt.

(** ** Reading, cancelling, expiring *)

Definition accepted_result (db : DB) (jobID : string) : option OpenAIResponse :=
  (λ r, res_response_metadata (snd r)) <$> latest res_created_at
    (rows_where (λ _ r, String.eqb (res_job_id r) jobID && res_accepted r) (db_job_results db)).

Definition GetJob (orgID jobID : string) : St DB JobStatus :=
  db ← gets id;
  let missing := ErrApi CodeInvalidRequest "Job not found." false 404 in
  j ← of_option missing (db_jobs db !! jobID);
  _ ← guard_err (String.eqb (j_organization_id j) orgID) missing;
  mret {| jst_ID := jobID; jst_State := j_state j; jst_Model := j_model_id j;
          jst_CreatedAt := j_created_at j; jst_UpdatedAt := j_updated_at j;
          jst_Result := if bool_decide (j_state j = JSucceeded) then accepted_result db jobID else None |}.

Definition CancelJob (orgID jobID : string) (now : Z) : St DB JobStatus :=
  jobs ← gets db_jobs;
  let p := λ j, String.eqb (j_organization_id j) orgID && bool_decide (j_state j ∈ [JQueued; JLeased]) in
  _ ← update_job jobID p (λ j, job_state JCancelled now j <| j_completed_at := Some now |>);
  _ ← guard_err (exists_row (λ k j, String.eqb k jobID && p j) jobs)
        (ErrApi CodeInvalidRequest "Job cannot be cancelled in its current state." false 409);
  GetJob orgID jobID.

Definition lease_expired (now : Z) (_ : string) (a : AttemptRow) : bool :=
  bool_decide (at_status a = AOffered) && (at_lease_expires_at a <=? now).

(** The returned rows; a null node does not scan into a string. *)
Fixpoint scan_expired (rows : list (string * AttemptRow)) : result (list ExpiredAttempt) :=
  match rows with
  | [] => Ok []
  | (k, a) :: rest =>
      match at_node_id a with
      | None => Err (ErrWrap "scan expired lease" (ErrMsg "null node"))
      | Some nodeID =>
          match scan_expired rest with
          | Err e => Err e
          | Ok l => Ok ({| ea_JobID := at_job_id a; ea_AttemptID := k; ea_NodeID := nodeID |} :: l)
          end
      end
  end.

Definition ExpireLeases (now : Z) : St DB (list ExpiredAttempt) :=
  attempts ← gets db_job_attempts;
  _ ← update_attempt (lease_expired now)
        (λ a, a <| at_status := AExpired |> <| at_transient_failure := true |>
                <| at_error_code := Some CodeJobTimeout |> <| at_finished_at := Some now |>);
  lift_result (scan_expired (rows_where (lease_expired now) attempts)).

(** ** Idempotency *)

Definition same_request (apiKeyID endpoint key : string) (_ : string) (r : IdempotencyRow) : bool :=
  String.eqb (id_api_key_id r) apiKeyID && String.eqb (id_endpoint r) endpoint &&
  String.eqb (id_idempotency_key r) key.

(** The record and whether it was found. *)
Definition IdempotencyRecord_ (apiKeyID endpoint key : string) : St DB (IdempotencyRecord * bool) :=
  db ← gets id;
  mret (match rows_where (λ k r, same_request apiKeyID endpoint key k r && (db_now db <? id_expires_at r))
                (db_idempotency_records db) with
        | [] => ({| ir_RequestHash := ""; ir_ResponseStatus := 0; ir_ResponseMetadata := ""; ir_JobID := "" |}, false)
        | (_, r) :: _ =>
            ({| ir_RequestHash := id_request_hash r; ir_ResponseStatus := id_response_status r;
                ir_ResponseMetadata := id_response_metadata r; ir_JobID := default "" (id_job_id r) |}, true)
        end).

(** [body] is the marshalled response. On a conflict the hash and the expiry of the
    stored record stay. *)
Definition StoreIdempotencyResponse (apiKeyID endpoint key requestHash jobID : string) (status : Z)
    (body : string) (expiresAt : Z) : St DB unit :=
  recordID ← ids_New "idem";
  db ← gets id;
  let records := db_idempotency_records db in
  wrap "store idempotency response" (
    _ ← constraint (has_key (db_api_keys db) apiKeyID) "idempotency_records_api_key_id_fkey";
    _ ← constraint (has_key (db_jobs db) jobID) "idempotency_records_job_id_fkey";
    match rows_where (same_request apiKeyID endpoint key) records with
    | (actual, r) :: _ =>
        modify (λ d, d <| db_idempotency_records ::= <[actual :=
          r <| id_response_status := status |> <| id_response_metadata := body |>
            <| id_job_id := Some jobID |>]> |>)
    | [] =>
        _ ← constraint (fresh_key records recordID) "idempotency_records_pkey";
        modify (λ d, d <| db_idempotency_records ::= <[recordID := {|
          id_api_key_id := apiKeyID; id_endpoint := endpoint; id_idempotency_key := key;
          id_request_hash := requestHash; id_response_status := status; id_response_metadata := body;
          id_job_id := Some jobID; id_created_at := db_now db; id_expires_at := expiresAt |}]> |>)
    end).

Definition PublicKeyForNode (nodeID : string) : St DB string :=
  db ← gets id;
  of_option ErrNoRows ((λ k, nk_public_key (snd k)) <$> latest nk_created_at
    (rows_where (λ _ k, String.eqb (nk_node_id k) nodeID && nk_active k) (db_node_keys db))).

(** ** Verification events *)

Definition null_if_empty (s : string) : option string := if String.eqb s "" then None else Some s.

(** [INSERT INTO verification_events] with [NULLIF($3, '')] and [NULLIF($4, '')]. *)
Definition insertVerificationEventTx (jobID attemptID nodeID eventType : string) (status : VerStatus)
    (details : VerDetails) (now : Z) : St DB unit :=
  eventID ← ids_New "ver";
  db ← gets id;
  wrap "insert verification event" (
    _ ← constraint (fresh_key (db_verification_events db) eventID) "verification_events_pkey";
    _ ← constraint (has_key (db_jobs db) jobID) "verification_events_job_id_fkey";
    _ ← constraint (String.eqb attemptID "" || has_key (db_job_attempts db) attemptID)
          "verification_events_attempt_id_fkey";
    _ ← constraint (String.eqb nodeID "" || has_key (db_nodes db) nodeID) "verification_events_node_id_fkey";
    modify (λ d, d <| db_verification_events ::= <[eventID := {|
      ve_job_id := jobID; ve_attempt_id := null_if_empty attemptID; ve_node_id := null_if_empty nodeID;
      ve_event_type := eventType; ve_status := status; ve_details := details; ve_created_at := now |}]> |>)).

Definition insertVerificationEvent (jobID attemptID nodeID eventType : string) (status : VerStatus)
    (details : VerDetails) (now : Z) : St DB unit :=
  now ← or_now now;
  insertVerificationEventTx jobID attemptID nodeID eventType status details now.

Definition RecordMeteringIssues (payload : JobCompletedPayload) (issues : list MeteringIssue)
    (status : MeteringStatus) (now : Z) : St DB unit :=
  match issues with
  | [] => mret tt
  | _ =>
      let status := match status with MsRejected => VRejected | MsFlagged | MsAccepted => VAccepted end in
      insertVerificationEvent (jc_JobID payload) (jc_AttemptID payload) "" "metering_plausibility" status
        (DetMetering issues (jc_Usage payload)) now
  end.

Record DuplicateOutcome := {
  do_JobID : string;
  do_AttemptID : string;
  do_NodeID : string;
  do_OriginalAttemptID : string;
  do_OriginalNodeID : string;
  do_Agreement : bool;
  do_Reason : string;
  do_OccurredAt : Z
}.

Definition RecordDuplicateOutcome (o : DuplicateOutcome) : St DB unit :=
  now ← or_now (do_OccurredAt o);
  transaction (
    _ ← insertVerificationEventTx (do_JobID o) (do_AttemptID o) (do_NodeID o) "duplicate"
          (if do_Agreement o then VAccepted else VRejected)
          (DetDuplicate (do_Agreement o) (do_Reason o) (do_OriginalAttemptID o) (do_OriginalNodeID o)) now;
    updateDuplicateReputation (do_NodeID o) (negb (do_Agreement o)) now).

Record ChallengeOutcome := {
  co_JobID : string;
  co_AttemptID : string;
  co_NodeID : string;
  co_ModelID : string;
  co_Passed : bool;
  co_Reason : string;
  co_OccurredAt : Z
}.

Definition RecordChallengeOutcome (o : ChallengeOutcome) (failureThreshold : Z) : St DB unit :=
  now ← or_now (co_OccurredAt o);
  let failureThreshold := default_pos failureThreshold 3 in
  transaction (
    _ ← insertVerificationEventTx (co_JobID o) (co_AttemptID o) (co_NodeID o) "challenge"
          (if co_Passed o then VAccepted else VRejected)
          (DetChallenge (co_Passed o) (co_Reason o) (co_ModelID o)) now;
    quarantined ← updateChallengeReputation (co_NodeID o) (negb (co_Passed o)) failureThreshold now;
    if quarantined : bool then
      insertVerificationEventTx (co_JobID o) (co_AttemptID o) (co_NodeID o) "challenge" VQuarantined
        (DetQuarantine quarantine_reason (co_ModelID o)) now
    else mret tt).
