(* ===== verification/OperatorStore.v ===== *)
(** * The operator store: what it writes

    [internal/coordinator/operator/store.go] and [handle.go]: the normalisation of
    regions, emails and schedules, and every operation an operator runs on nodes, jobs,
    credit, fleets and the waitlist. Each leaves a row in [operator_actions], in the same
    transaction where it has one, otherwise (the ledger's own transactions) in a second
    transaction after it. The reports are in [OperatorReports].

    The lower case of a non-ASCII rune is Go's Unicode table, the parameter
    [lower_table]. *)
From stdpp Require Import base gmap strings list.
From Stdlib Require Import ZArith Lia Ascii.
From S2P Require Import Prelude GoStrings Float64 Sha256 Protocol Requests Database Registration Ledger JobStore.

Section lower.
Context (lower_table : Z → Z).

#[local] Notation to_lower := (to_lower lower_table).

(** ** Regions, emails, volumes, schedules *)

Definition region_char (a : ascii) : bool := is_lower a || is_digit a.
(** [^[a-z0-9]+(-[a-z0-9]+)*$], the pattern of the code and of the column's check. *)
Definition regionPattern (s : string) : bool :=
  forallb (λ part, negb (String.eqb part "") && forallb region_char (bytes part)) (split_on "-"%char s).

Definition NormalizeRegion (value : string) : result string :=
  let region := to_lower (trim_space value) in
  if String.eqb region "" then Ok ""
  else if negb (regionPattern region)
  then Err (ErrMsg "region must use lowercase letters, digits, and hyphen separators")
  else Ok region.

Definition NormalizeEmail (email : string) : string := to_lower (trim_space email).

Definition EffectiveRegion (nodeRegion fleetRegion : string) : string :=
  let nodeRegion := trim_space nodeRegion in
  if negb (String.eqb nodeRegion "") then nodeRegion else trim_space fleetRegion.

Definition expectedVolumeBands : list string := ["lt_1m"; "1m_10m"; "10m_100m"; "gt_100m"].

Definition ValidateExpectedVolume (value : string) : result unit :=
  let value := trim_space value in
  if String.eqb value "" || existsb (String.eqb value) expectedVolumeBands then Ok tt
  else Err (ErrMsg "expected_volume must be one of lt_1m, 1m_10m, 10m_100m, gt_100m").

Definition validateClock (value : string) : result unit :=
  match split_on ":"%char value with
  | [h; m] =>
      match atoi h with
      | Some hour =>
          if (hour <? 0) || (23 <? hour) then Err (ErrMsg "hour must be 00 through 23")
          else match atoi m with
               | Some minute =>
                   if (minute <? 0) || (59 <? minute) then Err (ErrMsg "minute must be 00 through 59") else Ok tt
               | None => Err (ErrMsg "minute must be 00 through 59")
               end
      | None => Err (ErrMsg "hour must be 00 through 23")
      end
  | _ => Err (ErrMsg "expected HH:MM")
  end.

(** [ScheduleDefaults] of the operator package, with the source of the choice. *)
Record FleetDefaults := { fd_From : string; fd_Until : string; fd_Timezone : string; fd_Source : string }.
#[export] Instance FleetDefaults_eta : Eta FleetDefaults := λ r,
  {| fd_From := fd_From r; fd_Until := fd_Until r; fd_Timezone := fd_Timezone r; fd_Source := fd_Source r |}.

Definition or_text (s def : string) : string := if String.eqb s "" then def else s.

Definition EffectiveSchedule (local : FleetDefaults) (hasLocalOverride : bool) (fleet : FleetDefaults) : FleetDefaults :=
  if hasLocalOverride && negb (String.eqb (fd_From local) "") && negb (String.eqb (fd_Until local) "")
  then local <| fd_Source := "node" |>
  else if negb (String.eqb (fd_From fleet) "") && negb (String.eqb (fd_Until fleet) "")
  then fleet <| fd_Timezone ::= (λ tz, or_text tz "local") |> <| fd_Source := "fleet" |>
  else local <| fd_From ::= (λ s, or_text s "00:00") |> <| fd_Until ::= (λ s, or_text s "00:00") |>
             <| fd_Timezone ::= (λ tz, or_text tz "local") |> <| fd_Source := "node" |>.

(** ** The operator's log *)

Definition ActionNodeDrain := "node.drain".
Definition ActionNodePause := "node.pause".
Definition ActionNodeQuarantine := "node.quarantine".
Definition ActionJobRetry := "job.retry".
Definition ActionJobCancel := "job.cancel".
Definition ActionPayoutCreate := "payout.create".
Definition ActionPayoutExport := "payout.export".
Definition ActionPayoutConfirm := "payout.confirm".
Definition ActionCatalogSync := "catalog.sync".
Definition ActionCreditsRelease := "credits.release".
Definition ActionFleetSetRegion := "fleet.set_region".
Definition ActionNodeSetRegion := "node.set_region".
Definition defaultOperatorActor := "operator-token".

Definition recordOperatorActionTx (action targetType targetID reason : string)
    (metadata : list (string * MetaValue)) (now : Z) : St DB unit :=
  actionID ← ids_New "opact";
  db ← gets id;
  wrap "insert operator action" (
    _ ← constraint (fresh_key (db_operator_actions db) actionID) "operator_actions_pkey";
    modify (λ d, d <| db_operator_actions ::= <[actionID := {|
      oc_action := action; oc_target_type := or_text targetType "unknown"; oc_target_id := or_text targetID "unknown";
      oc_reason := null_if_empty reason; oc_metadata := metadata; oc_created_at := now |}]> |>)).

Definition RecordOperatorAction (action targetType targetID reason : string)
    (metadata : list (string * MetaValue)) (now : Z) : St DB unit :=
  now ← or_now now;
  transaction (recordOperatorActionTx action targetType targetID reason metadata now).

Definition internal_api : list (string * MetaValue) := [("source", MvText "internal_api")].

(** ** Nodes *)

(** [UPDATE nodes SET state = $2, updated_at = $3 WHERE id = $1]. *)
Definition set_node_state (nodeID state : string) (now : Z) : St DB unit :=
  update_nodes (λ k _, String.eqb k nodeID) (λ n, n <| n_state := state |> <| n_updated_at := now |>).

Definition updateNodeAction (nodeID state action reason : string) (now : Z) : St DB unit :=
  now ← or_now now;
  transaction (
    _ ← set_node_state nodeID state now;
    recordOperatorActionTx action "node" nodeID reason (internal_api ++ [("state", MvText state)]) now).

Definition PauseNode (nodeID reason : string) (now : Z) : St DB unit :=
  updateNodeAction nodeID "PAUSED" ActionNodePause reason now.

Definition DrainNode (nodeID reason : string) (now : Z) : St DB unit :=
  now ← or_now now;
  transaction (
    _ ← set_node_state nodeID "DRAINING" now;
    db ← gets id;
    _ ← (match node_session db nodeID with
         | Some (sessionID, _) => update_sessions (λ k _, String.eqb k sessionID) (λ s, s <| ss_state := SsDraining |>)
         | None => mret tt
         end);
    recordOperatorActionTx ActionNodeDrain "node" nodeID reason internal_api now).

(** [INSERT INTO node_reputation ... ON CONFLICT (node_id) DO UPDATE]. *)
Definition quarantine_reputation (nodeID reason : string) (now : Z) : St DB unit :=
  db ← gets id;
  match db_node_reputation db !! nodeID with
  | Some r =>
      modify (λ d, d <| db_node_reputation ::= <[nodeID :=
        r <| rp_quarantined_at ::= (λ q, Some (default now q)) |>
          <| rp_last_quarantine_reason ::= (λ q, match null_if_empty reason with Some t => Some t | None => q end) |>
          <| rp_updated_at := now |>]> |>)
  | None =>
      _ ← constraint (has_key (db_nodes db) nodeID) "node_reputation_node_id_fkey";
      modify (λ d, d <| db_node_reputation ::= <[nodeID :=
        new_reputation now <| rp_quarantined_at := Some now |>
          <| rp_last_quarantine_reason := null_if_empty reason |>]> |>)
  end.

Definition QuarantineNode (nodeID reason : string) (now : Z) : St DB unit :=
  now ← or_now now;
  transaction (
    _ ← quarantine_node nodeID now;
    _ ← wrap "update quarantine reputation" (quarantine_reputation nodeID reason now);
    recordOperatorActionTx ActionNodeQuarantine "node" nodeID reason internal_api now).

(** ** Jobs *)

(** [Store.CancelJob] of the operator: any attempt still active, and the job unless it
    has succeeded. *)
Definition op_CancelJob (jobID reason : string) (now : Z) : St DB unit :=
  now ← or_now now;
  transaction (
    _ ← update_attempt (λ k a, of_job jobID k a && live_attempt a)
          (λ a, a <| at_status := ACancelled |> <| at_finished_at ::= (λ t, Some (default now t)) |>);
    _ ← update_job jobID (λ j, negb (bool_decide (j_state j = JSucceeded)))
          (λ j, job_state JCancelled now j <| j_completed_at := Some now |>);
    recordOperatorActionTx ActionJobCancel "job" jobID reason internal_api now).

Definition RetryJob (jobID reason : string) (now : Z) : St DB unit :=
  now ← or_now now;
  transaction (
    _ ← update_job jobID (λ j, bool_decide (j_state j ∈ [JFailed; JCancelled]))
          (λ j, job_state JQueued now j <| j_completed_at := None |>);
    recordOperatorActionTx ActionJobRetry "job" jobID reason internal_api now).

(** ** Credit and payouts *)

Definition PromoteCredits (now : Z) : St DB Z :=
  now ← or_now now;
  released ← PromoteAvailableCredits now;
  _ ← RecordOperatorAction ActionCreditsRelease "host_credit_holds" "available" ""
        [("released", MvInt released)] now;
  mret released.

Definition op_CreatePayoutBatch (orgID : string) (now : Z) : St DB PayoutBatch :=
  now ← or_now now;
  batch ← CreatePayoutBatch orgID now;
  _ ← RecordOperatorAction ActionPayoutCreate "payout_batch" (po_ID batch) ""
        [("organization_id", MvText orgID); ("total_microdollars", MvInt (po_TotalMicrodollars batch))] now;
  mret batch.

Definition op_ExportPayoutBatch (batchID : string) (now : Z) : St DB (string * PayoutBatch) :=
  now ← or_now now;
  exported ← ExportPayoutBatch batchID now;
  let '(body, batch) := exported in
  _ ← RecordOperatorAction ActionPayoutExport "payout_batch" (po_ID batch) ""
        [("csv_sha256", MvText (po_ExportedCSVChecksum batch))] now;
  mret (body, batch).

Definition op_ConfirmPayoutBatch (batchID : string) (records : result (list (list string))) (now : Z)
    : St DB PayoutBatch :=
  now ← or_now now;
  batch ← ConfirmPayoutBatch batchID records now;
  _ ← RecordOperatorAction ActionPayoutConfirm "payout_batch" (po_ID batch) ""
        [("ledger_transaction_id", MvText (po_TransactionID batch))] now;
  mret batch.

(** ** Fleets and regions *)

Record Fleet := {
  fle_ID : string; fle_OrganizationID : string; fle_Name : string; fle_Region : string;
  fle_ScheduleFrom : string; fle_ScheduleUntil : string; fle_ScheduleTimezone : string; fle_CreatedAt : Z
}.

Definition region_check (region : option string) : bool := from_option regionPattern true region.

(** [INSERT INTO fleets] with its foreign key and its two checks. *)
Definition insert_operator_fleet (fleetID : string) (row : FleetRow) : St DB unit :=
  db ← gets id;
  _ ← constraint (has_key (db_organizations db) (fl_organization_id row)) "fleets_organization_id_fkey";
  _ ← constraint (schedule_check (fl_schedule_from row) (fl_schedule_until row)) "fleets_schedule_defaults_check";
  _ ← constraint (region_check (fl_region row)) "fleets_region_format_check";
  insert_fleet fleetID row.

Definition CreateFleet (orgID name : string) (schedule : FleetDefaults) (region : string) (now : Z) : St DB Fleet :=
  _ ← guard_err (negb (is_blank orgID)) (ErrMsg "organization id is required");
  _ ← guard_err (negb (is_blank name)) (ErrMsg "fleet name is required");
  now ← or_now now;
  let from := trim_space (fd_From schedule) in
  let until := trim_space (fd_Until schedule) in
  _ ← guard_err (Bool.eqb (String.eqb from "") (String.eqb until ""))
        (ErrMsg "fleet schedule requires both from and until");
  _ ← (if negb (String.eqb from "") then
         _ ← wrap "schedule from" (lift_result (validateClock from));
         wrap "schedule until" (lift_result (validateClock until))
       else mret tt);
  let timezone := or_text (fd_Timezone schedule) "local" in
  region ← lift_result (NormalizeRegion region);
  fleetID ← ids_New "fleet";
  let name := trim_space name in
  _ ← wrap "create fleet" (insert_operator_fleet fleetID {|
        fl_organization_id := orgID; fl_name := name; fl_schedule_from := null_if_empty from;
        fl_schedule_until := null_if_empty until; fl_schedule_timezone := Some timezone;
        fl_region := null_if_empty region |});
  mret {| fle_ID := fleetID; fle_OrganizationID := orgID; fle_Name := name; fle_Region := region;
          fle_ScheduleFrom := from; fle_ScheduleUntil := until; fle_ScheduleTimezone := timezone;
          fle_CreatedAt := now |}.

(** [UPDATE ... SET region = NULLIF($2, '')], with the check on the column. *)
Definition SetFleetRegion (fleetID region reason : string) (now : Z) : St DB unit :=
  region ← lift_result (NormalizeRegion region);
  _ ← guard_err (negb (is_blank fleetID)) (ErrMsg "fleet id is required");
  now ← or_now now;
  transaction (
    db ← gets id;
    _ ← wrap "update fleet region" (constraint
          (negb (has_key (db_fleets db) fleetID) || region_check (null_if_empty region)) "fleets_region_format_check");
    _ ← modify (λ d, d <| db_fleets ::= update_where (λ k _, String.eqb k fleetID)
          (λ f, f <| fl_region := null_if_empty region |>) |>);
    recordOperatorActionTx ActionFleetSetRegion "fleet" fleetID reason [("region", MvText region)] now).

Definition SetNodeRegion (nodeID region reason : string) (now : Z) : St DB unit :=
  region ← lift_result (NormalizeRegion region);
  _ ← guard_err (negb (is_blank nodeID)) (ErrMsg "node id is required");
  now ← or_now now;
  transaction (
    db ← gets id;
    _ ← wrap "update node region" (constraint
          (negb (has_key (db_nodes db) nodeID) || region_check (null_if_empty region)) "nodes_region_format_check");
    _ ← update_nodes (λ k _, String.eqb k nodeID)
          (λ n, n <| n_region := null_if_empty region |> <| n_updated_at := now |>);
    recordOperatorActionTx ActionNodeSetRegion "node" nodeID reason [("region", MvText region)] now).

(** ** The waitlist *)

Record WaitlistApplication := {
  wa_Email : string; wa_Name : string; wa_UseCase : string; wa_ExpectedVolume : string; wa_DataAck : bool;
  wa_ModelID : string; wa_Source : string
}.

Record WaitlistSignup := {
  ws_ID : string; ws_Email : string; ws_Name : string; ws_UseCase : string; ws_ExpectedVolume : string;
  ws_DataAck : bool; ws_ModelID : string; ws_Source : string; ws_CreatedAt : Z; ws_LastAppliedAt : Z
}.

(** [RETURNING id, email, COALESCE(name, ''), ...]. *)
Definition signup_of (id : string) (r : WaitlistRow) : WaitlistSignup := {|
  ws_ID := id; ws_Email := wl_email r; ws_Name := default "" (wl_name r); ws_UseCase := default "" (wl_use_case r);
  ws_ExpectedVolume := default "" (wl_expected_volume r); ws_DataAck := wl_data_ack r;
  ws_ModelID := default "" (wl_model_id r); ws_Source := wl_source r; ws_CreatedAt := wl_created_at r;
  ws_LastAppliedAt := wl_last_applied_at r
|}.

(** [UNIQUE NULLS NOT DISTINCT (email, model_id)]. *)
Definition same_applicant (email : string) (modelID : option string) (_ : string) (r : WaitlistRow) : bool :=
  String.eqb (wl_email r) email && bool_decide (wl_model_id r = modelID).

(** [DO UPDATE]: the answers of the new application on the row of the first one. *)
Definition reapplied (row r : WaitlistRow) : WaitlistRow :=
  r <| wl_name := wl_name row |> <| wl_use_case := wl_use_case row |>
    <| wl_expected_volume := wl_expected_volume row |> <| wl_data_ack := wl_data_ack row |>
    <| wl_source := wl_source row |> <| wl_last_applied_at := wl_last_applied_at row |>.

(** The statement, its checks, and whether the row is new. *)
Definition upsert_signup (signupID : string) (row : WaitlistRow) : St DB (WaitlistSignup * bool) :=
  db ← gets id;
  _ ← constraint (from_option (λ n, rune_count n <=? 200) true (wl_name row)) "waitlist_signups_name_check";
  _ ← constraint (from_option (λ v, existsb (String.eqb v) expectedVolumeBands) true (wl_expected_volume row))
        "waitlist_signups_expected_volume_check";
  _ ← constraint (from_option (λ m, rune_count m <=? 128) true (wl_model_id row)) "waitlist_signups_model_id_check";
  match rows_where (same_applicant (wl_email row) (wl_model_id row)) (db_waitlist_signups db) with
  | (id, r) :: _ =>
      _ ← modify (λ d, d <| db_waitlist_signups ::= <[id := reapplied row r]> |>);
      mret (signup_of id (reapplied row r), false)
  | [] =>
      _ ← constraint (fresh_key (db_waitlist_signups db) signupID) "waitlist_signups_pkey";
      _ ← modify (λ d, d <| db_waitlist_signups ::= <[signupID := row]> |>);
      mret (signup_of signupID row, true)
  end.

Definition application_row (application : WaitlistApplication) (now : Z) : WaitlistRow := {|
  wl_email := NormalizeEmail (wa_Email application);
  wl_name := null_if_empty (trim_space (wa_Name application));
  wl_use_case := null_if_empty (trim_space (wa_UseCase application));
  wl_expected_volume := null_if_empty (trim_space (wa_ExpectedVolume application));
  wl_data_ack := wa_DataAck application;
  wl_model_id := null_if_empty (trim_space (wa_ModelID application));
  wl_source := or_text (trim_space (wa_Source application)) "public_catalog";
  wl_created_at := now; wl_last_applied_at := now
|}.

Definition SubmitWaitlistApplication (application : WaitlistApplication) (now : Z) : St DB (WaitlistSignup * bool) :=
  _ ← guard_err (negb (String.eqb (NormalizeEmail (wa_Email application)) "")) (ErrMsg "email is required");
  _ ← lift_result (ValidateExpectedVolume (wa_ExpectedVolume application));
  now ← or_now now;
  signupID ← ids_New "wait";
  wrap "submit waitlist application" (upsert_signup signupID (application_row application now)).

(** ** The catalog log *)

Definition RecordManifestSync (catalogDir : string) (synced now : Z) : St DB unit :=
  now ← or_now now;
  eventID ← ids_New "audit";
  db ← gets id;
  _ ← wrap "record manifest sync audit" (
        _ ← constraint (fresh_key (db_audit_events db) eventID) "audit_events_pkey";
        modify (λ d, d <| db_audit_events ::= <[eventID := {|
          ae_actor_type := "operator"; ae_actor_id := Some defaultOperatorActor; ae_action := ActionCatalogSync;
          ae_target_type := Some "catalog"; ae_target_id := Some catalogDir;
          ae_metadata := [("catalog_dir", MvText catalogDir); ("synced", MvInt synced)];
          ae_created_at := now |}]> |>));
  RecordOperatorAction ActionCatalogSync "catalog" catalogDir "" [("synced", MvInt synced)] now.
End lower.
