(* ===== verification/OperatorReports.v ===== *)
(** * The operator store: what it reads

    The queries of [internal/coordinator/operator/store.go]: the console's overview,
    lists, details, alerts and audit log, the public status page (capacity by model,
    regions, hosts under the handles of [handle.go]) and the CSV reports. A query is a
    function of the database; [StaleAfter] and [Alerts] are the store's configuration, its
    clock is the database's. Sums are exact (the code scans them into [int64]); text is
    ordered bytewise. *)
From stdpp Require Import base gmap strings list sorting.
From Stdlib Require Import ZArith Lia Ascii.
From S2P Require Import Prelude GoStrings Float64 Sha256 Scheduler Protocol Requests Database Registration Ledger JobStore OperatorStore.

Definition defaultRecentListSize : nat := 100.
Definition staleAfter (configured : Z) : Z := if 0 <? configured then configured else 45 * second.

Definition count_rows {V} (p : string → V → bool) (tbl : gmap string V) : Z := Z.of_nat (length (rows_where p tbl)).

(** ** Who is online *)

(** The newest session of a node, whatever its state. *)
Definition last_session (db : DB) (nodeID : string) : option (string * SessionRow) :=
  latest ss_connected_at (rows_where (λ _ s, String.eqb (ss_node_id s) nodeID) (db_node_sessions db)).

Definition session_open (s : SessionRow) : bool := bool_decide (ss_state s ∈ [SsConnected; SsDraining]).

(** [ns.state IN ('connected', 'draining') AND ns.freshness >= cutoff]. *)
Definition node_online (db : DB) (cutoff : Z) (nodeID : string) : bool :=
  match last_session db nodeID with
  | Some (_, s) => session_open s && (cutoff <=? freshness s)
  | None => false
  end.

Definition onlineNodeCount (stale now : Z) (db : DB) : Z :=
  count_rows (λ k _, node_online db (now - staleAfter stale) k) (db_nodes db).

(** [NULLIF(x, '')]. *)
Definition nonempty (o : option string) : option string :=
  match o with Some s => null_if_empty s | None => None end.

(** [COALESCE(NULLIF(n.region, ''), NULLIF(f.region, ''))]. *)
Definition node_region (db : DB) (n : NodeRow) : option string :=
  match nonempty (n_region n) with
  | Some r => Some r
  | None => n_fleet_id n ≫= λ f, db_fleets db !! f ≫= λ fleet, nonempty (fl_region fleet)
  end.

(** The region of every online node that has one. *)
Definition online_regions (db : DB) (cutoff : Z) : list string :=
  omap (λ kn : string * NodeRow, if node_online db cutoff kn.1 then node_region db kn.2 else None)
    (map_to_list (db_nodes db)).

(** [sort.Strings] and [ORDER BY] on text. *)
Definition sort_strings (l : list string) : list string := stable_sort string_ltb l.

Definition regionsOnline (stale now : Z) (db : DB) : list string :=
  sort_strings (remove_dups (online_regions db (now - staleAfter stale))).

Record RegionNodeCount := { rn_Region : string; rn_NodeCount : Z }.

(** [GROUP BY effective_region]. *)
Definition regionNodeCounts (stale now : Z) (db : DB) : list RegionNodeCount :=
  let regions := online_regions db (now - staleAfter stale) in
  (λ r, {| rn_Region := r; rn_NodeCount := Z.of_nat (length (filter (λ r', r' = r) regions)) |}) <$>
    sort_strings (remove_dups regions).

(** ** Jobs *)

Definition jobStats (since : Z) (db : DB) : Z * float64 :=
  let recent p := count_rows (λ _ j, (since <=? j_created_at j) && p j) (db_jobs db) in
  let total := recent (λ _, true) in
  let terminal := recent (λ j, bool_decide (j_state j ∈ [JSucceeded; JFailed; JCancelled])) in
  let succeeded := recent (λ j, bool_decide (j_state j = JSucceeded)) in
  (total, if 0 <? terminal then fdiv (float_of_Z succeeded) (float_of_Z terminal) else float_of_Z 0).

(** [TotalMilliseconds]; the other two timings are never set. *)
Definition jobTimings (createdAt updatedAt : Z) (completedAt : option Z) : Z :=
  Z.max 0 (Z.quot (default updatedAt completedAt - createdAt) millisecond).

Record JobSummary := {
  js_ID : string; js_OrganizationID : string; js_ModelID : string; js_State : JobState; js_Priority : string;
  js_Attempts : Z; js_ErrorCode : string; js_CreatedAt : Z; js_UpdatedAt : Z; js_CompletedAt : option Z;
  js_DeadlineAt : Z; js_TotalMilliseconds : Z
}.

(** [COALESCE(finished_at, started_at, accepted_at, created_at)]. *)
Definition attempt_time (a : AttemptRow) : Z :=
  default (default (default (at_created_at a) (at_accepted_at a)) (at_started_at a)) (at_finished_at a).

(** The error of the attempt that has one and ended last. *)
Definition last_error (db : DB) (jobID : string) : string :=
  default "" (latest attempt_time (rows_where (λ k a, of_job jobID k a && bool_decide (is_Some (at_error_code a)))
                                     (db_job_attempts db)) ≫= λ ka, at_error_code ka.2).

Definition scanJobSummary (db : DB) (kj : string * JobRow) : JobSummary :=
  let '(jobID, j) := kj in
  {| js_ID := jobID; js_OrganizationID := j_organization_id j; js_ModelID := j_model_id j; js_State := j_state j;
     js_Priority := j_priority j; js_Attempts := count_rows (of_job jobID) (db_job_attempts db);
     js_ErrorCode := last_error db jobID; js_CreatedAt := j_created_at j; js_UpdatedAt := j_updated_at j;
     js_CompletedAt := j_completed_at j; js_DeadlineAt := j_deadline_at j;
     js_TotalMilliseconds := jobTimings (j_created_at j) (j_updated_at j) (j_completed_at j) |}.

Definition ListJobs (db : DB) : list JobSummary :=
  scanJobSummary db <$> take defaultRecentListSize (order_by (desc j_created_at) (map_to_list (db_jobs db))).

Record AttemptSummary := {
  as_ID : string; as_NodeID : string; as_AttemptNumber : Z; as_Status : AttemptStatus; as_ErrorCode : string;
  as_CreatedAt : Z; as_AcceptedAt : option Z; as_StartedAt : option Z; as_FinishedAt : option Z
}.

Definition by_number (a b : string * AttemptRow) : bool := at_attempt_number a.2 <? at_attempt_number b.2.

Definition jobAttempts (db : DB) (jobID : string) : list AttemptSummary :=
  (λ ka : string * AttemptRow,
     {| as_ID := ka.1; as_NodeID := default "" (at_node_id ka.2); as_AttemptNumber := at_attempt_number ka.2;
        as_Status := at_status ka.2; as_ErrorCode := default "" (at_error_code ka.2);
        as_CreatedAt := at_created_at ka.2; as_AcceptedAt := at_accepted_at ka.2;
        as_StartedAt := at_started_at ka.2; as_FinishedAt := at_finished_at ka.2 |}) <$>
    order_by by_number (rows_where (of_job jobID) (db_job_attempts db)).

Record JobDetail := { jd_Summary : JobSummary; jd_AttemptsDetail : list AttemptSummary; jd_Usage : option Usage }.

Definition JobDetail_ (jobID : string) : St DB JobDetail :=
  db ← gets id;
  j ← wrap "load job detail" (of_option ErrNoRows (db_jobs db !! jobID));
  let usage := (λ r, {| PromptTokens := res_prompt_tokens r.2; CompletionTokens := res_completion_tokens r.2;
                        TotalTokens := res_prompt_tokens r.2 + res_completion_tokens r.2 |}) <$>
    latest res_created_at (rows_where (λ _ r, String.eqb (res_job_id r) jobID && res_accepted r) (db_job_results db)) in
  mret {| jd_Summary := scanJobSummary db (jobID, j); jd_AttemptsDetail := jobAttempts db jobID; jd_Usage := usage |}.

(** ** Credit *)

Definition holds_in (p : CreditHoldRow → bool) (db : DB) : Z :=
  sum_map (λ h, if p h then ch_amount_microdollars h else 0) (db_host_credit_holds db).

Definition creditTotals (db : DB) : Z * Z :=
  (holds_in (λ h, bool_decide (ch_state h = HPending)) db, holds_in (λ h, bool_decide (ch_state h = HAvailable)) db).

Record PayoutRecord := {
  pyr_ID : string; pyr_OrganizationID : string; pyr_Status : BatchStatus; pyr_TotalMicrodollars : Z;
  pyr_CreatedAt : Z; pyr_ExportedAt : option Z; pyr_PaidAt : option Z
}.

Definition payoutBatches (db : DB) : list PayoutRecord :=
  (λ kb : string * PayoutBatchRow,
     {| pyr_ID := kb.1; pyr_OrganizationID := default "" (pb_organization_id kb.2); pyr_Status := pb_status kb.2;
        pyr_TotalMicrodollars := pb_total_microdollars kb.2; pyr_CreatedAt := pb_created_at kb.2;
        pyr_ExportedAt := pb_exported_at kb.2; pyr_PaidAt := pb_paid_at kb.2 |}) <$>
    take defaultRecentListSize (order_by (desc pb_created_at) (map_to_list (db_payout_batches db))).

(** [SUM(le.amount_microdollars) FILTER (WHERE la.account_type = $1)] over posted entries. *)
Definition posted_sum (db : DB) (accountType : string) : Z :=
  sum_map (λ e, match db_ledger_transactions db !! le_transaction_id e, db_ledger_accounts db !! le_account_id e with
                | Some lt, Some a =>
                    if bool_decide (lt_status lt = LtPosted) && String.eqb (ac_account_type a) accountType
                    then le_amount_microdollars e else 0
                | _, _ => 0
                end) (db_ledger_entries db).

Record LedgerOverview := {
  lo_CustomerCharges : Z; lo_HostPendingCredit : Z; lo_HostAvailableCredit : Z; lo_VerificationOverhead : Z;
  lo_PayoutBatches : list PayoutRecord
}.

Definition LedgerOverview_ (db : DB) : LedgerOverview :=
  let '(pending, available) := creditTotals db in
  {| lo_CustomerCharges := posted_sum db AccountCustomerUsage; lo_HostPendingCredit := pending;
     lo_HostAvailableCredit := available; lo_VerificationOverhead := posted_sum db AccountPlatformVerification;
     lo_PayoutBatches := payoutBatches db |}.

(** ** Nodes *)

(** The five newest of the errors of a node's attempts and its security events. *)
Definition recentNodeErrors (db : DB) (nodeID : string) : list string :=
  let attempts := omap (λ ka : string * AttemptRow,
    (λ e, (e, default (at_created_at ka.2) (at_finished_at ka.2))) <$> at_error_code ka.2)
    (rows_where (λ _ a, bool_decide (at_node_id a = Some nodeID)) (db_job_attempts db)) in
  let events := (λ ke : string * SecurityEventRow, (se_row_event_type ke.2, se_row_created_at ke.2)) <$>
    rows_where (λ _ e, String.eqb (se_row_node_id e) nodeID) (db_security_events db) in
  (take 5 (order_by (desc id) (filter (λ e, e.1 ≠ "") (attempts ++ events)))).*1.

Record NodeReputation := {
  nrp_TotalAcceptedJobs : Z; nrp_RollingSuccessRate : float64; nrp_TimeoutRate : float64; nrp_HashMismatchCount : Z;
  nrp_ChallengePassRate : float64; nrp_DuplicateDisagreementRate : float64; nrp_SessionStability : float64;
  nrp_LastQuarantineReason : string
}.

Definition rate_float (r : Z) : float64 := float_of_ratio r 10000.

Definition node_reputation (rep : option ReputationRow) : NodeReputation := {|
  nrp_TotalAcceptedJobs := from_option rp_total_accepted_jobs 0 rep;
  nrp_RollingSuccessRate := rate_float (from_option rp_rolling_success_rate 0 rep);
  nrp_TimeoutRate := rate_float (from_option rp_timeout_rate 0 rep);
  nrp_HashMismatchCount := from_option rp_hash_mismatch_count 0 rep;
  nrp_ChallengePassRate := rate_float (from_option rp_challenge_pass_rate 0 rep);
  nrp_DuplicateDisagreementRate := rate_float (from_option rp_duplicate_disagreement_rate 0 rep);
  nrp_SessionStability := rate_float (from_option rp_session_stability 0 rep);
  nrp_LastQuarantineReason := default "" (rep ≫= rp_last_quarantine_reason)
|}.

Record ConsoleNode := {
  cn_ID : string; cn_OrganizationID : string; cn_FleetID : string; cn_FleetName : string; cn_Region : string;
  cn_State : string; cn_CurrentModelID : string; cn_QuarantinedAt : option Z; cn_LastSeenAt : option Z;
  cn_SessionStatus : option SessionState; cn_LastHeartbeatAt : option Z; cn_LastHeartbeatAgeSeconds : option Z;
  cn_ScheduleState : string; cn_ThermalState : string; cn_Paused : bool; cn_Draining : bool; cn_GPU : GPUStatus;
  cn_Reputation : NodeReputation; cn_RecentErrors : list string
}.

(** One row of [Store.ListNodes]; no session is the status ['none']. *)
Definition console_node (now : Z) (db : DB) (kn : string * NodeRow) : ConsoleNode :=
  let '(k, n) := kn in
  let fleet := n_fleet_id n ≫= λ f, db_fleets db !! f in
  let session := snd <$> last_session db k in
  let hb := snd <$> latest hr_received_at (rows_where (λ _ h, String.eqb (hr_node_id h) k) (db_node_heartbeats db)) in
  let lastHeartbeat := session ≫= ss_last_heartbeat_at in
  {| cn_ID := k; cn_OrganizationID := default "" (n_organization_id n); cn_FleetID := default "" (n_fleet_id n);
     cn_FleetName := default "" (fl_name <$> fleet); cn_Region := default "" (node_region db n);
     cn_State := n_state n; cn_CurrentModelID := default "" (n_current_model_id n);
     cn_QuarantinedAt := n_quarantined_at n; cn_LastSeenAt := n_last_seen_at n;
     cn_SessionStatus := ss_state <$> session; cn_LastHeartbeatAt := lastHeartbeat;
     cn_LastHeartbeatAgeSeconds := (λ t, Z.max 0 (Z.quot (now - t) second)) <$> lastHeartbeat;
     cn_ScheduleState := default "" (hr_schedule_state <$> hb);
     cn_ThermalState := default "" (hr_thermal_state <$> hb); cn_Paused := default false (hr_paused <$> hb);
     cn_Draining := default false (hr_draining <$> hb); cn_GPU := default empty_GPUStatus (hr_gpu <$> hb);
     cn_Reputation := node_reputation (db_node_reputation db !! k); cn_RecentErrors := recentNodeErrors db k |}.

Definition op_ListNodes (db : DB) : list ConsoleNode :=
  console_node (db_now db) db <$> order_by by_key (map_to_list (db_nodes db)).

Definition NodeDetail (nodeID : string) : St DB ConsoleNode :=
  db ← gets id;
  of_option (ErrMsg ("node " +:+ nodeID +:+ " not found")) (head (filter (λ n, cn_ID n = nodeID) (op_ListNodes db))).

(** ** Models and alerts *)

Record HardwareProfile := {
  hp_HardwareClass : string; hp_MinVRAMMB : Z; hp_MinRAMMB : Z; hp_TokensPerSecond : float64; hp_MaxContextTokens : Z
}.

Definition hundredths (r : Z) : float64 := float_of_ratio r 100.

Definition by_class (a b : string * HardwareProfileRow) : bool := string_ltb (mh_hardware_class a.2) (mh_hardware_class b.2).

Definition hardwareProfiles (db : DB) (modelID : string) : list HardwareProfile :=
  (λ kp : string * HardwareProfileRow,
     {| hp_HardwareClass := mh_hardware_class kp.2; hp_MinVRAMMB := mh_min_vram_mb kp.2;
        hp_MinRAMMB := mh_min_ram_mb kp.2; hp_TokensPerSecond := hundredths (default 0 (mh_tokens_per_second kp.2));
        hp_MaxContextTokens := mh_max_context_tokens kp.2 |}) <$>
    order_by by_class (rows_where (λ _ p, match db_model_versions db !! mh_model_version_id p with
                                          | Some v => String.eqb (mv_model_id v) modelID
                                          | None => false
                                          end) (db_model_hardware_profiles db)).

Record ModelSummary := {
  ms_ID : string; ms_DisplayName : string; ms_Status : string; ms_DataClass : string; ms_Version : string;
  ms_CatalogStatus : string; ms_Capabilities : list string; ms_Pricing : ModelPricing; ms_PriceVersion : string;
  ms_AvailableNodes : Z; ms_HardwareProfiles : list HardwareProfile
}.

Definition summary_step (acc : list ModelSummary) (model : ModelInfo) : St DB (list ModelSummary) :=
  db ← gets id;
  m ← wrap "load model status" (of_option ErrNoRows (db_models db !! mi_ID model));
  mret (acc ++ [{| ms_ID := mi_ID model; ms_DisplayName := mi_DisplayName model; ms_Status := md_status m;
                   ms_DataClass := mi_DataClass model; ms_Version := mi_Version model; ms_CatalogStatus := md_status m;
                   ms_Capabilities := mi_Capabilities model; ms_Pricing := mi_Pricing model;
                   ms_PriceVersion := PriceVersion (mi_Verification model);
                   ms_AvailableNodes := mi_AvailableNodes model;
                   ms_HardwareProfiles := hardwareProfiles db (mi_ID model) |}]).

Definition op_ListModels (stale : Z) : St DB (list ModelSummary) :=
  now ← sql_now;
  modelInfos ← ListModels (now - staleAfter stale);
  fold_st summary_step [] modelInfos.

Record AlertConfig := {
  al_DisconnectSpikeWindow : Z; al_DisconnectSpikeThreshold : Z; al_JobFailureWindow : Z;
  al_JobFailureRateThreshold : float64; al_RuntimeCrashWindow : Z; al_RuntimeCrashThreshold : Z;
  al_OverTempWindow : Z; al_NoCapacityWindow : Z; al_AuthAnomalyWindow : Z; al_AuthAnomalyThreshold : Z;
  al_LedgerImbalanceCheck : bool; al_NoCapacityForModelEnabled : bool
}.

Definition DefaultAlertConfig : AlertConfig := {|
  al_DisconnectSpikeWindow := 15 * minute; al_DisconnectSpikeThreshold := 3; al_JobFailureWindow := hour;
  al_JobFailureRateThreshold := float_of_ratio 1 4; al_RuntimeCrashWindow := 15 * minute;
  al_RuntimeCrashThreshold := 3; al_OverTempWindow := hour; al_NoCapacityWindow := hour;
  al_AuthAnomalyWindow := 15 * minute; al_AuthAnomalyThreshold := 5; al_LedgerImbalanceCheck := true;
  al_NoCapacityForModelEnabled := true
|}.

Definition fzero : float64 := float_of_Z 0.

(** [if cfg.X <= 0 { cfg.X = defaults.X }] for every window and threshold; the two checks
    are always on. *)
Definition alertConfig (cfg : AlertConfig) : AlertConfig :=
  let d := DefaultAlertConfig in
  {| al_DisconnectSpikeWindow := default_pos (al_DisconnectSpikeWindow cfg) (al_DisconnectSpikeWindow d);
     al_DisconnectSpikeThreshold := default_pos (al_DisconnectSpikeThreshold cfg) (al_DisconnectSpikeThreshold d);
     al_JobFailureWindow := default_pos (al_JobFailureWindow cfg) (al_JobFailureWindow d);
     al_JobFailureRateThreshold := if fle (al_JobFailureRateThreshold cfg) fzero
                                   then al_JobFailureRateThreshold d else al_JobFailureRateThreshold cfg;
     al_RuntimeCrashWindow := default_pos (al_RuntimeCrashWindow cfg) (al_RuntimeCrashWindow d);
     al_RuntimeCrashThreshold := default_pos (al_RuntimeCrashThreshold cfg) (al_RuntimeCrashThreshold d);
     al_OverTempWindow := default_pos (al_OverTempWindow cfg) (al_OverTempWindow d);
     al_NoCapacityWindow := default_pos (al_NoCapacityWindow cfg) (al_NoCapacityWindow d);
     al_AuthAnomalyWindow := default_pos (al_AuthAnomalyWindow cfg) (al_AuthAnomalyWindow d);
     al_AuthAnomalyThreshold := default_pos (al_AuthAnomalyThreshold cfg) (al_AuthAnomalyThreshold d);
     al_LedgerImbalanceCheck := al_LedgerImbalanceCheck cfg || al_LedgerImbalanceCheck d;
     al_NoCapacityForModelEnabled := al_NoCapacityForModelEnabled cfg || al_NoCapacityForModelEnabled d |}.

(** [cfg == (AlertConfig{})]. *)
Definition zero_config (cfg : AlertConfig) : bool :=
  forallb (Z.eqb 0) [al_DisconnectSpikeWindow cfg; al_DisconnectSpikeThreshold cfg; al_JobFailureWindow cfg;
    al_RuntimeCrashWindow cfg; al_RuntimeCrashThreshold cfg; al_OverTempWindow cfg; al_NoCapacityWindow cfg;
    al_AuthAnomalyWindow cfg; al_AuthAnomalyThreshold cfg] &&
  feq (al_JobFailureRateThreshold cfg) fzero && negb (al_LedgerImbalanceCheck cfg) &&
  negb (al_NoCapacityForModelEnabled cfg).

Record AlertCounts := {
  co_Disconnects : Z; co_JobsTotal : Z; co_JobsFailed : Z; co_HashMismatches : Z; co_RuntimeCrashes : Z;
  co_OverTemps : Z; co_LedgerImbalances : Z; co_AuthAnomalies : Z; co_NoCapacityModels : list string
}.

Inductive AlertValue := AvInt (n : Z) | AvText (s : string) | AvFloat (x : float64).
Record Alert := {
  alr_Code : string; alr_Severity : string; alr_Message : string; alr_Metadata : list (string * AlertValue);
  alr_CreatedAt : Z
}.

Definition alert_if (b : bool) (a : Alert) : list Alert := if b then [a] else [].

Definition BuildAlerts (counts : AlertCounts) (cfg : AlertConfig) (now : Z) : list Alert :=
  let cfg := if zero_config cfg then DefaultAlertConfig else cfg in
  let alert code severity message metadata :=
    {| alr_Code := code; alr_Severity := severity; alr_Message := message; alr_Metadata := metadata;
       alr_CreatedAt := now |} in
  let rate := fdiv (float_of_Z (co_JobsFailed counts)) (float_of_Z (co_JobsTotal counts)) in
  alert_if ((al_DisconnectSpikeThreshold cfg <=? co_Disconnects counts) && (0 <? al_DisconnectSpikeThreshold cfg))
    (alert "node_disconnect_spike" "warning" "Node disconnect spike detected."
       [("disconnects", AvInt (co_Disconnects counts))]) ++
  alert_if ((0 <? co_JobsTotal counts) && flt fzero (al_JobFailureRateThreshold cfg) &&
            fle (al_JobFailureRateThreshold cfg) rate)
    (alert "job_failure_rate" "warning" "Job failure rate is above threshold."
       [("failed", AvInt (co_JobsFailed counts)); ("total", AvInt (co_JobsTotal counts)); ("rate", AvFloat rate)]) ++
  alert_if (0 <? co_HashMismatches counts)
    (alert "hash_mismatch" "critical" "Hash mismatch events require review."
       [("count", AvInt (co_HashMismatches counts))]) ++
  alert_if ((al_RuntimeCrashThreshold cfg <=? co_RuntimeCrashes counts) && (0 <? al_RuntimeCrashThreshold cfg))
    (alert "runtime_crash_loop" "critical" "Runtime crash loop detected."
       [("count", AvInt (co_RuntimeCrashes counts))]) ++
  alert_if (0 <? co_OverTemps counts)
    (alert "gpu_over_temp" "warning" "GPU over-temperature safety event recorded."
       [("count", AvInt (co_OverTemps counts))]) ++
  alert_if (0 <? co_LedgerImbalances counts)
    (alert "ledger_imbalance" "critical" "Posted ledger transaction imbalance detected."
       [("count", AvInt (co_LedgerImbalances counts))]) ++
  alert_if ((al_AuthAnomalyThreshold cfg <=? co_AuthAnomalies counts) && (0 <? al_AuthAnomalyThreshold cfg))
    (alert "auth_anomaly" "warning" "Authentication anomaly threshold exceeded."
       [("count", AvInt (co_AuthAnomalies counts))]) ++
  ((λ modelID, alert "no_capacity" "warning" "Published model has no available nodes."
      [("model_id", AvText modelID)]) <$> co_NoCapacityModels counts).

Definition security_events_since (types : list string) (since : Z) (db : DB) : Z :=
  count_rows (λ _ e, existsb (String.eqb (se_row_event_type e)) types && (since <=? se_row_created_at e))
    (db_security_events db).

(** Posted transactions whose entries do not sum to zero. *)
Definition ledger_imbalances (db : DB) : Z :=
  count_rows (λ k lt, bool_decide (lt_status lt = LtPosted) && negb (tx_balance db k =? 0)) (db_ledger_transactions db).

(** [state IN ('closed', 'stale') AND disconnected_at >= $1]. *)
Definition disconnected_since (since : Z) (s : SessionRow) : bool :=
  bool_decide (ss_state s ∈ [SsClosed; SsStale]) && from_option (λ t, since <=? t) false (ss_disconnected_at s).

Definition AlertsList (stale : Z) (alerts : AlertConfig) : St DB (list Alert) :=
  let cfg := alertConfig alerts in
  now ← sql_now;
  db ← gets id;
  let disconnects := count_rows (λ _, disconnected_since (now - al_DisconnectSpikeWindow cfg)) (db_node_sessions db) in
  let recent p := count_rows (λ _ j, (now - al_JobFailureWindow cfg <=? j_created_at j) && p j) (db_jobs db) in
  let hashMismatches := count_rows (λ _ a,
    from_option (λ e, contains e "hash_mismatch" || contains e "hash mismatch") false (at_error_code a))
    (db_job_attempts db) in
  noCapacity ← (if al_NoCapacityForModelEnabled cfg then
      models ← op_ListModels stale;
      mret (ms_ID <$> filter (λ m, (ms_Status m = "alpha" ∨ ms_Status m = "active") ∧ ms_AvailableNodes m = 0) models)
    else mret []);
  mret (BuildAlerts {|
    co_Disconnects := disconnects; co_JobsTotal := recent (λ _, true);
    co_JobsFailed := recent (λ j, bool_decide (j_state j = JFailed)); co_HashMismatches := hashMismatches;
    co_RuntimeCrashes := security_events_since ["runtime_crash"; "runtime_crash_loop"] (now - al_RuntimeCrashWindow cfg) db;
    co_OverTemps := security_events_since ["over_temperature"; "thermal_hard_limit"] (now - al_OverTempWindow cfg) db;
    co_LedgerImbalances := if al_LedgerImbalanceCheck cfg then ledger_imbalances db else 0;
    co_AuthAnomalies := security_events_since ["auth_anomaly"; "operator_auth_failed"] (now - al_AuthAnomalyWindow cfg) db;
    co_NoCapacityModels := noCapacity |} cfg now).

Record Overview := {
  ov_OnlineNodes : Z; ov_AvailableByModel : list (string * Z); ov_JobsPerHour : Z; ov_SuccessRate : float64;
  ov_PendingHostCredit : Z; ov_AvailableHostCredit : Z; ov_ActiveAlerts : list Alert
}.

Definition Overview_ (stale : Z) (alerts : AlertConfig) : St DB Overview :=
  now ← sql_now;
  db ← gets id;
  let '(jobsPerHour, successRate) := jobStats (now - hour) db in
  let '(pending, available) := creditTotals db in
  models ← op_ListModels stale;
  active ← AlertsList stale alerts;
  mret {| ov_OnlineNodes := onlineNodeCount stale now db;
          ov_AvailableByModel := (λ m, (ms_ID m, ms_AvailableNodes m)) <$> models; ov_JobsPerHour := jobsPerHour;
          ov_SuccessRate := successRate; ov_PendingHostCredit := pending; ov_AvailableHostCredit := available;
          ov_ActiveAlerts := active |}.

(** ** The audit log *)

Record OperatorAction := {
  opa_ID : string; opa_Action : string; opa_TargetType : string; opa_TargetID : string; opa_Reason : string;
  opa_Metadata : list (string * MetaValue); opa_CreatedAt : Z
}.

Definition operatorActions (db : DB) : list OperatorAction :=
  (λ ka : string * OperatorActionRow,
     {| opa_ID := ka.1; opa_Action := oc_action ka.2; opa_TargetType := oc_target_type ka.2;
        opa_TargetID := oc_target_id ka.2; opa_Reason := default "" (oc_reason ka.2);
        opa_Metadata := oc_metadata ka.2; opa_CreatedAt := oc_created_at ka.2 |}) <$>
    take defaultRecentListSize (order_by (desc oc_created_at) (map_to_list (db_operator_actions db))).

(** The coordinator writes no organization on a security event. *)
Record SecurityEvent := {
  sev_ID : string; sev_Severity : string; sev_EventType : string; sev_NodeID : string;
  sev_Metadata : NodeSafetyEventPayload; sev_CreatedAt : Z
}.

Definition securityEvents (db : DB) : list SecurityEvent :=
  (λ ke : string * SecurityEventRow,
     {| sev_ID := ke.1; sev_Severity := se_row_severity ke.2; sev_EventType := se_row_event_type ke.2;
        sev_NodeID := se_row_node_id ke.2; sev_Metadata := se_row_metadata ke.2;
        sev_CreatedAt := se_row_created_at ke.2 |}) <$>
    take defaultRecentListSize (order_by (desc se_row_created_at) (map_to_list (db_security_events db))).

Record AuditEvent := {
  aue_ID : string; aue_ActorType : string; aue_ActorID : string; aue_Action : string; aue_TargetType : string;
  aue_TargetID : string; aue_Metadata : list (string * MetaValue); aue_CreatedAt : Z
}.

(** [action LIKE 'catalog.%' OR target_type IN (...)]. *)
Definition manifest_event (_ : string) (e : AuditEventRow) : bool :=
  has_prefix (ae_action e) "catalog." ||
  from_option (λ t, existsb (String.eqb t) ["catalog"; "model_manifest"; "model"]) false (ae_target_type e).

Definition manifestAuditEvents (db : DB) : list AuditEvent :=
  (λ ke : string * AuditEventRow,
     {| aue_ID := ke.1; aue_ActorType := ae_actor_type ke.2; aue_ActorID := default "" (ae_actor_id ke.2);
        aue_Action := ae_action ke.2; aue_TargetType := default "" (ae_target_type ke.2);
        aue_TargetID := default "" (ae_target_id ke.2); aue_Metadata := ae_metadata ke.2;
        aue_CreatedAt := ae_created_at ke.2 |}) <$>
    take defaultRecentListSize (order_by (desc ae_created_at) (rows_where manifest_event (db_audit_events db))).

Record AuditLog := {
  adl_OperatorActions : list OperatorAction; adl_SecurityEvents : list SecurityEvent;
  adl_ManifestChanges : list AuditEvent
}.

Definition Audit (db : DB) : AuditLog := {|
  adl_OperatorActions := operatorActions db; adl_SecurityEvents := securityEvents db;
  adl_ManifestChanges := manifestAuditEvents db
|}.

(** ** Public capacity of a model *)

Record publicModelCapacity := { pc_availableNodes : Z; pc_freshNodes : Z; pc_regions : list string }.

Definition hasSupply (c : publicModelCapacity) : bool := (0 <? pc_availableNodes c) || (0 <? pc_freshNodes c).

Definition AvailabilityAvailable := "available".
Definition AvailabilityLimited := "limited".
Definition AvailabilityOffline := "offline".
Definition AvailabilityWaitlist := "waitlist".

Definition capacity_state (c : publicModelCapacity) : string :=
  if 0 <? pc_availableNodes c then AvailabilityAvailable
  else if 0 <? pc_freshNodes c then AvailabilityLimited
  else AvailabilityOffline.

(** The newest session of a node that is connected or draining. *)
Definition open_session (db : DB) (nodeID : string) : option (string * SessionRow) :=
  latest ss_connected_at (rows_where (λ _ s, String.eqb (ss_node_id s) nodeID && session_open s) (db_node_sessions db)).

(** The heartbeat reports the file and a runtime of the version. *)
Definition serves_version (db : DB) (file : string * (ModelVersionRow * ModelArtifactRow)) (h : HeartbeatRow) : bool :=
  bool_decide (hr_model_hash h = Some (sha_tag (ma_sha256 file.2.2))) &&
  runtime_matches db file.2.1 (hr_runtime_hash h).

(** One row of the query: the node is fresh with this version; its region and whether it
    is free to serve. *)
Definition capacity_row (db : DB) (modelID : string) (cutoff : Z)
    (file : string * (ModelVersionRow * ModelArtifactRow)) (kn : string * NodeRow) : option (string * bool) :=
  let '(k, n) := kn in
  s ← open_session db k;
  h ← node_heartbeat db k s.1;
  if bool_decide (n_current_model_id n = Some modelID) && (cutoff <=? freshness s.2) && serves_version db file h
  then Some (default "" (node_region db n),
             String.eqb (n_state n) "AVAILABLE" && bool_decide (ss_state s.2 = SsConnected) &&
             bool_decide (n_quarantined_at n = None) && heartbeat_ready h && serves_version db file h &&
             negb (node_busy db k))
  else None.

Definition capacity_rows (db : DB) (modelID : string) (cutoff : Z) : list (string * bool) :=
  match latest (λ f, mv_created_at (fst f)) (model_files db modelID) with
  | None => []
  | Some file => omap (capacity_row db modelID cutoff file) (map_to_list (db_nodes db))
  end.

Definition publicModelCapacity_ (modelID : string) (freshnessCutoff : Z) (db : DB) : publicModelCapacity :=
  let rows := capacity_rows db modelID freshnessCutoff in
  let eligible := filter (λ r, r.2 = true) rows in
  {| pc_availableNodes := Z.of_nat (length eligible); pc_freshNodes := Z.of_nat (length rows);
     pc_regions := sort_strings (remove_dups (filter (λ r, r ≠ "") eligible.*1)) |}.

(** ** Public models *)

Definition fsub (x y : float64) : float64 := fadd x (fmul (float_of_Z (-1)) y).

(** [percentile_cont(0.5)] of values in order: the middle one, or half way between the two. *)
Definition median (l : list float64) : option float64 :=
  let l := stable_sort flt l in
  let n := length l in
  match l !! ((n - 1) / 2)%nat, l !! (n / 2)%nat with
  | Some lo, Some hi => Some (if Nat.even n then fadd lo (fmul (float_of_ratio 1 2) (fsub hi lo)) else lo)
  | _, _ => None
  end.

Definition result_millis (r : ResultRow) : Z := Z.max (res_coordinator_duration_millis r) (res_duration_millis r).

Definition medianOutputTokensPerSecond (modelID : string) (since : Z) (db : DB) : option float64 :=
  median ((λ kr : string * ResultRow,
             fdiv (float_of_Z (res_completion_tokens kr.2)) (fdiv (float_of_Z (result_millis kr.2)) (float_of_Z 1000))) <$>
    rows_where (λ _ r, match db_jobs db !! res_job_id r with
                       | Some j => String.eqb (j_model_id j) modelID
                       | None => false
                       end && res_accepted r && (since <=? res_created_at r) && (0 <? res_completion_tokens r) &&
                       (0 <? result_millis r)) (db_job_results db)).

(** [decoded] is the set of names the JSON object maps to [true]. *)
Definition publicCapabilities (decoded : list string) : list string := sort_strings (remove_dups decoded).

Record PublicModelStatus := {
  pm_ModelID : string; pm_DisplayName : string; pm_Description : string; pm_ListingStatus : string;
  pm_Capabilities : list string; pm_InputPrice : Z; pm_OutputPrice : Z;
  pm_MarketComparison : option (Z * Z * string); pm_Attribution : option (string * string * string * string);
  pm_DataClass : string; pm_ContextTokens : Z; pm_MaxOutputTokens : Z; pm_AvailableNodes : Z; pm_State : string;
  pm_TypicalSpeed : option float64; pm_ExpectedSpeed : option float64; pm_Regions : list string; pm_Version : string
}.

(** One row of the query, and the capacity it is shown with. *)
Definition public_model (stale now : Z) (db : DB) (row : string * ModelRow * (string * ModelVersionRow)) : PublicModelStatus :=
  let '(modelID, m, (vID, v)) := row in
  let l := md_listing m in
  let price := snd <$> latest mp_effective_from
    (rows_where (λ _ p, String.eqb (mp_model_version_id p) vID) (db_model_prices db)) in
  let limits := db_model_manifest_limits db !! modelID in
  let capacity := publicModelCapacity_ modelID (now - staleAfter stale) db in
  let waitlisted := String.eqb (ls_listing_status l) "waitlist" && negb (hasSupply capacity) in
  {| pm_ModelID := modelID; pm_DisplayName := md_display_name m;
     pm_Description := or_text (default "" (ls_description l)) (md_display_name m);
     pm_ListingStatus := ls_listing_status l;
     pm_Capabilities := publicCapabilities (from_option ml_capabilities [] limits);
     pm_InputPrice := from_option mp_customer_input_per_million_microdollars 0 price;
     pm_OutputPrice := from_option mp_customer_output_per_million_microdollars 0 price;
     pm_MarketComparison :=
       match ls_market_typical_input_per_million_microdollars l, ls_market_typical_output_per_million_microdollars l with
       | Some i, Some o => Some (i, o, default "" (ls_market_comparison_source_note l))
       | _, _ => None
       end;
     pm_Attribution :=
       if String.eqb (default "" (ls_attribution_display_text l)) "" then None
       else Some (default "" (ls_attribution_display_text l), default "" (ls_attribution_notice_text l),
                  default "" (ls_attribution_license_url l), default "" (ls_attribution_aup_url l));
     pm_DataClass := md_data_class m; pm_ContextTokens := from_option ml_max_input_tokens 4096 limits;
     pm_MaxOutputTokens := from_option ml_max_output_tokens 1024 limits;
     pm_AvailableNodes := if waitlisted then 0 else pc_availableNodes capacity;
     pm_State := if waitlisted then AvailabilityWaitlist else capacity_state capacity;
     pm_TypicalSpeed := if waitlisted then None else medianOutputTokensPerSecond modelID (now - 24 * hour) db;
     pm_ExpectedSpeed := if waitlisted then hundredths <$> ls_expected_output_tokens_per_second l else None;
     pm_Regions := if waitlisted then [] else pc_regions capacity; pm_Version := mv_version v |}.

(** [ORDER BY (m.listing_status = 'waitlist'), m.id]. *)
Definition by_listing (a b : string * ModelRow * (string * ModelVersionRow)) : bool :=
  let waitlist (x : string * ModelRow * (string * ModelVersionRow)) := String.eqb (ls_listing_status (md_listing x.1.2)) "waitlist" in
  (negb (waitlist a) && waitlist b) || (Bool.eqb (waitlist a) (waitlist b) && string_ltb a.1.1 b.1.1).

Definition publicModels (stale now : Z) (db : DB) : list PublicModelStatus :=
  public_model stale now db <$>
    stable_sort by_listing (filter (λ row, ls_listing_status (md_listing row.1.2) ≠ "hidden") (listed_models db)).

(** ** Public hosts *)

Definition handleAdjectives : list string :=
  ["amber"; "arctic"; "ashen"; "auburn"; "azure"; "basalt"; "bronze"; "cedar";
   "cobalt"; "copper"; "coral"; "crimson"; "dusk"; "eastern"; "ember"; "fern";
   "flint"; "frost"; "garnet"; "gilded"; "glacier"; "granite"; "harbor"; "hazel";
   "indigo"; "ivory"; "jade"; "lunar"; "maple"; "marble"; "midnight"; "moss";
   "nimbus"; "northern"; "ochre"; "onyx"; "opal"; "pewter"; "quartz"; "quiet";
   "rowan"; "russet"; "sable"; "sandy"; "scarlet"; "sienna"; "silent"; "silver";
   "slate"; "solar"; "southern"; "spruce"; "steel"; "stone"; "teal"; "thistle";
   "tidal"; "topaz"; "umber"; "velvet"; "verdant"; "western"; "willow"; "winter"].

Definition handleAnimals : list string :=
  ["albatross"; "badger"; "bison"; "bittern"; "buzzard"; "caribou"; "chamois"; "cormorant";
   "crane"; "curlew"; "dipper"; "dormouse"; "eagle"; "egret"; "falcon"; "finch";
   "fox"; "gannet"; "gecko"; "godwit"; "grebe"; "harrier"; "heron"; "ibex";
   "ibis"; "jackal"; "jaguar"; "kestrel"; "kingfisher"; "kite"; "lapwing"; "lark";
   "lynx"; "marten"; "merlin"; "mink"; "moorhen"; "osprey"; "otter"; "owl";
   "panther"; "petrel"; "pika"; "plover"; "puffin"; "quail"; "raven"; "redshank";
   "rook"; "seal"; "shrike"; "siskin"; "sparrow"; "stoat"; "swift"; "tapir";
   "teal"; "tern"; "vireo"; "viper"; "vulture"; "walrus"; "weasel"; "wren"].

(** [binary.BigEndian.Uint16]. *)
Definition uint16 (l : list Z) : Z := nth 0 l 0 * 256 + nth 1 l 0.

(** The handle of a node: an adjective and an animal chosen by the hash of its id. *)
Definition HostHandle (nodeID : string) : string :=
  let sum := sum256 (string_bytes nodeID) in
  nth (Z.to_nat (uint16 (take 2 sum) mod 64)) handleAdjectives "" +:+ "-" +:+
  nth (Z.to_nat (uint16 (take 2 (drop 2 sum)) mod 64)) handleAnimals "".

Definition HostStateServing := "serving".
Definition HostStateIdle := "idle".
Definition HostStateOffline := "offline".

Definition publicHostState (nodeState : string) (sessionState : SessionState) (fresh : bool) : string :=
  if negb fresh || negb (bool_decide (sessionState ∈ [SsConnected; SsDraining])) then HostStateOffline
  else if String.eqb nodeState "BUSY" then HostStateServing
  else HostStateIdle.

Record PublicHostStatus := {
  ph_Handle : string; ph_Region : string; ph_State : string; ph_Jobs24h : Z; ph_Credited24h : Z; ph_CreditedTotal : Z
}.

(** The credit of a node that was not reversed. *)
Definition node_credit (nodeID : string) (h : CreditHoldRow) : bool :=
  String.eqb (ch_node_id h) nodeID && negb (bool_decide (ch_state h = HReversed)).

Definition credited_total (db : DB) (nodeID : string) : Z := holds_in (node_credit nodeID) db.

(** A row of the query: the node with its newest session and what it has earned. *)
Definition host_row (db : DB) (since : Z) (kn : string * NodeRow) : option (string * NodeRow * SessionRow * Z) :=
  s ← snd <$> last_session db kn.1;
  let total := credited_total db kn.1 in
  if (since <=? freshness s) && ((0 <? total) || bool_decide (ss_state s = SsConnected))
  then Some (kn, s, total) else None.

(** [ORDER BY credited_total DESC, n.id]. *)
Definition by_credit (a b : string * NodeRow * SessionRow * Z) : bool :=
  (b.2 <? a.2) || ((a.2 =? b.2) && string_ltb a.1.1.1 b.1.1.1).

Definition public_host (stale now : Z) (db : DB) (row : string * NodeRow * SessionRow * Z) : PublicHostStatus :=
  let '(k, n, s, total) := row in
  let recent h := node_credit k h && (now - 24 * hour <=? ch_created_at h) in
  {| ph_Handle := HostHandle k; ph_Region := default "" (node_region db n);
     ph_State := publicHostState (n_state n) (ss_state s) (now - staleAfter stale <=? freshness s);
     ph_Jobs24h := count_rows (λ _, recent) (db_host_credit_holds db);
     ph_Credited24h := holds_in recent db; ph_CreditedTotal := total |}.

Definition publicHosts (stale now : Z) (db : DB) : list PublicHostStatus :=
  public_host stale now db <$>
    stable_sort by_credit (omap (host_row db (now - 24 * hour)) (map_to_list (db_nodes db))).

(** ** The public status *)

Record PublicStatus := {
  pst_ConnectedNodeCount : Z; pst_ModelsAvailable : list (string * Z); pst_Models : list PublicModelStatus;
  pst_RegionsOnline : list string; pst_RegionNodeCounts : list RegionNodeCount; pst_Hosts : list PublicHostStatus;
  pst_JobsCompleted24h : Z; pst_JobsCompletedTotal : Z; pst_OutputTokensServed24h : Z; pst_OutputTokensServedTotal : Z;
  pst_GPUHoursReused : float64; pst_GPUHoursReused24h : float64; pst_GeneratedAt : Z
}.

Definition accepted_sum (db : DB) (since : option Z) (f : ResultRow → Z) : Z :=
  sum_map (λ r, if res_accepted r && from_option (λ t, t <=? res_created_at r) true since then f r else 0)
    (db_job_results db).

Definition PublicStatus_ (stale now : Z) : St DB PublicStatus :=
  now ← or_now now;
  db ← gets id;
  let models := publicModels stale now db in
  let day := now - 24 * hour in
  let succeeded p := count_rows (λ _ j, bool_decide (j_state j = JSucceeded) && p j) (db_jobs db) in
  let hours since := fdiv (float_of_Z (accepted_sum db since result_millis)) (float_of_Z 3600000) in
  mret {| pst_ConnectedNodeCount := onlineNodeCount stale now db;
          pst_ModelsAvailable := (λ m, (pm_ModelID m, pm_AvailableNodes m)) <$> models; pst_Models := models;
          pst_RegionsOnline := regionsOnline stale now db; pst_RegionNodeCounts := regionNodeCounts stale now db;
          pst_Hosts := publicHosts stale now db;
          pst_JobsCompleted24h := succeeded (λ j, from_option (λ t, day <=? t) false (j_completed_at j));
          pst_JobsCompletedTotal := succeeded (λ _, true);
          pst_OutputTokensServed24h := accepted_sum db (Some day) res_completion_tokens;
          pst_OutputTokensServedTotal := accepted_sum db None res_completion_tokens;
          pst_GPUHoursReused := hours None; pst_GPUHoursReused24h := hours (Some day); pst_GeneratedAt := now |}.

(** ** Reports *)

(** [LEFT JOIN]: the matching rows, or one row of nulls. *)
Definition left_join {A} (rows : list A) : list (option A) :=
  match rows with [] => [None] | _ => Some <$> rows end.

Definition sum_option {A} (f : A → Z) (rows : list (option A)) : Z := sum_list (from_option f 0) rows.

Record ContributionCard := {
  cc_NodeID : string; cc_NodeName : string; cc_NightsActive : Z; cc_JobsAccepted : Z; cc_TokensServed : Z;
  cc_CreditEarnedMicrodollars : Z; cc_GeneratedAt : Z
}.

Definition results_of (db : DB) (attemptID : string) : list ResultRow :=
  (rows_where (λ _ r, String.eqb (res_attempt_id r) attemptID && res_accepted r) (db_job_results db)).*2.
Definition holds_of (db : DB) (attemptID : string) : list CreditHoldRow :=
  (rows_where (λ _ h, String.eqb (ch_attempt_id h) attemptID) (db_host_credit_holds db)).*2.

(** The joined rows of a node's succeeded attempts. *)
Definition card_rows (db : DB) (nodeID : string) : list (string * option ResultRow * option CreditHoldRow) :=
  ka ← rows_where (λ _ a, bool_decide (at_node_id a = Some nodeID) && bool_decide (at_status a = ASucceeded))
         (db_job_attempts db);
  r ← left_join (results_of db (fst ka));
  h ← left_join (holds_of db (fst ka));
  [(fst ka, r, h)].

Definition ContributionCard_ (nodeID : string) (now : Z) : St DB ContributionCard :=
  let nodeID := trim_space nodeID in
  _ ← guard_err (negb (String.eqb nodeID "")) (ErrMsg "node id is required");
  now ← or_now now;
  db ← gets id;
  _ ← guard_err (has_key (db_nodes db) nodeID) (ErrMsg ("node " +:+ nodeID +:+ " not found"));
  let nights := (λ s : string * SessionRow, ss_connected_at s.2 / (24 * hour)) <$>
    rows_where (λ _ s, String.eqb (ss_node_id s) nodeID) (db_node_sessions db) in
  let rows := card_rows db nodeID in
  mret {| cc_NodeID := nodeID; cc_NodeName := nodeID; cc_NightsActive := Z.of_nat (length (remove_dups nights));
          cc_JobsAccepted := Z.of_nat (length (remove_dups ((λ x, x.1.1) <$> rows)));
          cc_TokensServed := sum_option (λ r, res_prompt_tokens r + res_completion_tokens r) ((λ x, x.1.2) <$> rows);
          cc_CreditEarnedMicrodollars := sum_option ch_amount_microdollars ((λ x, x.2) <$> rows);
          cc_GeneratedAt := now |}.

(** The joined rows of a node's attempts: the job when it is in the period, and then its
    result and its credit. *)
Definition report_rows (db : DB) (nodeID : string) (from until : Z)
    : list (option (string * JobRow) * option ResultRow * option CreditHoldRow) :=
  ka ← left_join (rows_where (λ _ a, bool_decide (at_node_id a = Some nodeID)) (db_job_attempts db));
  let job := ka ≫= λ ka, db_jobs db !! at_job_id (snd ka) ≫= λ j,
               if (from <=? j_created_at j) && (j_created_at j <? until) then Some (at_job_id (snd ka), j) else None in
  match job, ka with
  | Some j, Some ka =>
      r ← left_join (results_of db (fst ka));
      h ← left_join (holds_of db (fst ka));
      [(Some j, r, h)]
  | _, _ => [(None, None, None)]
  end.

Definition count_jobs (st : JobState) (jobs : list (option (string * JobRow))) : Z :=
  Z.of_nat (length (remove_dups (omap (λ j : option (string * JobRow), j ≫= λ j,
    if bool_decide (j_state (snd j) = st) then Some (fst j) else None) jobs))).

Definition fleet_header : list string :=
  ["fleet_id"; "node_id"; "jobs_succeeded"; "jobs_failed"; "prompt_tokens"; "completion_tokens"; "host_credit_microdollars"].

Definition fleet_record (db : DB) (fleetID : string) (from until : Z) (nodeID : string) : list string :=
  let rows := report_rows db nodeID from until in
  [fleetID; nodeID; itoa (count_jobs JSucceeded ((λ x, x.1.1) <$> rows));
   itoa (count_jobs JFailed ((λ x, x.1.1) <$> rows));
   itoa (sum_option res_prompt_tokens ((λ x, x.1.2) <$> rows));
   itoa (sum_option res_completion_tokens ((λ x, x.1.2) <$> rows));
   itoa (sum_option ch_amount_microdollars ((λ x, x.2) <$> rows))].

Definition FleetReportCSV (fleetID : string) (from until : Z) : St DB string :=
  _ ← guard_err (negb (is_blank fleetID)) (ErrMsg "fleet id is required");
  db ← gets id;
  let from := if is_zero_time from then 0 else from in
  let until := if is_zero_time until then db_now db + second else until in
  let nodes := order_by by_key (rows_where (λ _ n, bool_decide (n_fleet_id n = Some fleetID)) (db_nodes db)) in
  mret (csv_write (fleet_header :: ((λ kn, fleet_record db fleetID from until kn.1) <$> nodes))).

(** [ORDER BY last_applied_at DESC, email, model_id]. *)
Definition by_application (a b : string * WaitlistRow) : bool :=
  (wl_last_applied_at b.2 <? wl_last_applied_at a.2) ||
  ((wl_last_applied_at a.2 =? wl_last_applied_at b.2) &&
   (string_ltb (wl_email a.2) (wl_email b.2) ||
    (String.eqb (wl_email a.2) (wl_email b.2) && null_last_ltb (wl_model_id a.2) (wl_model_id b.2)))).

Definition ListWaitlist (db : DB) : list WaitlistSignup :=
  (λ kw : string * WaitlistRow, signup_of kw.1 kw.2) <$>
    take defaultRecentListSize (order_by by_application (map_to_list (db_waitlist_signups db))).

Definition waitlist_header : list string :=
  ["id"; "email"; "name"; "use_case"; "expected_volume"; "data_ack"; "model_id"; "source"; "created_at"; "last_applied_at"].

(** [rfc3339] is [time.Time.Format(time.RFC3339)] in the location of the process. *)
Definition WaitlistCSV (rfc3339 : Z → string) (db : DB) : string :=
  csv_write (waitlist_header :: ((λ s,
    [ws_ID s; ws_Email s; ws_Name s; ws_UseCase s; ws_ExpectedVolume s; if ws_DataAck s then "true" else "false";
     ws_ModelID s; ws_Source s; rfc3339 (ws_CreatedAt s); rfc3339 (ws_LastAppliedAt s)]) <$> ListWaitlist db)).
