(* ===== verification/StoreRuns.v ===== *)
(** * Running the job store

    What every operation of [JobStore], [Registration] and [OperatorStore] has in common: statements that change nothing when
    they fail, the tables they frame, the effect of a completion, and the sequences of
    store operations the theorems of [JobTheory] speak about. [StoreInv] is the interface
    between an invariant and the operations: an invariant closed under the store's
    statements is closed under every operation. *)
From stdpp Require Import base gmap strings list sorting.
From Stdlib Require Import ZArith Lia.
From S2P Require Import Prelude GoStrings Float64 Sha256 Scheduler Protocol Requests Database Registration Ledger LedgerTheory JobStore OperatorStore.

(** ** Framing

    A property that does not read the tables a posting writes. *)
Class LedgerFree (P : DB → Prop) := {
  lf_tables :: TableProp P;
  lf_accounts db f : P db → P (db <| db_ledger_accounts ::= f |>);
  lf_entries db f : P db → P (db <| db_ledger_entries ::= f |>);
  lf_transactions db f : P db → P (db <| db_ledger_transactions ::= f |>);
  lf_holds db f : P db → P (db <| db_host_credit_holds ::= f |>);
  lf_batches db f : P db → P (db <| db_payout_batches ::= f |>);
  lf_items db f : P db → P (db <| db_payout_items ::= f |>)
}.

Section ledger_free.
Context (P : DB → Prop) `{!LedgerFree P}.

Ltac lf := solve_inv; try (apply preserves_modify; intros ? ?;
  first [by apply lf_accounts|by apply lf_entries|by apply lf_transactions|by apply lf_holds
        |by apply lf_batches|by apply lf_items]).

Lemma lf_ensureAccount a b c : preserves P (ensureAccount a b c).
Proof. unfold ensureAccount. lf. Qed.
Lemma lf_insertEntry t a v m n : preserves P (insertEntry t a v m n).
Proof. unfold insertEntry, insert_entry_row. lf. Qed.
Lemma lf_insert_transaction t r : preserves P (insert_transaction t r).
Proof. unfold insert_transaction. lf. Qed.
Lemma lf_insert_transaction_or_duplicate t r : preserves P (insert_transaction_or_duplicate t r).
Proof. unfold insert_transaction_or_duplicate. lf. Qed.
Lemma lf_post_transaction t n : preserves P (post_transaction t n).
Proof. unfold post_transaction. lf. Qed.
Lemma lf_insert_hold k r : preserves P (insert_hold k r).
Proof. unfold insert_hold. lf. Qed.
Hint Resolve lf_ensureAccount lf_insertEntry lf_insert_transaction lf_insert_transaction_or_duplicate
  lf_post_transaction lf_insert_hold : inv.

Lemma lf_postAcceptedJob p : preserves P (postAcceptedJob p).
Proof. unfold postAcceptedJob, load_pricing. solve_inv. Qed.
Lemma lf_PostVerificationOverhead p : preserves P (PostVerificationOverhead p).
Proof.
  unfold PostVerificationOverhead, postVerificationOverhead, load_pricing.
  apply preserves_transaction; [apply _|]. solve_inv.
Qed.

Lemma lf_update_batch b f : preserves P (update_batch b f).
Proof. unfold update_batch. lf. Qed.
Lemma lf_update_items q f : preserves P (update_items q f).
Proof. unfold update_items. lf. Qed.
Lemma lf_update_holds q f : preserves P (update_holds q f).
Proof. unfold update_holds. lf. Qed.
Lemma lf_select_batch b : preserves P (select_batch b).
Proof. unfold select_batch. lf. Qed.
Hint Resolve lf_update_batch lf_update_items lf_update_holds lf_select_batch : inv.

Ltac lf_op := repeat first [apply preserves_transaction; [apply _|]|progress lf].

Lemma lf_PromoteAvailableCredits t : preserves P (PromoteAvailableCredits t).
Proof. unfold PromoteAvailableCredits, release_credit, set_hold_state. lf_op. Qed.
Lemma lf_CreatePayoutBatch o t : preserves P (CreatePayoutBatch o t).
Proof. unfold CreatePayoutBatch, reserve_credit, insert_item. lf_op. Qed.
Lemma lf_ExportPayoutBatch b t : preserves P (ExportPayoutBatch b t).
Proof. unfold ExportPayoutBatch. lf_op. Qed.
Lemma lf_ConfirmPayoutBatch b r t : preserves P (ConfirmPayoutBatch b r t).
Proof. unfold ConfirmPayoutBatch, pay_item. lf_op. Qed.
End ledger_free.
#[export] Hint Resolve lf_postAcceptedJob lf_PostVerificationOverhead lf_PromoteAvailableCredits
  lf_CreatePayoutBatch lf_ExportPayoutBatch lf_ConfirmPayoutBatch : inv.

Lemma preserves_run {S A} (P : S → Prop) (m : St S A) s r s' :
  preserves P m → m s = (r, s') → P s → P s'.
Proof. intros Hm E Hs. specialize (Hm s Hs). by rewrite E in Hm. Qed.

(** A property of one table outside the ledger. *)
Ltac one_table := split; [intros ? ?; done|..]; intros; done.

(** A posting leaves every table of the job store alone. *)
Definition job_tables_are (db0 db : DB) : Prop :=
  db_job_attempts db = db_job_attempts db0 ∧ db_jobs db = db_jobs db0 ∧
  db_job_results db = db_job_results db0 ∧ db_node_reputation db = db_node_reputation db0 ∧
  db_nodes db = db_nodes db0 ∧ db_now db = db_now db0.
#[export] Instance job_tables_are_free db0 : LedgerFree (job_tables_are db0).
Proof. one_table. Qed.

Lemma postAcceptedJob_frame p db r db' :
  postAcceptedJob p db = (r, db') → job_tables_are db db'.
Proof.
  intros H. pose proof (lf_postAcceptedJob (job_tables_are db) p db) as Hf. rewrite H in Hf. by apply Hf.
Qed.

(** ** Attempts *)

Definition active (a : AttemptRow) : Prop := active_status (at_status a) = true.

(** One step of an attempt: who serves which job under which lease never changes, and
    the status moves forward. *)
Definition status_step (s s' : AttemptStatus) : Prop :=
  match s, s' with
  | AOffered, (AAccepted | AExpired) => True
  | (AOffered | AAccepted | ARunning), ACancelled => True
  | (AAccepted | ARunning), (ARunning | ASucceeded | AVerified) => True
  | _, AFailed => True
  | _, _ => False
  end.

Record attempt_step (a a' : AttemptRow) : Prop := {
  as_job : at_job_id a' = at_job_id a;
  as_node : at_node_id a' = at_node_id a;
  as_number : at_attempt_number a' = at_attempt_number a;
  as_lease : at_lease_nonce a' = at_lease_nonce a;
  as_window : at_lease_expires_at a' = at_lease_expires_at a ∧ at_deadline_at a' = at_deadline_at a;
  as_status : status_step (at_status a) (at_status a')
}.

(** What attempt tables of the schema satisfy. *)
Record attempts_wf (T : gmap string AttemptRow) : Prop := {
  aw_success : ∀ k1 k2 a1 a2, T !! k1 = Some a1 → T !! k2 = Some a2 → at_job_id a1 = at_job_id a2 →
    at_status a1 = ASucceeded → at_status a2 = ASucceeded → k1 = k2;
  aw_number : ∀ k1 k2 a1 a2, T !! k1 = Some a1 → T !! k2 = Some a2 → at_job_id a1 = at_job_id a2 →
    at_attempt_number a1 = at_attempt_number a2 → k1 = k2;
  aw_positive : ∀ k a, T !! k = Some a → 0 < at_attempt_number a
}.

Definition attempts_advance (T T' : gmap string AttemptRow) : Prop :=
  (∀ k a, T !! k = Some a → ∃ a', T' !! k = Some a' ∧ rtc attempt_step a a') ∧
  (attempts_wf T → attempts_wf T').

#[export] Instance attempts_advance_pre : PreOrder attempts_advance.
Proof.
  split.
  - intros T. split; [|done]. intros k a Hk. exists a. by split.
  - intros T1 T2 T3 [H12 W12] [H23 W23]. split; [|auto]. intros k a Hk.
    destruct (H12 k a Hk) as (a' & Hk' & S1). destruct (H23 k a' Hk') as (a'' & Hk'' & S2).
    exists a''. split; [done|]. by transitivity a'.
Qed.

(** An update along [attempt_step] that makes no attempt succeed. *)
Lemma update_where_advance q f T :
  (∀ k a, q k a = true → attempt_step a (f a) ∧ at_status (f a) ≠ ASucceeded) →
  attempts_advance T (update_where q f T).
Proof.
  intros Hf. split.
  - intros k a Hk. rewrite lookup_update_where, Hk. simpl. eexists. split; [done|].
    destruct (q k a) eqn:E; [|done]. by apply rtc_once, (Hf k a).
  - assert (Hinv : ∀ k a', update_where q f T !! k = Some a' → ∃ a, T !! k = Some a ∧
      at_job_id a' = at_job_id a ∧ at_attempt_number a' = at_attempt_number a ∧
      (at_status a' = ASucceeded → at_status a = ASucceeded)).
    { intros k a'. rewrite lookup_update_where. intros (a & Hk & ->)%fmap_Some_1. exists a.
      destruct (q k a) eqn:E; [|done]. by destruct (Hf k a E) as [[? ? ? ?] ?]. }
    intros [W1 W2 W3]. split.
    + intros k1 k2 a1 a2 (b1 & H1 & J1 & _ & S1)%Hinv (b2 & H2 & J2 & _ & S2)%Hinv Hj Hs1 Hs2.
      apply (W1 k1 k2 b1 b2); auto; congruence.
    + intros k1 k2 a1 a2 (b1 & H1 & J1 & N1 & _)%Hinv (b2 & H2 & J2 & N2 & _)%Hinv Hj Hn.
      apply (W2 k1 k2 b1 b2); auto; congruence.
    + intros k a' (a & Hk & _ & -> & _)%Hinv. by apply (W3 k).
Qed.

Lemma attempt_where_true jobID attemptID p k a :
  attempt_where jobID attemptID p k a = true ↔ k = attemptID ∧ at_job_id a = jobID ∧ p a = true.
Proof. unfold attempt_where. rewrite !andb_true_iff, !String.eqb_eq. naive_solver. Qed.

(** The update changes a status the way [attempt_step] allows. *)
Ltac advance :=
  intros ? ? ?; rewrite ?attempt_where_true in *; unfold lease_expired, live_attempt, active_status in *;
  repeat match goal with
  | H : _ ∧ _ |- _ => destruct H
  | H : _ && _ = true |- _ => apply andb_true_iff in H as [? ?]
  | H : bool_decide _ = true |- _ => apply bool_decide_eq_true in H
  end;
  split; [split; simpl; auto|simpl; done];
  match goal with |- status_step ?s _ => destruct s eqn:?; simpl; try done; set_solver end.

(** A statement: an error leaves the database as it was. *)
Definition readonly {A} (m : St DB A) : Prop := ∀ db, (m db).2 = db.
Definition statement {A} (m : St DB A) : Prop := ∀ db e db', m db = (Err e, db') → db' = db.

Lemma readonly_gets {A} (f : DB → A) : readonly (gets f).
Proof. done. Qed.
Lemma readonly_guard b e : readonly (guard_err b e).
Proof. by destruct b. Qed.
Lemma readonly_constraint b n : readonly (constraint b n).
Proof. by destruct b. Qed.
Lemma readonly_wrap {A} c (m : St DB A) : readonly m → readonly (wrap c m).
Proof. intros H db. specialize (H db). unfold wrap. by destruct (m db) as [[]]. Qed.
Lemma statement_readonly {A} (m : St DB A) : readonly m → statement m.
Proof. intros H db e db' E. specialize (H db). by rewrite E in H. Qed.
Lemma statement_modify f : statement (modify f).
Proof. done. Qed.
Lemma statement_bind {A B} (m : St DB A) (f : A → St DB B) :
  readonly m → (∀ a, statement (f a)) → statement (m ≫= f).
Proof.
  intros Hm Hf db e db'. specialize (Hm db). unfold mbind, St_bind.
  destruct (m db) as [[a|e'] db1]; simpl in Hm; subst; [apply Hf|by intros [= _ ->]].
Qed.
Lemma statement_wrap {A} c (m : St DB A) : statement m → statement (wrap c m).
Proof.
  intros H db e db'. unfold wrap. destruct (m db) as [[a|e'] db1] eqn:E; [done|].
  intros [= _ <-]. by apply (H db e').
Qed.
Lemma statement_match {A} (b : bool) (m1 m2 : St DB A) :
  statement m1 → statement m2 → statement (if b then m1 else m2).
Proof. by destruct b. Qed.

Create HintDb stmt.
Create HintDb regfree.
#[export] Hint Resolve readonly_gets readonly_guard readonly_constraint readonly_wrap statement_modify
  statement_bind statement_wrap statement_match : stmt.
#[export] Hint Extern 2 (statement _) => apply statement_readonly : stmt.
#[export] Hint Extern 1 (∀ _, statement _) => intros : stmt.

Lemma preserves_statement {A} (P : DB → Prop) (m : St DB A) :
  statement m → (∀ db a db', P db → m db = (Ok a, db') → P db') → preserves P m.
Proof.
  intros Hm Hok db Hdb. destruct (m db) as [[a|e] db'] eqn:E; simpl; [by eapply Hok|].
  by rewrite (Hm db e db' E).
Qed.

Lemma fresh_key_true {V} (T : gmap string V) k : fresh_key T k = true ↔ T !! k = None.
Proof. apply bool_decide_eq_true. Qed.
Lemma has_key_true {V} (T : gmap string V) k : has_key T k = true ↔ is_Some (T !! k).
Proof. apply bool_decide_eq_true. Qed.

Lemma insert_advance T k row :
  T !! k = None → at_status row = AOffered → 0 < at_attempt_number row →
  (∀ k' a, T !! k' = Some a → at_job_id a = at_job_id row → at_attempt_number a ≠ at_attempt_number row) →
  attempts_advance T (<[k := row]> T).
Proof.
  intros Hk Hs Hp Hn. split.
  - intros k' a Hk'. exists a. rewrite lookup_insert_ne by congruence. by split.
  - intros [W1 W2 W3]. split.
    + intros k1 k2 a1 a2. rewrite !lookup_insert_Some. intros [[<- <-]|[_ H1]] [[<- <-]|[_ H2]] Hj S1 S2;
        try congruence. by apply (W1 k1 k2 a1 a2).
    + intros k1 k2 a1 a2. rewrite !lookup_insert_Some. intros [[<- <-]|[_ H1]] [[<- <-]|[_ H2]] Hj N;
        [done| | |by apply (W2 k1 k2 a1 a2)].
      * by destruct (Hn k2 a2 H2).
      * by destruct (Hn k1 a1 H1).
    + intros k' a. rewrite lookup_insert_Some. intros [[<- <-]|[_ H]]; [done|by apply (W3 k')].
Qed.

Lemma insert_attempt_ok attemptID row db u db' :
  insert_attempt attemptID row db = (Ok u, db') →
  db_job_attempts db !! attemptID = None ∧ is_Some (db_jobs db !! at_job_id row) ∧
  0 < at_attempt_number row ∧
  (∀ k a, db_job_attempts db !! k = Some a → at_job_id a = at_job_id row →
     at_attempt_number a ≠ at_attempt_number row) ∧
  db' = db <| db_job_attempts ::= <[attemptID := row]> |>.
Proof.
  unfold insert_attempt. intros H. run_inv.
  repeat match goal with H : constraint _ _ _ = _ |- _ => apply constraint_ok in H as [? ->] end.
  run_inv. rewrite fresh_key_true, has_key_true, Z.ltb_lt, negb_true_iff, exists_row_false in *.
  split_and!; try done. intros k a Hk Hj Hn.
  match goal with H : ∀ k v, _ → of_job _ _ _ && _ = false |- _ => specialize (H k a Hk) end.
  unfold of_job in *. rewrite Hj, Hn, String.eqb_refl, Z.eqb_refl in *. done.
Qed.

Lemma insert_attempt_statement k row : statement (insert_attempt k row).
Proof. unfold insert_attempt. eauto 20 with stmt. Qed.

(** ** Every operation of the store *)

(** What the operator can do; [lower] is the lower-case table of the region and email
    normalisation. *)
Inductive operator_op :=
  | OoDrainNode (nodeID reason : string) (now : Z)
  | OoPauseNode (nodeID reason : string) (now : Z)
  | OoQuarantineNode (nodeID reason : string) (now : Z)
  | OoCancelJob (jobID reason : string) (now : Z)
  | OoRetryJob (jobID reason : string) (now : Z)
  | OoPromoteCredits (now : Z)
  | OoCreatePayoutBatch (orgID : string) (now : Z)
  | OoExportPayoutBatch (batchID : string) (now : Z)
  | OoConfirmPayoutBatch (batchID : string) (records : result (list (list string))) (now : Z)
  | OoCreateFleet (lower : Z → Z) (orgID name : string) (schedule : FleetDefaults) (region : string) (now : Z)
  | OoSetFleetRegion (lower : Z → Z) (fleetID region reason : string) (now : Z)
  | OoSetNodeRegion (lower : Z → Z) (nodeID region reason : string) (now : Z)
  | OoSubmitWaitlistApplication (lower : Z → Z) (application : WaitlistApplication) (now : Z)
  | OoRecordManifestSync (catalogDir : string) (synced now : Z).

Definition run_operator_op (op : operator_op) (db : DB) : DB :=
  match op with
  | OoDrainNode n r t => (DrainNode n r t db).2
  | OoPauseNode n r t => (PauseNode n r t db).2
  | OoQuarantineNode n r t => (QuarantineNode n r t db).2
  | OoCancelJob j r t => (op_CancelJob j r t db).2
  | OoRetryJob j r t => (RetryJob j r t db).2
  | OoPromoteCredits t => (PromoteCredits t db).2
  | OoCreatePayoutBatch o t => (op_CreatePayoutBatch o t db).2
  | OoExportPayoutBatch b t => (op_ExportPayoutBatch b t db).2
  | OoConfirmPayoutBatch b r t => (op_ConfirmPayoutBatch b r t db).2
  | OoCreateFleet l o n s r t => (CreateFleet l o n s r t db).2
  | OoSetFleetRegion l f r w t => (SetFleetRegion l f r w t db).2
  | OoSetNodeRegion l n r w t => (SetNodeRegion l n r w t db).2
  | OoSubmitWaitlistApplication l a t => (SubmitWaitlistApplication l a t db).2
  | OoRecordManifestSync d n t => (RecordManifestSync d n t db).2
  end.

(** [OpDraw] is entropy used outside the tables: the identifier of a request, a new API key. *)
Inductive store_op :=
  | OpCreateOrg (name : string)
  | OpCreateAPIKey (orgID name rawKey : string) (modelIDs : list string)
  | OpCreateJob (orgID apiKeyID modelID priority body : string) (deadlineAt : Z)
  | OpCreateAttempt (jobID nodeID : string) (leaseExpiresAt deadlineAt : Z)
  | OpMarkAccepted (jobID attemptID : string) (acceptedAt : Z)
  | OpMarkStarted (jobID attemptID : string) (startedAt : Z)
  | OpCompleteJob (payload : JobCompletedPayload) (receivedAt creditHold : Z) (metering : MeteringStatus)
  | OpFailAttempt (jobID attemptID code : string) (transient : bool) (now : Z)
  | OpFailJob (jobID attemptID code : string) (transient : bool) (now : Z)
  | OpCreateVerificationAttempt (jobID nodeID : string) (leaseExpiresAt deadlineAt : Z)
  | OpMarkVerificationAttemptCompleted (jobID attemptID : string) (now : Z)
  | OpMarkVerificationAttemptFailed (jobID attemptID code : string) (now : Z)
  | OpPostVerificationOverhead (payload : JobCompletedPayload) (creditHold receivedAt : Z)
  | OpCancelJob (orgID jobID : string) (now : Z)
  | OpExpireLeases (now : Z)
  | OpStoreIdempotencyResponse (apiKeyID endpoint key requestHash jobID : string) (status : Z)
      (body : string) (expiresAt : Z)
  | OpRecordMeteringIssues (payload : JobCompletedPayload) (issues : list MeteringIssue)
      (status : MeteringStatus) (now : Z)
  | OpRecordDuplicateOutcome (outcome : DuplicateOutcome)
  | OpRecordChallengeOutcome (outcome : ChallengeOutcome) (failureThreshold : Z)
  | OpPromoteAvailableCredits (now : Z)
  | OpCreatePayoutBatch (orgID : string) (now : Z)
  | OpExportPayoutBatch (batchID : string) (now : Z)
  | OpConfirmPayoutBatch (batchID : string) (records : result (list (list string))) (now : Z)
  | OpCreateInvite (cfg : RegistrationConfig) (fleetID : string) (now : Z)
  | OpRegisterNode (cfg : RegistrationConfig) (req : RegisterRequest) (now : Z)
  | OpConsumeBootstrap (nodeID token : string) (now : Z)
  | OpOpenSession (nodeID protocolVersion remoteAddr : string) (now : Z)
  | OpRecordHeartbeat (sessionID : string) (heartbeat : NodeHeartbeatPayload) (receivedAt : Z)
  | OpRecordStateChanged (changed : NodeStateChangedPayload) (receivedAt : Z)
  | OpRecordSafetyEvent (event : NodeSafetyEventPayload) (receivedAt : Z)
  | OpCloseSession (sessionID nodeID : string) (now : Z)
  | OpSweep (staleAfter now : Z)
  | OpOperator (op : operator_op)
  | OpDraw
  | OpClock (now : Z).

(** The database an operation leaves behind, whether or not it succeeds. *)
Definition run_op (op : store_op) (db : DB) : DB :=
  match op with
  | OpCreateOrg n => (CreateOrg n db).2
  | OpCreateAPIKey o n k ms => (CreateAPIKey o n k ms db).2
  | OpCreateJob o k m p b d => (CreateJob o k m p b d db).2
  | OpCreateAttempt j n l d => (CreateAttempt j n l d db).2
  | OpMarkAccepted j a t => (MarkAccepted j a t db).2
  | OpMarkStarted j a t => (MarkStarted j a t db).2
  | OpCompleteJob p t h m => (CompleteJob p t h m db).2
  | OpFailAttempt j a c tr t => (FailAttempt j a c tr t db).2
  | OpFailJob j a c tr t => (FailJob j a c tr t db).2
  | OpCreateVerificationAttempt j n l d => (CreateVerificationAttempt j n l d db).2
  | OpMarkVerificationAttemptCompleted j a t => (MarkVerificationAttemptCompleted j a t db).2
  | OpMarkVerificationAttemptFailed j a c t => (MarkVerificationAttemptFailed j a c t db).2
  | OpPostVerificationOverhead p h t => (PostVerificationOverhead_ p h t db).2
  | OpCancelJob o j t => (CancelJob o j t db).2
  | OpExpireLeases t => (ExpireLeases t db).2
  | OpStoreIdempotencyResponse a e k h j s b x => (StoreIdempotencyResponse a e k h j s b x db).2
  | OpRecordMeteringIssues p i s t => (RecordMeteringIssues p i s t db).2
  | OpRecordDuplicateOutcome o => (RecordDuplicateOutcome o db).2
  | OpRecordChallengeOutcome o t => (RecordChallengeOutcome o t db).2
  | OpPromoteAvailableCredits t => (PromoteAvailableCredits t db).2
  | OpCreatePayoutBatch o t => (CreatePayoutBatch o t db).2
  | OpExportPayoutBatch b t => (ExportPayoutBatch b t db).2
  | OpConfirmPayoutBatch b r t => (ConfirmPayoutBatch b r t db).2
  | OpCreateInvite c f t => (CreateInvite c f t db).2
  | OpRegisterNode c r t => (RegisterNode c r t db).2
  | OpConsumeBootstrap n k t => (ConsumeBootstrap n k t db).2
  | OpOpenSession n v a t => (OpenSession n v a t db).2
  | OpRecordHeartbeat sid h t => (RecordHeartbeat sid h t db).2
  | OpRecordStateChanged p t => (RecordStateChanged p t db).2
  | OpRecordSafetyEvent e t => (RecordSafetyEvent e t db).2
  | OpCloseSession sid n t => (CloseSession sid n t db).2
  | OpSweep a t => (RunOnce a t db).2
  | OpOperator op => run_operator_op op db
  | OpDraw => db <| db_entropy ::= tail |>
  | OpClock t => db <| db_now := t |>
  end.

Definition run_ops (ops : list store_op) (db : DB) : DB := foldl (λ d op, run_op op d) db ops.

Lemma run_ops_ind (P : DB → Prop) :
  (∀ op db, P db → P (run_op op db)) → ∀ ops db, P db → P (run_ops ops db).
Proof. intros Hop ops. induction ops; intros db Hdb; simpl; auto. Qed.

(** ** Reputation statements *)

(** The row of a node, or the one it starts with. *)
Definition reputation_of (db : DB) (nodeID : string) (now : Z) : ReputationRow :=
  default (new_reputation now) (db_node_reputation db !! nodeID).

Definition rates_ok (r : ReputationRow) : bool :=
  rate_ok (rp_rolling_success_rate r) && rate_ok (rp_timeout_rate r) &&
  rate_ok (rp_challenge_pass_rate r) && rate_ok (rp_duplicate_disagreement_rate r).

Lemma ensure_set_reputation (f : ReputationRow → ReputationRow) c n t db u db' :
  (r ← ensure_reputation n t; wrap c (set_reputation n (f r))) db = (Ok u, db') →
  rates_ok (f (reputation_of db n t)) = true ∧
  db' = db <| db_node_reputation ::= <[n := f (reputation_of db n t)]> |>.
Proof.
  unfold ensure_reputation, set_reputation, reputation_of. intros H. run_inv.
  destruct (db_node_reputation db !! n) as [r|] eqn:E; run_inv;
    repeat match goal with H : constraint _ _ _ = _ |- _ => apply constraint_ok in H as [? ->] end; run_inv;
    (split; [done|]); [done|].
  unfold upd_field. simpl. by rewrite insert_insert_eq.
Qed.

Lemma updateAttemptReputation_ok n acc c t db u db' :
  updateAttemptReputation n acc c t db = (Ok u, db') →
  rates_ok (attempt_outcome (reputation_of db n t) acc c t) = true ∧
  db' = db <| db_node_reputation ::= <[n := attempt_outcome (reputation_of db n t) acc c t]> |>.
Proof. apply (ensure_set_reputation (λ r, attempt_outcome r acc c t)). Qed.

Lemma nodeIDForAttempt_ok a db n db' :
  nodeIDForAttempt a db = (Ok n, db') →
  db' = db ∧ ∃ row, db_job_attempts db !! a = Some row ∧ at_node_id row = Some n.
Proof.
  unfold nodeIDForAttempt. intros H. run_inv. split; [done|].
  match goal with H : _ ≫= at_node_id = Some _ |- _ => apply bind_Some in H as (row & ? & ?) end.
  by exists row.
Qed.

(** ** What a completion does *)

Definition finished_attempt (st : AttemptStatus) (now : Z) (a : AttemptRow) : AttemptRow :=
  a <| at_status := st |> <| at_finished_at := Some now |>.

Definition completed_job (now : Z) (j : JobRow) : JobRow :=
  job_state JSucceeded now j <| j_completed_at := Some now |>.

(** The attempt can be completed at a time. *)
Record may_complete (db : DB) (jobID attemptID : string) (t : Z) (a : AttemptRow) : Prop := {
  mc_row : db_job_attempts db !! attemptID = Some a;
  mc_job : at_job_id a = jobID;
  mc_status : at_status a = AAccepted ∨ at_status a = ARunning;
  mc_accepted : ∃ acceptedAt, at_accepted_at a = Some acceptedAt ∧ acceptedAt ≤ at_lease_expires_at a;
  mc_deadline : t ≤ at_deadline_at a;
  mc_first : ∀ k a', db_job_attempts db !! k = Some a' → at_job_id a' = jobID → at_status a' ≠ ASucceeded
}.

Lemma completable_ok a b t db d db' :
  completable a b t db = (Ok d, db') →
  db' = db ∧ b = false ∧ (at_status a = AAccepted ∨ at_status a = ARunning) ∧ t ≤ at_deadline_at a ∧
  ∃ acc, at_accepted_at a = Some acc ∧ acc ≤ at_lease_expires_at a ∧
    d = Z.max 0 ((t - default acc (at_started_at a)) / millisecond).
Proof.
  unfold completable. intros H. run_inv.
  rewrite negb_true_iff, orb_false_iff, bool_decide_eq_true, !Z.leb_le, !elem_of_cons, elem_of_nil in *.
  naive_solver.
Qed.

(** The states a successful completion goes through. *)
Record completion (payload : JobCompletedPayload) (t hold : Z) (metering : MeteringStatus) (resultID : string)
    (resp : OpenAIResponse) (db db' : DB) (a : AttemptRow) (j : JobRow) (node : string)
    (dur : Z) (lr : AcceptedJobLedger) (d2 : DB) : Prop := {
  cp_may : may_complete db (jc_JobID payload) (jc_AttemptID payload) t a;
  cp_node : at_node_id a = Some node;
  cp_job : db_jobs db !! jc_JobID payload = Some j;
  cp_fresh : db_job_results db !! resultID = None;
  cp_posting : postAcceptedJob (posting_of payload t hold dur)
    (db <| db_job_results ::= <[resultID := result_row payload t metering resp dur "alpha"]> |>) = (Ok lr, d2);
  cp_rates : rates_ok (attempt_outcome (reputation_of db node t) true "" t) = true;
  cp_after : db' = d2
    <| db_job_results := <[resultID := result_row payload t metering resp dur (al_PriceVersion lr)]> (db_job_results db) |>
    <| db_job_attempts := <[jc_AttemptID payload := finished_attempt ASucceeded t a]> (db_job_attempts db) |>
    <| db_jobs := <[jc_JobID payload := completed_job t j]> (db_jobs db) |>
    <| db_node_reputation := <[node := attempt_outcome (reputation_of db node t) true "" t]> (db_node_reputation db) |>
}.

Lemma update_where_one {V} (q : string → V → bool) f (T : gmap string V) id v :
  T !! id = Some v → q id v = true → (∀ k w, q k w = true → k = id) →
  update_where q f T = <[id := f v]> T.
Proof.
  intros Hv Hq Hid. apply map_eq. intros k. rewrite lookup_update_where.
  destruct (decide (k = id)) as [->|Hne].
  - by rewrite Hv, lookup_insert_eq; simpl; rewrite Hq.
  - rewrite lookup_insert_ne by done. destruct (T !! k) as [w|] eqn:E; simpl; [|done].
    destruct (q k w) eqn:Eq; [|done]. by destruct Hne; apply (Hid k w).
Qed.

Lemma exists_other_false jobID attemptID T :
  exists_row (other_success jobID attemptID) T = false →
  ∀ k a, T !! k = Some a → at_job_id a = jobID → k ≠ attemptID → at_status a ≠ ASucceeded.
Proof.
  rewrite exists_row_false. intros H k a Hk Hj Hne Hs. specialize (H k a Hk).
  unfold other_success, of_job in H. rewrite Hj, String.eqb_refl, bool_decide_eq_true_2 in H by done.
  apply String.eqb_neq in Hne. by rewrite Hne in H.
Qed.

Ltac constraints :=
  repeat (match goal with H : constraint _ _ _ = _ |- _ => apply constraint_ok in H as [? ?] end; simplify_eq/=).

Lemma complete_tx_ok payload t hold metering resultID resp db resp' db' :
  complete_tx payload t hold metering resultID resp db = (Ok resp', db') →
  resp' = resp ∧
  ∃ a j node dur lr d2, completion payload t hold metering resultID resp db db' a j node dur lr d2.
Proof.
  unfold complete_tx, select_attempt, update_job, update_attempt, updateAcceptedReputation. intros H. run_inv.
  repeat match goal with
  | H : completable _ _ _ _ = _ |- _ => apply completable_ok in H as (-> & ? & ? & ? & ? & ? & ? & ?)
  | H : nodeIDForAttempt _ _ = _ |- _ => apply nodeIDForAttempt_ok in H as (-> & ? & ? & ?)
  | H : updateAttemptReputation _ _ _ _ _ = _ |- _ => apply updateAttemptReputation_ok in H as [? ->]
  end.
  unfold insert_result, mark_succeeded, update_attempt in *. run_inv. constraints. run_inv.
  split; [done|].
  match goal with H : postAcceptedJob _ _ = (Ok ?r, ?d) |- _ =>
    rename H into Hpost, r into lr, d into d2 end.
  destruct (postAcceptedJob_frame _ _ _ _ Hpost) as (Ha & Hj & Hr & Hn & _ & _). simpl in Ha, Hj, Hr, Hn.
  match goal with H : db_job_attempts db !! _ = Some ?row |- _ => rename H into Hrow, row into a end.
  match goal with H : has_key (db_jobs db) _ = true |- _ => apply has_key_true in H as [j Hjob] end.
  match goal with H : exists_row _ _ = false |- _ => pose proof (exists_other_false _ _ _ H) as Hother end.
  match goal with H : (_ =? _)%string = true |- _ => apply String.eqb_eq in H as Hjid end.
  match goal with H : at_status a = _ ∨ _ |- _ => rename H into Hst end.
  match goal with H : fresh_key _ _ = true |- _ => apply fresh_key_true in H as Hfr end.
  match goal with H : update_where _ _ _ !! _ = Some ?a', Hn' : at_node_id ?a' = Some ?n |- _ =>
    rename H into Hup, n into node, Hn' into Hnode end.
  rewrite lookup_update_where, Ha, Hrow in Hup. simpl in Hup.
  assert (Hq : attempt_where (jc_JobID payload) (jc_AttemptID payload) (λ _, true) (jc_AttemptID payload) a = true)
    by (apply attempt_where_true; auto).
  rewrite Hq in Hup.
  apply (inj Some) in Hup. subst. simpl in Hnode.
  exists a, j, node. eexists _, lr, d2. split; [| | | |exact Hpost| |].
  - split; [done|done|done|by eexists|done|].
    intros k a' Hk Hjk. destruct (decide (k = jc_AttemptID payload)) as [->|Hne]; [|by apply (Hother k)].
    assert (a' = a) as -> by congruence. destruct Hst; congruence.
  - done.
  - done.
  - done.
  - unfold reputation_of in *. simpl in *. by rewrite Hn in *.
  - unfold reputation_of. simpl. rewrite Ha, Hj, Hr, Hn.
    rewrite (update_where_one _ _ (db_jobs db) (jc_JobID payload) j); [|done|by rewrite String.eqb_refl|].
    2: { intros k w H'. apply andb_true_iff in H' as [H' _]. by apply String.eqb_eq in H'. }
    rewrite (update_where_one _ _ (db_job_attempts db) (jc_AttemptID payload) a); [|done|done|].
    2: { intros k w H'. by apply attempt_where_true in H' as [-> _]. }
    rewrite (update_where_one _ _ (<[resultID := _]> (db_job_results db)) resultID
               (result_row payload t metering resp (Z.max 0 ((t - default x (at_started_at a)) / millisecond)) "alpha"));
      [|apply lookup_insert_eq|apply String.eqb_refl|by intros k w ->%String.eqb_eq].
    by rewrite insert_insert_eq.
Qed.

Lemma CompleteJob_ok payload t hold metering db resp db' :
  CompleteJob payload t hold metering db = (Ok resp, db') →
  posted_balanced db' ∧
  ∃ resultID ent a j node dur lr d2,
    resp = completion_response (db <| db_entropy := ent |>) resultID payload ∧
    completion payload (posted_at db t) hold metering resultID resp (db <| db_entropy := ent |>) db'
      a j node dur lr d2.
Proof.
  unfold CompleteJob. intros H. run_inv.
  match goal with H : ids_New _ _ = _ |- _ => apply ids_New_ok in H as (b & rest & _ & -> & ->) end.
  match goal with H : or_now _ _ = _ |- _ => apply or_now_ok in H as [-> ->] end.
  match goal with H : transaction _ _ = _ |- _ => apply transaction_ok in H as [Hrun Hb] end.
  apply complete_tx_ok in Hrun as (-> & a & j & node & dur & lr & d2 & Hc).
  split; [done|]. eexists _, rest, a, j, node, dur, lr, d2. split; [reflexivity|exact Hc].
Qed.

(** An operation that draws an identifier, reads the clock and runs one transaction
    changes no table when it fails. *)
Lemma CompleteJob_err payload t hold metering db e db' :
  CompleteJob payload t hold metering db = (Err e, db') → ∃ ent, db' = db <| db_entropy := ent |>.
Proof.
  unfold CompleteJob, mbind, St_bind, ids_New. destruct (db_entropy db) as [|b rest] eqn:E.
  - intros [= _ <-]. exists (db_entropy db). by destruct db.
  - destruct (or_now t _) as [[t'|e'] d] eqn:Ht.
    2: { unfold or_now, sql_now, gets, mret, St_ret in Ht. destruct (is_zero_time t); done. }
    apply or_now_ok in Ht as [-> _]. unfold gets, id. intros (ent & ->)%transaction_err. by exists ent.
Qed.


(** ** Invariants of the store *)

(** What a job is, apart from how far it has come. *)
Definition job_identity (j : JobRow) : string * string * string * string * string * Z * Z :=
  (j_organization_id j, j_api_key_id j, j_model_id j, j_priority j, j_request_metadata j, j_deadline_at j,
   j_created_at j).

(** Jobs are added and change state, but none is deleted or becomes another one. *)
Definition jobs_advance (T T' : gmap string JobRow) : Prop :=
  ∀ k j, T !! k = Some j → ∃ j', T' !! k = Some j' ∧ job_identity j' = job_identity j.

Lemma jobs_advance_update q f T : (∀ j, job_identity (f j) = job_identity j) → jobs_advance T (update_where q f T).
Proof.
  intros Hf k j Hk. rewrite lookup_update_where, Hk. simpl. eexists. split; [done|]. by destruct (q k j).
Qed.
Lemma jobs_advance_insert k row T : T !! k = None → jobs_advance T (<[k := row]> T).
Proof. intros Hk k' j Hj. exists j. split; [|done]. rewrite lookup_insert_ne; [done|congruence]. Qed.
#[export] Instance jobs_advance_pre : PreOrder jobs_advance.
Proof.
  split; [intros T k j Hk; by exists j|]. intros T1 T2 T3 H1 H2 k j Hk.
  destruct (H1 k j Hk) as (j2 & Hj2 & E2). destruct (H2 k j2 Hj2) as (j3 & Hj3 & E3). exists j3. by rewrite E3.
Qed.

(** What all operations but the one that stores answers ask for. *)
Class QuietInv (P : DB → Prop) := {
  si_tables :: TableProp P;
  si_orgs db f : P db → P (db <| db_organizations ::= f |>);
  si_keys db f : P db → P (db <| db_api_keys ::= f |>);
  si_permissions db f : P db → P (db <| db_permissions ::= f |>);
  si_jobs db f : jobs_advance (db_jobs db) (f (db_jobs db)) → P db → P (db <| db_jobs ::= f |>);
  si_events db f : P db → P (db <| db_verification_events ::= f |>);
  si_insert_attempt k row : at_status row = AOffered → preserves P (insert_attempt k row);
  si_update_attempt q f :
    (∀ k a, q k a = true → attempt_step a (f a) ∧ at_status (f a) ≠ ASucceeded) →
    preserves P (update_attempt q f);
  si_reputation n acc c t : preserves P (updateAttemptReputation n acc c t);
  si_duplicate n d t : preserves P (updateDuplicateReputation n d t);
  si_challenge n f th t : preserves P (updateChallengeReputation n f th t);
  si_complete p t h m : preserves P (CompleteJob p t h m);
  si_overhead p : preserves P (PostVerificationOverhead p);
  si_promote t : preserves P (PromoteAvailableCredits t);
  si_create o t : preserves P (CreatePayoutBatch o t);
  si_export b t : preserves P (ExportPayoutBatch b t);
  si_confirm b r t : preserves P (ConfirmPayoutBatch b r t);
  si_CreateInvite c f t : preserves P (CreateInvite c f t);
  si_RegisterNode c r t : preserves P (RegisterNode c r t);
  si_ConsumeBootstrap n k t : preserves P (ConsumeBootstrap n k t);
  si_OpenSession n v a t : preserves P (OpenSession n v a t);
  si_RecordHeartbeat sid h t : preserves P (RecordHeartbeat sid h t);
  si_RecordStateChanged p t : preserves P (RecordStateChanged p t);
  si_RecordSafetyEvent e t : preserves P (RecordSafetyEvent e t);
  si_CloseSession sid n t : preserves P (CloseSession sid n t);
  si_RunOnce a t : preserves P (RunOnce a t);
  si_action a ty i r m t : preserves P (recordOperatorActionTx a ty i r m t);
  si_audit db f : P db → P (db <| db_audit_events ::= f |>);
  si_upsert k row : preserves P (upsert_signup k row);
  si_insert_fleet k row : preserves P (insert_fleet k row);
  si_fleet_region q r : preserves P (modify (λ d, d <| db_fleets ::= update_where q (λ f, f <| fl_region := r |>) |>));
  si_update_nodes q f :
    (∀ row, n_quarantined_at (f row) = n_quarantined_at row) → preserves P (update_nodes q f);
  si_drain_session sid : preserves P (update_sessions (λ k _, String.eqb k sid) (λ s, s <| ss_state := SsDraining |>));
  si_quarantine_node n t : preserves P (quarantine_node n t);
  si_quarantine_reputation n r t : preserves P (quarantine_reputation n r t);
  si_clock db t : P db → P (db <| db_now := t |>)
}.
Class StoreInv (P : DB → Prop) := {
  si_quiet :: QuietInv P;
  si_idempotency db f : P db → P (db <| db_idempotency_records ::= f |>)
}.

(** The operation that stores the answer to an idempotent request. *)
Definition stores_answer (op : store_op) : bool :=
  match op with OpStoreIdempotencyResponse _ _ _ _ _ _ _ _ => true | _ => false end.

(** A property that does not read what registration writes: of the node table it may
    read which nodes are quarantined. *)
Class RegistrationFree (P : DB → Prop) := {
  rf_tables :: TableProp P;
  rf_orgs db f : P db → P (db <| db_organizations ::= f |>);
  rf_fleets db f : P db → P (db <| db_fleets ::= f |>);
  rf_invites db f : P db → P (db <| db_invite_tokens ::= f |>);
  rf_bootstrap db f : P db → P (db <| db_bootstrap_tokens ::= f |>);
  rf_keys db f : P db → P (db <| db_node_keys ::= f |>);
  rf_sessions db f : P db → P (db <| db_node_sessions ::= f |>);
  rf_heartbeats db f : P db → P (db <| db_node_heartbeats ::= f |>);
  rf_security db f : P db → P (db <| db_security_events ::= f |>);
  rf_audit db f : P db → P (db <| db_audit_events ::= f |>);
  rf_clock db t : P db → P (db <| db_now := t |>);
  rf_insert_node db k row : db_nodes db !! k = None → P db → P (db <| db_nodes ::= <[k := row]> |>);
  rf_update_nodes db q f :
    (∀ row, n_quarantined_at (f row) = n_quarantined_at row) → P db → P (db <| db_nodes ::= update_where q f |>)
}.

Section registration_free.
Context (P : DB → Prop) `{!RegistrationFree P}.

Lemma rf_randomToken prefix : preserves P (randomToken prefix).
Proof.
  intros db Hdb. unfold randomToken. destruct (db_entropy db) as [|body rest]; [done|]. by apply (table_prop db).
Qed.

Lemma rf_insert_node_stmt k row : preserves P (insert_node k row).
Proof.
  intros db Hdb. unfold insert_node, constraint, guard_err, gets, fail, mbind, St_bind. simpl.
  destruct (fresh_key (db_nodes db) k) eqn:E; simpl; [|done].
  destruct (schedule_check _ _); simpl; [|done]. apply rf_insert_node; [|done].
  by apply bool_decide_eq_true in E.
Qed.

Lemma rf_report_state n st f :
  (∀ row, n_quarantined_at (f row) = n_quarantined_at row) → preserves P (report_state n st f).
Proof.
  intros Hf. unfold report_state, update_nodes. solve_inv. apply preserves_modify. intros.
  apply rf_update_nodes; [|done]. intros row. by rewrite Hf.
Qed.

Ltac rf :=
  repeat first [apply preserves_transaction; [apply _|] | apply rf_randomToken | apply rf_insert_node_stmt
               | apply rf_report_state; intros ?; reflexivity | progress solve_inv];
  try (apply preserves_modify; intros ? ?;
       first [by apply rf_fleets | by apply rf_orgs | by apply rf_invites | by apply rf_bootstrap
             | by apply rf_keys | by apply rf_sessions | by apply rf_heartbeats | by apply rf_security
             | by apply rf_update_nodes]).

Lemma rf_CreateInvite c f t : preserves P (CreateInvite c f t).
Proof. unfold CreateInvite, pg_CreateInvite, ensureFleet, insert_organization, insert_fleet, insert_invite. rf. Qed.
Lemma rf_RegisterNode c r t : preserves P (RegisterNode c r t).
Proof.
  unfold RegisterNode, pg_RegisterNode, register_tx, select_one, update_invites, insert_node_key, insert_bootstrap. rf.
Qed.
Lemma rf_ConsumeBootstrap n k t : preserves P (ConsumeBootstrap n k t).
Proof. unfold ConsumeBootstrap, pg_ConsumeBootstrap, select_one. rf. Qed.
Lemma rf_OpenSession n v a t : preserves P (OpenSession n v a t).
Proof. unfold OpenSession. rf. Qed.
Lemma rf_RecordHeartbeat sid h t : preserves P (RecordHeartbeat sid h t).
Proof. unfold RecordHeartbeat, insert_heartbeat, update_sessions. rf. Qed.
Lemma rf_RecordStateChanged p t : preserves P (RecordStateChanged p t).
Proof. unfold RecordStateChanged. rf. Qed.
Lemma rf_RecordSafetyEvent e t : preserves P (RecordSafetyEvent e t).
Proof. unfold RecordSafetyEvent. rf. Qed.
Lemma rf_CloseSession sid n t : preserves P (CloseSession sid n t).
Proof. unfold CloseSession, update_sessions, update_nodes. rf. Qed.
Lemma rf_RunOnce a t : preserves P (RunOnce a t).
Proof. unfold RunOnce, MarkStale, update_sessions, update_nodes. rf. Qed.
Lemma rf_insert_fleet k row : preserves P (insert_fleet k row).
Proof. unfold insert_fleet. rf. Qed.
Lemma rf_fleet_region q r : preserves P (modify (λ d, d <| db_fleets ::= update_where q (λ f, f <| fl_region := r |>) |>)).
Proof. apply preserves_modify. intros. by apply rf_fleets. Qed.
Lemma rf_nodes_stmt q f :
  (∀ row, n_quarantined_at (f row) = n_quarantined_at row) → preserves P (update_nodes q f).
Proof. intros Hf. apply preserves_modify. intros. by apply rf_update_nodes. Qed.
Lemma rf_drain_session sid :
  preserves P (update_sessions (λ k _, String.eqb k sid) (λ s, s <| ss_state := SsDraining |>)).
Proof. apply preserves_modify. intros. by apply rf_sessions. Qed.
End registration_free.
#[export] Hint Resolve rf_CreateInvite rf_RegisterNode rf_ConsumeBootstrap rf_OpenSession rf_RecordHeartbeat
  rf_RecordStateChanged rf_RecordSafetyEvent rf_CloseSession rf_RunOnce rf_insert_fleet rf_fleet_region
  rf_nodes_stmt rf_drain_session : regfree.

Section store_inv.
Context (P : DB → Prop) `{!QuietInv P}.

Hint Resolve si_reputation si_duplicate si_challenge si_complete si_overhead si_promote si_create si_export
  si_confirm si_action si_upsert si_insert_fleet si_fleet_region si_drain_session si_quarantine_node si_quarantine_reputation : inv.

(** Walk through an operation; the updates of attempts follow [attempt_step]. *)
Ltac si := repeat first [apply preserves_transaction; [apply _|]|progress solve_inv];
  try (apply preserves_modify; intros ? ?;
  first [by apply si_orgs|by apply si_keys|by apply si_permissions
        |apply si_jobs; [by apply jobs_advance_update|done]
        |by apply si_events|by apply si_audit]);
  try (apply si_update_nodes; intros ?; reflexivity);
  try (apply si_update_attempt; advance);
  try by apply si_insert_attempt.

Lemma si_update_job j p f : (∀ job, job_identity (f job) = job_identity job) → preserves P (update_job j p f).
Proof. intros Hf. unfold update_job. si. Qed.
Lemma si_accepted_reputation a t : preserves P (updateAcceptedReputation a t).
Proof. unfold updateAcceptedReputation, nodeIDForAttempt. si. Qed.
Lemma si_failure_reputation a c t : preserves P (updateFailureReputation a c t).
Proof. unfold updateFailureReputation, nodeIDForAttempt. si. Qed.
Lemma si_event j a n t s d now : preserves P (insertVerificationEventTx j a n t s d now).
Proof. unfold insertVerificationEventTx. si. Qed.
Hint Extern 1 (∀ _, job_identity _ = job_identity _) => intros; reflexivity : inv.
Hint Resolve si_update_job si_accepted_reputation si_failure_reputation si_event : inv.

Lemma si_CreateOrg n : preserves P (CreateOrg n).
Proof. unfold CreateOrg. si. Qed.
Lemma si_CreateAPIKey o n k ms : preserves P (CreateAPIKey o n k ms).
Proof. unfold CreateAPIKey, insert_api_key, grant_model. si. Qed.
Lemma si_CreateJob o k m p b d : preserves P (CreateJob o k m p b d).
Proof.
  intros db Hdb. unfold CreateJob, mbind, St_bind, ids_New. destruct (db_entropy db) as [|e rest]; [done|].
  unfold gets, wrap, constraint, guard_err, id. simpl.
  destruct (fresh_key _ _) eqn:E; simpl; [|by apply (table_prop db)]. apply fresh_key_true in E.
  destruct (has_key _ _); simpl; [|by apply (table_prop db)]. destruct (has_key _ _); simpl; [|by apply (table_prop db)].
  destruct (has_key _ _); simpl; [|by apply (table_prop db)]. destruct (_ || _); simpl; [|by apply (table_prop db)].
  refine (si_jobs (P := P) (db <| db_entropy := rest |>) <[_ := _]> _ _); [by apply jobs_advance_insert|by apply (table_prop db)].
Qed.
Lemma si_CreateAttempt j n l d : preserves P (CreateAttempt j n l d).
Proof. unfold CreateAttempt. si. Qed.
Lemma si_MarkAccepted j a t : preserves P (MarkAccepted j a t).
Proof. unfold MarkAccepted, update_attempt_or. si. Qed.
Lemma si_MarkStarted j a t : preserves P (MarkStarted j a t).
Proof. unfold MarkStarted, update_attempt_or. si. Qed.
Lemma si_FailAttempt j a c tr t : preserves P (FailAttempt j a c tr t).
Proof. unfold FailAttempt, failed_attempt. si. Qed.
Lemma si_FailJob j a c tr t : preserves P (FailJob j a c tr t).
Proof. unfold FailJob, failed_attempt. si. Qed.
Lemma si_CreateVerificationAttempt j n l d : preserves P (CreateVerificationAttempt j n l d).
Proof. unfold CreateVerificationAttempt. si. Qed.
Lemma si_MarkVerificationAttemptCompleted j a t : preserves P (MarkVerificationAttemptCompleted j a t).
Proof. unfold MarkVerificationAttemptCompleted. si. Qed.
Lemma si_MarkVerificationAttemptFailed j a c t : preserves P (MarkVerificationAttemptFailed j a c t).
Proof. unfold MarkVerificationAttemptFailed, failed_attempt. si. Qed.
Lemma si_PostVerificationOverhead p h t : preserves P (PostVerificationOverhead_ p h t).
Proof. unfold PostVerificationOverhead_. si. Qed.
Lemma si_CancelJob o j t : preserves P (CancelJob o j t).
Proof. unfold CancelJob, GetJob. si. Qed.
Lemma si_ExpireLeases t : preserves P (ExpireLeases t).
Proof. unfold ExpireLeases. si. Qed.
Lemma si_RecordMeteringIssues p i s t : preserves P (RecordMeteringIssues p i s t).
Proof. unfold RecordMeteringIssues, insertVerificationEvent. si. Qed.
Lemma si_RecordDuplicateOutcome o : preserves P (RecordDuplicateOutcome o).
Proof. unfold RecordDuplicateOutcome. si. Qed.
Lemma si_RecordChallengeOutcome o t : preserves P (RecordChallengeOutcome o t).
Proof. unfold RecordChallengeOutcome. si. Qed.
Hint Resolve si_CreateOrg si_CreateAPIKey si_CreateJob si_CreateAttempt si_MarkAccepted si_MarkStarted
  si_FailAttempt si_FailJob si_CreateVerificationAttempt si_MarkVerificationAttemptCompleted
  si_MarkVerificationAttemptFailed si_PostVerificationOverhead si_CancelJob si_ExpireLeases
  si_RecordMeteringIssues si_RecordDuplicateOutcome
  si_RecordChallengeOutcome : inv.

Lemma si_RecordOperatorAction a ty i r m t : preserves P (RecordOperatorAction a ty i r m t).
Proof. unfold RecordOperatorAction. si. Qed.
Hint Resolve si_RecordOperatorAction : inv.
Lemma si_DrainNode n r t : preserves P (DrainNode n r t).
Proof. unfold DrainNode, set_node_state. si. Qed.
Lemma si_PauseNode n r t : preserves P (PauseNode n r t).
Proof. unfold PauseNode, updateNodeAction, set_node_state. si. Qed.
Lemma si_QuarantineNode n r t : preserves P (QuarantineNode n r t).
Proof. unfold QuarantineNode. si. Qed.
Lemma si_op_CancelJob j r t : preserves P (op_CancelJob j r t).
Proof. unfold op_CancelJob. si. Qed.
Lemma si_RetryJob j r t : preserves P (RetryJob j r t).
Proof. unfold RetryJob. si. Qed.
Lemma si_PromoteCredits t : preserves P (PromoteCredits t).
Proof. unfold PromoteCredits. si. Qed.
Lemma si_op_CreatePayoutBatch o t : preserves P (op_CreatePayoutBatch o t).
Proof. unfold op_CreatePayoutBatch. si. Qed.
Lemma si_op_ExportPayoutBatch b t : preserves P (op_ExportPayoutBatch b t).
Proof. unfold op_ExportPayoutBatch. si. Qed.
Lemma si_op_ConfirmPayoutBatch b r t : preserves P (op_ConfirmPayoutBatch b r t).
Proof. unfold op_ConfirmPayoutBatch. si. Qed.
Lemma si_CreateFleet l o n s r t : preserves P (CreateFleet l o n s r t).
Proof. unfold CreateFleet, insert_operator_fleet. si. Qed.
Lemma si_SetFleetRegion l f r w t : preserves P (SetFleetRegion l f r w t).
Proof. unfold SetFleetRegion. si. Qed.
Lemma si_SetNodeRegion l n r w t : preserves P (SetNodeRegion l n r w t).
Proof. unfold SetNodeRegion. si. Qed.
Lemma si_SubmitWaitlistApplication l a t : preserves P (SubmitWaitlistApplication l a t).
Proof. unfold SubmitWaitlistApplication. si. Qed.
Lemma si_RecordManifestSync d n t : preserves P (RecordManifestSync d n t).
Proof. unfold RecordManifestSync. si. Qed.
Hint Resolve si_DrainNode si_PauseNode si_QuarantineNode si_op_CancelJob si_RetryJob si_PromoteCredits
  si_op_CreatePayoutBatch si_op_ExportPayoutBatch si_op_ConfirmPayoutBatch si_CreateFleet si_SetFleetRegion
  si_SetNodeRegion si_SubmitWaitlistApplication si_RecordManifestSync : inv.

Lemma si_run_operator_op op db : P db → P (run_operator_op op db).
Proof.
  intros Hdb. destruct op; cbn [run_operator_op]; match goal with |- P (?m db).2 =>
    refine ((_ : preserves P m) db Hdb) end; eauto 2 with inv.
Qed.

Lemma si_quiet_op op db : stores_answer op = false → P db → P (run_op op db).
Proof.
  intros Ha Hdb. destruct op; cbn [run_op]; try discriminate Ha; try match goal with |- P (?m db).2 =>
    refine ((_ : preserves P m) db Hdb) end; try solve [eauto 2 with inv].
  - apply si_CreateInvite.
  - apply si_RegisterNode.
  - apply si_ConsumeBootstrap.
  - apply si_OpenSession.
  - apply si_RecordHeartbeat.
  - apply si_RecordStateChanged.
  - apply si_RecordSafetyEvent.
  - apply si_CloseSession.
  - apply si_RunOnce.
  - by apply si_run_operator_op.
  - exact (proj1 (table_prop db (tail (db_entropy db))) Hdb).
  - by apply si_clock.
Qed.

End store_inv.

Section store_inv_all.
Context (P : DB → Prop) `{!StoreInv P}.

Lemma si_StoreIdempotencyResponse a e k h j s b x : preserves P (StoreIdempotencyResponse a e k h j s b x).
Proof.
  pose proof (si_tables (P := P)) as Ht. unfold StoreIdempotencyResponse. solve_inv; apply preserves_modify; intros; by apply si_idempotency.
Qed.

Lemma si_run_op op db : P db → P (run_op op db).
Proof.
  intros Hdb. destruct (stores_answer op) eqn:E; [|by apply (si_quiet_op P)].
  destruct op; try discriminate E. by apply si_StoreIdempotencyResponse.
Qed.

Lemma si_run_ops ops db : P db → P (run_ops ops db).
Proof. revert ops db. apply run_ops_ind, si_run_op. Qed.
End store_inv_all.
#[export] Hint Resolve si_CreateOrg si_CreateAPIKey si_CreateJob si_CreateAttempt si_MarkAccepted si_MarkStarted
  si_complete si_FailAttempt si_FailJob si_CreateVerificationAttempt si_MarkVerificationAttemptCompleted
  si_MarkVerificationAttemptFailed si_PostVerificationOverhead si_CancelJob si_ExpireLeases
  si_StoreIdempotencyResponse si_RecordMeteringIssues si_RecordDuplicateOutcome
  si_RecordChallengeOutcome si_CreateInvite si_RegisterNode si_ConsumeBootstrap si_OpenSession
  si_RecordHeartbeat si_RecordStateChanged si_RecordSafetyEvent si_CloseSession si_RunOnce : inv.

(** Properties of the ledger alone: only postings and payouts matter to them. *)
Class JobFree (P : DB → Prop) := {
  jf_tables :: TableProp P;
  jf_orgs db f : P db → P (db <| db_organizations ::= f |>);
  jf_keys db f : P db → P (db <| db_api_keys ::= f |>);
  jf_permissions db f : P db → P (db <| db_permissions ::= f |>);
  jf_jobs db f : P db → P (db <| db_jobs ::= f |>);
  jf_attempts db f : P db → P (db <| db_job_attempts ::= f |>);
  jf_results db f : P db → P (db <| db_job_results ::= f |>);
  jf_reputation db f : P db → P (db <| db_node_reputation ::= f |>);
  jf_nodes db f : P db → P (db <| db_nodes ::= f |>);
  jf_events db f : P db → P (db <| db_verification_events ::= f |>);
  jf_idempotency db f : P db → P (db <| db_idempotency_records ::= f |>);
  jf_actions db f : P db → P (db <| db_operator_actions ::= f |>);
  jf_waitlist db f : P db → P (db <| db_waitlist_signups ::= f |>)
}.


Lemma job_free_store_inv P `{!JobFree P, !RegistrationFree P} :
  (∀ p t h m, preserves P (CompleteJob p t h m)) → (∀ p, preserves P (PostVerificationOverhead p)) →
  (∀ t, preserves P (PromoteAvailableCredits t)) → (∀ o t, preserves P (CreatePayoutBatch o t)) →
  (∀ b t, preserves P (ExportPayoutBatch b t)) → (∀ b r t, preserves P (ConfirmPayoutBatch b r t)) →
  StoreInv P.
Proof.
  intros. assert (Hset : ∀ n r, preserves P (set_reputation n r)).
  { intros. unfold set_reputation. solve_inv. apply preserves_modify. intros. by apply jf_reputation. }
  assert (Hens : ∀ n t, preserves P (ensure_reputation n t)).
  { intros. unfold ensure_reputation. solve_inv. apply preserves_modify. intros. by apply jf_reputation. }
  assert (Hq : ∀ n t, preserves P (quarantine_node n t)).
  { intros. apply preserves_modify. intros. by apply jf_nodes. }
  split; [|apply jf_idempotency].
  split; [apply _|apply jf_orgs|apply jf_keys|apply jf_permissions|intros ? ? _; apply jf_jobs|apply jf_events|..]; try assumption; try solve [apply rf_clock | apply rf_audit | eauto 2 with regfree typeclass_instances].
  - intros k row _. unfold insert_attempt. solve_inv. apply preserves_modify. intros. by apply jf_attempts.
  - intros q f _. apply preserves_modify. intros. by apply jf_attempts.
  - intros. unfold updateAttemptReputation. solve_inv.
  - intros. unfold updateDuplicateReputation. solve_inv.
  - intros. unfold updateChallengeReputation. solve_inv.
  - intros. unfold recordOperatorActionTx. solve_inv. apply preserves_modify. intros. by apply jf_actions.
  - intros. unfold upsert_signup. solve_inv; apply preserves_modify; intros; by apply jf_waitlist.
  - intros. unfold quarantine_reputation. solve_inv; apply preserves_modify; intros; by apply jf_reputation.
Qed.

(** Properties of no ledger table: postings and payouts do not matter to them. *)
Lemma ledger_free_quiet P `{!LedgerFree P, !RegistrationFree P} :
  (∀ db f, P db → P (db <| db_organizations ::= f |>)) → (∀ db f, P db → P (db <| db_api_keys ::= f |>)) →
  (∀ db f, P db → P (db <| db_permissions ::= f |>)) →
  (∀ db f, jobs_advance (db_jobs db) (f (db_jobs db)) → P db → P (db <| db_jobs ::= f |>)) →
  (∀ db f, P db → P (db <| db_verification_events ::= f |>)) →
  (∀ k row, at_status row = AOffered → preserves P (insert_attempt k row)) →
  (∀ q f, (∀ k a, q k a = true → attempt_step a (f a) ∧ at_status (f a) ≠ ASucceeded) →
     preserves P (update_attempt q f)) →
  (∀ n acc c t, preserves P (updateAttemptReputation n acc c t)) →
  (∀ n d t, preserves P (updateDuplicateReputation n d t)) →
  (∀ n f th t, preserves P (updateChallengeReputation n f th t)) →
  (∀ n t, preserves P (quarantine_node n t)) → (∀ n r t, preserves P (quarantine_reputation n r t)) →
  (∀ a ty i r m t, preserves P (recordOperatorActionTx a ty i r m t)) →
  (∀ k row, preserves P (upsert_signup k row)) →
  (∀ p t h m, preserves P (CompleteJob p t h m)) → QuietInv P.
Proof.
  intros. split; try assumption; try solve [apply rf_clock | apply rf_audit | eauto 2 with regfree typeclass_instances]; intros.
  - by apply lf_PostVerificationOverhead.
  - by apply lf_PromoteAvailableCredits.
  - by apply lf_CreatePayoutBatch.
  - by apply lf_ExportPayoutBatch.
  - by apply lf_ConfirmPayoutBatch.
Qed.

Lemma ledger_free_store_inv P `{!LedgerFree P, !RegistrationFree P} :
  (∀ db f, P db → P (db <| db_organizations ::= f |>)) → (∀ db f, P db → P (db <| db_api_keys ::= f |>)) →
  (∀ db f, P db → P (db <| db_permissions ::= f |>)) →
  (∀ db f, jobs_advance (db_jobs db) (f (db_jobs db)) → P db → P (db <| db_jobs ::= f |>)) →
  (∀ db f, P db → P (db <| db_verification_events ::= f |>)) →
  (∀ db f, P db → P (db <| db_idempotency_records ::= f |>)) →
  (∀ k row, at_status row = AOffered → preserves P (insert_attempt k row)) →
  (∀ q f, (∀ k a, q k a = true → attempt_step a (f a) ∧ at_status (f a) ≠ ASucceeded) →
     preserves P (update_attempt q f)) →
  (∀ n acc c t, preserves P (updateAttemptReputation n acc c t)) →
  (∀ n d t, preserves P (updateDuplicateReputation n d t)) →
  (∀ n f th t, preserves P (updateChallengeReputation n f th t)) →
  (∀ n t, preserves P (quarantine_node n t)) → (∀ n r t, preserves P (quarantine_reputation n r t)) →
  (∀ a ty i r m t, preserves P (recordOperatorActionTx a ty i r m t)) →
  (∀ k row, preserves P (upsert_signup k row)) →
  (∀ p t h m, preserves P (CompleteJob p t h m)) → StoreInv P.
Proof. intros. split; [by apply ledger_free_quiet|done]. Qed.
