(* ===== verification/JobTheory.v ===== *)
(** * Correctness of the job store

    The life of attempts as a state machine over every store operation, one success and
    one bill per job, what [CompleteJob] and [MarkAccepted] do on every branch, node
    reputation and quarantine, eligibility, API keys and idempotency records. *)
From stdpp Require Import base gmap strings list sorting.
From Stdlib Require Import ZArith Lia.
From S2P Require Import Prelude GoStrings Float64 Sha256 Scheduler Protocol Requests Database Registration Ledger LedgerTheory JobStore OperatorStore StoreRuns.

(** ** The attempt state machine *)

(** The state of the attempts, compared with an earlier one. *)
Definition attempts_from (T0 : gmap string AttemptRow) (db : DB) : Prop :=
  attempts_advance T0 (db_job_attempts db).
#[export] Instance attempts_from_free T0 : LedgerFree (attempts_from T0).
Proof. one_table. Qed.
#[export] Instance attempts_from_registration T0 : RegistrationFree (attempts_from T0).
Proof. one_table. Qed.

Lemma preserves_update_attempt T0 q f :
  (∀ k a, q k a = true → attempt_step a (f a) ∧ at_status (f a) ≠ ASucceeded) →
  preserves (attempts_from T0) (update_attempt q f).
Proof.
  intros Hf. apply preserves_modify. intros db Hdb. unfold attempts_from in *.
  etransitivity; [exact Hdb|]. by apply update_where_advance.
Qed.

Lemma insert_attempt_from T0 k row :
  at_status row = AOffered → preserves (attempts_from T0) (insert_attempt k row).
Proof.
  intros Hs. apply preserves_statement; [apply insert_attempt_statement|].
  intros db u db' Hdb (Hk & _ & Hp & Hn & ->)%insert_attempt_ok. unfold attempts_from in *.
  etransitivity; [exact Hdb|]. by apply insert_advance.
Qed.

Lemma CompleteJob_from T0 p t h m : preserves (attempts_from T0) (CompleteJob p t h m).
Proof.
  intros db Hdb. destruct (CompleteJob p t h m db) as [[resp|e] db'] eqn:E; simpl.
  2: { apply CompleteJob_err in E as [ent ->]. exact Hdb. }
  apply CompleteJob_ok in E as (_ & rid & ent & a & j & node & dur & lr & d2 & _ & Hc).
  destruct Hc as [[Hrow Hjob Hst _ _ Hfirst] _ _ _ _ _ ->]. unfold attempts_from in *. simpl.
  simpl in Hrow, Hfirst. etransitivity; [exact Hdb|]. split.
  - intros k b Hk. destruct (decide (k = jc_AttemptID p)) as [->|Hne].
    + assert (b = a) as -> by congruence. eexists. rewrite lookup_insert_eq. split; [done|].
      apply rtc_once. split; simpl; auto. by destruct Hst as [-> | ->].
    + exists b. rewrite lookup_insert_ne by done. by split.
  - intros [W1 W2 W3]. split.
    + intros k1 k2 a1 a2. rewrite !lookup_insert_Some. intros [[<- <-]|[N1 H1]] [[<- <-]|[N2 H2]] Hj S1 S2;
        [done| | |by apply (W1 k1 k2 a1 a2)].
      * by destruct (Hfirst k2 a2 H2); [rewrite <-Hj|].
      * by destruct (Hfirst k1 a1 H1); [rewrite Hj|].
    + intros k1 k2 a1 a2. rewrite !lookup_insert_Some. intros [[<- <-]|[N1 H1]] [[<- <-]|[N2 H2]] Hj N;
        [done| | |by apply (W2 k1 k2 a1 a2)].
      * by apply (W2 _ k2 a a2).
      * by apply (W2 k1 _ a1 a).
    + intros k b. rewrite lookup_insert_Some. intros [[<- <-]|[_ H]]; [by apply (W3 (jc_AttemptID p) a)|by apply (W3 k)].
Qed.

(** What reputation and events write is not in the attempt table. *)
#[export] Instance attempts_from_store_inv T0 : StoreInv (attempts_from T0).
Proof.
  apply ledger_free_store_inv; [apply _|apply _|done|done|done|done|done|done|..].
  - apply insert_attempt_from.
  - apply preserves_update_attempt.
  - intros. unfold updateAttemptReputation, ensure_reputation, set_reputation. solve_inv.
  - intros. unfold updateDuplicateReputation, ensure_reputation, set_reputation. solve_inv.
  - intros. unfold updateChallengeReputation, ensure_reputation, set_reputation, quarantine_node. solve_inv.
  - intros. unfold quarantine_node. solve_inv.
  - intros. unfold quarantine_reputation. solve_inv.
  - intros. unfold recordOperatorActionTx. solve_inv.
  - intros. unfold upsert_signup. solve_inv.
  - apply CompleteJob_from.
Qed.

(** *** Jobs keep their identity *)

Definition jobs_from (T0 : gmap string JobRow) (db : DB) : Prop := jobs_advance T0 (db_jobs db).
#[export] Instance jobs_from_free T0 : LedgerFree (jobs_from T0).
Proof. one_table. Qed.
#[export] Instance jobs_from_registration T0 : RegistrationFree (jobs_from T0).
Proof. one_table. Qed.

#[export] Instance jobs_from_store_inv T0 : StoreInv (jobs_from T0).
Proof.
  apply ledger_free_store_inv; [apply _|apply _|done|done|done| |done|done|..].
  - intros db f Hf Hdb. unfold jobs_from in *. simpl. by etransitivity.
  - intros. unfold insert_attempt. solve_inv.
  - intros. unfold update_attempt. solve_inv.
  - intros. unfold updateAttemptReputation, ensure_reputation, set_reputation. solve_inv.
  - intros. unfold updateDuplicateReputation, ensure_reputation, set_reputation. solve_inv.
  - intros. unfold updateChallengeReputation, ensure_reputation, set_reputation, quarantine_node. solve_inv.
  - intros. unfold quarantine_node. solve_inv.
  - intros. unfold quarantine_reputation. solve_inv.
  - intros. unfold recordOperatorActionTx. solve_inv.
  - intros. unfold upsert_signup. solve_inv.
  - intros p t h m db Hdb. destruct (CompleteJob p t h m db) as [[resp|e] db'] eqn:E; simpl.
    + destruct (CompleteJob_ok _ _ _ _ _ _ _ E) as (_ & rid & ent & a & j & n & dur & lr & d2 & _ & Hc).
      unfold jobs_from in *. rewrite (cp_after _ _ _ _ _ _ _ _ _ _ _ _ _ _ Hc). simpl.
      etransitivity; [exact Hdb|]. intros k j0 Hk. destruct (decide (k = jc_JobID p)) as [->|Hne].
      * rewrite lookup_insert_eq. eexists. split; [done|].
        pose proof (cp_job _ _ _ _ _ _ _ _ _ _ _ _ _ _ Hc) as Hj. simpl in Hj. by simplify_eq.
      * rewrite lookup_insert_ne by done. by exists j0.
    + destruct (CompleteJob_err _ _ _ _ _ _ _ E) as [ent ->]. exact Hdb.
Qed.

Lemma run_ops_jobs ops db : jobs_advance (db_jobs db) (db_jobs (run_ops ops db)).
Proof. apply (si_run_ops (jobs_from (db_jobs db))). unfold jobs_from. reflexivity. Qed.

Lemma run_ops_advance ops db :
  attempts_advance (db_job_attempts db) (db_job_attempts (run_ops ops db)).
Proof.
  apply (si_run_ops (attempts_from (db_job_attempts db))). unfold attempts_from. done.
Qed.

Lemma rtc_attempt_step a a' :
  rtc attempt_step a a' →
  at_job_id a' = at_job_id a ∧ at_node_id a' = at_node_id a ∧
  at_attempt_number a' = at_attempt_number a ∧
  (active_status (at_status a) = false → active_status (at_status a') = false) ∧
  (at_status a' = ASucceeded → at_status a = ASucceeded ∨ active_status (at_status a) = true) ∧
  (at_status a' = AOffered → at_status a = AOffered).
Proof.
  induction 1 as [a|a b c [H1 H2 H3 _ _ Hs] _ (I1 & I2 & I3 & I4 & I5 & I6)]; [naive_solver|].
  rewrite I1, I2, I3. split_and!; auto.
  - intros Hf. apply I4. destruct (at_status a), (at_status b); done.
  - intros Hsucc. specialize (I5 Hsucc). destruct (at_status a) eqn:Ea, (at_status b) eqn:Eb; simpl in *;
      try done; try (by right); destruct I5; done.
  - intros Ho. specialize (I6 Ho). rewrite I6 in Hs. by destruct (at_status a).
Qed.

(** The life of an attempt: through any sequence of store operations an attempt is
    never deleted, keeps its job, its node and its number; once it is no longer active
    (offered, accepted or running) it never becomes active again, so the node it occupied
    is free of it for good; and it can only have succeeded from an active status. *)
Theorem attempt_lifecycle ops db k a :
  db_job_attempts db !! k = Some a →
  ∃ a', db_job_attempts (run_ops ops db) !! k = Some a' ∧
    at_job_id a' = at_job_id a ∧ at_node_id a' = at_node_id a ∧
    at_attempt_number a' = at_attempt_number a ∧
    (active_status (at_status a) = false → active_status (at_status a') = false) ∧
    (at_status a' = ASucceeded → at_status a = ASucceeded ∨ active_status (at_status a) = true) ∧
    (at_status a' = AOffered → at_status a = AOffered).
Proof.
  intros Hk. destruct (run_ops_advance ops db) as [Hadv _]. destruct (Hadv k a Hk) as (a' & Hk' & Hs).
  exists a'. split; [done|]. by apply rtc_attempt_step.
Qed.

(** One success per job: if no job of the database has two succeeded attempts and
    attempts are numbered without repetition from 1, this still holds after any sequence
    of store operations. *)
Theorem one_success_per_job ops db :
  attempts_wf (db_job_attempts db) → attempts_wf (db_job_attempts (run_ops ops db)).
Proof. apply run_ops_advance. Qed.

(** ** Billing *)

#[export] Instance consistent_free : JobFree consistent.
Proof.
  split; [apply _|..]; intros db f H; (apply (consistent_frame db); [by split|exact H]).
Qed.

#[export] Instance consistent_registration : RegistrationFree consistent.
Proof.
  split; [apply _|..]; intros; match goal with H : consistent ?d |- _ =>
    apply (consistent_frame d); [by split|exact H] end.
Qed.

Lemma CompleteJob_consistent p t h m : preserves consistent (CompleteJob p t h m).
Proof.
  intros db Hdb. destruct (CompleteJob p t h m db) as [[resp|e] db'] eqn:E; simpl.
  2: { apply CompleteJob_err in E as [ent ->]. by apply (table_prop db). }
  apply CompleteJob_ok in E as (Hb & rid & ent & a & j & node & dur & lr & d2 & _ & Hc).
  destruct Hc as [_ _ _ _ Hpost _ ->].
  apply (consistent_frame d2); [by split|].
  apply (postAcceptedJob_consistent _ _ _ _ Hpost); [exact Hb|].
  apply jf_results. by apply (table_prop db).
Qed.

#[export] Instance consistent_store_inv : StoreInv consistent.
Proof.
  apply job_free_store_inv; [apply _|apply _|..]; intros.
  - apply CompleteJob_consistent.
  - apply PostVerificationOverhead_consistent.
  - apply PromoteAvailableCredits_consistent.
  - apply CreatePayoutBatch_consistent.
  - apply ExportPayoutBatch_consistent.
  - apply ConfirmPayoutBatch_consistent.
Qed.

(** An acceptance stays posted. *)
Section job_accepted.
Context (jobID : string).
Notation billed := (λ db, job_accepted db jobID).

#[export] Instance job_accepted_free : JobFree billed.
Proof. one_table. Qed.
#[export] Instance job_accepted_registration : RegistrationFree billed.
Proof. one_table. Qed.

Lemma billed_insert_transaction t r : preserves billed (insert_transaction t r).
Proof.
  apply preserves_statement; [unfold insert_transaction; eauto 10 with stmt|].
  unfold insert_transaction. intros db u db' (t' & lt & Hlt & Hacc) H. run_inv. constraints. run_inv.
  rewrite fresh_key_true in *. exists t', lt. split; [|done]. simpl. by rewrite lookup_insert_ne by congruence.
Qed.
Lemma billed_insert_transaction_or_duplicate t r : preserves billed (insert_transaction_or_duplicate t r).
Proof.
  apply preserves_statement; [unfold insert_transaction_or_duplicate; eauto 10 with stmt|].
  unfold insert_transaction_or_duplicate. intros db u db' (t' & lt & Hlt & Hacc) H. run_inv.
  rewrite fresh_key_true in *. exists t', lt. split; [|done]. simpl. by rewrite lookup_insert_ne by congruence.
Qed.
Lemma billed_post_transaction t n : preserves billed (post_transaction t n).
Proof.
  unfold post_transaction. intros db (t' & lt & Hlt & Hacc & Hr). unfold mbind, St_bind, gets.
  destruct (db_ledger_transactions db !! t) as [lt0|] eqn:E; [|by exists t', lt].
  destruct (constraint _ _ db) as [[u|e] d] eqn:Ec; simpl.
  - apply constraint_ok in Ec as [_ ->]. simpl. destruct (decide (t = t')) as [->|Hne].
    + simplify_eq. eexists t', _. simpl. rewrite lookup_insert_eq. split; [done|].
      destruct Hacc as [Ha1 Ha2]. split; [by split|exact Hr].
    + exists t', lt. simpl. by rewrite lookup_insert_ne.
  - pose proof (readonly_constraint (negb (String.eqb (lt_transaction_type lt0) TransactionJobAcceptance &&
      exists_row (same_acceptance t lt0) (db_ledger_transactions db)))
      "ledger_transactions_one_job_acceptance" db) as Hro.
    rewrite Ec in Hro. simpl in Hro. subst. by exists t', lt.
Qed.
Lemma billed_ensureAccount a b c : preserves billed (ensureAccount a b c).
Proof. unfold ensureAccount. solve_inv. Qed.
Lemma billed_insertEntry t a v m n : preserves billed (insertEntry t a v m n).
Proof. unfold insertEntry, insert_entry_row. solve_inv. Qed.
Hint Resolve billed_insert_transaction billed_insert_transaction_or_duplicate billed_post_transaction
  billed_ensureAccount billed_insertEntry : inv.

Ltac bl := repeat first [apply preserves_transaction; [apply _|]|progress solve_inv].

Lemma billed_postAcceptedJob p : preserves billed (postAcceptedJob p).
Proof. unfold postAcceptedJob, load_pricing, insert_hold. bl. Qed.

Lemma billed_CompleteJob p t h m : preserves billed (CompleteJob p t h m).
Proof.
  intros db Hdb. destruct (CompleteJob _ _ _ _ db) as [[resp|e] db'] eqn:E; simpl.
  2: { apply CompleteJob_err in E as [ent ->]. exact Hdb. }
  apply CompleteJob_ok in E as (Hb & rid & ent & a & j & node & dur & lr & d2 & _ & Hc).
  destruct Hc as [_ _ _ _ Hpost _ ->].
  exact (preserves_run _ _ _ _ _ (billed_postAcceptedJob _) Hpost Hdb).
Qed.

#[export] Instance job_accepted_store_inv : StoreInv billed.
Proof.
  apply job_free_store_inv; [apply _|apply _|..]; intros.
  - apply billed_CompleteJob.
  - unfold PostVerificationOverhead, postVerificationOverhead, load_pricing, insert_hold. bl.
  - unfold PromoteAvailableCredits, release_credit, set_hold_state. bl.
  - unfold CreatePayoutBatch, reserve_credit, insert_item, update_batch. bl.
  - unfold ExportPayoutBatch, select_batch, update_items, update_batch. bl.
  - unfold ConfirmPayoutBatch, pay_item, select_batch, update_items, update_batch, update_holds. bl.
Qed.
End job_accepted.

Lemma consistent_before_posting db ent f :
  consistent db → ledger_wf (db <| db_entropy := ent |> <| db_job_results ::= f |>).
Proof.
  intros Hc. assert (H : consistent (db <| db_entropy := ent |> <| db_job_results ::= f |>)).
  { apply (jf_results (P := consistent)). by apply (table_prop db). }
  apply H.
Qed.

Lemma completion_billed p t h m db resp db' :
  consistent db → CompleteJob p t h m db = (Ok resp, db') → job_accepted db' (jc_JobID p).
Proof.
  intros Hc (_ & rid & ent & a & j & node & dur & lr & d2 & _ & [_ _ _ _ Hpost _ ->])%CompleteJob_ok.
  destruct (postAcceptedJob_posted _ _ _ _ Hpost) as (lt & Hlt & Hs & Ht & Hr1 & Hr2).
  - by apply consistent_before_posting.
  - by exists (al_TransactionID lr), lt.
Qed.

(** C2. A job is completed, and billed, at most once: after a completion has succeeded,
    and whatever operations of the store run in between (failing the job, retrying it on
    another node, cancelling it, verifying it, paying the host), no result for the same
    job is accepted again, and the refused attempt changes no table. *)
Theorem job_completed_once p t h m db resp db1 ops p' t' h' m' :
  consistent db → CompleteJob p t h m db = (Ok resp, db1) → jc_JobID p' = jc_JobID p →
  let d := run_ops ops db1 in
  ∃ e ent, CompleteJob p' t' h' m' d = (Err e, d <| db_entropy := ent |>).
Proof.
  intros Hc H Hj d.
  assert (Hb : job_accepted d (jc_JobID p)).
  { apply (si_run_ops (λ db, job_accepted db (jc_JobID p))). by eapply completion_billed. }
  assert (Hcd : consistent d).
  { apply (si_run_ops consistent). exact (preserves_run _ _ _ _ _ (si_complete p t h m) H Hc). }
  destruct (CompleteJob p' t' h' m' d) as [[resp'|e] d'] eqn:E.
  2: { destruct (CompleteJob_err _ _ _ _ _ _ _ E) as [ent ->]. by exists e, ent. }
  exfalso. apply CompleteJob_ok in E as (_ & rid & ent & a & j & node & dur & lr & d2 & _ & [_ _ _ _ Hpost _ _]).
  eapply postAcceptedJob_refused; [| |exact Hpost]; simpl.
  - by apply consistent_before_posting.
  - rewrite Hj. exact Hb.
Qed.

(** ** Completion *)

(** C15. What a completion does: it needs an attempt of that job that is accepted or
    running, was accepted before its lease expired, is within its deadline, on a job none
    of whose attempts has succeeded; it marks exactly this attempt succeeded and this job
    succeeded, records the result with the reported usage and the price the ledger used,
    and counts one more accepted attempt for the node. *)
Theorem CompleteJob_effect p t h m db resp db' :
  CompleteJob p t h m db = (Ok resp, db') →
  let now := posted_at db t in
  ∃ a j node rid row,
    may_complete db (jc_JobID p) (jc_AttemptID p) now a ∧
    db_jobs db !! jc_JobID p = Some j ∧ at_node_id a = Some node ∧
    db_job_attempts db' = <[jc_AttemptID p := finished_attempt ASucceeded now a]> (db_job_attempts db) ∧
    db_jobs db' = <[jc_JobID p := completed_job now j]> (db_jobs db) ∧
    db_job_results db !! rid = None ∧ db_job_results db' = <[rid := row]> (db_job_results db) ∧
    res_job_id row = jc_JobID p ∧ res_attempt_id row = jc_AttemptID p ∧ res_accepted row = true ∧
    res_prompt_tokens row = PromptTokens (jc_Usage p) ∧
    res_completion_tokens row = CompletionTokens (jc_Usage p) ∧
    res_metering_status row = m ∧ res_response_metadata row = resp ∧ oa_Usage resp = jc_Usage p ∧
    db_node_reputation db' = <[node := attempt_outcome (reputation_of db node now) true "" now]>
                               (db_node_reputation db).
Proof.
  intros (_ & rid & ent & a & j & node & dur & lr & d2 & -> & Hc)%CompleteJob_ok now.
  destruct Hc as [[Hr Hj Hs Ha Hd Hf] Hn Hjob Hfr Hpost _ ->].
  exists a, j, node, rid. eexists. split_and!; try reflexivity; try done.
Qed.

(** What a completion refuses: when no attempt may be completed for the payload (an
    unknown attempt, another job's, one that was never accepted, was accepted too late,
    has already finished, whose deadline has passed, or whose job already has a result),
    the call fails and no table changes. *)
Theorem CompleteJob_refuses p t h m db :
  (∀ a, ¬ may_complete db (jc_JobID p) (jc_AttemptID p) (posted_at db t) a) →
  ∃ e ent, CompleteJob p t h m db = (Err e, db <| db_entropy := ent |>).
Proof.
  intros Hno. destruct (CompleteJob p t h m db) as [[resp|e] db'] eqn:E.
  - apply CompleteJob_ok in E as (_ & rid & ent & a & j & node & dur & lr & d2 & _ & [Hm _ _ _ _ _ _]).
    destruct (Hno a). destruct Hm. by split.
  - destruct (CompleteJob_err _ _ _ _ _ _ _ E) as [ent ->]. by exists e, ent.
Qed.

Lemma latest_unique {V} (col : V → Z) (p : string → V → bool) (T : gmap string V) k v :
  T !! k = Some v → p k v = true → (∀ k' v', T !! k' = Some v' → p k' v' = true → k' = k) →
  latest col (rows_where p T) = Some (k, v).
Proof.
  intros Hk Hp Hu. assert (Hin : (k, v) ∈ rows_where p T) by (by apply elem_of_rows_where).
  destruct (latest col (rows_where p T)) as [[k' v']|] eqn:E.
  - apply latest_elem, elem_of_rows_where in E as [Hk' Hp'].
    assert (k' = k) as -> by (by eapply Hu). by rewrite Hk in Hk'; simplify_eq.
  - exfalso. unfold latest in E. apply (elem_of_order_by (desc col)) in Hin.
    destruct (order_by (desc col) (rows_where p T)); [set_solver|done].
Qed.

(** The customer reads back what was accepted: after a completion of a job that had
    no accepted result, [GetJob] for the job's organization reports the job succeeded
    with exactly the response the completion returned. *)
Theorem completed_job_readable p t h m db resp db' j :
  CompleteJob p t h m db = (Ok resp, db') → db_jobs db !! jc_JobID p = Some j →
  (∀ k r, db_job_results db !! k = Some r → res_job_id r ≠ jc_JobID p) →
  GetJob (j_organization_id j) (jc_JobID p) db' =
    (Ok {| jst_ID := jc_JobID p; jst_State := JSucceeded; jst_Model := j_model_id j;
           jst_CreatedAt := j_created_at j; jst_UpdatedAt := posted_at db t; jst_Result := Some resp |}, db').
Proof.
  intros (_ & rid & ent & a & j' & node & dur & lr & d2 & _ & [_ _ Hj Hfr _ _ ->])%CompleteJob_ok Hjob Hnone.
  simpl in Hj, Hfr. assert (j' = j) as -> by congruence.
  unfold GetJob, mbind, St_bind, gets, id, accepted_result. simpl. rewrite lookup_insert_eq. simpl.
  rewrite String.eqb_refl. simpl. unfold mret, St_ret. do 3 f_equal.
  rewrite (latest_unique _ _ _ rid (result_row p (posted_at db t) m resp dur (al_PriceVersion lr)));
    [reflexivity|by apply lookup_insert_eq|simpl; by rewrite String.eqb_refl|].
  intros k r. rewrite lookup_insert_Some. intros [[<- _]|[_ Hk]]; [done|].
  intros [Hr _]%andb_true_iff. apply String.eqb_eq in Hr. by destruct (Hnone k r Hk).
Qed.

(** ** Acceptance *)

(** The offer is still open for acceptance at a time, by the coordinator's clock. *)
Record offer_open (db : DB) (jobID attemptID : string) (t : Z) (a : AttemptRow) : Prop := {
  oo_row : db_job_attempts db !! attemptID = Some a;
  oo_job : at_job_id a = jobID;
  oo_status : at_status a = AOffered;
  oo_lease : t ≤ at_lease_expires_at a;
  oo_window : t ≤ at_created_at a + 2 * second
}.

Definition accepted_attempt (t : Z) (a : AttemptRow) : AttemptRow :=
  a <| at_status := AAccepted |> <| at_accepted_at := Some t |>.

(** The accept window: on a balanced database, accepting succeeds exactly when the
    attempt is of that job, still offered, within its lease and within two seconds of the
    offer; then exactly this attempt becomes accepted and its job, unless it has already
    succeeded, running. Otherwise nothing changes. *)
Theorem MarkAccepted_spec j a t db :
  posted_balanced db →
  match MarkAccepted j a t db with
  | (Ok _, db') => ∃ row, offer_open db j a t row ∧
      db_job_attempts db' = <[a := accepted_attempt t row]> (db_job_attempts db) ∧
      db_jobs db' = update_where (λ k job, String.eqb k j && negb (bool_decide (j_state job = JSucceeded)))
                      (job_state JRunning t) (db_jobs db)
  | (Err _, db') => (∀ row, ¬ offer_open db j a t row) ∧ ∃ ent, db' = db <| db_entropy := ent |>
  end.
Proof.
  intros Hb. destruct (MarkAccepted j a t db) as [[u|e] db'] eqn:E.
  - apply transaction_ok in E as [E _]. unfold update_attempt_or, update_attempt, update_job in E. run_inv.
    match goal with H : exists_row _ _ = true |- _ => apply exists_row_spec in H as (k & row & Hk & Hq) end.
    pose proof Hq as (-> & Hj & Hp)%attempt_where_true.
    rewrite !andb_true_iff, bool_decide_eq_true, !Z.leb_le in Hp. destruct Hp as [[Hs Hl] Hw].
    exists row. split; [by split|]. split; [|done].
    apply (update_where_one _ _ (db_job_attempts db) a row Hk Hq). by intros k' w (-> & _)%attempt_where_true.
  - pose proof (transaction_err _ _ _ _ E) as Hent. split; [|exact Hent]. intros row [Hk Hj Hs Hl Hw].
    unfold MarkAccepted, transaction in E.
    match type of E with match ?m db with _ => _ end = _ => destruct (m db) as [[v|e'] d] eqn:Em end.
    + unfold update_attempt_or, update_attempt, update_job in Em. run_inv.
      match type of E with match commit_check ?d' with _ => _ end = _ =>
        assert (Hc : is_ok (commit_check d') = true) by (by apply commit_check_ok);
        destruct (commit_check d') end; done.
    + clear E. unfold update_attempt_or, update_attempt, update_job, mbind, St_bind, gets, modify in Em.
      unfold guard_err in Em.
      match type of Em with context [exists_row ?q ?T] =>
        assert (Hq : exists_row q T = true) end.
      { apply exists_row_spec. exists a, row. split; [done|]. apply attempt_where_true. split_and!; try done.
        rewrite !andb_true_iff, bool_decide_eq_true, !Z.leb_le. by unfold accept_window. }
      rewrite Hq in Em. done.
Qed.

(** ** Reputation *)

Lemma rate4_bounds k n : 0 ≤ k ≤ n → 0 < n → 0 ≤ rate4 k n ≤ 10000.
Proof.
  intros Hk Hn. unfold rate4. split; [apply Z.div_pos; lia|].
  apply Z.lt_succ_r, Z.div_lt_upper_bound; nia.
Qed.
Lemma rate4_nearest k n : 0 < n → - n < 2 * (n * rate4 k n - 10000 * k) ≤ n.
Proof.
  intros Hn. unfold rate4. pose proof (Z.div_mod (2 * 10000 * k + n) (2 * n)).
  pose proof (Z.mod_pos_bound (2 * 10000 * k + n) (2 * n)). nia.
Qed.

(** What a reputation row says: its counters are counts, and its rates are the counts'
    quotients to four decimals. *)
Record reputation_wf (r : ReputationRow) : Prop := {
  rw_attempts : 0 ≤ rp_attempt_failed r ≤ rp_attempt_total r;
  rw_accepted : rp_total_accepted_jobs r = rp_attempt_total r - rp_attempt_failed r;
  rw_success : rp_rolling_success_rate r =
    if 0 <? rp_attempt_total r then rate4 (rp_total_accepted_jobs r) (rp_attempt_total r) else initial_rate;
  rw_duplicates : 0 ≤ rp_duplicate_disagreements r ≤ rp_duplicate_total r;
  rw_disagreement : rp_duplicate_disagreement_rate r =
    if 0 <? rp_duplicate_total r then rate4 (rp_duplicate_disagreements r) (rp_duplicate_total r) else 0;
  rw_challenges : 0 ≤ rp_challenge_failed r ≤ rp_challenge_total r;
  rw_pass : rp_challenge_pass_rate r =
    if 0 <? rp_challenge_total r
    then rate4 (rp_challenge_total r - rp_challenge_failed r) (rp_challenge_total r) else 10000;
  rw_timeout : 0 ≤ rp_timeout_rate r ≤ 10000
}.

Definition reputations_wf (db : DB) : Prop :=
  ∀ n r, db_node_reputation db !! n = Some r → reputation_wf r.
#[export] Instance reputations_wf_free : LedgerFree reputations_wf.
Proof. one_table. Qed.
#[export] Instance reputations_wf_registration : RegistrationFree reputations_wf.
Proof. one_table. Qed.

Lemma new_reputation_wf t : reputation_wf (new_reputation t).
Proof. by split. Qed.

Lemma attempt_outcome_wf r acc c t :
  reputation_wf r → rates_ok (attempt_outcome r acc c t) = true →
  reputation_wf (attempt_outcome r acc c t).
Proof.
  intros [A1 A2 A3 A4 A5 A6 A7 A8]. unfold attempt_outcome, rates_ok, rate_ok.
  destruct (Z.ltb_spec 0 (rp_attempt_total r + 1)); [|lia]. simpl.
  rewrite !andb_true_iff, !Z.leb_le. intros [[[H1 H2] H3] H4].
  split; simpl; auto; try (by destruct acc; lia).
  destruct (Z.ltb_spec 0 (rp_attempt_total r + 1)); [|lia]. f_equal. destruct acc; lia.
Qed.

Lemma duplicate_outcome_wf r d t : reputation_wf r → reputation_wf (duplicate_outcome r d t).
Proof. intros [A1 A2 A3 A4 A5 A6 A7 A8]. split; simpl; auto. destruct d; lia. Qed.

Lemma challenge_outcome_wf r f th t : reputation_wf r → reputation_wf (challenge_outcome r f th t).2.
Proof. intros [A1 A2 A3 A4 A5 A6 A7 A8]. split; simpl; auto. destruct f; lia. Qed.

(** Reading a node's row, making one when it has none. *)
Lemma ensure_reputation_run n t db :
  match ensure_reputation n t db with
  | (Ok r, db') => r = reputation_of db n t ∧
      (db' = db ∨ db' = db <| db_node_reputation ::= <[n := new_reputation t]> |>)
  | (Err _, db') => db' = db
  end.
Proof.
  unfold ensure_reputation, reputation_of, mbind, St_bind, gets, id.
  destruct (db_node_reputation db !! n) as [r|]; simpl; [by split; [|left]|].
  unfold wrap. destruct (constraint _ _ db) as [[u|e] d] eqn:E; simpl.
  - apply constraint_ok in E as [_ ->]. by split; [|right].
  - by destruct (has_key (db_nodes db) n); inversion E.
Qed.

Lemma reputations_ensure n t db :
  reputations_wf db → reputations_wf (ensure_reputation n t db).2 ∧
  reputation_wf (reputation_of db n t).
Proof.
  intros Hwf. split.
  - pose proof (ensure_reputation_run n t db) as H.
    destruct (ensure_reputation n t db) as [[r|e] db']; simpl; [destruct H as [_ [-> | ->]]|subst]; try done.
    intros n' r'. simpl. rewrite lookup_insert_Some. intros [[_ <-]|[_ H']]; [apply new_reputation_wf|].
    by apply (Hwf n').
  - unfold reputation_of. destruct (db_node_reputation db !! n) eqn:E; simpl; [by apply (Hwf n)|].
    apply new_reputation_wf.
Qed.

Lemma reputations_set n r : reputation_wf r ∨ rates_ok r = false → preserves reputations_wf (set_reputation n r).
Proof.
  intros Hr db Hdb. unfold set_reputation, mbind, St_bind. fold (rates_ok r).
  destruct (rates_ok r) eqn:E; simpl; [|done]. destruct Hr as [Hr|]; [|done].
  intros n' r'. simpl. rewrite lookup_insert_Some. intros [[_ <-]|[_ H']]; [done|by apply (Hdb n')].
Qed.

Lemma reputations_update (f : ReputationRow → ReputationRow) c n t :
  (∀ r, reputation_wf r → reputation_wf (f r) ∨ rates_ok (f r) = false) →
  preserves reputations_wf (r ← ensure_reputation n t; wrap c (set_reputation n (f r))).
Proof.
  intros Hf db Hdb. unfold mbind, St_bind. pose proof (ensure_reputation_run n t db) as H.
  destruct (reputations_ensure n t db Hdb) as [He Hr].
  destruct (ensure_reputation n t db) as [[r|e] d]; simpl in *; [|done]. destruct H as [-> _].
  apply preserves_wrap; [|done]. by apply reputations_set, Hf.
Qed.

Lemma reputations_attempt n acc c t : preserves reputations_wf (updateAttemptReputation n acc c t).
Proof.
  apply (reputations_update (λ r, attempt_outcome r acc c t)). intros r Hr.
  destruct (rates_ok (attempt_outcome r acc c t)) eqn:E; [left|by right]. by apply attempt_outcome_wf.
Qed.
Lemma reputations_duplicate n d t : preserves reputations_wf (updateDuplicateReputation n d t).
Proof.
  apply (reputations_update (λ r, duplicate_outcome r d t)). intros r Hr. left. by apply duplicate_outcome_wf.
Qed.
Lemma reputations_challenge n f th t : preserves reputations_wf (updateChallengeReputation n f th t).
Proof.
  intros db Hdb. unfold updateChallengeReputation, mbind at 1, St_bind at 1.
  pose proof (ensure_reputation_run n t db) as H. destruct (reputations_ensure n t db Hdb) as [He Hr].
  destruct (ensure_reputation n t db) as [[r|e] d]; simpl in *; [|done]. destruct H as [-> _].
  match goal with |- reputations_wf (?m d).2 => refine ((_ : preserves reputations_wf m) d He) end.
  pose proof (challenge_outcome_wf _ f th t Hr) as Hc. simpl in Hc.
  solve_inv; first [by apply reputations_set; left|unfold quarantine_node; solve_inv].
Qed.

(** An operator's quarantine does not touch the counters. *)
Lemma reputations_quarantine n why t : preserves reputations_wf (quarantine_reputation n why t).
Proof.
  intros db Hdb. unfold quarantine_reputation, mbind, St_bind, gets, id.
  destruct (db_node_reputation db !! n) as [r|] eqn:E; simpl.
  - intros n' r'. simpl. rewrite lookup_insert_Some. intros [[_ <-]|[_ H]]; [|by apply (Hdb n')].
    destruct (Hdb n r E). by split.
  - destruct (constraint _ _ db) as [[u|e] d] eqn:Ec; simpl.
    + apply constraint_ok in Ec as [_ ->]. intros n' r'. simpl. rewrite lookup_insert_Some.
      intros [[_ <-]|[_ H]]; [by split|by apply (Hdb n')].
    + by destruct (has_key (db_nodes db) n); inversion Ec; subst.
Qed.

#[export] Instance reputations_store_inv : StoreInv reputations_wf.
Proof.
  apply ledger_free_store_inv; [apply _|apply _|done|done|done|done|done|done|..].
  - intros. unfold insert_attempt. solve_inv.
  - intros. unfold update_attempt. solve_inv.
  - apply reputations_attempt.
  - apply reputations_duplicate.
  - apply reputations_challenge.
  - intros. unfold quarantine_node. solve_inv.
  - apply reputations_quarantine.
  - intros. unfold recordOperatorActionTx. solve_inv.
  - intros. unfold upsert_signup. solve_inv.
  - intros. unfold CompleteJob, complete_tx, select_attempt, completable, insert_result, mark_succeeded,
      update_attempt, update_job, updateAcceptedReputation, nodeIDForAttempt.
    repeat first [apply preserves_transaction; [apply _|]|progress solve_inv]. apply reputations_attempt.
Qed.

(** Reputation is earned, not drifted: after any sequence of store operations every
    node's success rate is its accepted attempts over its attempts, its challenge pass
    rate and its disagreement rate likewise, each rounded to four decimals, and all of
    them are fractions between 0 and 1. *)
Theorem reputation_counts ops db n r :
  reputations_wf db → db_node_reputation (run_ops ops db) !! n = Some r →
  reputation_wf r ∧ 0 ≤ rp_rolling_success_rate r ≤ 10000 ∧ 0 ≤ rp_challenge_pass_rate r ≤ 10000 ∧
  0 ≤ rp_duplicate_disagreement_rate r ≤ 10000 ∧
  (0 < rp_attempt_total r →
   2 * Z.abs (rp_attempt_total r * rp_rolling_success_rate r - 10000 * rp_total_accepted_jobs r)
     ≤ rp_attempt_total r).
Proof.
  intros Hwf Hr. assert (Hw : reputation_wf r).
  { by apply (si_run_ops reputations_wf ops db Hwf n). }
  split; [done|]. destruct Hw as [A1 A2 A3 A4 A5 A6 A7 A8]. rewrite A3, A5, A7.
  split; [|split; [|split]]; try (match goal with |- context [if 0 <? ?x then _ else _] =>
    destruct (Z.ltb_spec 0 x); [apply rate4_bounds; lia|unfold initial_rate; lia] end).
  intros Hp. destruct (Z.ltb_spec 0 (rp_attempt_total r)); [|lia].
  pose proof (rate4_nearest (rp_total_accepted_jobs r) (rp_attempt_total r)). lia.
Qed.

(** ** Quarantine *)

Definition quarantined (n : string) (db : DB) : Prop :=
  ∃ row, db_nodes db !! n = Some row ∧ is_Some (n_quarantined_at row).
#[export] Instance quarantined_free n : LedgerFree (quarantined n).
Proof. one_table. Qed.
#[export] Instance quarantined_registration n : RegistrationFree (quarantined n).
Proof.
  split; [by intros ? ?|by intros..| |].
  - intros db k row Hk (r & Hr & Hq). exists r. split; [|done]. simpl.
    rewrite lookup_insert_ne; [done|]. intros ->. by rewrite Hk in Hr.
  - intros db q f Hf (r & Hr & Hq). eexists. split.
    + simpl. by rewrite lookup_update_where, Hr.
    + simpl. case_match; [by rewrite Hf|done].
Qed.

Lemma quarantined_node n m t : preserves (quarantined n) (quarantine_node m t).
Proof.
  intros db (row & Hn & Hq). unfold quarantine_node, quarantined. simpl. rewrite lookup_update_where, Hn. simpl.
  eexists. split; [done|]. by destruct (m =? n)%string, (n =? m)%string; simpl.
Qed.

#[export] Instance quarantined_store_inv n : StoreInv (quarantined n).
Proof.
  apply ledger_free_store_inv; [apply _|apply _|done|done|done|done|done|done|..].
  - intros. unfold insert_attempt. solve_inv.
  - intros. unfold update_attempt. solve_inv.
  - intros. unfold updateAttemptReputation, ensure_reputation, set_reputation. solve_inv.
  - intros. unfold updateDuplicateReputation, ensure_reputation, set_reputation. solve_inv.
  - intros. unfold updateChallengeReputation, ensure_reputation, set_reputation. solve_inv;
      apply quarantined_node.
  - intros. apply quarantined_node.
  - intros. unfold quarantine_reputation. solve_inv.
  - intros. unfold recordOperatorActionTx. solve_inv.
  - intros. unfold upsert_signup. solve_inv.
  - intros. unfold CompleteJob, complete_tx, select_attempt, completable, insert_result, mark_succeeded,
      update_attempt, update_job, updateAcceptedReputation, nodeIDForAttempt, updateAttemptReputation,
      ensure_reputation, set_reputation.
    repeat first [apply preserves_transaction; [apply _|]|progress solve_inv].
Qed.

(** A candidate satisfies every condition of the query. *)
Record eligible (db : DB) (modelID : string) (cutoff : Z) (c : Candidate) : Prop := {
  el_node : ∃ row, db_nodes db !! NodeID c = Some row ∧ n_state row = "AVAILABLE" ∧
    n_current_model_id row = Some modelID ∧ n_quarantined_at row = None;
  el_session : ∃ s h, node_session db (NodeID c) = Some (SessionID c, s) ∧ cutoff ≤ freshness s ∧
    node_heartbeat db (NodeID c) (SessionID c) = Some h ∧ heartbeat_ready h = true ∧
    ∃ v, v ∈ model_files db modelID ∧ hr_model_hash h = Some (sha_tag (ma_sha256 (snd (snd v)))) ∧
      ModelHash c = sha_tag (ma_sha256 (snd (snd v))) ∧
      runtime_matches db (fst (snd v)) (hr_runtime_hash h) = true;
  el_idle : node_busy db (NodeID c) = false
}.

Lemma ready_node_spec db m cut k n s h :
  ready_node db m cut k n = Some (s, h) →
  n_state n = "AVAILABLE" ∧ n_current_model_id n = Some m ∧ n_quarantined_at n = None ∧
  (∃ sess, node_session db k = Some (s, sess) ∧ cut ≤ freshness sess) ∧
  node_heartbeat db k s = Some h ∧ heartbeat_ready h = true ∧ node_busy db k = false.
Proof.
  unfold ready_node. intros H. apply bind_Some in H as ([s' sess] & Hs & H).
  apply bind_Some in H as (h' & Hh & H). simpl in H. case_match; [|done]. simplify_eq.
  match goal with H : _ && _ = true |- _ => rename H into Hc end.
  rewrite !andb_true_iff, !bool_decide_eq_true, String.eqb_eq, Z.leb_le, negb_true_iff in Hc.
  naive_solver.
Qed.

Lemma eligible_nodes_sound db m cut c : c ∈ eligible_nodes db m cut → eligible db m cut c.
Proof.
  unfold eligible_nodes. rewrite list_elem_of_join. intros (l & Hc & Hl).
  apply list_elem_of_fmap in Hl as ([k n] & -> & Hk).
  apply elem_of_order_by, elem_of_map_to_list in Hk. unfold node_candidates in Hc. simpl in Hc.
  destruct (ready_node db m cut k n) as [[s h]|] eqn:E; [|by apply not_elem_of_nil in Hc].
  apply list_elem_of_fmap in Hc as (v & -> & Hv). apply list_elem_of_filter in Hv as [Hv Hin].
  apply ready_node_spec in E as (H1 & H2 & H3 & (sess & H4 & H5) & H6 & H7 & H8).
  apply andb_true_iff in Hv as [Hh Hr]. apply bool_decide_eq_true in Hh.
  split; simpl; [by exists n| |done]. exists sess, h. split_and!; auto. exists v. split_and!; auto. by rewrite Hh.
Qed.

Lemma quarantined_not_eligible n db m cut c :
  quarantined n db → c ∈ eligible_nodes db m cut → NodeID c ≠ n.
Proof.
  intros (row & Hn & [q Hq]) [(row' & Hn' & _ & _ & Hq') _ _]%eligible_nodes_sound <-. congruence.
Qed.

Lemma updateChallengeReputation_run n f th t db b db' :
  updateChallengeReputation n f th t db = (Ok b, db') →
  let r := reputation_of db n t in
  b = (challenge_outcome r f th t).1 ∧
  db_node_reputation db' = <[n := (challenge_outcome r f th t).2]> (db_node_reputation db) ∧
  db_nodes db' = if b then update_where (λ k _, String.eqb k n)
    (λ x, x <| n_quarantined_at ::= λ q, Some (default t q) |> <| n_updated_at := t |>) (db_nodes db)
    else db_nodes db.
Proof.
  unfold updateChallengeReputation. intros H. apply bind_ok in H as (r & d & He & H).
  pose proof (ensure_reputation_run n t db) as Hr. rewrite He in Hr. destruct Hr as [-> Hd].
  assert (Hrep : ∀ x, <[n := x]> (db_node_reputation d) = <[n := x]> (db_node_reputation db)).
  { intros x. destruct Hd as [-> | ->]; [done|]. simpl. by rewrite insert_insert_eq. }
  assert (Hn : db_nodes d = db_nodes db) by (by destruct Hd as [-> | ->]).
  destruct (challenge_outcome (reputation_of db n t) f th t) as [q r'] eqn:Ec.
  unfold set_reputation, quarantine_node in H. run_inv. constraints. run_inv.
  destruct q; run_inv; simpl; rewrite Hn; by split_and!.
Qed.

Lemma insertVerificationEventTx_run j a n ty s d now db u db' :
  insertVerificationEventTx j a n ty s d now db = (Ok u, db') →
  db_nodes db' = db_nodes db ∧ db_node_reputation db' = db_node_reputation db ∧ db_now db' = db_now db.
Proof.
  unfold insertVerificationEventTx. intros H. run_inv.
  match goal with H : ids_New _ _ = _ |- _ => apply ids_New_ok in H as (? & ? & _ & _ & ->) end.
  constraints. run_inv. constraints. run_inv. done.
Qed.

(** The challenge threshold: recording a failed challenge that is not the node's first
    and brings its failures to the threshold (three by default) quarantines the node: from
    then on, through any sequence of store operations, no model lists it among its
    eligible nodes. A passed challenge, or one below the threshold, leaves every node's
    quarantine as it was. *)
Theorem challenge_threshold o th db db' :
  RecordChallengeOutcome o th db = (Ok tt, db') →
  let now := posted_at db (co_OccurredAt o) in
  let r := reputation_of db (co_NodeID o) now in
  let trips := negb (co_Passed o) && (1 <=? rp_challenge_total r) &&
               (default_pos th 3 <=? rp_challenge_failed r + 1) in
  (trips = true → is_Some (db_nodes db !! co_NodeID o) →
   ∀ ops m cut c, c ∈ eligible_nodes (run_ops ops db') m cut → NodeID c ≠ co_NodeID o) ∧
  (trips = false → db_nodes db' = db_nodes db).
Proof.
  intros H now r trips. unfold RecordChallengeOutcome in H. apply bind_ok in H as (t & d & Ht & H).
  apply or_now_ok in Ht as [-> ->]. apply transaction_ok in H as [H _].
  apply bind_ok in H as (u & d1 & He & H). apply insertVerificationEventTx_run in He as (Hn1 & Hr1 & _).
  apply bind_ok in H as (b & d2 & Hc & H). apply updateChallengeReputation_run in Hc as (Hb & _ & Hn2).
  change (if is_zero_time (co_OccurredAt o) then db_now db else co_OccurredAt o) with now in *.
  assert (Hr : reputation_of d1 (co_NodeID o) now = r) by (unfold r, reputation_of; by rewrite Hr1).
  rewrite Hr in Hb. simpl in Hb.
  assert (b = trips) as ->.
  { rewrite Hb. unfold trips. destruct (co_Passed o); simpl; [done|].
    destruct (Z.ltb_spec 1 (rp_challenge_total r + 1)), (Z.leb_spec 1 (rp_challenge_total r)); try lia; done. }
  assert (Hn' : db_nodes db' = db_nodes d2).
  { destruct trips; run_inv; [|done]. by apply insertVerificationEventTx_run in H as (-> & _). }
  split.
  - intros Htr [row Hrow] ops m cut c Hin.
    refine (quarantined_not_eligible _ _ _ _ _ _ Hin). apply (si_run_ops (quarantined _)).
    unfold quarantined. rewrite Hn', Hn2, Htr, Hn1, lookup_update_where, Hrow. simpl.
    rewrite String.eqb_refl. eexists. split; [done|]. simpl. by eexists.
  - intros Htr. rewrite Hn', Hn2, Htr. exact Hn1.
Qed.

(** ** Eligibility *)

Lemma attempt_busy db k a n :
  db_job_attempts db !! k = Some a → at_node_id a = Some n → active_status (at_status a) = true →
  node_busy db n = true.
Proof.
  intros Hk Hn Ha. unfold node_busy. apply exists_row_spec. exists k, a. split; [done|].
  by rewrite Hn, Ha, bool_decide_eq_true_2.
Qed.

Lemma CreateAttempt_run j n l d db s db' :
  CreateAttempt j n l d db = (Ok s, db') →
  sa_JobID s = j ∧ sa_NodeID s = n ∧ is_Some (db_jobs db !! j) ∧ ∃ nonce,
  db_job_attempts db !! sa_AttemptID s = None ∧
  db_job_attempts db' = <[sa_AttemptID s := offered_row j n nonce (next_attempt_number db j) l d (db_now db)]>
                          (db_job_attempts db).
Proof.
  unfold CreateAttempt, update_job. intros H. run_inv.
  repeat match goal with H : ids_New _ _ = _ |- _ => apply ids_New_ok in H as (? & ? & ? & -> & ->) end.
  match goal with H : transaction _ _ = _ |- _ => apply transaction_ok in H as [Hrun _] end. run_inv.
  match goal with H : insert_attempt _ _ _ = _ |- _ => apply insert_attempt_ok in H as (Hk & Hj & _ & _ & ->) end.
  split_and!; try done. eexists. split; [exact Hk|]. done.
Qed.

(** One job at a time: after a job was offered to a node, and whatever operations of
    the store follow, as long as that attempt is offered, accepted or running the node is
    on no model's list of eligible nodes. *)
Theorem busy_node_not_eligible j n l d db s db' ops a m cut c :
  CreateAttempt j n l d db = (Ok s, db') →
  db_job_attempts (run_ops ops db') !! sa_AttemptID s = Some a → active_status (at_status a) = true →
  c ∈ eligible_nodes (run_ops ops db') m cut → NodeID c ≠ n.
Proof.
  intros (_ & _ & _ & nonce & _ & Hat)%CreateAttempt_run Ha Hact [_ _ Hidle]%eligible_nodes_sound <-.
  destruct (run_ops_advance ops db') as [Hadv _]. rewrite Hat in Hadv.
  destruct (Hadv (sa_AttemptID s) _ (lookup_insert_eq _ _ _)) as (a' & Ha' & Hst).
  assert (a' = a) as -> by congruence. apply rtc_attempt_step in Hst as (_ & Hn & _).
  rewrite (attempt_busy _ _ a (NodeID c) Ha) in Hidle; [done|by rewrite Hn|done].
Qed.

(** What the catalog advertises is at least what the scheduler can use: the number of
    available nodes reported for a model is no smaller than the number of different nodes
    eligible for it at the same cutoff. *)
Theorem availability_covers_eligible db m cut :
  ∃ n, Availability m cut db = (Ok n, db) ∧
    Z.of_nat (length (remove_dups (NodeID <$> eligible_nodes db m cut))) ≤ n.
Proof.
  eexists. split; [reflexivity|]. apply Nat2Z.inj_le. unfold id.
  set (rows := rows_where _ _). replace (length rows) with (length rows.*1) by apply length_fmap.
  apply submseteq_length, NoDup_submseteq; [apply NoDup_remove_dups|].
  intros x. rewrite elem_of_remove_dups, !list_elem_of_fmap. intros (c & -> & Hc).
  unfold eligible_nodes in Hc. apply list_elem_of_join in Hc as (l & Hc & Hl).
  apply list_elem_of_fmap in Hl as ([k row] & -> & Hk). apply elem_of_order_by, elem_of_map_to_list in Hk.
  unfold node_candidates in Hc. simpl in Hc.
  destruct (ready_node db m cut k row) as [[s h]|] eqn:E; [|by apply not_elem_of_nil in Hc].
  apply list_elem_of_fmap in Hc as (v & -> & _). exists (k, row). split; [done|].
  apply elem_of_rows_where. split; [done|]. rewrite E. by apply bool_decide_eq_true.
Qed.

(** ** Idempotency *)

Lemma rows_where_one {V} (p : string → V → bool) (T : gmap string V) k v :
  T !! k = Some v → p k v = true → (∀ k' v', T !! k' = Some v' → p k' v' = true → k' = k) →
  rows_where p T = [(k, v)].
Proof.
  intros Hk Hp Hu. assert (Hin : (k, v) ∈ rows_where p T) by (by apply elem_of_rows_where).
  pose proof (rows_where_NoDup p T) as Hnd.
  assert (Hall : ∀ x, x ∈ rows_where p T → x = (k, v)).
  { intros [k' v'] [Hk' Hp']%elem_of_rows_where. assert (k' = k) as -> by (by eapply Hu). congruence. }
  destruct (rows_where p T) as [|x [|y l]]; [by apply not_elem_of_nil in Hin| |].
  - by rewrite (Hall x) by set_solver.
  - exfalso. rewrite (Hall x), (Hall y) in Hnd by set_solver. simpl in Hnd.
    rewrite NoDup_cons in Hnd. destruct Hnd as [Hnd _]. apply Hnd. set_solver.
Qed.

Lemma rows_where_none {V} (p : string → V → bool) (T : gmap string V) :
  (∀ k v, T !! k = Some v → p k v = false) → rows_where p T = [].
Proof.
  intros H. destruct (rows_where p T) as [|[k v] l] eqn:E; [done|].
  assert (Hin : (k, v) ∈ rows_where p T) by (rewrite E; by left).
  apply elem_of_rows_where in Hin as [Hk Hp]. by rewrite (H k v Hk) in Hp.
Qed.

(** No record of the key yet. *)
Definition unused_key (db : DB) (ak ep key : string) : Prop :=
  ∀ k r, db_idempotency_records db !! k = Some r → same_request ak ep key k r = false.

Lemma same_request_refl r k : same_request (id_api_key_id r) (id_endpoint r) (id_idempotency_key r) k r = true.
Proof. unfold same_request. by rewrite !String.eqb_refl. Qed.

(** What storing a response for a fresh key does. *)
Lemma StoreIdempotencyResponse_fresh ak ep key h j status body expires db :
  unused_key db ak ep key →
  match StoreIdempotencyResponse ak ep key h j status body expires db with
  | (Ok _, db') => ∃ ent id, db' = db <| db_entropy := ent |> <| db_idempotency_records ::= <[id := {|
      id_api_key_id := ak; id_endpoint := ep; id_idempotency_key := key; id_request_hash := h;
      id_response_status := status; id_response_metadata := body; id_job_id := Some j;
      id_created_at := db_now db; id_expires_at := expires |}]> |>
  | (Err _, db') => ∃ ent, db' = db <| db_entropy := ent |>
  end.
Proof.
  intros Hfresh. unfold StoreIdempotencyResponse, mbind, St_bind, ids_New.
  destruct (db_entropy db) as [|b rest] eqn:E; [exists []; by destruct db; simplify_eq/=|].
  unfold gets, wrap, constraint, guard_err, id. simpl. destruct (has_key _ _); simpl; [|by exists rest].
  destruct (has_key _ _); simpl; [|by exists rest]. rewrite (rows_where_none (same_request ak ep key)) by done.
  destruct (fresh_key _ _); simpl; [|by exists rest]. by eexists rest, _.
Qed.

(** The lookup of a key with one record. *)
Lemma IdempotencyRecord_one ak ep key db k r :
  db_idempotency_records db !! k = Some r → same_request ak ep key k r = true →
  (∀ k' r', db_idempotency_records db !! k' = Some r' → same_request ak ep key k' r' = true → k' = k) →
  (IdempotencyRecord_ ak ep key db).1 =
    if db_now db <? id_expires_at r then
      Ok ({| ir_RequestHash := id_request_hash r; ir_ResponseStatus := id_response_status r;
             ir_ResponseMetadata := id_response_metadata r; ir_JobID := default "" (id_job_id r) |}, true)
    else Ok ({| ir_RequestHash := ""; ir_ResponseStatus := 0; ir_ResponseMetadata := ""; ir_JobID := "" |}, false).
Proof.
  intros Hk Hs Hu. unfold IdempotencyRecord_, mbind, St_bind, gets, mret, St_ret, id. simpl.
  destruct (Z.ltb_spec (db_now db) (id_expires_at r)) as [Hlt|Hge].
  - erewrite (rows_where_one _ _ k r); [done|done| |].
    + rewrite Hs. by apply Z.ltb_lt.
    + intros k' r' Hk' [Hs' _]%andb_true_iff. by apply (Hu k' r').
  - rewrite rows_where_none; [done|]. intros k' r' Hk'. destruct (same_request ak ep key k' r') eqn:E; [|done].
    rewrite (Hu k' r' Hk' E) in Hk'. assert (r' = r) as -> by congruence. simpl. by apply Z.ltb_ge.
Qed.

(** No other operation touches the table of the records. *)
Definition records_are (T : gmap string IdempotencyRow) (db : DB) : Prop := db_idempotency_records db = T.
#[export] Instance records_are_free T : LedgerFree (records_are T).
Proof. one_table. Qed.
#[export] Instance records_are_registration T : RegistrationFree (records_are T).
Proof. one_table. Qed.
#[export] Instance records_are_quiet T : QuietInv (records_are T).
Proof.
  apply ledger_free_quiet; [apply _|apply _|done|done|done|done|done|..].
  - intros. unfold insert_attempt. solve_inv.
  - intros. unfold update_attempt. solve_inv.
  - intros. unfold updateAttemptReputation, ensure_reputation, set_reputation. solve_inv.
  - intros. unfold updateDuplicateReputation, ensure_reputation, set_reputation. solve_inv.
  - intros. unfold updateChallengeReputation, ensure_reputation, set_reputation, quarantine_node. solve_inv.
  - intros. unfold quarantine_node. solve_inv.
  - intros. unfold quarantine_reputation. solve_inv.
  - intros. unfold recordOperatorActionTx. solve_inv.
  - intros. unfold upsert_signup. solve_inv.
  - intros. unfold CompleteJob, complete_tx, select_attempt, completable, insert_result, mark_succeeded,
      update_attempt, update_job, updateAcceptedReputation, nodeIDForAttempt, updateAttemptReputation,
      ensure_reputation, set_reputation.
    repeat first [apply preserves_transaction; [apply _|]|progress solve_inv].
Qed.

(** The one record of a key. *)
Record record_of (ak ep key id : string) (row : IdempotencyRow) (db : DB) : Prop := {
  ro_row : db_idempotency_records db !! id = Some row;
  ro_same : same_request ak ep key id row = true;
  ro_only k r : db_idempotency_records db !! k = Some r → same_request ak ep key k r = true → k = id
}.

(** An operation that stores no answer under the key. *)
Definition other_key (ak ep key : string) (op : store_op) : Prop :=
  match op with OpStoreIdempotencyResponse a e k _ _ _ _ _ => ¬ (a = ak ∧ e = ep ∧ k = key) | _ => True end.

Lemma same_request_true ak ep key k r : same_request ak ep key k r = true ↔
  id_api_key_id r = ak ∧ id_endpoint r = ep ∧ id_idempotency_key r = key.
Proof. unfold same_request. rewrite !andb_true_iff, !String.eqb_eq. tauto. Qed.

Lemma record_of_insert ak ep key id row db id' row' f :
  record_of ak ep key id row db → same_request ak ep key id' row' = false →
  record_of ak ep key id row (db <| db_entropy ::= f |> <| db_idempotency_records ::= <[id' := row']> |>) ∨ id' = id.
Proof.
  intros [Hr Hs Ho] Hn. destruct (decide (id' = id)) as [->|Hne]; [by right|]. left. split; [|done|].
  - simpl. by rewrite lookup_insert_ne.
  - intros k r. simpl. rewrite lookup_insert_Some. intros [[<- <-]|[_ Hk]] E; [by rewrite Hn in E|by apply (Ho k r)].
Qed.

Lemma StoreIdempotencyResponse_other ak ep key id row a e k h j s b x db :
  ¬ (a = ak ∧ e = ep ∧ k = key) → record_of ak ep key id row db →
  record_of ak ep key id row (StoreIdempotencyResponse a e k h j s b x db).2.
Proof.
  intros Hne Hdb. destruct Hdb as [Hr Hs Ho]. unfold StoreIdempotencyResponse, mbind, St_bind, ids_New.
  destruct (db_entropy db) as [|en rest]; [done|].
  unfold gets, wrap, constraint, guard_err, Datatypes.id. cbn.
  destruct (has_key _ _); cbn; [|done]. destruct (has_key _ _); cbn; [|done].
  destruct (rows_where (same_request a e k) _) as [|[id' r'] l] eqn:E; cbn.
  - destruct (fresh_key _ _) eqn:Ef; cbn; [|done]. apply fresh_key_true in Ef.
    match goal with |- context [<[?i := ?rw]>] => destruct (record_of_insert ak ep key id row db i rw tail) as [H|H]; [done| | |] end.
    + apply not_true_iff_false. rewrite same_request_true. cbn. naive_solver.
    + by destruct H.
    + congruence.
  - assert (Hin : (id', r') ∈ rows_where (same_request a e k) (db_idempotency_records db)) by (rewrite E; by left).
    apply elem_of_rows_where in Hin as [Hk' Hs'%same_request_true].
    match goal with |- context [<[?i := ?rw]>] => destruct (record_of_insert ak ep key id row db i rw tail) as [H|H]; [done| | |] end.
    + apply not_true_iff_false. rewrite same_request_true. cbn. naive_solver.
    + by destruct H.
    + subst id'. rewrite Hr in Hk'. injection Hk' as <-. apply same_request_true in Hs. naive_solver.
Qed.

(** The record of a key stays what it is until another answer is stored under the key. *)
Lemma record_of_run_op ak ep key id row op db :
  other_key ak ep key op → record_of ak ep key id row db → record_of ak ep key id row (run_op op db).
Proof.
  intros Hop Hdb. destruct (stores_answer op) eqn:E.
  - destruct op; try discriminate E. by apply StoreIdempotencyResponse_other.
  - assert (Ht : records_are (db_idempotency_records db) (run_op op db)) by by apply si_quiet_op; [apply _|..].
    destruct Hdb as [Hr Hs Ho]. unfold records_are in Ht. split; rewrite ?Ht; done.
Qed.

Lemma record_of_run_ops ak ep key id row ops db :
  Forall (other_key ak ep key) ops → record_of ak ep key id row db → record_of ak ep key id row (run_ops ops db).
Proof.
  intros Hops. revert db. induction Hops as [|op ops Hop Hops IH]; intros db Hdb; [done|]. cbn.
  apply IH. by apply record_of_run_op.
Qed.

(** Idempotent replay: once the response of a request with a fresh idempotency key is
    stored, and until it expires, the same key with the same request hash replays exactly
    that status and body, and with any other hash is refused as a conflict. *)
Theorem idempotency_replay ak ep key h j status body expires db db' :
  unused_key db ak ep key → db_now db < expires → 0 < status →
  StoreIdempotencyResponse ak ep key h j status body expires db = (Ok tt, db') →
  ∃ record, IdempotencyRecord_ ak ep key db' = (Ok (record, true), db') ∧ ir_JobID record = j ∧
    ResolveIdempotency record true h = IdemReplay status body ∧
    ∀ h', h' ≠ h → ∃ e, ResolveIdempotency record true h' = IdemError e.
Proof.
  intros Hfresh Hexp Hst H. pose proof (StoreIdempotencyResponse_fresh ak ep key h j status body expires db Hfresh) as Hs.
  rewrite H in Hs. destruct Hs as (ent & id & ->).
  match type of H with _ = (_, ?d) => pose proof (IdempotencyRecord_one ak ep key d id _ (lookup_insert_eq _ _ _)) as Hr end.
  simpl in Hr. rewrite (proj2 (Z.ltb_lt _ _) Hexp) in Hr.
  eexists. split.
  - unfold IdempotencyRecord_, mbind, St_bind, gets, mret, St_ret in *. simpl in *. f_equal. apply Hr.
    + unfold same_request. simpl. by rewrite !String.eqb_refl.
    + intros k' r'. rewrite lookup_insert_Some. intros [[<- _]|[_ Hk]] Hs; [done|]. by rewrite (Hfresh k' r' Hk) in Hs.
  - unfold ResolveIdempotency. simpl. split; [done|]. split.
    + rewrite String.eqb_refl. simpl. by destruct (Z.ltb_spec 0 status); [|lia].
    + intros h' Hne. rewrite (proj2 (String.eqb_neq h h')) by congruence. simpl. by eexists.
Qed.

(** An expired key never becomes idempotent again: storing a response for a key whose
    record has expired keeps the old expiry, so right after a successful store the key is
    still not found and a retry runs the request again. *)
Theorem expired_key_not_refreshed ak ep key h j status body expires db db' k0 r0 :
  db_idempotency_records db !! k0 = Some r0 → same_request ak ep key k0 r0 = true →
  (∀ k r, db_idempotency_records db !! k = Some r → same_request ak ep key k r = true → k = k0) →
  id_expires_at r0 ≤ db_now db →
  StoreIdempotencyResponse ak ep key h j status body expires db = (Ok tt, db') →
  ∃ record, IdempotencyRecord_ ak ep key db' = (Ok (record, false), db') ∧
    ResolveIdempotency record false h = IdemProceed.
Proof.
  intros Hk0 Hs0 Hu Hexp. unfold StoreIdempotencyResponse. intros H. run_inv.
  match goal with H : ids_New _ _ = _ |- _ => apply ids_New_ok in H as (b & rest & _ & -> & ->) end.
  constraints. run_inv. constraints. simpl in *.
  rewrite (rows_where_one (same_request ak ep key) _ k0 r0) in * by done. run_inv.
  eexists. split; [|reflexivity].
  unfold IdempotencyRecord_, mbind, St_bind, gets, mret, St_ret, id. simpl. do 3 f_equal.
  rewrite rows_where_none; [reflexivity|].
  intros k r. rewrite lookup_insert_Some. intros [[<- <-]|[Hne Hk]].
  - simpl. apply andb_false_iff. right. by apply Z.ltb_ge.
  - apply andb_false_iff. left. destruct (same_request ak ep key k r) eqn:E; [|done].
    destruct Hne. symmetry. by apply (Hu k r).
Qed.

(** ** API keys *)

Lemma grant_models_run keyID ms db u db' :
  for_each (grant_model keyID) ms db = (Ok u, db') →
  db' = db <| db_permissions := db_permissions db ∪ list_to_set (pair keyID <$> ms) |>.
Proof.
  revert db. induction ms as [|m ms IH]; intros db; simpl.
  - intros H. run_inv. rewrite union_empty_r_L. by destruct db.
  - intros H. apply bind_ok in H as (v & d & Hg & Hf). apply IH in Hf as ->.
    unfold grant_model in Hg. run_inv. constraints.
    assert (E : ∀ X Y : gset (string * string), {[(keyID, m)]} ∪ X ∪ Y = X ∪ ({[(keyID, m)]} ∪ Y)) by set_solver.
    unfold upd_field. simpl. by rewrite E.
Qed.

(** A new API key works: after a key was created, looking up the hash of its raw
    value yields that key, its organization, and exactly the models it was created with,
    or every routable model when none were named. *)
Theorem api_key_lookup org name raw ms db keyID db' :
  (∀ p, p ∈ db_permissions db → is_Some (db_api_keys db !! p.1)) →
  CreateAPIKey org name raw ms db = (Ok keyID, db') →
  APIKeyByHash (HashAPIKey raw) db' =
    (Ok {| pr_ID := keyID; pr_OrganizationID := org;
           pr_AllowedModels := list_to_set (match ms with [] => (routable_models db).*1 | _ => ms end) |}, db').
Proof.
  intros Hfk. unfold CreateAPIKey. intros H. run_inv.
  match goal with H : ids_New _ _ = _ |- _ => apply ids_New_ok in H as (b & rest & _ & -> & ->) end.
  match goal with H : transaction _ _ = _ |- _ => apply transaction_ok in H as [Hrun _] end. run_inv.
  match goal with H : for_each _ _ _ = _ |- _ => apply grant_models_run in H as -> end.
  unfold insert_api_key in *. run_inv. constraints. run_inv. constraints.
  match goal with H : fresh_key _ _ = true |- _ => apply fresh_key_true in H as Hf end. simpl in Hf.
  match goal with H : negb (exists_row _ _) = true |- _ =>
    rewrite negb_true_iff, exists_row_false in H; rename H into Hh end.
  unfold APIKeyByHash, mbind, St_bind, gets, id. simpl.
  erewrite (rows_where_one _ (<[_ := _]> _)); [|apply lookup_insert_eq|simpl; by rewrite String.eqb_refl|].
  2: { intros k v. rewrite lookup_insert_Some. intros [[<- _]|[_ Hk]]; [done|].
       intros [Hs _]%andb_true_iff. by rewrite (Hh k v Hk) in Hs. }
  simpl. unfold mret, St_ret. do 3 f_equal. apply set_eq. intros m.
  rewrite elem_of_map. setoid_rewrite elem_of_filter. setoid_rewrite elem_of_union.
  setoid_rewrite elem_of_list_to_set. setoid_rewrite list_elem_of_fmap. split.
  - intros ([k m'] & -> & Hk & [Hin|(x' & [= -> ->] & Hin)]); [|exact Hin]. simpl in Hk. subst.
    apply Hfk in Hin. simpl in Hin. rewrite Hf in Hin. by destruct Hin.
  - intros Hin. eexists (_, m). split; [done|]. split; [done|]. right. by exists m.
Qed.
