(* ===== verification/JobExamples.v ===== *)
(** * A worked marketplace

    The deployment of [LedgerExamples] with a catalog, an API key, a connected node and a
    registered model file, taken through the theorems of [JobTheory]. *)
From stdpp Require Import base gmap strings list.
From Stdlib Require Import ZArith Lia.
From S2P Require Import Prelude GoStrings Scheduler Protocol Requests Database Ledger LedgerTheory LedgerExamples JobStore StoreRuns JobTheory.

Definition sample_session (node : string) : SessionRow := {|
  ss_node_id := node; ss_protocol_version := "1"; ss_remote_addr := ""; ss_state := SsConnected;
  ss_connected_at := 0; ss_last_heartbeat_at := Some second; ss_disconnected_at := None |}.

Definition sample_heartbeat (node session : string) : HeartbeatRow := {|
  hr_node_id := node; hr_session_id := session; hr_sequence := 1; hr_state := "AVAILABLE";
  hr_model_id := Some "llama"; hr_runtime_hash := Some "sha256:rt"; hr_model_hash := Some "sha256:gguf";
  hr_gpu := empty_GPUStatus;
  hr_active_job_id := None; hr_schedule_state := "in_window"; hr_thermal_state := "normal";
  hr_paused := false; hr_draining := false; hr_uptime_seconds := 1; hr_received_at := second;
  hr_sent_at := second |}.

(** Two jobs are running on [node_a] and [node_b]; [node_c] is idle. *)
Definition market_db : DB :=
  sample_base
    <| db_nodes ::= <["node_c" := sample_node "org_1"]> |>
    <| db_models := {[ "llama" := {| md_display_name := "Llama"; md_status := "alpha";
                                      md_data_class := "public_or_non_sensitive";
                                      md_listing := live_listing |} ]} |>
    <| db_model_versions := {[ "mv_1" := {| mv_model_id := "llama"; mv_version := "1"; mv_repository := EmptyString; mv_revision := "1";
         mv_license_identifier := "mit"; mv_manifest_sha256 := "m"; mv_runtime_release_id := Some "rt_1"; mv_status := "alpha"; mv_created_at := 0 |} ]} |>
    <| db_model_artifacts := {[ "ma_1" := {| ma_model_version_id := "mv_1"; ma_artifact_type := "gguf"; ma_url := "https://models/gguf";
                                             ma_sha256 := "gguf"; ma_byte_size := 1 |} ]} |>
    <| db_runtime_artifacts := {[ "rra_1" := {| rra_runtime_release_id := "rt_1";
         rra_platform_key := "linux"; rra_sha256 := "rt" |} ]} |>
    <| db_runtime_releases := {[ "rt_1" := {| rl_engine := "llama.cpp"; rl_version := "b1"; rl_manifest_url := "runtime.yaml";
         rl_binary_sha256 := "rt"; rl_signature_key_id := "catalog-sync"; rl_signature_value := "catalog-sync"; rl_status := "active" |} ]} |>
    <| db_api_keys := {[ "ak_1" := {| ak_organization_id := "org_1"; ak_name := "default";
                                      ak_key_hash := "sha256:0"; ak_active := true |} ]} |>
    <| db_permissions := {[ ("ak_1", "llama") ]} |>
    <| db_node_sessions := {[ "sess_c" := sample_session "node_c" ]} |>
    <| db_node_heartbeats := {[ "hb_c" := sample_heartbeat "node_c" "sess_c" ]} |>.

Lemma market_consistent : consistent market_db.
Proof.
  apply (consistent_frame sample_base); [|exact sample_base_consistent].
  split; [split|..]; vm_compute; reflexivity.
Qed.

Definition sample_payload (job attempt : string) : JobCompletedPayload := {|
  jc_JobID := job; jc_AttemptID := attempt; jc_ModelID := "llama"; jc_RuntimeHash := "sha256:rt";
  jc_ModelHash := "sha256:gguf"; jc_Message := Some {| cm_Role := "assistant"; cm_Content := "hello" |};
  jc_Usage := {| PromptTokens := 12; CompletionTokens := 40; TotalTokens := 52 |};
  jc_DurationMillis := 900; jc_FinishReason := "stop"; jc_CompletedAt := 2 * second; jc_Signature := None |}.

(** The completion the examples speak about. *)
Definition complete_1 : St DB OpenAIResponse := CompleteJob (sample_payload "job_1" "att_1") (2 * second) hour MsAccepted.
Lemma complete_1_ok : ∃ resp db', complete_1 market_db = (Ok resp, db').
Proof. apply run_ok. by vm_compute. Qed.

(** A failed retry, and a challenge, after it. *)
Definition sample_ops : list store_op :=
  [OpFailJob "job_1" "att_1" "job_failed" true (3 * second); OpCreateAttempt "job_1" "node_c" minute hour].

Lemma attempt_lifecycle_witness :
  ∃ a', db_job_attempts (run_ops sample_ops market_db) !! "att_1" = Some a' ∧ at_node_id a' = Some "node_a".
Proof.
  destruct (attempt_lifecycle sample_ops market_db "att_1" (sample_attempt "job_1" "node_a"))
    as (a' & Ha & _ & Hn & _); [reflexivity|]. exists a'. split; [exact Ha|exact Hn].
Defined.

Lemma market_attempts_wf : attempts_wf (db_job_attempts market_db).
Proof.
  assert (H : ∀ k a, db_job_attempts market_db !! k = Some a →
    (k = "att_1" ∧ a = sample_attempt "job_1" "node_a") ∨ (k = "att_2" ∧ a = sample_attempt "job_2" "node_b")).
  { intros k a. unfold market_db, sample_base. simpl.
    rewrite lookup_insert_Some, lookup_singleton_Some. naive_solver. }
  split.
  - intros k1 k2 a1 a2 [[-> ->]|[-> ->]]%H [[-> ->]|[-> ->]]%H; done.
  - intros k1 k2 a1 a2 [[-> ->]|[-> ->]]%H [[-> ->]|[-> ->]]%H; done.
  - intros k a [[-> ->]|[-> ->]]%H; done.
Qed.

Lemma one_success_per_job_witness : attempts_wf (db_job_attempts (run_ops sample_ops market_db)).
Proof. apply (one_success_per_job sample_ops market_db). apply market_attempts_wf. Defined.

Lemma job_completed_once_witness :
  ∃ resp db1, complete_1 market_db = (Ok resp, db1) ∧
    ∃ e ent, CompleteJob (sample_payload "job_1" "att_2") (4 * second) hour MsAccepted (run_ops sample_ops db1) =
      (Err e, run_ops sample_ops db1 <| db_entropy := ent |>).
Proof.
  destruct complete_1_ok as (resp & db1 & H). exists resp, db1. split; [exact H|].
  apply (job_completed_once (sample_payload "job_1" "att_1") (2 * second) hour MsAccepted market_db resp db1
           sample_ops (sample_payload "job_1" "att_2") (4 * second) hour MsAccepted market_consistent H eq_refl).
Defined.

Lemma CompleteJob_effect_witness :
  ∃ resp db', complete_1 market_db = (Ok resp, db') ∧ oa_Usage resp = jc_Usage (sample_payload "job_1" "att_1").
Proof.
  destruct complete_1_ok as (resp & db' & H). exists resp, db'. split; [exact H|].
  destruct (CompleteJob_effect (sample_payload "job_1" "att_1") (2 * second) hour MsAccepted market_db resp db' H)
    as (a & j & node & rid & row & _ & _ & _ & _ & _ & _ & _ & _ & _ & _ & _ & _ & _ & _ & Hu & _).
  exact Hu.
Defined.

Lemma CompleteJob_refuses_witness :
  ∃ e ent, CompleteJob (sample_payload "job_1" "att_1") (2 * hour) hour MsAccepted market_db =
    (Err e, market_db <| db_entropy := ent |>).
Proof.
  apply (CompleteJob_refuses (sample_payload "job_1" "att_1") (2 * hour) hour MsAccepted market_db).
  intros a [Hr _ _ _ Hd _].
  assert (Ha : db_job_attempts market_db !! "att_1" = Some (sample_attempt "job_1" "node_a"))
    by (vm_compute; reflexivity).
  simpl jc_AttemptID in Hr. rewrite Ha in Hr. apply (inj Some) in Hr. subst a. vm_compute in Hd. by apply Hd.
Defined.

Lemma completed_job_readable_witness :
  ∃ resp db', complete_1 market_db = (Ok resp, db') ∧
    GetJob "org_1" "job_1" db' = (Ok {| jst_ID := "job_1"; jst_State := JSucceeded; jst_Model := "llama";
      jst_CreatedAt := 0; jst_UpdatedAt := 2 * second; jst_Result := Some resp |}, db').
Proof.
  destruct complete_1_ok as (resp & db' & H). exists resp, db'. split; [exact H|].
  assert (Hemp : db_job_results market_db = ∅) by (vm_compute; reflexivity).
  assert (Hj : db_jobs market_db !! "job_1" = Some sample_job) by (vm_compute; reflexivity).
  assert (Ht : posted_at market_db (2 * second) = 2 * second) by (vm_compute; reflexivity).
  pose proof (completed_job_readable (sample_payload "job_1" "att_1") (2 * second) hour MsAccepted market_db resp db'
                sample_job H Hj) as Hr. rewrite Ht in Hr. apply Hr.
  intros k r Hk. rewrite Hemp, lookup_empty in Hk. discriminate Hk.
Defined.

(** An offer to the idle node, and its acceptance. *)
Definition offered_db : DB := (CreateAttempt "job_1" "node_c" (10 * second) hour market_db).2.
Definition offered_attempt : string :=
  match (CreateAttempt "job_1" "node_c" (10 * second) hour market_db).1 with
  | Ok s => sa_AttemptID s | Err _ => "" end.

Lemma MarkAccepted_spec_witness :
  is_ok (MarkAccepted "job_1" offered_attempt (2 * second) offered_db).1 = true ∧
  is_ok (MarkAccepted "job_1" offered_attempt (4 * second) offered_db).1 = false ∧
  ∀ row, ¬ offer_open offered_db "job_1" offered_attempt (4 * second) row.
Proof.
  assert (Hb : posted_balanced offered_db).
  { assert (Hc : consistent offered_db)
      by (apply (si_run_op consistent (OpCreateAttempt "job_1" "node_c" (10 * second) hour)), market_consistent).
    apply Hc. }
  split; [vm_compute; reflexivity|]. split; [vm_compute; reflexivity|].
  pose proof (MarkAccepted_spec "job_1" offered_attempt (4 * second) offered_db Hb) as H.
  assert (Hf : is_ok (MarkAccepted "job_1" offered_attempt (4 * second) offered_db).1 = false)
    by (vm_compute; reflexivity).
  destruct (MarkAccepted "job_1" offered_attempt (4 * second) offered_db) as [[u|e] db']; [discriminate Hf|].
  apply H.
Defined.

Lemma reputation_counts_witness :
  ∃ r, db_node_reputation (run_ops sample_ops market_db) !! "node_a" = Some r ∧
    rp_attempt_total r = 1 ∧ 0 ≤ rp_rolling_success_rate r ≤ 10000.
Proof.
  destruct (db_node_reputation (run_ops sample_ops market_db) !! "node_a") as [r|] eqn:E.
  - exists r. split; [reflexivity|].
    assert (Ht : rp_attempt_total <$> db_node_reputation (run_ops sample_ops market_db) !! "node_a" = Some 1)
      by (vm_compute; reflexivity).
    rewrite E in Ht. split; [by apply (inj Some)|].
    apply (reputation_counts sample_ops market_db "node_a" r); [|exact E].
    intros n r' Hn. assert (Hemp : db_node_reputation market_db = ∅) by (vm_compute; reflexivity).
    rewrite Hemp, lookup_empty in Hn. discriminate Hn.
  - assert (Hs : is_Some (db_node_reputation (run_ops sample_ops market_db) !! "node_a"))
      by (vm_compute; by eexists).
    rewrite E in Hs. by destruct Hs.
Defined.

(** Two failed challenges on record, the third one follows. *)
Definition challenge (passed : bool) : ChallengeOutcome := {|
  co_JobID := "job_1"; co_AttemptID := "att_1"; co_NodeID := "node_c"; co_ModelID := "llama";
  co_Passed := passed; co_Reason := "wrong answer"; co_OccurredAt := 2 * second |}.
Definition challenged_db : DB :=
  run_ops [OpRecordChallengeOutcome (challenge false) 0; OpRecordChallengeOutcome (challenge false) 0] market_db.

Lemma challenge_threshold_witness :
  NodeID <$> eligible_nodes challenged_db "llama" 0 = ["node_c"] ∧
  ∃ db', RecordChallengeOutcome (challenge false) 0 challenged_db = (Ok tt, db') ∧
    ∀ c, c ∈ eligible_nodes db' "llama" 0 → NodeID c ≠ "node_c".
Proof.
  split; [vm_compute; reflexivity|].
  destruct (run_ok (RecordChallengeOutcome (challenge false) 0) challenged_db) as ([] & db' & H);
    [vm_compute; reflexivity|].
  exists db'. split; [exact H|].
  destruct (challenge_threshold (challenge false) 0 challenged_db db' H) as [Htrip _].
  intros c. apply (Htrip) with (ops := []); [vm_compute; reflexivity|vm_compute; by eexists].
Defined.

Lemma busy_node_not_eligible_witness :
  NodeID <$> eligible_nodes market_db "llama" 0 = ["node_c"] ∧
  ∃ s db', CreateAttempt "job_1" "node_c" (10 * second) hour market_db = (Ok s, db') ∧
    ∀ c, c ∈ eligible_nodes db' "llama" 0 → NodeID c ≠ "node_c".
Proof.
  split; [vm_compute; reflexivity|].
  destruct (run_ok (CreateAttempt "job_1" "node_c" (10 * second) hour) market_db) as (s & db' & H);
    [vm_compute; reflexivity|].
  exists s, db'. split; [exact H|]. intros c.
  destruct (CreateAttempt_run _ _ _ _ _ _ _ H) as (_ & _ & _ & nonce & _ & Hat).
  apply (busy_node_not_eligible "job_1" "node_c" (10 * second) hour market_db s db' []
           (offered_row "job_1" "node_c" nonce (next_attempt_number market_db "job_1") (10 * second) hour
              (db_now market_db)) "llama" 0 c H).
  - simpl. rewrite Hat. apply lookup_insert_eq.
  - reflexivity.
Defined.

Definition chat_endpoint := "/v1/chat/completions".

Lemma idempotency_replay_witness :
  ∃ db' record, StoreIdempotencyResponse "ak_1" chat_endpoint "k1" "h1" "job_1" 200 "{}" hour market_db = (Ok tt, db') ∧
    IdempotencyRecord_ "ak_1" chat_endpoint "k1" db' = (Ok (record, true), db') ∧
    ResolveIdempotency record true "h1" = IdemReplay 200 "{}".
Proof.
  destruct (run_ok (StoreIdempotencyResponse "ak_1" chat_endpoint "k1" "h1" "job_1" 200 "{}" hour) market_db)
    as ([] & db' & H); [vm_compute; reflexivity|].
  destruct (idempotency_replay "ak_1" chat_endpoint "k1" "h1" "job_1" 200 "{}" hour market_db db')
    as (record & Hr & _ & Hres & _); [|vm_compute; reflexivity|lia|exact H|].
  - intros k r Hk. assert (Hemp : db_idempotency_records market_db = ∅) by (vm_compute; reflexivity).
    rewrite Hemp, lookup_empty in Hk. discriminate Hk.
  - exists db', record. split; [exact H|]. split; [exact Hr|exact Hres].
Defined.

(** A record that expired before now. *)
Definition stale_record : IdempotencyRow := {|
  id_api_key_id := "ak_1"; id_endpoint := chat_endpoint; id_idempotency_key := "k1"; id_request_hash := "h0";
  id_response_status := 200; id_response_metadata := "{}"; id_job_id := Some "job_2"; id_created_at := 0;
  id_expires_at := millisecond |}.
Definition stale_db : DB := market_db <| db_idempotency_records := {[ "idem_0" := stale_record ]} |>.

Lemma expired_key_not_refreshed_witness :
  ∃ db' record, StoreIdempotencyResponse "ak_1" chat_endpoint "k1" "h1" "job_1" 200 "{}" hour stale_db = (Ok tt, db') ∧
    IdempotencyRecord_ "ak_1" chat_endpoint "k1" db' = (Ok (record, false), db').
Proof.
  destruct (run_ok (StoreIdempotencyResponse "ak_1" chat_endpoint "k1" "h1" "job_1" 200 "{}" hour) stale_db)
    as ([] & db' & H); [vm_compute; reflexivity|].
  assert (Hr0 : db_idempotency_records stale_db = {[ "idem_0" := stale_record ]}) by reflexivity.
  destruct (expired_key_not_refreshed "ak_1" chat_endpoint "k1" "h1" "job_1" 200 "{}" hour stale_db db'
              "idem_0" stale_record) as (record & Hr & _).
  - rewrite Hr0. apply lookup_singleton_eq.
  - vm_compute. reflexivity.
  - intros k r Hk _. rewrite Hr0 in Hk. by apply lookup_singleton_Some in Hk as [<- _].
  - vm_compute. intros Hle. discriminate Hle.
  - exact H.
  - exists db', record. split; [exact H|exact Hr].
Defined.

Lemma api_key_lookup_witness :
  ∃ keyID db', CreateAPIKey "org_1" "" "tsak_secret" [] market_db = (Ok keyID, db') ∧
    APIKeyByHash (HashAPIKey "tsak_secret") db' =
      (Ok {| pr_ID := keyID; pr_OrganizationID := "org_1"; pr_AllowedModels := {[ "llama" ]} |}, db').
Proof.
  destruct (run_ok (CreateAPIKey "org_1" "" "tsak_secret" []) market_db) as (keyID & db' & H);
    [vm_compute; reflexivity|].
  exists keyID, db'. split; [exact H|].
  pose proof (api_key_lookup "org_1" "" "tsak_secret" [] market_db keyID db') as Hl. cbv match in Hl.
  assert (Hm : (routable_models market_db).*1 = ["llama"]) by (vm_compute; reflexivity).
  rewrite Hm in Hl. assert (Hs : list_to_set ["llama"] =@{gset string} {[ "llama" ]}) by set_solver.
  rewrite Hs in Hl. apply Hl; [|exact H].
  intros p Hp. assert (Hperm : db_permissions market_db = {[ ("ak_1", "llama") ]}) by reflexivity.
  rewrite Hperm in Hp. apply elem_of_singleton in Hp as ->. vm_compute. by eexists.
Defined.
