(* ===== verification/JobService.v ===== *)
(** * Job service

    [internal/coordinator/jobs/service.go]: the in-memory half of the coordinator.
    It keeps the attached node sessions, the node each job is active on, the
    channels of waiting requests, the retry context of running jobs and the
    duplicate-verification runs, schedules attempts over the store, and turns the
    messages of nodes into store operations and results.

    Each method is one function of the whole service state, run without another
    method in between; its effects on the database are store operations, so that
    what holds for every sequence of store operations holds for every
    interleaving. Sending an offer to a session succeeds or fails as the list
    [sv_wire] says; a channel is the list of the results sent to it. *)
From stdpp Require Import base gmap strings list relations.
From Stdlib Require Import ZArith Lia.
From S2P Require Import Prelude GoStrings Float64 Sha256 Encoding NodeState Schedule Scheduler Protocol Agent NodeAuth Requests Database Ledger LedgerTheory JobStore StoreRuns.

(** ** State *)

Record sessionRef := { sr_nodeID : string; sr_sessionID : string }.
Record activeJob := { aj_jobID : string; aj_attemptID : string }.

Record runState := {
  run_model : ModelInfo;
  run_request : ChatRequest;
  run_deadlineAt : Z;
  run_excluded : gset string;
  run_attempts : Z
}.
#[export] Instance runState_eta : Eta runState := λ r,
  {| run_model := run_model r; run_request := run_request r; run_deadlineAt := run_deadlineAt r;
     run_excluded := run_excluded r; run_attempts := run_attempts r |}.

Record duplicateRun := {
  dr_jobID : string;
  dr_attemptID : string;
  dr_originalAttemptID : string;
  dr_originalNodeID : string;
  dr_expectedContent : string;
  dr_model : ModelInfo;
  dr_request : ChatRequest;
  dr_deadlineAt : Z
}.

Record APIError := { ae_Code : string; ae_Message : string; ae_Retryable : bool; ae_Status : Z }.
Definition api_error (e : APIError) : gerror :=
  ErrApi (ae_Code e) (ae_Message e) (ae_Retryable e) (ae_Status e).

(** [Result]: a response or an error. *)
Inductive Result := ResultResponse (r : OpenAIResponse) | ResultError (e : APIError).

Record Config := {
  cf_Weights : SchedulerWeights;
  cf_StaleAfter : Z;
  cf_LeaseTTL : Z;
  cf_SyncTimeout : Z;
  cf_CreditHold : Z
}.

Record Service := {
  sv_db : DB;
  sv_now : Z;
  sv_sessions : gmap string sessionRef;
  sv_activeByNode : gmap string activeJob;
  sv_pending : gmap string nat;
  sv_runs : gmap string runState;
  sv_duplicates : gmap string duplicateRun;
  sv_chans : gmap nat (list Result);
  sv_nextChan : nat;
  sv_offers : list (string * JobOfferPayload);
  sv_wire : list bool
}.
#[export] Instance Service_eta : Eta Service := λ r,
  {| sv_db := sv_db r; sv_now := sv_now r; sv_sessions := sv_sessions r;
     sv_activeByNode := sv_activeByNode r; sv_pending := sv_pending r; sv_runs := sv_runs r;
     sv_duplicates := sv_duplicates r; sv_chans := sv_chans r; sv_nextChan := sv_nextChan r;
     sv_offers := sv_offers r; sv_wire := sv_wire r |}.

Definition new_service (db : DB) (now : Z) (wire : list bool) : Service := {|
  sv_db := db; sv_now := now; sv_sessions := ∅; sv_activeByNode := ∅; sv_pending := ∅;
  sv_runs := ∅; sv_duplicates := ∅; sv_chans := ∅; sv_nextChan := 0; sv_offers := []; sv_wire := wire
|}.

(** A call of the store. *)
Definition on_store {A} (m : St DB A) : St Service A := λ s,
  let '(r, db) := m (sv_db s) in (r, s <| sv_db := db |>).

(** ** Small state operations *)

Definition removeRun (jobID : string) : St Service unit := modify (λ s, s <| sv_runs ::= delete jobID |>).
Definition clearActive (nodeID : string) : St Service unit :=
  modify (λ s, s <| sv_activeByNode ::= delete nodeID |>).
Definition setActive (nodeID : string) (active : activeJob) : St Service unit :=
  modify (λ s, s <| sv_activeByNode ::= <[nodeID := active]> |>).
Definition isDuplicateAttempt (attemptID : string) : St Service bool :=
  gets (λ s, bool_decide (is_Some (sv_duplicates s !! attemptID))).
Definition setDuplicateRun (attemptID : string) (run : duplicateRun) : St Service unit :=
  modify (λ s, s <| sv_duplicates ::= <[attemptID := run]> |>).
Definition removeDuplicateRun (attemptID : string) : St Service (option duplicateRun) :=
  run ← gets (λ s, sv_duplicates s !! attemptID);
  _ ← modify (λ s, s <| sv_duplicates ::= delete attemptID |>);
  mret run.
Definition runSnapshot (jobID : string) : St Service (option runState) := gets (λ s, sv_runs s !! jobID).

(** [notify]: the entry is dropped and the result sent to its channel. *)
Definition notify (jobID : string) (result : Result) : St Service unit := λ s,
  let ch := sv_pending s !! jobID in
  let s := s <| sv_pending ::= delete jobID |> in
  (Ok tt, match ch with
          | Some c => s <| sv_chans ::= alter (λ sent, sent ++ [result]) c |>
          | None => s
          end).

(** [RegisterWait]: a fresh channel with a buffer of one. *)
Definition RegisterWait (jobID : string) : St Service nat := λ s,
  let c := sv_nextChan s in
  (Ok c, s <| sv_nextChan ::= S |> <| sv_chans ::= <[c := []]> |> <| sv_pending ::= <[jobID := c]> |>).

Definition AbandonWait (jobID : string) : St Service unit :=
  modify (λ s, s <| sv_pending ::= delete jobID |> <| sv_runs ::= delete jobID |>).

Definition timeout_error : APIError := {|
  ae_Code := CodeJobTimeout; ae_Message := "Job timed out waiting for completion.";
  ae_Retryable := true; ae_Status := 504 |}.

(** What [Wait] returns, by what its [select] received: [None] when the context ended. *)
Definition Wait_answer (received : option Result) : OpenAIResponse + APIError :=
  match received with
  | Some (ResultResponse r) => inl r
  | Some (ResultError e) => inr e
  | None => inr timeout_error
  end.

(** [session.send] of an offer. *)
Definition send_offer (nodeID : string) (offer : JobOfferPayload) : St Service unit := λ s,
  match sv_wire s with
  | false :: rest => (Err (ErrMsg "send failed"), s <| sv_wire := rest |>)
  | _ => (Ok tt, s <| sv_wire ::= tail |> <| sv_offers ::= cons (nodeID, offer) |>)
  end.

(** [prepareRetry]: a run with fewer than two attempts may be tried again, without the
    node that failed. *)
Definition prepareRetry (jobID failedNodeID : string) : St Service bool := λ s,
  match sv_runs s !! jobID with
  | None => (Ok false, s)
  | Some run =>
      if 2 <=? run_attempts run then (Ok false, s)
      else (Ok true, s <| sv_runs ::= <[jobID := run <| run_excluded ::= union {[failedNodeID]} |>]> |>)
  end.

Section service.
Context (ed25519_Verify : list Z → list Z → list Z → bool).
Context (json_Marshal : JobCompletedPayload → result (list Z)).
Context (cfg : Config).

(** ** Scheduling *)

(** The candidates whose session is attached and that have no job here. *)
Definition selectable (s : Service) (c : Candidate) : bool :=
  match sv_sessions s !! NodeID c with
  | Some session => negb (String.eqb (sr_sessionID session) "")
                    && String.eqb (sr_sessionID session) (SessionID c)
  | None => false
  end && bool_decide (sv_activeByNode s !! NodeID c = None).

Definition no_capacity : gerror :=
  ErrApi CodeNoCapacity "No eligible node is currently available for this model." true 503.

Definition offer_of (attempt : ScheduledAttempt) (model : ModelInfo) (request : ChatRequest)
    (kind : VerificationKind) : JobOfferPayload := {|
  jo_JobID := sa_JobID attempt; jo_AttemptID := sa_AttemptID attempt;
  jo_LeaseExpiresAt := sa_LeaseExpiresAt attempt; jo_DeadlineAt := sa_DeadlineAt attempt;
  jo_ModelID := mi_ID model; jo_Request := request; jo_Verification := kind |}.

(** [scheduleAttemptInternal] without the processing of expired leases. *)
Definition schedule_core (jobID : string) : St Service ScheduledAttempt :=
  now ← gets sv_now;
  let staleAfter := default_pos (cf_StaleAfter cfg) (45 * second) in
  known ← gets (λ s, sv_runs s !! jobID);
  run ← of_option (ErrMsg "job run context is missing") known;
  candidates ← on_store (EligibleNodes (mi_ID (run_model run)) (now - staleAfter));
  s ← gets id;
  let filtered := filter (λ c, bool_decide (NodeID c ∉ run_excluded run) && selectable s c = true) candidates in
  match Choose (cf_Weights cfg) filtered with
  | None => fail no_capacity
  | Some chosen =>
      _ ← setActive (NodeID chosen) {| aj_jobID := jobID; aj_attemptID := "" |};
      _ ← modify (λ s, s <| sv_runs ::= <[jobID := run <| run_attempts ::= Z.add 1 |>]> |>);
      let leaseTTL := default_pos (cf_LeaseTTL cfg) (10 * second) in
      let deadlineAt := if is_zero_time (run_deadlineAt run) then now + 120 * second else run_deadlineAt run in
      created ← try (on_store (CreateAttempt jobID (NodeID chosen) (now + leaseTTL) deadlineAt));
      match created with
      | Err e => _ ← clearActive (NodeID chosen); fail e
      | Ok attempt =>
          _ ← setActive (NodeID chosen) {| aj_jobID := jobID; aj_attemptID := sa_AttemptID attempt |};
          let attempt := attempt <| sa_SessionID := SessionID chosen |> <| sa_ModelHash := ModelHash chosen |>
                                 <| sa_RuntimeHash := RuntimeHash chosen |> in
          sent ← try (send_offer (NodeID chosen) (offer_of attempt (run_model run) (run_request run) KindStandard));
          match sent with
          | Err e =>
              _ ← clearActive (NodeID chosen);
              _ ← ignore_err (on_store (FailAttempt jobID (sa_AttemptID attempt) CodeJobFailed true now));
              fail e
          | Ok _ => mret attempt
          end
      end
  end.

(** An attempt whose lease ran out before the node accepted it. *)
Definition handleExpiredAttempt (attempt : ExpiredAttempt) (apiErr : APIError) (occurredAt : Z) : St Service unit :=
  let jobID := ea_JobID attempt in
  _ ← clearActive (ea_NodeID attempt);
  retry ← prepareRetry jobID (ea_NodeID attempt);
  rescheduled ← (if retry : bool then
                   r ← try (schedule_core jobID);
                   mret (is_ok r)
                 else mret false);
  if rescheduled : bool then mret tt
  else
    _ ← on_store (FailJob jobID (ea_AttemptID attempt) (ae_Code apiErr) true occurredAt);
    _ ← removeRun jobID;
    notify jobID (ResultError apiErr).

Definition lease_error : APIError := {|
  ae_Code := CodeJobTimeout; ae_Message := "Job lease expired before node acceptance.";
  ae_Retryable := true; ae_Status := 504 |}.

Definition expireLeases (now : Z) : St Service unit :=
  expired ← on_store (ExpireLeases now);
  for_each (λ attempt, handleExpiredAttempt attempt lease_error now) expired.

Definition scheduleAttemptInternal (jobID : string) (processExpired : bool) : St Service ScheduledAttempt :=
  now ← gets sv_now;
  _ ← (if processExpired then expireLeases now else mret tt);
  schedule_core jobID.

Definition scheduleAttempt (jobID : string) : St Service ScheduledAttempt := scheduleAttemptInternal jobID true.

(** [Schedule] (the method [Service.Schedule]). *)
Definition Schedule_ (jobID : string) (model : ModelInfo) (request : ChatRequest) (deadlineAt : Z)
    : St Service ScheduledAttempt :=
  _ ← modify (λ s, s <| sv_runs ::= <[jobID := {| run_model := model; run_request := request;
        run_deadlineAt := deadlineAt; run_excluded := ∅; run_attempts := 0 |}]> |>);
  scheduleAttempt jobID.

(** ** Failures *)

Definition handleAttemptFailure (nodeID jobID attemptID : string) (apiErr : APIError) (transient : bool)
    (occurredAt : Z) (attemptCode : string) : St Service unit :=
  _ ← clearActive nodeID;
  let attemptCode := or_string attemptCode (ae_Code apiErr) in
  retry ← (if transient then prepareRetry jobID nodeID else mret false);
  rescheduled ← (if retry : bool then
                   _ ← on_store (FailAttempt jobID attemptID attemptCode true occurredAt);
                   r ← try (scheduleAttempt jobID);
                   mret (is_ok r)
                 else mret false);
  if rescheduled : bool then mret tt
  else
    _ ← on_store (FailJob jobID attemptID attemptCode transient occurredAt);
    _ ← removeRun jobID;
    notify jobID (ResultError apiErr).

(** ** Sessions *)

Definition AttachSession (nodeID sessionID : string) : St Service unit :=
  modify (λ s, s <| sv_sessions ::= <[nodeID := {| sr_nodeID := nodeID; sr_sessionID := sessionID |}]> |>).

Definition disconnect_error : APIError := {|
  ae_Code := CodeJobFailed; ae_Message := "Node session disconnected before completion.";
  ae_Retryable := true; ae_Status := 503 |}.

(** The function [AttachSession] returns. *)
Definition DetachSession (nodeID sessionID : string) : St Service unit :=
  s ← gets id;
  if bool_decide (default "" (sr_sessionID <$> sv_sessions s !! nodeID) = sessionID) then
    let active := sv_activeByNode s !! nodeID in
    _ ← modify (λ s, s <| sv_sessions ::= delete nodeID |> <| sv_activeByNode ::= delete nodeID |>);
    match active with
    | Some a =>
        if String.eqb (aj_jobID a) "" then mret tt
        else ignore_err (handleAttemptFailure nodeID (aj_jobID a) (aj_attemptID a) disconnect_error true
                           (sv_now s) CodeJobFailed)
    | None => mret tt
    end
  else mret tt.

(** ** Duplicate verification *)

(** [sampleByID]: the first 64 bits of the hash of the id, as a fraction. *)
Definition be_uint64 (l : list Z) : Z := foldl (λ acc b, acc * 256 + b) 0 (take 8 l).
Definition sampleByID (id : string) (rate : float64) : bool :=
  if fle rate (float_of_Z 0) then false
  else if fle (float_of_Z 1) rate then true
  else flt (fdiv (float_of_Z (be_uint64 (sum256 (string_bytes id)))) (float_of_Z (2 ^ 64 - 1))) rate.

Definition duplicate_deadline (now : Z) : Z :=
  if (0 <? cf_SyncTimeout cfg) && (cf_SyncTimeout cfg <? 30 * second)
  then now + cf_SyncTimeout cfg else now + 30 * second.

Definition maybeStartDuplicate (originalNodeID : string) (payload : JobCompletedPayload) (run : runState)
    : St Service unit :=
  let rate := DuplicateSampleRate (mi_Verification (run_model run)) in
  match jc_Message payload with
  | None => mret tt
  | Some message =>
  if fle rate (float_of_Z 0) || negb (sampleByID (jc_JobID payload) rate) then mret tt
  else
  now ← gets sv_now;
  let staleAfter := default_pos (cf_StaleAfter cfg) (45 * second) in
  found ← try (on_store (EligibleNodes (mi_ID (run_model run)) (now - staleAfter)));
  match found with
  | Err _ => mret tt
  | Ok candidates =>
  s ← gets id;
  let filtered := filter (λ c, negb (String.eqb (NodeID c) originalNodeID) && selectable s c = true) candidates in
  match Choose (cf_Weights cfg) filtered with
  | None => mret tt
  | Some chosen =>
  _ ← setActive (NodeID chosen) {| aj_jobID := jc_JobID payload; aj_attemptID := "" |};
  let leaseTTL := default_pos (cf_LeaseTTL cfg) (10 * second) in
  let deadlineAt := duplicate_deadline now in
  created ← try (on_store (CreateVerificationAttempt (jc_JobID payload) (NodeID chosen) (now + leaseTTL) deadlineAt));
  match created with
  | Err _ => clearActive (NodeID chosen)
  | Ok attempt =>
  _ ← setActive (NodeID chosen) {| aj_jobID := jc_JobID payload; aj_attemptID := sa_AttemptID attempt |};
  _ ← setDuplicateRun (sa_AttemptID attempt) {|
        dr_jobID := jc_JobID payload; dr_attemptID := sa_AttemptID attempt;
        dr_originalAttemptID := jc_AttemptID payload; dr_originalNodeID := originalNodeID;
        dr_expectedContent := cm_Content message; dr_model := run_model run;
        dr_request := run_request run; dr_deadlineAt := deadlineAt |};
  sent ← try (send_offer (NodeID chosen) (offer_of attempt (run_model run) (run_request run) KindDuplicate));
  match sent with
  | Err _ =>
      _ ← clearActive (NodeID chosen);
      _ ← removeDuplicateRun (sa_AttemptID attempt);
      ignore_err (on_store (MarkVerificationAttemptFailed (jc_JobID payload) (sa_AttemptID attempt) CodeJobFailed now))
  | Ok _ => mret tt
  end
  end
  end
  end
  end.

Definition outcome_of (jobID attemptID nodeID originalAttemptID originalNodeID : string) (agreement : bool)
    (reason : string) (occurredAt : Z) : DuplicateOutcome := {|
  do_JobID := jobID; do_AttemptID := attemptID; do_NodeID := nodeID;
  do_OriginalAttemptID := originalAttemptID; do_OriginalNodeID := originalNodeID;
  do_Agreement := agreement; do_Reason := reason; do_OccurredAt := occurredAt |}.

Definition verifyCompletion (nodeID : string) (payload : JobCompletedPayload) : St Service unit :=
  hashes ← on_store (ModelHashes (jc_ModelID payload));
  _ ← guard_err (String.eqb (jc_ModelHash payload) (mhs_ModelHash hashes)) (ErrMsg "model hash mismatch");
  _ ← guard_err (RuntimeHashValid hashes (jc_RuntimeHash payload)) (ErrMsg "runtime hash mismatch");
  publicEncoded ← wrap "lookup node public key" (on_store (PublicKeyForNode nodeID));
  publicRaw ← wrap "decode node public key" (lift_result (DecodeString Std publicEncoded));
  lift_result (VerifyJobCompleted ed25519_Verify json_Marshal publicRaw payload).

Definition handleDuplicateCompletion (nodeID : string) (payload : JobCompletedPayload) : St Service unit :=
  let jobID := jc_JobID payload in
  let attemptID := jc_AttemptID payload in
  removed ← removeDuplicateRun attemptID;
  _ ← clearActive nodeID;
  dup ← of_option (ErrMsg "duplicate verification context is missing") removed;
  now ← gets sv_now;
  verified ← try (verifyCompletion nodeID payload);
  match verified with
  | Err e =>
      _ ← ignore_err (on_store (MarkVerificationAttemptFailed jobID attemptID CodeJobFailed now));
      ignore_err (on_store (RecordDuplicateOutcome (outcome_of jobID attemptID nodeID (dr_originalAttemptID dup)
                                              (dr_originalNodeID dup) false (error_string e) now)))
  | Ok _ =>
      let '(issues, acceptanceErr) := ValidateCompletionForAcceptance (dr_request dup) payload in
      let agreement := match acceptanceErr, jc_Message payload with
                       | None, Some m => String.eqb (cm_Content m) (dr_expectedContent dup)
                       | _, _ => false
                       end in
      let reason := match acceptanceErr with
                    | Some e => error_string e
                    | None => if agreement then "matched" else "completion_disagreement"
                    end in
      _ ← match issues with
          | [] => mret tt
          | _ => ignore_err (on_store (RecordMeteringIssues payload issues (meteringStatus issues) now))
          end;
      _ ← (if agreement : bool then on_store (MarkVerificationAttemptCompleted jobID attemptID now)
           else on_store (MarkVerificationAttemptFailed jobID attemptID reason now));
      _ ← on_store (RecordDuplicateOutcome (outcome_of jobID attemptID nodeID (dr_originalAttemptID dup)
                                              (dr_originalNodeID dup) agreement reason now));
      match acceptanceErr with
      | None => ignore_err (on_store (PostVerificationOverhead_ payload (cf_CreditHold cfg) now))
      | Some _ => mret tt
      end
  end.
(** ** Messages of nodes *)

(** A completion that is not accepted fails its job for good. *)
Definition reject_completion (nodeID : string) (payload : JobCompletedPayload) (message : string) : St Service unit :=
  let apiErr := {| ae_Code := CodeJobFailed; ae_Message := message; ae_Retryable := false; ae_Status := 503 |} in
  now ← gets sv_now;
  _ ← clearActive nodeID;
  _ ← ignore_err (on_store (FailJob (jc_JobID payload) (jc_AttemptID payload) (ae_Code apiErr) false now));
  _ ← removeRun (jc_JobID payload);
  notify (jc_JobID payload) (ResultError apiErr).

Definition handleCompletion (nodeID : string) (payload : JobCompletedPayload) : St Service unit :=
  now ← gets sv_now;
  verified ← try (verifyCompletion nodeID payload);
  match verified with
  | Err e => reject_completion nodeID payload (error_string e)
  | Ok _ =>
      run ← runSnapshot (jc_JobID payload);
      let request := match run with Some r => run_request r | None => empty_ChatRequest end in
      let '(issues, acceptanceErr) := ValidateCompletionForAcceptance request payload in
      _ ← match issues with
          | [] => mret tt
          | _ => ignore_err (on_store (RecordMeteringIssues payload issues (meteringStatus issues) now))
          end;
      match acceptanceErr with
      | Some e => reject_completion nodeID payload (error_string e)
      | None =>
          completed ← try (on_store (CompleteJob payload now (cf_CreditHold cfg) (meteringStatus issues)));
          _ ← clearActive nodeID;
          response ← lift_result completed;
          _ ← match run with Some r => maybeStartDuplicate nodeID payload r | None => mret tt end;
          _ ← removeRun (jc_JobID payload);
          notify (jc_JobID payload) (ResultResponse response)
      end
  end.

(** A duplicate attempt that was rejected or failed: recorded, never retried. *)
Definition duplicate_failed (nodeID jobID attemptID code : string) (occurredAt : Z)
    (originalAttemptID originalNodeID : string) : St Service unit :=
  now ← gets sv_now;
  _ ← ignore_err (on_store (MarkVerificationAttemptFailed jobID attemptID code now));
  ignore_err (on_store (RecordDuplicateOutcome (outcome_of jobID attemptID nodeID originalAttemptID originalNodeID false
                                                 code occurredAt))).

Definition HandleNodeMessage (nodeID : string) (msg : Message) : St Service unit :=
  match msg with
  | MsgJobAccepted p => now ← gets sv_now; on_store (MarkAccepted (ja_JobID p) (ja_AttemptID p) now)
  | MsgJobStarted p => now ← gets sv_now; on_store (MarkStarted (js_JobID p) (js_AttemptID p) now)
  | MsgJobRejected p =>
      duplicate ← isDuplicateAttempt (jr_AttemptID p);
      if duplicate : bool then
        _ ← clearActive nodeID;
        removed ← removeDuplicateRun (jr_AttemptID p);
        let '(originalAttemptID, originalNodeID) :=
          match removed with
          | Some dup => (dr_originalAttemptID dup, dr_originalNodeID dup)
          | None => ("", "")
          end in
        duplicate_failed nodeID (jr_JobID p) (jr_AttemptID p) (jr_ReasonCode p) (jr_RejectedAt p)
          originalAttemptID originalNodeID
      else
        now ← gets sv_now;
        handleAttemptFailure nodeID (jr_JobID p) (jr_AttemptID p)
          {| ae_Code := CodeNoCapacity; ae_Message := jr_Message p; ae_Retryable := jr_Retryable p; ae_Status := 503 |}
          (jr_Retryable p) now (jr_ReasonCode p)
  | MsgJobFailed p =>
      duplicate ← isDuplicateAttempt (jf_AttemptID p);
      if duplicate : bool then
        _ ← clearActive nodeID;
        removed ← removeDuplicateRun (jf_AttemptID p);
        dup ← of_option (ErrMsg "nil pointer dereference") removed;
        duplicate_failed nodeID (jf_JobID p) (jf_AttemptID p) (jf_ErrorCode p) (jf_FailedAt p)
          (dr_originalAttemptID dup) (dr_originalNodeID dup)
      else
        now ← gets sv_now;
        handleAttemptFailure nodeID (jf_JobID p) (jf_AttemptID p)
          {| ae_Code := CodeJobFailed; ae_Message := jf_Message p; ae_Retryable := jf_Retryable p; ae_Status := 503 |}
          (jf_Retryable p) now (jf_ErrorCode p)
  | MsgJobCompleted p =>
      duplicate ← isDuplicateAttempt (jc_AttemptID p);
      if duplicate : bool then handleDuplicateCompletion nodeID p else handleCompletion nodeID p
  | MsgHeartbeat _ | MsgStateChanged _ | MsgSafetyEvent _ => fail (ErrMsg "unsupported node message")
  end.

(** ** Events of the service *)

Inductive ServiceEvent :=
  | SvAttach (nodeID sessionID : string)
  | SvDetach (nodeID sessionID : string)
  | SvSchedule (jobID : string) (model : ModelInfo) (request : ChatRequest) (deadlineAt : Z)
  | SvRegisterWait (jobID : string)
  | SvAbandonWait (jobID : string)
  | SvMessage (nodeID : string) (msg : Message)
  | SvTime (elapsed : Z)
  | SvStore (op : store_op).

(** One call of the service, or a store operation of another part of the coordinator. *)
Definition service_event (e : ServiceEvent) (s : Service) : Service :=
  match e with
  | SvAttach n sid => (AttachSession n sid s).2
  | SvDetach n sid => (DetachSession n sid s).2
  | SvSchedule j m r d => (Schedule_ j m r d s).2
  | SvRegisterWait j => (RegisterWait j s).2
  | SvAbandonWait j => (AbandonWait j s).2
  | SvMessage n msg => (HandleNodeMessage n msg s).2
  | SvTime d => s <| sv_now ::= λ t, t + Z.max 0 d |> <| sv_db ::= λ db, db <| db_now ::= λ t, t + Z.max 0 d |> |>
  | SvStore op => s <| sv_db ::= run_op op |>
  end.
End service.
