(* ===== verification/ServiceTheory.v ===== *)
(** * Theorems on the job service

    Every method of the service changes the database only through operations of the
    store, so the invariants of the store hold however requests, node messages and
    disconnects interleave; a waiting request gets exactly one result; what an offer
    satisfies; how often a job is retried; what a completion does. *)
From stdpp Require Import base gmap strings list relations.
From Stdlib Require Import ZArith Lia.
From S2P Require Import Prelude GoStrings Float64 Sha256 Encoding NodeState Schedule Scheduler Protocol Agent NodeAuth Requests Database Registration Ledger LedgerTheory JobStore StoreRuns JobTheory JobService.

(** ** Invariants of the service

    What a property of the service state has to be closed under for every method to
    preserve it: the operations of the store (the service stores no answers to idempotent
    requests) and the elementary changes of the maps. New retry contexts, and the offers that
    come with them, are kept apart, for the properties about them: a [QuietFrame] is closed
    under what the service does between two schedulings. *)
Class QuietFrame (P : Service → Prop) := {
  sv_op op s : stores_answer op = false → P s → P (s <| sv_db ::= run_op op |>);
  sv_active f s : P s → P (s <| sv_activeByNode ::= f |>);
  sv_dups f s : P s → P (s <| sv_duplicates ::= f |>);
  sv_duplicate n o s : jo_Verification o = KindDuplicate → P s → P (s <| sv_offers ::= cons (n, o) |>);
  sv_wired f s : P s → P (s <| sv_wire ::= f |>);
  sv_sess f s : P s → P (s <| sv_sessions ::= f |>);
  sv_finish j r : preserves P (_ ← removeRun j; notify j r)
}.
Class ServiceFrame (P : Service → Prop) := {
  sv_quiet :: QuietFrame P;
  sv_sent o s : P s → P (s <| sv_offers ::= cons o |>)
}.

Definition waiting_event (e : ServiceEvent) : bool :=
  match e with SvRegisterWait _ | SvAbandonWait _ => true | _ => false end.

Section service_theory.
Context (ed25519_Verify : list Z → list Z → list Z → bool).
Context (json_Marshal : JobCompletedPayload → result (list Z)).
Context (cfg : Config).
Notation handle := (HandleNodeMessage ed25519_Verify json_Marshal cfg).
Notation event := (service_event ed25519_Verify json_Marshal cfg).

Section walk.
Context (P : Service → Prop) `{!QuietFrame P}.

Lemma on_store_op {A} (m : St DB A) op :
  (∀ db, (m db).2 = run_op op db) → stores_answer op = false → preserves P (on_store m).
Proof.
  intros Hm Hop s Hs. unfold on_store. specialize (Hm (sv_db s)). pose proof (sv_op op s Hop Hs) as H.
  destruct (m (sv_db s)) as [r db]. simpl in *. by subst.
Qed.

Lemma on_store_read {A} (m : St DB A) : (∀ db, (m db).2 = db) → preserves P (on_store m).
Proof.
  intros Hm s Hs. unfold on_store. specialize (Hm (sv_db s)).
  destruct (m (sv_db s)) as [r db]. simpl in *. subst. by destruct s.
Qed.

Lemma ModelHashes_read m db : (ModelHashes m db).2 = db.
Proof. unfold ModelHashes, gets, mbind, St_bind. simpl. by repeat case_match. Qed.
Lemma PublicKeyForNode_read n db : (PublicKeyForNode n db).2 = db.
Proof. unfold PublicKeyForNode, gets, mbind, St_bind, of_option. simpl. by case_match. Qed.

Lemma q_eligible m c : preserves P (on_store (EligibleNodes m c)).
Proof. by apply on_store_read. Qed.
Lemma q_hashes m : preserves P (on_store (ModelHashes m)).
Proof. apply on_store_read, ModelHashes_read. Qed.
Lemma q_key n : preserves P (on_store (PublicKeyForNode n)).
Proof. apply on_store_read, PublicKeyForNode_read. Qed.
Lemma q_create j n l d : preserves P (on_store (CreateAttempt j n l d)).
Proof. by apply (on_store_op _ (OpCreateAttempt j n l d)). Qed.
Lemma q_fail_attempt j a c t n : preserves P (on_store (FailAttempt j a c t n)).
Proof. by apply (on_store_op _ (OpFailAttempt j a c t n)). Qed.
Lemma q_fail_job j a c t n : preserves P (on_store (FailJob j a c t n)).
Proof. by apply (on_store_op _ (OpFailJob j a c t n)). Qed.
Lemma q_expire t : preserves P (on_store (ExpireLeases t)).
Proof. by apply (on_store_op _ (OpExpireLeases t)). Qed.
Lemma q_accepted j a t : preserves P (on_store (MarkAccepted j a t)).
Proof. by apply (on_store_op _ (OpMarkAccepted j a t)). Qed.
Lemma q_started j a t : preserves P (on_store (MarkStarted j a t)).
Proof. by apply (on_store_op _ (OpMarkStarted j a t)). Qed.
Lemma q_complete p t h m : preserves P (on_store (CompleteJob p t h m)).
Proof. by apply (on_store_op _ (OpCompleteJob p t h m)). Qed.
Lemma q_verification j n l d : preserves P (on_store (CreateVerificationAttempt j n l d)).
Proof. by apply (on_store_op _ (OpCreateVerificationAttempt j n l d)). Qed.
Lemma q_vcompleted j a t : preserves P (on_store (MarkVerificationAttemptCompleted j a t)).
Proof. by apply (on_store_op _ (OpMarkVerificationAttemptCompleted j a t)). Qed.
Lemma q_vfailed j a c t : preserves P (on_store (MarkVerificationAttemptFailed j a c t)).
Proof. by apply (on_store_op _ (OpMarkVerificationAttemptFailed j a c t)). Qed.
Lemma q_overhead p h t : preserves P (on_store (PostVerificationOverhead_ p h t)).
Proof. by apply (on_store_op _ (OpPostVerificationOverhead p h t)). Qed.
Lemma q_metering p i m t : preserves P (on_store (RecordMeteringIssues p i m t)).
Proof. by apply (on_store_op _ (OpRecordMeteringIssues p i m t)). Qed.
Lemma q_duplicate o : preserves P (on_store (RecordDuplicateOutcome o)).
Proof. by apply (on_store_op _ (OpRecordDuplicateOutcome o)). Qed.

Lemma q_set_active n a : preserves P (setActive n a).
Proof. apply preserves_modify. intros. by apply sv_active. Qed.
Lemma q_clear_active n : preserves P (clearActive n).
Proof. apply preserves_modify. intros. by apply sv_active. Qed.
Lemma q_set_dup a d : preserves P (setDuplicateRun a d).
Proof. apply preserves_modify. intros. by apply sv_dups. Qed.
Lemma q_remove_dup a : preserves P (removeDuplicateRun a).
Proof. unfold removeDuplicateRun. solve_inv. apply preserves_modify. intros. by apply sv_dups. Qed.
Lemma q_send_if n o : (∀ s, P s → P (s <| sv_offers ::= cons (n, o) |>)) → preserves P (send_offer n o).
Proof.
  intros Hsent s Hs. unfold send_offer. destruct (sv_wire s) as [|[] rest] eqn:E.
  - exact (Hsent _ (sv_wired tail s Hs)).
  - exact (Hsent _ (sv_wired tail s Hs)).
  - exact (sv_wired (λ _, rest) s Hs).
Qed.
Lemma q_send_duplicate n a m r : preserves P (send_offer n (offer_of a m r KindDuplicate)).
Proof. apply q_send_if. intros s. by apply sv_duplicate. Qed.
#[local] Hint Resolve q_eligible q_hashes q_key q_create q_fail_attempt q_fail_job q_expire q_accepted q_started
  q_complete q_verification q_vcompleted q_vfailed q_overhead q_metering q_duplicate q_set_active q_clear_active
  q_set_dup q_remove_dup q_send_duplicate : inv.

(** The walk keeps [removeRun] and the [notify] after it together. *)
Ltac svc := repeat first [apply sv_finish | match goal with
  | |- preserves _ (mbind _ _) => apply preserves_bind; [|intros ?]
  | |- preserves _ (match ?x with _ => _ end) => destruct x
  | |- preserves _ (try _) => apply preserves_try
  | |- preserves _ (ignore_err _) => apply preserves_ignore
  | |- preserves _ (wrap _ _) => apply preserves_wrap
  | |- preserves _ (for_each _ _) => apply preserves_for_each; intros ?
  end | solve [eauto 2 with inv]].

Lemma q_verify n p : preserves P (verifyCompletion ed25519_Verify json_Marshal n p).
Proof. unfold verifyCompletion. svc. Qed.
#[local] Hint Resolve q_verify : inv.

Lemma q_maybe n p r : preserves P (maybeStartDuplicate cfg n p r).
Proof. unfold maybeStartDuplicate. svc. Qed.
#[local] Hint Resolve q_maybe : inv.

(** Messages and disconnects, given the handling of failed attempts. *)
Section failures.
Context (Hf : ∀ n j a e tr t c, preserves P (handleAttemptFailure cfg n j a e tr t c)).
#[local] Hint Resolve Hf : inv.

Lemma q_message n msg : preserves P (handle n msg).
Proof.
  destruct msg; unfold HandleNodeMessage, isDuplicateAttempt, handleDuplicateCompletion, handleCompletion,
    reject_completion, duplicate_failed, runSnapshot; svc.
Qed.

Lemma q_detach n sid : preserves P (DetachSession cfg n sid).
Proof. unfold DetachSession. svc; apply preserves_modify; intros s Hp; by apply sv_active, sv_sess. Qed.
End failures.

Section runs.
Context `{!ServiceFrame P}.
Context (Hrun : ∀ j run s, P s → P (s <| sv_runs ::= <[j := run]> |>)).

Lemma q_run j run : preserves P (modify (λ s, s <| sv_runs ::= <[j := run]> |>)).
Proof. apply preserves_modify. intros. by apply Hrun. Qed.
Lemma q_retry j n : preserves P (prepareRetry j n).
Proof.
  intros s Hs. unfold prepareRetry. destruct (sv_runs s !! j); [|done]. case_match; [done|]. by apply Hrun.
Qed.

Lemma q_send n o : preserves P (send_offer n o).
Proof. apply q_send_if. intros s. apply sv_sent. Qed.
#[local] Hint Resolve q_run q_retry q_send : inv.

Lemma q_core j : preserves P (schedule_core cfg j).
Proof. unfold schedule_core. svc. Qed.
#[local] Hint Resolve q_core : inv.

Lemma q_expired a e t : preserves P (handleExpiredAttempt cfg a e t).
Proof. unfold handleExpiredAttempt. svc. Qed.
#[local] Hint Resolve q_expired : inv.

Lemma q_schedule j : preserves P (scheduleAttempt cfg j).
Proof. unfold scheduleAttempt, scheduleAttemptInternal, expireLeases. svc. Qed.
#[local] Hint Resolve q_schedule : inv.

Lemma q_failure n j a e tr t c : preserves P (handleAttemptFailure cfg n j a e tr t c).
Proof. unfold handleAttemptFailure. svc. Qed.
#[local] Hint Resolve q_failure : inv.

Lemma q_Schedule j m r d : preserves P (Schedule_ cfg j m r d).
Proof. unfold Schedule_. svc. Qed.

(** Every event that has nothing to do with waiting requests. *)
Lemma q_event e s :
  (∀ d s, P s → P (s <| sv_now ::= λ t, t + Z.max 0 d |>)) →
  (∀ op, e = SvStore op → P s → P (s <| sv_db ::= run_op op |>)) →
  waiting_event e = false → P s → P (event e s).
Proof.
  intros Hnow Hop Hne Hs. destruct e; cbn [service_event].
  - by apply sv_sess.
  - apply q_detach; [intros; apply q_failure|done].
  - by apply q_Schedule.
  - discriminate Hne.
  - discriminate Hne.
  - apply q_message; [intros; apply q_failure|done].
  - apply (sv_op (OpClock (db_now (sv_db s) + Z.max 0 elapsed)) (s <| sv_now ::= λ t, t + Z.max 0 elapsed |>)); [done|].
    by apply Hnow.
  - by apply Hop.
Qed.
End runs.
End walk.

(** ** The service refines the store *)

Definition service_run (es : list ServiceEvent) (s : Service) : Service := foldl (λ s e, event e s) s es.

Lemma service_run_ind (P : Service → Prop) es :
  (∀ e s, e ∈ es → P s → P (event e s)) → ∀ s, P s → P (service_run es s).
Proof.
  unfold service_run. induction es as [|e es IH]; intros He s Hs; simpl; [done|].
  apply IH; [intros e' s' H; apply He; by constructor|]. apply He; [by constructor|done].
Qed.

(** The database comes from another one by operations that are all [good]. *)
Section ran.
Context (good : store_op → Prop) (Hgood : ∀ op, stores_answer op = false → good op) (db0 : DB).

Definition ran_by (s : Service) : Prop := ∃ ops, Forall good ops ∧ sv_db s = run_ops ops db0.

Lemma ran_by_op op s : good op → ran_by s → ran_by (s <| sv_db ::= run_op op |>).
Proof.
  intros Hop (ops & Hall & Hops). exists (ops ++ [op]). split; [by apply Forall_app_2; [|constructor]|].
  unfold run_ops. rewrite foldl_app. simpl. unfold run_ops in Hops. by rewrite <-Hops.
Qed.

#[local] Instance ran_by_frame : ServiceFrame ran_by.
Proof using Hgood.
  split; [split|]; try done.
  - intros op s Hop. apply ran_by_op. by apply Hgood.
  - intros j r s Hs. unfold removeRun, notify, mbind, St_bind. simpl. by destruct (sv_pending s !! j).
Qed.
End ran.

(** Whatever the service is asked to do, and in whatever order its methods are called, the
    database it leaves is the result of running operations of the store (each its own
    transaction) on the database it started from: everything proved of all sequences of
    store operations holds of the running coordinator. *)
Theorem service_refines_store es s :
  ∃ ops, sv_db (service_run es s) = run_ops ops (sv_db s).
Proof.
  assert (H : ran_by (λ _, True) (sv_db s) (service_run es s)).
  { apply (service_run_ind (ran_by (λ _, True) (sv_db s)) es); [|by exists []].
    pose proof (ran_by_frame (λ _, True) ltac:(done) (sv_db s)) as Hframe.
    intros e s' _ Hs. destruct e; try done;
      (apply (q_event (ran_by (λ _, True) (sv_db s))); [by intros|by intros|intros op0 _; by apply ran_by_op|done|done]). }
  destruct H as (ops & _ & H). by exists ops.
Qed.

(** ** Waiting requests *)

Record waits (j : string) (c : nat) (s : Service) : Prop := {
  wt_chan : (c < sv_nextChan s)%nat;
  wt_only j' : sv_pending s !! j' = Some c → j' = j;
  wt_state :
    (sv_pending s !! j = Some c ∧ is_Some (sv_runs s !! j) ∧ sv_chans s !! c = Some []) ∨
    (sv_pending s !! j ≠ Some c ∧ ∃ r, sv_chans s !! c = Some [r])
}.

#[local] Instance waits_inv j c : ServiceFrame (waits j c).
Proof.
  split; [split|]; try (intros; match goal with H : waits _ _ _ |- _ => by destruct H end).
  - intros j' r s [Hc Ho Hs]. unfold removeRun, notify, mbind, St_bind. simpl.
    assert (Ho' : ∀ j2, delete j' (sv_pending s) !! j2 = Some c → j2 = j).
    { intros j2 [_ H]%lookup_delete_Some. by apply Ho. }
    destruct (sv_pending s !! j') as [c'|] eqn:Ep; split; simpl; try done.
    + destruct (decide (c' = c)) as [->|Hne].
      * pose proof (Ho _ Ep) as ->. right. split; [by rewrite lookup_delete_eq|]. exists r.
        rewrite lookup_alter_eq. destruct Hs as [(_ & _ & ->)|[Hp _]]; [done|by destruct Hp].
      * destruct Hs as [(Hp & Hr & Hch)|[Hp Hch]].
        -- left. assert (j ≠ j') by congruence.
           rewrite !lookup_delete_ne, lookup_alter_ne by done. done.
        -- right. rewrite lookup_alter_ne by done. split; [|done]. by intros [_ H]%lookup_delete_Some.
    + destruct Hs as [(Hp & Hr & Hch)|[Hp Hch]].
      * left. assert (j ≠ j') by congruence. by rewrite !lookup_delete_ne by done.
      * right. split; [|done]. by intros [_ H]%lookup_delete_Some.
Qed.

Lemma waits_run j c j' run s : waits j c s → waits j c (s <| sv_runs ::= <[j' := run]> |>).
Proof.
  intros [Hc Ho Hs]. split; [done|done|]. simpl. destruct Hs as [(? & ? & ?)|?]; [|by right].
  left. split_and!; [done| |done]. destruct (decide (j = j')) as [->|];
    [rewrite lookup_insert_eq; by eexists|by rewrite lookup_insert_ne].
Qed.

(** Channels are numbered in the order they are made. *)
Definition chans_below (s : Service) : Prop :=
  ∀ j c, sv_pending s !! j = Some c → (c < sv_nextChan s)%nat.

#[local] Instance chans_below_inv : ServiceFrame chans_below.
Proof.
  split; [split|]; try done. intros j r s Hs. unfold removeRun, notify, mbind, St_bind. simpl.
  assert (H' : ∀ j2 c, delete j (sv_pending s) !! j2 = Some c → (c < sv_nextChan s)%nat).
  { intros j2 c [_ H]%lookup_delete_Some. by apply (Hs j2). }
  by destruct (sv_pending s !! j).
Qed.

Lemma chans_below_event e s : chans_below s → chans_below (event e s).
Proof.
  intros Hs. destruct e; try (apply (q_event chans_below); [by intros|by intros|done|done|done]).
  - intros j c. simpl. rewrite lookup_insert_Some. intros [[_ <-]|[_ H]]; [lia|].
    apply Hs in H. lia.
  - intros j c. simpl. intros [_ H]%lookup_delete_Some. by apply (Hs j).
Qed.

(** The events that end or replace the wait of a request. *)
Definition leaves_waiting (j : string) (e : ServiceEvent) : Prop :=
  e ≠ SvAbandonWait j ∧ e ≠ SvRegisterWait j.

Lemma waits_event j c e s : leaves_waiting j e → waits j c s → waits j c (event e s).
Proof.
  intros [Ha Hr] Hs. destruct e;
    try (apply (q_event (waits j c)); [apply waits_run|by intros d0 s0 []|by intros op0 _ []|done|done]).
  - destruct Hs as [Hc Ho Hs]. assert (jobID ≠ j) by congruence. split; simpl; [lia| |].
    + intros j'. rewrite lookup_insert_Some. intros [[_ E]|[_ H']]; [lia|by apply Ho].
    + rewrite lookup_insert_ne, lookup_insert_ne by (done || lia). done.
  - destruct Hs as [Hc Ho Hs]. assert (jobID ≠ j) by congruence. split; simpl; [done| |].
    + intros j' [_ H']%lookup_delete_Some. by apply Ho.
    + by rewrite !lookup_delete_ne.
Qed.

(** A registered and scheduled request waits or has its result. *)
Lemma scheduled_waits j m r d s :
  chans_below s → waits j (sv_nextChan s) (Schedule_ cfg j m r d (RegisterWait j s).2).2.
Proof.
  intros Hb. unfold Schedule_. match goal with |- waits j ?c ((?m ≫= ?f) ?s1).2 =>
    change ((m ≫= f) s1) with (f tt (m s1).2); apply (q_schedule (waits j c)) end; [apply waits_run|].
  split; simpl; [lia| |].
  - intros j'. rewrite lookup_insert_Some. intros [[? _]|[_ H]]; [done|]. apply Hb in H. lia.
  - left. rewrite !lookup_insert_eq. split_and!; [done|by eexists|done].
Qed.

(** C4. A request that registered its wait and was scheduled is answered at most once and never
    forgotten: as long as it neither gives up nor registers again, after any further
    events of the service either it is still waiting, with its retry context and an empty
    channel, or exactly one result was sent to its channel; the send never blocks, since
    the channel holds one. *)
Theorem waiter_answered_once es0 es db now wire j m r d :
  Forall (leaves_waiting j) es →
  let s0 := service_run es0 (new_service db now wire) in
  let c := sv_nextChan s0 in
  let s := service_run es (Schedule_ cfg j m r d (RegisterWait j s0).2).2 in
  (sv_pending s !! j = Some c ∧ is_Some (sv_runs s !! j) ∧ sv_chans s !! c = Some []) ∨
  (sv_pending s !! j ≠ Some c ∧ ∃ result, sv_chans s !! c = Some [result]).
Proof.
  intros Hes s0 c s. rewrite Forall_forall in Hes.
  assert (Hb : chans_below s0).
  { apply service_run_ind; [intros; by apply chans_below_event|done]. }
  refine (wt_state j c s _). apply (service_run_ind (waits j c)); [intros; apply waits_event; auto|].
  by apply scheduled_waits.
Qed.

(** ** Offers *)

Lemma Choose_elem w l c : Choose w l = Some c → c ∈ l.
Proof.
  unfold Choose. destruct l as [|c0 l]; [done|]. intros H.
  apply (elem_of_stable_sort (better (effective_weights w))).
  destruct (stable_sort _ _); simplify_eq/=. constructor.
Qed.

Lemma selectable_true s c :
  selectable s c = true ↔
  (∃ ref, sv_sessions s !! NodeID c = Some ref ∧ sr_sessionID ref = SessionID c ∧ SessionID c ≠ "") ∧
  sv_activeByNode s !! NodeID c = None.
Proof.
  unfold selectable. rewrite andb_true_iff, bool_decide_eq_true. apply and_iff_compat_r.
  destruct (sv_sessions s !! NodeID c) as [ref|]; [|split; [done|by intros (? & ? & _)]].
  rewrite andb_true_iff, negb_true_iff, String.eqb_neq, String.eqb_eq. split.
  - intros [? E]. exists ref. by rewrite <-E.
  - intros (ref' & [= ->] & E & ?). by rewrite E.
Qed.

Definition stale_cutoff (s : Service) : Z := sv_now s - default_pos (cf_StaleAfter cfg) (45 * second).

(** A scheduled attempt: on whom, and what it changed. *)
Record offer_made (j : string) (s : Service) (run : runState) (c : Candidate) (att : ScheduledAttempt)
    (s' : Service) : Prop := {
  om_run : sv_runs s !! j = Some run;
  om_eligible : c ∈ eligible_nodes (sv_db s) (mi_ID (run_model run)) (stale_cutoff s);
  om_allowed : NodeID c ∉ run_excluded run;
  om_session : ∃ ref, sv_sessions s !! NodeID c = Some ref ∧ sr_sessionID ref = SessionID c ∧ SessionID c ≠ "";
  om_idle : sv_activeByNode s !! NodeID c = None;
  om_active : sv_activeByNode s' =
    <[NodeID c := {| aj_jobID := j; aj_attemptID := sa_AttemptID att |}]> (sv_activeByNode s);
  om_runs : sv_runs s' = <[j := run <| run_attempts ::= Z.add 1 |>]> (sv_runs s);
  om_offer : sv_offers s' = (NodeID c, offer_of att (run_model run) (run_request run) KindStandard) :: sv_offers s;
  om_attempt : sa_JobID att = j ∧ sa_NodeID att = NodeID c ∧ sa_SessionID att = SessionID c;
  om_row : ∃ nonce deadline, db_job_attempts (sv_db s') =
    <[sa_AttemptID att := offered_row j (NodeID c) nonce (next_attempt_number (sv_db s) j)
        (sv_now s + default_pos (cf_LeaseTTL cfg) (10 * second)) deadline (db_now (sv_db s))]>
      (db_job_attempts (sv_db s))
}.

(** What a failed scheduling leaves: no offer, and the same nodes free. *)
Definition no_offer (s s' : Service) : Prop :=
  sv_activeByNode s' = sv_activeByNode s ∧ sv_offers s' = sv_offers s ∧ sv_sessions s' = sv_sessions s.

Lemma schedule_core_cases j s :
  match schedule_core cfg j s with
  | (Ok att, s') => ∃ run c, offer_made j s run c att s'
  | (Err _, s') => no_offer s s'
  end.
Proof.
  unfold schedule_core, on_store, EligibleNodes, setActive, clearActive, try, ignore_err,
    mbind, St_bind, gets, modify, of_option, fail, mret, St_ret. simpl.
  destruct (sv_runs s !! j) as [run|] eqn:Er; [|done]. simpl.
  destruct (Choose _ _) as [c|] eqn:Ec; [|by destruct s]. simpl.
  apply Choose_elem, list_elem_of_filter in Ec as [Hc Hel].
  apply andb_true_iff in Hc as [Hex%bool_decide_eq_true Hsel].
  apply selectable_true in Hsel as [Hses Hidle]. simpl in Hses, Hidle.
  destruct (CreateAttempt _ _ _ _ _) as [[att|e] db1] eqn:Ea; simpl.
  2: { split; simpl; [by rewrite delete_insert_id|done]. }
  destruct (CreateAttempt_run _ _ _ _ _ _ _ Ea) as (Hj & Hn & _ & nonce & _ & Hrow).
  unfold send_offer. simpl. destruct (sv_wire s) as [|[] rest]; simpl.
  3: { destruct (FailAttempt _ _ _ _ _ _) as [r2 db2]. split; simpl; [|done].
       by rewrite insert_insert_eq, delete_insert_id. }
  all: exists run, c; split; simpl; try done; [by rewrite insert_insert_eq|by eexists _, _].
Qed.

(** What the coordinator offers, and to whom: a scheduled attempt goes to a node the store
    lists as eligible for the model, whose attached session is the one of its last
    heartbeat, which is not working for this coordinator and has not failed this job; the
    attempt is stored as offered with the lease, one message is sent and the node is
    marked busy with it. When scheduling fails no offer is out and no node stays blocked. *)
Theorem schedule_offer_spec j s :
  match scheduleAttemptInternal cfg j false s with
  | (Ok att, s') => ∃ run c, offer_made j s run c att s'
  | (Err _, s') => no_offer s s'
  end.
Proof. exact (schedule_core_cases j s). Qed.

(** ** Retries *)

(** The standard offers of a job that were sent. *)
Definition offer_for (j : string) (sent : string * JobOfferPayload) : bool :=
  String.eqb (jo_JobID sent.2) j && match jo_Verification sent.2 with KindStandard => true | KindDuplicate => false end.
Definition offers_for (j : string) (s : Service) : Z := Z.of_nat (length (List.filter (offer_for j) (sv_offers s))).

(** The submissions of a job. *)
Definition submits (j : string) (e : ServiceEvent) : bool :=
  match e with SvSchedule j' _ _ _ => String.eqb j' j | _ => false end.
Definition submissions (j : string) (es : list ServiceEvent) : Z := Z.of_nat (length (List.filter (submits j) es)).

(** What a run may still be offered. *)
Definition slack (run : option runState) : Z := match run with Some r => 3 - run_attempts r | None => 0 end.

(** The runs have at most [g] attempts each, and what was offered and may still be is at most [n]. *)
Record within (g n : string → Z) (s : Service) : Prop := {
  wi_runs j run : sv_runs s !! j = Some run → run_attempts run ≤ g j;
  wi_offers j : offers_for j s + slack (sv_runs s !! j) ≤ n j
}.

Lemma within_mono g g' n n' s : (∀ j, g j ≤ g' j) → (∀ j, n j ≤ n' j) → within g n s → within g' n' s.
Proof.
  intros Hg Hn [Hr Ho]. split; [intros j run Hj; specialize (Hr _ _ Hj); specialize (Hg j); lia|].
  intros j. specialize (Ho j). specialize (Hn j). lia.
Qed.

Lemma within_same g n s s' : sv_runs s' = sv_runs s → sv_offers s' = sv_offers s → within g n s → within g n s'.
Proof. intros Er Eo [Hr Ho]. split; unfold offers_for in *; rewrite Er, ?Eo; done. Qed.

(** A run that is dropped leaves its slack unused. *)
Lemma within_drop g n j s s' : (∀ j, g j ≤ 3) → sv_runs s' = delete j (sv_runs s) → sv_offers s' = sv_offers s →
  within g n s → within g n s'.
Proof.
  intros Hg Er Eo [Hr Ho]. split; unfold offers_for in *.
  - intros j' run. rewrite Er. intros [_ H]%lookup_delete_Some. by apply Hr.
  - intros j'. rewrite Er, Eo. specialize (Ho j'). destruct (decide (j' = j)) as [->|Hne]; [|by rewrite lookup_delete_ne].
    rewrite lookup_delete_eq. destruct (sv_runs s !! j) as [run|] eqn:E; [|done]. specialize (Hr _ _ E). specialize (Hg j). cbn in *. lia.
Qed.

Lemma within_quiet g n : (∀ j, g j ≤ 3) → QuietFrame (within g n).
Proof.
  intros Hg. split; try (intros; match goal with H : within g n ?s |- _ => by apply (within_same g n s) end).
  - intros node o s Ho Hs. destruct Hs as [Hr Hoff]. split; [done|]. intros j. specialize (Hoff j). unfold offers_for in *.
    cbn [sv_offers upd_field List.filter]. unfold offer_for at 1. cbn [snd]. rewrite Ho, andb_false_r. exact Hoff.
  - intros j r s Hs. unfold removeRun, notify, mbind, St_bind. simpl.
    destruct (sv_pending s !! j); by eapply (within_drop g n j s).
Qed.

(** What a scheduling does to the runs and the offers. *)
Lemma schedule_core_runs j s :
  let s' := (schedule_core cfg j s).2 in
  (sv_runs s' = sv_runs s ∧ sv_offers s' = sv_offers s) ∨
  ∃ run, sv_runs s !! j = Some run ∧ sv_runs s' = <[j := run <| run_attempts ::= Z.add 1 |>]> (sv_runs s) ∧
    (sv_offers s' = sv_offers s ∨ ∃ n o, sv_offers s' = (n, o) :: sv_offers s ∧ jo_JobID o = j).
Proof.
  unfold schedule_core, on_store, EligibleNodes, setActive, clearActive, try, ignore_err,
    mbind, St_bind, gets, modify, of_option, fail, mret, St_ret. simpl.
  destruct (sv_runs s !! j) as [run|] eqn:Er; [|by left]. simpl.
  destruct (Choose _ _) as [c|]; [|by left]. right. exists run. split; [done|]. simpl.
  destruct (CreateAttempt _ _ _ _ _) as [[att|e] db1] eqn:Ea; [|by split; [|left]]. simpl.
  destruct (CreateAttempt_run _ _ _ _ _ _ _ Ea) as (Hj & _).
  unfold send_offer. simpl. destruct (sv_wire s) as [|[] rest]; simpl.
  3: { destruct (FailAttempt _ _ _ _ _ _). by split; [|left]. }
  all: split; [done|]; right; by eexists _, _.
Qed.

(** One more attempt takes one off the slack, whether or not the offer could be sent. *)
Lemma core_within g g' n j s :
  within g n s → (∀ j' run, sv_runs s !! j' = Some run → run_attempts run + (if decide (j' = j) then 1 else 0) ≤ g' j') →
  within g' n (schedule_core cfg j s).2.
Proof.
  intros [_ Ho] H. destruct (schedule_core_runs j s) as [[Er Eo]|(run & Hr & Er & Eo)]; split.
  - intros j' run'. rewrite Er. intros Hr. specialize (H _ _ Hr). case_decide; lia.
  - intros j'. unfold offers_for in *. rewrite Er, Eo. apply Ho.
  - intros j' run'. rewrite Er, lookup_insert_Some. intros [[<- <-]|[Hne Hr']].
    + specialize (H _ _ Hr). rewrite decide_True in H by done. simpl. lia.
    + specialize (H _ _ Hr'). rewrite decide_False in H by done. lia.
  - intros j'. rewrite Er. specialize (Ho j'). unfold offers_for in *. destruct (decide (j' = j)) as [->|Hne].
    + rewrite lookup_insert_eq. rewrite Hr in Ho. cbn [slack run_attempts upd_field] in *.
      destruct Eo as [->|(node & o & -> & _)]; [lia|]. cbn [List.filter]. destruct (offer_for j _); cbn [length]; lia.
    + rewrite lookup_insert_ne by done. destruct Eo as [->|(node & o & -> & Hj)]; [done|]. cbn [List.filter].
      unfold offer_for at 1. cbn [snd]. rewrite Hj, (proj2 (String.eqb_neq j j')) by done. done.
Qed.

(** A granted retry leaves the run with at most one attempt. *)
Lemma prepareRetry_within g n j node s r s' :
  within g n s → prepareRetry j node s = (r, s') →
  within g n s' ∧ (r = Ok true → ∀ run, sv_runs s' !! j = Some run → run_attempts run ≤ 1).
Proof.
  unfold prepareRetry. intros [Hr Ho]. destruct (sv_runs s !! j) as [run|] eqn:Er; [|by intros [= <- <-]].
  destruct (Z.leb_spec 2 (run_attempts run)); intros [= <- <-]; [done|]. split; [split|].
  - intros j' run'. simpl. rewrite lookup_insert_Some. intros [[<- <-]|[_ Hj]]; [|by apply Hr]. simpl. by apply Hr.
  - intros j'. specialize (Ho j'). simpl. destruct (decide (j' = j)) as [->|Hne]; [|by rewrite lookup_insert_ne].
    rewrite lookup_insert_eq. by rewrite Er in Ho.
  - intros _ run'. simpl. rewrite lookup_insert_eq. intros [= <-]. simpl. lia.
Qed.

(** At most three for every job, two for the one about to be scheduled. *)
Definition three (_ : string) : Z := 3.
Definition two_for (j j' : string) : Z := if decide (j' = j) then 2 else 3.
Lemma two_three j j' : two_for j j' ≤ three j'.
Proof. unfold two_for, three. case_decide; lia. Qed.

Section bounded.
Context (n : string → Z).

#[local] Instance three_quiet : QuietFrame (within three n).
Proof. by apply within_quiet. Qed.
#[local] Instance two_quiet j : QuietFrame (within (two_for j) n).
Proof. apply within_quiet, two_three. Qed.

(** What ends an attempt that is not retried. *)
Lemma failed_within g `{!QuietFrame (within g n)} (b : bool) j a c e tr t :
  preserves (within g n) (if b then mret tt else _ ← on_store (FailJob j a c tr t); _ ← removeRun j; notify j (ResultError e)).
Proof. destruct b; [apply preserves_ret|]. apply preserves_bind; [by apply q_fail_job|intros _; apply sv_finish]. Qed.

Lemma expired_within g a e t : (∀ j, 2 ≤ g j ≤ 3) → preserves (within g n) (handleExpiredAttempt cfg a e t).
Proof.
  intros Hg s Hs. pose proof (within_quiet g n (λ j, proj2 (Hg j))) as Hframe. unfold handleExpiredAttempt.
  match goal with |- within g n ((?m ≫= ?f) s).2 => change ((m ≫= f) s) with (f tt (m s).2) end.
  set (s1 := (clearActive (ea_NodeID a) s).2). assert (Hs1 : within g n s1) by by apply (within_same g n s). clearbody s1. cbv beta.
  unfold mbind at 1, St_bind at 1.
  destruct (prepareRetry (ea_JobID a) (ea_NodeID a) s1) as [r s2] eqn:Ep.
  apply (prepareRetry_within g n) in Ep as [Hs2 Hone]; [|done].
  destruct r as [[]|e']; [|by apply (failed_within g false)|done].
  unfold mbind at 1, St_bind at 1, mbind at 1, St_bind at 1, try.
  assert (Hc : within g n (schedule_core cfg (ea_JobID a) s2).2).
  { apply (core_within g); [done|]. intros j' run Hr. case_decide as Hj; [subst j'|].
    - specialize (Hone eq_refl run Hr). specialize (Hg (ea_JobID a)). lia.
    - pose proof (wi_runs _ _ _ Hs2 _ _ Hr). lia. }
  destruct (schedule_core cfg (ea_JobID a) s2) as [rc s3]. by apply failed_within.
Qed.

Lemma schedule_within j s :
  within (two_for j) n s → within three n (scheduleAttempt cfg j s).2.
Proof.
  intros Hs. unfold scheduleAttempt, scheduleAttemptInternal.
  match goal with |- within _ _ ((?m ≫= ?f) s).2 => change ((m ≫= f) s) with (f (sv_now s) s) end.
  cbv beta. unfold mbind, St_bind.
  assert (He : preserves (within (two_for j) n) (expireLeases cfg (sv_now s))).
  { unfold expireLeases. apply preserves_bind; [apply q_expire; apply _|]. intros xs. apply preserves_for_each. intros a.
    apply expired_within. intros j'. unfold two_for. case_decide; lia. }
  specialize (He s Hs). destruct (expireLeases cfg (sv_now s) s) as [[u|e] s1]; simpl in He.
  - apply (core_within (two_for j)); [done|]. intros j' run Hr. pose proof (wi_runs _ _ _ He _ _ Hr) as Ha.
    unfold two_for, three in *. case_decide; lia.
  - by apply (within_mono (two_for j) _ n n); [apply two_three|..].
Qed.

Lemma failure_within node j a e tr t c : preserves (within three n) (handleAttemptFailure cfg node j a e tr t c).
Proof.
  intros s Hs. unfold handleAttemptFailure.
  match goal with |- within _ _ ((?m ≫= ?f) s).2 => change ((m ≫= f) s) with (f tt (m s).2) end.
  set (s1 := (clearActive node s).2). assert (Hs1 : within three n s1) by by apply (within_same three n s). clearbody s1. cbv beta zeta.
  destruct tr; [|by apply (failed_within three false)]. unfold mbind at 1, St_bind at 1.
  destruct (prepareRetry j node s1) as [r s2] eqn:Ep.
  apply (prepareRetry_within three n) in Ep as [Hs2 Hone]; [|done].
  destruct r as [[]|e']; [|by apply (failed_within three false)|done].
  assert (H2 : within (two_for j) n s2).
  { destruct Hs2 as [Hr Ho]. split; [|done]. intros j' run Hj. unfold two_for. case_decide as Hd; [|exact (Hr _ _ Hj)].
    subst j'. specialize (Hone eq_refl run Hj). lia. }
  unfold mbind at 1, St_bind at 1, mbind at 1, St_bind at 1.
  pose proof (q_fail_attempt (within (two_for j) n) j a (or_string c (ae_Code e)) true t s2 H2) as Hf.
  destruct (on_store (FailAttempt j a _ true t) s2) as [[u|ef] s3]; simpl in Hf.
  2: { by apply (within_mono (two_for j) _ n n); [apply two_three|..]. }
  pose proof (schedule_within j s3 Hf) as Hsch. unfold mbind at 1, St_bind at 1, try.
  destruct (scheduleAttempt cfg j s3) as [rs s4]. apply (failed_within three (is_ok rs) j a (or_string c (ae_Code e)) e true t). exact Hsch.
Qed.

(** An event that submits nothing. *)
Lemma within_event e s : (∀ j, submits j e = false) → within three n s → within three n (event e s).
Proof.
  intros Hne Hs. destruct e; cbn [service_event]; try by apply (within_same three n s).
  - apply (q_detach (within three n)); [intros; apply failure_within|done].
  - specialize (Hne jobID). cbn in Hne. by rewrite String.eqb_refl in Hne.
  - by apply (within_drop three n jobID s).
  - apply (q_message (within three n)); [intros; apply failure_within|done].
Qed.
End bounded.

(** A submission gives its job three more. *)
Lemma submitted_within n j m r d s :
  within three n s → within three (λ j', n j' + (if decide (j' = j) then 3 else 0)) (Schedule_ cfg j m r d s).2.
Proof.
  intros [Hr Ho]. unfold Schedule_. match goal with |- within _ _ ((?m ≫= ?f) s).2 =>
    change ((m ≫= f) s) with (f tt (m s).2) end. apply schedule_within. split.
  - intros j' run. simpl. rewrite lookup_insert_Some. unfold two_for.
    intros [[-> <-]|[Hne Hj]]; [by case_decide|]. rewrite decide_False by done. by apply (Hr j').
  - intros j'. specialize (Ho j'). unfold offers_for in *. simpl. destruct (decide (j' = j)) as [->|Hne].
    + rewrite lookup_insert_eq. cbn [slack run_attempts]. destruct (sv_runs s !! j) as [run|] eqn:E; cbn [slack] in Ho; [|lia].
      specialize (Hr _ _ E). unfold three in Hr. lia.
    + rewrite lookup_insert_ne by done. lia.
Qed.

Lemma service_run_within es n s : within three n s → within three (λ j, n j + 3 * submissions j es) (service_run es s).
Proof.
  revert n s. induction es as [|e es IH]; intros n s Hs; cbn [service_run foldl].
  - apply (within_mono three _ n); [done| |done]. intros j. unfold submissions. cbn. lia.
  - assert (He : within three (λ j, n j + (if submits j e then 3 else 0)) (event e s)).
    { destruct e; try (apply (within_event (λ j, n j + 0)); [done|]; apply (within_mono three _ n); [done|intros; lia|done]).
      eapply (within_mono three); [done| |by apply submitted_within]. intros j. cbn.
      case_decide as Hj; [subst; rewrite String.eqb_refl; lia|]. rewrite (proj2 (String.eqb_neq _ _)) by congruence. lia. }
    apply IH in He. eapply within_mono; [done| |exact He]. intros j. unfold submissions. cbn [List.filter].
    destruct (submits j e); cbn [length]; lia.
Qed.

(** C28. Retries are bounded: whatever nodes report and whenever leases expire, a job is offered to
    nodes at most three times per submission, counting the offers that were sent for its answer
    (an offer for the duplicate check of an answer is of another kind, and is never repeated);
    and its run counts at most three attempts. (The intended bound is two; the third is made
    when an expired lease of the same job is found while a reported failure is being retried.) *)
Theorem retry_bound es db now wire j :
  let s := service_run es (new_service db now wire) in
  offers_for j s ≤ 3 * submissions j es ∧ ∀ run, sv_runs s !! j = Some run → run_attempts run ≤ 3.
Proof.
  cbv zeta. assert (H : within three (λ _, 0) (new_service db now wire)) by by split.
  apply (service_run_within es) in H as [Hr Ho]. split; [|intros run Hj; exact (Hr j run Hj)].
  specialize (Ho j). destruct (sv_runs _ !! j) as [run|] eqn:E; cbn [slack] in Ho; [|lia].
  specialize (Hr _ _ E). unfold three in Hr. lia.
Qed.

(** ** Completions *)

Lemma on_store_readonly {A} (m : St DB A) s : (∀ db, (m db).2 = db) → (on_store m s).2 = s.
Proof.
  intros Hm. unfold on_store. specialize (Hm (sv_db s)). destruct (m (sv_db s)) as [r db]. simpl in *. subst.
  by destruct s.
Qed.

Lemma verifyCompletion_read n p s : (verifyCompletion ed25519_Verify json_Marshal n p s).2 = s.
Proof.
  assert (Hr : ∀ A (m : St DB A), (∀ db, (m db).2 = db) → preserves (λ s', s' = s) (on_store m)).
  { intros A m Hm s' ->. by apply on_store_readonly. }
  refine ((_ : preserves (λ s', s' = s) (verifyCompletion _ _ n p)) s eq_refl). unfold verifyCompletion.
  repeat first [apply Hr; first [apply ModelHashes_read | apply PublicKeyForNode_read] | progress solve_inv].
Qed.

Definition completion_request (s : Service) (p : JobCompletedPayload) : ChatRequest :=
  match sv_runs s !! jc_JobID p with Some r => run_request r | None => empty_ChatRequest end.

(** The plausibility issues of a completion, and the one that refuses it. *)
Definition completion_issues (s : Service) (p : JobCompletedPayload) : list MeteringIssue * option gerror :=
  ValidateCompletionForAcceptance (completion_request s p) p.

(** The database once the issues are recorded. *)
Definition metered_db (s : Service) (p : JobCompletedPayload) : DB :=
  let issues := (completion_issues s p).1 in
  (RecordMeteringIssues p issues (meteringStatus issues) (sv_now s) (sv_db s)).2.

Definition rejected (msg : string) : Result := ResultError {|
  ae_Code := CodeJobFailed; ae_Message := msg; ae_Retryable := false; ae_Status := 503 |}.

(** The request waiting on channel [c] for the job got this result and nothing is left of it. *)
Definition answered (j : string) (c : nat) (res : Result) (s : Service) : Prop :=
  sv_chans s !! c = Some [res] ∧ sv_pending s !! j = None ∧ sv_runs s !! j = None.
Definition waiting (j : string) (c : nat) (s : Service) : Prop :=
  sv_pending s !! j = Some c ∧ sv_chans s !! c = Some [].

Lemma finish_answers j c res s :
  waiting j c s →
  let '(r, s') := ((_ ← removeRun j; notify j res) : St Service unit) s in
  r = Ok tt ∧ answered j c res s' ∧ sv_activeByNode s' = sv_activeByNode s.
Proof.
  intros [Hp Hc]. unfold removeRun, notify, mbind, St_bind, answered. simpl. rewrite Hp. simpl.
  rewrite lookup_alter_eq, Hc, !lookup_delete_eq. done.
Qed.

Lemma reject_answers n p msg c s :
  waiting (jc_JobID p) c s →
  let '(r, s') := reject_completion n p msg s in
  r = Ok tt ∧ answered (jc_JobID p) c (rejected msg) s' ∧ sv_activeByNode s' !! n = None.
Proof.
  intros [Hp Hc]. unfold reject_completion, on_store, clearActive, ignore_err, mbind, St_bind, gets, modify.
  simpl. destruct (FailJob _ _ _ _ _ _) as [rf db]. simpl. unfold answered, rejected. simpl. rewrite Hp. simpl.
  rewrite lookup_alter_eq, Hc, !lookup_delete_eq. done.
Qed.

Lemma maybe_frame n p run s :
  sv_activeByNode s !! n = None →
  let s' := (maybeStartDuplicate cfg n p run s).2 in
  sv_activeByNode s' !! n = None ∧ sv_pending s' = sv_pending s ∧ sv_chans s' = sv_chans s ∧
  ∃ u, (maybeStartDuplicate cfg n p run s).1 = Ok u.
Proof.
  intros Hn. unfold maybeStartDuplicate, on_store, EligibleNodes, setActive, clearActive, setDuplicateRun,
    removeDuplicateRun, try, ignore_err, mbind, St_bind, gets, modify, mret, St_ret. simpl.
  destruct (jc_Message p) as [msg|]; [|by eauto]. destruct (_ || _); [by eauto|]. simpl.
  destruct (Choose _ _) as [c|] eqn:Ec; [|by eauto]. simpl.
  apply Choose_elem, list_elem_of_filter in Ec as [Hc _].
  apply andb_true_iff in Hc as [Hne%negb_true_iff%String.eqb_neq _].
  destruct (CreateVerificationAttempt _ _ _ _ _) as [[att|e] db1]; simpl.
  2: { rewrite lookup_delete_ne, lookup_insert_ne by done. by eauto. }
  unfold send_offer. simpl. destruct (sv_wire s) as [|[] rest]; simpl.
  3: destruct (MarkVerificationAttemptFailed _ _ _ _ _) as [r2 db2]; simpl; rewrite lookup_delete_ne by done.
  all: rewrite !lookup_insert_ne by done; by eauto.
Qed.

Lemma completion_dispatch n p s :
  sv_duplicates s !! jc_AttemptID p = None →
  handle n (MsgJobCompleted p) s = handleCompletion ed25519_Verify json_Marshal cfg n p s.
Proof.
  intros Hd. cbn [HandleNodeMessage]. unfold isDuplicateAttempt, mbind at 1, St_bind at 1, gets at 1.
  by rewrite Hd.
Qed.

(** [handleCompletion] as the sequence of its steps. *)
Lemma handleCompletion_steps n p s :
  handleCompletion ed25519_Verify json_Marshal cfg n p s =
  let sm := s <| sv_db := metered_db s p |> in
  match (verifyCompletion ed25519_Verify json_Marshal n p s).1, (completion_issues s p).2 with
  | Err e, _ => reject_completion n p (error_string e) s
  | Ok _, Some e => reject_completion n p (error_string e) sm
  | Ok _, None =>
      match CompleteJob p (sv_now s) (cf_CreditHold cfg) (meteringStatus (completion_issues s p).1) (sv_db sm) with
      | (Err e, db) => (Err e, sm <| sv_db := db |> <| sv_activeByNode ::= delete n |>)
      | (Ok resp, db) =>
          let sc := sm <| sv_db := db |> <| sv_activeByNode ::= delete n |> in
          let finish := (_ ← removeRun (jc_JobID p); notify (jc_JobID p) (ResultResponse resp)) : St Service unit in
          match sv_runs sm !! jc_JobID p with
          | Some run =>
              match maybeStartDuplicate cfg n p run sc with
              | (Ok _, sd) => finish sd
              | (Err e, sd) => (Err e, sd)
              end
          | None => finish sc
          end
      end
  end.
Proof.
  unfold handleCompletion. unfold mbind at 1, St_bind at 1, gets at 1. unfold mbind at 1, St_bind at 1, try at 1.
  pose proof (verifyCompletion_read n p s) as Hread.
  destruct (verifyCompletion ed25519_Verify json_Marshal n p s) as [[u|e] s1]; simpl in Hread; subst s1; cbn [fst];
    [|done].
  unfold mbind at 1, St_bind at 1, runSnapshot, gets at 1.
  change (match sv_runs s !! jc_JobID p with Some r => run_request r | None => empty_ChatRequest end)
    with (completion_request s p).
  change (ValidateCompletionForAcceptance (completion_request s p) p) with (completion_issues s p).
  unfold metered_db. destruct (completion_issues s p) as [issues err]. cbn [fst snd].
  assert (Hm : ∀ f : () → St Service unit,
    ((match issues with
      | [] => mret tt
      | _ => ignore_err (on_store (RecordMeteringIssues p issues (meteringStatus issues) (sv_now s)))
      end) ≫= f) s =
    f tt (s <| sv_db := (RecordMeteringIssues p issues (meteringStatus issues) (sv_now s) (sv_db s)).2 |>)).
  { intros f. unfold mbind, St_bind, ignore_err, on_store, mret, St_ret.
    destruct issues as [|i0 issues]; [by destruct s|]. by destruct (RecordMeteringIssues _ _ _ _ _). }
  rewrite Hm. destruct err as [e|]; [done|].
  set (sm := s <| sv_db := _ |>). unfold mbind at 1, St_bind at 1, try, on_store.
  destruct (CompleteJob _ _ _ _ (sv_db sm)) as [[resp|e] db]; [|done].
  change (sv_runs sm) with (sv_runs s). by destruct (sv_runs s !! jc_JobID p).
Qed.

(** C12. What a completion message does, on every branch. A completion that does not verify
    (model or runtime hash, or signature) or is not plausible fails the job for good and
    the waiting request gets that error. One that passes and that the store accepts
    answers the request with the stored response. When the store refuses it (no such
    attempt, too late, or the job is already billed) the error is returned to the session
    and the request keeps waiting. In every case the node is free again. *)
Theorem completion_message_spec n p c s :
  sv_duplicates s !! jc_AttemptID p = None → waiting (jc_JobID p) c s →
  let '(r, s') := handle n (MsgJobCompleted p) s in
  sv_activeByNode s' !! n = None ∧
  match (verifyCompletion ed25519_Verify json_Marshal n p s).1, (completion_issues s p).2 with
  | Err e, _ => r = Ok tt ∧ answered (jc_JobID p) c (rejected (error_string e)) s'
  | Ok _, Some e => r = Ok tt ∧ answered (jc_JobID p) c (rejected (error_string e)) s'
  | Ok _, None =>
      match CompleteJob p (sv_now s) (cf_CreditHold cfg) (meteringStatus (completion_issues s p).1) (metered_db s p) with
      | (Ok resp, _) => r = Ok tt ∧ answered (jc_JobID p) c (ResultResponse resp) s'
      | (Err e, db) => r = Err e ∧ waiting (jc_JobID p) c s' ∧ sv_db s' = db
      end
  end.
Proof.
  intros Hd Hw. rewrite completion_dispatch by done. rewrite handleCompletion_steps.
  destruct (verifyCompletion ed25519_Verify json_Marshal n p s) as [[u|e] s1]; cbn [fst].
  2: { pose proof (reject_answers n p (error_string e) c s Hw) as H.
       destruct (reject_completion n p (error_string e) s). destruct H as (H1 & H2 & H3).
       split; [exact H3|]. split; [exact H1|exact H2]. }
  set (sm := s <| sv_db := metered_db s p |>). assert (Hwm : waiting (jc_JobID p) c sm) by exact Hw.
  destruct (completion_issues s p).2 as [e|] eqn:Ei.
  { pose proof (reject_answers n p (error_string e) c sm Hwm) as H.
    destruct (reject_completion n p (error_string e) sm). destruct H as (H1 & H2 & H3).
    split; [exact H3|]. split; [exact H1|exact H2]. }
  change (sv_db sm) with (metered_db s p).
  destruct (CompleteJob _ _ _ _ (metered_db s p)) as [[resp|e] db].
  2: { split; [exact (lookup_delete_eq _ _)|]. split; [done|]. split; [exact Hw|done]. }
  set (sc := sm <| sv_db := db |> <| sv_activeByNode ::= delete n |>).
  assert (Hsc : sv_activeByNode sc !! n = None) by (exact (lookup_delete_eq _ _)).
  assert (Hwc : waiting (jc_JobID p) c sc) by exact Hw.
  change (sv_runs sm) with (sv_runs s). destruct (sv_runs s !! jc_JobID p) as [run|].
  - destruct (maybe_frame n p run sc Hsc) as (Ha & Hp & Hc & u' & Hu).
    destruct (maybeStartDuplicate cfg n p run sc) as [rd sd]. simpl in Ha, Hp, Hc, Hu. subst rd.
    assert (Hwd : waiting (jc_JobID p) c sd) by (unfold waiting; rewrite Hp, Hc; exact Hwc).
    pose proof (finish_answers (jc_JobID p) c (ResultResponse resp) sd Hwd) as H. cbv zeta.
    match goal with |- match ?e with (_, _) => _ end => destruct e end. destruct H as (-> & Hans & ->). by split.
  - pose proof (finish_answers (jc_JobID p) c (ResultResponse resp) sc Hwc) as H. cbv zeta.
    match goal with |- match ?e with (_, _) => _ end => destruct e end. destruct H as (-> & Hans & ->). by split.
Qed.

(** ** Expired duplicates *)

Definition failed_job (t : Z) (j : JobRow) : JobRow := job_state JFailed t j <| j_completed_at := Some t |>.

Lemma FailJob_jobs j a c tr t db u db' :
  FailJob j a c tr t db = (Ok u, db') →
  db_jobs db' = update_where (λ k _, String.eqb k j && true) (failed_job t) (db_jobs db).
Proof.
  unfold FailJob, update_job, update_attempt, updateFailureReputation. intros [H _]%transaction_ok.
  destruct (negb (String.eqb a "")); run_inv; [|done].
  match goal with H : updateAttemptReputation _ _ _ _ _ = _ |- _ =>
    apply updateAttemptReputation_ok in H as [_ ->] end.
  unfold nodeIDForAttempt in *. run_inv. done.
Qed.

(** A lease that runs out when its job has no run context any more (the offer was a
    duplicate verification and the request has been answered) fails the job whatever its
    state: a job that succeeded and was billed is reported as failed from then on. *)
Theorem late_expiry_fails_job a t s :
  sv_runs s !! ea_JobID a = None →
  match handleExpiredAttempt cfg a lease_error t s with
  | (Ok _, s') =>
      db_jobs (sv_db s') = update_where (λ k _, String.eqb k (ea_JobID a) && true) (failed_job t) (db_jobs (sv_db s))
  | (Err _, s') => ∃ ent, sv_db s' = sv_db s <| db_entropy := ent |>
  end.
Proof.
  intros Hr. unfold handleExpiredAttempt, mbind, St_bind, clearActive, modify. cbn -[FailJob].
  unfold prepareRetry. cbn -[FailJob]. rewrite Hr. cbn -[FailJob]. unfold on_store. cbn -[FailJob].
  destruct (FailJob _ _ _ _ _ _) as [[u|e] db'] eqn:E; cbn -[FailJob].
  - unfold notify. cbn -[FailJob]. destruct (sv_pending s !! ea_JobID a); exact (FailJob_jobs _ _ _ _ _ _ _ _ E).
  - exact (transaction_err _ _ _ _ E).
Qed.
End service_theory.
