(* ===== verification/ServiceExamples.v ===== *)
(** * A worked service

    The marketplace of [JobExamples] behind the job service: one session attached, one
    request waiting, taken through the theorems of [ServiceTheory]. *)
From stdpp Require Import base gmap strings list.
From Stdlib Require Import ZArith Lia.
From S2P Require Import Prelude GoStrings Encoding NodeState Scheduler Protocol Agent NodeAuth Requests Database Ledger LedgerExamples JobStore StoreRuns JobExamples JobService ServiceTheory.

Definition svc_cfg : Config := {|
  cf_Weights := DefaultSchedulerWeights; cf_StaleAfter := 45 * second; cf_LeaseTTL := 10 * second;
  cf_SyncTimeout := minute; cf_CreditHold := hour |}.

(** A verifier that knows one signature, and a constant body. *)
Definition svc_Verify (_ _ sig : list Z) : bool := bool_decide (sig = [1; 2; 3]).
Definition svc_Marshal (_ : JobCompletedPayload) : result (list Z) := Ok [].

Definition svc_db : DB :=
  market_db <| db_node_keys := {[ "nk_a" := {| nk_node_id := "node_a"; nk_active := true; nk_created_at := 0;
                                               nk_public_key := EncodeToString Std (replicate 32 7) |} ]} |>.
Definition svc_model : ModelInfo := sample_model <| mi_ID := "llama" |>.
Definition svc_request : ChatRequest := admitted_request sample_chat svc_model.

Definition signed (p : JobCompletedPayload) : JobCompletedPayload :=
  p <| jc_Signature := Some {| ns_Algorithm := "ed25519"; ns_KeyID := "nk_a";
                               ns_Value := EncodeToString Std [1; 2; 3]; ns_SignedAt := 0 |} |>.
Definition svc_payload : JobCompletedPayload :=
  signed (sample_payload "job_1" "att_1") <| jc_Usage := {| PromptTokens := 3; CompletionTokens := 2; TotalTokens := 5 |} |>.

Definition svc_attach : list ServiceEvent := [SvAttach "node_c" "sess_c"].
Definition svc_completion : list ServiceEvent := [SvMessage "node_a" (MsgJobCompleted svc_payload)].
Definition svc_start : Service := service_run svc_Verify svc_Marshal svc_cfg svc_attach (new_service svc_db (2 * second) []).
Definition svc_submitted : Service :=
  (Schedule_ svc_cfg "job_1" svc_model svc_request hour (RegisterWait "job_1" svc_start).2).2.

Lemma svc_completion_leaves : Forall (leaves_waiting "job_1") svc_completion.
Proof. by repeat constructor. Qed.

(** The waiting request, before and after the completion arrives. *)
Lemma waiter_answered_once_witness :
  sv_chans svc_submitted !! 0%nat = Some [] ∧
  ∃ result, sv_chans (service_run svc_Verify svc_Marshal svc_cfg svc_completion svc_submitted) !! 0%nat = Some [result].
Proof.
  split; [vm_compute; reflexivity|].
  destruct (waiter_answered_once svc_Verify svc_Marshal svc_cfg svc_attach svc_completion svc_db (2 * second) []
              "job_1" svc_model svc_request hour svc_completion_leaves) as [(Hp & _)|[_ Hr]]; [|exact Hr].
  assert (Hn : sv_pending (service_run svc_Verify svc_Marshal svc_cfg svc_completion svc_submitted) !! "job_1" = None)
    by (vm_compute; reflexivity).
  change (sv_pending (service_run svc_Verify svc_Marshal svc_cfg svc_completion svc_submitted) !! "job_1"
          = Some (sv_nextChan svc_start)) in Hp. rewrite Hn in Hp. discriminate Hp.
Defined.

(** A submission with one attached node. *)
Definition svc_retries : list ServiceEvent :=
  svc_attach ++ [SvSchedule "job_1" svc_model svc_request hour].

Lemma retry_bound_witness :
  let s := service_run svc_Verify svc_Marshal svc_cfg svc_retries (new_service svc_db (2 * second) []) in
  offers_for "job_1" s = 1 ∧ offers_for "job_1" s ≤ 3 ∧
  ∃ run, sv_runs s !! "job_1" = Some run ∧ run_attempts run = 1 ∧ run_attempts run ≤ 3.
Proof.
  destruct (retry_bound svc_Verify svc_Marshal svc_cfg svc_retries svc_db (2 * second) [] "job_1") as [Ho Hr].
  cbv zeta. assert (H1 : offers_for "job_1" (service_run svc_Verify svc_Marshal svc_cfg svc_retries
    (new_service svc_db (2 * second) [])) = 1) by (vm_compute; reflexivity).
  assert (H3 : 3 * submissions "job_1" svc_retries = 3) by (vm_compute; reflexivity). rewrite H3 in Ho.
  split; [exact H1|]. split; [exact Ho|]. set (runs := sv_runs _) in *.
  assert (Ha : run_attempts <$> runs !! "job_1" = Some 1) by (vm_compute; reflexivity).
  destruct (runs !! "job_1") as [run|] eqn:E; [|discriminate Ha]. exists run.
  split; [reflexivity|]. split; [by apply (inj Some)|exact (Hr run eq_refl)].
Defined.

(** The completion is accepted: the request gets the stored response. *)
Lemma completion_message_spec_witness :
  ∃ resp, answered "job_1" 0 (ResultResponse resp)
            (HandleNodeMessage svc_Verify svc_Marshal svc_cfg "node_a" (MsgJobCompleted svc_payload) svc_submitted).2.
Proof.
  pose proof (completion_message_spec svc_Verify svc_Marshal svc_cfg "node_a" svc_payload 0 svc_submitted) as H.
  assert (Hd : sv_duplicates svc_submitted !! jc_AttemptID svc_payload = None) by (vm_compute; reflexivity).
  assert (Hw : waiting (jc_JobID svc_payload) 0 svc_submitted) by (split; vm_compute; reflexivity).
  assert (Hv : is_ok (verifyCompletion svc_Verify svc_Marshal "node_a" svc_payload svc_submitted).1 = true)
    by (vm_compute; reflexivity).
  assert (Hi : (completion_issues svc_submitted svc_payload).2 = None) by (vm_compute; reflexivity).
  assert (Hc : is_ok (CompleteJob svc_payload (sv_now svc_submitted) (cf_CreditHold svc_cfg)
                 (meteringStatus (completion_issues svc_submitted svc_payload).1)
                 (metered_db svc_submitted svc_payload)).1 = true) by (vm_compute; reflexivity).
  specialize (H Hd Hw).
  destruct (HandleNodeMessage svc_Verify svc_Marshal svc_cfg "node_a" (MsgJobCompleted svc_payload) svc_submitted).
  destruct H as [_ H]. rewrite Hi in H.
  destruct (verifyCompletion svc_Verify svc_Marshal "node_a" svc_payload svc_submitted) as [[u|e] s1]; [|discriminate Hv].
  destruct (CompleteJob svc_payload _ _ _ _) as [[resp|e] db]; [|discriminate Hc].
  exists resp. apply H.
Defined.

(** A succeeded job with a duplicate on offer whose lease runs out. *)
Definition duplicated_db : DB :=
  run_ops [OpCompleteJob svc_payload (2 * second) hour MsAccepted;
           OpCreateVerificationAttempt "job_1" "node_c" (12 * second) minute] svc_db.
Definition expired_duplicates : list ExpiredAttempt :=
  match (ExpireLeases minute duplicated_db).1 with Ok l => l | Err _ => [] end.
Definition expired_duplicate : ExpiredAttempt :=
  default {| ea_JobID := ""; ea_AttemptID := ""; ea_NodeID := "" |} (last expired_duplicates).
Definition late_service : Service := new_service (ExpireLeases minute duplicated_db).2 minute [].

Lemma late_expiry_fails_job_witness :
  j_state <$> db_jobs (sv_db late_service) !! "job_1" = Some JSucceeded ∧
  j_state <$> db_jobs (sv_db (handleExpiredAttempt svc_cfg expired_duplicate lease_error minute late_service).2)
    !! "job_1" = Some JFailed.
Proof.
  split; [vm_compute; reflexivity|].
  pose proof (late_expiry_fails_job svc_cfg expired_duplicate minute late_service) as H.
  assert (Hok : is_ok (handleExpiredAttempt svc_cfg expired_duplicate lease_error minute late_service).1 = true)
    by (vm_compute; reflexivity).
  assert (Hr : sv_runs late_service !! ea_JobID expired_duplicate = None) by (vm_compute; reflexivity).
  specialize (H Hr).
  destruct (handleExpiredAttempt svc_cfg expired_duplicate lease_error minute late_service) as [[u|e] s'];
    [|discriminate Hok].
  change ((Ok u, s').2) with s'. rewrite H. vm_compute. reflexivity.
Defined.
