(* ===== verification/RegistrationTheory.v ===== *)
(** * Theorems on registration, tokens and sessions

    Invites and bootstrap tokens are usable once, whatever the coordinator does in
    between; a registration stores what the node sent; a heartbeat makes a free node
    eligible; the sweeper ends exactly the stale sessions. *)
From stdpp Require Import base gmap strings list.
From Stdlib Require Import ZArith Lia.
From S2P Require Import Prelude GoStrings Sha256 NodeState Scheduler Protocol Requests Database Registration Ledger LedgerTheory JobStore OperatorStore StoreRuns JobTheory.

(** ** Unique text columns *)

(** A query that one row satisfies. *)
Lemma rows_unique {V} (q : string → V → bool) (T : gmap string V) k v :
  T !! k = Some v → q k v = true → (∀ k' v', T !! k' = Some v' → q k' v' = true → k' = k) →
  rows_where q T = [(k, v)].
Proof.
  intros Hk Hq Hu. pose proof (rows_where_NoDup q T) as Hnd.
  assert (Hin : (k, v) ∈ rows_where q T) by (by apply elem_of_rows_where).
  assert (Hall : ∀ kv, kv ∈ rows_where q T → kv = (k, v)).
  { intros [k' v'] [H1 H2]%elem_of_rows_where. assert (k' = k) as -> by eauto. congruence. }
  destruct (rows_where q T) as [|x [|y l]]; [set_solver|by rewrite (Hall x) by set_solver|].
  rewrite (Hall x), (Hall y) in Hnd by set_solver. rewrite !fmap_cons, NoDup_cons in Hnd. set_solver.
Qed.

Section column.
Context {V : Type} (col : V → string).
Implicit Types (T : gmap string V).

Definition unique_col T : Prop :=
  ∀ k1 k2 v1 v2, T !! k1 = Some v1 → T !! k2 = Some v2 → col v1 = col v2 → k1 = k2.

(** Every row with the text [h] is [used], and there is one. *)
Definition spent (used : V → Prop) (h : string) T : Prop :=
  (∃ k v, T !! k = Some v ∧ col v = h) ∧ ∀ k v, T !! k = Some v → col v = h → used v.

Definition free_col T (h : string) : bool := negb (exists_row (λ _ v, String.eqb (col v) h) T).

Lemma free_col_true T h k v : free_col T h = true → T !! k = Some v → col v ≠ h.
Proof.
  unfold free_col. rewrite negb_true_iff, exists_row_false. intros H Hk Hh.
  specialize (H k v Hk). simpl in H. by rewrite Hh, String.eqb_refl in H.
Qed.

Lemma unique_insert T k v : free_col T (col v) = true → unique_col T → unique_col (<[k := v]> T).
Proof.
  intros Hf Hu k1 k2 v1 v2. rewrite !lookup_insert_Some.
  intros [[<- <-]|[Hn1 H1]] [[<- <-]|[Hn2 H2]] E; [done| | |by eauto].
  - by destruct (free_col_true _ _ _ _ Hf H2).
  - by destruct (free_col_true _ _ _ _ Hf H1).
Qed.

Lemma unique_update q f T : (∀ v, col (f v) = col v) → unique_col T → unique_col (update_where q f T).
Proof.
  intros Hf Hu k1 k2 v1 v2. rewrite !lookup_update_where.
  intros (w1 & H1 & ->)%fmap_Some (w2 & H2 & ->)%fmap_Some E. eapply Hu; [done..|].
  assert (Hc : ∀ k w, col (if q k w then f w else w) = col w) by (intros k w; destruct (q k w); [apply Hf|done]).
  by rewrite !Hc in E.
Qed.

Lemma spent_insert used h T k v :
  T !! k = None → free_col T (col v) = true → spent used h T → spent used h (<[k := v]> T).
Proof.
  intros Hn Hf [(k0 & v0 & Hk0 & Hh) Hall]. split.
  - exists k0, v0. rewrite lookup_insert_ne by congruence. done.
  - intros k' v'. rewrite lookup_insert_Some. intros [[<- <-]|[_ H]] E; [|by eauto].
    destruct (free_col_true _ _ _ _ Hf Hk0). congruence.
Qed.

Lemma spent_update used h q f T :
  (∀ v, col (f v) = col v) → (∀ k v, T !! k = Some v → q k v = true → ¬ used v) →
  spent used h T → spent used h (update_where q f T).
Proof.
  intros Hf Hq [(k0 & v0 & Hk0 & Hh) Hall].
  assert (Hkeep : ∀ k v, T !! k = Some v → col v = h → q k v = false).
  { intros k v Hk Hc. apply not_true_iff_false. intros Hq'. destruct (Hq k v Hk Hq'). by eauto. }
  split.
  - exists k0, v0. rewrite lookup_update_where, Hk0. simpl. by rewrite (Hkeep _ _ Hk0 Hh).
  - intros k v. rewrite lookup_update_where. intros (w & Hw & ->)%fmap_Some E.
    assert (Hc : col w = h) by (destruct (q k w); [by rewrite Hf in E|done]).
    rewrite (Hkeep _ _ Hw Hc). by eauto.
Qed.

(** The row that became used, when it is the only one of its text. *)
Lemma spent_now (used : V → Prop) q f T k v :
  (∀ k' v', T !! k' = Some v' → col v' = col v → k' = k) → T !! k = Some v → q k v = true →
  (∀ v, col (f v) = col v) → used (f v) → spent used (col v) (update_where q f T).
Proof.
  intros Hu Hk Hq Hf Hused. split.
  - exists k, (f v). rewrite lookup_update_where, Hk. simpl. rewrite Hq. auto.
  - intros k' v'. rewrite lookup_update_where. intros (w & Hw & ->)%fmap_Some E.
    assert (Hc : col w = col v) by (destruct (q k' w); [by rewrite Hf in E|done]).
    assert (k' = k) as -> by eauto. assert (w = v) as -> by congruence. by rewrite Hq.
Qed.

End column.

(** ** Properties of the token tables *)

Definition same_tokens (db db' : DB) : Prop :=
  db_invite_tokens db' = db_invite_tokens db ∧ db_bootstrap_tokens db' = db_bootstrap_tokens db.

(** A property of the two token tables that survives the statements that write them: a
    new token, the end of an active invite, the use of an unused bootstrap token. *)
Class TokenProp (P : DB → Prop) := {
  tp_same db db' : same_tokens db db' → P db → P db';
  tp_insert_invite db k row :
    db_invite_tokens db !! k = None → free_col iv_token_hash (db_invite_tokens db) (iv_token_hash row) = true →
    P db → P (db <| db_invite_tokens ::= <[k := row]> |>);
  tp_update_invite db k i f :
    db_invite_tokens db !! k = Some i → iv_status i = InvActive → (∀ i, iv_token_hash (f i) = iv_token_hash i) →
    P db → P (db <| db_invite_tokens ::= update_where (λ k' _, String.eqb k' k) f |>);
  tp_insert_bootstrap db k row :
    db_bootstrap_tokens db !! k = None → free_col bt_token_hash (db_bootstrap_tokens db) (bt_token_hash row) = true →
    P db → P (db <| db_bootstrap_tokens ::= <[k := row]> |>);
  tp_use_bootstrap db k b t :
    db_bootstrap_tokens db !! k = Some b → bt_used_at b = None →
    P db → P (db <| db_bootstrap_tokens ::= update_where (λ k' _, String.eqb k' k) (λ b, b <| bt_used_at := Some t |>) |>)
}.

(** From [Q], whether it succeeds or not, [m] ends in [P]. *)
Definition leads {S A} (Q P : S → Prop) (m : St S A) : Prop := ∀ s, Q s → P (m s).2.

Lemma leads_bind {S A B} (Q P : S → Prop) (m : St S A) (f : A → St S B) :
  (∀ s, Q s → P s) → preserves Q m → (∀ a, leads Q P (f a)) → leads Q P (m ≫= f).
Proof.
  intros HQP Hm Hf s Hs. specialize (Hm s Hs). unfold mbind, St_bind.
  destruct (m s) as [[a|e] s1]; simpl in *; [by apply Hf|by apply HQP].
Qed.

Section token_prop.
Context (P : DB → Prop) `{!TokenProp P}.

#[export] Instance token_table_prop : TableProp P.
Proof. intros db ent. split; intros H; (eapply tp_same; [|exact H]; done). Qed.
#[export] Instance token_ledger_free : LedgerFree P.
Proof. split; [apply _|..]; intros db f H; (eapply tp_same; [|exact H]; done). Qed.

(** Statements that write another table. *)
Ltac other := apply preserves_modify; intros ? ?; by (eapply tp_same; [|eassumption]; done).
Ltac tk := repeat first [apply preserves_transaction; [apply _|] | progress solve_inv | other].

Lemma tk_random prefix : preserves P (randomToken prefix).
Proof. intros db Hdb. unfold randomToken. destruct (db_entropy db); [done|]. by apply (table_prop db). Qed.
Lemma tk_insert_invite k row : preserves P (insert_invite k row).
Proof.
  intros db Hdb. unfold insert_invite, constraint, guard_err, gets, fail, mbind, St_bind, id. simpl.
  destruct (fresh_key _ k) eqn:E; simpl; [|done]. destruct (has_key _ _); simpl; [|done].
  destruct (negb _) eqn:Ef; simpl; [|done]. apply tp_insert_invite; [by apply fresh_key_true|done|done].
Qed.
Lemma tk_insert_bootstrap k row : preserves P (insert_bootstrap k row).
Proof.
  intros db Hdb. unfold insert_bootstrap, constraint, guard_err, gets, fail, mbind, St_bind, id. simpl.
  destruct (fresh_key _ k) eqn:E; simpl; [|done].
  destruct (negb _) eqn:Ef; simpl; [|done]. apply tp_insert_bootstrap; [by apply fresh_key_true|done|done].
Qed.
Hint Resolve tk_random tk_insert_invite tk_insert_bootstrap lf_postAcceptedJob : inv.

Lemma tk_CreateInvite c f t : preserves P (CreateInvite c f t).
Proof. unfold CreateInvite, pg_CreateInvite, ensureFleet, insert_organization, insert_fleet. tk. Qed.
Lemma tk_ConsumeBootstrap n k t : preserves P (ConsumeBootstrap n k t).
Proof.
  unfold ConsumeBootstrap. solve_inv. apply preserves_transaction; [apply _|]. intros db Hdb.
  unfold select_one, of_option, mbind, St_bind, gets, id. simpl.
  destruct (head _) as [[k0 b]|] eqn:E; simpl; [|done]. unfold guard_err.
  destruct (bool_decide _) eqn:Eu; simpl; [|done]. destruct (_ <? _); simpl; [|done].
  apply head_Some_elem_of, elem_of_rows_where in E as [Hk _]. apply bool_decide_eq_true in Eu.
  by eapply tp_use_bootstrap.
Qed.

(** The statements of a registration leave the invite it selected alone until the last one. *)
Lemma tk_register r : preserves P (register_tx r).
Proof.
  intros db Hdb. unfold register_tx, select_one. rewrite bind_gets, bind_option. unfold id.
  destruct (head _) as [[k i]|] eqn:E; [|done]. apply head_Some_elem_of, elem_of_rows_where in E as [Hk _].
  rewrite !bind_guard. destruct (negb _); [|done].
  destruct (bool_decide _) eqn:Ea; [|done]. apply bool_decide_eq_true in Ea.
  set (Q d := P d ∧ db_invite_tokens d !! k = Some i).
  assert (HQP : ∀ d, Q d → P d) by (by intros d []).
  assert (Hend : ∀ f d, (∀ i, iv_token_hash (f i) = iv_token_hash i) → Q d →
    P (d <| db_invite_tokens ::= update_where (λ k' _, String.eqb k' k) f |>)).
  { intros f d Hf [Hp Hi]. by eapply tp_update_invite. }
  assert (Hother : ∀ f : DB → DB, (∀ d, same_tokens d (f d)) → preserves Q (modify f)).
  { intros f Hf. apply preserves_modify. intros d [Hp Hi]. destruct (Hf d) as [H1 H2].
    split; [by eapply tp_same|by rewrite H1]. }
  assert (Hboot : ∀ k row, preserves Q (insert_bootstrap k row)).
  { intros k' row d [Hp Hi]. split; [by apply tk_insert_bootstrap|].
    refine ((_ : preserves (λ d, db_invite_tokens d !! k = Some i) _) d Hi). unfold insert_bootstrap. solve_inv. }
  destruct (negb _); [by apply Hend|].
  refine ((_ : leads Q P _) db (conj Hdb Hk)).
  apply leads_bind; [done|solve_inv|intros _]. apply leads_bind; [done|solve_inv|intros fleet].
  apply leads_bind; [done|unfold insert_node; solve_inv; by apply Hother|intros _].
  apply leads_bind; [done|unfold insert_node_key; solve_inv; by apply Hother|intros _].
  apply leads_bind; [done|solve_inv|intros _].
  intros d Hd. by apply Hend.
Qed.
Hint Resolve tk_register : inv.

Lemma tk_RegisterNode c r t : preserves P (RegisterNode c r t).
Proof. unfold RegisterNode, pg_RegisterNode. tk. Qed.

Lemma token_store_inv : StoreInv P.
Proof.
  split; [split; [apply _|..]|]; try solve [intros db f H; eapply tp_same; [|exact H]; done | intros db f _ H; eapply tp_same; [|exact H]; done];
    try solve [intros; first [apply lf_PostVerificationOverhead|apply lf_PromoteAvailableCredits
      |apply lf_CreatePayoutBatch|apply lf_ExportPayoutBatch|apply lf_ConfirmPayoutBatch]; apply _].
  - intros. unfold insert_attempt. tk.
  - intros. unfold update_attempt. tk.
  - intros. unfold updateAttemptReputation, ensure_reputation, set_reputation. tk.
  - intros. unfold updateDuplicateReputation, ensure_reputation, set_reputation. tk.
  - intros. unfold updateChallengeReputation, ensure_reputation, set_reputation, quarantine_node. tk.
  - intros. unfold CompleteJob, complete_tx, select_attempt, completable, insert_result, mark_succeeded, updateAcceptedReputation, nodeIDForAttempt,
      updateAttemptReputation, ensure_reputation, set_reputation, update_job, update_attempt. tk.
  - apply tk_CreateInvite.
  - apply tk_RegisterNode.
  - apply tk_ConsumeBootstrap.
  - intros. unfold OpenSession. tk.
  - intros. unfold RecordHeartbeat, insert_heartbeat, report_state, update_nodes, update_sessions. tk.
  - intros. unfold RecordStateChanged, report_state, update_nodes. tk.
  - intros. unfold RecordSafetyEvent. tk.
  - intros. unfold CloseSession, update_nodes, update_sessions. tk.
  - intros. unfold RunOnce, MarkStale, update_nodes, update_sessions. tk.
  - intros. unfold recordOperatorActionTx. tk.
  - intros. unfold upsert_signup. tk.
  - intros. unfold insert_fleet. tk.
  - intros. unfold update_nodes. tk.
  - intros. unfold update_sessions. tk.
  - intros. unfold quarantine_node. tk.
  - intros. unfold quarantine_reputation. tk.
Qed.
End token_prop.

(** ** Tokens are used once *)

(** The two unique constraints of the schema. *)
Definition unique_tokens (db : DB) : Prop :=
  unique_col iv_token_hash (db_invite_tokens db) ∧ unique_col bt_token_hash (db_bootstrap_tokens db).

#[export] Instance unique_tokens_prop : TokenProp unique_tokens.
Proof.
  split.
  - intros db db' [H1 H2]. unfold unique_tokens. by rewrite H1, H2.
  - intros db k row _ Hf [H1 H2]. split; [by apply unique_insert|done].
  - intros db k i f _ _ Hf [H1 H2]. split; [by apply unique_update|done].
  - intros db k row _ Hf [H1 H2]. split; [done|by apply unique_insert].
  - intros db k b t _ _ [H1 H2]. split; [done|by apply unique_update].
Qed.
#[export] Instance unique_tokens_inv : StoreInv unique_tokens := token_store_inv _.

Definition invite_spent (h : string) (db : DB) : Prop :=
  spent iv_token_hash (λ i, iv_status i = InvUsed) h (db_invite_tokens db).
#[export] Instance invite_spent_prop h : TokenProp (invite_spent h).
Proof.
  split.
  - intros db db' [H _]. unfold invite_spent. by rewrite H.
  - intros db k row Hk Hf. by apply spent_insert.
  - intros db k i f Hk Ha Hf. apply spent_update; [done|].
    intros k' v Hk' ->%String.eqb_eq. congruence.
  - done.
  - done.
Qed.
#[export] Instance invite_spent_inv h : StoreInv (invite_spent h) := token_store_inv _.

Definition bootstrap_spent (n h : string) (db : DB) : Prop :=
  spent bt_token_hash (λ b, bt_node_id b = n ∧ bt_used_at b ≠ None) h (db_bootstrap_tokens db).
#[export] Instance bootstrap_spent_prop n h : TokenProp (bootstrap_spent n h).
Proof.
  split.
  - intros db db' [_ H]. unfold bootstrap_spent. by rewrite H.
  - done.
  - done.
  - intros db k row Hk Hf. by apply spent_insert.
  - intros db k b t Hk Hn. apply spent_update; [done|].
    intros k' v Hk' ->%String.eqb_eq. simplify_eq. naive_solver.
Qed.
#[export] Instance bootstrap_spent_inv n h : StoreInv (bootstrap_spent n h) := token_store_inv _.

(** Everything a successful registration did. *)
Record registered (cfg : RegistrationConfig) (req : RegisterRequest) (now : Z) (db : DB) (res : RegisterResult)
    (db' : DB) (ent : list string) (k : string) (i : InviteRow) (fleet : FleetRow) (r : NodeRegistration) : Prop := {
  rg_invite : db_invite_tokens db !! k = Some i;
  rg_hash : iv_token_hash i = HashToken (rq_InviteToken req);
  rg_active : iv_status i = InvActive;
  rg_unexpired : now < iv_expires_at i;
  rg_fleet : db_fleets db !! iv_fleet_id i = Some fleet;
  rg_node_fresh : db_nodes db !! nr_NodeID r = None;
  rg_key_fresh : db_node_keys db !! nr_KeyID r = None;
  rg_boot_fresh : db_bootstrap_tokens db !! nr_BootstrapTokenID r = None;
  rg_boot_free : free_col bt_token_hash (db_bootstrap_tokens db) (nr_BootstrapTokenHash r) = true;
  rg_node : nr_NodeID r = rgr_NodeID res ∧ rgr_NodeID res ≠ "" ∧ rgr_BootstrapToken res ≠ "";
  rg_public : nr_PublicKey r = rq_PublicKey req;
  rg_boot : nr_BootstrapTokenHash r = HashToken (rgr_BootstrapToken res);
  rg_expiry : nr_BootstrapTokenExpiresAt r = rgr_BootstrapTokenExpiresAt res ∧
              rgr_BootstrapTokenExpiresAt res = now + default_pos (rgc_BootstrapTTL cfg) (10 * minute);
  rg_schedule : rgr_FleetSchedule res = fleet_schedule fleet;
  rg_balanced : posted_balanced db';
  rg_db : db' = db <| db_entropy := ent |>
    <| db_nodes ::= <[nr_NodeID r := registered_node r (iv_fleet_id i) fleet]> |>
    <| db_node_keys ::= <[nr_KeyID r := {| nk_node_id := nr_NodeID r; nk_public_key := rq_PublicKey req;
                                           nk_active := true; nk_created_at := now |}]> |>
    <| db_bootstrap_tokens ::= <[nr_BootstrapTokenID r := {| bt_node_id := nr_NodeID r;
         bt_token_hash := nr_BootstrapTokenHash r; bt_expires_at := nr_BootstrapTokenExpiresAt r;
         bt_used_at := None; bt_created_at := now |}]> |>
    <| db_invite_tokens ::= update_where (λ k' _, String.eqb k' k) (used_invite now (nr_NodeID r)) |>
}.

Lemma randomToken_ok p db t db' :
  randomToken p db = (Ok t, db') → ∃ b rest, t = p +:+ "_" +:+ b ∧ db' = db <| db_entropy := rest |>.
Proof. unfold randomToken. destruct (db_entropy db) as [|b rest]; [done|]. intros [= <- <-]. by exists b, rest. Qed.

Lemma register_tx_ok r db c db' :
  register_tx r db = (Ok c, db') →
  ∃ k i fleet, db_invite_tokens db !! k = Some i ∧ iv_token_hash i = nr_InviteTokenHash r ∧ iv_status i = InvActive ∧
    nr_Now r < iv_expires_at i ∧ db_fleets db !! iv_fleet_id i = Some fleet ∧
    db_nodes db !! nr_NodeID r = None ∧ db_node_keys db !! nr_KeyID r = None ∧
    db_bootstrap_tokens db !! nr_BootstrapTokenID r = None ∧
    free_col bt_token_hash (db_bootstrap_tokens db) (nr_BootstrapTokenHash r) = true ∧
    c = {| rc_NodeID := nr_NodeID r; rc_BootstrapTokenExpiresAt := nr_BootstrapTokenExpiresAt r;
           rc_FleetSchedule := fleet_schedule fleet |} ∧
    db' = db
      <| db_nodes ::= <[nr_NodeID r := registered_node r (iv_fleet_id i) fleet]> |>
      <| db_node_keys ::= <[nr_KeyID r := {| nk_node_id := nr_NodeID r; nk_public_key := nr_PublicKey r;
                                             nk_active := true; nk_created_at := nr_Now r |}]> |>
      <| db_bootstrap_tokens ::= <[nr_BootstrapTokenID r := {| bt_node_id := nr_NodeID r;
           bt_token_hash := nr_BootstrapTokenHash r; bt_expires_at := nr_BootstrapTokenExpiresAt r;
           bt_used_at := None; bt_created_at := nr_Now r |}]> |>
      <| db_invite_tokens ::= update_where (λ k' _, String.eqb k' k) (used_invite (nr_Now r) (nr_NodeID r)) |>.
Proof.
  unfold register_tx, select_one. rewrite bind_gets, bind_option. unfold id.
  destruct (head _) as [[k i]|] eqn:E; [|done]. apply head_Some_elem_of, elem_of_rows_where in E as [Hk Hh].
  rewrite !bind_guard. destruct (negb _); [|done].
  destruct (bool_decide _) eqn:Ea; [|done]. apply bool_decide_eq_true in Ea.
  destruct (negb _) eqn:Ex; [done|]. apply negb_false_iff, Z.ltb_lt in Ex.
  unfold insert_node, insert_node_key, insert_bootstrap, update_invites. intros H. run_inv.
  repeat match goal with H : constraint _ _ _ = _ |- _ => apply constraint_ok in H as [? ->] end. run_inv.
  rewrite ?fresh_key_true in *. apply String.eqb_eq in Hh. exists k, i. eexists. split_and!; done.
Qed.

Lemma RegisterNode_ok cfg req now db res db' :
  RegisterNode cfg req now db = (Ok res, db') →
  ∃ ent k i fleet r, registered cfg req now db res db' ent k i fleet r.
Proof.
  unfold RegisterNode. intros H. run_inv.
  repeat match goal with
  | H : guard_err _ _ _ = _ |- _ => apply guard_ok in H as [? ->]
  | H : ids_New _ _ = _ |- _ => apply ids_New_ok in H as (? & ? & _ & -> & ->)
  | H : randomToken _ _ = _ |- _ => apply randomToken_ok in H as (? & ? & -> & ->)
  end.
  match goal with H : pg_RegisterNode ?r _ = _ |- _ =>
    apply transaction_ok in H as [(k & i & fleet & ? & ? & ? & ? & ? & ? & ? & ? & ? & -> & ->)%register_tx_ok ?];
    eexists _, k, i, fleet, r end.
  split; simpl in *; try done.
Qed.

(** An operation that fails before its transaction, or in it, changes no table. *)
Lemma RegisterNode_err cfg req now db e db' :
  RegisterNode cfg req now db = (Err e, db') → ∃ ent, db' = db <| db_entropy := ent |>.
Proof.
  unfold RegisterNode. rewrite !bind_guard.
  assert (Hdone : ∀ d : DB, ∃ ent, d = d <| db_entropy := ent |>) by (intros d; exists (db_entropy d); by destruct d).
  destruct (negb _); [|intros [= _ <-]; apply Hdone]. destruct (negb _); [|intros [= _ <-]; apply Hdone].
  destruct (negb _); [|intros [= _ <-]; apply Hdone].
  unfold mbind, St_bind, ids_New, randomToken, mret, St_ret.
  destruct (db_entropy db) as [|b1 [|b2 [|b3 [|b4 rest]]]]; simpl;
    try (intros [= _ <-]; first [apply Hdone | eexists; reflexivity]).
  match goal with |- context [pg_RegisterNode ?r ?d] => destruct (pg_RegisterNode r d) as [[c|e'] d'] eqn:E end;
    [done|]. intros [= _ <-]. apply transaction_err in E as [ent ->]. by exists ent.
Qed.

Lemma spent_rows h db :
  invite_spent h db → ∃ k i, head (rows_where (invite_with h) (db_invite_tokens db)) = Some (k, i) ∧ iv_status i = InvUsed.
Proof.
  intros [(k0 & i0 & Hk0 & Hh0) Hall].
  assert (Hin : (k0, i0) ∈ rows_where (invite_with h) (db_invite_tokens db)).
  { apply elem_of_rows_where. split; [done|]. by apply String.eqb_eq. }
  destruct (rows_where (invite_with h) (db_invite_tokens db)) as [|[k i] l] eqn:E; [set_solver|].
  exists k, i. split; [done|].
  assert (Hki : (k, i) ∈ rows_where (invite_with h) (db_invite_tokens db)) by (rewrite E; set_solver).
  apply elem_of_rows_where in Hki as [Hk Hh%String.eqb_eq]. by eapply Hall.
Qed.

(** C13. An invite registers one node. Once a registration with it has succeeded, whatever
    store operations follow, another registration with the same invite is refused as
    used and changes no table. *)
Theorem invite_used_once cfg req now db res db1 ops cfg' req' now' :
  unique_tokens db → RegisterNode cfg req now db = (Ok res, db1) → rq_InviteToken req' = rq_InviteToken req →
  let db2 := run_ops ops db1 in
  (∃ e ent, RegisterNode cfg' req' now' db2 = (Err e, db2 <| db_entropy := ent |>)) ∧
  ∀ r, nr_InviteTokenHash r = HashToken (rq_InviteToken req) →
    (pg_RegisterNode r db2).1 = Err ErrInviteUsed.
Proof.
  intros [Hu _] (ent & k & i & fleet & r0 & Hr)%RegisterNode_ok Hsame db2.
  assert (Hs : invite_spent (HashToken (rq_InviteToken req)) db2).
  { apply si_run_ops; [apply _|]. rewrite (rg_db _ _ _ _ _ _ _ _ _ _ _ Hr). unfold invite_spent. simpl.
    rewrite <-(rg_hash _ _ _ _ _ _ _ _ _ _ _ Hr).
    apply spent_now with (k := k); [|apply Hr|by apply String.eqb_eq|done|done].
    intros k' v' Hk' Hh. by eapply Hu; [|apply Hr|]. }
  assert (Hpg : ∀ r, nr_InviteTokenHash r = HashToken (rq_InviteToken req) →
    ∀ ent', (pg_RegisterNode r (db2 <| db_entropy := ent' |>)).1 = Err ErrInviteUsed).
  { intros r Hh ent'. destruct (spent_rows _ _ Hs) as (k' & i' & Hhd & Hused).
    unfold pg_RegisterNode, transaction, register_tx, select_one. rewrite bind_gets, bind_option. unfold id.
    rewrite Hh. simpl. rewrite Hhd, bind_guard, Hused. done. }
  split.
  - destruct (RegisterNode cfg' req' now' db2) as [[res'|e] db3] eqn:E.
    + exfalso. apply RegisterNode_ok in E as (ent' & k' & i' & fleet' & r' & Hr').
      pose proof (rg_hash _ _ _ _ _ _ _ _ _ _ _ Hr') as Hh. rewrite Hsame in Hh.
      destruct Hs as [_ Hall]. specialize (Hall k' i' (rg_invite _ _ _ _ _ _ _ _ _ _ _ Hr') Hh).
      rewrite (rg_active _ _ _ _ _ _ _ _ _ _ _ Hr') in Hall. done.
    + destruct (RegisterNode_err _ _ _ _ _ _ E) as [ent' ->]. by exists e, ent'.
  - intros r Hh. specialize (Hpg r Hh (db_entropy db2)).
    by replace (db2 <| db_entropy := db_entropy db2 |>) with db2 in Hpg by (by destruct db2).
Qed.

(** A registration stores what it was asked to: the node exists, offline, in the invite's
    fleet and organization with the fleet's schedule, and the public key the node sent is
    the one its completions and token refreshes are verified with. *)
Theorem registration_stores_node cfg req now db res db1 :
  (∀ k key, db_node_keys db !! k = Some key → is_Some (db_nodes db !! nk_node_id key)) →
  RegisterNode cfg req now db = (Ok res, db1) →
  ∃ k i fleet r, db_invite_tokens db !! k = Some i ∧ iv_token_hash i = HashToken (rq_InviteToken req) ∧
    iv_status i = InvActive ∧ now < iv_expires_at i ∧ db_fleets db !! iv_fleet_id i = Some fleet ∧
    db_nodes db !! rgr_NodeID res = None ∧
    db_nodes db1 = <[rgr_NodeID res := registered_node r (iv_fleet_id i) fleet]> (db_nodes db) ∧
    rgr_FleetSchedule res = fleet_schedule fleet ∧
    PublicKeyForNode (rgr_NodeID res) db1 = (Ok (rq_PublicKey req), db1) ∧
    node_public_key (rgr_NodeID res) db1 = (Ok (rq_PublicKey req), db1).
Proof.
  intros Hfk (ent & k & i & fleet & r & Hr)%RegisterNode_ok. exists k, i, fleet, r.
  destruct (rg_node _ _ _ _ _ _ _ _ _ _ _ Hr) as (Hn & _ & _). rewrite <-Hn.
  assert (Hlat : latest nk_created_at (rows_where (λ _ key, String.eqb (nk_node_id key) (nr_NodeID r) && nk_active key)
    (db_node_keys db1)) = Some (nr_KeyID r, {| nk_node_id := nr_NodeID r; nk_public_key := rq_PublicKey req;
                                               nk_active := true; nk_created_at := now |})).
  { rewrite (rg_db _ _ _ _ _ _ _ _ _ _ _ Hr). simpl.
    apply latest_unique; [apply lookup_insert_eq|simpl; by rewrite String.eqb_refl|].
    intros k' key. rewrite lookup_insert_Some. intros [[<- _]|[_ Hk]]; [done|].
    intros [Hid%String.eqb_eq _]%andb_true_iff. destruct (Hfk _ _ Hk) as [? Hs].
    rewrite Hid, (rg_node_fresh _ _ _ _ _ _ _ _ _ _ _ Hr) in Hs. done. }
  unfold PublicKeyForNode, node_public_key, mbind, St_bind, gets, id. rewrite Hlat.
  split_and!; try apply Hr; [|done..]. by rewrite (rg_db _ _ _ _ _ _ _ _ _ _ _ Hr).
Qed.

Lemma bootstrap_spent_rows n h db :
  bootstrap_spent n h db →
  ∃ k b, head (rows_where (bootstrap_with n h) (db_bootstrap_tokens db)) = Some (k, b) ∧ bt_used_at b ≠ None.
Proof.
  intros [(k0 & b0 & Hk0 & Hh) Hall].
  assert (Hin : (k0, b0) ∈ rows_where (bootstrap_with n h) (db_bootstrap_tokens db)).
  { apply elem_of_rows_where. split; [done|]. unfold bootstrap_with.
    by rewrite (proj1 (Hall _ _ Hk0 Hh)), Hh, !String.eqb_refl. }
  destruct (rows_where (bootstrap_with n h) (db_bootstrap_tokens db)) as [|[k b] l] eqn:E; [set_solver|].
  exists k, b. split; [done|].
  assert (Hki : (k, b) ∈ rows_where (bootstrap_with n h) (db_bootstrap_tokens db)) by (rewrite E; set_solver).
  apply elem_of_rows_where in Hki as [Hk [_ Hh'%String.eqb_eq]%andb_true_iff]. by eapply Hall.
Qed.

(** The exchange, on a row that is the only one with its text. *)
Lemma ConsumeBootstrap_run n token t db k b :
  n ≠ "" → token ≠ "" → posted_balanced db → rows_where (bootstrap_with n (HashToken token)) (db_bootstrap_tokens db) = [(k, b)] →
  ConsumeBootstrap n token t db =
    match bt_used_at b with
    | Some _ => (Err ErrBootstrapUsed, db)
    | None => if t <? bt_expires_at b then
                (Ok tt, db <| db_bootstrap_tokens ::= update_where (λ k' _, String.eqb k' k)
                                                        (λ b, b <| bt_used_at := Some t |>) |>)
              else (Err ErrBootstrapExpired, db)
    end.
Proof.
  intros Hn Ht Hb Hrows. unfold ConsumeBootstrap. rewrite !bind_guard.
  rewrite (proj2 (String.eqb_neq _ _) Hn), (proj2 (String.eqb_neq _ _) Ht). simpl.
  unfold pg_ConsumeBootstrap, transaction, select_one. rewrite bind_gets, bind_option. unfold id.
  rewrite Hrows. cbn [head]. rewrite !bind_guard.
  destruct (bt_used_at b); [by destruct db|]. destruct (t <? bt_expires_at b); [|by destruct db].
  unfold modify. cbn -[commit_check].
  assert (Hc : is_ok (commit_check (db <| db_bootstrap_tokens ::= update_where (λ k' _, String.eqb k' k)
                                                        (λ b, b <| bt_used_at := Some t |>) |>)) = true)
    by (by apply commit_check_ok).
  simpl in Hc. destruct (commit_check _); done.
Qed.

(** The bootstrap token of a registration works until it expires, ten minutes by default,
    and once: after an exchange, whatever store operations follow, presenting it again is
    refused and changes nothing. *)
Theorem bootstrap_used_once cfg req now db res db1 t :
  RegisterNode cfg req now db = (Ok res, db1) →
  let consume := ConsumeBootstrap (rgr_NodeID res) (rgr_BootstrapToken res) in
  let expiry := now + default_pos (rgc_BootstrapTTL cfg) (10 * minute) in
  (consume t db1).1 = (if t <? expiry then Ok tt else Err ErrBootstrapExpired) ∧
  ∀ ops t', t < expiry → let db2 := run_ops ops (consume t db1).2 in
    ∃ ent, consume t' db2 = (Err ErrBootstrapUsed, db2 <| db_entropy := ent |>).
Proof.
  intros (ent & k & i & fleet & r & Hr)%RegisterNode_ok consume expiry.
  destruct (rg_node _ _ _ _ _ _ _ _ _ _ _ Hr) as (Hn & Hn0 & Ht0).
  destruct (rg_expiry _ _ _ _ _ _ _ _ _ _ _ Hr) as [He He'].
  set (row := {| bt_node_id := nr_NodeID r; bt_token_hash := nr_BootstrapTokenHash r;
                 bt_expires_at := nr_BootstrapTokenExpiresAt r; bt_used_at := None; bt_created_at := now |}).
  assert (Htbl : db_bootstrap_tokens db1 = <[nr_BootstrapTokenID r := row]> (db_bootstrap_tokens db))
    by (by rewrite (rg_db _ _ _ _ _ _ _ _ _ _ _ Hr)).
  assert (Hk : db_bootstrap_tokens db1 !! nr_BootstrapTokenID r = Some row) by (rewrite Htbl; apply lookup_insert_eq).
  assert (Honly : ∀ k' b, db_bootstrap_tokens db1 !! k' = Some b → bt_token_hash b = nr_BootstrapTokenHash r →
                    k' = nr_BootstrapTokenID r).
  { intros k' b. rewrite Htbl, lookup_insert_Some. intros [[<- _]|[_ H]] Hh; [done|].
    by destruct (free_col_true _ _ _ _ _ (rg_boot_free _ _ _ _ _ _ _ _ _ _ _ Hr) H). }
  assert (Hrun : consume t db1 = if t <? expiry then
      (Ok tt, db1 <| db_bootstrap_tokens ::= update_where (λ k' _, String.eqb k' (nr_BootstrapTokenID r))
                                               (λ b, b <| bt_used_at := Some t |>) |>)
      else (Err ErrBootstrapExpired, db1)).
  { unfold consume. rewrite (ConsumeBootstrap_run _ _ _ _ (nr_BootstrapTokenID r) row);
      [by unfold expiry; simpl; rewrite He, He'|done|done|apply Hr|].
    apply rows_unique; [done| |].
    - unfold bootstrap_with. simpl. by rewrite Hn, (rg_boot _ _ _ _ _ _ _ _ _ _ _ Hr), !String.eqb_refl.
    - intros k' b Hb [_ Hh%String.eqb_eq]%andb_true_iff. apply (Honly k' b Hb).
      by rewrite (rg_boot _ _ _ _ _ _ _ _ _ _ _ Hr). }
  split; [rewrite Hrun; by destruct (t <? expiry)|]. intros ops t' Hlt db2.
  assert (Hs : bootstrap_spent (nr_NodeID r) (nr_BootstrapTokenHash r) db2).
  { apply si_run_ops; [apply _|]. rewrite Hrun, (proj2 (Z.ltb_lt _ _) Hlt). simpl.
    apply (spent_now bt_token_hash _ _ _ _ (nr_BootstrapTokenID r) row); [|done|by apply String.eqb_eq|done|done].
    intros k' b Hb Hh. by apply (Honly k' b). }
  destruct (bootstrap_spent_rows _ _ _ Hs) as (k' & b & Hhd & Hused).
  exists (db_entropy db2). unfold consume, ConsumeBootstrap. rewrite !bind_guard.
  rewrite (proj2 (String.eqb_neq _ _) Hn0), (proj2 (String.eqb_neq _ _) Ht0). simpl.
  unfold pg_ConsumeBootstrap, transaction, select_one. rewrite bind_gets, bind_option. unfold id.
  rewrite <-Hn, <-(rg_boot _ _ _ _ _ _ _ _ _ _ _ Hr), Hhd, bind_guard.
  by rewrite bool_decide_false.
Qed.

(** ** Heartbeats *)

Lemma latest_strict {V} (col : V → Z) (p : string → V → bool) (T : gmap string V) k v :
  T !! k = Some v → p k v = true →
  (∀ k' v', T !! k' = Some v' → p k' v' = true → k' ≠ k → col v' < col v) →
  latest col (rows_where p T) = Some (k, v).
Proof.
  intros Hk Hp Hlt. assert (Hin : (k, v) ∈ rows_where p T) by (by apply elem_of_rows_where).
  destruct (latest col (rows_where p T)) as [[k' v']|] eqn:E.
  - pose proof (latest_max _ _ _ _ E Hin) as Hmax. simpl in Hmax.
    apply latest_elem, elem_of_rows_where in E as [Hk' Hp'].
    destruct (decide (k' = k)) as [->|Hne]; [congruence|]. specialize (Hlt _ _ Hk' Hp' Hne). lia.
  - exfalso. unfold latest in E. apply (elem_of_order_by (desc col)) in Hin.
    destruct (order_by (desc col) (rows_where p T)); [set_solver|done].
Qed.

Definition heartbeat_row (sid : string) (h : NodeHeartbeatPayload) (t : Z) : HeartbeatRow := {|
  hr_node_id := hb_NodeID h; hr_session_id := sid; hr_sequence := hb_Sequence h;
  hr_state := hb_State h; hr_model_id := null_text (hb_ModelID h);
  hr_runtime_hash := null_text (hb_RuntimeHash h); hr_model_hash := null_text (hb_ModelHash h);
  hr_gpu := hb_GPU h; hr_active_job_id := hb_ActiveJobID h; hr_schedule_state := hb_ScheduleState h;
  hr_thermal_state := hb_ThermalState h; hr_paused := hb_Paused h; hr_draining := hb_Draining h;
  hr_uptime_seconds := hb_UptimeSeconds h; hr_received_at := t; hr_sent_at := hb_Timestamp h |}.

Definition seen_node (h : NodeHeartbeatPayload) (t : Z) (n : NodeRow) : NodeRow :=
  n <| n_state := hb_State h |> <| n_current_model_id := null_text (hb_ModelID h) |>
    <| n_last_seen_at := Some t |> <| n_updated_at := t |>.

Lemma RecordHeartbeat_ok sid h t db u db' :
  RecordHeartbeat sid h t db = (Ok u, db') →
  ∃ hid ent, db_node_heartbeats db !! hid = None ∧ is_Some (db_nodes db !! hb_NodeID h) ∧
    is_Some (db_node_sessions db !! sid) ∧
    db' = db <| db_entropy := ent |>
      <| db_node_heartbeats ::= <[hid := heartbeat_row sid h t]> |>
      <| db_nodes ::= update_where (λ k _, String.eqb k (hb_NodeID h)) (seen_node h t) |>
      <| db_node_sessions ::= update_where (λ k _, String.eqb k sid) (λ s, s <| ss_last_heartbeat_at := Some t |>) |>.
Proof.
  unfold RecordHeartbeat, insert_heartbeat, report_state, update_nodes, update_sessions. intros H. run_inv.
  match goal with H : ids_New _ _ = _ |- _ => apply ids_New_ok in H as (b & rest & _ & -> & ->) end.
  match goal with H : transaction _ _ = _ |- _ => apply transaction_ok in H as [H _] end. run_inv.
  repeat match goal with H : constraint _ _ _ = _ |- _ => apply constraint_ok in H as [? ->] end. run_inv.
  rewrite ?fresh_key_true, ?has_key_true in *. eexists _, rest. split_and!; done.
Qed.

(** The node could take work but for what it reports: its session [sid] is its only
    connected one, earlier heartbeats are older, it is neither quarantined nor busy, and
    the hashes of [h] are those of a file of the model. *)
Record admissible (db : DB) (sid : string) (h : NodeHeartbeatPayload) (t : Z) (modelID : string) (cutoff : Z) : Prop := {
  ad_session : ∃ s, db_node_sessions db !! sid = Some s ∧ ss_node_id s = hb_NodeID h ∧ ss_state s = SsConnected;
  ad_only : ∀ k s, db_node_sessions db !! k = Some s → ss_node_id s = hb_NodeID h → ss_state s = SsConnected → k = sid;
  ad_newest : ∀ k b, db_node_heartbeats db !! k = Some b → hr_node_id b = hb_NodeID h → hr_session_id b = sid →
    hr_received_at b < t;
  ad_quarantine : ∀ n, db_nodes db !! hb_NodeID h = Some n → n_quarantined_at n = None;
  ad_idle : node_busy db (hb_NodeID h) = false;
  ad_fresh : cutoff ≤ t;
  ad_model : modelID ≠ "";
  ad_file : ∃ f, f ∈ model_files db modelID ∧ null_text (hb_ModelHash h) = Some (sha_tag (ma_sha256 (snd (snd f)))) ∧
    runtime_matches db (fst (snd f)) (null_text (hb_RuntimeHash h)) = true
}.

Definition reports_ready (h : NodeHeartbeatPayload) (modelID : string) : Prop :=
  hb_State h = "AVAILABLE" ∧ hb_ModelID h = modelID ∧ hb_ScheduleState h = "in_window" ∧
  hb_ThermalState h = "normal" ∧ hb_Paused h = false ∧ hb_Draining h = false.

Lemma null_text_Some s m : m ≠ "" → null_text s = Some m ↔ s = m.
Proof.
  intros Hm. unfold null_text. destruct (String.eqb s "") eqn:E; [apply String.eqb_eq in E|]; naive_solver.
Qed.

(** What the scheduler's query finds for a node right after its heartbeat. *)
Lemma ready_after_heartbeat sid h t db u db' m cutoff n :
  RecordHeartbeat sid h t db = (Ok u, db') → admissible db sid h t m cutoff →
  db_nodes db' !! hb_NodeID h = Some n →
  ready_node db' m cutoff (hb_NodeID h) n =
    if bool_decide (reports_ready h m) then Some (sid, heartbeat_row sid h t) else None.
Proof.
  intros (hid & ent & Hfresh & _ & _ & ->)%RecordHeartbeat_ok [(s & Hs & Hsn & Hsc) Honly Hnew Hq Hidle Hcut Hm _].
  simpl. rewrite lookup_update_where. intros (n0 & Hn0 & ->)%fmap_Some. rewrite String.eqb_refl.
  unfold ready_node, node_session, node_heartbeat. simpl.
  rewrite (latest_unique _ _ _ sid (s <| ss_last_heartbeat_at := Some t |>)).
  2: { rewrite lookup_update_where, Hs. simpl. by rewrite String.eqb_refl. }
  2: { simpl. by rewrite Hsn, Hsc, String.eqb_refl. }
  2: { intros k' v. rewrite lookup_update_where. intros (w & Hw & ->)%fmap_Some.
       rewrite andb_true_iff, String.eqb_eq, bool_decide_eq_true.
       destruct (String.eqb k' sid) eqn:E; [by apply String.eqb_eq in E|]. intros [H1 H2]. by eapply Honly. }
  simpl. rewrite (latest_strict _ _ _ hid (heartbeat_row sid h t)).
  2: by rewrite lookup_insert_eq.
  2: { simpl. by rewrite !String.eqb_refl. }
  2: { intros k' v. rewrite lookup_insert_Some. intros [[-> _]|[_ Hk]]; [done|].
       intros [H1%String.eqb_eq H2%String.eqb_eq]%andb_true_iff _. simpl. by eapply Hnew. }
  simpl. rewrite (bool_decide_true (n_quarantined_at n0 = None)) by (by apply Hq).
  replace (node_busy _ (hb_NodeID h)) with false by (symmetry; exact Hidle).
  unfold freshness. simpl. rewrite (proj2 (Z.leb_le _ _) Hcut). unfold heartbeat_ready. simpl.
  match goal with |- (if ?b then _ else _) = _ => replace b with (bool_decide (reports_ready h m)); [done|] end.
  apply eq_true_iff_eq. unfold reports_ready.
  rewrite !andb_true_iff, !bool_decide_eq_true, !String.eqb_eq, !negb_true_iff, (null_text_Some _ _ Hm). naive_solver.
Qed.

(** The coordinator schedules by what nodes report: right after the heartbeat of a node
    that could take work, the node is on the list of nodes eligible for a model exactly
    when the heartbeat says it is available with that model, inside its schedule, at
    normal temperature, neither paused nor draining. *)
Theorem heartbeat_decides_eligibility sid h t db u db' m cutoff :
  RecordHeartbeat sid h t db = (Ok u, db') → admissible db sid h t m cutoff →
  (∃ c, c ∈ eligible_nodes db' m cutoff ∧ NodeID c = hb_NodeID h ∧ SessionID c = sid) ↔ reports_ready h m.
Proof.
  intros Hrun Had. pose proof (RecordHeartbeat_ok _ _ _ _ _ _ Hrun) as (hid & ent & _ & [n0 Hn0] & _ & Hdb).
  assert (Hn : db_nodes db' !! hb_NodeID h = Some (seen_node h t n0)).
  { rewrite Hdb. simpl. rewrite lookup_update_where, Hn0. simpl. by rewrite String.eqb_refl. }
  pose proof (ready_after_heartbeat _ _ _ _ _ _ _ _ _ Hrun Had Hn) as Hready.
  unfold eligible_nodes. setoid_rewrite list_elem_of_join. split.
  - intros (c & (l & Hc & Hl) & Hid & _). apply list_elem_of_fmap in Hl as ([k n] & -> & Hk).
    apply elem_of_order_by, elem_of_map_to_list in Hk. unfold node_candidates in Hc. simpl in Hc.
    destruct (ready_node db' m cutoff k n) as [[s b]|] eqn:E; [|by apply not_elem_of_nil in Hc].
    apply list_elem_of_fmap in Hc as (v & -> & _). simpl in Hid. subst k.
    assert (n = seen_node h t n0) as -> by congruence. rewrite Hready in E. by case_bool_decide.
  - intros Hrep. rewrite bool_decide_true in Hready by done.
    destruct (ad_file _ _ _ _ _ _ Had) as (f & Hf & Hmh & Hrt).
    exists (candidate_of db' (hb_NodeID h) sid (heartbeat_row sid h t)). split; [|done].
    exists (node_candidates db' m cutoff (hb_NodeID h, seen_node h t n0)). split.
    + unfold node_candidates. simpl. rewrite Hready. apply list_elem_of_fmap. exists f. split; [done|].
      apply list_elem_of_filter. split; [|by rewrite Hdb].
      apply andb_true_iff. split; [by apply bool_decide_true|]. by rewrite Hdb.
    + apply list_elem_of_fmap. exists (hb_NodeID h, seen_node h t n0). split; [done|].
      by apply elem_of_order_by, elem_of_map_to_list.
Qed.

(** ** Ends of sessions *)

Definition has_stale (db : DB) (cutoff : Z) (nodeID : string) : Prop :=
  ∃ sid s, db_node_sessions db !! sid = Some s ∧ stale_session cutoff sid s = true ∧ ss_node_id s = nodeID.

Lemma has_stale_rows db cutoff n :
  has_stale db cutoff n ↔ n ∈ (λ s, ss_node_id s.2) <$> rows_where (stale_session cutoff) (db_node_sessions db).
Proof.
  rewrite list_elem_of_fmap. split.
  - intros (sid & s & Hs & Hst & <-). exists (sid, s). by rewrite elem_of_rows_where.
  - intros ([sid s] & -> & [Hs Hst]%elem_of_rows_where). by exists sid, s.
Qed.

Lemma offline_not_eligible db n row m cut c :
  db_nodes db !! n = Some row → n_state row = "OFFLINE" → c ∈ eligible_nodes db m cut → NodeID c ≠ n.
Proof. intros Hn Hs [(row' & Hn' & Hs' & _) _ _]%eligible_nodes_sound <-. congruence. Qed.

Lemma ended_not_stale cutoff sid t s : stale_session cutoff sid (ended_session SsStale t s) = false.
Proof. done. Qed.

(** One sweep: no connected session is left that has been silent since before the cutoff,
    45 seconds by default; the other sessions keep their row; exactly the nodes of stale
    sessions go offline, and no model lists them as eligible any more. A second sweep at
    the same time finds nothing. *)
Theorem sweep_spec a t db :
  let cutoff := t - default_pos a (45 * second) in
  let db' := (RunOnce a t db).2 in
  (∀ sid s, db_node_sessions db' !! sid = Some s → stale_session cutoff sid s = false) ∧
  (∀ sid s, db_node_sessions db !! sid = Some s → stale_session cutoff sid s = false →
     db_node_sessions db' !! sid = Some s) ∧
  (∀ n row, db_nodes db !! n = Some row →
     (has_stale db cutoff n → db_nodes db' !! n = Some (offline_node t row) ∧
        ∀ m cut c, c ∈ eligible_nodes db' m cut → NodeID c ≠ n) ∧
     (¬ has_stale db cutoff n → db_nodes db' !! n = Some row)) ∧
  RunOnce a t db' = (Ok 0, db').
Proof.
  intros cutoff db'.
  assert (Hss : ∀ sid, db_node_sessions db' !! sid =
    (λ s, if stale_session cutoff sid s then ended_session SsStale t s else s) <$> db_node_sessions db !! sid)
    by (intros; apply lookup_update_where).
  assert (Hnone : ∀ sid s, db_node_sessions db' !! sid = Some s → stale_session cutoff sid s = false).
  { intros sid s. rewrite Hss. intros (s0 & Hs0 & ->)%fmap_Some.
    destruct (stale_session cutoff sid s0) eqn:E; [apply ended_not_stale|done]. }
  set (stale := (λ s, ss_node_id s.2) <$> rows_where (stale_session cutoff) (db_node_sessions db)).
  assert (Hns : ∀ n, db_nodes db' !! n = (λ row, if bool_decide (n ∈ stale) then offline_node t row else row) <$>
                                           db_nodes db !! n) by (intros; apply lookup_update_where).
  assert (Hnodes : ∀ n row, db_nodes db !! n = Some row → has_stale db cutoff n →
    db_nodes db' !! n = Some (offline_node t row)).
  { intros n row Hn Hst%has_stale_rows. by rewrite Hns, Hn, bool_decide_true. }
  split; [exact Hnone|]. split; [|split].
  - intros sid s Hs Hst. by rewrite Hss, Hs; simpl; rewrite Hst.
  - intros n row Hn. split.
    + intros Hst. specialize (Hnodes n row Hn Hst). split; [done|].
      intros m cut c. by apply offline_not_eligible with (row := offline_node t row).
    + rewrite has_stale_rows. intros Hst. by rewrite Hns, Hn, bool_decide_false.
  - assert (Hempty : rows_where (stale_session cutoff) (db_node_sessions db') = []).
    { apply elem_of_nil_inv. intros [sid s] [Hs Hst]%elem_of_rows_where. by rewrite (Hnone sid s Hs) in Hst. }
    assert (Hid : ∀ T : gmap string NodeRow, update_where (λ k _, bool_decide (k ∈ [])) (offline_node t) T = T)
      by (intros; by apply update_where_id).
    assert (Hz : ∀ T : gmap string NodeRow, rows_where (λ k _, bool_decide (k ∈ [])) T = []).
    { intros T. apply elem_of_nil_inv. by intros [k r] [_ ?]%elem_of_rows_where. }
    transitivity (Ok (Z.of_nat (length (rows_where (λ k (_ : NodeRow), bool_decide (k ∈ [])) (db_nodes db')))),
      db' <| db_node_sessions ::= update_where (stale_session cutoff) (ended_session SsStale t) |>
          <| db_nodes ::= update_where (λ k _, bool_decide (k ∈ [])) (offline_node t) |>).
    { unfold RunOnce, MarkStale. fold cutoff. rewrite bind_gets, bind_gets, Hempty. done. }
    rewrite Hz. f_equal. specialize (Hid (db_nodes db')). clearbody db'.
    pose proof (update_where_id _ (ended_session SsStale t) _ Hnone) as Hs. destruct db'. cbn in Hid, Hs |- *. by rewrite Hid, Hs.
Qed.

(** The end of an old session takes a node that has already reconnected offline: the newer
    session stays connected, but no model lists the node as eligible until its next
    heartbeat. *)
Theorem old_session_ends_node old new n row s t db :
  posted_balanced db → db_nodes db !! n = Some row → new ≠ old →
  db_node_sessions db !! new = Some s → ss_node_id s = n → ss_state s = SsConnected →
  let '(r, db') := CloseSession old n t db in
  r = Ok tt ∧ db_node_sessions db' !! new = Some s ∧ db_nodes db' !! n = Some (offline_node t row) ∧
  ∀ m cut c, c ∈ eligible_nodes db' m cut → NodeID c ≠ n.
Proof.
  intros Hb Hn Hne Hs _ _.
  set (db' := db <| db_nodes ::= update_where (λ k _, String.eqb k n) (offline_node t) |>
    <| db_node_sessions ::= update_where (λ k s, String.eqb k old && bool_decide (ss_state s = SsConnected))
         (ended_session SsClosed t) |>).
  assert (Hrun : CloseSession old n t db = (Ok tt, db')) by (by apply transaction_ok).
  assert (Hoff : db_nodes db' !! n = Some (offline_node t row)).
  { unfold db'. simpl. rewrite lookup_update_where, Hn. simpl. by rewrite String.eqb_refl. }
  rewrite Hrun. split; [done|]. split; [|split; [done|]].
  - unfold db'. simpl. rewrite lookup_update_where, Hs. simpl. by rewrite (proj2 (String.eqb_neq _ _) Hne).
  - intros m cut c. by apply offline_not_eligible with (row := offline_node t row).
Qed.
