(* ===== verification/RegistrationExamples.v ===== *)
(** * A worked registration

    A node joins the marketplace of [JobExamples] by an invite, exchanges its bootstrap
    token, opens a session and reports in, taken through the theorems of
    [RegistrationTheory]. *)
From stdpp Require Import base gmap strings list.
From Stdlib Require Import ZArith Lia.
From S2P Require Import Prelude GoStrings Scheduler Protocol Requests Database Registration Ledger LedgerTheory LedgerExamples JobStore StoreRuns JobTheory JobExamples RegistrationTheory.

Definition reg_cfg : RegistrationConfig := {| rgc_InviteTTL := 0; rgc_BootstrapTTL := 0 |}.
Definition fleet_db : DB :=
  market_db <| db_fleets := {[ "fleet_1" := {| fl_organization_id := "org_1"; fl_name := "fleet";
    fl_schedule_from := Some "22:00"; fl_schedule_until := Some "06:00"; fl_schedule_timezone := None;
    fl_region := None |} ]} |>.
Definition invited_db : DB := run_ops [OpCreateInvite reg_cfg "fleet_1" second] fleet_db.
Definition sample_invite : string :=
  match (CreateInvite reg_cfg "fleet_1" second fleet_db).1 with Ok i => it_Token i | Err _ => "" end.
Definition sample_registration : RegisterRequest := {|
  rq_InviteToken := sample_invite; rq_PublicKey := "cHVibGlj"; rq_HardwareFingerprintHash := "hw" |}.

Lemma invited_unique : unique_tokens invited_db.
Proof.
  apply (si_run_ops unique_tokens [OpCreateInvite reg_cfg "fleet_1" second] fleet_db).
  split; intros k1 k2 v1 v2 H; vm_compute in H; discriminate H.
Qed.

Lemma register_sample_ok : ∃ res db', RegisterNode reg_cfg sample_registration (2 * second) invited_db = (Ok res, db').
Proof. apply run_ok. vm_compute. reflexivity. Qed.

Lemma invite_used_once_witness :
  ∃ res db1, RegisterNode reg_cfg sample_registration (2 * second) invited_db = (Ok res, db1) ∧
    ∃ e ent, RegisterNode reg_cfg sample_registration (3 * second) (run_ops sample_ops db1) =
      (Err e, run_ops sample_ops db1 <| db_entropy := ent |>).
Proof.
  destruct register_sample_ok as (res & db1 & H). exists res, db1. split; [exact H|].
  apply (invite_used_once reg_cfg sample_registration (2 * second) invited_db res db1 sample_ops reg_cfg
           sample_registration (3 * second) invited_unique H eq_refl).
Defined.

Lemma registration_stores_node_witness :
  ∃ res db1, RegisterNode reg_cfg sample_registration (2 * second) invited_db = (Ok res, db1) ∧
    PublicKeyForNode (rgr_NodeID res) db1 = (Ok "cHVibGlj", db1).
Proof.
  destruct register_sample_ok as (res & db1 & H). exists res, db1. split; [exact H|].
  destruct (registration_stores_node reg_cfg sample_registration (2 * second) invited_db res db1)
    as (k & i & fleet & r & _ & _ & _ & _ & _ & _ & _ & _ & Hkey & _); [|exact H|exact Hkey].
  intros k key Hk. vm_compute in Hk. discriminate Hk.
Defined.

Lemma bootstrap_used_once_witness :
  ∃ res db1, RegisterNode reg_cfg sample_registration (2 * second) invited_db = (Ok res, db1) ∧
    (ConsumeBootstrap (rgr_NodeID res) (rgr_BootstrapToken res) minute db1).1 = Ok tt ∧
    (ConsumeBootstrap (rgr_NodeID res) (rgr_BootstrapToken res) hour db1).1 = Err ErrBootstrapExpired.
Proof.
  destruct register_sample_ok as (res & db1 & H). exists res, db1. split; [exact H|].
  split; [exact (proj1 (bootstrap_used_once reg_cfg sample_registration (2 * second) invited_db res db1 minute H))
         |exact (proj1 (bootstrap_used_once reg_cfg sample_registration (2 * second) invited_db res db1 hour H))].
Defined.

(** [node_c] reports on its session. *)
Definition sample_report (state : string) : NodeHeartbeatPayload := {|
  hb_NodeID := "node_c"; hb_Sequence := 2; hb_State := state; hb_ModelID := "llama";
  hb_RuntimeHash := "sha256:rt"; hb_ModelHash := "sha256:gguf";
  hb_GPU := {| gpu_Name := "gpu"; gpu_VRAMTotalMB := 8192; gpu_VRAMFreeMB := 8192; gpu_TemperatureC := 50;
               gpu_PowerW := 100; gpu_PowerLimitW := 200; gpu_UtilizationPercent := 0 |};
  hb_GPUVendor := ""; hb_ActiveJobID := None; hb_ScheduleState := "in_window"; hb_ThermalState := "normal";
  hb_Paused := false; hb_Draining := false; hb_UptimeSeconds := 3; hb_Timestamp := 3 * second |}.

Lemma report_admissible state : admissible market_db "sess_c" (sample_report state) (3 * second) "llama" second.
Proof.
  assert (Hss : db_node_sessions market_db = {[ "sess_c" := sample_session "node_c" ]}) by reflexivity.
  assert (Hhb : db_node_heartbeats market_db = {[ "hb_c" := sample_heartbeat "node_c" "sess_c" ]}) by reflexivity.
  split.
  - exists (sample_session "node_c"). by rewrite Hss, lookup_singleton_eq.
  - intros k s. rewrite Hss. by intros [<- _]%lookup_singleton_Some.
  - intros k b. rewrite Hhb. intros [_ <-]%lookup_singleton_Some _ _. by vm_compute.
  - intros n Hn. assert (Hc : db_nodes market_db !! "node_c" = Some (sample_node "org_1")) by (vm_compute; reflexivity).
    simpl hb_NodeID in Hn. rewrite Hc in Hn. by injection Hn as <-.
  - vm_compute. reflexivity.
  - vm_compute. discriminate.
  - discriminate.
  - assert (Hf : model_files market_db "llama" = [("mv_1",
      ({| mv_model_id := "llama"; mv_version := "1"; mv_repository := EmptyString; mv_revision := "1"; mv_license_identifier := "mit"; mv_manifest_sha256 := "m"; mv_runtime_release_id := Some "rt_1"; mv_status := "alpha"; mv_created_at := 0 |},
       {| ma_model_version_id := "mv_1"; ma_artifact_type := "gguf"; ma_url := "https://models/gguf"; ma_sha256 := "gguf"; ma_byte_size := 1 |}))]) by (vm_compute; reflexivity).
    rewrite Hf. eexists. split; [apply list_elem_of_here|]. split; vm_compute; reflexivity.
Qed.

Lemma heartbeat_decides_eligibility_witness :
  ∃ db1 db2, RecordHeartbeat "sess_c" (sample_report "AVAILABLE") (3 * second) market_db = (Ok tt, db1) ∧
    (∃ c, c ∈ eligible_nodes db1 "llama" second ∧ NodeID c = "node_c" ∧ SessionID c = "sess_c") ∧
    RecordHeartbeat "sess_c" (sample_report "PAUSED") (3 * second) market_db = (Ok tt, db2) ∧
    ¬ (∃ c, c ∈ eligible_nodes db2 "llama" second ∧ NodeID c = "node_c" ∧ SessionID c = "sess_c").
Proof.
  destruct (run_ok (RecordHeartbeat "sess_c" (sample_report "AVAILABLE") (3 * second)) market_db)
    as ([] & db1 & H1); [vm_compute; reflexivity|].
  destruct (run_ok (RecordHeartbeat "sess_c" (sample_report "PAUSED") (3 * second)) market_db)
    as ([] & db2 & H2); [vm_compute; reflexivity|].
  exists db1, db2. split; [exact H1|]. split; [|split; [exact H2|]].
  - apply (heartbeat_decides_eligibility "sess_c" (sample_report "AVAILABLE") (3 * second) market_db tt db1
             "llama" second H1 (report_admissible _)). by split_and!.
  - intros Hc. apply (heartbeat_decides_eligibility "sess_c" (sample_report "PAUSED") (3 * second) market_db tt db2
             "llama" second H2 (report_admissible _)) in Hc as [Hst _]. discriminate Hst.
Defined.

(** [node_c] has reconnected; the coordinator then notices the end of its old connection. *)
Definition reconnected_db : DB :=
  market_db <| db_node_sessions ::= <["sess_old" := sample_session "node_c"]> |>.

Lemma old_session_ends_node_witness :
  NodeID <$> eligible_nodes market_db "llama" 0 = ["node_c"] ∧
  db_node_sessions (CloseSession "sess_old" "node_c" (3 * second) reconnected_db).2 !! "sess_c"
    = Some (sample_session "node_c") ∧
  ∀ c, c ∈ eligible_nodes (CloseSession "sess_old" "node_c" (3 * second) reconnected_db).2 "llama" 0 → NodeID c ≠ "node_c".
Proof.
  split; [vm_compute; reflexivity|].
  assert (Hm : posted_balanced market_db) by apply market_consistent.
  assert (Hframe : ∀ db f, posted_balanced db → posted_balanced (db <| db_node_sessions ::= f |>)) by (intros db f H; exact H).
  assert (Hb : posted_balanced reconnected_db) by (unfold reconnected_db; apply Hframe, Hm).
  pose proof (old_session_ends_node "sess_old" "sess_c" "node_c" (sample_node "org_1") (sample_session "node_c")
                (3 * second) reconnected_db Hb) as H.
  specialize (H ltac:(vm_compute; reflexivity) ltac:(discriminate) ltac:(vm_compute; reflexivity) eq_refl eq_refl).
  destruct (CloseSession "sess_old" "node_c" (3 * second) reconnected_db) as [r db'].
  destruct H as (_ & Hs & _ & He). split; [exact Hs|]. intros c. apply He.
Defined.
