(* ===== verification/OperatorTheory.v ===== *)
(** * Theorems on the operator store

    What an operator's action changes, for how long it holds while the coordinator keeps
    running, and that it is logged; the waitlist's upsert; the normal form of regions. *)
From stdpp Require Import base gmap strings list.
From Stdlib Require Import ZArith Lia Ascii.
From S2P Require Import Prelude GoStrings Float64 Sha256 Scheduler Protocol Requests Database Registration Ledger LedgerTheory JobStore OperatorStore StoreRuns JobTheory RegistrationTheory.

(** ** The log *)

(** A new row of the log that says who did what to what. *)
Definition logged (action targetType targetID : string) (db db' : DB) : Prop :=
  ∃ id row, db_operator_actions db !! id = None ∧
    db_operator_actions db' = <[id := row]> (db_operator_actions db) ∧
    oc_action row = action ∧ oc_target_type row = or_text targetType "unknown" ∧
    oc_target_id row = or_text targetID "unknown".

Lemma recordOperatorActionTx_ok a ty i r m t db u db' :
  recordOperatorActionTx a ty i r m t db = (Ok u, db') →
  ∃ id ent row, db_operator_actions db !! id = None ∧
    oc_action row = a ∧ oc_target_type row = or_text ty "unknown" ∧ oc_target_id row = or_text i "unknown" ∧
    db' = db <| db_entropy := ent |> <| db_operator_actions ::= <[id := row]> |>.
Proof.
  unfold recordOperatorActionTx. intros H. run_inv.
  match goal with H : ids_New _ _ = _ |- _ => apply ids_New_ok in H as (b & rest & _ & -> & ->) end.
  constraints. run_inv. rewrite fresh_key_true in *. eexists _, _, _. split_and!; [eassumption|..|reflexivity]; done.
Qed.

(** An operator's transaction: an effect on other tables, then the log. *)
Lemma operator_tx_ok (body : St DB unit) a ty i r m t db u db' :
  transaction (_ ← body; recordOperatorActionTx a ty i r m t) db = (Ok u, db') →
  ∃ d id ent row, body db = (Ok tt, d) ∧ db_operator_actions d !! id = None ∧
    oc_action row = a ∧ oc_target_type row = or_text ty "unknown" ∧ oc_target_id row = or_text i "unknown" ∧
    db' = d <| db_entropy := ent |> <| db_operator_actions ::= <[id := row]> |>.
Proof.
  intros [H _]%transaction_ok. apply bind_ok in H as ([] & d & Hb & H).
  apply recordOperatorActionTx_ok in H as (id & ent & row & Hid & Ha & Hty & Hi & ->).
  exists d, id, ent, row. by split_and!.
Qed.

(** A run that leaves the log alone, then writes to it. *)
Lemma logged_after a ty i db d id ent row :
  db_operator_actions d = db_operator_actions db → db_operator_actions d !! id = None →
  oc_action row = a → oc_target_type row = or_text ty "unknown" → oc_target_id row = or_text i "unknown" →
  logged a ty i db (d <| db_entropy := ent |> <| db_operator_actions ::= <[id := row]> |>).
Proof. intros Hd Hid Ha Hty Hi. exists id, row. simpl. rewrite <-Hd. by split_and!. Qed.

Definition log_is (T : gmap string OperatorActionRow) (db : DB) : Prop := db_operator_actions db = T.
#[export] Instance log_is_free T : LedgerFree (log_is T).
Proof. one_table. Qed.

Lemma RecordOperatorAction_logged a ty i r m t db u db' :
  RecordOperatorAction a ty i r m t db = (Ok u, db') → logged a ty i db db'.
Proof.
  unfold RecordOperatorAction. intros H. apply bind_ok in H as (t' & d & [-> ->]%or_now_ok & [H _]%transaction_ok).
  apply recordOperatorActionTx_ok in H as (id & ent & row & Hid & Ha & Hty & Hi & ->).
  by apply (logged_after _ _ _ db db).
Qed.

(** The log grows. *)
Definition log_from (T0 : gmap string OperatorActionRow) (db : DB) : Prop := T0 ⊆ db_operator_actions db.
#[export] Instance log_from_free T0 : LedgerFree (log_from T0).
Proof. one_table. Qed.
#[export] Instance log_from_registration T0 : RegistrationFree (log_from T0).
Proof. one_table. Qed.
#[export] Instance log_from_store_inv T0 : StoreInv (log_from T0).
Proof.
  apply ledger_free_store_inv; [apply _|apply _|done|done|done|done|done|done|..].
  - intros. unfold insert_attempt. solve_inv.
  - intros. unfold update_attempt. solve_inv.
  - intros. unfold updateAttemptReputation, ensure_reputation, set_reputation. solve_inv.
  - intros. unfold updateDuplicateReputation, ensure_reputation, set_reputation. solve_inv.
  - intros. unfold updateChallengeReputation, ensure_reputation, set_reputation, quarantine_node. solve_inv.
  - intros. unfold quarantine_node. solve_inv.
  - intros. unfold quarantine_reputation. solve_inv.
  - intros a ty i r m t db Hdb. destruct (recordOperatorActionTx a ty i r m t db) as [[u|e] db'] eqn:E; simpl.
    + apply recordOperatorActionTx_ok in E as (id & ent & row & Hid & _ & _ & _ & ->). unfold log_from in *. simpl.
      etransitivity; [exact Hdb|by apply insert_subseteq].
    + revert E. unfold recordOperatorActionTx, mbind, St_bind, ids_New, wrap, constraint, guard_err.
      destruct (db_entropy db); simpl; [|destruct (fresh_key _ _); simpl; [done|]]; intros [= _ <-]; exact Hdb.
  - intros. unfold upsert_signup. solve_inv.
  - intros. unfold CompleteJob, complete_tx, select_attempt, completable, insert_result, mark_succeeded,
      update_attempt, update_job, updateAcceptedReputation, nodeIDForAttempt, updateAttemptReputation,
      ensure_reputation, set_reputation.
    repeat first [apply preserves_transaction; [apply _|]|progress solve_inv].
Qed.

(** Nothing the coordinator does changes or removes a row of the operator's log: every
    action logged in a database is still there, unchanged, after any sequence of
    operations. *)
Theorem operator_log_append_only ops db k row :
  db_operator_actions db !! k = Some row → db_operator_actions (run_ops ops db) !! k = Some row.
Proof.
  intros Hk. apply (lookup_weaken _ _ _ _ Hk). apply (si_run_ops (log_from (db_operator_actions db))). unfold log_from. reflexivity.
Qed.

Ltac op_tx H :=
  apply bind_ok in H as (? & ? & [-> ->]%or_now_ok & H);
  first [apply operator_tx_ok in H | idtac].

(** ** Quarantine *)

Lemma quarantine_reputation_frame n r t db u d :
  quarantine_reputation n r t db = (Ok u, d) →
  db_nodes d = db_nodes db ∧ db_operator_actions d = db_operator_actions db.
Proof.
  unfold quarantine_reputation. intros H. run_inv. destruct (_ !! n); run_inv; [done|]. constraints. run_inv. done.
Qed.

(** C26. An operator's quarantine is final: once [QuarantineNode] has succeeded on a node,
    no sequence of coordinator operations (heartbeats, new sessions, challenges, further
    operator actions) ever lists it among the nodes eligible for any model; and the action
    is in the log with the reason's target. *)
Theorem operator_quarantine_final n r t db db' ops m cut c :
  QuarantineNode n r t db = (Ok tt, db') → is_Some (db_nodes db !! n) →
  logged ActionNodeQuarantine "node" n db db' ∧
  (c ∈ eligible_nodes (run_ops ops db') m cut → NodeID c ≠ n).
Proof.
  unfold QuarantineNode. intros H [row Hrow]. apply bind_ok in H as (t' & d & [-> ->]%or_now_ok & H).
  apply transaction_ok in H as [H _]. apply bind_ok in H as ([] & d1 & Hq & H). apply bind_ok in H as ([] & d2 & Hr & H).
  apply modify_ok in Hq as ->. apply wrap_ok, quarantine_reputation_frame in Hr as [Hn Hl].
  apply recordOperatorActionTx_ok in H as (id & ent & lrow & Hid & Ha & Hty & Hi & ->). split.
  - by apply logged_after.
  - intros Hin. refine (quarantined_not_eligible _ _ _ _ _ _ Hin). apply (si_run_ops (quarantined _)).
    unfold quarantined. simpl. rewrite Hn. simpl. rewrite lookup_update_where, Hrow. simpl.
    rewrite String.eqb_refl. by eexists.
Qed.

(** ** Draining *)

(** Every connected session of the node is newer than the sessions of [T0]. *)
Definition reconnected (n : string) (T0 : gmap string SessionRow) (db : DB) : Prop :=
  (∀ k, is_Some (T0 !! k) → is_Some (db_node_sessions db !! k)) ∧
  ∀ k s, db_node_sessions db !! k = Some s → ss_node_id s = n → ss_state s = SsConnected → T0 !! k = None.

Section reconnected.
Context (n : string) (T0 : gmap string SessionRow).
Notation P := (reconnected n T0).

Lemma reconnected_same db db' : db_node_sessions db' = db_node_sessions db → P db → P db'.
Proof. unfold reconnected. by intros ->. Qed.
#[export] Instance reconnected_free : LedgerFree P.
Proof. one_table. Qed.

(** A session is never turned back into a connected one. *)
Lemma reconnected_update q f :
  (∀ s, ss_node_id (f s) = ss_node_id s) → (∀ s, ss_state (f s) = SsConnected → ss_state s = SsConnected) →
  preserves P (update_sessions q f).
Proof.
  intros Hn Hs. apply preserves_modify. intros db [H1 H2]. split; simpl.
  - intros k [s Hk]%H1. rewrite lookup_update_where, Hk. by eexists.
  - intros k s. rewrite lookup_update_where. intros (s0 & Hk & ->)%fmap_Some_1 Hnode Hst.
    apply (H2 k s0 Hk); destruct (q k s0); auto; by rewrite Hn in Hnode.
Qed.

Ltac other := apply preserves_modify; intros ? ?; by (eapply reconnected_same; [|eassumption]; done).
Ltac rc := repeat first [apply preserves_transaction; [apply _|] | progress solve_inv | other
                        | apply reconnected_update; [done|done] ].

Lemma reconnected_OpenSession m v a t : preserves P (OpenSession m v a t).
Proof.
  intros db Hdb. unfold OpenSession, mbind, St_bind, ids_New. destruct (db_entropy db) as [|b rest]; [done|].
  unfold gets, wrap, constraint, guard_err, id. simpl.
  destruct (fresh_key _ _) eqn:E; simpl; [|exact Hdb]. apply fresh_key_true in E. destruct (has_key _ _); simpl; [|exact Hdb].
  destruct Hdb as [H1 H2]. split; simpl.
  - intros k Hk. rewrite lookup_insert_is_Some'. right. by apply H1.
  - intros k s. rewrite lookup_insert_Some. intros [[<- _]|[_ Hk]] Hnode Hst; [|by apply (H2 k s)].
    destruct (T0 !! _) as [s0|] eqn:E0; [|done]. destruct (H1 _ (mk_is_Some _ _ E0)) as [? Hs]. simpl in E. congruence.
Qed.

Lemma reconnected_random prefix : preserves P (randomToken prefix).
Proof. intros db Hdb. unfold randomToken. destruct (db_entropy db); exact Hdb. Qed.
Hint Resolve reconnected_random lf_postAcceptedJob : inv.

#[export] Instance reconnected_inv : StoreInv P.
Proof.
  split; [split; [apply _|..]|]; try solve [intros db f H; eapply reconnected_same; [|exact H]; done | intros db f _ H; eapply reconnected_same; [|exact H]; done];
    try solve [intros; first [apply lf_PostVerificationOverhead|apply lf_PromoteAvailableCredits
      |apply lf_CreatePayoutBatch|apply lf_ExportPayoutBatch|apply lf_ConfirmPayoutBatch]; apply _].
  - intros. unfold insert_attempt. rc.
  - intros. unfold update_attempt. rc.
  - intros. unfold updateAttemptReputation, ensure_reputation, set_reputation. rc.
  - intros. unfold updateDuplicateReputation, ensure_reputation, set_reputation. rc.
  - intros. unfold updateChallengeReputation, ensure_reputation, set_reputation, quarantine_node. rc.
  - intros. unfold CompleteJob, complete_tx, select_attempt, completable, insert_result, mark_succeeded, updateAcceptedReputation, nodeIDForAttempt,
      updateAttemptReputation, ensure_reputation, set_reputation, update_job, update_attempt. rc.
  - intros. unfold CreateInvite, pg_CreateInvite, ensureFleet, insert_organization, insert_fleet, insert_invite. rc.
  - intros. unfold RegisterNode, pg_RegisterNode, register_tx, select_one, update_invites, insert_node, insert_node_key,
      insert_bootstrap. rc.
  - intros. unfold ConsumeBootstrap, pg_ConsumeBootstrap, select_one. rc.
  - apply reconnected_OpenSession.
  - intros. unfold RecordHeartbeat, insert_heartbeat, report_state, update_nodes. rc.
  - intros. unfold RecordStateChanged, report_state, update_nodes. rc.
  - intros. unfold RecordSafetyEvent. rc.
  - intros. unfold CloseSession, update_nodes. rc.
  - intros. unfold RunOnce, MarkStale, update_nodes. rc.
  - intros. unfold recordOperatorActionTx. rc.
  - intros. unfold upsert_signup. rc.
  - intros. unfold insert_fleet. rc.
  - intros. rc.
  - intros. unfold update_nodes. rc.
  - intros. rc.
  - intros. unfold quarantine_node. rc.
  - intros. unfold quarantine_reputation. rc.
Qed.
End reconnected.

Lemma latest_None {V} (col : V → Z) rows kv : latest col rows = None → kv ∉ rows.
Proof.
  unfold latest. intros H Hin. apply (elem_of_order_by (desc col)) in Hin.
  destruct (order_by (desc col) rows); [set_solver|done].
Qed.

Lemma node_session_spec db n k s :
  node_session db n = Some (k, s) →
  db_node_sessions db !! k = Some s ∧ ss_node_id s = n ∧ ss_state s = SsConnected.
Proof.
  unfold node_session. intros H%latest_elem. apply elem_of_rows_where in H as [Hk Hc].
  by rewrite andb_true_iff, String.eqb_eq, bool_decide_eq_true in Hc.
Qed.

Lemma node_session_none db n k s :
  node_session db n = None → db_node_sessions db !! k = Some s → ss_node_id s = n → ss_state s ≠ SsConnected.
Proof.
  unfold node_session. intros H Hk Hn Hs. apply (latest_None _ _ (k, s)) in H. apply H, elem_of_rows_where.
  split; [done|]. by rewrite Hn, Hs, String.eqb_refl.
Qed.

Definition one_connection (n : string) (db : DB) : Prop :=
  ∀ k1 k2 s1 s2, db_node_sessions db !! k1 = Some s1 → db_node_sessions db !! k2 = Some s2 →
    ss_node_id s1 = n → ss_node_id s2 = n → ss_state s1 = SsConnected → ss_state s2 = SsConnected → k1 = k2.

Lemma drained_sessions n r t db db' :
  DrainNode n r t db = (Ok tt, db') → one_connection n db →
  ∀ k s, db_node_sessions db' !! k = Some s → ss_node_id s = n → ss_state s ≠ SsConnected.
Proof.
  unfold DrainNode, set_node_state, update_nodes, update_sessions. intros H Hone.
  apply bind_ok in H as (t' & d & [-> ->]%or_now_ok & H). apply transaction_ok in H as [H _].
  apply bind_ok in H as ([] & d1 & Hset & H). apply modify_ok in Hset as ->.
  apply bind_ok in H as (d2 & d3 & [-> ->]%gets_ok & H). apply bind_ok in H as ([] & d3 & Hdr & H).
  apply recordOperatorActionTx_ok in H as (id & ent & lrow & _ & _ & _ & _ & ->). simpl.
  match type of Hdr with context [node_session ?d0 n] => set (d := d0) in * end.
  destruct (node_session d n) as [[sid s0]|] eqn:E; run_inv.
  - apply node_session_spec in E as (Hk0 & Hn0 & Hs0). simpl. intros k s. rewrite lookup_update_where.
    intros (s1 & Hk & ->)%fmap_Some_1 Hnode Hst. destruct (String.eqb_spec k sid) as [->|Hne]; [done|].
    apply Hne. by apply (Hone k sid s1 s0).
  - intros k s Hk. by apply (node_session_none d n k).
Qed.

(** A drained node stays out until it reconnects: after [DrainNode], on a node with at
    most one connected session, and through any sequence of coordinator operations
    (heartbeats on the drained session included), the node is offered work only over a
    session that was opened after the drain. *)
Theorem drained_needs_new_session n r t db db' ops m cut c :
  DrainNode n r t db = (Ok tt, db') → one_connection n db →
  c ∈ eligible_nodes (run_ops ops db') m cut → NodeID c = n →
  db_node_sessions db' !! SessionID c = None.
Proof.
  intros H Hone [_ (s & h & Hs & _) _]%eligible_nodes_sound Hn.
  apply node_session_spec in Hs as (Hk & Hnode & Hst). rewrite Hn in Hnode.
  assert (Hr : reconnected n (db_node_sessions db') (run_ops ops db')).
  { apply si_run_ops; [apply _|]. split; [done|]. intros k s' Hk' Hn' Hs'.
    by destruct (drained_sessions _ _ _ _ _ H Hone k s' Hk' Hn'). }
  by apply (proj2 Hr (SessionID c) s).
Qed.

(** ** Pausing *)

Lemma PauseNode_ok n r t db db' :
  PauseNode n r t db = (Ok tt, db') →
  ∃ d, db_nodes db' = db_nodes d ∧ logged ActionNodePause "node" n db db' ∧
    d = db <| db_nodes ::= update_where (λ k _, String.eqb k n)
          (λ x, x <| n_state := "PAUSED" |> <| n_updated_at := posted_at db t |>) |>.
Proof.
  unfold PauseNode, updateNodeAction, set_node_state, update_nodes. intros H.
  apply bind_ok in H as (t' & d & [-> ->]%or_now_ok & H).
  apply operator_tx_ok in H as (d & id & ent & row & Hd & Hid & Ha & Hty & Hi & ->).
  apply modify_ok in Hd as ->. eexists. split; [|split; [|reflexivity]]; [done|]. by apply logged_after.
Qed.

(** An operator's pause takes the node out of every model's list at once, and is undone
    by the node's next heartbeat: the state the coordinator holds is then the one the node
    reports, and nothing of the pause remains. *)
Theorem pause_until_heartbeat n r t db db1 :
  PauseNode n r t db = (Ok tt, db1) →
  (∀ m cut c, c ∈ eligible_nodes db1 m cut → NodeID c ≠ n) ∧
  ∀ sid h t2 db2 row, RecordHeartbeat sid h t2 db1 = (Ok tt, db2) → hb_NodeID h = n →
    db_nodes db2 !! n = Some row → n_state row = hb_State h.
Proof.
  intros (d & Hn & _ & ->)%PauseNode_ok. split.
  - intros m cut c [(row & Hrow & Hs & _) _ _]%eligible_nodes_sound <-. rewrite Hn in Hrow. simpl in Hrow.
    rewrite lookup_update_where in Hrow. apply fmap_Some_1 in Hrow as (row0 & _ & ->).
    by rewrite String.eqb_refl in Hs.
  - intros sid h t2 db2 row H Hnode Hrow. unfold RecordHeartbeat in H. apply bind_ok in H as (hid & d & _ & H).
    apply transaction_ok in H as [H _]. unfold report_state, update_nodes, update_sessions in H. run_inv.
    constraints. run_inv. simpl in Hrow. rewrite lookup_update_where in Hrow.
    apply fmap_Some_1 in Hrow as (row0 & _ & ->). by rewrite String.eqb_refl.
Qed.

(** ** Cancelling and retrying jobs *)

Definition cancelled_attempt (now : Z) (a : AttemptRow) : AttemptRow :=
  a <| at_status := ACancelled |> <| at_finished_at ::= (λ t, Some (default now t)) |>.
Definition cancelled_job (now : Z) (j : JobRow) : JobRow := job_state JCancelled now j <| j_completed_at := Some now |>.

Lemma op_CancelJob_ok j r t db db' :
  op_CancelJob j r t db = (Ok tt, db') →
  db_job_attempts db' = update_where (λ k a, of_job j k a && live_attempt a) (cancelled_attempt (posted_at db t))
                          (db_job_attempts db) ∧
  db_jobs db' = update_where (λ k job, String.eqb k j && negb (bool_decide (j_state job = JSucceeded)))
                  (cancelled_job (posted_at db t)) (db_jobs db) ∧
  logged ActionJobCancel "job" j db db'.
Proof.
  unfold op_CancelJob, update_attempt, update_job. intros H. apply bind_ok in H as (t' & d & [-> ->]%or_now_ok & H).
  apply transaction_ok in H as [H _]. apply bind_ok in H as ([] & d1 & Ha & H). apply modify_ok in Ha as ->.
  apply bind_ok in H as ([] & d2 & Hj & H). apply modify_ok in Hj as ->.
  apply recordOperatorActionTx_ok in H as (id & ent & row & Hid & Ha & Hty & Hi & ->).
  split_and!; [done|done|]. by apply logged_after.
Qed.

(** Cancelled work is never billed: an operator's cancellation ends every active attempt
    of the job and marks the job cancelled unless it has already succeeded; from then on,
    through any sequence of coordinator operations (a retry of the job included), no
    completion for an attempt that existed at the cancellation is accepted, and the
    refused completion changes no table. *)
Theorem operator_cancel_stops j r t db db' ops p t2 h mt :
  op_CancelJob j r t db = (Ok tt, db') → jc_JobID p = j →
  (∀ a, db_job_attempts db' !! jc_AttemptID p = Some a → at_job_id a = j → active_status (at_status a) = false) ∧
  (∀ job, db_jobs db !! j = Some job → db_jobs db' !! j =
     Some (if bool_decide (j_state job = JSucceeded) then job else cancelled_job (posted_at db t) job)) ∧
  (is_Some (db_job_attempts db' !! jc_AttemptID p) →
   ∃ e ent, CompleteJob p t2 h mt (run_ops ops db') = (Err e, run_ops ops db' <| db_entropy := ent |>)).
Proof.
  intros (Ha & Hj & _)%op_CancelJob_ok Hp.
  assert (Hend : ∀ a, db_job_attempts db' !! jc_AttemptID p = Some a → at_job_id a = j →
    active_status (at_status a) = false).
  { intros a. rewrite Ha, lookup_update_where. intros (a0 & _ & ->)%fmap_Some_1 Hjob.
    destruct (of_job j (jc_AttemptID p) a0 && live_attempt a0) eqn:E; [done|].
    unfold of_job, live_attempt in E. by rewrite Hjob, String.eqb_refl in E. }
  split_and!; [exact Hend| |].
  - intros job Hjob. rewrite Hj, lookup_update_where, Hjob. simpl. rewrite String.eqb_refl.
    by case_bool_decide.
  - intros [a Hk]. destruct (CompleteJob p t2 h mt (run_ops ops db')) as [[resp|e] d] eqn:E.
    2: { destruct (CompleteJob_err _ _ _ _ _ _ _ E) as [ent ->]. by exists e, ent. }
    exfalso. apply CompleteJob_ok in E as (_ & rid & ent & a' & jb & node & dur & lr & d2 & _ & [Hm _ _ _ _ _ _]).
    destruct Hm as [Hrow Hjob Hst _ _ _]. simpl in Hrow. destruct (run_ops_advance ops db') as [Hadv _].
    destruct (Hadv _ a Hk) as (a2 & Hk2 & Hsteps). assert (a2 = a') as -> by congruence.
    apply rtc_attempt_step in Hsteps as (Hj2 & _ & _ & Hin & _).
    assert (Hd : active_status (at_status a') = false) by (apply Hin, Hend; [done|congruence]).
    by destruct Hst as [Hst|Hst]; rewrite Hst in Hd.
Qed.

(** A retry puts a failed or cancelled job back in the queue, leaves a job in any other
    state as it was, and touches no attempt. *)
Theorem operator_retry_spec j r t db db' :
  RetryJob j r t db = (Ok tt, db') →
  db_job_attempts db' = db_job_attempts db ∧ logged ActionJobRetry "job" j db db' ∧
  ∀ k job, db_jobs db !! k = Some job → db_jobs db' !! k =
    Some (if String.eqb k j && bool_decide (j_state job = JFailed ∨ j_state job = JCancelled)
          then job <| j_state := JQueued |> <| j_updated_at := posted_at db t |> <| j_completed_at := None |> else job).
Proof.
  unfold RetryJob, update_job. intros H. apply bind_ok in H as (t' & d & [-> ->]%or_now_ok & H).
  apply operator_tx_ok in H as (d & id & ent & row & Hd & Hid & Ha & Hty & Hi & ->). apply modify_ok in Hd as ->.
  split_and!; [done|by apply logged_after|]. intros k job Hk. simpl. rewrite lookup_update_where, Hk. simpl.
  f_equal. rewrite (bool_decide_ext (j_state job ∈ [JFailed; JCancelled]) (j_state job = JFailed ∨ j_state job = JCancelled))
    by set_solver. destruct (_ && _); reflexivity.
Qed.

(** ** Regions *)

Lemma ascii_of_byte a : ascii_of (byte_of a) = a.
Proof. unfold ascii_of, byte_of. rewrite N2Z.id. apply Ascii.ascii_N_embedding. Qed.

Lemma encode_plain a : byte_of a < 0x80 → encode_rune (byte_of a) = [a].
Proof.
  intros Ha. unfold encode_rune, between. assert (0 ≤ byte_of a) by (unfold byte_of; lia).
  rewrite (proj2 (Z.leb_le 0 (byte_of a))), (proj2 (Z.leb_le (byte_of a) 0x7F)) by lia. simpl. by rewrite ascii_of_byte.
Qed.

Lemma split_on_chars c s a : a ∈ bytes s → a = c ∨ ∃ part, part ∈ split_on c s ∧ a ∈ bytes part.
Proof.
  induction s as [|b s IH]; simpl; [by intros H%not_elem_of_nil|].
  destruct (split_on_cons c s) as (w & ws & E). rewrite E in *. rewrite elem_of_cons. intros [->|Hin].
  - case_bool_decide as Hb; [by left|]. right. exists (String b w). simpl. split; constructor.
  - destruct (IH Hin) as [->|(part & Hp & Ha)]; [by left|]. right.
    case_bool_decide; [exists part; split; [by constructor|done]|].
    apply elem_of_cons in Hp as [->|Hp]; [exists (String b w); simpl|exists part]; by split; [constructor|try constructor].
Qed.

(** The characters of a region. *)
Definition region_byte (a : ascii) : Prop := region_char a = true ∨ a = "-"%char.

Lemma regionPattern_chars r a : regionPattern r = true → a ∈ bytes r → region_byte a.
Proof.
  unfold regionPattern. rewrite forallb_forall. intros H Ha.
  destruct (split_on_chars "-"%char r a Ha) as [->|(part & Hp & Hin)]; [by right|]. left.
  rewrite list_elem_of_In in Hp. apply H in Hp as [_ Hp]%andb_true_iff. rewrite forallb_forall in Hp.
  by apply Hp, list_elem_of_In.
Qed.

Lemma region_byte_plain a : region_byte a → byte_of a < 0x80 ∧ between 65 90 (byte_of a) = false ∧ is_space (byte_of a) = false.
Proof.
  intros [H| ->]; [|by vm_compute]. unfold region_char, is_lower, is_digit, between in H.
  rewrite orb_true_iff, !andb_true_iff, !Z.leb_le in H. unfold is_space, between.
  split_and!; [lia| |]; repeat match goal with |- context [?x <=? ?y] => destruct (Z.leb_spec x y); try lia
    | |- context [?x =? ?y] => destruct (Z.eqb_spec x y); try lia end; done.
Qed.

Lemma trim_plain s : Forall (λ a, byte_of a < 0x80 ∧ is_space (byte_of a) = false) (bytes s) → trim_space s = s.
Proof.
  intros H. unfold trim_space. rewrite decode_plain by (by eapply Forall_impl; [exact H|intros ? []]).
  set (segs := (λ a, (byte_of a, [a])) <$> bytes s).
  assert (Hs : Forall (λ seg, is_space seg.1 = false) segs).
  { unfold segs. rewrite Forall_fmap. eapply Forall_impl; [exact H|by intros ? []]. }
  assert (Hd : ∀ l : list (Z * list ascii), Forall (λ seg, is_space seg.1 = false) l → drop_while (λ seg, is_space seg.1) l = l).
  { by intros [|x l] Hl; [|apply Forall_cons in Hl as [Hx _]; simpl; rewrite Hx]. }
  rewrite (Hd _ Hs), Hd by (by apply Forall_reverse). rewrite reverse_involutive.
  transitivity (of_bytes (bytes s)); [|apply of_bytes_bytes]. f_equal. unfold segs. clear.
  induction (bytes s) as [|a l IH]; [done|]. csimpl. by rewrite IH.
Qed.

Lemma to_lower_plain lt s :
  Forall (λ a, byte_of a < 0x80 ∧ between 65 90 (byte_of a) = false) (bytes s) → to_lower lt s = s.
Proof.
  intros H. unfold to_lower. rewrite decode_plain by (by eapply Forall_impl; [exact H|intros ? []]).
  transitivity (of_bytes (bytes s)); [|apply of_bytes_bytes]. f_equal. induction H as [|a l [Ha Hu] _ IH]; [done|]. csimpl. rewrite IH.
  unfold lower_rune. rewrite Hu, (proj2 (Z.ltb_lt _ _) Ha). by rewrite encode_plain.
Qed.

Lemma NormalizeRegion_cases lt v r :
  NormalizeRegion lt v = Ok r → r = "" ∨ regionPattern r = true.
Proof.
  unfold NormalizeRegion. destruct (String.eqb_spec (to_lower lt (trim_space v)) ""); [intros [= <-]; by left|].
  destruct (regionPattern _) eqn:E; simpl; [|done]. intros [= <-]. by right.
Qed.

(** Regions have a normal form: what [NormalizeRegion] returns is empty or matches the
    pattern the schema checks, so storing it never violates the check, and normalising it
    again, whatever the table of lower-case runes, changes nothing. *)
Theorem region_normal_form lt lt' v r :
  NormalizeRegion lt v = Ok r → region_check (null_if_empty r) = true ∧ NormalizeRegion lt' r = Ok r.
Proof.
  intros H. destruct (NormalizeRegion_cases _ _ _ H) as [->|Hp]; [by vm_compute|].
  assert (Hc : Forall (λ a, byte_of a < 0x80 ∧ between 65 90 (byte_of a) = false ∧ is_space (byte_of a) = false) (bytes r)).
  { apply Forall_forall. intros a Ha. apply region_byte_plain. by eapply regionPattern_chars. }
  split; [unfold null_if_empty; by case_match|]. unfold NormalizeRegion.
  rewrite trim_plain, to_lower_plain by (eapply Forall_impl; [exact Hc|naive_solver]).
  rewrite Hp. by destruct (String.eqb_spec r "") as [->|].
Qed.

(** ** Schedules *)

Lemma is_digit_char a : is_digit a = true → ∃ d, 0 ≤ d ≤ 9 ∧ a = digit_char d.
Proof.
  unfold is_digit, between. rewrite andb_true_iff, !Z.leb_le. intros [H1 H2]. exists (byte_of a - 48). split; [lia|].
  unfold digit_char. replace (48 + (byte_of a - 48)) with (byte_of a) by lia. by rewrite <-(ascii_of_byte a) at 1.
Qed.

Lemma byte_of_digit d : 0 ≤ d ≤ 9 → byte_of (digit_char d) = 48 + d.
Proof. intros Hd. unfold byte_of, digit_char. rewrite Ascii.N_ascii_embedding by lia. rewrite Z2N.id; lia. Qed.

Lemma pad2_digits a b : 0 ≤ a ≤ 9 → 0 ≤ b ≤ 9 → pad2 (10 * a + b) = of_bytes [digit_char a; digit_char b].
Proof.
  intros Ha Hb. unfold pad2. replace ((10 * a + b) / 10) with a by (rewrite (Z.mul_comm 10), Z.div_add_l by lia;
    rewrite Z.div_small by lia; lia).
  replace ((10 * a + b) mod 10) with b; [done|]. rewrite Z.add_comm, Z.mul_comm, Z.mod_add by lia.
  by rewrite Z.mod_small by lia.
Qed.

(** What the schema accepts as a clock: two digits each for an hour and a minute. *)
Lemma clock_text_spec s :
  clock_text s = true → ∃ h m, 0 ≤ h ≤ 23 ∧ 0 ≤ m ≤ 59 ∧ s = pad2 h +:+ String ":" (pad2 m).
Proof.
  unfold clock_text. generalize (of_bytes_bytes s).
  destruct (bytes s) as [|h1 [|h2 [|c [|m1 [|m2 [|? ?]]]]]]; try done.
  intros <-. rewrite !andb_true_iff, bool_decide_eq_true, orb_true_iff, !andb_true_iff, Z.eqb_eq.
  unfold between. rewrite !andb_true_iff, !Z.leb_le. intros [[[-> Hh] Hm1] Hm2].
  assert (Hd1 : is_digit h1 = true ∧ is_digit h2 = true ∧ is_digit m1 = true).
  { unfold is_digit, between in *. rewrite !andb_true_iff, !Z.leb_le in *. destruct Hh as [[]|[]]; split_and!; lia. }
  destruct Hd1 as (Hd1 & Hd2 & Hd3).
  apply is_digit_char in Hd1 as (a & Ha & ->), Hd2 as (b & Hb & ->), Hd3 as (x & Hx & ->), Hm2 as (y & Hy & ->).
  rewrite !byte_of_digit in * by lia. exists (10 * a + b), (10 * x + y). split_and!; try lia.
  by rewrite !pad2_digits by lia.
Qed.

Lemma colon_pad2 z : 0 ≤ z < 100 → ":"%char ∉ bytes (pad2 z).
Proof.
  intros Hz. rewrite pad2_bytes.
  assert (0 ≤ z / 10 ≤ 9) by (split; [apply Z.div_pos|apply Z.lt_succ_r, Z.div_lt_upper_bound]; lia).
  assert (0 ≤ z mod 10 ≤ 9) by (pose proof (Z.mod_pos_bound z 10); lia).
  rewrite !not_elem_of_cons. split_and!; [| |apply not_elem_of_nil]; intros E; by eapply digit_char_not; [|..|symmetry; exact E].
Qed.

(** Every clock the schema accepts passes [validateClock]; the converse fails, and a fleet
    whose hours are written without the leading zero passes the validation and is then
    refused by the database. *)
Theorem schema_clock_validated s : clock_text s = true → validateClock s = Ok tt.
Proof.
  intros (h & m & Hh & Hm & ->)%clock_text_spec. unfold validateClock.
  rewrite split_on_app by (apply colon_pad2; lia). rewrite split_on_none by (apply colon_pad2; lia).
  rewrite !atoi_pad2 by lia.
  by repeat match goal with |- context [?x <? ?y] => destruct (Z.ltb_spec x y); [lia|] end.
Qed.

Example validated_clock_refused :
  Forall (λ s, validateClock s = Ok tt ∧ clock_text s = false) ["9:30"; "22:5"; "+9:+5"; "007:00"].
Proof. repeat constructor. Qed.

(** ** The waitlist *)

Definition one_application (db : DB) : Prop :=
  ∀ k1 k2 r1 r2, db_waitlist_signups db !! k1 = Some r1 → db_waitlist_signups db !! k2 = Some r2 →
    wl_email r1 = wl_email r2 → wl_model_id r1 = wl_model_id r2 → k1 = k2.

Lemma same_applicant_true e m k r : same_applicant e m k r = true ↔ wl_email r = e ∧ wl_model_id r = m.
Proof. unfold same_applicant. by rewrite andb_true_iff, String.eqb_eq, bool_decide_eq_true. Qed.

(** The applicant's row after an application. *)
Definition applied (row : WaitlistRow) (old : option WaitlistRow) : WaitlistRow :=
  match old with Some r => reapplied row r | None => row end.

Lemma upsert_signup_ok k row db s ins db' :
  upsert_signup k row db = (Ok (s, ins), db') →
  ∃ old, db_waitlist_signups db !! ws_ID s = old ∧ ins = bool_decide (old = None) ∧
    s = signup_of (ws_ID s) (applied row old) ∧
    (∀ r, old = Some r → wl_email r = wl_email row ∧ wl_model_id r = wl_model_id row) ∧
    (old = None → ∀ k' r, db_waitlist_signups db !! k' = Some r →
       ¬ (wl_email r = wl_email row ∧ wl_model_id r = wl_model_id row)) ∧
    db' = db <| db_waitlist_signups ::= <[ws_ID s := applied row old]> |>.
Proof.
  unfold upsert_signup. intros H. run_inv. constraints. run_inv.
  destruct (rows_where _ _) as [|[id r] rest] eqn:E.
  - run_inv. constraints. run_inv. rewrite fresh_key_true in *. exists None. split_and!; try done.
    intros _ k' r Hk' Hs. assert (Hin : (k', r) ∈ rows_where (same_applicant (wl_email row) (wl_model_id row)) (db_waitlist_signups db))
      by (apply elem_of_rows_where; split; [done|by apply same_applicant_true]). rewrite E in Hin. by apply not_elem_of_nil in Hin.
  - run_inv. assert (Hin : (id, r) ∈ rows_where (same_applicant (wl_email row) (wl_model_id row)) (db_waitlist_signups db))
      by (rewrite E; constructor). apply elem_of_rows_where in Hin as [Hk Hs]. apply same_applicant_true in Hs.
    exists (Some r). split_and!; try done. by intros r' [= <-].
Qed.

(** The waitlist keeps one row per person and model: an application either adds a row, and
    then there was none for that email and model, or overwrites the answers of the row it
    has, whose id, and whose time of first application, stay. No other row changes, what is
    returned is what is stored, and the uniqueness is kept. *)
Theorem waitlist_upsert lt a t db s ins db' :
  one_application db → SubmitWaitlistApplication lt a t db = (Ok (s, ins), db') →
  let row := application_row lt a (posted_at db t) in
  one_application db' ∧
  ∃ r, db_waitlist_signups db' !! ws_ID s = Some r ∧ s = signup_of (ws_ID s) r ∧
    wl_email r = NormalizeEmail lt (wa_Email a) ∧ wl_model_id r = wl_model_id row ∧
    wl_use_case r = wl_use_case row ∧ wl_data_ack r = wa_DataAck a ∧ wl_last_applied_at r = posted_at db t ∧
    (ins = true → db_waitlist_signups db !! ws_ID s = None ∧ wl_created_at r = posted_at db t) ∧
    (ins = false → ∃ r0, db_waitlist_signups db !! ws_ID s = Some r0 ∧ wl_created_at r = wl_created_at r0) ∧
    (∀ k, k ≠ ws_ID s → db_waitlist_signups db' !! k = db_waitlist_signups db !! k).
Proof.
  intros Hone H row. unfold SubmitWaitlistApplication in H. run_inv.
  match goal with H : or_now _ _ = _ |- _ => apply or_now_ok in H as [-> ->] end.
  match goal with H : ids_New _ _ = _ |- _ => apply ids_New_ok in H as (b & rest & _ & -> & ->) end.
  match goal with H : upsert_signup _ ?r _ = _ |- _ =>
    change r with row in H; apply upsert_signup_ok in H as (old & Hold & -> & Hs & Hsame & Hnew & ->) end.
  cbn [upd_field db_waitlist_signups] in *.
  assert (He : wl_email (applied row old) = wl_email row ∧ wl_model_id (applied row old) = wl_model_id row).
  { destruct old as [r|]; [|done]. exact (Hsame r eq_refl). }
  split.
  - intros k1 k2 r1 r2. simpl. rewrite !lookup_insert_Some. destruct He as [He Hm].
    intros [[<- <-]|[N1 H1]] [[<- <-]|[N2 H2]] E1 E2; [done| | |by apply (Hone k1 k2 r1 r2)];
      rewrite He in E1; rewrite Hm in E2; (destruct old as [r|]; [destruct (Hsame r) as [? ?]; [done|]|]).
    + apply (Hone _ _ r r2); congruence.
    + by destruct (Hnew eq_refl k2 r2).
    + apply (Hone _ _ r1 r); congruence.
    + by destruct (Hnew eq_refl k1 r1).
  - exists (applied row old). simpl. rewrite lookup_insert_eq. split_and!; try done; try apply He;
      try (by destruct old); try (by intros; rewrite lookup_insert_ne).
    destruct old as [r|]; [|done]. intros _. exists r. by split.
Qed.
