(* ===== verification/ReportTheory.v ===== *)
(** * Theorems on the operator's reports

    The public page and the console tell the truth about the state they read: the map and
    the list of regions agree, advertised capacity is capacity the scheduler would use, and
    the ledger alert is never raised by the program's own postings. *)
From stdpp Require Import base gmap strings list sorting.
From Stdlib Require Import ZArith Lia.
From S2P Require Import Prelude GoStrings Float64 Sha256 Scheduler Protocol Requests Database Registration Ledger LedgerTheory JobStore OperatorStore OperatorReports StoreRuns JobTheory RegistrationTheory OperatorTheory.

(** ** Regions *)

Definition online_in (db : DB) (cutoff : Z) (r : string) (k : string) (n : NodeRow) : bool :=
  node_online db cutoff k && bool_decide (node_region db n = Some r).

Lemma online_regions_count db cutoff r :
  Z.of_nat (length (filter (λ r', r' = r) (online_regions db cutoff))) = count_rows (online_in db cutoff r) (db_nodes db).
Proof.
  unfold online_regions, count_rows, rows_where, online_in. f_equal.
  induction (map_to_list (db_nodes db)) as [|[k n] l IH]; [done|]. csimpl. rewrite (filter_cons _ (k, n)).
  case_decide as Hd; simpl in Hd; rewrite andb_true_iff, bool_decide_eq_true in Hd.
  - destruct Hd as [-> ->]. rewrite filter_cons, decide_True by done. simpl. by rewrite IH.
  - destruct (node_online db cutoff k); [|done]. destruct (node_region db n) as [r'|]; [|done].
    rewrite filter_cons, decide_False by naive_solver. done.
Qed.

Lemma elem_of_sort l r : r ∈ sort_strings l ↔ r ∈ l.
Proof. apply elem_of_stable_sort. Qed.

Lemma sum_counts_le (l : list string) (rs : list string) :
  NoDup rs → sum_list (λ r, Z.of_nat (length (filter (λ r', r' = r) l))) rs ≤ Z.of_nat (length l).
Proof.
  revert rs. induction l as [|x l IH]; intros rs Hnd.
  - induction rs as [|r rs IHr]; [done|]. rewrite sum_list_cons. apply NoDup_cons in Hnd as [_ Hnd]. specialize (IHr Hnd).
    simpl in *. lia.
  - assert (Hx : sum_list (λ r, if decide (x = r) then 1 else 0) rs ≤ 1).
    { clear IH. induction Hnd as [|r rs Hr Hnd IHr]; [done|]. rewrite sum_list_cons. destruct (decide (x = r)) as [<-|]; [|lia].
      rewrite (sum_list_ext _ (λ _, 0)).
      - assert (H0 : sum_list (λ _ : string, 0) rs = 0) by (clear; induction rs as [|? ? IH]; [done|]; rewrite sum_list_cons; lia). lia.
      - intros y Hy. rewrite decide_False; [done|]. by intros ->. }
    assert (Hs : sum_list (λ r, Z.of_nat (length (filter (λ r', r' = r) (x :: l)))) rs =
      sum_list (λ r, if decide (x = r) then 1 else 0) rs + sum_list (λ r, Z.of_nat (length (filter (λ r', r' = r) l))) rs).
    { clear. induction rs as [|r rs IHr]; [done|]. rewrite !sum_list_cons, IHr. rewrite filter_cons.
      destruct (decide (x = r)); simpl; lia. }
    specialize (IH rs Hnd). rewrite Hs. simpl length. lia.
Qed.

Lemma online_regions_length db cutoff : Z.of_nat (length (online_regions db cutoff)) ≤ count_rows (λ k _, node_online db cutoff k) (db_nodes db).
Proof.
  unfold online_regions, count_rows, rows_where. apply inj_le.
  induction (map_to_list (db_nodes db)) as [|[k n] l IH]; [done|]. csimpl. rewrite (filter_cons _ (k, n)).
  case_decide as Hd; simpl in Hd; destruct (node_online db cutoff k); try done. simpl.
  destruct (node_region db n); simpl; lia.
Qed.

(** The public map and the list of regions cannot disagree: they name the same regions in
    the same order; the map counts, for each, exactly the online nodes of that region (at
    least one); and together it counts no more nodes than are reported online. *)
Theorem map_agrees_with_regions stale now db :
  let cutoff := now - staleAfter stale in
  rn_Region <$> regionNodeCounts stale now db = regionsOnline stale now db ∧
  (∀ c, c ∈ regionNodeCounts stale now db →
     rn_NodeCount c = count_rows (online_in db cutoff (rn_Region c)) (db_nodes db) ∧ 0 < rn_NodeCount c) ∧
  sum_list rn_NodeCount (regionNodeCounts stale now db) ≤ onlineNodeCount stale now db.
Proof.
  intros cutoff. unfold regionNodeCounts, regionsOnline, onlineNodeCount. fold cutoff. split_and!.
  - rewrite <-list_fmap_compose. apply list_fmap_id.
  - intros c (r & -> & Hr)%list_elem_of_fmap. simpl. split; [apply online_regions_count|].
    rewrite elem_of_sort, elem_of_remove_dups in Hr.
    assert (Hin : r ∈ filter (λ r', r' = r) (online_regions db cutoff)) by (by apply list_elem_of_filter).
    destruct (filter _ _); [set_solver|simpl; lia].
  - rewrite sum_list_map. simpl. etransitivity; [apply sum_counts_le|apply online_regions_length].
    unfold sort_strings. rewrite stable_sort_perm. apply NoDup_remove_dups.
Qed.

(** ** Capacity *)

(** The first of the newest rows, computed from the tail. *)
Lemma latest_cons {V} (col : V → Z) x rows :
  latest col (x :: rows) = Some (match latest col rows with
                                 | Some y => if desc col y x then y else x
                                 | None => x
                                 end).
Proof. unfold latest, order_by. simpl. destruct (stable_sort (desc col) rows) as [|y l]; simpl; [done|]. by case_match. Qed.

(** The newest row is still the newest among the rows of a kind it is of. *)
Lemma latest_filter {V} (col : V → Z) (P : string * V → Prop) `{∀ kv, Decision (P kv)} rows kv :
  latest col rows = Some kv → P kv → latest col (filter P rows) = Some kv.
Proof.
  revert kv. induction rows as [|x rows IH]; intros kv Hl Hp; [done|].
  assert (Hin : x :: rows ≠ []) by done. rewrite latest_cons in Hl. simplify_eq.
  destruct (latest col rows) as [y|] eqn:E.
  - unfold desc in *. destruct (Z.ltb_spec (col x.2) (col y.2)) as [Hlt|Hge].
    + rewrite filter_cons. specialize (IH y eq_refl Hp). case_decide; [|done]. rewrite latest_cons, IH. unfold desc.
      by rewrite (proj2 (Z.ltb_lt _ _) Hlt).
    + rewrite filter_cons, decide_True by done. rewrite latest_cons. f_equal.
      destruct (latest col (filter P rows)) as [z|] eqn:Ez; [|done]. apply latest_elem, list_elem_of_filter in Ez as [_ Hz].
      pose proof (latest_max _ _ _ _ E Hz). unfold desc. destruct (Z.ltb_spec (col x.2) (col z.2)); [lia|done].
  - destruct rows as [|r rows]; [|by rewrite latest_cons in E]. rewrite filter_cons, decide_True by done. done.
Qed.

(** A connected session that is the newest open one is the newest connected one. *)
Lemma open_session_connected db k s :
  open_session db k = Some s → ss_state s.2 = SsConnected → node_session db k = Some s.
Proof.
  unfold open_session, node_session. intros H Hs.
  apply (latest_filter _ (λ kv, ss_state kv.2 = SsConnected)) in H; [|done]. rewrite <-H. f_equal.
  unfold rows_where. rewrite list_filter_filter. apply list_filter_iff. intros [k' s']. simpl. unfold session_open.
  rewrite !andb_true_iff, !bool_decide_eq_true. split; [intros [? Hc]; rewrite Hc; set_solver|naive_solver].
Qed.

(** A row of the public query that is marked free gives the scheduler a candidate. *)
Lemma capacity_row_candidate db m cut file kn r :
  file ∈ model_files db m → capacity_row db m cut file kn = Some (r, true) →
  (1 ≤ length (node_candidates db m cut kn))%nat.
Proof.
  destruct kn as [k n]. unfold capacity_row. intros Hf H.
  apply bind_Some in H as (s & Hs & H). apply bind_Some in H as (h & Hh & H).
  case_match eqn:Ec; [|done]. injection H as _ He.
  rewrite !andb_true_iff, !bool_decide_eq_true, Z.leb_le in Ec. destruct Ec as [[Hm Hfr] Hv].
  rewrite !andb_true_iff, !bool_decide_eq_true, String.eqb_eq, negb_true_iff in He.
  destruct He as (((((Hst & Hco) & Hq) & Hr) & _) & Hb).
  apply open_session_connected in Hs; [|done].
  assert (Hready : ready_node db m cut k n = Some (s.1, h)).
  { unfold ready_node. rewrite Hs. simpl. rewrite Hh. simpl.
    rewrite Hst, Hr, Hb, (bool_decide_true _ Hm), (bool_decide_true _ Hq), (proj2 (Z.leb_le _ _) Hfr). done. }
  unfold node_candidates. simpl. rewrite Hready. rewrite length_fmap. unfold serves_version in Hv.
  match goal with |- (_ ≤ length (filter ?P _))%nat => assert (Hin : file ∈ filter P (model_files db m)) end.
  { apply list_elem_of_filter. split; [exact Hv|done]. }
  destruct (filter _ (model_files db m)); [set_solver|simpl; lia].
Qed.

(** Advertised capacity is real: the number of nodes the public page calls available for
    a model is never more than the number of candidates the scheduler would be offered for
    that model at the same freshness cutoff; so a model shown as available can be
    scheduled. *)
Theorem advertised_capacity_schedulable m cut db :
  pc_availableNodes (publicModelCapacity_ m cut db) ≤ Z.of_nat (length (eligible_nodes db m cut)) ∧
  (capacity_state (publicModelCapacity_ m cut db) = AvailabilityAvailable → eligible_nodes db m cut ≠ []).
Proof.
  assert (Hle : pc_availableNodes (publicModelCapacity_ m cut db) ≤ Z.of_nat (length (eligible_nodes db m cut))).
  { unfold publicModelCapacity_, capacity_rows, eligible_nodes. simpl. apply inj_le.
    destruct (latest _ (model_files db m)) as [file|] eqn:E; [|simpl; lia]. apply latest_elem in E.
    unfold order_by. rewrite (stable_sort_perm by_key).
    induction (map_to_list (db_nodes db)) as [|kn l IH]; [done|]. csimpl. rewrite length_app.
    destruct (capacity_row db m cut file kn) as [[r b]|] eqn:Er; [|lia]. rewrite filter_cons. simpl.
    case_decide as Hb; simpl; [|lia]. subst. apply capacity_row_candidate in Er; [lia|done]. }
  split; [exact Hle|]. intros Hs Hnil. rewrite Hnil in Hle. cbn [length Z.of_nat] in Hle. unfold capacity_state in Hs.
  destruct (Z.ltb_spec 0 (pc_availableNodes (publicModelCapacity_ m cut db))); [lia|]. by case_match.
Qed.

(** ** Alerts *)

Lemma ledger_imbalances_zero db : posted_balanced db → ledger_imbalances db = 0.
Proof.
  intros Hb. unfold ledger_imbalances, count_rows. destruct (rows_where _ _) as [|[k lt] l] eqn:E; [done|exfalso].
  assert (Hin : (k, lt) ∈ rows_where (λ k lt, bool_decide (lt_status lt = LtPosted) && negb (tx_balance db k =? 0))
    (db_ledger_transactions db)) by (rewrite E; constructor).
  apply elem_of_rows_where in Hin as [Hk Hc]. rewrite andb_true_iff, bool_decide_eq_true, negb_true_iff, Z.eqb_neq in Hc.
  by destruct Hc as [Hp []]; apply (Hb k lt).
Qed.

Lemma BuildAlerts_no_imbalance counts cfg now a :
  co_LedgerImbalances counts ≤ 0 → a ∈ BuildAlerts counts cfg now → alr_Code a ≠ "ledger_imbalance".
Proof.
  intros Hc Hin. unfold BuildAlerts in Hin. rewrite !elem_of_app in Hin. unfold alert_if in Hin.
  rewrite (proj2 (Z.ltb_ge 0 (co_LedgerImbalances counts)) Hc) in Hin.
  repeat match goal with
  | H : _ ∨ _ |- _ => destruct H as [H|H]
  | H : _ ∈ (if ?b then _ else _) |- _ => destruct b
  | H : _ ∈ [_] |- _ => apply list_elem_of_singleton in H as ->
  | H : _ ∈ [] |- _ => by apply not_elem_of_nil in H
  | H : _ ∈ _ <$> _ |- _ => apply list_elem_of_fmap in H as (? & -> & _)
  end; done.
Qed.

(** The ledger alert means an outside change: in any database reached from consistent
    books by operations of the program, whatever the configuration, the list of alerts
    never contains a ledger imbalance. *)
Theorem no_imbalance_alert ops db stale cfg alerts d a :
  consistent db → AlertsList stale cfg (run_ops ops db) = (Ok alerts, d) → a ∈ alerts →
  alr_Code a ≠ "ledger_imbalance".
Proof.
  intros Hc H Ha. assert (Hb : posted_balanced (run_ops ops db)).
  { apply (si_run_ops consistent ops) in Hc as [[_ Hb _ _ _] _]. exact Hb. }
  unfold AlertsList in H. apply bind_ok in H as (now & d1 & Hn & H). unfold sql_now in Hn. apply gets_ok in Hn as [-> ->].
  apply bind_ok in H as (d2 & d3 & [-> ->]%gets_ok & H). apply bind_ok in H as (nc & d4 & _ & H).
  apply ret_ok in H as [-> _]. eapply BuildAlerts_no_imbalance; [|exact Ha]. simpl.
  unfold id. rewrite ledger_imbalances_zero by done. destruct (al_LedgerImbalanceCheck cfg || _); lia.
Qed.
