(* ===== verification/OperatorExamples.v ===== *)
(** * The operator at work

    The marketplace of [JobExamples] under an operator: a node drained, paused and
    quarantined, a job cancelled and retried, the waitlist, and the reports. *)
From stdpp Require Import base gmap strings list.
From Stdlib Require Import ZArith Lia.
From S2P Require Import Prelude GoStrings Scheduler Protocol Requests Database Registration Ledger LedgerTheory LedgerExamples JobStore OperatorStore OperatorReports StoreRuns JobTheory JobExamples RegistrationTheory RegistrationExamples OperatorTheory ReportTheory.

(** What happens to the node afterwards: a heartbeat on its session, then a new session
    and a heartbeat on that. *)
Definition later_ops : list store_op :=
  [OpRecordHeartbeat "sess_c" (sample_report "AVAILABLE") (4 * second);
   OpOpenSession "node_c" "1" "" (5 * second)].

Lemma quarantine_ok : ∃ db', QuarantineNode "node_c" "hashes" (3 * second) market_db = (Ok tt, db').
Proof.
  destruct (run_ok (QuarantineNode "node_c" "hashes" (3 * second)) market_db) as ([] & db' & H); [vm_compute; reflexivity|].
  by exists db'.
Qed.

Lemma operator_quarantine_final_witness :
  NodeID <$> eligible_nodes market_db "llama" second = ["node_c"] ∧
  ∃ db', QuarantineNode "node_c" "hashes" (3 * second) market_db = (Ok tt, db') ∧
    ∀ c, c ∈ eligible_nodes (run_ops later_ops db') "llama" second → NodeID c ≠ "node_c".
Proof.
  split; [vm_compute; reflexivity|]. destruct quarantine_ok as (db' & H). exists db'. split; [exact H|]. intros c.
  apply (operator_quarantine_final "node_c" "hashes" (3 * second) market_db db' later_ops "llama" second c H).
  exists (sample_node "org_1"). vm_compute. reflexivity.
Defined.

Lemma market_one_connection : one_connection "node_c" market_db.
Proof.
  assert (Hss : db_node_sessions market_db = {[ "sess_c" := sample_session "node_c" ]}) by reflexivity.
  intros k1 k2 s1 s2. rewrite Hss. by intros [<- _]%lookup_singleton_Some [<- _]%lookup_singleton_Some.
Qed.

Lemma drain_ok : ∃ db', DrainNode "node_c" "" (3 * second) market_db = (Ok tt, db').
Proof.
  destruct (run_ok (DrainNode "node_c" "" (3 * second)) market_db) as ([] & db' & H); [vm_compute; reflexivity|].
  by exists db'.
Qed.

(** The drained node reports itself available on the old session, reconnects, and reports
    on the new session. *)
Lemma drained_needs_new_session_witness :
  ∃ db', DrainNode "node_c" "" (3 * second) market_db = (Ok tt, db') ∧
    ∀ c, c ∈ eligible_nodes (run_ops later_ops db') "llama" second → NodeID c = "node_c" →
      db_node_sessions db' !! SessionID c = None.
Proof.
  destruct drain_ok as (db' & H). exists db'. split; [exact H|]. intros c.
  apply (drained_needs_new_session "node_c" "" (3 * second) market_db db' later_ops "llama" second c H
           market_one_connection).
Defined.

Definition drained_db : DB := (DrainNode "node_c" "" (3 * second) market_db).2.
Example drained_runs :
  eligible_nodes (run_ops [OpRecordHeartbeat "sess_c" (sample_report "AVAILABLE") (4 * second)] drained_db) "llama" second = [] ∧
  NodeID <$> eligible_nodes (run_ops [OpOpenSession "node_c" "1" "" (5 * second);
     OpRecordHeartbeat (from_option fst "" (node_session (run_ops [OpOpenSession "node_c" "1" "" (5 * second)] drained_db) "node_c"))
       (sample_report "AVAILABLE") (6 * second)] drained_db) "llama" second = ["node_c"].
Proof. split; vm_compute; reflexivity. Qed.

Lemma pause_until_heartbeat_witness :
  ∃ db1 db2, PauseNode "node_c" "" (3 * second) market_db = (Ok tt, db1) ∧
    (∀ c, c ∈ eligible_nodes db1 "llama" second → NodeID c ≠ "node_c") ∧
    RecordHeartbeat "sess_c" (sample_report "AVAILABLE") (4 * second) db1 = (Ok tt, db2) ∧
    NodeID <$> eligible_nodes (run_ops [OpRecordHeartbeat "sess_c" (sample_report "AVAILABLE") (4 * second)]
                                 (PauseNode "node_c" "" (3 * second) market_db).2) "llama" second = ["node_c"] ∧
    ∀ row, db_nodes db2 !! "node_c" = Some row → n_state row = "AVAILABLE".
Proof.
  destruct (run_ok (PauseNode "node_c" "" (3 * second)) market_db) as ([] & db1 & H1); [vm_compute; reflexivity|].
  assert (Hd : db1 = (PauseNode "node_c" "" (3 * second) market_db).2) by (rewrite H1; reflexivity).
  destruct (run_ok (RecordHeartbeat "sess_c" (sample_report "AVAILABLE") (4 * second)) db1) as ([] & db2 & H2).
  { rewrite Hd. vm_compute. reflexivity. }
  exists db1, db2. split; [exact H1|].
  destruct (pause_until_heartbeat "node_c" "" (3 * second) market_db db1 H1) as [Hp Hh].
  split; [apply Hp|]. split; [exact H2|]. split; [vm_compute; reflexivity|]. intros row Hrow.
  exact (Hh "sess_c" (sample_report "AVAILABLE") (4 * second) db2 row H2 eq_refl Hrow).
Defined.

Lemma cancel_ok : ∃ db', op_CancelJob "job_1" "abuse" (2 * second) market_db = (Ok tt, db').
Proof.
  destruct (run_ok (op_CancelJob "job_1" "abuse" (2 * second)) market_db) as ([] & db' & H); [vm_compute; reflexivity|].
  by exists db'.
Qed.

(** The job is cancelled while [node_a] works on it, then retried; the late result is
    refused. *)
Lemma operator_cancel_stops_witness :
  ∃ db', op_CancelJob "job_1" "abuse" (2 * second) market_db = (Ok tt, db') ∧
    db_jobs db' !! "job_1" = Some (cancelled_job (2 * second) sample_job) ∧
    ∃ e ent, CompleteJob (sample_payload "job_1" "att_1") (3 * second) hour MsAccepted
        (run_ops [OpOperator (OoRetryJob "job_1" "" (3 * second))] db') =
      (Err e, run_ops [OpOperator (OoRetryJob "job_1" "" (3 * second))] db' <| db_entropy := ent |>).
Proof.
  destruct cancel_ok as (db' & H). exists db'. split; [exact H|].
  destruct (operator_cancel_stops "job_1" "abuse" (2 * second) market_db db'
              [OpOperator (OoRetryJob "job_1" "" (3 * second))] (sample_payload "job_1" "att_1") (3 * second) hour
              MsAccepted H eq_refl) as (_ & Hj & Hc).
  split; [apply (Hj sample_job); vm_compute; reflexivity|]. apply Hc.
  assert (Hd : db' = (op_CancelJob "job_1" "abuse" (2 * second) market_db).2) by (rewrite H; reflexivity).
  rewrite Hd. apply (bool_decide_unpack _). vm_compute. exact I.
Defined.

Lemma operator_retry_spec_witness :
  ∃ db', RetryJob "job_1" "" (3 * second) (run_ops [OpFailJob "job_1" "att_1" "job_failed" false (2 * second)] market_db) = (Ok tt, db') ∧
    ∃ job, db_jobs db' !! "job_1" = Some job ∧ j_state job = JQueued ∧ j_completed_at job = None.
Proof.
  set (d := run_ops [OpFailJob "job_1" "att_1" "job_failed" false (2 * second)] market_db).
  destruct (run_ok (RetryJob "job_1" "" (3 * second)) d) as ([] & db' & H); [vm_compute; reflexivity|].
  exists db'. split; [exact H|].
  destruct (operator_retry_spec "job_1" "" (3 * second) d db' H) as (_ & _ & Hj).
  assert (Hd : ∃ job, db_jobs d !! "job_1" = Some job ∧ j_state job = JFailed).
  { exists (sample_job <| j_state := JFailed |> <| j_updated_at := 2 * second |> <| j_completed_at := Some (2 * second) |>).
    split; vm_compute; reflexivity. }
  destruct Hd as (job & Hjob & Hs). eexists. split; [exact (Hj "job_1" job Hjob)|].
  rewrite bool_decide_true by (by left). split; reflexivity.
Defined.

Lemma operator_log_append_only_witness :
  ∃ k row, db_operator_actions (run_ops later_ops (DrainNode "node_c" "" (3 * second) market_db).2) !! k = Some row ∧
    oc_action row = "node.drain".
Proof.
  destruct (map_to_list (db_operator_actions (DrainNode "node_c" "" (3 * second) market_db).2)) as [|[k row] l] eqn:E.
  { exfalso. vm_compute in E. discriminate E. }
  exists k, row. split.
  - apply (operator_log_append_only later_ops (DrainNode "node_c" "" (3 * second) market_db).2 k row).
    apply elem_of_map_to_list. rewrite E. constructor.
  - vm_compute in E. injection E as _ <- _. reflexivity.
Defined.

Lemma region_normal_form_witness :
  NormalizeRegion id "  EU-West-1 " = Ok "eu-west-1" ∧ NormalizeRegion id "eu-west-1" = Ok "eu-west-1".
Proof.
  split; [vm_compute; reflexivity|].
  apply (region_normal_form id id "  EU-West-1 " "eu-west-1"). vm_compute. reflexivity.
Defined.

Lemma schema_clock_validated_witness : validateClock "23:59" = Ok tt.
Proof. apply (schema_clock_validated "23:59"). vm_compute. reflexivity. Defined.

Definition application (use_case : string) : WaitlistApplication := {|
  wa_Email := " Ada@Example.org "; wa_Name := "Ada"; wa_UseCase := use_case; wa_ExpectedVolume := "1m_10m";
  wa_DataAck := true; wa_ModelID := ""; wa_Source := "" |}.

(** The same person applies twice: one row, created at the first application. *)
Lemma waitlist_upsert_witness :
  ∃ s db', SubmitWaitlistApplication id (application "better") (9 * second)
             (SubmitWaitlistApplication id (application "first") (5 * second) market_db).2 = (Ok (s, false), db') ∧
    one_application db' ∧ ws_UseCase s = "better" ∧ ws_LastAppliedAt s = 9 * second.
Proof.
  set (d := (SubmitWaitlistApplication id (application "first") (5 * second) market_db).2).
  assert (Hnone : one_application market_db) by (intros k1 k2 r1 r2 H; vm_compute in H; discriminate H).
  assert (H1 : ∃ s1, SubmitWaitlistApplication id (application "first") (5 * second) market_db = (Ok (s1, true), d)).
  { destruct (run_ok (SubmitWaitlistApplication id (application "first") (5 * second)) market_db) as ([s1 b] & d1 & H);
      [vm_compute; reflexivity|]. exists s1. unfold d. rewrite H. f_equal. f_equal.
    assert (Hb : (SubmitWaitlistApplication id (application "first") (5 * second) market_db).1 = Ok (s1, b)) by (rewrite H; reflexivity).
    vm_compute in Hb. injection Hb as _ <-. reflexivity. }
  destruct H1 as [s1 H1].
  destruct (waitlist_upsert id (application "first") (5 * second) market_db s1 true d Hnone H1) as [Hd _].
  destruct (run_ok (SubmitWaitlistApplication id (application "better") (9 * second)) d) as ([s b] & db' & H);
    [vm_compute; reflexivity|].
  assert (Hb : b = false).
  { assert (Hb : (SubmitWaitlistApplication id (application "better") (9 * second) d).1 = Ok (s, b)) by (rewrite H; reflexivity).
    vm_compute in Hb. injection Hb as _ <-. reflexivity. }
  subst b. exists s, db'. split; [exact H|].
  destruct (waitlist_upsert id (application "better") (9 * second) d s false db' Hd H)
    as (Hone & r & _ & Hs & _ & _ & Hu & _ & Hl & _).
  split; [exact Hone|]. rewrite Hs. simpl. rewrite Hu, Hl. split; reflexivity.
Defined.

Definition no_alerts : AlertConfig := {|
  al_DisconnectSpikeWindow := 0; al_DisconnectSpikeThreshold := 0; al_JobFailureWindow := 0;
  al_JobFailureRateThreshold := fzero; al_RuntimeCrashWindow := 0; al_RuntimeCrashThreshold := 0;
  al_OverTempWindow := 0; al_NoCapacityWindow := 0; al_AuthAnomalyWindow := 0; al_AuthAnomalyThreshold := 0;
  al_LedgerImbalanceCheck := false; al_NoCapacityForModelEnabled := false |}.

(** A job has failed: the alerts are its failure rate and the model without capacity. *)
Lemma no_imbalance_alert_witness :
  ∃ alerts d, AlertsList 0 no_alerts (run_ops sample_ops market_db) = (Ok alerts, d) ∧ alerts ≠ [] ∧
    ∀ a, a ∈ alerts → alr_Code a ≠ "ledger_imbalance".
Proof.
  destruct (run_ok (AlertsList 0 no_alerts) (run_ops sample_ops market_db)) as (alerts & d & H); [vm_compute; reflexivity|].
  exists alerts, d. split; [exact H|]. split.
  - assert (Ha : (AlertsList 0 no_alerts (run_ops sample_ops market_db)).1 = Ok alerts) by (rewrite H; reflexivity).
    vm_compute in Ha. injection Ha as <-. discriminate.
  - intros a Ha. exact (no_imbalance_alert sample_ops market_db 0 no_alerts alerts d a market_consistent H Ha).
Defined.

(** The public page of the marketplace. *)
Example public_page :
  publicModelCapacity_ "llama" second market_db = {| pc_availableNodes := 1; pc_freshNodes := 1; pc_regions := [] |} ∧
  onlineNodeCount 0 (10 * second) market_db = 1 ∧ HostHandle "node_c" = "copper-raven".
Proof. split_and!; vm_compute; reflexivity. Qed.
