(* ===== verification/HttpApi.v ===== *)
(** * The HTTP API of the coordinator: nodes and customers

    [internal/coordinator/httpapi] ([health.go], [public.go]): who may call which route, the
    handlers of customers and nodes over the stores and the job service, and the session of
    a node. A handler runs until it has written its response ([Respond]); the completion
    handler, which waits for the service in between, is the two halves [chat_submit] and
    [chat_finish], so that other requests run between them. A session is its opening, one
    step per message, and its end.

    The routing of [net/http], the decoders and encoders of [encoding/json], the schema
    validator and the web socket are parameters: a decoder is a field of [Decoders], a message
    on the socket is what the validator made of it. *)
From stdpp Require Import base gmap strings list.
From Stdlib Require Import ZArith Lia.
From S2P Require Import Prelude GoStrings Float64 Sha256 Encoding NodeState Schedule Scheduler Protocol Agent NodeAuth Requests Database Registration Ledger LedgerTheory JobStore OperatorStore OperatorReports StoreRuns JobService.

(** ** Requests and responses *)

(** A request body as it is read: the bytes that arrive, and whether reading then fails. *)
Record BodyStream := { bs_data : string; bs_broken : bool }.

(** [r.Header.Get], [r.PathValue] and [r.URL.Query().Get] give the empty string for what is
    absent; [hq_HasBody] is [r.Body != nil && r.ContentLength != 0]. *)
Record Request := {
  hq_Header : string → string;
  hq_PathValue : string → string;
  hq_Query : string → string;
  hq_Body : BodyStream;
  hq_HasBody : bool;
  hq_RemoteAddr : string
}.

(** What [writeJSON] is given, or the text of a CSV file; an exported payout batch is also
    named in the headers. *)
Inductive Body :=
  | ErrorText (message : string)
  | ErrorObject (code message : string) (retryable : bool) (requestID : string)
  | RawJSON (json : string)
  | Completion (response : OpenAIResponse)
  | JobBody (status : JobStatus)
  | ModelsBody (models : list ModelInfo)
  | Fields (fields : list (string * string))
  | CountBody (name : string) (count : Z)
  | InviteBody (invite : InviteToken)
  | RegisteredBody (registered : RegisterResult)
  | TokenBody (accessToken : string) (expiresAt : Z)
  | NodesBody (nodes : list NodeSummary)
  | ConsoleNodesBody (nodes : list ConsoleNode)
  | ConsoleNodeBody (node : ConsoleNode)
  | OverviewBody (overview : Overview)
  | AlertsBody (alerts : list Alert)
  | ModelSummariesBody (models : list ModelSummary)
  | JobsBody (jobs : list JobSummary)
  | JobDetailBody (detail : JobDetail)
  | LedgerBody (ledger : LedgerOverview)
  | BatchBody (batch : PayoutBatch)
  | AuditBody (audit : AuditLog)
  | FleetBody (fleet : Fleet)
  | SignupsBody (signups : list WaitlistSignup)
  | StatusBody (status : PublicStatus) (requesterRegion : option string)
  | CardBody (card : ContributionCard)
  | CSVBody (text : string) (batch : option PayoutBatch).

Record Response := { rs_status : Z; rs_body : Body }.

(** ** The server *)

(** [waitlistRateLimiter] and [publicStatusCache] of the mux. *)
Record waitlistRateLimiter := { wl_limit : Z; wl_window : Z; wl_hits : gmap string (list Z) }.
#[export] Instance waitlistRateLimiter_eta : Eta waitlistRateLimiter := λ r,
  {| wl_limit := wl_limit r; wl_window := wl_window r; wl_hits := wl_hits r |}.

Record publicStatusCache := { pc_expiresAt : Z; pc_status : option PublicStatus }.

Record Server := {
  srv_service : Service;
  srv_limiter : RateLimiter;
  srv_waitlist : waitlistRateLimiter;
  srv_cache : publicStatusCache
}.
#[export] Instance Server_eta : Eta Server := λ r,
  {| srv_service := srv_service r; srv_limiter := srv_limiter r; srv_waitlist := srv_waitlist r;
     srv_cache := srv_cache r |}.

(** The settings of the operator store. *)
Record OperatorSettings := { os_StaleAfter : Z; os_Alerts : AlertConfig }.

(** [Options]: which parts are configured, and the settings the handlers read. *)
Record ApiOptions := {
  ao_Registration : RegistrationConfig;
  ao_SessionStore : bool;
  ao_TokenSigner : TokenSigner;
  ao_JobService : option Config;
  ao_OperatorStore : option OperatorSettings;
  ao_OperatorToken : string;
  ao_HeartbeatInterval : Z;
  ao_StatusCacheTTL : Z;
  ao_RequesterRegionHeader : string;
  ao_WaitlistLimitPerMinute : Z
}.
#[export] Instance ApiOptions_eta : Eta ApiOptions := λ r,
  {| ao_Registration := ao_Registration r; ao_SessionStore := ao_SessionStore r; ao_TokenSigner := ao_TokenSigner r;
     ao_JobService := ao_JobService r; ao_OperatorStore := ao_OperatorStore r; ao_OperatorToken := ao_OperatorToken r;
     ao_HeartbeatInterval := ao_HeartbeatInterval r; ao_StatusCacheTTL := ao_StatusCacheTTL r;
     ao_RequesterRegionHeader := ao_RequesterRegionHeader r;
     ao_WaitlistLimitPerMinute := ao_WaitlistLimitPerMinute r |}.

(** The settings [NewMuxWithOptions] fills in. *)
Definition resolve_api_options (o : ApiOptions) : ApiOptions :=
  o <| ao_HeartbeatInterval ::= (λ d, default_pos d (15 * second)) |>
    <| ao_TokenSigner ::= (λ t, {| ts_Secret := ts_Secret t; ts_TTL := default_pos (ts_TTL t) (60 * minute) |}) |>
    <| ao_StatusCacheTTL ::= (λ d, default_pos d (10 * second)) |>
    <| ao_RequesterRegionHeader ::= (λ h, or_text h "X-Geo-Region") |>
    <| ao_WaitlistLimitPerMinute ::= (λ n, default_pos n 5) |>.

Definition newWaitlistRateLimiter (limit window : Z) : waitlistRateLimiter := {|
  wl_limit := default_pos limit 5; wl_window := default_pos window minute; wl_hits := ∅ |}.

(** The state of a new mux; the customers' limiter is the job service's, or sixty a minute. *)
Definition new_server (o : ApiOptions) (service : Service) (limiter : option RateLimiter) : Server := {|
  srv_service := service;
  srv_limiter := default {| LimitPerMinute := 60; buckets := ∅ |} limiter;
  srv_waitlist := newWaitlistRateLimiter (ao_WaitlistLimitPerMinute o) minute;
  srv_cache := {| pc_expiresAt := zero_time; pc_status := None |} |}.

(** ** Handlers *)

(** A handler goes on with a value, or has written its response and returned. *)
Inductive outcome (A : Type) := Continue (a : A) | Respond (r : Response).
Arguments Continue {A} a.
Arguments Respond {A} r.

Definition Handler (A : Type) : Type := Server → outcome A * Server.

#[export] Instance Handler_ret : MRet Handler := λ A a s, (Continue a, s).
#[export] Instance Handler_bind : MBind Handler := λ A B f m s,
  match m s with
  | (Continue a, s') => f a s'
  | (Respond r, s') => (Respond r, s')
  end.

(** [writeJSON(w, status, body); return]. *)
Definition respond {A} (status : Z) (body : Body) : Handler A := λ s,
  (Respond {| rs_status := status; rs_body := body |}, s).
Definition writeError {A} (status : Z) (message : string) : Handler A := respond status (ErrorText message).

(** A call of the job service or of a store, with its error as a value. *)
Definition on_service {A} (m : St Service A) : Handler (result A) := λ s,
  let '(r, sv) := m (srv_service s) in (Continue r, s <| srv_service := sv |>).
Definition on_db {A} (m : St DB A) : Handler (result A) := on_service (on_store m).
Definition server_now : Handler Z := λ s, (Continue (sv_now (srv_service s)), s).

(** [if err != nil { ...; return }] with the response for the error. *)
Definition or_respond {A} (r : result A) (k : gerror → Handler A) : Handler A :=
  match r with Ok a => mret a | Err e => k e end.

Definition newRequestID : Handler string := λ s,
  let '(r, db) := ids_New "req" (sv_db (srv_service s)) in
  (Continue (match r with Ok id => id | Err _ => "req_00000000000000000000000000" end),
   s <| srv_service ::= λ sv, sv <| sv_db := db |> |>).

Definition writeAPIError {A} (e : APIError) (requestID : string) : Handler A :=
  requestID ← (if String.eqb requestID "" then newRequestID else mret requestID);
  respond (if ae_Status e =? 0 then 400 else ae_Status e)
    (ErrorObject (ae_Code e) (ae_Message e) (ae_Retryable e) requestID).

(** [errors.As(err, &apiErr)]. *)
Definition as_api (e : gerror) : option APIError :=
  match root_cause e with
  | ErrApi code msg retryable status =>
      Some {| ae_Code := code; ae_Message := msg; ae_Retryable := retryable; ae_Status := status |}
  | _ => None
  end.

Definition CodeInternalError := "internal_error".
Definition CodeQuotaExceeded := "quota_exceeded".
Definition internal (message : string) : APIError := {|
  ae_Code := CodeInternalError; ae_Message := message; ae_Retryable := true; ae_Status := 500 |}.

Definition writeErr {A} (e : gerror) (requestID : string) : Handler A :=
  writeAPIError (default (internal "Internal server error.") (as_api e)) requestID.

(** [if apiErr.Code != "" { o.writeAPIError(w, apiErr, requestID); return }]. *)
Definition api_guard {A} (requestID : string) (r : result A) : Handler A :=
  or_respond r (λ e, writeErr e requestID).

Definition firstNonEmpty (values : list string) : string :=
  default "" (head (filter (λ v, negb (String.eqb v "")) (trim_space <$> values))).

Definition bearerToken (r : Request) : string :=
  let header := hq_Header r "Authorization" in
  if has_prefix header "Bearer " then trim_space (trim_prefix header "Bearer ") else "".

Definition ErrRepositoryMissing : gerror := ErrMsg "registration repository is not configured".

Definition statusForError (e : gerror) : Z :=
  let matches x := bool_decide (root_cause e = x) in
  if matches ErrInvalidInvite || matches ErrInvalidBootstrap then 401
  else if matches ErrInviteUsed || matches ErrBootstrapUsed then 409
  else if matches ErrInviteExpired || matches ErrBootstrapExpired then 410
  else if matches ErrRepositoryMissing then 503
  else 400.

Definition heartbeatIntervalSeconds (interval : Z) : Z :=
  if interval <=? 0 then 15
  else let seconds := (interval + second - 1) / second in if seconds <? 1 then 1 else seconds.

(** [io.ReadAll(io.LimitReader(body, maxBytes+1))]: an error of the body shows only within
    the limit. *)
Definition readPublicBody (body : BodyStream) (maxBytes : Z) : result string :=
  let size := Z.of_nat (String.length (bs_data body)) in
  if maxBytes <? size
  then Err (ErrApi CodeInvalidRequest "Request body exceeds the public API byte limit." false 413)
  else if bs_broken body then Err (ErrApi CodeInvalidRequest "Could not read request body." false 400)
  else Ok (bs_data body).

(** ** Decoders *)

#[export] Instance ChatCompletionRequest_eta : Eta ChatCompletionRequest := λ r,
  {| cc_Model := cc_Model r; cc_Messages := cc_Messages r; cc_Temperature := cc_Temperature r;
     cc_MaxTokens := cc_MaxTokens r; cc_Stream := cc_Stream r; cc_Tools := cc_Tools r;
     cc_ToolChoice := cc_ToolChoice r |}.

Record AsyncJobRequest := {
  aj_Model : string; aj_Input : ChatCompletionRequest; aj_Priority : string; aj_DeadlineSeconds : Z;
  aj_Metadata : list (string * string)
}.
#[export] Instance AsyncJobRequest_eta : Eta AsyncJobRequest := λ r,
  {| aj_Model := aj_Model r; aj_Input := aj_Input r; aj_Priority := aj_Priority r;
     aj_DeadlineSeconds := aj_DeadlineSeconds r; aj_Metadata := aj_Metadata r |}.

Record FleetRequest := {
  fq_OrgID : string; fq_Name : string; fq_Region : string; fq_ScheduleFrom : string; fq_ScheduleUntil : string;
  fq_ScheduleTimezone : string
}.
Record RegionRequest := { gq_Region : string; gq_Reason : string }.
Record ApplicationRequest := {
  aq_Email : string; aq_Name : string; aq_UseCase : string; aq_ExpectedVolume : string; aq_DataAck : bool;
  aq_ModelID : string
}.

(** [json.NewDecoder(...).Decode] into the request type of each handler; [None] when it
    fails. For a chat completion also whether the body holds nothing else. *)
Record Decoders := {
  dec_org : BodyStream → option string;
  dec_api_key : BodyStream → option (string * string * list string);
  dec_invite : BodyStream → option (string * Z);
  dec_register : BodyStream → option RegisterRequest;
  dec_exchange : BodyStream → option (string * string);
  dec_refresh : BodyStream → option RefreshRequest;
  dec_chat : string → option (ChatCompletionRequest * bool);
  dec_async : string → option AsyncJobRequest;
  dec_reason : BodyStream → string;
  dec_payout : BodyStream → option string;
  dec_fleet : BodyStream → option FleetRequest;
  dec_region : BodyStream → option RegionRequest;
  dec_application : BodyStream → option ApplicationRequest
}.

(** [hello] and the messages after it, as the validator returns them: the type, and the
    payload when it decodes. *)
Inductive Envelope :=
  | EnvHello (protocolVersion : string) (nodeID : option string)
  | EnvHeartbeat (payload : option NodeHeartbeatPayload)
  | EnvStateChanged (payload : option NodeStateChangedPayload)
  | EnvSafetyEvent (payload : option NodeSafetyEventPayload)
  | EnvJob (payload : option Message)
  | EnvOther.

Definition chatCompletionsEndpoint := "/v1/chat/completions".

Section api.
Context (ed25519_Verify : list Z → list Z → list Z → bool).
Context (json_Marshal : JobCompletedPayload → result (list Z)).
Context (parse_rfc3339 : string → result Z).
Context (marshal_claims : Claims → list Z) (unmarshal_claims : list Z → result Claims).
Context (marshal_chat : ChatCompletionRequest → string) (marshal_async : AsyncJobRequest → string).
Context (marshal_response : OpenAIResponse → string).
Context (dec : Decoders).
Context (o : ApiOptions).

Definition DecodeChatCompletionRequest (body : string) : result ChatCompletionRequest :=
  match dec_chat dec body with
  | None => Err (ErrApi CodeInvalidRequest
      "Request body must be valid JSON using supported chat completion fields." false 400)
  | Some (req, alone) =>
      if alone then Ok req
      else Err (ErrApi CodeInvalidRequest "Request body must contain exactly one JSON object." false 400)
  end.

(** [if err := json.NewDecoder(r.Body).Decode(&req); err != nil]. *)
Definition decoded {A} (x : option A) : Handler A :=
  match x with Some a => mret a | None => writeError 400 "invalid JSON body" end.

(** ** Guards *)

Definition operatorOnly (next : Request → Handler unit) (r : Request) : Handler unit :=
  if String.eqb (ao_OperatorToken o) "" then writeError 401 "operator token is not configured"
  else if negb (String.eqb (bearerToken r) (ao_OperatorToken o)) then writeError 401 "invalid operator token"
  else next r.

(** [o.JobService == nil] for the routes of the operator. *)
Definition require_job_service : Handler Config :=
  match ao_JobService o with Some cfg => mret cfg | None => writeError 503 "job service is not configured" end.

Definition allow_key (keyID : string) : Handler bool := λ s,
  let '(ok, limiter) := Allow (srv_limiter s) keyID (sv_now (srv_service s)) in
  (Continue ok, s <| srv_limiter := limiter |>).

Definition developerOnly {A} (next : Config → Request → APIKeyPrincipal → Handler A) (r : Request) : Handler A :=
  match ao_JobService o with
  | None => writeAPIError {| ae_Code := CodeInternalError; ae_Message := "Job service is not configured.";
                             ae_Retryable := true; ae_Status := 503 |} ""
  | Some cfg =>
      let token := bearerToken r in
      if String.eqb token "" then
        requestID ← newRequestID;
        writeAPIError {| ae_Code := CodeUnauthorized; ae_Message := "Missing bearer token.";
                         ae_Retryable := false; ae_Status := 401 |} requestID
      else
        found ← on_db (APIKeyByHash (HashAPIKey token));
        principal ← or_respond found (λ e, requestID ← newRequestID; writeErr e requestID);
        allowed ← allow_key (pr_ID principal);
        if negb allowed then
          requestID ← newRequestID;
          writeAPIError {| ae_Code := CodeQuotaExceeded; ae_Message := "API key rate limit exceeded.";
                           ae_Retryable := true; ae_Status := 429 |} requestID
        else next cfg r principal
  end.

Definition api_staleAfter (cfg : Config) : Z := default_pos (cf_StaleAfter cfg) (45 * second).

(** ** Completions *)

Definition authorizedModel (cfg : Config) (principal : APIKeyPrincipal) (modelID : string) : Handler (result ModelInfo) :=
  if String.eqb modelID "" then mret (Err (ErrApi CodeInvalidRequest "model is required." false 400))
  else if negb (bool_decide (modelID ∈ pr_AllowedModels principal))
  then mret (Err (ErrApi CodeModelNotFound "Model not found." false 404))
  else
    now ← server_now;
    found ← on_db (ModelInfo_ modelID (now - api_staleAfter cfg));
    mret match found with
         | Ok model => Ok model
         | Err e => Err (api_error (default (internal "Could not load model.") (as_api e)))
         end.

(** What [chatCompletionsHandler] holds while it waits. *)
Record Pending := {
  pd_requestID : string; pd_jobID : string; pd_waitCh : nat; pd_principalID : string;
  pd_idempotencyKey : string; pd_bodyHash : string; pd_timeout : Z; pd_deadlineAt : Z
}.

Definition sync_timeout (cfg : Config) : Z :=
  if (0 <? cf_SyncTimeout cfg) && (cf_SyncTimeout cfg <? 120 * second) then cf_SyncTimeout cfg else 120 * second.

(** The lookup of the key: replayed, refused, or to be run. *)
Definition check_idempotency (requestID principalID key bodyHash : string) : Handler unit :=
  if String.eqb key "" then mret tt
  else
    looked ← on_db (IdempotencyRecord_ principalID chatCompletionsEndpoint key);
    found ← or_respond looked (λ _, writeAPIError (internal "Could not read idempotency record.") requestID);
    if negb found.2 then mret tt
    else match ResolveIdempotency found.1 found.2 bodyHash with
         | IdemProceed => mret tt
         | IdemError e => writeErr e requestID
         | IdemReplay status body => respond status (RawJSON body)
         end.

(** A job that could not be scheduled: only an [APIError] also fails it. *)
Definition schedule_failed {A} (jobID requestID : string) (e : gerror) : Handler A :=
  _ ← on_service (AbandonWait jobID);
  match as_api e with
  | Some apiErr =>
      now ← server_now;
      _ ← on_db (FailJob jobID "" (ae_Code apiErr) true now);
      writeAPIError apiErr requestID
  | None => writeAPIError (internal "Could not schedule job.") requestID
  end.

(** A request that passed every check. *)
Record CheckedRequest := {
  ad_requestID : string; ad_req : ChatCompletionRequest; ad_model : ModelInfo; ad_chatRequest : ChatRequest;
  ad_bodyHash : string
}.

(** [chatCompletionsHandler] up to the hash of the body. *)
Definition chat_validate (cfg : Config) (r : Request) (principal : APIKeyPrincipal) : Handler CheckedRequest :=
  requestID ← newRequestID;
  body ← api_guard requestID (readPublicBody (hq_Body r) MaxPublicRequestBytes);
  req ← api_guard requestID (DecodeChatCompletionRequest body);
  authorized ← authorizedModel cfg principal (cc_Model req);
  model ← api_guard requestID authorized;
  chatRequest ← api_guard requestID (ValidateChatCompletion req model (Z.of_nat (String.length body)));
  mret {| ad_requestID := requestID; ad_req := req; ad_model := model; ad_chatRequest := chatRequest;
          ad_bodyHash := sha256_string body |}.

Definition idempotency_key (r : Request) : string := trim_space (hq_Header r "Idempotency-Key").

(** From the job row to the scheduled attempt. *)
Definition chat_queue (cfg : Config) (principal : APIKeyPrincipal) (key : string) (a : CheckedRequest) : Handler Pending :=
  let requestID := ad_requestID a in
  now ← server_now;
  let timeout := sync_timeout cfg in
  let deadlineAt := now + timeout in
  created ← on_db (CreateJob (pr_OrganizationID principal) (pr_ID principal) (mi_ID (ad_model a)) "standard"
                     (marshal_chat (ad_req a)) deadlineAt);
  jobID ← or_respond created (λ _, writeAPIError (internal "Could not create job.") requestID);
  waited ← on_service (RegisterWait jobID);
  waitCh ← or_respond waited (λ e, writeErr e requestID);
  scheduled ← on_service (Schedule_ cfg jobID (ad_model a) (ad_chatRequest a) deadlineAt);
  _ ← or_respond scheduled (λ e, schedule_failed jobID requestID e);
  mret {| pd_requestID := requestID; pd_jobID := jobID; pd_waitCh := waitCh; pd_principalID := pr_ID principal;
          pd_idempotencyKey := key; pd_bodyHash := ad_bodyHash a; pd_timeout := timeout;
          pd_deadlineAt := deadlineAt |}.

(** [chatCompletionsHandler] up to the [select]. *)
Definition chat_submit (cfg : Config) (r : Request) (principal : APIKeyPrincipal) : Handler Pending :=
  a ← chat_validate cfg r principal;
  _ ← check_idempotency (ad_requestID a) (pr_ID principal) (idempotency_key r) (ad_bodyHash a);
  chat_queue cfg principal (idempotency_key r) a.

(** The rest of it: [received] is what came from the channel, [None] when the time was up or
    the client went away. *)
Definition chat_finish (p : Pending) (received : option Result) : Handler unit :=
  match received with
  | Some (ResultError e) => writeAPIError e (pd_requestID p)
  | Some (ResultResponse response) =>
      if String.eqb (pd_idempotencyKey p) "" then respond 200 (Completion response)
      else
        now ← server_now;
        _ ← on_db (StoreIdempotencyResponse (pd_principalID p) chatCompletionsEndpoint (pd_idempotencyKey p)
                     (pd_bodyHash p) (pd_jobID p) 200 (marshal_response response) (now + 24 * 60 * minute));
        looked ← on_db (IdempotencyRecord_ (pd_principalID p) chatCompletionsEndpoint (pd_idempotencyKey p));
        match looked with
        | Ok (record, true) =>
            if 0 <? ir_ResponseStatus record then respond (ir_ResponseStatus record) (RawJSON (ir_ResponseMetadata record))
            else respond 200 (Completion response)
        | _ => respond 200 (Completion response)
        end
  | None =>
      _ ← on_service (AbandonWait (pd_jobID p));
      now ← server_now;
      _ ← on_db (FailJob (pd_jobID p) "" (ae_Code timeout_error) true now);
      writeAPIError timeout_error (pd_requestID p)
  end.

(** ** The other routes of customers *)

Definition modelsHandler (cfg : Config) (r : Request) (_ : APIKeyPrincipal) : Handler unit :=
  now ← server_now;
  listed ← on_db (ListModels (now - api_staleAfter cfg));
  models ← or_respond listed (λ _, writeAPIError (internal "Could not list models.") "");
  respond 200 (ModelsBody models).

Definition invalid_request {A} (message requestID : string) : Handler A :=
  writeAPIError {| ae_Code := CodeInvalidRequest; ae_Message := message; ae_Retryable := false; ae_Status := 400 |}
    requestID.

Definition createJobHandler (cfg : Config) (r : Request) (principal : APIKeyPrincipal) : Handler unit :=
  requestID ← newRequestID;
  body ← api_guard requestID (readPublicBody (hq_Body r) MaxPublicRequestBytes);
  req ← match dec_async dec body with
        | Some req => mret req
        | None => invalid_request "Request body must be valid async job JSON." requestID
        end;
  let req := req <| aj_Model ::= (λ m, or_text m (cc_Model (aj_Input req))) |> in
  let req := req <| aj_Input ::= (λ i, i <| cc_Model := aj_Model req |>) |> in
  authorized ← authorizedModel cfg principal (aj_Model req);
  model ← api_guard requestID authorized;
  _ ← api_guard requestID (ValidateChatCompletion (aj_Input req) model (Z.of_nat (String.length body)));
  let req := req <| aj_Priority ::= (λ p, or_text p "standard") |> in
  _ ← (if existsb (String.eqb (aj_Priority req)) ["standard"; "low"; "high"] then mret tt
       else invalid_request "priority must be standard, low, or high." requestID);
  let deadlineSeconds := if aj_DeadlineSeconds req =? 0 then 900 else aj_DeadlineSeconds req in
  _ ← (if between 1 900 deadlineSeconds then mret tt
       else invalid_request "deadline_seconds must be between 1 and 900." requestID);
  now ← server_now;
  created ← on_db (CreateJob (pr_OrganizationID principal) (pr_ID principal) (mi_ID model) (aj_Priority req)
                     (marshal_async req) (now + deadlineSeconds * second));
  jobID ← or_respond created (λ _, writeAPIError (internal "Could not create job.") requestID);
  loaded ← on_db (GetJob (pr_OrganizationID principal) jobID);
  status ← or_respond loaded (λ _, writeAPIError (internal "Could not load job.") requestID);
  respond 202 (JobBody status).

Definition getJobHandler (_ : Config) (r : Request) (principal : APIKeyPrincipal) : Handler unit :=
  requestID ← newRequestID;
  loaded ← on_db (GetJob (pr_OrganizationID principal) (hq_PathValue r "job_id"));
  status ← or_respond loaded (λ e, writeErr e requestID);
  respond 200 (JobBody status).

Definition cancelJobHandler (_ : Config) (r : Request) (principal : APIKeyPrincipal) : Handler unit :=
  requestID ← newRequestID;
  now ← server_now;
  cancelled ← on_db (CancelJob (pr_OrganizationID principal) (hq_PathValue r "job_id") now);
  status ← or_respond cancelled (λ e, writeErr e requestID);
  respond 200 (JobBody status).

(** ** Organizations, keys, invites *)

Definition createOrgHandler (r : Request) : Handler unit :=
  _ ← require_job_service;
  name ← decoded (dec_org dec (hq_Body r));
  created ← on_db (CreateOrg (trim_space name));
  orgID ← or_respond created (λ e, writeError 400 (error_string e));
  respond 201 (Fields [("org_id", orgID); ("name", trim_space name)]).

(** [NewAPIKey]: the prefix and the encoded random bytes. *)
Definition NewAPIKey : St DB string := λ db,
  match db_entropy db with
  | [] => (Err (ErrWrap "generate api key" (ErrMsg "entropy exhausted")), db)
  | body :: rest => (Ok ("tsak_" +:+ body), db <| db_entropy := rest |>)
  end.

Definition createAPIKeyHandler (r : Request) : Handler unit :=
  _ ← require_job_service;
  req ← decoded (dec_api_key dec (hq_Body r));
  let '(orgID, name, models) := req in
  drawn ← on_db NewAPIKey;
  key ← or_respond drawn (λ e, writeError 500 (error_string e));
  created ← on_db (CreateAPIKey orgID name key models);
  keyID ← or_respond created (λ e, writeError 400 (error_string e));
  respond 201 (Fields [("api_key_id", keyID); ("key", key)]).

Definition createInviteHandler (r : Request) : Handler unit :=
  req ← decoded (dec_invite dec (hq_Body r));
  let '(fleetID, expiresInSeconds) := req in
  let cfg := if 0 <? expiresInSeconds
             then {| rgc_InviteTTL := wrap64 (expiresInSeconds * 1000000000) / 1000;
                     rgc_BootstrapTTL := rgc_BootstrapTTL (ao_Registration o) |}
             else ao_Registration o in
  now ← server_now;
  created ← on_db (CreateInvite cfg fleetID now);
  invite ← or_respond created (λ e, writeError (statusForError e) (error_string e));
  respond 201 (InviteBody invite).

(** ** Nodes *)

Definition registerNodeHandler (r : Request) : Handler unit :=
  req ← decoded (dec_register dec (hq_Body r));
  now ← server_now;
  registered ← on_db (RegisterNode (ao_Registration o) req now);
  result ← or_respond registered (λ e, writeError (statusForError e) (error_string e));
  respond 201 (RegisteredBody result).

Definition issue_token (nodeID : string) : Handler unit :=
  now ← server_now;
  token ← or_respond (Issue marshal_claims (ao_TokenSigner o) nodeID now) (λ e, writeError 500 (error_string e));
  respond 200 (TokenBody token.1 token.2).

Definition exchangeBootstrapHandler (r : Request) : Handler unit :=
  req ← decoded (dec_exchange dec (hq_Body r));
  now ← server_now;
  consumed ← on_db (ConsumeBootstrap req.1 req.2 now);
  _ ← or_respond consumed (λ e, writeError (statusForError e) (error_string e));
  issue_token req.1.

Definition require_session_store : Handler unit :=
  if ao_SessionStore o then mret tt else writeError 503 "node store is not configured".

Definition refreshTokenHandler (r : Request) : Handler unit :=
  _ ← require_session_store;
  req ← decoded (dec_refresh dec (hq_Body r));
  found ← on_db (node_public_key (rr_NodeID req));
  publicEncoded ← or_respond found (λ _, writeError 401 "node key not found");
  publicRaw ← or_respond (DecodeString Std publicEncoded) (λ _, writeError 500 "stored node public key is invalid");
  now ← server_now;
  _ ← or_respond (VerifyRefresh ed25519_Verify parse_rfc3339 publicRaw req now (5 * minute))
        (λ e, writeError 401 (error_string e));
  issue_token (rr_NodeID req).

Definition nodesListHandler (r : Request) : Handler unit :=
  match ao_OperatorStore o with
  | Some _ =>
      listed ← on_db (gets op_ListNodes);
      nodes ← or_respond listed (λ e, writeError 500 (error_string e));
      respond 200 (ConsoleNodesBody nodes)
  | None =>
      _ ← require_session_store;
      listed ← on_db ListNodes;
      nodes ← or_respond listed (λ e, writeError 500 (error_string e));
      respond 200 (NodesBody nodes)
  end.

(** ** Sessions of nodes *)

Inductive CloseCode := StatusNormalClosure | StatusPolicyViolation | StatusInternalError | StatusUnsupportedData.

(** An open session: its node and session, and the time its deferred [CloseSession] was given
    when the [defer] statement ran. *)
Record NodeConn := { nc_nodeID : string; nc_sessionID : string; nc_closeAt : Z }.

(** [sessionHandler] before the connection is upgraded: the node the token names. *)
Definition authenticate_session (r : Request) : Handler string :=
  _ ← require_session_store;
  let token := bearerToken r in
  _ ← (if String.eqb token "" then writeError 401 "missing bearer token" else mret tt);
  now ← server_now;
  claims ← or_respond (Verify unmarshal_claims (ao_TokenSigner o) token now) (λ e, writeError 401 (error_string e));
  mret (cl_NodeID claims).

(** The opening of [handleSession]. [hello] is the first message, [None] when reading fails;
    [accepted] is whether [session.accepted] could be written. *)
Definition open_node_session (tokenNodeID remoteAddr : string) (hello : option (option Envelope)) (accepted : bool)
    (s : Server) : (CloseCode * string + NodeConn) * Server :=
  match hello with
  | None => (inl (StatusNormalClosure, ""), s)
  | Some (Some (EnvHello version nodeID)) =>
      if negb (bool_decide (nodeID = Some tokenNodeID)) then (inl (StatusPolicyViolation, "node identity mismatch"), s)
      else
      let now := sv_now (srv_service s) in
      match on_db (OpenSession tokenNodeID version remoteAddr now) s with
      | (Continue (Ok sessionID), s) =>
          if negb accepted then
            (inl (StatusNormalClosure, ""), (on_db (CloseSession sessionID tokenNodeID now) s).2)
          else
            let s := match ao_JobService o with
                     | Some _ => (on_service (AttachSession tokenNodeID sessionID) s).2
                     | None => s
                     end in
            (inr {| nc_nodeID := tokenNodeID; nc_sessionID := sessionID; nc_closeAt := now |}, s)
      | (_, s) => (inl (StatusInternalError, "session store failed"), s)
      end
  | Some _ => (inl (StatusPolicyViolation, "invalid hello"), s)
  end.

(** A message step: go on reading, or close the connection. *)
Definition step_result : Type := option (CloseCode * string).

Definition stored (m : St DB unit) (failure : string) (s : Server) : step_result * Server :=
  match on_db m s with
  | (Continue (Ok _), s) => (None, s)
  | (_, s) => (Some (StatusInternalError, failure), s)
  end.

Definition violation (message : string) (s : Server) : step_result * Server :=
  (Some (StatusPolicyViolation, message), s).

(** One round of the loop of [handleSession]; [message] is what the validator returned. *)
Definition node_message (conn : NodeConn) (message : option Envelope) (s : Server) : step_result * Server :=
  let now := sv_now (srv_service s) in
  match message with
  | None => violation "invalid protocol message" s
  | Some (EnvHeartbeat None) => violation "invalid heartbeat payload" s
  | Some (EnvHeartbeat (Some h)) =>
      if negb (String.eqb (hb_NodeID h) (nc_nodeID conn)) then violation "node identity mismatch" s
      else if negb (is_ok (NodeState.Parse (hb_State h))) then violation "invalid node state" s
      else stored (RecordHeartbeat (nc_sessionID conn) h now) "heartbeat store failed" s
  | Some (EnvStateChanged None) => violation "invalid state change payload" s
  | Some (EnvStateChanged (Some p)) =>
      if negb (String.eqb (sc_NodeID p) (nc_nodeID conn)) then violation "node identity mismatch" s
      else if negb (is_ok (NodeState.Parse (sc_State p))) then violation "invalid node state" s
      else stored (RecordStateChanged p now) "state change store failed" s
  | Some (EnvSafetyEvent None) => violation "invalid safety event payload" s
  | Some (EnvSafetyEvent (Some e)) =>
      if negb (String.eqb (se_NodeID e) (nc_nodeID conn)) then violation "node identity mismatch" s
      else stored (RecordSafetyEvent e now) "safety event store failed" s
  | Some (EnvJob payload) =>
      match ao_JobService o with
      | None => (Some (StatusUnsupportedData, "job service is not configured"), s)
      | Some cfg =>
          let handled := match payload with
                         | Some msg => on_service (HandleNodeMessage ed25519_Verify json_Marshal cfg (nc_nodeID conn) msg) s
                         | None => (Continue (Err (ErrMsg "decode node message")), s)
                         end in
          match handled with
          | (Continue (Ok _), s) => (None, s)
          | (_, s) => (Some (StatusInternalError, "job message handling failed"), s)
          end
      end
  | Some (EnvHello _ _ | EnvOther) => (Some (StatusUnsupportedData, "unsupported message type"), s)
  end.

(** The deferred calls, last first: the service forgets the session, then the store does,
    with the time of the [defer]. *)
Definition detach_session (conn : NodeConn) (s : Server) : Server :=
  match ao_JobService o with
  | Some cfg => (on_service (DetachSession cfg (nc_nodeID conn) (nc_sessionID conn)) s).2
  | None => s
  end.

Definition close_node_session (conn : NodeConn) (s : Server) : Server :=
  (on_db (CloseSession (nc_sessionID conn) (nc_nodeID conn) (nc_closeAt conn)) (detach_session conn s)).2.
End api.
