(* ===== verification/HttpOperator.v ===== *)
(** * The HTTP API of the coordinator: operators and the public page

    [internal/coordinator/httpapi] ([operator.go], [waitlist.go], [status.go],
    [public_region.go]) and the table of routes of [NewMuxWithOptions]: the operator's actions
    and reports, the waitlist with its limiter, the cached public status. [mail.ParseAddress],
    [time.Parse] and the reader of [encoding/csv] are parameters. *)
From stdpp Require Import base gmap strings list.
From Stdlib Require Import ZArith Lia Ascii.
From S2P Require Import Prelude GoStrings Float64 Sha256 Encoding NodeState Schedule Scheduler Protocol Agent NodeAuth Requests Database Registration Ledger LedgerTheory JobStore OperatorStore OperatorReports StoreRuns JobService HttpApi.

(** ** The limiter of the waitlist *)

(** [hits] younger than the window stay; a request is counted only when it is let through. *)
Definition waitlist_allow (l : waitlistRateLimiter) (key : string) (now : Z) : bool * waitlistRateLimiter :=
  let cutoff := now - wl_window l in
  let kept := filter (λ hit, cutoff < hit) (default [] (wl_hits l !! key)) in
  if wl_limit l <=? Z.of_nat (length kept) then (false, l <| wl_hits ::= <[key := kept]> |>)
  else (true, l <| wl_hits ::= <[key := kept ++ [now]]> |>).

(** ** [net.SplitHostPort] *)

Definition last_index_byte (c : ascii) (l : list ascii) : option nat :=
  (λ i, (length l - S i)%nat) <$> index_byte c (reverse l).

(** The host, or [None] for an error. *)
Definition SplitHostPort (hostport : string) : option string :=
  let l := bytes hostport in
  let absent c (from : list ascii) := bool_decide (index_byte c from = None) in
  match last_index_byte ":"%char l with
  | None => None
  | Some i =>
      if bool_decide (head l = Some "["%char) then
        match index_byte "]"%char l with
        | None => None
        | Some e =>
            if (S e =? i)%nat && absent "["%char (drop 1 l) && absent "]"%char (drop (S e) l)
            then Some (of_bytes (take (e - 1) (drop 1 l))) else None
        end
      else if absent ":"%char (take i l) && absent "["%char l && absent "]"%char l
      then Some (of_bytes (take i l)) else None
  end.

Definition clientRateLimitKey (r : Request) : string :=
  let host := trim_space (hq_RemoteAddr r) in
  let host := default host (SplitHostPort host) in
  or_text host "unknown".

Definition maxWaitlistNameBytes : Z := 200.
Definition maxWaitlistUseCaseBytes : Z := 2000.

Definition too_long (s : string) (limit : Z) : bool := limit <? Z.of_nat (String.length s).

Definition blank_byte (a : ascii) : bool := bool_decide (byte_of a ∈ [32; 9; 13; 10]).

(** ** Routes *)

Inductive NodeAction := ActDrain | ActPause | ActQuarantine.
Inductive JobAction := ActRetry | ActCancel.

(** The patterns of the mux, but for [POST /internal/v1/catalog/sync]. *)
Inductive Route :=
  | RtHealth | RtStatus | RtWaitlist | RtStatusOptions | RtWaitlistOptions | RtCard
  | RtOrgs | RtAPIKeys | RtInvites | RtNodes | RtOverview | RtAlerts | RtNode | RtNodeAction (action : NodeAction)
  | RtOpModels | RtOpJobs | RtOpJob | RtJobAction (action : JobAction) | RtLedger | RtCredits | RtPayoutCreate
  | RtPayoutExport | RtPayoutConfirm | RtAudit | RtFleets | RtFleetRegion | RtFleetReport | RtNodeRegion
  | RtOpWaitlist | RtWaitlistExport
  | RtModels | RtCreateJob | RtGetJob | RtCancelJob
  | RtRegister | RtExchange | RtRefresh.

(** The routes under [/internal/]. *)
Definition internal_route (rt : Route) : bool :=
  match rt with
  | RtOrgs | RtAPIKeys | RtInvites | RtNodes | RtOverview | RtAlerts | RtNode | RtNodeAction _ | RtOpModels | RtOpJobs
  | RtOpJob | RtJobAction _ | RtLedger | RtCredits | RtPayoutCreate | RtPayoutExport | RtPayoutConfirm | RtAudit
  | RtFleets | RtFleetRegion | RtFleetReport | RtNodeRegion | RtOpWaitlist | RtWaitlistExport => true
  | _ => false
  end.

(** The routes of customers that answer at once. *)
Definition developer_route (rt : Route) : bool :=
  match rt with RtModels | RtCreateJob | RtGetJob | RtCancelJob => true | _ => false end.

Section operator_api.
Context (ed25519_Verify : list Z → list Z → list Z → bool).
Context (parse_rfc3339 parse_date : string → result Z) (format_rfc3339 : Z → string).
Context (marshal_claims : Claims → list Z).
Context (marshal_async : AsyncJobRequest → string).
Context (parse_address : string → option string).
Context (parse_csv : string → result (list (list string))).
Context (lower_table : Z → Z).
Context (dec : Decoders).
Context (o : ApiOptions).

(** ** Operators *)

Definition requireOperatorStore : Handler OperatorSettings :=
  match ao_OperatorStore o with Some st => mret st | None => writeError 503 "operator store is not configured" end.

(** [if err != nil { writeError(w, status, err.Error()); return }]. *)
Definition checked {A} (status : Z) (m : St DB A) : Handler A :=
  done ← on_db m;
  or_respond done (λ e, writeError status (error_string e)).

Definition operatorOverviewHandler (r : Request) : Handler unit :=
  st ← requireOperatorStore;
  overview ← checked 500 (Overview_ (os_StaleAfter st) (os_Alerts st));
  respond 200 (OverviewBody overview).

Definition operatorAlertsHandler (r : Request) : Handler unit :=
  st ← requireOperatorStore;
  alerts ← checked 500 (AlertsList (os_StaleAfter st) (os_Alerts st));
  respond 200 (AlertsBody alerts).

Definition operatorNodeDetailHandler (r : Request) : Handler unit :=
  _ ← requireOperatorStore;
  node ← checked 404 (NodeDetail (hq_PathValue r "node_id"));
  respond 200 (ConsoleNodeBody node).

(** A body that does not decode is an empty reason. *)
Definition decodeOperatorAction (r : Request) : string := if hq_HasBody r then dec_reason dec (hq_Body r) else "".

Definition node_action (action : NodeAction) : string * (string → string → Z → St DB unit) :=
  match action with
  | ActDrain => ("drain", DrainNode)
  | ActPause => ("pause", PauseNode)
  | ActQuarantine => ("quarantine", QuarantineNode)
  end.

Definition operatorNodeActionHandler (action : NodeAction) (r : Request) : Handler unit :=
  _ ← requireOperatorStore;
  let nodeID := hq_PathValue r "node_id" in
  now ← server_now;
  _ ← checked 400 ((node_action action).2 nodeID (decodeOperatorAction r) now);
  respond 200 (Fields [("status", "ok"); ("node_id", nodeID); ("action", (node_action action).1)]).

Definition operatorModelsHandler (r : Request) : Handler unit :=
  st ← requireOperatorStore;
  models ← checked 500 (op_ListModels (os_StaleAfter st));
  respond 200 (ModelSummariesBody models).

Definition operatorJobsHandler (r : Request) : Handler unit :=
  _ ← requireOperatorStore;
  jobs ← checked 500 (gets ListJobs);
  respond 200 (JobsBody jobs).

Definition operatorJobDetailHandler (r : Request) : Handler unit :=
  _ ← requireOperatorStore;
  job ← checked 404 (JobDetail_ (hq_PathValue r "job_id"));
  respond 200 (JobDetailBody job).

Definition job_action (action : JobAction) : string * (string → string → Z → St DB unit) :=
  match action with ActRetry => ("retry", RetryJob) | ActCancel => ("cancel", op_CancelJob) end.

Definition operatorJobActionHandler (action : JobAction) (r : Request) : Handler unit :=
  _ ← requireOperatorStore;
  let jobID := hq_PathValue r "job_id" in
  now ← server_now;
  _ ← checked 400 ((job_action action).2 jobID (decodeOperatorAction r) now);
  respond 200 (Fields [("status", "ok"); ("job_id", jobID); ("action", (job_action action).1)]).

Definition operatorLedgerHandler (r : Request) : Handler unit :=
  _ ← requireOperatorStore;
  ledger ← checked 500 (gets LedgerOverview_);
  respond 200 (LedgerBody ledger).

Definition operatorCreditsReleaseHandler (r : Request) : Handler unit :=
  _ ← requireOperatorStore;
  now ← server_now;
  released ← checked 400 (PromoteCredits now);
  respond 200 (CountBody "released" released).

Definition operatorPayoutCreateHandler (r : Request) : Handler unit :=
  _ ← requireOperatorStore;
  orgID ← (if hq_HasBody r then decoded (dec_payout dec (hq_Body r)) else mret "");
  now ← server_now;
  batch ← checked 400 (op_CreatePayoutBatch (trim_space orgID) now);
  respond 201 (BatchBody batch).

Definition operatorPayoutExportHandler (r : Request) : Handler unit :=
  _ ← requireOperatorStore;
  now ← server_now;
  exported ← checked 400 (op_ExportPayoutBatch (hq_PathValue r "batch_id") now);
  respond 200 (CSVBody exported.1 (Some exported.2)).

Definition confirm_limit : Z := Z.shiftl 2 20.

(** [io.ReadAll(io.LimitReader(r.Body, 2<<20))]: what is beyond the limit is not read. *)
Definition read_limited (body : BodyStream) (limit : Z) : option string :=
  if Z.of_nat (String.length (bs_data body)) <? limit then if bs_broken body then None else Some (bs_data body)
  else Some (of_bytes (take (Z.to_nat limit) (bytes (bs_data body)))).

Definition operatorPayoutConfirmHandler (r : Request) : Handler unit :=
  _ ← requireOperatorStore;
  body ← match read_limited (hq_Body r) confirm_limit with
         | Some body => mret body
         | None => writeError 400 "could not read confirmation CSV"
         end;
  now ← server_now;
  batch ← checked 400 (op_ConfirmPayoutBatch (hq_PathValue r "batch_id") (parse_csv body) now);
  respond 200 (BatchBody batch).

Definition operatorAuditHandler (r : Request) : Handler unit :=
  _ ← requireOperatorStore;
  audit ← checked 500 (gets Audit);
  respond 200 (AuditBody audit).

Definition operatorFleetCreateHandler (r : Request) : Handler unit :=
  _ ← requireOperatorStore;
  req ← decoded (dec_fleet dec (hq_Body r));
  now ← server_now;
  fleet ← checked 400 (CreateFleet lower_table (fq_OrgID req) (fq_Name req)
            {| fd_From := fq_ScheduleFrom req; fd_Until := fq_ScheduleUntil req; fd_Timezone := fq_ScheduleTimezone req;
               fd_Source := "" |} (fq_Region req) now);
  respond 201 (FleetBody fleet).

Definition operatorFleetRegionHandler (r : Request) : Handler unit :=
  _ ← requireOperatorStore;
  req ← decoded (dec_region dec (hq_Body r));
  let fleetID := hq_PathValue r "fleet_id" in
  now ← server_now;
  _ ← checked 400 (SetFleetRegion lower_table fleetID (gq_Region req) (gq_Reason req) now);
  respond 200 (Fields [("status", "ok"); ("fleet_id", fleetID); ("region", trim_space (gq_Region req))]).

Definition operatorNodeRegionHandler (r : Request) : Handler unit :=
  _ ← requireOperatorStore;
  req ← decoded (dec_region dec (hq_Body r));
  let nodeID := hq_PathValue r "node_id" in
  now ← server_now;
  _ ← checked 400 (SetNodeRegion lower_table nodeID (gq_Region req) (gq_Reason req) now);
  respond 200 (Fields [("status", "ok"); ("node_id", nodeID); ("region", trim_space (gq_Region req))]).

Definition parseOperatorTime (value : string) : result Z :=
  let value := trim_space value in
  if String.eqb value "" then Ok zero_time
  else match parse_rfc3339 value with Ok t => Ok t | Err _ => parse_date value end.

Definition operatorFleetReportHandler (r : Request) : Handler unit :=
  _ ← requireOperatorStore;
  from ← or_respond (parseOperatorTime (hq_Query r "from")) (λ e, writeError 400 (error_string e));
  until ← or_respond (parseOperatorTime (hq_Query r "to")) (λ e, writeError 400 (error_string e));
  body ← checked 400 (FleetReportCSV (hq_PathValue r "fleet_id") from until);
  respond 200 (CSVBody body None).

Definition operatorWaitlistHandler (r : Request) : Handler unit :=
  _ ← requireOperatorStore;
  signups ← checked 500 (gets ListWaitlist);
  respond 200 (SignupsBody signups).

Definition operatorWaitlistExportHandler (r : Request) : Handler unit :=
  _ ← requireOperatorStore;
  body ← checked 500 (gets (WaitlistCSV format_rfc3339));
  respond 200 (CSVBody body None).

(** ** The waitlist *)

Definition validateWaitlistEmail (email : string) : result unit :=
  let bad := Err (ErrMsg "email is invalid") in
  if String.eqb email "" then Err (ErrMsg "email is required")
  else if existsb blank_byte (bytes email) then bad
  else if negb (bool_decide (parse_address email = Some email)) then bad
  else match cut "@"%char email with
       | Some (local, domain) =>
           if String.eqb local "" || String.eqb domain "" || negb (contains domain ".") then bad else Ok tt
       | None => bad
       end.

Definition validateWaitlistApplication (application : WaitlistApplication) : result unit :=
  _ ← validateWaitlistEmail (wa_Email application);
  if too_long (wa_Name application) maxWaitlistNameBytes then Err (ErrMsg "name is too long")
  else if String.eqb (wa_UseCase application) "" then Err (ErrMsg "use_case is required")
  else if too_long (wa_UseCase application) maxWaitlistUseCaseBytes then Err (ErrMsg "use_case is too long")
  else
  _ ← ValidateExpectedVolume (wa_ExpectedVolume application);
  if negb (wa_DataAck application) then Err (ErrMsg "data_ack is required")
  else if too_long (wa_ModelID application) 128 then Err (ErrMsg "model_id is invalid")
  else Ok tt.

Definition application_of (req : ApplicationRequest) : WaitlistApplication := {|
  wa_Email := NormalizeEmail lower_table (aq_Email req); wa_Name := trim_space (aq_Name req);
  wa_UseCase := trim_space (aq_UseCase req); wa_ExpectedVolume := trim_space (aq_ExpectedVolume req);
  wa_DataAck := aq_DataAck req; wa_ModelID := trim_space (aq_ModelID req); wa_Source := "public_catalog" |}.

Definition allow_client (key : string) : Handler bool := λ s,
  let '(ok, limiter) := waitlist_allow (srv_waitlist s) key (sv_now (srv_service s)) in
  (Continue ok, s <| srv_waitlist := limiter |>).

Definition waitlistSignupHandler (r : Request) : Handler unit :=
  _ ← requireOperatorStore;
  req ← decoded (dec_application dec (hq_Body r));
  let application := application_of req in
  _ ← or_respond (validateWaitlistApplication application) (λ e, writeError 400 (error_string e));
  allowed ← allow_client (clientRateLimitKey r);
  _ ← (if allowed : bool then mret tt else writeError 429 "waitlist signup rate limit exceeded");
  now ← server_now;
  _ ← checked 500 (SubmitWaitlistApplication lower_table application now);
  respond 200 (Fields [("status", "ok")]).

(** ** The public status *)

Definition requesterRegion (r : Request) : option string :=
  let step (acc : list string * option string) (header : string) :=
    let header := trim_space header in
    let name := to_lower lower_table header in
    match acc with
    | (seen, Some v) => (seen, Some v)
    | (seen, None) =>
        if String.eqb header "" || existsb (String.eqb name) seen then (seen, None)
        else let value := trim_space (hq_Header r header) in
             (name :: seen,
              if String.eqb value "" then None else Some (of_bytes (take 64 (bytes value))))
    end in
  (foldl step ([], None) [ao_RequesterRegionHeader o; "CF-IPCountry"]).2.

Definition cache_get (c : publicStatusCache) (now : Z) : option PublicStatus :=
  if is_zero_time (pc_expiresAt c) || negb (now <? pc_expiresAt c) then None else pc_status c.

Definition cache_set (status : PublicStatus) (expiresAt : Z) : Handler unit := λ s,
  (Continue tt, s <| srv_cache := {| pc_expiresAt := expiresAt; pc_status := Some status |} |>).

(** The page of a coordinator without an operator store. *)
Definition empty_status (now : Z) : PublicStatus := {|
  pst_ConnectedNodeCount := 0; pst_ModelsAvailable := []; pst_Models := []; pst_RegionsOnline := [];
  pst_RegionNodeCounts := []; pst_Hosts := []; pst_JobsCompleted24h := 0; pst_JobsCompletedTotal := 0;
  pst_OutputTokensServed24h := 0; pst_OutputTokensServedTotal := 0; pst_GPUHoursReused := float_of_Z 0;
  pst_GPUHoursReused24h := float_of_Z 0; pst_GeneratedAt := now |}.

Definition read_cache : Handler publicStatusCache := λ s, (Continue (srv_cache s), s).

Definition publicStatusHandler (r : Request) : Handler unit :=
  now ← server_now;
  cache ← read_cache;
  match cache_get cache now with
  | Some cached => respond 200 (StatusBody cached (requesterRegion r))
  | None =>
      status ← match ao_OperatorStore o with
               | Some st => checked 500 (PublicStatus_ (os_StaleAfter st) now)
               | None => mret (empty_status now)
               end;
      _ ← cache_set status (now + ao_StatusCacheTTL o);
      respond 200 (StatusBody status (requesterRegion r))
  end.

Definition publicNodeCardHandler (r : Request) : Handler unit :=
  _ ← requireOperatorStore;
  now ← server_now;
  card ← checked 404 (ContributionCard_ (hq_PathValue r "node_id") now);
  respond 200 (CardBody card).

(** ** The table of routes *)

(** [POST /v1/chat/completions] and [GET /v1/node/session] are the handlers in several steps
    of [HttpApi]. *)
Definition serve (version : string) (rt : Route) : Request → Handler unit :=
  match rt with
  | RtHealth => λ _, respond 200 (Fields [("status", "ok"); ("version", version)])
  | RtStatus => publicStatusHandler
  | RtWaitlist => waitlistSignupHandler
  | RtStatusOptions | RtWaitlistOptions => λ _, respond 204 (Fields [])
  | RtCard => publicNodeCardHandler
  | RtOrgs => operatorOnly o (createOrgHandler dec o)
  | RtAPIKeys => operatorOnly o (createAPIKeyHandler dec o)
  | RtInvites => operatorOnly o (createInviteHandler dec o)
  | RtNodes => operatorOnly o (nodesListHandler o)
  | RtOverview => operatorOnly o operatorOverviewHandler
  | RtAlerts => operatorOnly o operatorAlertsHandler
  | RtNode => operatorOnly o operatorNodeDetailHandler
  | RtNodeAction action => operatorOnly o (operatorNodeActionHandler action)
  | RtOpModels => operatorOnly o operatorModelsHandler
  | RtOpJobs => operatorOnly o operatorJobsHandler
  | RtOpJob => operatorOnly o operatorJobDetailHandler
  | RtJobAction action => operatorOnly o (operatorJobActionHandler action)
  | RtLedger => operatorOnly o operatorLedgerHandler
  | RtCredits => operatorOnly o operatorCreditsReleaseHandler
  | RtPayoutCreate => operatorOnly o operatorPayoutCreateHandler
  | RtPayoutExport => operatorOnly o operatorPayoutExportHandler
  | RtPayoutConfirm => operatorOnly o operatorPayoutConfirmHandler
  | RtAudit => operatorOnly o operatorAuditHandler
  | RtFleets => operatorOnly o operatorFleetCreateHandler
  | RtFleetRegion => operatorOnly o operatorFleetRegionHandler
  | RtFleetReport => operatorOnly o operatorFleetReportHandler
  | RtNodeRegion => operatorOnly o operatorNodeRegionHandler
  | RtOpWaitlist => operatorOnly o operatorWaitlistHandler
  | RtWaitlistExport => operatorOnly o operatorWaitlistExportHandler
  | RtModels => developerOnly o modelsHandler
  | RtCreateJob => developerOnly o (createJobHandler marshal_async dec)
  | RtGetJob => developerOnly o getJobHandler
  | RtCancelJob => developerOnly o cancelJobHandler
  | RtRegister => registerNodeHandler dec o
  | RtExchange => exchangeBootstrapHandler marshal_claims dec o
  | RtRefresh => refreshTokenHandler ed25519_Verify parse_rfc3339 marshal_claims dec o
  end.
End operator_api.
