(* ===== verification/HttpTheory.v ===== *)
(** * Theorems on the HTTP API

    The whole coordinator changes its database by store operations only, so that the
    invariants of the store hold of the running server; who may call what; what a completion
    request leaves behind on every path; replay of an idempotent request; what the messages
    of a session can touch; how old the public status is. *)
From stdpp Require Import base gmap strings list relations.
From Stdlib Require Import ZArith Lia Ascii.
From S2P Require Import Prelude GoStrings Float64 Sha256 Encoding NodeState Schedule Scheduler Protocol Agent NodeAuth Requests Database Registration Ledger LedgerTheory JobStore OperatorStore OperatorReports StoreRuns JobTheory JobService ServiceTheory RegistrationTheory HttpApi HttpOperator.

(** ** Handlers that keep a property of the service *)

Definition keeps {A} (P : Service → Prop) (m : Handler A) : Prop :=
  ∀ s, P (srv_service s) → P (srv_service (m s).2).

Create HintDb keep.

Section keeps.
Context (P : Service → Prop).

Lemma keeps_ret {A} (a : A) : keeps P (mret a).
Proof. by intros s. Qed.
Lemma keeps_respond {A} st b : keeps P (respond st b : Handler A).
Proof. by intros s. Qed.
Lemma keeps_bind {A B} (m : Handler A) (f : A → Handler B) :
  keeps P m → (∀ a, keeps P (f a)) → keeps P (m ≫= f).
Proof.
  intros Hm Hf s Hs. specialize (Hm s Hs). unfold mbind, Handler_bind.
  destruct (m s) as [[a|r] s1]; simpl in *; [by apply Hf|done].
Qed.
Lemma keeps_now : keeps P server_now.
Proof. by intros s. Qed.
Lemma keeps_service {A} (m : St Service A) : preserves P m → keeps P (on_service m).
Proof. intros Hm s Hs. specialize (Hm (srv_service s) Hs). unfold on_service. by destruct (m _). Qed.
Lemma keeps_limiter k : keeps P (allow_key k).
Proof. intros s Hs. unfold allow_key. by destruct (Allow _ _ _). Qed.
Lemma keeps_client k : keeps P (allow_client k).
Proof. intros s Hs. unfold allow_client. by destruct (waitlist_allow _ _ _). Qed.
Lemma keeps_cache st t : keeps P (cache_set st t).
Proof. by intros s. Qed.
Lemma keeps_read_cache : keeps P read_cache.
Proof. by intros s. Qed.
End keeps.
#[export] Hint Resolve keeps_read_cache keeps_ret keeps_respond keeps_now keeps_limiter keeps_client keeps_cache : keep.

Ltac keep := repeat first
  [ apply keeps_bind; [|intros ?]
  | match goal with |- keeps _ (match ?x with _ => _ end) => destruct x end
  | progress unfold or_respond, api_guard, writeErr, writeError, writeAPIError, decoded, checked
  | solve [eauto 2 with keep] ].

(** A store call that reads. *)
Definition reads {A} (m : St DB A) : Prop := ∀ db, (m db).2 = db.

Lemma reads_preserves {A} (m : St DB A) : (∀ db, preserves (eq db) m) → reads m.
Proof. intros H db. symmetry. by apply (H db db). Qed.

Ltac read := apply reads_preserves; intros ?; solve_inv.

Lemma reads_ListModels c : reads (ListModels c).
Proof. unfold ListModels, list_step, ModelHashes. read. Qed.
Lemma reads_ModelInfo m c : reads (ModelInfo_ m c).
Proof.
  apply reads_preserves. intros db. unfold ModelInfo_, ModelHashes, ListModels, list_step. solve_inv.
Qed.
Lemma reads_APIKeyByHash h : reads (APIKeyByHash h).
Proof. unfold APIKeyByHash. read. Qed.
Lemma reads_GetJob o j : reads (GetJob o j).
Proof. unfold GetJob. read. Qed.
Lemma reads_IdempotencyRecord a e k : reads (IdempotencyRecord_ a e k).
Proof. unfold IdempotencyRecord_. read. Qed.
Lemma reads_node_key n : reads (node_public_key n).
Proof. unfold node_public_key. read. Qed.
Lemma reads_gets {A} (f : DB → A) : reads (gets f).
Proof. done. Qed.
Lemma reads_ListNodes : reads ListNodes.
Proof. unfold ListNodes. read. Qed.
Lemma reads_op_ListModels st : reads (op_ListModels st).
Proof. unfold op_ListModels, ListModels, list_step, ModelHashes, summary_step. read. Qed.
Lemma reads_AlertsList st c : reads (AlertsList st c).
Proof. unfold AlertsList, op_ListModels, ListModels, list_step, ModelHashes, summary_step. read. Qed.
Lemma reads_Overview st c : reads (Overview_ st c).
Proof. unfold Overview_, AlertsList, op_ListModels, ListModels, list_step, ModelHashes, summary_step. read. Qed.
Lemma reads_NodeDetail n : reads (NodeDetail n).
Proof. unfold NodeDetail. read. Qed.
Lemma reads_JobDetail j : reads (JobDetail_ j).
Proof. unfold JobDetail_. read. Qed.
Lemma reads_FleetReport f a b : reads (FleetReportCSV f a b).
Proof. unfold FleetReportCSV. read. Qed.
Lemma reads_PublicStatus st t : reads (PublicStatus_ st t).
Proof. unfold PublicStatus_. read. Qed.
Lemma reads_Card n t : reads (ContributionCard_ n t).
Proof. unfold ContributionCard_. read. Qed.

Create HintDb reads.
#[export] Hint Resolve reads_ListModels reads_ModelInfo reads_APIKeyByHash reads_GetJob reads_IdempotencyRecord
  reads_node_key reads_gets reads_ListNodes reads_op_ListModels reads_AlertsList reads_Overview reads_NodeDetail
  reads_JobDetail reads_FleetReport reads_PublicStatus reads_Card : reads.

(** ** Requests that leave no trace *)

(** Equal but for the entropy drawn and the limiter of the customers. *)
Definition settle (s : Server) : Server :=
  s <| srv_service ::= (λ sv, sv <| sv_db ::= (λ d, d <| db_entropy := [] |>) |>) |>
    <| srv_limiter := {| LimitPerMinute := 0; buckets := ∅ |} |>.
Definition quiet (s s' : Server) : Prop := settle s' = settle s.

#[export] Instance quiet_equiv : Equivalence quiet.
Proof. unfold quiet. split; [by intros s|by intros s s'|]. intros s1 s2 s3 H1 H2. congruence. Qed.

(** What a quiet step keeps. *)
Lemma quiet_spec s s' :
  quiet s s' → ∃ ent lim, s' = s <| srv_service ::= (λ sv, sv <| sv_db ::= (λ d, d <| db_entropy := ent |>) |>) |>
                             <| srv_limiter := lim |>.
Proof.
  destruct s as [[[] ] ], s' as [[[] ] ]. intros H. injection H; intros. subst. by eexists _, _.
Qed.

Definition silent {A} (m : Handler A) : Prop := ∀ s, quiet s (m s).2.

Lemma silent_ret {A} (a : A) : silent (mret a).
Proof. intros s. unfold mret, Handler_ret. reflexivity. Qed.
Lemma silent_respond {A} st b : silent (respond st b : Handler A).
Proof. intros s. unfold respond. reflexivity. Qed.
Lemma silent_now : silent server_now.
Proof. intros s. unfold server_now. reflexivity. Qed.
Lemma silent_bind {A B} (m : Handler A) (f : A → Handler B) : silent m → (∀ a, silent (f a)) → silent (m ≫= f).
Proof.
  intros Hm Hf s. specialize (Hm s). unfold mbind, Handler_bind. destruct (m s) as [[a|r] s1]; simpl in *; [|done].
  etransitivity; [exact Hm|apply Hf].
Qed.
Lemma silent_request_id : silent newRequestID.
Proof. intros s. unfold newRequestID, ids_New. destruct s as [[[? []] ] ]; reflexivity. Qed.
Lemma silent_limiter k : silent (allow_key k).
Proof. intros s. unfold allow_key. destruct (Allow _ _ _). reflexivity. Qed.
Lemma on_db_read {A} (m : St DB A) s : reads m → on_db m s = (Continue (m (sv_db (srv_service s))).1, s).
Proof.
  intros Hm. unfold on_db, on_service, on_store. specialize (Hm (sv_db (srv_service s))).
  destruct (m _) as [r db] eqn:E. simpl in Hm. subst. by destruct s as [[] ].
Qed.
Lemma silent_read {A} (m : St DB A) : reads m → silent (on_db m).
Proof. intros Hm s. rewrite on_db_read by done. reflexivity. Qed.

Create HintDb silent.
#[export] Hint Resolve silent_ret silent_respond silent_now silent_request_id silent_limiter : silent.
Ltac hush := repeat first
  [ apply silent_bind; [|intros ?]
  | match goal with |- silent (match ?x with _ => _ end) => destruct x end
  | progress unfold or_respond, api_guard, writeErr, writeError, writeAPIError, decoded, checked
  | solve [eauto 2 with silent]
  | apply silent_read; solve [eauto 2 with reads] ].

(** ** Events of the server *)

(** A request that is answered at once, the two halves of a completion request, the steps of
    a node's session, and what else happens in the coordinator. *)
Inductive ServerEvent :=
  | EvRequest (route : Route) (r : Request)
  | EvChat (r : Request)
  | EvChatDone (p : Pending) (received : option Result)
  | EvConnect (tokenNodeID remoteAddr : string) (hello : option (option Envelope)) (accepted : bool)
  | EvMessage (conn : NodeConn) (message : option Envelope)
  | EvDisconnect (conn : NodeConn)
  | EvService (e : ServiceEvent).

Section http_theory.
Context (ed25519_Verify : list Z → list Z → list Z → bool).
Context (json_Marshal : JobCompletedPayload → result (list Z)).
Context (parse_rfc3339 parse_date : string → result Z) (format_rfc3339 : Z → string).
Context (marshal_claims : Claims → list Z) (unmarshal_claims : list Z → result Claims).
Context (marshal_chat : ChatCompletionRequest → string) (marshal_async : AsyncJobRequest → string).
Context (marshal_response : OpenAIResponse → string).
Context (parse_address : string → option string).
Context (parse_csv : string → result (list (list string))).
Context (lower_table : Z → Z).
Context (dec : Decoders).
Context (o : ApiOptions).
Context (version : string).
(** The configuration of the service, when it is there. *)
Notation cfg := (default {| cf_Weights := DefaultSchedulerWeights; cf_StaleAfter := 0; cf_LeaseTTL := 0;
  cf_SyncTimeout := 0; cf_CreditHold := 0 |} (ao_JobService o)).
Notation route := (serve ed25519_Verify parse_rfc3339 parse_date format_rfc3339 marshal_claims marshal_async
  parse_address parse_csv lower_table dec o version).
Notation submit := (chat_submit marshal_chat dec).
Notation finish := (chat_finish marshal_response).
Notation message := (node_message ed25519_Verify json_Marshal o).

Definition server_event (e : ServerEvent) (s : Server) : Server :=
  match e with
  | EvRequest rt r => (route rt r s).2
  | EvChat r => (developerOnly o submit r s).2
  | EvChatDone p received => (finish p received s).2
  | EvConnect n a h ok => (open_node_session o n a h ok s).2
  | EvMessage conn msg => (message conn msg s).2
  | EvDisconnect conn => close_node_session o conn s
  | EvService e => s <| srv_service ::= service_event ed25519_Verify json_Marshal cfg e |>
  end.

Definition server_run (es : list ServerEvent) (s : Server) : Server := foldl (λ s e, server_event e s) s es.

(** ** The server refines the store *)

(** What every event does to the database, for operations that are all [good]: those of the
    service are, and what else stores an answer or comes from other parts has to be. *)
Section walk.
Context (good : store_op → Prop) (Hgood : ∀ op, stores_answer op = false → good op) (db0 : DB).
Notation P := (ran_by good db0).
#[local] Instance walk_frame : ServiceFrame P.
Proof using Hgood. by apply ran_by_frame. Qed.

Lemma ran_run j run s : P s → P (s <| sv_runs ::= <[j := run]> |>).
Proof. done. Qed.

Lemma k_good {A} (m : St DB A) op : (∀ db, (m db).2 = run_op op db) → good op → keeps P (on_db m).
Proof.
  intros Hm Hop s Hs. pose proof (ran_by_op good db0 op _ Hop Hs) as H. unfold on_db, on_service, on_store.
  specialize (Hm (sv_db (srv_service s))). destruct (m (sv_db (srv_service s))) as [r db]. simpl in *. by subst.
Qed.
Lemma k_op {A} (m : St DB A) op : (∀ db, (m db).2 = run_op op db) → stores_answer op = false → keeps P (on_db m).
Proof using Hgood. intros Hm Hop. apply (k_good m op Hm). by apply Hgood. Qed.
Lemma k_read {A} (m : St DB A) : reads m → keeps P (on_db m).
Proof. intros Hm. apply keeps_service. by apply on_store_read. Qed.

Lemma k_request_id : keeps P newRequestID.
Proof.
  intros s Hs. unfold newRequestID, ids_New. pose proof (sv_op (P := P) OpDraw _ eq_refl Hs) as Hd. revert Hd. unfold run_op.
  destruct (db_entropy (sv_db (srv_service s))) as [|b rest] eqn:E; simpl.
  - intros _. by destruct s as [[[]]].
  - intros (ops & Hall & Hops). exists ops. split; [done|]. revert Hops. simpl. by rewrite E.
Qed.
Lemma k_new_key : keeps P (on_db NewAPIKey).
Proof.
  apply (k_op _ OpDraw); [|done]. intros db. unfold NewAPIKey, run_op. destruct db as [? [|b rest]]; done.
Qed.

(** Every call of a store in a handler is an operation of the store, or reads. *)
Ltac kop := match goal with
  | |- keeps _ newRequestID => apply k_request_id
  | |- keeps _ (on_db NewAPIKey) => apply k_new_key
  | |- keeps _ (on_db (CreateOrg ?n)) => by apply (k_op _ (OpCreateOrg n))
  | |- keeps _ (on_db (CreateAPIKey ?a ?n ?k ?m)) => by apply (k_op _ (OpCreateAPIKey a n k m))
  | |- keeps _ (on_db (CreateInvite ?c ?f ?t)) => by apply (k_op _ (OpCreateInvite c f t))
  | |- keeps _ (on_db (RegisterNode ?c ?r ?t)) => by apply (k_op _ (OpRegisterNode c r t))
  | |- keeps _ (on_db (ConsumeBootstrap ?n ?k ?t)) => by apply (k_op _ (OpConsumeBootstrap n k t))
  | |- keeps _ (on_db (CreateJob ?a ?k ?m ?p ?b ?d)) => by apply (k_op _ (OpCreateJob a k m p b d))
  | |- keeps _ (on_db (CancelJob ?a ?j ?t)) => by apply (k_op _ (OpCancelJob a j t))
  | |- keeps _ (on_db (FailJob ?j ?a ?c ?b ?t)) => by apply (k_op _ (OpFailJob j a c b t))
  | |- keeps _ (on_db (DrainNode ?n ?r ?t)) => by apply (k_op _ (OpOperator (OoDrainNode n r t)))
  | |- keeps _ (on_db (PauseNode ?n ?r ?t)) => by apply (k_op _ (OpOperator (OoPauseNode n r t)))
  | |- keeps _ (on_db (QuarantineNode ?n ?r ?t)) => by apply (k_op _ (OpOperator (OoQuarantineNode n r t)))
  | |- keeps _ (on_db (RetryJob ?j ?r ?t)) => by apply (k_op _ (OpOperator (OoRetryJob j r t)))
  | |- keeps _ (on_db (op_CancelJob ?j ?r ?t)) => by apply (k_op _ (OpOperator (OoCancelJob j r t)))
  | |- keeps _ (on_db (PromoteCredits ?t)) => by apply (k_op _ (OpOperator (OoPromoteCredits t)))
  | |- keeps _ (on_db (op_CreatePayoutBatch ?a ?t)) => by apply (k_op _ (OpOperator (OoCreatePayoutBatch a t)))
  | |- keeps _ (on_db (op_ExportPayoutBatch ?b ?t)) => by apply (k_op _ (OpOperator (OoExportPayoutBatch b t)))
  | |- keeps _ (on_db (op_ConfirmPayoutBatch ?b ?r ?t)) => by apply (k_op _ (OpOperator (OoConfirmPayoutBatch b r t)))
  | |- keeps _ (on_db (CreateFleet ?l ?a ?n ?sc ?r ?t)) => by apply (k_op _ (OpOperator (OoCreateFleet l a n sc r t)))
  | |- keeps _ (on_db (SetFleetRegion ?l ?f ?r ?w ?t)) => by apply (k_op _ (OpOperator (OoSetFleetRegion l f r w t)))
  | |- keeps _ (on_db (SetNodeRegion ?l ?n ?r ?w ?t)) => by apply (k_op _ (OpOperator (OoSetNodeRegion l n r w t)))
  | |- keeps _ (on_db (SubmitWaitlistApplication ?l ?a ?t)) =>
      by apply (k_op _ (OpOperator (OoSubmitWaitlistApplication l a t)))
  | |- keeps _ (on_db (RecordHeartbeat ?i ?h ?t)) => by apply (k_op _ (OpRecordHeartbeat i h t))
  | |- keeps _ (on_db (RecordStateChanged ?p ?t)) => by apply (k_op _ (OpRecordStateChanged p t))
  | |- keeps _ (on_db (RecordSafetyEvent ?e ?t)) => by apply (k_op _ (OpRecordSafetyEvent e t))
  | |- keeps _ (on_db (OpenSession ?n ?v ?a ?t)) => by apply (k_op _ (OpOpenSession n v a t))
  | |- keeps _ (on_db (CloseSession ?i ?n ?t)) => by apply (k_op _ (OpCloseSession i n t))
  | |- keeps _ (on_db _) => apply k_read; solve [eauto 2 with reads]
  end.
Ltac walk := repeat first [progress keep | kop].

Lemma k_route rt r : keeps P (route rt r).
Proof.
  destruct rt; unfold serve, operatorOnly; try (destruct action; unfold operatorNodeActionHandler, operatorJobActionHandler);
  unfold publicStatusHandler, waitlistSignupHandler, publicNodeCardHandler, createOrgHandler, createAPIKeyHandler,
    createInviteHandler, nodesListHandler, operatorOverviewHandler, operatorAlertsHandler, operatorNodeDetailHandler,
    operatorModelsHandler, operatorJobsHandler, operatorJobDetailHandler, operatorLedgerHandler,
    operatorCreditsReleaseHandler, operatorPayoutCreateHandler, operatorPayoutExportHandler, operatorPayoutConfirmHandler,
    operatorAuditHandler, operatorFleetCreateHandler, operatorFleetRegionHandler, operatorFleetReportHandler,
    operatorNodeRegionHandler, operatorWaitlistHandler, operatorWaitlistExportHandler, developerOnly, modelsHandler,
    createJobHandler, getJobHandler, cancelJobHandler, authorizedModel, invalid_request,
    registerNodeHandler, exchangeBootstrapHandler, issue_token, refreshTokenHandler,
    require_session_store, require_job_service, requireOperatorStore; cbn [node_action job_action fst snd].
  all: try solve [walk].
Qed.

Lemma k_chat r : keeps P (developerOnly o submit r).
Proof.
  unfold developerOnly, chat_submit, chat_validate, authorizedModel, check_idempotency, chat_queue, schedule_failed.
  walk. apply keeps_service. apply q_Schedule; [apply _|apply _|apply ran_run].
Qed.
(** A request that completes stores its answer, if it has a key. *)
Definition answer_op (p : Pending) (op : store_op) : Prop :=
  pd_idempotencyKey p ≠ "" ∧ ∃ response expires, op = OpStoreIdempotencyResponse (pd_principalID p) chatCompletionsEndpoint
    (pd_idempotencyKey p) (pd_bodyHash p) (pd_jobID p) 200 (marshal_response response) expires.
Lemma k_finish p received : (∀ op, answer_op p op → good op) → keeps P (finish p received).
Proof using Hgood.
  intros Hop. unfold chat_finish. destruct (String.eqb_spec (pd_idempotencyKey p) ""); walk.
  all: match goal with |- keeps _ (on_db (StoreIdempotencyResponse ?a ?e ?k ?h ?j ?st ?b ?x)) =>
    apply (k_good _ (OpStoreIdempotencyResponse a e k h j st b x)); [done|apply Hop; split; [done|by eexists _, _]] end.
Qed.

Lemma k_stored m f s : keeps P (on_db m) → P (srv_service s) → P (srv_service (stored m f s).2).
Proof.
  intros Hm Hs. specialize (Hm s Hs). unfold stored. destruct (on_db m s) as [[[]|] s']; exact Hm.
Qed.

Lemma k_failure c n j a e tr t code : preserves P (handleAttemptFailure c n j a e tr t code).
Proof. apply q_failure; [apply _|apply _|apply ran_run]. Qed.

Lemma k_message conn msg s : P (srv_service s) → P (srv_service (message conn msg s).2).
Proof.
  intros Hs. unfold node_message, violation. destruct msg as [[? ?|[h|]|[p|]|[e|]|payload|]|]; try done.
  - repeat case_match; [done|done|]. apply k_stored; [kop|done].
  - repeat case_match; [done|done|]. apply k_stored; [kop|done].
  - case_match; [done|]. apply k_stored; [kop|done].
  - destruct (ao_JobService o) as [c|]; [|done]. destruct payload as [msg|]; [|done].
    assert (Hm : keeps P (on_service (HandleNodeMessage ed25519_Verify json_Marshal c (nc_nodeID conn) msg))).
    { apply keeps_service, q_message; [apply _|apply k_failure]. }
    specialize (Hm s Hs). by destruct (on_service _ s) as [[[]|] s'].
Qed.

Lemma k_connect n a h ok s : P (srv_service s) → P (srv_service (open_node_session o n a h ok s).2).
Proof.
  intros Hs. unfold open_node_session. destruct h as [[[v id| | | | |]|]|]; try done. case_match; [done|].
  pose proof (k_op (OpenSession n v a (sv_now (srv_service s))) (OpOpenSession n v a _) (λ _, eq_refl) eq_refl s Hs) as Ho.
  destruct (on_db _ s) as [[[sid|]|] s1]; [|exact Ho..]. simpl in Ho. destruct ok; simpl.
  - by destruct (ao_JobService o).
  - by apply (k_op (CloseSession sid n (sv_now (srv_service s))) (OpCloseSession sid n (sv_now (srv_service s)))).
Qed.

Lemma k_disconnect conn s : P (srv_service s) → P (srv_service (close_node_session o conn s)).
Proof.
  intros Hs. unfold close_node_session.
  apply (k_op (CloseSession _ _ _) (OpCloseSession (nc_sessionID conn) (nc_nodeID conn) (nc_closeAt conn)) (λ _, eq_refl) eq_refl).
  unfold detach_session. destruct (ao_JobService o) as [c|]; [|done]. apply keeps_service; [|done].
  apply q_detach; [apply _|apply k_failure].
Qed.

(** The operations of an event that are not of the service or of a handler that stores no answer. *)
Definition stored_by (e : ServerEvent) (op : store_op) : Prop :=
  match e with
  | EvChatDone p _ => answer_op p op
  | EvService (SvStore op') => op = op'
  | _ => False
  end.

Lemma k_event e s : (∀ op, stored_by e op → good op) → P (srv_service s) → P (srv_service (server_event e s)).
Proof using Hgood.
  intros Hop. destruct e; cbn [server_event].
  - apply k_route.
  - apply k_chat.
  - by apply k_finish.
  - apply k_connect.
  - apply k_message.
  - apply k_disconnect.
  - intros Hs. change (P (service_event ed25519_Verify json_Marshal cfg e (srv_service s))).
    destruct e; try exact Hs; (apply (q_event _ _ _ P); [apply ran_run|done|intros ? [= <-]; apply ran_by_op; by apply Hop|done|exact Hs]).
Qed.

Lemma k_run es s : Forall (λ e, ∀ op, stored_by e op → good op) es → P (srv_service s) → P (srv_service (server_run es s)).
Proof using Hgood.
  intros Hes. revert s. unfold server_run. induction Hes as [|e es He Hes IH]; intros s Hs; simpl; [done|].
  apply IH. by apply k_event.
Qed.
End walk.

(** C3. Whatever customers, operators and nodes send, in whatever order, and however the server
    answers it, the database of the coordinator is the result of running operations of the
    store on the one it started with: the invariants of the store, the ledger and the
    registry hold of the running coordinator as a whole. *)
Theorem server_refines_store es s :
  ∃ ops, sv_db (srv_service (server_run es s)) = run_ops ops (sv_db (srv_service s)).
Proof.
  destruct (k_run (λ _, True) ltac:(done) (sv_db (srv_service s)) es s) as (ops & _ & H); [|by exists []|by exists ops].
  by apply Forall_forall.
Qed.

(** ** Who may call what *)

(** No active API key has the hash of the request's bearer token. *)
Definition no_key (r : Request) (s : Server) : Prop :=
  ∀ k row, db_api_keys (sv_db (srv_service s)) !! k = Some row → ak_active row = true →
    ak_key_hash row ≠ HashAPIKey (bearerToken r).

Lemma bind_continue {A B} (m : Handler A) (f : A → Handler B) s a s' :
  m s = (Continue a, s') → (m ≫= f) s = f a s'.
Proof. unfold mbind, Handler_bind. by intros ->. Qed.

Lemma bind_respond {A B} (m : Handler A) (f : A → Handler B) s r s' :
  m s = (Respond r, s') → (m ≫= f) s = (Respond r, s').
Proof. unfold mbind, Handler_bind. by intros ->. Qed.

Lemma newRequestID_run s : ∃ id s', newRequestID s = (Continue id, s') ∧ quiet s s'.
Proof.
  pose proof (silent_request_id s) as Hq. unfold newRequestID in *. destruct (ids_New _ _).
  by eexists _, _.
Qed.

(** An error object with the code and status of the error. *)
Definition api_answer (e : APIError) (requestID : string) : Response := {|
  rs_status := if ae_Status e =? 0 then 400 else ae_Status e;
  rs_body := ErrorObject (ae_Code e) (ae_Message e) (ae_Retryable e) requestID |}.

Lemma writeAPIError_run {A} e id s :
  ∃ id' s', (writeAPIError e id : Handler A) s = (Respond (api_answer e id'), s') ∧ quiet s s'.
Proof.
  unfold writeAPIError. destruct (String.eqb id "").
  - destruct (newRequestID_run s) as (id' & s' & E & Hq). rewrite (bind_continue _ _ _ _ _ E). by exists id', s'.
  - exists id, s. split; [done|reflexivity].
Qed.

Lemma request_error_run {A} e s :
  ∃ id s', (requestID ← newRequestID; writeAPIError e requestID : Handler A) s = (Respond (api_answer e id), s') ∧
    quiet s s'.
Proof.
  destruct (newRequestID_run s) as (id & s1 & E & Hq). rewrite (bind_continue _ _ _ _ _ E).
  destruct (writeAPIError_run (A := A) e id s1) as (id' & s2 & E' & Hq'). exists id', s2. split; [done|by etransitivity].
Qed.

(** The key a token belongs to, and the request's outcome at the gate. *)
Definition key_of (r : Request) (s : Server) (keyID : string) (k : APIKeyRow) : Prop :=
  db_api_keys (sv_db (srv_service s)) !! keyID = Some k ∧ ak_active k = true ∧
  ak_key_hash k = HashAPIKey (bearerToken r).

Definition principal_of (s : Server) (keyID : string) (k : APIKeyRow) : APIKeyPrincipal := {|
  pr_ID := keyID; pr_OrganizationID := ak_organization_id k;
  pr_AllowedModels := set_map snd (filter (λ p, p.1 = keyID) (db_permissions (sv_db (srv_service s)))) |}.

Definition counted (s : Server) (keyID : string) : bool * Server :=
  let '(ok, limiter) := Allow (srv_limiter s) keyID (sv_now (srv_service s)) in (ok, s <| srv_limiter := limiter |>).

Lemma counted_quiet s k : quiet s (counted s k).2.
Proof. unfold counted. destruct (Allow _ _ _). reflexivity. Qed.

Lemma APIKeyByHash_cases r s :
  (APIKeyByHash (HashAPIKey (bearerToken r)) (sv_db (srv_service s))).1 =
    Err (ErrApi CodeUnauthorized "Invalid API key." false 401) ∨
  ∃ keyID k, key_of r s keyID k ∧
    (APIKeyByHash (HashAPIKey (bearerToken r)) (sv_db (srv_service s))).1 = Ok (principal_of s keyID k).
Proof.
  unfold APIKeyByHash, mbind, St_bind, gets, id, key_of.
  match goal with |- context [rows_where ?p ?t] => destruct (rows_where p t) as [|[keyID k] rest] eqn:E end; [by left|].
  right. exists keyID, k. assert (Hin : (keyID, k) ∈ (keyID, k) :: rest) by constructor. rewrite <-E in Hin.
  apply elem_of_rows_where in Hin as [Hk Hp]. apply andb_true_iff in Hp as [Hh Ha]. apply String.eqb_eq in Hh.
  by split_and!.
Qed.

Lemma developer_gate {A} (next : Config → Request → APIKeyPrincipal → Handler A) r s :
  (∃ resp s', developerOnly o next r s = (Respond resp, s') ∧ rs_status resp ∈ [401; 429; 503] ∧ quiet s s' ∧
     (no_key r s → rs_status resp ≠ 429)) ∨
  ∃ c keyID k, ao_JobService o = Some c ∧ key_of r s keyID k ∧ (counted s keyID).1 = true ∧
    developerOnly o next r s = next c r (principal_of s keyID k) (counted s keyID).2.
Proof.
  unfold developerOnly. destruct (ao_JobService o) as [c|].
  2: { left. destruct (writeAPIError_run (A := A) {| ae_Code := CodeInternalError; ae_Message := "Job service is not configured.";
         ae_Retryable := true; ae_Status := 503 |} "" s) as (id & s' & -> & Hq).
       eexists _, s'. split_and!; [done|set_solver|done|done]. }
  destruct (String.eqb_spec (bearerToken r) "").
  { left. destruct (request_error_run (A := A) {| ae_Code := CodeUnauthorized; ae_Message := "Missing bearer token.";
      ae_Retryable := false; ae_Status := 401 |} s) as (id & s' & -> & Hq).
    eexists _, s'. split_and!; [done|set_solver|done|done]. }
  erewrite bind_continue by (apply on_db_read; eauto with reads).
  destruct (APIKeyByHash_cases r s) as [E|(keyID & k & Hk & E)]; rewrite E; cbn [or_respond].
  - left. destruct (request_error_run (A := APIKeyPrincipal) {| ae_Code := CodeUnauthorized; ae_Message := "Invalid API key.";
      ae_Retryable := false; ae_Status := 401 |} s) as (id & s' & E' & Hq).
    match type of E' with _ = (Respond ?x, _) => exists x, s' end. split_and!; [|set_solver|exact Hq|done].
    by refine (bind_respond _ _ _ _ _ E').
  - erewrite bind_continue by reflexivity. unfold allow_key, counted.
    destruct (Allow (srv_limiter s) keyID (sv_now (srv_service s))) as [[] lim] eqn:EA.
    + right. exists c, keyID, k. rewrite EA. split_and!; [done|apply Hk..|done|].
      unfold mbind, Handler_bind. cbn [pr_ID principal_of]. by rewrite EA.
    + left. destruct (request_error_run (A := A) {| ae_Code := CodeQuotaExceeded; ae_Message := "API key rate limit exceeded.";
        ae_Retryable := true; ae_Status := 429 |} (s <| srv_limiter := lim |>)) as (id & s' & E' & Hq).
      match type of E' with _ = (Respond ?x, _) => exists x, s' end. split_and!; [|set_solver|etransitivity; [|exact Hq]; reflexivity|].
      * unfold mbind at 1, Handler_bind at 1. cbn [pr_ID principal_of]. rewrite EA. exact E'.
      * intros Hn. destruct Hk as (H1 & H2 & H3). by destruct (Hn _ _ H1 H2).
Qed.

(** C5. Only with credentials does a request do anything. A route under [/internal/] answers 401
    and changes nothing without the operator's token, whatever the route; a request of a
    customer whose token is not that of an active key is answered 401 (503 without a job
    service) and leaves no trace but the request id it drew; and what a customer's handler
    is given is the organization and the models of the key the token belongs to, for a call
    the limiter has counted. *)
Theorem access_control r s :
  (∀ rt, internal_route rt = true → ao_OperatorToken o = "" ∨ bearerToken r ≠ ao_OperatorToken o →
     ∃ message, route rt r s = (Respond {| rs_status := 401; rs_body := ErrorText message |}, s)) ∧
  (∀ rt, developer_route rt = true → no_key r s →
     ∃ resp s', route rt r s = (Respond resp, s') ∧ rs_status resp ∈ [401; 503] ∧ quiet s s') ∧
  (∀ p s', developerOnly o submit r s = (Continue p, s') →
     ∃ c keyID k, key_of r s keyID k ∧ (Allow (srv_limiter s) keyID (sv_now (srv_service s))).1 = true ∧
       submit c r (principal_of s keyID k) (counted s keyID).2 = (Continue p, s')).
Proof.
  assert (Hdev : ∀ A (next : Config → Request → APIKeyPrincipal → Handler A), no_key r s →
    ∃ resp s', developerOnly o next r s = (Respond resp, s') ∧ rs_status resp ∈ [401; 503] ∧ quiet s s').
  { intros A next Hn. destruct (developer_gate next r s) as [(resp & s' & E & Hst & Hq & H429)|(c & k & row & _ & Hk & _)].
    - exists resp, s'. split_and!; [done| |done]. specialize (H429 Hn). set_solver.
    - destruct Hk as (H1 & H2 & H3). by destruct (Hn _ _ H1 H2). }
  split_and!.
  - intros rt Hrt Htok. assert (Hop : ∀ next, ∃ message,
      operatorOnly o next r s = (Respond {| rs_status := 401; rs_body := ErrorText message |}, s)).
    { intros next. unfold operatorOnly, writeError, respond.
      destruct (String.eqb_spec (ao_OperatorToken o) ""); [by eexists|].
      destruct (String.eqb_spec (bearerToken r) (ao_OperatorToken o)); [by destruct Htok|by eexists]. }
    destruct rt; try discriminate Hrt; apply Hop.
  - intros rt Hrt Hn. destruct rt; try discriminate Hrt; by apply Hdev.
  - intros p s' E. destruct (developer_gate (chat_submit marshal_chat dec) r s) as [(? & ? & E' & _)|(c & k & row & _ & Hk & Ha & E')].
    + congruence.
    + exists c, k, row. split_and!; [apply Hk..| |congruence]. unfold counted in Ha. by destruct (Allow _ _ _).
Qed.
End http_theory.
