(* ===== verification/ChatTheory.v ===== *)
(** * Theorems on completion requests

    What a completion request leaves behind on every path through its handler, what it
    answers when it is repeated under its idempotency key, and what one organization can do
    with the jobs of another. *)
From stdpp Require Import base gmap strings list relations.
From Stdlib Require Import ZArith Lia Ascii.
From S2P Require Import Prelude GoStrings Float64 Sha256 Encoding NodeState Schedule Scheduler Protocol Agent NodeAuth Requests Database Registration Ledger LedgerTheory JobStore OperatorStore OperatorReports StoreRuns JobTheory JobService ServiceTheory RegistrationTheory HttpApi HttpOperator HttpTheory.

Section chat_theory.
Context (marshal_chat : ChatCompletionRequest → string) (marshal_response : OpenAIResponse → string).
Context (marshal_async : AsyncJobRequest → string).
Context (dec : Decoders).
Notation submit := (chat_submit marshal_chat dec).
Notation queue := (chat_queue marshal_chat).
Notation finish := (chat_finish marshal_response).

(** ** Before the job exists *)

Lemma silent_validate c r pr : silent (chat_validate dec c r pr).
Proof. unfold chat_validate, authorizedModel. hush. Qed.
Lemma silent_idempotency id k key h : silent (check_idempotency id k key h).
Proof. unfold check_idempotency. hush. Qed.

Lemma bind_cont_inv {A B} (m : Handler A) (f : A → Handler B) s b s' :
  (m ≫= f) s = (Continue b, s') → ∃ a s1, m s = (Continue a, s1) ∧ f a s1 = (Continue b, s').
Proof. unfold mbind, Handler_bind. destruct (m s) as [[a|r] s1]; [by eauto|done]. Qed.
Lemma ret_cont {A} (a b : A) s s' : (mret a : Handler A) s = (Continue b, s') → b = a ∧ s' = s.
Proof. by intros [= <- <-]. Qed.
Lemma respond_cont {A} st b s (a : A) s' : (respond st b : Handler A) s = (Continue a, s') → False.
Proof. done. Qed.
Lemma error_cont {A} e id s (a : A) s' : (writeAPIError e id : Handler A) s = (Continue a, s') → False.
Proof. intros H. destruct (writeAPIError_run (A := A) e id s) as (? & ? & E & _). congruence. Qed.
Lemma guard_cont {A} id (x : result A) s a s' : api_guard id x s = (Continue a, s') → x = Ok a ∧ s' = s.
Proof.
  unfold api_guard, or_respond, writeErr. destruct x as [a'|e]; [by intros [-> ->]%ret_cont|]. intros []%error_cont.
Qed.

Lemma model_listed m cut db info :
  (ModelInfo_ m cut db).1 = Ok info → mi_ID info = m.
Proof.
  unfold ModelInfo_, mbind, St_bind. destruct (ListModels cut db) as [[models|] d]; [|done].
  destruct (filter _ models) as [|info' rest] eqn:E; [done|].
  assert (Hin : info' ∈ info' :: rest) by constructor. rewrite <-E in Hin. apply list_elem_of_filter in Hin as [Hid _].
  destruct (ModelHashes m d) as [[h|] d']; [|done]. intros [= <-]. done.
Qed.

(** What passed the checks. *)
Lemma chat_validate_ok c r pr s a s' :
  chat_validate dec c r pr s = (Continue a, s') →
  ∃ body, readPublicBody (hq_Body r) MaxPublicRequestBytes = Ok body ∧ ad_bodyHash a = sha256_string body ∧
    DecodeChatCompletionRequest dec body = Ok (ad_req a) ∧
    mi_ID (ad_model a) = cc_Model (ad_req a) ∧ mi_ID (ad_model a) ∈ pr_AllowedModels pr ∧
    ValidateChatCompletion (ad_req a) (ad_model a) (Z.of_nat (String.length body)) = Ok (ad_chatRequest a).
Proof.
  unfold chat_validate. intros H.
  apply bind_cont_inv in H as (id & s1 & _ & H).
  apply bind_cont_inv in H as (body & s2 & [Hb ->]%guard_cont & H).
  apply bind_cont_inv in H as (req & s3 & [Hd ->]%guard_cont & H).
  apply bind_cont_inv in H as (auth & s4 & Hauth & H).
  apply bind_cont_inv in H as (model & s5 & [-> ->]%guard_cont & H).
  apply bind_cont_inv in H as (cr & s6 & [Hv ->]%guard_cont & H).
  apply ret_cont in H as [-> _]. exists body. cbn [ad_bodyHash ad_req ad_model ad_chatRequest].
  unfold authorizedModel in Hauth. destruct (String.eqb_spec (cc_Model req) ""); [by apply ret_cont in Hauth as [? _]|].
  destruct (bool_decide_reflect (cc_Model req ∈ pr_AllowedModels pr)) as [Hin|]; [|by apply ret_cont in Hauth as [? _]].
  simpl in Hauth. apply bind_cont_inv in Hauth as (now & s7 & _ & Hauth).
  apply bind_cont_inv in Hauth as (found & s8 & Hf & [Hm _]%ret_cont).
  rewrite on_db_read in Hf by eauto with reads. injection Hf as <- <-.
  destruct (ModelInfo_ _ _ _).1 as [info|e] eqn:E; [|done]. injection Hm as ->. apply model_listed in E.
  rewrite E. by split_and!.
Qed.

(** ** From the job to its attempt *)

Definition new_job (pr : APIKeyPrincipal) (m body : string) (deadline created : Z) : JobRow := {|
  j_organization_id := pr_OrganizationID pr; j_api_key_id := pr_ID pr; j_model_id := m; j_state := JQueued;
  j_priority := "standard"; j_request_metadata := body; j_deadline_at := deadline; j_created_at := created;
  j_updated_at := created; j_completed_at := None |}.

Lemma CreateJob_cases pr m body deadline db :
  match CreateJob (pr_OrganizationID pr) (pr_ID pr) m "standard" body deadline db with
  | (Ok j, db') => db_jobs db !! j = None ∧ ∃ ent, db' = db <| db_entropy := ent |>
      <| db_jobs ::= <[j := new_job pr m body deadline (db_now db)]> |>
  | (Err _, db') => ∃ ent, db' = db <| db_entropy := ent |>
  end.
Proof.
  unfold CreateJob, mbind, St_bind, ids_New. destruct (db_entropy db) as [|e rest] eqn:E; [exists []; by destruct db; simplify_eq/=|].
  unfold gets, wrap, constraint, guard_err, id. simpl.
  destruct (fresh_key _ _) eqn:Ef; simpl; [|by exists rest]. apply fresh_key_true in Ef.
  do 3 (destruct (has_key _ _); simpl; [|by exists rest]). split; [done|by exists rest].
Qed.

(** What holds of the service once the request has been answered. *)
Definition dropped (j : string) (s : Server) : Prop :=
  sv_pending (srv_service s) !! j = None ∧ sv_runs (srv_service s) !! j = None.

Lemma quiet_dropped j s s' : quiet s s' → dropped j s → dropped j s'.
Proof. intros (ent & lim & ->)%quiet_spec. done. Qed.
Lemma on_db_dropped {A} (m : St DB A) j s : dropped j s → dropped j (on_db m s).2.
Proof. unfold on_db, on_service, on_store. by destruct (m _). Qed.

(** The jobs of a table are still there. *)
Definition jobs_kept (T : gmap string JobRow) (sv : Service) : Prop := jobs_from T (sv_db sv).

#[export] Instance jobs_kept_frame T : ServiceFrame (jobs_kept T).
Proof.
  split; [split|]; try done; [intros op s _ Hs; by apply (si_run_op (jobs_from T))|].
  intros j r s Hs. unfold removeRun, notify, mbind, St_bind. simpl. by destruct (sv_pending s !! j).
Qed.

Lemma jobs_kept_quiet T s s' : quiet s s' → jobs_kept T (srv_service s) → jobs_kept T (srv_service s').
Proof. intros (ent & lim & ->)%quiet_spec. done. Qed.

Lemma schedule_failed_spec {A} j id e s :
  ∃ resp s', (schedule_failed j id e : Handler A) s = (Respond resp, s') ∧ dropped j s' ∧
    ∀ T, jobs_kept T (srv_service s) → jobs_kept T (srv_service s').
Proof.
  unfold schedule_failed. erewrite bind_continue by reflexivity.
  set (s1 := _ <| srv_service := _ |>). assert (Hd : dropped j s1) by (split; simpl; apply lookup_delete_eq).
  assert (Hk : ∀ T, jobs_kept T (srv_service s) → jobs_kept T (srv_service s1)) by done.
  destruct (as_api e) as [apiErr|].
  - erewrite bind_continue by reflexivity.
    set (m := FailJob j "" (ae_Code apiErr) true _). pose proof (on_db_dropped m j s1 Hd) as Hd2.
    assert (Hk2 : ∀ T, jobs_kept T (srv_service s1) → jobs_kept T (srv_service (on_db m s1).2)).
    { intros T HT. apply (keeps_service (jobs_kept T) (on_store m)); [|exact HT]. apply (q_fail_job (jobs_kept T)). }
    destruct (on_db m s1) as [[r|r] s2] eqn:E; [|by unfold on_db, on_service, on_store in E; destruct (m _)].
    rewrite (bind_continue _ _ _ _ _ E). destruct (writeAPIError_run (A := A) apiErr id s2) as (id' & s3 & -> & Hq).
    eexists _, s3. split; [done|]. split; [by apply (quiet_dropped j s2)|]. intros T HT. apply (jobs_kept_quiet T s2 s3 Hq); auto.
  - destruct (writeAPIError_run (A := A) (internal "Could not schedule job.") id s1) as (id' & s3 & -> & Hq).
    eexists _, s3. split; [done|]. split; [by apply (quiet_dropped j s1)|]. intros T HT. apply (jobs_kept_quiet T s1 s3 Hq); auto.
Qed.

(** The job of a request, and what is left of the request. *)
Definition queued (pr : APIKeyPrincipal) (m : string) (deadline : Z) (s : Server) (out : outcome Pending) (s' : Server)
    : Prop :=
  ∃ j job, db_jobs (sv_db (srv_service s)) !! j = None ∧ db_jobs (sv_db (srv_service s')) !! j = Some job ∧
    j_organization_id job = pr_OrganizationID pr ∧ j_api_key_id job = pr_ID pr ∧ j_model_id job = m ∧
    j_deadline_at job = deadline ∧
    match out with
    | Respond _ => dropped j s'
    | Continue p => pd_jobID p = j ∧ pd_deadlineAt p = deadline ∧ waits j (pd_waitCh p) (srv_service s')
    end.

Lemma chat_queue_cases c pr key a s out s' :
  chans_below (srv_service s) → queue c pr key a s = (out, s') →
  (∃ resp, out = Respond resp ∧ quiet s s') ∨
  queued pr (mi_ID (ad_model a)) (sv_now (srv_service s) + sync_timeout c) s out s'.
Proof.
  intros Hb. unfold chat_queue. erewrite bind_continue by reflexivity. cbv zeta.
  set (deadline := sv_now (srv_service s) + sync_timeout c).
  pose proof (CreateJob_cases pr (mi_ID (ad_model a)) (marshal_chat (ad_req a)) deadline (sv_db (srv_service s))) as Hc.
  set (m := CreateJob _ _ _ _ _ _) in *.
  assert (Em : on_db m s = (Continue (m (sv_db (srv_service s))).1,
                            s <| srv_service ::= (λ sv, sv <| sv_db := (m (sv_db (srv_service s))).2 |>) |>)).
  { unfold on_db, on_service, on_store. by destruct (m _). }
  rewrite (bind_continue _ _ _ _ _ Em). destruct (m (sv_db (srv_service s))) as [[j|e] db'].
  2: { destruct Hc as [ent Hc]. intros H. left. simpl in H. match type of H with ((writeAPIError ?e ?id ≫= ?f) ?s1) = _ =>
         destruct (writeAPIError_run (A := string) e id s1) as (id' & s2 & E & Hq); rewrite (bind_respond _ f _ _ _ E) in H end.
       injection H as <- <-. eexists. split; [done|]. etransitivity; [|exact Hq]. rewrite Hc. by destruct s as [[]]. }
  destruct Hc as (Hj & ent & Hdb). cbn [fst snd or_respond]. intros H. right.
  erewrite bind_continue in H by reflexivity.
  set (s1 := s <| srv_service ::= _ |>) in H.
  set (sv1 := (RegisterWait j (srv_service s1)).2).
  erewrite (bind_continue (on_service (RegisterWait j))) in H by reflexivity.
  erewrite bind_continue in H by reflexivity.
  set (s2 := s1 <| srv_service := _ |>) in H.
  set (run := Schedule_ c j (ad_model a) (ad_chatRequest a) deadline) in *.
  assert (Hwait : waits j (sv_nextChan (srv_service s1)) (run (srv_service s2)).2).
  { apply scheduled_waits. exact Hb. }
  set (T := <[j := new_job pr (mi_ID (ad_model a)) (marshal_chat (ad_req a)) deadline
                     (db_now (sv_db (srv_service s)))]> (db_jobs (sv_db (srv_service s)))).
  assert (Hkept : jobs_kept T (run (srv_service s2)).2).
  { apply (q_Schedule c (jobs_kept T)); [done|]. unfold jobs_kept, jobs_from. simpl. rewrite Hdb. simpl. reflexivity. }
  assert (Hrow : ∀ s3, jobs_kept T (srv_service s3) → ∃ job, db_jobs (sv_db (srv_service s3)) !! j = Some job ∧
    j_organization_id job = pr_OrganizationID pr ∧ j_api_key_id job = pr_ID pr ∧ j_model_id job = mi_ID (ad_model a) ∧
    j_deadline_at job = deadline).
  { intros s3 Hs3. destruct (Hs3 j _ (lookup_insert_eq _ _ _)) as (job & Hjob & Hid). exists job.
    split; [done|]. unfold job_identity in Hid. simpl in Hid. by simplify_eq. }
  assert (Es : on_service run s2 = (Continue (run (srv_service s2)).1, s2 <| srv_service := (run (srv_service s2)).2 |>))
    by (unfold on_service; by destruct (run _)).
  rewrite (bind_continue _ _ _ _ _ Es) in H. destruct (run (srv_service s2)) as [[att|e] sv3]; cbn [fst snd or_respond] in *.
  - erewrite bind_continue in H by reflexivity. injection H as <- <-.
    set (s3 := s2 <| srv_service := sv3 |>). destruct (Hrow s3 Hkept) as (job & Hjob & ? & ? & ? & ?).
    exists j, job. by split_and!.
  - set (s3 := s2 <| srv_service := sv3 |>) in *.
    destruct (schedule_failed_spec (A := ScheduledAttempt) j (ad_requestID a) e s3) as (resp & s4 & E & Hd & Hk).
    rewrite (bind_respond _ _ _ _ _ E) in H. injection H as <- <-.
    destruct (Hrow s4 (Hk T Hkept)) as (job & Hjob & ? & ? & ? & ?). exists j, job. by split_and!.
Qed.

Lemma submit_cases c r pr s out s' :
  submit c r pr s = (out, s') →
  (∃ resp, out = Respond resp ∧ quiet s s') ∨
  ∃ a s1 s2, chat_validate dec c r pr s = (Continue a, s1) ∧ quiet s s1 ∧ quiet s s2 ∧
    check_idempotency (ad_requestID a) (pr_ID pr) (idempotency_key r) (ad_bodyHash a) s1 = (Continue tt, s2) ∧
    queue c pr (idempotency_key r) a s2 = (out, s').
Proof.
  unfold chat_submit. intros H. pose proof (silent_validate c r pr s) as Hq1.
  destruct (chat_validate dec c r pr s) as [[a|resp] s1] eqn:E1; simpl in Hq1.
  2: { rewrite (bind_respond _ _ _ _ _ E1) in H. injection H as <- <-. left. by exists resp. }
  rewrite (bind_continue _ _ _ _ _ E1) in H.
  pose proof (silent_idempotency (ad_requestID a) (pr_ID pr) (idempotency_key r) (ad_bodyHash a) s1) as Hq2.
  destruct (check_idempotency _ _ _ _ s1) as [[[]|resp] s2] eqn:E2; simpl in Hq2.
  2: { rewrite (bind_respond _ _ _ _ _ E2) in H. injection H as <- <-. left. exists resp. split; [done|by etransitivity]. }
  rewrite (bind_continue _ _ _ _ _ E2) in H. right. exists a, s1, s2. split_and!; try done. by etransitivity.
Qed.

(** C6. What a completion request leaves behind, on every path through the handler. Either it is
    answered at once and nothing has changed but the request id it drew; or one new job is in
    the table, for the organization and key that called, for a model the key may use, with
    the deadline of the request. If the handler then answers because the job could not be
    scheduled, the service has forgotten it: no channel and no retry context is left. If it
    goes on to wait, the job is waiting on the handler's channel, or its one result is in it. *)
Theorem chat_outcomes c r pr s out s' :
  chans_below (srv_service s) → submit c r pr s = (out, s') →
  (∃ resp, out = Respond resp ∧ quiet s s') ∨
  ∃ j job, db_jobs (sv_db (srv_service s)) !! j = None ∧ db_jobs (sv_db (srv_service s')) !! j = Some job ∧
    j_organization_id job = pr_OrganizationID pr ∧ j_api_key_id job = pr_ID pr ∧
    j_model_id job ∈ pr_AllowedModels pr ∧ j_deadline_at job = sv_now (srv_service s) + sync_timeout c ∧
    match out with
    | Respond _ => sv_pending (srv_service s') !! j = None ∧ sv_runs (srv_service s') !! j = None
    | Continue p => pd_jobID p = j ∧ let sv := srv_service s' in
        (sv_pending sv !! j = Some (pd_waitCh p) ∧ is_Some (sv_runs sv !! j) ∧ sv_chans sv !! pd_waitCh p = Some []) ∨
        (sv_pending sv !! j ≠ Some (pd_waitCh p) ∧ ∃ result, sv_chans sv !! pd_waitCh p = Some [result])
    end.
Proof.
  intros Hb H. destruct (submit_cases _ _ _ _ _ _ H) as [?|(a & s1 & s2 & E & Hq1 & Hq & _ & Hqueue)]; [by left|].
  destruct (chat_validate_ok _ _ _ _ _ _ E) as (body & _ & _ & _ & _ & Hmodel & _).
  destruct (quiet_spec _ _ Hq) as (ent & lim & Es2).
  assert (Hb2 : chans_below (srv_service s2)) by (rewrite Es2; exact Hb).
  destruct (chat_queue_cases c pr (idempotency_key r) a s2 out s' Hb2 Hqueue) as [(resp & -> & Hq')|Hj].
  - left. exists resp. split; [done|by etransitivity].
  - right. destruct Hj as (j & job & Hj & Hjob & Ho & Hk & Hm & Hd & Hout). rewrite Es2 in Hj, Hd. exists j, job. simpl in *.
    split_and!; [done..|by rewrite Hm|done|]. destruct out as [p|resp]; [|exact Hout].
    destruct Hout as (Hpj & _ & Hw). split; [done|]. exact (wt_state _ _ _ Hw).
Qed.

(** ** Idempotent requests *)

Lemma check_idempotency_record id k key h s k0 row :
  key ≠ "" → db_idempotency_records (sv_db (srv_service s)) !! k0 = Some row →
  same_request k chatCompletionsEndpoint key k0 row = true →
  (∀ k' r', db_idempotency_records (sv_db (srv_service s)) !! k' = Some r' →
     same_request k chatCompletionsEndpoint key k' r' = true → k' = k0) →
  db_now (sv_db (srv_service s)) < id_expires_at row → 0 < id_response_status row →
  if String.eqb (id_request_hash row) h
  then check_idempotency id k key h s =
         (Respond {| rs_status := id_response_status row; rs_body := RawJSON (id_response_metadata row) |}, s)
  else ∃ resp s', check_idempotency id k key h s = (Respond resp, s') ∧ rs_status resp = 409 ∧ quiet s s'.
Proof.
  intros Hkey Hrow Hsame Huniq Hexp Hst. unfold check_idempotency.
  rewrite (proj2 (String.eqb_neq key "") Hkey). erewrite !bind_continue by (apply on_db_read; eauto with reads).
  rewrite (IdempotencyRecord_one _ _ _ _ _ _ Hrow Hsame Huniq), (proj2 (Z.ltb_lt _ _) Hexp).
  cbn [or_respond]. erewrite bind_continue by reflexivity. cbn [fst snd negb]. unfold ResolveIdempotency.
  cbn [ir_RequestHash ir_ResponseStatus ir_ResponseMetadata negb].
  destruct (String.eqb_spec (id_request_hash row) h) as [_|_]; simpl.
  - by rewrite (proj2 (Z.ltb_lt _ _) Hst).
  - unfold writeErr, as_api, root_cause, invalid. cbn [default].
    match goal with |- context [writeAPIError ?e ?id] => destruct (writeAPIError_run (A := unit) e id s) as (id' & s' & E & Hq) end.
    exists (api_answer {| ae_Code := CodeInvalidRequest;
      ae_Message := "Idempotency-Key was already used with a different request body."; ae_Retryable := false;
      ae_Status := 409 |} id'), s'. by split_and!.
Qed.

Lemma on_db_run {A} (m : St DB A) s :
  on_db m s = (Continue (m (sv_db (srv_service s))).1,
               s <| srv_service ::= (λ sv, sv <| sv_db := (m (sv_db (srv_service s))).2 |>) |>).
Proof. unfold on_db, on_service, on_store. by destruct (m _). Qed.

(** The record of a completed request. *)
Definition answered_row (p : Pending) (response : OpenAIResponse) (created now : Z) : IdempotencyRow := {|
  id_api_key_id := pd_principalID p; id_endpoint := chatCompletionsEndpoint;
  id_idempotency_key := pd_idempotencyKey p; id_request_hash := pd_bodyHash p; id_response_status := 200;
  id_response_metadata := marshal_response response; id_job_id := Some (pd_jobID p); id_created_at := created;
  id_expires_at := now + 24 * 60 * minute |}.

Lemma answered_same p response t now k :
  same_request (pd_principalID p) chatCompletionsEndpoint (pd_idempotencyKey p) k (answered_row p response t now) = true.
Proof. unfold same_request. simpl. by rewrite !String.eqb_refl. Qed.

Lemma finish_stored p response s answer json s1 :
  unused_key (sv_db (srv_service s)) (pd_principalID p) chatCompletionsEndpoint (pd_idempotencyKey p) →
  pd_idempotencyKey p ≠ "" →
  finish p (Some (ResultResponse response)) s = (Respond answer, s1) → rs_body answer = RawJSON json →
  answer = {| rs_status := 200; rs_body := RawJSON (marshal_response response) |} ∧
  ∃ id, db_idempotency_records (sv_db (srv_service s1)) =
    <[id := answered_row p response (db_now (sv_db (srv_service s))) (sv_now (srv_service s))]>
      (db_idempotency_records (sv_db (srv_service s))).
Proof.
  intros Hu Hkey. unfold chat_finish. rewrite (proj2 (String.eqb_neq _ _) Hkey).
  erewrite bind_continue by reflexivity. rewrite (bind_continue _ _ _ _ _ (on_db_run _ _)).
  pose proof (StoreIdempotencyResponse_fresh _ _ _ (pd_bodyHash p) (pd_jobID p) 200 (marshal_response response)
    (sv_now (srv_service s) + 24 * 60 * minute) _ Hu) as Hs.
  destruct (StoreIdempotencyResponse _ _ _ _ _ _ _ _ _) as [[[]|e] db'].
  - destruct Hs as (ent & id & ->). set (s2 := s <| srv_service ::= _ |>).
    rewrite (bind_continue _ _ _ _ _ (on_db_read _ s2 (reads_IdempotencyRecord _ _ _))).
    rewrite (IdempotencyRecord_one _ _ _ _ id (answered_row p response (db_now (sv_db (srv_service s))) (sv_now (srv_service s)))
      (lookup_insert_eq _ _ _) (answered_same _ _ _ _ _)).
    2: { intros k' r'. simpl. rewrite lookup_insert_Some. intros [[<- _]|[_ Hk]] E; [done|]. by rewrite (Hu k' r' Hk) in E. }
    destruct (_ <? _); intros [= <- <-]; [|done]. intros [= <-]. split; [done|]. by exists id.
  - destruct Hs as (ent & ->). set (s2 := s <| srv_service ::= _ |>).
    rewrite (bind_continue _ _ _ _ _ (on_db_read _ s2 (reads_IdempotencyRecord _ _ _))).
    unfold IdempotencyRecord_, mbind, St_bind, gets, id. rewrite rows_where_none; [by intros [= <- <-]|].
    intros k r Hk. by rewrite (Hu k r Hk).
Qed.

(** An event that stores no other answer under the key of a request. *)
Definition other_answer (p : Pending) (e : ServerEvent) : Prop :=
  match e with
  | EvChatDone q _ => pd_principalID q = pd_principalID p → pd_idempotencyKey q ≠ pd_idempotencyKey p
  | EvService (SvStore op) => other_key (pd_principalID p) chatCompletionsEndpoint (pd_idempotencyKey p) op
  | _ => True
  end.

Lemma other_answer_stored p e op :
  other_answer p e → stored_by marshal_response e op →
  other_key (pd_principalID p) chatCompletionsEndpoint (pd_idempotencyKey p) op.
Proof.
  destruct e as [| |q received| | | |[]]; cbn; try done; [|by intros H ->].
  intros Hne (_ & response & expires & ->). cbn. intros (E1 & _ & E2). by destruct (Hne E1).
Qed.

Lemma finish_record p response s answer json s1 :
  unused_key (sv_db (srv_service s)) (pd_principalID p) chatCompletionsEndpoint (pd_idempotencyKey p) →
  pd_idempotencyKey p ≠ "" →
  finish p (Some (ResultResponse response)) s = (Respond answer, s1) → rs_body answer = RawJSON json →
  answer = {| rs_status := 200; rs_body := RawJSON (marshal_response response) |} ∧
  ∃ id, record_of (pd_principalID p) chatCompletionsEndpoint (pd_idempotencyKey p) id
    (answered_row p response (db_now (sv_db (srv_service s))) (sv_now (srv_service s))) (sv_db (srv_service s1)).
Proof.
  intros Hu Hkey Hfin Hbody. destruct (finish_stored _ _ _ _ _ _ Hu Hkey Hfin Hbody) as (-> & id & Hrec).
  split; [done|]. exists id. split; rewrite ?Hrec; [apply lookup_insert_eq|apply answered_same|].
  intros k r. rewrite lookup_insert_Some. intros [[<- _]|[_ Hk]] E; [done|]. by rewrite (Hu k r Hk) in E.
Qed.

(** A request under a key with a record that is live. *)
Lemma recorded_retry c r pr p response created now id s2 a s3 :
  let row := answered_row p response created now in
  record_of (pd_principalID p) chatCompletionsEndpoint (pd_idempotencyKey p) id row (sv_db (srv_service s2)) →
  pd_idempotencyKey p ≠ "" → db_now (sv_db (srv_service s2)) < id_expires_at row →
  pr_ID pr = pd_principalID p → idempotency_key r = pd_idempotencyKey p →
  chat_validate dec c r pr s2 = (Continue a, s3) →
  if String.eqb (pd_bodyHash p) (ad_bodyHash a)
  then submit c r pr s2 = (Respond {| rs_status := 200; rs_body := RawJSON (marshal_response response) |}, s3) ∧ quiet s2 s3
  else ∃ resp s4, submit c r pr s2 = (Respond resp, s4) ∧ rs_status resp = 409 ∧ quiet s2 s4.
Proof.
  cbv zeta. set (row := answered_row _ _ _ _). intros [Hrow Hsame Hu] Hkey Hnow Hpr Hrk Hval.
  pose proof (silent_validate c r pr s2) as Hq. rewrite Hval in Hq. simpl in Hq.
  destruct (quiet_spec _ _ Hq) as (ent & lim & E3).
  pose proof (check_idempotency_record (ad_requestID a) (pd_principalID p) (pd_idempotencyKey p) (ad_bodyHash a) s3 id row Hkey) as Hc.
  rewrite E3 in Hc. specialize (Hc Hrow Hsame Hu Hnow eq_refl). rewrite <-E3 in Hc.
  unfold chat_submit. rewrite (bind_continue _ _ _ _ _ Hval), Hpr, Hrk.
  simpl in Hc. destruct (String.eqb (pd_bodyHash p) (ad_bodyHash a)).
  - by rewrite (bind_respond _ _ _ _ _ Hc).
  - destruct Hc as (resp & s4 & E & Hst & Hq'). exists resp, s4. rewrite (bind_respond _ _ _ _ _ E).
    split_and!; [done|done|by etransitivity].
Qed.

(** C9. An idempotent request is answered once for all. When a completed request whose key was
    not used before was answered in the form stored under the key, and whatever customers,
    operators and nodes do then, as long as no other request under the same key of the same API
    key completes (one could only do so if it had passed the check before the answer was
    stored), for twenty-four hours a request under that key that passes the checks gets that
    very answer (status and body) when its body is the same, and is refused as a conflict when
    it is not; in both cases no job is created and nothing else changes. A key that was used
    before and has expired is not in use again (JobTheory, [expired_key_not_refreshed]). *)
Theorem idempotent_retry ver json_m parse_t parse_d format_t marshal_c parse_a parse_csv lower o version
    c r pr p response s answer json s1 es a s3 :
  unused_key (sv_db (srv_service s)) (pd_principalID p) chatCompletionsEndpoint (pd_idempotencyKey p) →
  pd_idempotencyKey p ≠ "" →
  finish p (Some (ResultResponse response)) s = (Respond answer, s1) → rs_body answer = RawJSON json →
  Forall (other_answer p) es →
  let s2 := server_run ver json_m parse_t parse_d format_t marshal_c marshal_chat marshal_async marshal_response
              parse_a parse_csv lower dec o version es s1 in
  db_now (sv_db (srv_service s2)) < sv_now (srv_service s) + 24 * 60 * minute →
  pr_ID pr = pd_principalID p → idempotency_key r = pd_idempotencyKey p →
  chat_validate dec c r pr s2 = (Continue a, s3) →
  if String.eqb (pd_bodyHash p) (ad_bodyHash a)
  then submit c r pr s2 = (Respond answer, s3) ∧ quiet s2 s3
  else ∃ resp s4, submit c r pr s2 = (Respond resp, s4) ∧ rs_status resp = 409 ∧ quiet s2 s4.
Proof.
  intros Hu Hkey Hfin Hbody Hes s2 Hnow Hpr Hrk Hval.
  destruct (finish_record _ _ _ _ _ _ Hu Hkey Hfin Hbody) as (-> & id & Hrec).
  apply (recorded_retry c r pr p response (db_now (sv_db (srv_service s))) (sv_now (srv_service s)) id); try done.
  assert (Hran : ran_by (other_key (pd_principalID p) chatCompletionsEndpoint (pd_idempotencyKey p)) (sv_db (srv_service s1)) (srv_service s2)).
  { apply k_run; [by intros []| |by exists []]. apply (Forall_impl _ _ _ Hes). intros e He op. by apply other_answer_stored. }
  destruct Hran as (ops & Hops & ->). by apply record_of_run_ops.
Qed.

(** ** Other organizations *)

Lemma GetJob_run org j db :
  (GetJob org j db).1 =
    match db_jobs db !! j with
    | Some job =>
        if String.eqb (j_organization_id job) org then
          Ok {| jst_ID := j; jst_State := j_state job; jst_Model := j_model_id job; jst_CreatedAt := j_created_at job;
                jst_UpdatedAt := j_updated_at job;
                jst_Result := if bool_decide (j_state job = JSucceeded) then accepted_result db j else None |}
        else Err (ErrApi CodeInvalidRequest "Job not found." false 404)
    | None => Err (ErrApi CodeInvalidRequest "Job not found." false 404)
    end.
Proof.
  unfold GetJob, mbind, St_bind, gets, id, of_option, guard_err. simpl. destruct (db_jobs db !! j); [|done].
  simpl. by destruct (String.eqb _ _).
Qed.

Lemma CancelJob_other org j now db :
  (∀ job, db_jobs db !! j = Some job → String.eqb (j_organization_id job) org = false) →
  CancelJob org j now db =
    (Err (ErrApi CodeInvalidRequest "Job cannot be cancelled in its current state." false 409), db).
Proof.
  intros Ho. assert (Hno : ∀ k job p, db_jobs db !! k = Some job →
    (String.eqb k j && (String.eqb (j_organization_id job) org && p))%bool = false).
  { intros k job p Hk. destruct (String.eqb_spec k j) as [->|]; [|done]. by rewrite (Ho job Hk). }
  unfold CancelJob, mbind, St_bind, gets, update_job, modify, constraint, guard_err. cbn beta iota.
  rewrite (proj2 (exists_row_false _ (db_jobs db))) by (intros k job Hk; by apply Hno).
  unfold fail. f_equal. unfold upd_field. cbn. rewrite update_where_id by (intros k job Hk; by apply Hno). by destruct db.
Qed.

(** C18. The jobs of one organization are out of reach of another: asking for one is answered as
    if it did not exist, cancelling one is refused, and neither changes anything; asking for
    one's own job answers its status. *)
Theorem tenant_isolation c r pr s :
  let j := hq_PathValue r "job_id" in
  ((∀ job, db_jobs (sv_db (srv_service s)) !! j = Some job → j_organization_id job ≠ pr_OrganizationID pr) →
     (∃ resp s', getJobHandler c r pr s = (Respond resp, s') ∧ rs_status resp = 404 ∧ quiet s s') ∧
     (∃ resp s', cancelJobHandler c r pr s = (Respond resp, s') ∧ rs_status resp = 409 ∧ quiet s s')) ∧
  (∀ job, db_jobs (sv_db (srv_service s)) !! j = Some job → j_organization_id job = pr_OrganizationID pr →
     ∃ status s', getJobHandler c r pr s = (Respond {| rs_status := 200; rs_body := JobBody status |}, s') ∧
       jst_ID status = j ∧ jst_State status = j_state job ∧ quiet s s').
Proof.
  intros j. destruct (newRequestID_run s) as (id & s1 & E & Hq). destruct (quiet_spec _ _ Hq) as (ent & lim & E1).
  split.
  - intros Hother. assert (Hother1 : ∀ job, db_jobs (sv_db (srv_service s1)) !! j = Some job →
      String.eqb (j_organization_id job) (pr_OrganizationID pr) = false).
    { rewrite E1. intros job Hjob. apply String.eqb_neq. by apply Hother. }
    split.
    + unfold getJobHandler. rewrite (bind_continue _ _ _ _ _ E). erewrite bind_continue by (apply on_db_read; eauto with reads).
      rewrite GetJob_run. fold j. destruct (writeAPIError_run (A := JobStatus) {| ae_Code := CodeInvalidRequest;
        ae_Message := "Job not found."; ae_Retryable := false; ae_Status := 404 |} id s1) as (id' & s2 & E2 & Hq2).
      exists (api_answer {| ae_Code := CodeInvalidRequest; ae_Message := "Job not found."; ae_Retryable := false;
                            ae_Status := 404 |} id'), s2. split_and!; [|done|by etransitivity].
      destruct (db_jobs (sv_db (srv_service s1)) !! j) as [job|] eqn:Ej; [rewrite (Hother1 _ eq_refl)|];
        by refine (bind_respond _ _ _ _ _ E2).
    + unfold cancelJobHandler. rewrite (bind_continue _ _ _ _ _ E). erewrite bind_continue by reflexivity.
      rewrite (bind_continue _ _ _ _ _ (on_db_run _ _)).
      rewrite (CancelJob_other _ _ _ _ Hother1). simpl.
      destruct (writeAPIError_run (A := JobStatus) {| ae_Code := CodeInvalidRequest;
        ae_Message := "Job cannot be cancelled in its current state."; ae_Retryable := false; ae_Status := 409 |} id s1)
        as (id' & s2 & E2 & Hq2).
      exists (api_answer {| ae_Code := CodeInvalidRequest; ae_Message := "Job cannot be cancelled in its current state.";
                            ae_Retryable := false; ae_Status := 409 |} id'), s2.
      split_and!; [|done|by etransitivity]. refine (bind_respond _ _ _ _ _ _). rewrite <-E2. f_equal. by destruct s1 as [[]].
  - intros job Hj Ho. unfold getJobHandler. rewrite (bind_continue _ _ _ _ _ E).
    erewrite bind_continue by (apply on_db_read; eauto with reads). rewrite GetJob_run. fold j.
    replace (db_jobs (sv_db (srv_service s1)) !! j) with (Some job) by (by rewrite E1).
    rewrite Ho, String.eqb_refl. by eexists _, s1.
Qed.
End chat_theory.
