(* ===== verification/SessionTheory.v ===== *)
(** * Theorems on node sessions and the public page

    What the messages of a session can touch, when its end is recorded, how a bootstrap token
    becomes a session; the limiter of the waitlist and the age of the public status. *)
From stdpp Require Import base gmap strings list relations sorting.
From Stdlib Require Import ZArith Lia Ascii.
From S2P Require Import Prelude GoStrings Float64 Sha256 Encoding NodeState Schedule Scheduler Protocol Agent NodeAuth Requests Database Registration Ledger LedgerTheory JobStore OperatorStore OperatorReports StoreRuns JobTheory JobService ServiceTheory RegistrationTheory OperatorTheory HttpApi HttpOperator HttpTheory ChatTheory.

(** ** What a node can write *)

(** The database without what nodes report. *)
Definition unreported (db : DB) : DB :=
  db <| db_entropy := [] |> <| db_nodes := ∅ |> <| db_node_sessions := ∅ |> <| db_node_heartbeats := ∅ |>
     <| db_security_events := ∅ |>.

(** From [db0] to [db] only the node's own row, its session and new reports of the node in
    that session have changed. *)
Record own_reports (node session : string) (db0 db : DB) : Prop := {
  or_rest : unreported db = unreported db0;
  or_nodes n : n ≠ node → db_nodes db !! n = db_nodes db0 !! n;
  or_sessions k : k ≠ session → db_node_sessions db !! k = db_node_sessions db0 !! k;
  or_heartbeats k h : db_node_heartbeats db !! k = Some h →
    db_node_heartbeats db0 !! k = Some h ∨ (hr_node_id h = node ∧ hr_session_id h = session);
  or_events k e : db_security_events db !! k = Some e →
    db_security_events db0 !! k = Some e ∨ se_row_node_id e = node
}.

Lemma own_reports_refl n sid db : own_reports n sid db db.
Proof. split; auto. Qed.

#[export] Instance own_reports_tables n sid db0 : TableProp (own_reports n sid db0).
Proof. intros db ent. split; intros []; by split. Qed.

Section own.
Context (n sid : string) (db0 : DB).
Notation P := (own_reports n sid db0).

Lemma own_nodes f : preserves P (update_nodes (λ k _, String.eqb k n) f).
Proof.
  apply preserves_modify. intros db []. split; try done. intros m Hm. simpl. rewrite lookup_update_where, or_nodes0 by done.
  destruct (db_nodes db0 !! m); simpl; [|done]. by rewrite (proj2 (String.eqb_neq m n) Hm).
Qed.
Lemma own_session f : preserves P (update_sessions (λ k _, String.eqb k sid) f).
Proof.
  apply preserves_modify. intros db []. split; try done. intros k Hk. simpl. rewrite lookup_update_where, or_sessions0 by done.
  destruct (db_node_sessions db0 !! k); simpl; [|done]. by rewrite (proj2 (String.eqb_neq k sid) Hk).
Qed.
Lemma own_heartbeat id row :
  hr_node_id row = n → hr_session_id row = sid → preserves P (modify (λ d, d <| db_node_heartbeats ::= <[id := row]> |>)).
Proof.
  intros Hn Hs. apply preserves_modify. intros db []. split; try done. intros k h. simpl. rewrite lookup_insert_Some.
  intros [[_ <-]|[_ Hk]]; [by right|by apply or_heartbeats0].
Qed.
Lemma own_event id row : se_row_node_id row = n → preserves P (modify (λ d, d <| db_security_events ::= <[id := row]> |>)).
Proof.
  intros Hn. apply preserves_modify. intros db []. split; try done. intros k e. simpl. rewrite lookup_insert_Some.
  intros [[_ <-]|[_ Hk]]; [by right|by apply (or_events0 k)].
Qed.
#[local] Hint Resolve own_nodes own_session : inv.

Lemma own_RecordHeartbeat h t : hb_NodeID h = n → preserves P (RecordHeartbeat sid h t).
Proof.
  intros Hn. unfold RecordHeartbeat, insert_heartbeat, report_state. rewrite Hn.
  repeat first [apply preserves_transaction; [apply _|]|progress solve_inv|by apply own_heartbeat].
Qed.
Lemma own_RecordStateChanged p t : sc_NodeID p = n → preserves P (RecordStateChanged p t).
Proof. intros Hn. unfold RecordStateChanged, report_state. rewrite Hn. solve_inv. Qed.
Lemma own_RecordSafetyEvent e t : se_NodeID e = n → preserves P (RecordSafetyEvent e t).
Proof. intros Hn. unfold RecordSafetyEvent. repeat first [progress solve_inv|by apply own_event]. Qed.
End own.

Section session_theory.
Context (ed25519_Verify : list Z → list Z → list Z → bool).
Context (json_Marshal : JobCompletedPayload → result (list Z)).
Context (parse_rfc3339 : string → result Z).
Context (marshal_claims : Claims → list Z) (unmarshal_claims : list Z → result Claims).
Context (dec : Decoders).
Context (o : ApiOptions).
Notation message := (node_message ed25519_Verify json_Marshal o).

(** The node a report is about. *)
Definition report_node (m : Envelope) : option string :=
  match m with
  | EnvHeartbeat (Some h) => Some (hb_NodeID h)
  | EnvStateChanged (Some p) => Some (sc_NodeID p)
  | EnvSafetyEvent (Some e) => Some (se_NodeID e)
  | _ => None
  end.

Definition job_message (m : Envelope) : bool := match m with EnvJob _ => true | _ => false end.

Lemma stored_own n sid m f s :
  (∀ db0, preserves (own_reports n sid db0) m) →
  let s' := (stored m f s).2 in
  own_reports n sid (sv_db (srv_service s)) (sv_db (srv_service s')) ∧
  s' = s <| srv_service ::= (λ sv, sv <| sv_db := sv_db (srv_service s') |>) |>.
Proof.
  intros Hm. specialize (Hm _ _ (own_reports_refl n sid (sv_db (srv_service s)))). unfold stored. rewrite on_db_run.
  destruct (m _) as [[] db']; done.
Qed.

(** C11. A session speaks for its own node. A report about another node, or one in a state that
    does not exist, closes the connection and changes nothing; whatever else a node sends
    but a job message, the only rows that change are its own node row, its session, and new
    heartbeats and safety events under its own name: the rows of other nodes, the jobs, the
    ledger and the in-memory state of the job service stay as they were. *)
Theorem session_speaks_for_its_node conn m s :
  let '(res, s') := message conn (Some m) s in
  (∀ n, report_node m = Some n → n ≠ nc_nodeID conn →
     res = Some (StatusPolicyViolation, "node identity mismatch") ∧ s' = s) ∧
  (job_message m = false →
     own_reports (nc_nodeID conn) (nc_sessionID conn) (sv_db (srv_service s)) (sv_db (srv_service s')) ∧
     s' = s <| srv_service ::= (λ sv, sv <| sv_db := sv_db (srv_service s') |>) |>).
Proof.
  set (n := nc_nodeID conn). set (sid := nc_sessionID conn).
  assert (Hsame : own_reports n sid (sv_db (srv_service s)) (sv_db (srv_service s)) ∧
    s = s <| srv_service ::= (λ sv, sv <| sv_db := sv_db (srv_service s) |>) |>)
    by (split; [apply own_reports_refl|by destruct s as [[]]]).
  destruct m as [v id|[h|]|[p|]|[e|]|payload|]; try (split; [by intros|by intros]); cbn [node_message].
  - destruct (String.eqb_spec (hb_NodeID h) (nc_nodeID conn)) as [Hn|Hn]; simpl.
    2: { split; [done|by intros]. }
    destruct (is_ok _); simpl; [|split; [by intros ? [= <-]|by intros]].
    pose proof (stored_own n sid (RecordHeartbeat (nc_sessionID conn) h (sv_now (srv_service s))) "heartbeat store failed" s
      (λ db0, own_RecordHeartbeat n sid db0 h _ Hn)) as Hs.
    destruct (stored _ _ _) as [res s']. split; [by intros ? [= <-]|done].
  - destruct (String.eqb_spec (sc_NodeID p) (nc_nodeID conn)) as [Hn|Hn]; simpl.
    2: { split; [done|by intros]. }
    destruct (is_ok _); simpl; [|split; [by intros ? [= <-]|by intros]].
    pose proof (stored_own n sid (RecordStateChanged p (sv_now (srv_service s))) "state change store failed" s
      (λ db0, own_RecordStateChanged n sid db0 p _ Hn)) as Hs.
    destruct (stored _ _ _) as [res s']. split; [by intros ? [= <-]|done].
  - destruct (String.eqb_spec (se_NodeID e) (nc_nodeID conn)) as [Hn|Hn]; simpl.
    2: { split; [done|by intros]. }
    pose proof (stored_own n sid (RecordSafetyEvent e (sv_now (srv_service s))) "safety event store failed" s
      (λ db0, own_RecordSafetyEvent n sid db0 e _ Hn)) as Hs.
    destruct (stored _ _ _) as [res s']. split; [by intros ? [= <-]|done].
  - match goal with |- (let '(_, _) := ?x in _) => destruct x end. by split.
Qed.

(** ** When a session ended *)

(** The connection of an accepted session. *)
Lemma open_node_session_conn tok addr hello accepted s conn s1 :
  open_node_session o tok addr hello accepted s = (inr conn, s1) →
  nc_nodeID conn = tok ∧ nc_closeAt conn = sv_now (srv_service s).
Proof.
  unfold open_node_session. destruct hello as [[[v id| | | | |]|]|]; try by intros [=].
  destruct (negb _); [by intros [=]|]. rewrite on_db_run.
  destruct (OpenSession _ _ _ _ _).1 as [sid|e]; [|by intros [=]].
  destruct accepted; simpl; [|by intros [=]]. intros [= <- _]. done.
Qed.

(** A connection that ends is dated when it began: the arguments of the deferred
    [CloseSession] are evaluated as the session is accepted. However long the session lasts,
    its row says it was disconnected at the time it was opened, so an alert over a window
    that begins after that does not count it. *)
Theorem disconnect_dated_at_connect tok addr hello accepted s conn s1 s2 row :
  open_node_session o tok addr hello accepted s = (inr conn, s1) →
  let s3 := detach_session o conn s2 in
  posted_balanced (sv_db (srv_service s3)) →
  db_node_sessions (sv_db (srv_service s3)) !! nc_sessionID conn = Some row → ss_state row = SsConnected →
  ∃ row', db_node_sessions (sv_db (srv_service (close_node_session o conn s2))) !! nc_sessionID conn = Some row' ∧
    ss_state row' = SsClosed ∧ ss_disconnected_at row' = Some (sv_now (srv_service s)) ∧
    ∀ since, sv_now (srv_service s) < since → disconnected_since since row' = false.
Proof.
  intros Ho s3 Hb Hrow Hst. apply open_node_session_conn in Ho as [_ Ht].
  exists (ended_session SsClosed (nc_closeAt conn) row). unfold close_node_session. fold s3. rewrite on_db_run. simpl.
  assert (∃ db, CloseSession (nc_sessionID conn) (nc_nodeID conn) (nc_closeAt conn) (sv_db (srv_service s3)) = (Ok tt, db) ∧
     db_node_sessions db !! nc_sessionID conn = Some (ended_session SsClosed (nc_closeAt conn) row)) as (db & -> & Hd).
  { eexists. split.
    - apply transaction_ok. split; [reflexivity|]. exact Hb.
    - simpl. rewrite lookup_update_where, Hrow. simpl. by rewrite String.eqb_refl, Hst. }
  split; [exact Hd|]. split; [done|]. rewrite Ht. split; [done|].
  intros since Hs. unfold disconnected_since. simpl. lia.
Qed.

(** ** From a bootstrap token to a session *)

(** A handler that answers with something else than what it said before it was done. *)
Lemma bind_answer {A B} (m : Handler A) (f : A → Handler B) s r s' :
  (m ≫= f) s = (Respond r, s') →
  m s = (Respond r, s') ∨ ∃ a s1, m s = (Continue a, s1) ∧ f a s1 = (Respond r, s').
Proof. unfold mbind, Handler_bind. destruct (m s) as [[a|r0] s1]; [eauto|]. intros [= <- <-]. by left. Qed.

(** An answer that carries a token. *)
Definition token_answer (r : Response) (tok : string) (exp : Z) : Prop := rs_body r = TokenBody tok exp.

Lemma token_not_error {A} st msg s r s' tok exp :
  (writeError st msg : Handler A) s = (Respond r, s') → token_answer r tok exp → False.
Proof. by intros [= <- <-]. Qed.

Lemma token_or_respond {A} (x : result A) (st : gerror → Z) (msg : gerror → string) s r s' tok exp :
  or_respond x (λ e, writeError (st e) (msg e)) s = (Respond r, s') → token_answer r tok exp → False.
Proof. destruct x; [by intros [=]|]. apply token_not_error. Qed.

Lemma token_decoded {A} (x : option A) s r s' tok exp :
  decoded x s = (Respond r, s') → token_answer r tok exp → False.
Proof. destruct x; [by intros [=]|]. apply token_not_error. Qed.

Lemma or_respond_cont {A} (x : result A) (st : gerror → Z) (msg : gerror → string) s a s' :
  or_respond x (λ e, writeError (st e) (msg e)) s = (Continue a, s') → x = Ok a ∧ s' = s.
Proof. destruct x; [|by intros [=]]. by intros [= -> ->]. Qed.

Lemma decoded_cont {A} (x : option A) s a s' : decoded x s = (Continue a, s') → x = Some a ∧ s' = s.
Proof. destruct x; [|by intros [=]]. by intros [= -> ->]. Qed.

Lemma on_db_cont {A} (m : St DB A) s x s' : on_db m s = (Continue x, s') → x = (m (sv_db (srv_service s))).1.
Proof. rewrite on_db_run. by intros [= -> _]. Qed.

Lemma issue_token_answer nodeID s r s' tok exp :
  issue_token marshal_claims o nodeID s = (Respond r, s') → token_answer r tok exp →
  Issue marshal_claims (ao_TokenSigner o) nodeID (sv_now (srv_service s)) = Ok (tok, exp).
Proof.
  intros H Hr. unfold issue_token in H. apply bind_answer in H as [[=]|(now & s1 & [= <- <-] & H)].
  apply bind_answer in H as [H|(t & s2 & H & Ha)]; [by destruct (token_or_respond _ (λ _, _) _ _ _ _ _ _ H Hr)|].
  apply (or_respond_cont _ (λ _, _)) in H as [-> ->]. destruct t as [t e]. injection Ha as <- <-. by injection Hr as <- <-.
Qed.

(** The characters of a token. *)
Lemma encoded_plain al l :
  Forall is_byte l → Forall (λ a, byte_of a < 0x80 ∧ is_space (byte_of a) = false) (bytes (EncodeToString al l)).
Proof.
  intros Hl. unfold EncodeToString. rewrite bytes_of_bytes. eapply Forall_impl; [by apply b64_chars|]. by intros c (_&_&?&?).
Qed.

Lemma Issue_trim sg nodeID now tok exp :
  (∀ c, Forall is_byte (marshal_claims c)) → Issue marshal_claims sg nodeID now = Ok (tok, exp) →
  trim_space tok = tok ∧ tok ≠ "".
Proof.
  intros Hm. unfold Issue. case_bool_decide; [done|]. destruct (String.eqb nodeID ""); [done|].
  intros [= <- _]. split.
  - apply trim_plain. rewrite !bytes_app. apply Forall_app. split; [apply encoded_plain, Hm|].
    apply Forall_app. split; [by repeat constructor; vm_compute|]. apply encoded_plain, sum256_bytes.
  - intros E. apply (f_equal bytes) in E. rewrite !bytes_app in E. by destruct (bytes (EncodeToString _ _)).
Qed.

(** The request has proved that it speaks for [nodeID]: it spent a bootstrap token of the
    node, or it was signed with the key the node registered. *)
Definition proved_node (r : Request) (s : Server) (nodeID : string) : Prop :=
  let now := sv_now (srv_service s) in
  let db := sv_db (srv_service s) in
  (∃ token, dec_exchange dec (hq_Body r) = Some (nodeID, token) ∧ (ConsumeBootstrap nodeID token now db).1 = Ok tt) ∨
  (∃ req encoded key, dec_refresh dec (hq_Body r) = Some req ∧ rr_NodeID req = nodeID ∧
     (node_public_key nodeID db).1 = Ok encoded ∧ DecodeString Std encoded = Ok key ∧
     VerifyRefresh ed25519_Verify parse_rfc3339 key req now (5 * minute) = Ok tt).

Notation exchange := (exchangeBootstrapHandler marshal_claims dec o).
Notation refresh := (refreshTokenHandler ed25519_Verify parse_rfc3339 marshal_claims dec o).

Lemma exchange_answer r s rs s' tok exp :
  exchange r s = (Respond rs, s') → token_answer rs tok exp →
  ∃ nodeID, proved_node r s nodeID ∧
    Issue marshal_claims (ao_TokenSigner o) nodeID (sv_now (srv_service s)) = Ok (tok, exp).
Proof.
  intros H Hr. unfold exchangeBootstrapHandler in H.
  apply bind_answer in H as [H|(req & s1 & H & H')]; [by destruct (token_decoded _ _ _ _ _ _ H Hr)|].
  apply decoded_cont in H as [Hd ->]. apply bind_answer in H' as [[=]|(now & s1 & [= <- <-] & H')].
  apply bind_answer in H' as [H|(x & s1 & H & H')]; [by rewrite on_db_run in H|].
  pose proof (on_db_cont _ _ _ _ H) as ->. rewrite on_db_run in H. injection H as <-.
  apply bind_answer in H' as [H|([] & s2 & H & H')]; [by destruct (token_or_respond _ statusForError _ _ _ _ _ _ H Hr)|].
  apply (or_respond_cont _ statusForError) in H as [Hc ->]. apply (issue_token_answer _ _ _ _ tok exp) in H'; [|done].
  exists req.1. split; [|exact H']. left. exists req.2. by destruct req.
Qed.

Lemma refresh_answer r s rs s' tok exp :
  refresh r s = (Respond rs, s') → token_answer rs tok exp →
  ∃ nodeID, proved_node r s nodeID ∧
    Issue marshal_claims (ao_TokenSigner o) nodeID (sv_now (srv_service s)) = Ok (tok, exp).
Proof.
  intros H Hr. unfold refreshTokenHandler in H.
  apply bind_answer in H as [H|([] & s1 & H & H')].
  { unfold require_session_store in H. destruct (ao_SessionStore o); [done|]. by destruct (token_not_error _ _ _ _ _ _ _ H Hr). }
  assert (s1 = s) as -> by (unfold require_session_store in H; destruct (ao_SessionStore o); by injection H).
  clear H. apply bind_answer in H' as [H|(req & s1 & H & H')]; [by destruct (token_decoded _ _ _ _ _ _ H Hr)|].
  apply decoded_cont in H as [Hd ->].
  rewrite (bind_continue _ _ _ _ _ (on_db_read _ _ (reads_node_key _))) in H'.
  apply bind_answer in H' as [H|(enc & s1 & H & H')]; [by destruct (token_or_respond _ (λ _, _) _ _ _ _ _ _ H Hr)|].
  apply (or_respond_cont _ (λ _, _)) in H as [Hk ->].
  apply bind_answer in H' as [H|(key & s1 & H & H')]; [by destruct (token_or_respond _ (λ _, _) _ _ _ _ _ _ H Hr)|].
  apply (or_respond_cont _ (λ _, _)) in H as [He ->]. apply bind_answer in H' as [[=]|(now & s1 & [= <- <-] & H')].
  apply bind_answer in H' as [H|([] & s1 & H & H')]; [by destruct (token_or_respond _ (λ _, _) _ _ _ _ _ _ H Hr)|].
  apply (or_respond_cont _ (λ _, _)) in H as [Hv ->]. apply (issue_token_answer _ _ _ _ tok exp) in H'; [|done].
  exists (rr_NodeID req). split; [|exact H']. right. by exists req, enc, key.
Qed.

(** C19. How a node gets in. Whatever answers with an access token, the exchange of a bootstrap
    token or a refresh, has seen the node spend its token or sign with its registered key; and
    the token answered then opens a session, as that node and no other, up to the second of
    its expiry, one lifetime after the answer, and not from then on. *)
Theorem token_opens_session r s rs s' tok exp :
  (∀ c, unmarshal_claims (marshal_claims c) = Ok c ∧ Forall is_byte (marshal_claims c)) → ao_SessionStore o = true →
  exchange r s = (Respond rs, s') ∨ refresh r s = (Respond rs, s') → token_answer rs tok exp →
  ∃ nodeID, proved_node r s nodeID ∧ exp = sv_now (srv_service s) + default_pos (ts_TTL (ao_TokenSigner o)) (60 * minute) ∧
  ∀ r2 s2, hq_Header r2 "Authorization" = "Bearer " +:+ tok →
    authenticate_session unmarshal_claims o r2 s2 =
      (if sv_now (srv_service s2) <? of_unix (unix exp) then Continue nodeID
       else Respond {| rs_status := 401; rs_body := ErrorText "access token expired" |}, s2).
Proof.
  intros Hjson Hstore H Hr.
  assert (∃ nodeID, proved_node r s nodeID ∧
    Issue marshal_claims (ao_TokenSigner o) nodeID (sv_now (srv_service s)) = Ok (tok, exp)) as (nodeID & Hp & Hi)
    by (destruct H as [H|H]; [by apply (exchange_answer _ _ _ _ _ _ H)|by apply (refresh_answer _ _ _ _ _ _ H)]).
  exists nodeID. split; [done|]. destruct (Issue_Verify _ unmarshal_claims _ _ _ _ _ Hjson Hi) as [He Hv].
  split; [done|]. intros r2 s2 Hh.
  destruct (Issue_trim _ _ _ _ _ (λ c, proj2 (Hjson c)) Hi) as [Ht Hne].
  assert (Hb : bearerToken r2 = tok) by (unfold bearerToken; by rewrite Hh, has_prefix_app, trim_prefix_app, Ht).
  unfold authenticate_session, require_session_store. rewrite Hstore, Hb, (proj2 (String.eqb_neq _ _) Hne).
  do 3 (erewrite bind_continue by reflexivity). rewrite Hv. destruct (_ <? _); reflexivity.
Qed.
End session_theory.

(** ** The limiter of the waitlist *)

(** A history of requests, each a client and a time, and those that were let through. *)
Definition waitlist_step (acc : waitlistRateLimiter * list (string * Z)) (call : string * Z) :=
  let '(ok, l) := waitlist_allow acc.1 call.1 call.2 in (l, if ok : bool then acc.2 ++ [call] else acc.2).
Definition waitlist_run (limit window : Z) (calls : list (string * Z)) : waitlistRateLimiter * list (string * Z) :=
  foldl waitlist_step (newWaitlistRateLimiter limit window, []) calls.

Definition times_of (key : string) (calls : list (string * Z)) : list Z := snd <$> filter (λ c, c.1 = key) calls.
Definition since (cutoff : Z) (l : list Z) : list Z := filter (λ hit, cutoff < hit) l.

Lemma times_snoc key calls call :
  times_of key (calls ++ [call]) = times_of key calls ++ (if decide (call.1 = key) then [call.2] else []).
Proof. unfold times_of. rewrite filter_app, fmap_app, filter_cons, filter_nil. by destruct (decide _). Qed.

Lemma since_since c d l : d ≤ c → since c (since d l) = since c l.
Proof. intros H. apply list_filter_filter_l. lia. Qed.

(** What the limiter keeps of a client is what it let through, as far back as it looks. *)
Definition remembers (t : Z) (acc : waitlistRateLimiter * list (string * Z)) : Prop :=
  ∀ key cutoff, t - wl_window acc.1 ≤ cutoff →
    since cutoff (default [] (wl_hits acc.1 !! key)) = since cutoff (times_of key acc.2).

Lemma remembers_step t acc call : t ≤ call.2 → remembers t acc → remembers call.2 (waitlist_step acc call).
Proof.
  intros Ht Hr key cutoff. destruct acc as [l done_], call as [k now]. unfold waitlist_step, waitlist_allow. simpl in *.
  fold (since (now - wl_window l) (default [] (wl_hits l !! k))). set (kept := since _ _).
  assert (Hk : ∀ c, now - wl_window l ≤ c → since c kept = since c (times_of k done_)).
  { intros c Hc. unfold kept. rewrite since_since by done. apply (Hr k c). simpl. lia. }
  destruct (wl_limit l <=? Z.of_nat (length kept)); simpl; intros Hc.
  - rewrite lookup_insert. case_decide as E; [subst key; by apply Hk|]. apply (Hr key cutoff). simpl. lia.
  - rewrite lookup_insert, times_snoc. simpl. case_decide as E; [subst key|].
    + simpl. unfold since in *. by rewrite !filter_app, Hk.
    + rewrite app_nil_r. apply (Hr key cutoff). simpl. lia.
Qed.

Lemma waitlist_settings limit window calls :
  wl_limit (waitlist_run limit window calls).1 = default_pos limit 5 ∧
  wl_window (waitlist_run limit window calls).1 = default_pos window minute.
Proof.
  induction calls as [|c calls IH] using rev_ind; [done|]. unfold waitlist_run. rewrite foldl_app. simpl.
  fold (waitlist_run limit window calls). unfold waitlist_step, waitlist_allow. by destruct (_ <=? _).
Qed.

(** The limiter of the waitlist is exact over a sliding window: when the clock does not go
    back, a client's request is let through exactly when fewer than the limit of its earlier
    requests were let through in the window that ends now; so in no window are more. *)
Theorem waitlist_limiter_exact limit window calls key now :
  StronglySorted (λ a b, a.2 ≤ b.2) (calls ++ [(key, now)]) →
  let r := waitlist_run limit window calls in
  (waitlist_allow r.1 key now).1 =
    (Z.of_nat (length (since (now - default_pos window minute) (times_of key r.2))) <? default_pos limit 5).
Proof.
  intros Hs r. assert (H : ∃ t, t ≤ now ∧ remembers t r).
  { unfold r. clear r. remember now as n eqn:En. clear En.
    revert key n Hs. induction calls as [|[k t] calls IH] using rev_ind; intros key n Hs.
    - exists n. split; [done|]. intros k c _. simpl. by rewrite lookup_empty.
    - apply StronglySorted_app in Hs as (Hall & Hs & _).
      exists t. split; [apply (Hall (k, t) (key, n)); set_solver|]. destruct (IH k t Hs) as (t0 & Ht0 & Hr0).
      unfold waitlist_run. rewrite foldl_app. simpl. by apply (remembers_step t0 _ (k, t)). }
  destruct H as (t & Ht & Hr). destruct (waitlist_settings limit window calls) as [Hl Hw]. fold r in Hl, Hw.
  unfold waitlist_allow. rewrite Hl, Hw. fold (since (now - default_pos window minute) (default [] (wl_hits r.1 !! key))).
  rewrite (Hr key (now - default_pos window minute)) by (rewrite Hw; lia).
  destruct (Z.leb_spec (default_pos limit 5) (Z.of_nat (length (since (now - default_pos window minute) (times_of key r.2))))); simpl; lia.
Qed.
