(* ===== verification/HttpExamples.v ===== *)
(** * A worked coordinator

    The marketplace of [ServiceExamples] with a second idle node behind the HTTP API, with
    toy decoders: completions with an idempotency key, two of them at once, and the session
    of a node, taken through the theorems of [HttpTheory], [ChatTheory] and [SessionTheory]. *)
From stdpp Require Import base gmap strings list.
From Stdlib Require Import ZArith Lia.
From S2P Require Import Prelude GoStrings Float64 Sha256 Encoding NodeState Schedule Scheduler Protocol Agent NodeAuth Requests Database Registration Ledger LedgerTheory LedgerExamples JobStore OperatorStore OperatorReports StoreRuns JobTheory JobExamples JobService ServiceTheory ServiceExamples RegistrationTheory RegistrationExamples OperatorTheory HttpApi HttpOperator HttpTheory ChatTheory SessionTheory.

(** ** The coordinator *)

Definition api_db : DB :=
  svc_db <| db_nodes ::= <["node_d" := sample_node "org_1"]> |>
         <| db_node_sessions ::= <["sess_d" := sample_session "node_d"]> |>
         <| db_node_heartbeats ::= <["hb_d" := sample_heartbeat "node_d" "sess_d"]> |>
         <| db_entropy ::= drop 3 |>.

Definition api_service : Service :=
  service_run svc_Verify svc_Marshal svc_cfg [SvAttach "node_c" "sess_c"; SvAttach "node_d" "sess_d"]
    (new_service api_db (2 * second) []).

(** A node that has just registered. *)
Definition joined : result RegisterResult * DB := RegisterNode reg_cfg sample_registration (2 * second) invited_db.
Definition joined_ids : string * string :=
  match joined.1 with Ok res => (rgr_NodeID res, rgr_BootstrapToken res) | Err _ => ("", "") end.

(** Bodies are decoded by the first word they start with. *)
Definition api_decoders : Decoders := {|
  dec_org := λ _, None; dec_api_key := λ _, None; dec_invite := λ _, None; dec_register := λ _, None;
  dec_exchange := λ b, if String.eqb (bs_data b) "exchange" then Some joined_ids else None;
  dec_refresh := λ _, None;
  dec_chat := λ body, if has_prefix body "chat" then Some (sample_chat <| cc_Model := "llama" |>, true) else None;
  dec_async := λ _, None; dec_reason := λ _, ""; dec_payout := λ _, None; dec_fleet := λ _, None;
  dec_region := λ _, None; dec_application := λ _, None |}.

Definition api_options : ApiOptions := resolve_api_options {|
  ao_Registration := {| rgc_InviteTTL := 0; rgc_BootstrapTTL := 0 |}; ao_SessionStore := true;
  ao_TokenSigner := toy_signer; ao_JobService := Some svc_cfg; ao_OperatorStore := None; ao_OperatorToken := "";
  ao_HeartbeatInterval := 0; ao_StatusCacheTTL := 0; ao_RequesterRegionHeader := ""; ao_WaitlistLimitPerMinute := 0 |}.

Definition api_server : Server := new_server api_options api_service None.

Definition api_request (header : string → string) (body : string) : Request := {|
  hq_Header := header; hq_PathValue := λ _, ""; hq_Query := λ _, "";
  hq_Body := {| bs_data := body; bs_broken := false |}; hq_HasBody := true; hq_RemoteAddr := "192.0.2.1:5000" |}.

Definition keyed (body : string) : Request :=
  api_request (λ h, if String.eqb h "Idempotency-Key" then "k-1" else "") body.

Definition api_principal : APIKeyPrincipal := {|
  pr_ID := "ak_1"; pr_OrganizationID := "org_1"; pr_AllowedModels := {[ "llama" ]} |}.

Notation submit := (chat_submit (λ _, "job body") api_decoders svc_cfg).
Notation finish := (chat_finish (λ _, "the stored answer")).

Definition first_submit : outcome Pending * Server := submit (keyed "chat") api_principal api_server.
Definition no_pending : Pending := {|
  pd_requestID := ""; pd_jobID := ""; pd_waitCh := 0; pd_principalID := ""; pd_idempotencyKey := ""; pd_bodyHash := "";
  pd_timeout := 0; pd_deadlineAt := 0 |}.
Definition pending_of (out : outcome Pending) : Pending := match out with Continue p => p | Respond _ => no_pending end.

Definition api_answer_text : OpenAIResponse := {|
  oa_ID := "chatcmpl"; oa_Object := "chat.completion"; oa_Created := 2; oa_Model := "llama";
  oa_Message := {| cm_Role := "assistant"; cm_Content := "hello" |}; oa_FinishReason := "stop";
  oa_Usage := {| PromptTokens := 3; CompletionTokens := 2; TotalTokens := 5 |}; oa_JobID := "job_3"; oa_Attempts := 1;
  oa_DataClass := "public_or_non_sensitive"; oa_ServedRegion := "" |}.

(** A request that goes on to wait: its job is in the table. *)
Lemma chat_outcomes_witness :
  ∃ p job, first_submit.1 = Continue p ∧ db_jobs (sv_db (srv_service first_submit.2)) !! pd_jobID p = Some job ∧
    j_api_key_id job = "ak_1" ∧ j_model_id job = "llama" ∧ j_deadline_at job = 62 * second.
Proof.
  assert (Hb : chans_below (srv_service api_server)) by (intros c l H; vm_compute in H; destruct c; discriminate H).
  assert (Hc : match first_submit.1 with Continue _ => true | Respond _ => false end = true) by (vm_compute; reflexivity).
  destruct (chat_outcomes (λ _, "job body") api_decoders svc_cfg (keyed "chat") api_principal api_server
              first_submit.1 first_submit.2 Hb (surjective_pairing _))
    as [(resp & E & _)|(j & job & _ & Hj & _ & Hk & Hm & Hd & Hout)].
  - rewrite E in Hc. discriminate Hc.
  - destruct first_submit.1 as [p|resp]; [|discriminate Hc]. exists p, job. destruct Hout as [-> _].
    split; [reflexivity|]. split; [exact Hj|]. split; [exact Hk|]. split; [|exact Hd].
    change (j_model_id job ∈ ({["llama"]} : gset string)) in Hm. by apply elem_of_singleton in Hm.
Defined.

(** The same request again within the day is answered from the record; another body under
    the key is refused. *)
Definition first_finish : outcome unit * Server :=
  finish (pending_of first_submit.1) (Some (ResultResponse api_answer_text)) first_submit.2.
Definition stored_answer : Response := {| rs_status := 200; rs_body := RawJSON "the stored answer" |}.
Definition admitted_of (out : outcome CheckedRequest) (d : CheckedRequest) : CheckedRequest :=
  match out with Continue a => a | Respond _ => d end.

(** An hour in which a request under another key completes and a node leaves. *)
Definition other_pending : Pending := {|
  pd_requestID := "req_2"; pd_jobID := pd_jobID (pending_of first_submit.1); pd_waitCh := 0; pd_principalID := "ak_1";
  pd_idempotencyKey := "k-2"; pd_bodyHash := ""; pd_timeout := 0; pd_deadlineAt := 0 |}.
Definition busy_hour : list ServerEvent :=
  [EvChatDone other_pending (Some (ResultResponse api_answer_text)); EvService (SvDetach "node_d" "sess_d"); EvService (SvTime hour)].
Notation hour_run := (server_run svc_Verify svc_Marshal (λ _, Err (ErrMsg "")) (λ _, Err (ErrMsg "")) (λ _, "") (λ _, [])
  (λ _, "job body") (λ _, "") (λ _, "the stored answer") (λ _, None) (λ _, Err (ErrMsg "")) (λ z, z) api_decoders api_options "").
Definition later : Server := hour_run busy_hour first_finish.2.

Example other_answer_stored_meanwhile : size (db_idempotency_records (sv_db (srv_service later))) = 2%nat.
Proof. vm_compute. reflexivity. Qed.

Lemma idempotent_retry_witness :
  (submit (keyed "chat") api_principal later).1 = Respond stored_answer ∧
  ∃ resp s4, submit (keyed "chat again") api_principal later = (Respond resp, s4) ∧ rs_status resp = 409.
Proof.
  assert (Hgen : ∀ body a s3, chat_validate api_decoders svc_cfg (keyed body) api_principal later = (Continue a, s3) →
    if String.eqb (pd_bodyHash (pending_of first_submit.1)) (ad_bodyHash a)
    then submit (keyed body) api_principal later = (Respond stored_answer, s3) ∧ quiet later s3
    else ∃ resp s4, submit (keyed body) api_principal later = (Respond resp, s4) ∧ rs_status resp = 409 ∧
           quiet later s4).
  { intros body a s3. assert (Hempty : db_idempotency_records (sv_db (srv_service first_submit.2)) = ∅) by (vm_compute; reflexivity).
    apply (idempotent_retry (λ _, "job body") (λ _, "the stored answer") (λ _, "") api_decoders svc_Verify svc_Marshal
      (λ _, Err (ErrMsg "")) (λ _, Err (ErrMsg "")) (λ _, "") (λ _, []) (λ _, None) (λ _, Err (ErrMsg "")) (λ z, z) api_options "" svc_cfg (keyed body) api_principal
      (pending_of first_submit.1) api_answer_text first_submit.2 stored_answer "the stored answer" first_finish.2
      busy_hour a s3); try (vm_compute; reflexivity).
    - intros k r. rewrite Hempty, lookup_empty. intros H; discriminate H.
    - vm_compute. intros H; discriminate H.
    - assert (Hk : String.eqb "k-2" (pd_idempotencyKey (pending_of first_submit.1)) = false) by (vm_compute; reflexivity).
      apply Forall_cons_2; [|by repeat constructor]. intros _ H. cbn in H. rewrite <-H in Hk. discriminate Hk. }
  split.
  - destruct (chat_validate api_decoders svc_cfg (keyed "chat") api_principal later) as [[a|resp] s3] eqn:E.
    + specialize (Hgen _ _ _ E).
      assert (Hh : (match (chat_validate api_decoders svc_cfg (keyed "chat") api_principal later).1 with
                    | Continue a => ad_bodyHash a | Respond _ => "" end) = pd_bodyHash (pending_of first_submit.1))
        by (vm_compute; reflexivity).
      rewrite E in Hh. simpl in Hh. rewrite Hh, String.eqb_refl in Hgen. destruct Hgen as [Hs _]. by rewrite Hs.
    + assert (Hc : match (chat_validate api_decoders svc_cfg (keyed "chat") api_principal later).1 with
                   | Continue _ => true | Respond _ => false end = true) by (vm_compute; reflexivity).
      rewrite E in Hc. discriminate Hc.
  - destruct (chat_validate api_decoders svc_cfg (keyed "chat again") api_principal later) as [[a|resp] s3] eqn:E.
    + specialize (Hgen _ _ _ E).
      assert (Hh : String.eqb (pd_bodyHash (pending_of first_submit.1))
                     (match (chat_validate api_decoders svc_cfg (keyed "chat again") api_principal later).1 with
                      | Continue a => ad_bodyHash a | Respond _ => "" end) = false)
        by (vm_compute; reflexivity).
      rewrite E in Hh. simpl in Hh. rewrite Hh in Hgen. destruct Hgen as (resp & s4 & Hs & H409 & _).
      exists resp, s4. split; [exact Hs|exact H409].
    + assert (Hc : match (chat_validate api_decoders svc_cfg (keyed "chat again") api_principal later).1 with
                   | Continue _ => true | Respond _ => false end = true) by (vm_compute; reflexivity).
      rewrite E in Hc. discriminate Hc.
Defined.

(** Two requests with one key and one body, the second before the first is answered, both
    run: two jobs are waiting, one on each node. *)
Lemma same_key_two_jobs :
  let second_submit := submit (keyed "chat") api_principal first_submit.2 in
  let p1 := pending_of first_submit.1 in
  let p2 := pending_of second_submit.1 in
  pd_idempotencyKey p1 = "k-1" ∧ pd_idempotencyKey p2 = "k-1" ∧ pd_bodyHash p1 = pd_bodyHash p2 ∧
  pd_jobID p1 ≠ pd_jobID p2 ∧
  (j_state <$> db_jobs (sv_db (srv_service second_submit.2)) !! pd_jobID p1) = Some JLeased ∧
  (j_state <$> db_jobs (sv_db (srv_service second_submit.2)) !! pd_jobID p2) = Some JLeased ∧
  (aj_jobID <$> sv_activeByNode (srv_service second_submit.2) !! "node_c") = Some (pd_jobID p1) ∧
  (aj_jobID <$> sv_activeByNode (srv_service second_submit.2) !! "node_d") = Some (pd_jobID p2).
Proof. vm_compute. split_and!; congruence. Qed.

(** ** The session of a node *)

Definition connected : (CloseCode * string + NodeConn) * Server :=
  open_node_session api_options "node_c" "192.0.2.1" (Some (Some (EnvHello "1" (Some "node_c")))) true api_server.
Definition conn_of (out : CloseCode * string + NodeConn) : NodeConn :=
  match out with inr conn => conn | inl _ => {| nc_nodeID := ""; nc_sessionID := ""; nc_closeAt := 0 |} end.

(** Three hours later. *)
Definition three_hours_on : Server := connected.2 <| srv_service ::= λ sv, sv <| sv_now ::= λ t, t + 3 * hour |> |>.

Lemma disconnect_dated_at_connect_witness :
  sv_now (srv_service three_hours_on) = 3 * hour + 2 * second ∧
  ∃ row, db_node_sessions (sv_db (srv_service (close_node_session api_options (conn_of connected.1) three_hours_on)))
           !! nc_sessionID (conn_of connected.1) = Some row ∧
    ss_disconnected_at row = Some (2 * second) ∧ disconnected_since (3 * hour - 5 * minute) row = false.
Proof.
  split; [vm_compute; reflexivity|].
  set (s3 := detach_session api_options (conn_of connected.1) three_hours_on).
  assert (Hb : posted_balanced (sv_db (srv_service s3))) by (apply commit_check_ok; vm_compute; reflexivity).
  destruct (db_node_sessions (sv_db (srv_service s3)) !! nc_sessionID (conn_of connected.1)) as [row|] eqn:E.
  - assert (Hst : ss_state <$> db_node_sessions (sv_db (srv_service s3)) !! nc_sessionID (conn_of connected.1)
                  = Some SsConnected) by (vm_compute; reflexivity).
    rewrite E in Hst. apply (inj Some) in Hst.
    assert (Ho : open_node_session api_options "node_c" "192.0.2.1" (Some (Some (EnvHello "1" (Some "node_c")))) true
                   api_server = (inr (conn_of connected.1), connected.2)) by (vm_compute; reflexivity).
    destruct (disconnect_dated_at_connect api_options "node_c" "192.0.2.1" (Some (Some (EnvHello "1" (Some "node_c")))) true
                api_server (conn_of connected.1) connected.2 three_hours_on row Ho Hb E Hst) as (row' & Hr & _ & Ht & Hd).
    exists row'. split; [exact Hr|]. split; [exact Ht|]. apply Hd. vm_compute. reflexivity.
  - assert (Hs : is_Some (db_node_sessions (sv_db (srv_service s3)) !! nc_sessionID (conn_of connected.1)))
      by (vm_compute; eexists; reflexivity).
    rewrite E in Hs. by destruct Hs.
Defined.

(** A node that has just joined exchanges its bootstrap token; the token it gets opens a
    session half an hour later, and none after the hour. *)
Definition joining : Server := new_server api_options (new_service joined.2 (3 * second) []) None.
Definition exchanged : outcome unit * Server :=
  exchangeBootstrapHandler toy_claims api_decoders api_options (api_request (λ _, "") "exchange") joining.
Definition token_of (out : outcome unit) : string * Z :=
  match out with Respond {| rs_body := TokenBody tok exp |} => (tok, exp) | _ => ("", 0) end.
Definition bearing (tok : string) : Request := api_request (λ _, "Bearer " +:+ tok) "".
Definition at_time (t : Z) : Server := new_server api_options (new_service joined.2 t []) None.

Lemma token_opens_session_witness :
  authenticate_session toy_unclaims api_options (bearing (token_of exchanged.1).1) (at_time (30 * minute)) =
    (Continue joined_ids.1, at_time (30 * minute)) ∧
  authenticate_session toy_unclaims api_options (bearing (token_of exchanged.1).1) (at_time (61 * minute)) =
    (Respond {| rs_status := 401; rs_body := ErrorText "access token expired" |}, at_time (61 * minute)).
Proof.
  assert (Hr : match exchanged.1 with
               | Respond rs => rs_body rs = TokenBody (token_of exchanged.1).1 (token_of exchanged.1).2
               | Continue _ => False end) by (vm_compute; reflexivity).
  destruct exchanged.1 as [u|rs] eqn:E; [destruct Hr|].
  assert (Hx : exchangeBootstrapHandler toy_claims api_decoders api_options (api_request (λ _, "") "exchange") joining
               = (Respond rs, exchanged.2)).
  { change (exchanged = (Respond rs, exchanged.2)). rewrite <-E. apply surjective_pairing. }
  destruct (token_opens_session svc_Verify toy_parse toy_claims toy_unclaims api_decoders api_options
    (api_request (λ _, "") "exchange") joining rs exchanged.2 (token_of (Respond rs)).1 (token_of (Respond rs)).2
    ltac:(intros [n i e]; split; [unfold toy_unclaims, toy_claims; by rewrite toy_roundtrip|apply pos_bits_bytes])
    eq_refl (or_introl Hx) Hr) as (node & Hp & Hexp & Hauth).
  assert (Hn : node = joined_ids.1).
  { destruct Hp as [(token & Hd & _)|(req & _ & _ & Hd & _)]; [|discriminate Hd].
    change (Some joined_ids = Some (node, token)) in Hd. apply (inj Some) in Hd. rewrite Hd. reflexivity. }
  assert (Hx2 : unix (token_of (Respond rs)).2 = 3603) by (rewrite Hexp; vm_compute; reflexivity).
  rewrite Hx2, Hn in Hauth.
  split; [exact (Hauth (bearing (token_of (Respond rs)).1) (at_time (30 * minute)) eq_refl)
         |exact (Hauth (bearing (token_of (Respond rs)).1) (at_time (61 * minute)) eq_refl)].
Defined.
