(* ===== verification/Catalog.v ===== *)
(** * The model catalog of a node

    [internal/node/models] ([catalog.go], [select.go], [licenses.go]): the manifest of a
    model, the reader of the catalog's subset of YAML, and the choice of the model a host
    runs. The lines of a file are what [bufio.Scanner] gives; [strconv.ParseFloat] and
    [strconv.Quote] are parameters, and the files are read in [CatalogFiles]. *)
From stdpp Require Import base strings list sorting.
From Stdlib Require Import ZArith Lia Ascii.
From S2P Require Import Prelude GoStrings Float64.

(** ** Manifests *)

Record MarketComparison := {
  mc_TypicalInputPerMillionUSD : float64; mc_TypicalOutputPerMillionUSD : float64; mc_SourceNote : string
}.
#[export] Instance MarketComparison_eta : Eta MarketComparison := λ r,
  {| mc_TypicalInputPerMillionUSD := mc_TypicalInputPerMillionUSD r;
     mc_TypicalOutputPerMillionUSD := mc_TypicalOutputPerMillionUSD r; mc_SourceNote := mc_SourceNote r |}.

Record Listing := {
  li_Status : string; li_Description : string; li_ExpectedOutputTokensPerSecond : option float64;
  li_MarketComparison : option MarketComparison
}.
#[export] Instance Listing_eta : Eta Listing := λ r,
  {| li_Status := li_Status r; li_Description := li_Description r;
     li_ExpectedOutputTokensPerSecond := li_ExpectedOutputTokensPerSecond r;
     li_MarketComparison := li_MarketComparison r |}.

Record Source := {
  so_Provider : string; so_Repository : string; so_Revision : string; so_File : string; so_URL : string;
  so_SHA256 : string; so_SizeBytes : Z
}.
#[export] Instance Source_eta : Eta Source := λ r,
  {| so_Provider := so_Provider r; so_Repository := so_Repository r; so_Revision := so_Revision r;
     so_File := so_File r; so_URL := so_URL r; so_SHA256 := so_SHA256 r; so_SizeBytes := so_SizeBytes r |}.

Record LicenseAttribution := { la_DisplayText : string; la_NoticeText : string; la_LicenseURL : string; la_AUPURL : string }.
#[export] Instance LicenseAttribution_eta : Eta LicenseAttribution := λ r,
  {| la_DisplayText := la_DisplayText r; la_NoticeText := la_NoticeText r; la_LicenseURL := la_LicenseURL r;
     la_AUPURL := la_AUPURL r |}.

Record License := {
  lc_Identifier : string; lc_ReviewedAt : string; lc_Notes : string; lc_DistributeWithModel : bool;
  lc_Attribution : option LicenseAttribution
}.
#[export] Instance License_eta : Eta License := λ r,
  {| lc_Identifier := lc_Identifier r; lc_ReviewedAt := lc_ReviewedAt r; lc_Notes := lc_Notes r;
     lc_DistributeWithModel := lc_DistributeWithModel r; lc_Attribution := lc_Attribution r |}.

Record RuntimeArguments := {
  ra_ContextSize : Z; ra_BatchSize : Z; ra_GPULayers : string; ra_Device : string; ra_Parallel : Z; ra_Host : string;
  ra_Port : string
}.
#[export] Instance RuntimeArguments_eta : Eta RuntimeArguments := λ r,
  {| ra_ContextSize := ra_ContextSize r; ra_BatchSize := ra_BatchSize r; ra_GPULayers := ra_GPULayers r;
     ra_Device := ra_Device r; ra_Parallel := ra_Parallel r; ra_Host := ra_Host r; ra_Port := ra_Port r |}.

Record Runtime := {
  ru_Engine : string; ru_BuildID : string; ru_ReleaseManifest : string; ru_BinarySHA256 : string;
  ru_Arguments : RuntimeArguments
}.
#[export] Instance Runtime_eta : Eta Runtime := λ r,
  {| ru_Engine := ru_Engine r; ru_BuildID := ru_BuildID r; ru_ReleaseManifest := ru_ReleaseManifest r;
     ru_BinarySHA256 := ru_BinarySHA256 r; ru_Arguments := ru_Arguments r |}.

Record Hardware := { hw_MinVRAMMB : Z; hw_MinRAMMB : Z; hw_MinDiskMB : Z; hw_EligibleGPUClasses : list string }.
#[export] Instance Hardware_eta : Eta Hardware := λ r,
  {| hw_MinVRAMMB := hw_MinVRAMMB r; hw_MinRAMMB := hw_MinRAMMB r; hw_MinDiskMB := hw_MinDiskMB r;
     hw_EligibleGPUClasses := hw_EligibleGPUClasses r |}.

Record ManifestLimits := { ml_MaxInputTokens : Z; ml_MaxOutputTokens : Z; ml_MaxRequestBytes : Z }.
#[export] Instance ManifestLimits_eta : Eta ManifestLimits := λ r,
  {| ml_MaxInputTokens := ml_MaxInputTokens r; ml_MaxOutputTokens := ml_MaxOutputTokens r;
     ml_MaxRequestBytes := ml_MaxRequestBytes r |}.

Record Capabilities := { cp_ChatCompletions : bool; cp_Streaming : bool; cp_Tools : bool; cp_Embeddings : bool }.
#[export] Instance Capabilities_eta : Eta Capabilities := λ r,
  {| cp_ChatCompletions := cp_ChatCompletions r; cp_Streaming := cp_Streaming r; cp_Tools := cp_Tools r;
     cp_Embeddings := cp_Embeddings r |}.

Record Policy := { po_DataClass : string; po_ContentFilterProfile : string }.
#[export] Instance Policy_eta : Eta Policy := λ r,
  {| po_DataClass := po_DataClass r; po_ContentFilterProfile := po_ContentFilterProfile r |}.

Record ManifestPricing := {
  mp_CustomerInputPerMillionUSD : float64; mp_CustomerOutputPerMillionUSD : float64;
  mp_HostCreditPerMillionAcceptedOutputUSD : float64
}.
#[export] Instance ManifestPricing_eta : Eta ManifestPricing := λ r,
  {| mp_CustomerInputPerMillionUSD := mp_CustomerInputPerMillionUSD r;
     mp_CustomerOutputPerMillionUSD := mp_CustomerOutputPerMillionUSD r;
     mp_HostCreditPerMillionAcceptedOutputUSD := mp_HostCreditPerMillionAcceptedOutputUSD r |}.

Record ManifestVerification := { mv_DuplicateSampleRate : float64; mv_ChallengeRate : float64 }.
#[export] Instance ManifestVerification_eta : Eta ManifestVerification := λ r,
  {| mv_DuplicateSampleRate := mv_DuplicateSampleRate r; mv_ChallengeRate := mv_ChallengeRate r |}.

Record Manifest := {
  mf_SchemaVersion : Z; mf_ModelID : string; mf_DisplayName : string; mf_Description : string; mf_Status : string;
  mf_Listing : Listing; mf_Source : Source; mf_License : License; mf_Runtime : Runtime; mf_Hardware : Hardware;
  mf_Limits : ManifestLimits; mf_Capabilities : Capabilities; mf_Policy : Policy; mf_Pricing : ManifestPricing;
  mf_Verification : ManifestVerification
}.
#[export] Instance Manifest_eta : Eta Manifest := λ r,
  {| mf_SchemaVersion := mf_SchemaVersion r; mf_ModelID := mf_ModelID r; mf_DisplayName := mf_DisplayName r;
     mf_Description := mf_Description r; mf_Status := mf_Status r; mf_Listing := mf_Listing r; mf_Source := mf_Source r;
     mf_License := mf_License r; mf_Runtime := mf_Runtime r; mf_Hardware := mf_Hardware r; mf_Limits := mf_Limits r;
     mf_Capabilities := mf_Capabilities r; mf_Policy := mf_Policy r; mf_Pricing := mf_Pricing r;
     mf_Verification := mf_Verification r |}.

Definition zero_float : float64 := float_of_Z 0.

(** [var manifest Manifest], and the allocated empty blocks. *)
Definition empty_manifest : Manifest := {|
  mf_SchemaVersion := 0; mf_ModelID := ""; mf_DisplayName := ""; mf_Description := ""; mf_Status := "";
  mf_Listing := {| li_Status := ""; li_Description := ""; li_ExpectedOutputTokensPerSecond := None;
                   li_MarketComparison := None |};
  mf_Source := {| so_Provider := ""; so_Repository := ""; so_Revision := ""; so_File := ""; so_URL := "";
                  so_SHA256 := ""; so_SizeBytes := 0 |};
  mf_License := {| lc_Identifier := ""; lc_ReviewedAt := ""; lc_Notes := ""; lc_DistributeWithModel := false;
                   lc_Attribution := None |};
  mf_Runtime := {| ru_Engine := ""; ru_BuildID := ""; ru_ReleaseManifest := ""; ru_BinarySHA256 := "";
                   ru_Arguments := {| ra_ContextSize := 0; ra_BatchSize := 0; ra_GPULayers := ""; ra_Device := "";
                                      ra_Parallel := 0; ra_Host := ""; ra_Port := "" |} |};
  mf_Hardware := {| hw_MinVRAMMB := 0; hw_MinRAMMB := 0; hw_MinDiskMB := 0; hw_EligibleGPUClasses := [] |};
  mf_Limits := {| ml_MaxInputTokens := 0; ml_MaxOutputTokens := 0; ml_MaxRequestBytes := 0 |};
  mf_Capabilities := {| cp_ChatCompletions := false; cp_Streaming := false; cp_Tools := false; cp_Embeddings := false |};
  mf_Policy := {| po_DataClass := ""; po_ContentFilterProfile := "" |};
  mf_Pricing := {| mp_CustomerInputPerMillionUSD := zero_float; mp_CustomerOutputPerMillionUSD := zero_float;
                   mp_HostCreditPerMillionAcceptedOutputUSD := zero_float |};
  mf_Verification := {| mv_DuplicateSampleRate := zero_float; mv_ChallengeRate := zero_float |} |}.
Definition empty_comparison : MarketComparison := {|
  mc_TypicalInputPerMillionUSD := zero_float; mc_TypicalOutputPerMillionUSD := zero_float; mc_SourceNote := "" |}.
Definition empty_attribution : LicenseAttribution := {|
  la_DisplayText := ""; la_NoticeText := ""; la_LicenseURL := ""; la_AUPURL := "" |}.

Definition ListingLive := "live".
Definition ListingWaitlist := "waitlist".
Definition ListingHidden := "hidden".

Definition ListingStatus (m : Manifest) : string :=
  if String.eqb (li_Status (mf_Listing m)) ListingWaitlist then ListingWaitlist
  else if String.eqb (li_Status (mf_Listing m)) ListingHidden then ListingHidden
  else ListingLive.

Definition CatalogDescription (m : Manifest) : string :=
  if negb (String.eqb (li_Description (mf_Listing m)) "") then li_Description (mf_Listing m) else mf_Description m.

(** Whether [LicenseTextFor] has a text. *)
Definition has_license_text (identifier : string) : bool := String.eqb identifier "llama3.2".

(** ** Reading a manifest *)

(** The lines [Scan] gives, and the error it stops with. *)
Record scanner := { sc_lines : list string; sc_err : option gerror }.

Section manifest.
Context (ParseFloat : string → result float64) (Quote : string → string).

(** [strconv.NumError]. *)
Definition num_error (func value reason : string) : gerror :=
  ErrMsg ("strconv." +:+ func +:+ ": parsing " +:+ Quote value +:+ ": " +:+ reason).

(** A parsed value, or the error with the message of the call. *)
Definition parsed_int (func message value : string) : result Z :=
  match atoi value with
  | Some n => Ok n
  | None => Err (ErrWrap message (num_error func value (if decimal_syntax value then "value out of range" else "invalid syntax")))
  end.
Definition parsed_bool (message value : string) : result bool :=
  match parse_bool value with
  | Some b => Ok b
  | None => Err (ErrWrap message (num_error "ParseBool" value "invalid syntax"))
  end.
Definition parsed_float (message value : string) : result float64 :=
  match ParseFloat value with Ok x => Ok x | Err e => Err (ErrWrap message e) end.

Definition parseIntByKey (key value : string) : result Z := parsed_int "Atoi" (key +:+ " must be an integer") value.

Definition key_is (key name : string) : bool := String.eqb key name.

Definition assignTopLevel (m : Manifest) (key value : string) : result Manifest :=
  if key_is key "schema_version" then
    n ← parsed_int "Atoi" "schema_version must be an integer" value; Ok (m <| mf_SchemaVersion := n |>)
  else if key_is key "model_id" then Ok (m <| mf_ModelID := value |>)
  else if key_is key "display_name" then Ok (m <| mf_DisplayName := value |>)
  else if key_is key "description" then Ok (m <| mf_Description := value |>)
  else if key_is key "status" then Ok (m <| mf_Status := value |>)
  else Ok m.

Definition assign_source (s : Source) (key value : string) : result Source :=
  if key_is key "provider" then Ok (s <| so_Provider := value |>)
  else if key_is key "repository" then Ok (s <| so_Repository := value |>)
  else if key_is key "revision" then Ok (s <| so_Revision := value |>)
  else if key_is key "file" then Ok (s <| so_File := value |>)
  else if key_is key "url" then Ok (s <| so_URL := value |>)
  else if key_is key "sha256" then Ok (s <| so_SHA256 := trim_prefix value "sha256:" |>)
  else if key_is key "size_bytes" then
    n ← parsed_int "ParseInt" "source.size_bytes must be an integer" value; Ok (s <| so_SizeBytes := n |>)
  else Ok s.

Definition assign_listing (l : Listing) (key value : string) : result Listing :=
  if key_is key "status" then Ok (l <| li_Status := value |>)
  else if key_is key "description" then Ok (l <| li_Description := value |>)
  else if key_is key "expected_output_tokens_per_second" then
    x ← parsed_float "listing.expected_output_tokens_per_second must be a number" value;
    Ok (l <| li_ExpectedOutputTokensPerSecond := Some x |>)
  else Ok l.

Definition assign_license (l : License) (key value : string) : result License :=
  if key_is key "identifier" then Ok (l <| lc_Identifier := value |>)
  else if key_is key "reviewed_at" then Ok (l <| lc_ReviewedAt := value |>)
  else if key_is key "notes" then Ok (l <| lc_Notes := value |>)
  else if key_is key "distribute_with_model" then
    b ← parsed_bool "license.distribute_with_model must be a boolean" value; Ok (l <| lc_DistributeWithModel := b |>)
  else Ok l.

Definition assign_runtime (r : Runtime) (key value : string) : Runtime :=
  if key_is key "engine" then r <| ru_Engine := value |>
  else if key_is key "build_id" then r <| ru_BuildID := value |>
  else if key_is key "release_manifest" then r <| ru_ReleaseManifest := value |>
  else if key_is key "binary_sha256" then r <| ru_BinarySHA256 := trim_prefix value "sha256:" |>
  else r.

(** The value is parsed before the key is looked at: an unknown key must be a number too. *)
Definition assign_hardware (h : Hardware) (key value : string) : result Hardware :=
  n ← parseIntByKey key value;
  Ok (if key_is key "min_vram_mb" then h <| hw_MinVRAMMB := n |>
      else if key_is key "min_ram_mb" then h <| hw_MinRAMMB := n |>
      else if key_is key "min_disk_mb" then h <| hw_MinDiskMB := n |>
      else h).

Definition assign_limits (l : ManifestLimits) (key value : string) : result ManifestLimits :=
  n ← parseIntByKey key value;
  Ok (if key_is key "max_input_tokens" then l <| ml_MaxInputTokens := n |>
      else if key_is key "max_output_tokens" then l <| ml_MaxOutputTokens := n |>
      else if key_is key "max_request_bytes" then l <| ml_MaxRequestBytes := n |>
      else l).

Definition assign_capabilities (c : Capabilities) (key value : string) : result Capabilities :=
  b ← parsed_bool ("capability " +:+ key +:+ " must be a boolean") value;
  Ok (if key_is key "chat_completions" then c <| cp_ChatCompletions := b |>
      else if key_is key "streaming" then c <| cp_Streaming := b |>
      else if key_is key "tools" then c <| cp_Tools := b |>
      else if key_is key "embeddings" then c <| cp_Embeddings := b |>
      else c).

Definition assign_policy (p : Policy) (key value : string) : Policy :=
  if key_is key "data_class" then p <| po_DataClass := value |>
  else if key_is key "content_filter_profile" then p <| po_ContentFilterProfile := value |>
  else p.

Definition assign_pricing (p : ManifestPricing) (key value : string) : result ManifestPricing :=
  x ← parsed_float ("pricing " +:+ key +:+ " must be a number") value;
  Ok (if key_is key "customer_input_per_million_usd" then p <| mp_CustomerInputPerMillionUSD := x |>
      else if key_is key "customer_output_per_million_usd" then p <| mp_CustomerOutputPerMillionUSD := x |>
      else if key_is key "host_credit_per_million_accepted_output_usd"
      then p <| mp_HostCreditPerMillionAcceptedOutputUSD := x |>
      else p).

Definition assign_verification (v : ManifestVerification) (key value : string) : result ManifestVerification :=
  x ← parsed_float ("verification " +:+ key +:+ " must be a number") value;
  Ok (if key_is key "duplicate_sample_rate" then v <| mv_DuplicateSampleRate := x |>
      else if key_is key "challenge_rate" then v <| mv_ChallengeRate := x |>
      else v).

Definition assignSection (m : Manifest) (section key value : string) : result Manifest :=
  if key_is section "source" then s ← assign_source (mf_Source m) key value; Ok (m <| mf_Source := s |>)
  else if key_is section "listing" then l ← assign_listing (mf_Listing m) key value; Ok (m <| mf_Listing := l |>)
  else if key_is section "license" then l ← assign_license (mf_License m) key value; Ok (m <| mf_License := l |>)
  else if key_is section "runtime" then Ok (m <| mf_Runtime := assign_runtime (mf_Runtime m) key value |>)
  else if key_is section "hardware" then h ← assign_hardware (mf_Hardware m) key value; Ok (m <| mf_Hardware := h |>)
  else if key_is section "limits" then l ← assign_limits (mf_Limits m) key value; Ok (m <| mf_Limits := l |>)
  else if key_is section "capabilities" then
    c ← assign_capabilities (mf_Capabilities m) key value; Ok (m <| mf_Capabilities := c |>)
  else if key_is section "policy" then Ok (m <| mf_Policy := assign_policy (mf_Policy m) key value |>)
  else if key_is section "pricing" then p ← assign_pricing (mf_Pricing m) key value; Ok (m <| mf_Pricing := p |>)
  else if key_is section "verification" then
    v ← assign_verification (mf_Verification m) key value; Ok (m <| mf_Verification := v |>)
  else Ok m.

Definition assignMarketComparison (m : Manifest) (key value : string) : result Manifest :=
  let comparison := default empty_comparison (li_MarketComparison (mf_Listing m)) in
  let put c := m <| mf_Listing ::= λ l, l <| li_MarketComparison := Some c |> |> in
  if key_is key "source_note" then Ok (put (comparison <| mc_SourceNote := value |>))
  else
    x ← parsed_float ("listing.market_comparison." +:+ key +:+ " must be a number") value;
    Ok (put (if key_is key "typical_input_per_million_usd" then comparison <| mc_TypicalInputPerMillionUSD := x |>
             else if key_is key "typical_output_per_million_usd" then comparison <| mc_TypicalOutputPerMillionUSD := x |>
             else comparison)).

Definition assign_attribution (m : Manifest) (key value : string) : result Manifest :=
  let attribution := default empty_attribution (lc_Attribution (mf_License m)) in
  let put a := Ok (m <| mf_License ::= λ l, l <| lc_Attribution := Some a |> |>) in
  if key_is key "display_text" then put (attribution <| la_DisplayText := value |>)
  else if key_is key "notice_text" then put (attribution <| la_NoticeText := value |>)
  else if key_is key "license_url" then put (attribution <| la_LicenseURL := value |>)
  else if key_is key "aup_url" then put (attribution <| la_AUPURL := value |>)
  else Err (ErrMsg ("unknown license.attribution key " +:+ Quote key)).

Definition assign_arguments (a : RuntimeArguments) (key value : string) : result RuntimeArguments :=
  if key_is key "context_size" then n ← parseIntByKey key value; Ok (a <| ra_ContextSize := n |>)
  else if key_is key "batch_size" then n ← parseIntByKey key value; Ok (a <| ra_BatchSize := n |>)
  else if key_is key "gpu_layers" then Ok (a <| ra_GPULayers := value |>)
  else if key_is key "device" then Ok (a <| ra_Device := value |>)
  else if key_is key "parallel" then n ← parseIntByKey key value; Ok (a <| ra_Parallel := n |>)
  else if key_is key "host" then Ok (a <| ra_Host := value |>)
  else if key_is key "port" then Ok (a <| ra_Port := value |>)
  else Ok a.

Definition assignSubsection (m : Manifest) (section subsection key value : string) : result Manifest :=
  if key_is section "listing" && key_is subsection "market_comparison" then assignMarketComparison m key value
  else if key_is section "license" && key_is subsection "attribution" then assign_attribution m key value
  else if negb (key_is section "runtime") || negb (key_is subsection "arguments") then Ok m
  else a ← assign_arguments (ru_Arguments (mf_Runtime m)) key value;
       Ok (m <| mf_Runtime ::= λ r, r <| ru_Arguments := a |> |>).

(** The variables of the loop. *)
Record ParseState := { ps_manifest : Manifest; ps_section : string; ps_subsection : string }.
#[export] Instance ParseState_eta : Eta ParseState := λ r,
  {| ps_manifest := ps_manifest r; ps_section := ps_section r; ps_subsection := ps_subsection r |}.

Definition quote_marks : list ascii := [Ascii.ascii_of_nat 34; Ascii.ascii_of_nat 39].

(** [len(raw) - len(strings.TrimLeft(raw, " "))]. *)
Definition indent_of (raw : string) : nat :=
  length (bytes raw) - length (drop_while (λ a, bool_decide (a = " "%char)) (bytes raw)).

(** One round of the loop. *)
Definition parse_line (st : ParseState) (raw : string) : result ParseState :=
  let line := trim_space raw in
  if String.eqb line "" || has_prefix line "#" then Ok st
  else if has_prefix line "- " then
    Ok (if key_is (ps_section st) "hardware" && key_is (ps_subsection st) "eligible_gpu_classes"
        then st <| ps_manifest ::= λ m, m <| mf_Hardware ::= λ h,
               h <| hw_EligibleGPUClasses ::= λ l, l ++ [trim_space (trim_prefix line "- ")] |> |> |>
        else st)
  else
    match cut ":"%char line with
    | None => Err (ErrMsg ("manifest line " +:+ Quote line +:+ " is not key: value"))
    | Some (key, value) =>
        let key := trim_space key in
        let value := trim_set quote_marks (trim_space value) in
        match indent_of raw with
        | 0%nat =>
            let st := st <| ps_subsection := "" |> in
            if String.eqb value "" then Ok (st <| ps_section := key |>)
            else m ← assignTopLevel (ps_manifest st) key value;
                 Ok (st <| ps_section := "" |> <| ps_manifest := m |>)
        | 2%nat =>
            if String.eqb value "" then Ok (st <| ps_subsection := key |>)
            else m ← assignSection (ps_manifest st) (ps_section st) key value;
                 Ok (st <| ps_manifest := m |>)
        | 4%nat =>
            m ← assignSubsection (ps_manifest st) (ps_section st) (ps_subsection st) key value;
            Ok (st <| ps_manifest := m |>)
        | _ => Ok st
        end
    end.

Fixpoint parse_lines (st : ParseState) (lines : list string) : result ParseState :=
  match lines with
  | [] => Ok st
  | raw :: lines => st ← parse_line st raw; parse_lines st lines
  end.

(** The checks after the loop, in the order they are made. *)
Definition check_manifest (m : Manifest) : result unit :=
  let missing (s message : string) (k : result unit) := if String.eqb s "" then Err (ErrMsg message) else k in
  let model := "model manifest " +:+ mf_ModelID m in
  missing (mf_ModelID m) "model manifest is missing model_id" (
  missing (so_URL (mf_Source m)) (model +:+ " is missing source.url") (
  missing (so_SHA256 (mf_Source m)) (model +:+ " is missing source.sha256") (
  if negb (bool_decide (li_Status (mf_Listing m) ∈ [""; ListingLive; ListingWaitlist; ListingHidden]))
  then Err (ErrMsg (model +:+ " has unknown listing.status " +:+ Quote (li_Status (mf_Listing m))))
  else if from_option (λ c, fle (mc_TypicalInputPerMillionUSD c) zero_float ||
                            fle (mc_TypicalOutputPerMillionUSD c) zero_float) false (li_MarketComparison (mf_Listing m))
  then Err (ErrMsg (model +:+ " listing.market_comparison needs positive typical prices"))
  else if lc_DistributeWithModel (mf_License m) && negb (has_license_text (lc_Identifier (mf_License m)))
  then Err (ErrMsg (model +:+ " requires license distribution but no vendored license text exists for identifier " +:+
                    Quote (lc_Identifier (mf_License m))))
  else if from_option (λ a, String.eqb (la_DisplayText a) "") false (lc_Attribution (mf_License m))
  then Err (ErrMsg (model +:+ " license.attribution needs display_text"))
  else Ok tt))).

Definition parseManifest (s : scanner) : result Manifest :=
  st ← parse_lines {| ps_manifest := empty_manifest; ps_section := ""; ps_subsection := "" |} (sc_lines s);
  match sc_err s with
  | Some e => Err e
  | None => _ ← check_manifest (ps_manifest st); Ok (ps_manifest st)
  end.

(** [LoadSelectableManifests] on the files it could read: what does not parse is skipped. *)
Definition LoadSelectableManifests (files : list scanner) : list Manifest :=
  filter (λ m, ListingStatus m ≠ ListingHidden)
    (omap (λ s, match parseManifest s with Ok m => Some m | Err _ => None end) files).
End manifest.

(** ** The choice of a model *)

Definition AutoModelID := "auto".
Definition VRAMUnmeasured : Z := -1.
Definition UnmeasuredVRAMFloorMB : Z := 8192.

Record HostCapacity := { hc_VRAMTotalMB : Z; hc_RAMTotalMB : Z; hc_DiskFreeMB : Z }.

Definition vramKnown (h : HostCapacity) : bool := 0 <? hc_VRAMTotalMB h.

Record Selection := { sl_ModelID : string; sl_Manifest : Manifest; sl_Reason : string; sl_VRAMAssumed : bool }.

Definition vram_of (m : Manifest) : Z := hw_MinVRAMMB (mf_Hardware m).
Definition ram_of (m : Manifest) : Z := hw_MinRAMMB (mf_Hardware m).
Definition disk_of (m : Manifest) : Z := hw_MinDiskMB (mf_Hardware m).

(** The comparison of [bySizeDescending]. *)
Definition size_before (a b : Manifest) : bool :=
  if negb (vram_of a =? vram_of b) then vram_of b <? vram_of a
  else if negb (ram_of a =? ram_of b) then ram_of b <? ram_of a
  else string_ltb (mf_ModelID a) (mf_ModelID b).
Definition bySizeDescending (l : list Manifest) : list Manifest := stable_sort size_before l.

Definition Fits (m : Manifest) (host : HostCapacity) : bool :=
  let vram := if vramKnown host then hc_VRAMTotalMB host else UnmeasuredVRAMFloorMB in
  if vram <? vram_of m then false
  else if (0 <? hc_RAMTotalMB host) && (hc_RAMTotalMB host <? ram_of m) then false
  else if (0 <? hc_DiskFreeMB host) && (hc_DiskFreeMB host <? disk_of m) then false
  else true.

Definition auto_selection (m : Manifest) (host : HostCapacity) : Selection :=
  if vramKnown host then
    {| sl_ModelID := mf_ModelID m; sl_Manifest := m; sl_VRAMAssumed := false;
       sl_Reason := itoa (hc_VRAMTotalMB host) +:+ "MB VRAM available, needs " +:+ itoa (vram_of m) +:+ "MB" |}
  else
    {| sl_ModelID := mf_ModelID m; sl_Manifest := m; sl_VRAMAssumed := true;
       sl_Reason := "VRAM could not be measured, so " +:+ itoa UnmeasuredVRAMFloorMB +:+
         "MB was assumed (the platform minimum): needs " +:+ itoa (vram_of m) +:+ "MB VRAM and " +:+ itoa (ram_of m) +:+
         "MB RAM. Pass --model explicitly to run a larger model once the real VRAM is known" |}.

Definition nothing_fits (smallest : Manifest) (host : HostCapacity) : gerror :=
  ErrMsg (if vramKnown host then
    "no catalog model fits this host: " +:+ itoa (hc_VRAMTotalMB host) +:+ "MB VRAM, " +:+ itoa (hc_RAMTotalMB host) +:+
    "MB RAM, " +:+ itoa (hc_DiskFreeMB host) +:+ "MB free disk; the smallest model " +:+ mf_ModelID smallest +:+
    " needs " +:+ itoa (vram_of smallest) +:+ "MB VRAM, " +:+ itoa (ram_of smallest) +:+ "MB RAM, " +:+
    itoa (disk_of smallest) +:+ "MB disk"
  else
    "no catalog model fits this host on RAM and disk alone (VRAM could not be measured): " +:+
    itoa (hc_RAMTotalMB host) +:+ "MB RAM, " +:+ itoa (hc_DiskFreeMB host) +:+ "MB free disk; the smallest model " +:+
    mf_ModelID smallest +:+ " needs " +:+ itoa (ram_of smallest) +:+ "MB RAM and " +:+ itoa (disk_of smallest) +:+
    "MB disk").

Definition SelectModel (manifests : list Manifest) (host : HostCapacity) : result Selection :=
  let candidates := bySizeDescending (filter (λ m, ListingStatus m ≠ ListingHidden) manifests) in
  match last candidates with
  | None => Err (ErrMsg "no selectable models in the catalog")
  | Some smallest =>
      match filter (λ m, Fits m host = true) candidates with
      | m :: _ => Ok (auto_selection m host)
      | [] => Err (nothing_fits smallest host)
      end
  end.

Definition describeVRAM (host : HostCapacity) : string :=
  if vramKnown host then itoa (hc_VRAMTotalMB host) +:+ "MB VRAM" else "an unmeasurable amount of VRAM".

Definition ResolveModel (requested : string) (manifests : list Manifest) (host : HostCapacity) : result Selection :=
  let requested := trim_space requested in
  if String.eqb requested "" || equal_fold requested AutoModelID then SelectModel manifests host
  else match filter (λ m, mf_ModelID m = requested) manifests with
  | m :: _ =>
      if Fits m host then
        Ok {| sl_ModelID := mf_ModelID m; sl_Manifest := m; sl_VRAMAssumed := negb (vramKnown host);
              sl_Reason := "explicitly requested with --model" |}
      else Err (ErrMsg ("model " +:+ mf_ModelID m +:+ " does not fit this host: it needs " +:+ itoa (vram_of m) +:+
        "MB VRAM, " +:+ itoa (ram_of m) +:+ "MB RAM and " +:+ itoa (disk_of m) +:+ "MB free disk; this host has " +:+
        describeVRAM host +:+ ", " +:+ itoa (hc_RAMTotalMB host) +:+ "MB RAM and " +:+ itoa (hc_DiskFreeMB host) +:+
        "MB free disk. Pass --model auto to use the largest model that fits, or choose a smaller model"))
  | [] => Err (ErrMsg ("model " +:+ requested +:+ " is not in the catalog, or is not selectable"))
  end.

(** ** The order of the candidates *)

Lemma size_before_asym a b : size_before a b = true → size_before b a = false.
Proof.
  unfold size_before. rewrite (Z.eqb_sym (vram_of b)), (Z.eqb_sym (ram_of b)).
  destruct (vram_of a =? vram_of b); simpl; [|lia].
  destruct (ram_of a =? ram_of b); simpl; [apply string_ltb_asym|lia].
Qed.

(** [size_before b a = false]: [a] may stand before [b]. *)
Lemma size_before_ge a b :
  size_before b a = false ↔
  vram_of b < vram_of a ∨ vram_of a = vram_of b ∧ (ram_of b < ram_of a ∨
    ram_of a = ram_of b ∧ string_ltb (mf_ModelID b) (mf_ModelID a) = false).
Proof.
  unfold size_before. destruct (Z.eqb_spec (vram_of b) (vram_of a)) as [->|]; simpl; [|lia].
  destruct (Z.eqb_spec (ram_of b) (ram_of a)) as [->|]; simpl; [|lia].
  split; [auto 10|]. intros [?|(_&[?|[_ ?]])]; [lia..|done].
Qed.

Lemma string_ltb_ge_trans a b c : string_ltb b a = false → string_ltb c b = false → string_ltb c a = false.
Proof.
  intros H1 H2. destruct (string_ltb c a) eqn:E; [|done].
  destruct (string_ltb a b) eqn:Eab.
  - by rewrite (string_ltb_trans c a b E Eab) in H2.
  - by rewrite (string_ltb_total a b Eab H1), H2 in E.
Qed.

Lemma size_before_trans a b c : size_before b a = false → size_before c b = false → size_before c a = false.
Proof.
  rewrite !size_before_ge. intros [?|(?&[?|[??]])] [?|(?&[?|[??]])]; try lia.
  right. split; [lia|right]. split; [lia|]. by eapply string_ltb_ge_trans.
Qed.

Lemma candidates_sorted l : StronglySorted (λ a b, size_before b a = false) (bySizeDescending l).
Proof.
  apply (stable_sort_sorted size_before (λ _, True)).
  - intros a b _ _. apply size_before_asym.
  - intros a b c _ _ _. apply size_before_trans.
  - by apply Forall_true.
Qed.

(** The first candidate that fits: the greatest in the order of size among those that fit. *)
Lemma first_fitting (P : Manifest → Prop) `{!∀ m, Decision (P m)} l m rest :
  filter P (bySizeDescending l) = m :: rest →
  m ∈ l ∧ P m ∧ ∀ x, x ∈ l → P x → x = m ∨ size_before x m = false.
Proof.
  intros E. pose proof (candidates_sorted l) as Hs.
  assert (Hin : m ∈ filter P (bySizeDescending l)) by (rewrite E; constructor).
  apply list_elem_of_filter in Hin as [Hm Hin]. split_and!; [by apply elem_of_stable_sort in Hin|done|].
  intros x Hx Px. assert (Hfs : StronglySorted (λ a b, size_before b a = false) (m :: rest)).
  { rewrite <-E. clear -Hs. induction Hs as [|y ys Hs IH Hall]; [constructor|]. rewrite filter_cons. case_decide; [|done].
    constructor; [done|]. apply Forall_forall. intros z [_ Hz]%list_elem_of_filter. rewrite Forall_forall in Hall. by apply Hall. }
  assert (Hx' : x ∈ m :: rest) by (rewrite <-E; apply list_elem_of_filter; split; [done|by apply elem_of_stable_sort]).
  apply StronglySorted_inv in Hfs as [_ Hall]. rewrite Forall_forall in Hall.
  apply elem_of_cons in Hx' as [->|Hx']; [by left|right; by apply Hall].
Qed.

(** A model the choice may fall on. *)
Definition offered (l : list Manifest) (m : Manifest) : Prop := m ∈ l ∧ ListingStatus m ≠ ListingHidden.

(** C36. The automatic choice. It falls on a listed model of the catalog that fits the host, and
    no other listed model that fits comes before it in size; it is made whenever one fits,
    and is an error exactly when none does. The choice says whether the memory of the card
    was assumed, and it then never needs more than the assumed 8192 MB. *)
Theorem SelectModel_spec l host :
  match SelectModel l host with
  | Ok sel => let m := sl_Manifest sel in
      offered l m ∧ Fits m host = true ∧ sl_ModelID sel = mf_ModelID m ∧ sl_VRAMAssumed sel = negb (vramKnown host) ∧
      (vramKnown host = false → vram_of m ≤ 8192) ∧
      ∀ x, offered l x → Fits x host = true → x = m ∨ size_before x m = false
  | Err _ => ∀ x, offered l x → Fits x host = false
  end.
Proof.
  unfold SelectModel. set (listed := filter (λ m, ListingStatus m ≠ ListingHidden) l).
  assert (Hoff : ∀ x, offered l x ↔ x ∈ listed) by (intros x; unfold offered, listed; rewrite list_elem_of_filter; naive_solver).
  destruct (last (bySizeDescending listed)) as [smallest|] eqn:El.
  - destruct (filter (λ m, Fits m host = true) (bySizeDescending listed)) as [|m rest] eqn:E.
    + intros x Hx%Hoff. apply not_true_is_false. intros HF.
      assert (Hin : x ∈ filter (λ m, Fits m host = true) (bySizeDescending listed))
        by (apply list_elem_of_filter; split; [done|by apply elem_of_stable_sort]).
      rewrite E in Hin. by apply not_elem_of_nil in Hin.
    + apply first_fitting in E as (Hin & HF & Hmax).
      assert (Hm : sl_Manifest (auto_selection m host) = m ∧ sl_ModelID (auto_selection m host) = mf_ModelID m ∧
        sl_VRAMAssumed (auto_selection m host) = negb (vramKnown host)) by (unfold auto_selection; by destruct (vramKnown host)).
      destruct Hm as (-> & -> & ->). split_and!; [by apply Hoff|done..| |].
      * intros Hk. unfold Fits in HF. rewrite Hk in HF. destruct (Z.ltb_spec UnmeasuredVRAMFloorMB (vram_of m)); [done|].
        unfold UnmeasuredVRAMFloorMB in *. lia.
      * intros x Hx%Hoff. by apply Hmax.
  - intros x Hx%Hoff. apply last_None in El. apply (elem_of_stable_sort size_before) in Hx.
    unfold bySizeDescending in El. rewrite El in Hx. by apply not_elem_of_nil in Hx.
Qed.

(** Whatever is asked for, what is chosen fits the host. *)
Lemma SelectModel_fits l host sel : SelectModel l host = Ok sel → Fits (sl_Manifest sel) host = true.
Proof.
  unfold SelectModel. destruct (last _) as [m0|]; [|done].
  destruct (filter (λ x, Fits x host = true) _) as [|m rest] eqn:E; [done|]. intros [= <-].
  assert (Hin : m ∈ filter (λ m, Fits m host = true) (bySizeDescending (filter (λ m, ListingStatus m ≠ ListingHidden) l)))
    by (rewrite E; by left).
  apply list_elem_of_filter in Hin as [HF _]. unfold auto_selection. by destruct (vramKnown host).
Qed.

Lemma ResolveModel_fits requested l host sel :
  ResolveModel requested l host = Ok sel → Fits (sl_Manifest sel) host = true.
Proof.
  unfold ResolveModel. case_match; [apply SelectModel_fits|]. case_match; [done|].
  case_match eqn:HF; [|done]. by intros [= <-].
Qed.

(** A model asked for by name is never replaced by another: it is run when it fits, and is an
    error when it does not or is not there. *)
Theorem ResolveModel_explicit name l host sel :
  name ≠ "" → trim_space name = name → equal_fold name AutoModelID = false →
  ResolveModel name l host = Ok sel ↔
  ∃ m, filter (λ m, mf_ModelID m = name) l !! 0%nat = Some m ∧ Fits m host = true ∧
    sel = {| sl_ModelID := name; sl_Manifest := m; sl_VRAMAssumed := negb (vramKnown host);
             sl_Reason := "explicitly requested with --model" |}.
Proof.
  intros Hne Ht Ha. unfold ResolveModel. rewrite Ht, Ha, (proj2 (String.eqb_neq _ _) Hne). simpl orb. cbn iota.
  destruct (filter _ l) as [|m rest] eqn:E; [split; [done|by intros (? & ? & _)]|].
  assert (Hm : mf_ModelID m = name).
  { assert (Hin : m ∈ filter (λ m, mf_ModelID m = name) l) by (rewrite E; constructor). by apply list_elem_of_filter in Hin as [? _]. }
  simpl. rewrite Hm. destruct (Fits m host) eqn:HF; split; [|by intros (? & [= <-] & _ & ->)|done|].
  - intros [= <-]. by exists m.
  - intros (? & [= <-] & HF' & _). by rewrite HF in HF'.
Qed.

(** ** What a manifest that parses is *)

Definition int64 (n : Z) : Prop := - 2 ^ 63 ≤ n < 2 ^ 63.

Lemma atoi_range s n : atoi s = Some n → int64 n.
Proof.
  unfold atoi. destruct (match bytes s with [] => _ | _ => _ end) as [neg [|d ds]]; [done|].
  destruct (parse_digits 0 (d :: ds)) as [v|]; simpl; [|done].
  case_match eqn:E; [|done]. intros [= <-]. unfold int64. lia.
Qed.

Section manifest_theory.
Context (ParseFloat : string → result float64) (Quote : string → string).

(** The numbers of a manifest are machine integers, and its floats are what [ParseFloat]
    makes. *)
Definition parsed_number (x : float64) : Prop := x = zero_float ∨ ∃ s, ParseFloat s = Ok x.

Record numbers_ok (m : Manifest) : Prop := {
  nk_schema : int64 (mf_SchemaVersion m);
  nk_size : int64 (so_SizeBytes (mf_Source m));
  nk_hardware : int64 (vram_of m) ∧ int64 (ram_of m) ∧ int64 (disk_of m);
  nk_limits : int64 (ml_MaxInputTokens (mf_Limits m)) ∧ int64 (ml_MaxOutputTokens (mf_Limits m)) ∧
              int64 (ml_MaxRequestBytes (mf_Limits m));
  nk_arguments : let a := ru_Arguments (mf_Runtime m) in
              int64 (ra_ContextSize a) ∧ int64 (ra_BatchSize a) ∧ int64 (ra_Parallel a);
  nk_pricing : let p := mf_Pricing m in
              parsed_number (mp_CustomerInputPerMillionUSD p) ∧ parsed_number (mp_CustomerOutputPerMillionUSD p) ∧
              parsed_number (mp_HostCreditPerMillionAcceptedOutputUSD p);
  nk_verification : parsed_number (mv_DuplicateSampleRate (mf_Verification m)) ∧
              parsed_number (mv_ChallengeRate (mf_Verification m));
  nk_comparison c : li_MarketComparison (mf_Listing m) = Some c →
              parsed_number (mc_TypicalInputPerMillionUSD c) ∧ parsed_number (mc_TypicalOutputPerMillionUSD c)
}.

Lemma int64_0 : int64 0.
Proof. unfold int64. lia. Qed.
#[local] Hint Resolve int64_0 : core.
Lemma zero_parsed : parsed_number zero_float.
Proof. by left. Qed.
#[local] Hint Resolve zero_parsed : core.

Lemma empty_numbers : numbers_ok empty_manifest.
Proof. split; simpl; auto. done. Qed.

Lemma parsed_int_ok f msg v n : parsed_int Quote f msg v = Ok n → int64 n.
Proof. unfold parsed_int. destruct (atoi v) eqn:E; [|done]. intros [= <-]. by eapply atoi_range. Qed.
Lemma parsed_float_ok msg v x : parsed_float ParseFloat msg v = Ok x → parsed_number x.
Proof. unfold parsed_float. destruct (ParseFloat v) eqn:E; [|done]. intros [= <-]. right. by exists v. Qed.
Lemma result_bind_ok {A B} (r : result A) (f : A → result B) b : (r ≫= f) = Ok b → ∃ a, r = Ok a ∧ f a = Ok b.
Proof. destruct r; [|done]. by exists a. Qed.

(** Takes an assignment apart: the tests of the key, the parsed value, the new manifest. *)
Ltac assigned := repeat first
  [ progress simplify_eq
  | match goal with
    | H : (_ ≫= _) = Ok _ |- _ => apply result_bind_ok in H as (? & ? & ?)
    | H : parsed_int _ _ _ _ = Ok _ |- _ => apply parsed_int_ok in H
    | H : parseIntByKey _ _ _ = Ok _ |- _ => apply parsed_int_ok in H
    | H : parsed_float _ _ _ = Ok _ |- _ => apply parsed_float_ok in H
    | H : (if ?b then _ else _) = Ok _ |- _ => destruct b
    end ].
Ltac numbered := match goal with
  | H : numbers_ok ?m |- numbers_ok _ =>
      destruct H; split; simpl in *; intros; simplify_eq;
      repeat match goal with |- context [if ?b then _ else _] => destruct b; simpl end; naive_solver
  end.

Lemma top_level_numbers m k v m' : numbers_ok m → assignTopLevel Quote m k v = Ok m' → numbers_ok m'.
Proof. unfold assignTopLevel. intros Hm H. assigned; first [done|numbered]. Qed.

Lemma section_numbers m sec k v m' : numbers_ok m → assignSection ParseFloat Quote m sec k v = Ok m' → numbers_ok m'.
Proof.
  unfold assignSection, assign_source, assign_listing, assign_license, assign_hardware, assign_limits, assign_capabilities,
    assign_pricing, assign_verification, assign_runtime. intros Hm H. assigned; first [done|numbered].
Qed.

Lemma subsection_numbers m sec sub k v m' :
  numbers_ok m → assignSubsection ParseFloat Quote m sec sub k v = Ok m' → numbers_ok m'.
Proof.
  unfold assignSubsection, assignMarketComparison, assign_attribution, assign_arguments. intros Hm H.
  assigned; first [done|destruct (li_MarketComparison (mf_Listing m)) eqn:?; numbered|numbered].
Qed.

Lemma parse_line_numbers st raw st' :
  numbers_ok (ps_manifest st) → parse_line ParseFloat Quote st raw = Ok st' → numbers_ok (ps_manifest st').
Proof.
  intros Hm. unfold parse_line. destruct (_ || _); [by intros [= <-]|]. destruct (has_prefix _ _).
  { intros [= <-]. destruct (_ && _); [|done]. simpl. numbered. }
  destruct (cut _ _) as [[key value]|]; [|done].
  destruct (indent_of raw) as [|[|[|[|[|]]]]]; try (by intros [= <-]).
  - destruct (String.eqb _ _); [by intros [= <-]|]. intros (m & H & [= <-])%result_bind_ok. by eapply top_level_numbers.
  - destruct (String.eqb _ _); [by intros [= <-]|]. intros (m & H & [= <-])%result_bind_ok. by eapply section_numbers.
  - intros (m & H & [= <-])%result_bind_ok. by eapply subsection_numbers.
Qed.

Lemma parse_lines_numbers lines st st' :
  numbers_ok (ps_manifest st) → parse_lines ParseFloat Quote st lines = Ok st' → numbers_ok (ps_manifest st').
Proof.
  revert st. induction lines as [|raw lines IH]; intros st Hm; simpl; [by intros [= <-]|].
  intros (st1 & H & H')%result_bind_ok. eapply IH; [|done]. by eapply parse_line_numbers.
Qed.

(** What the checks after the loop establish. *)
Record manifest_valid (m : Manifest) : Prop := {
  mv_id : mf_ModelID m ≠ "";
  mv_url : so_URL (mf_Source m) ≠ "";
  mv_sha : so_SHA256 (mf_Source m) ≠ "";
  mv_listing : li_Status (mf_Listing m) ∈ [""; ListingLive; ListingWaitlist; ListingHidden];
  mv_prices c : li_MarketComparison (mf_Listing m) = Some c →
    fle (mc_TypicalInputPerMillionUSD c) zero_float = false ∧ fle (mc_TypicalOutputPerMillionUSD c) zero_float = false;
  mv_license : lc_DistributeWithModel (mf_License m) = true → has_license_text (lc_Identifier (mf_License m)) = true;
  mv_attribution a : lc_Attribution (mf_License m) = Some a → la_DisplayText a ≠ ""
}.

Lemma check_manifest_ok m : check_manifest Quote m = Ok tt ↔ manifest_valid m.
Proof.
  unfold check_manifest. split.
  - destruct (String.eqb_spec (mf_ModelID m) ""); [done|]. destruct (String.eqb_spec (so_URL (mf_Source m)) ""); [done|].
    destruct (String.eqb_spec (so_SHA256 (mf_Source m)) ""); [done|]. case_bool_decide as Hl; [|done]. simpl negb. cbn iota.
    destruct (from_option _ _ (li_MarketComparison _)) eqn:Ep; [done|]. destruct (_ && _) eqn:Ed; [done|].
    destruct (from_option _ _ (lc_Attribution _)) eqn:Ea; [done|]. intros _. split; try done.
    + intros c E. rewrite E in Ep. simpl in Ep. by apply orb_false_iff in Ep.
    + intros E. rewrite E in Ed. simpl in Ed. by apply negb_false_iff in Ed.
    + intros a E. rewrite E in Ea. simpl in Ea. by apply String.eqb_neq.
  - intros [Hi Hu Hs Hl Hp Hd Ha].
    rewrite (proj2 (String.eqb_neq _ _) Hi), (proj2 (String.eqb_neq _ _) Hu), (proj2 (String.eqb_neq _ _) Hs).
    rewrite bool_decide_true by done. simpl negb. cbn iota.
    destruct (li_MarketComparison _) as [c|] eqn:Ec; simpl; [destruct (Hp c eq_refl) as [-> ->]|]; simpl;
      (destruct (lc_DistributeWithModel _); simpl; [rewrite (Hd eq_refl)|]; simpl);
      (destruct (lc_Attribution _) as [a|] eqn:Ea; simpl; [rewrite (proj2 (String.eqb_neq _ _) (Ha a eq_refl))|]); done.
Qed.

(** C35. What the rest of the program may take for granted of a manifest that was read: it names a
    model, the place of its file and the file's hash; its listing is one of the four forms;
    a license that must travel with the model has its text here, an attribution has something
    to show; every integer fits a machine word and every price is a parsed number. A file is
    refused for nothing else than a line that does not parse, an error of the reader, or one
    of these conditions. *)
Theorem parsed_manifest_valid s :
  match parseManifest ParseFloat Quote s with
  | Ok m => manifest_valid m ∧ numbers_ok m ∧ sc_err s = None
  | Err _ =>
      match parse_lines ParseFloat Quote {| ps_manifest := empty_manifest; ps_section := ""; ps_subsection := "" |}
              (sc_lines s) with
      | Ok st => sc_err s ≠ None ∨ ¬ manifest_valid (ps_manifest st)
      | Err _ => True
      end
  end.
Proof.
  unfold parseManifest. destruct (parse_lines _ _ _ _) as [st|e] eqn:E; [|done]. simpl.
  destruct (sc_err s); [by left|]. destruct (check_manifest Quote (ps_manifest st)) as [[]|e] eqn:Ec; simpl.
  - split_and!; [by apply check_manifest_ok| |done]. eapply parse_lines_numbers; [|exact E]. apply empty_numbers.
  - right. rewrite <-check_manifest_ok. by rewrite Ec.
Qed.
End manifest_theory.

(** ** A manifest of the catalog *)

(** Reads the numbers of the example. *)
Definition toy_ParseFloat (s : string) : result float64 :=
  if String.eqb s "nan" then Ok SpecFloat.S754_nan
  else match cut "."%char s with
  | Some (whole, frac) =>
      match atoi (whole +:+ frac) with
      | Some n => Ok (float_of_ratio n (10 ^ Z.of_nat (String.length frac)))
      | None => Err (ErrMsg "invalid syntax")
      end
  | None => match atoi s with Some n => Ok (float_of_Z n) | None => Err (ErrMsg "invalid syntax") end
  end.

(** [llama-3.2-3b-instruct.yaml], with short notes. *)
Definition llama_yaml (input_price : string) : list string := [
  "schema_version: 1"; "model_id: llama-3.2-3b-instruct"; "display_name: Llama 3.2 3B Instruct"; "status: alpha";
  "listing:"; "  status: waitlist"; "  expected_output_tokens_per_second: 60"; "  market_comparison:";
  "    typical_input_per_million_usd: " +:+ input_price; "    typical_output_per_million_usd: 0.025";
  "    source_note: typical hosted price, July 2026";
  "source:"; "  provider: huggingface"; "  url: https://huggingface.co/bartowski/Llama-3.2-3B-Instruct-GGUF";
  "  sha256: 6c1a2b41161032677be168d354123594c0e6e67d2b9227c84f296ad037c728ff"; "  size_bytes: 2019377696";
  "license:"; "  identifier: llama3.2"; "  distribute_with_model: true"; "  attribution:";
  "    display_text: Built with Llama"; "    aup_url: https://www.llama.com/llama3_2/use-policy";
  "runtime:"; "  engine: llama.cpp"; "  arguments:"; "    context_size: 8192";
  "    gpu_layers: " +:+ String (Ascii.ascii_of_nat 34) ("999" +:+ String (Ascii.ascii_of_nat 34) ""); "    parallel: 1";
  "hardware:"; "  min_vram_mb: 8192"; "  min_ram_mb: 8192"; "  min_disk_mb: 6000"; "  eligible_gpu_classes:";
  "    - ts-nvidia-8gb-v1"; "    - ts-nvidia-12gb-v1";
  "limits:"; "  max_input_tokens: 7168"; "capabilities:"; "  chat_completions: true";
  "pricing:"; "  customer_input_per_million_usd: 0.01"; "verification:"; "  challenge_rate: 0.01";
  "signature:"; "  key_id: catalog-key-2026-01"].

Definition llama (input_price : string) : result Manifest :=
  parseManifest toy_ParseFloat id {| sc_lines := llama_yaml input_price; sc_err := None |}.

Example llama_parses :
  ∃ m, llama "0.015" = Ok m ∧ ListingStatus m = ListingWaitlist ∧ mf_ModelID m = "llama-3.2-3b-instruct" ∧
    vram_of m = 8192 ∧ disk_of m = 6000 ∧ hw_EligibleGPUClasses (mf_Hardware m) = ["ts-nvidia-8gb-v1"; "ts-nvidia-12gb-v1"] ∧
    ra_GPULayers (ru_Arguments (mf_Runtime m)) = "999" ∧ so_SizeBytes (mf_Source m) = 2019377696 ∧
    (la_DisplayText <$> lc_Attribution (mf_License m)) = Some "Built with Llama" ∧
    mv_ChallengeRate (mf_Verification m) = float_of_ratio 1 100.
Proof. eexists. split; [vm_compute; reflexivity|]. by vm_compute. Qed.

(** A price that is not a number passes the check for positive prices. *)
Example nan_price_accepted : is_ok (llama "0.0") = false ∧ is_ok (llama "nan") = true.
Proof. by vm_compute. Qed.

(** A host whose card could not be measured gets no model that needs more than 8192 MB. *)
Example unmeasured_host :
  let large m := m <| mf_ModelID := "large" |> <| mf_Hardware ::= λ h, h <| hw_MinVRAMMB := 24000 |> |> in
  let host := {| hc_VRAMTotalMB := VRAMUnmeasured; hc_RAMTotalMB := 65536; hc_DiskFreeMB := 500000 |} in
  ∃ m sel, llama "0.015" = Ok m ∧ SelectModel [m; large m] host = Ok sel ∧ sl_ModelID sel = "llama-3.2-3b-instruct" ∧
    sl_VRAMAssumed sel = true.
Proof. eexists _, _. split; [vm_compute; reflexivity|]. by vm_compute. Qed.
