(* ===== verification/Hardware.v ===== *)
(** * The hardware of a host

    [internal/node/hardware] ([types.go], [nvidia.go], [vendor.go], [resources.go],
    [doctor.go]): what a node finds out about its graphics cards, memory and disk, and the
    report of [thirdshift doctor]. The output of vendor tools, the figures of the operating
    system and the answers of the two endpoints are inputs; the parsers of CSV, JSON, URLs
    and decimal fractions and the ["%.1f"] and ["%q"] verbs are parameters. *)
From stdpp Require Import base gmap strings list.
From Stdlib Require Import ZArith Lia Ascii.
From S2P Require Import Prelude GoStrings Float64 Sha256 Encoding Catalog.

(** ** The report *)

Definition StatusPass : string := "pass".
Definition StatusFail : string := "fail".
Definition StatusWarn : string := "warn".
Definition StatusUnsupported : string := "unsupported".
Definition StatusSkipped : string := "skipped".

(** The values the checks store under [Details]. *)
Inductive Detail := DText (s : string) | DNumber (x : float64) | DInt (z : Z).

Record CheckResult := {
  cr_Name : string; cr_Status : string; cr_Message : string; cr_Remediation : string; cr_Details : gmap string Detail
}.
#[export] Instance CheckResult_eta : Eta CheckResult := λ r,
  {| cr_Name := cr_Name r; cr_Status := cr_Status r; cr_Message := cr_Message r;
     cr_Remediation := cr_Remediation r; cr_Details := cr_Details r |}.

Record GPU := {
  gpu_Name : string; gpu_UUID : string; gpu_VRAMTotalMB : Z; gpu_DriverVersion : string; gpu_TemperatureC : Z;
  gpu_PowerDrawW : float64; gpu_PowerLimitW : float64; gpu_UtilizationPercent : Z
}.

Record DoctorReport := {
  dr_GeneratedAt : Z; dr_OS : string; dr_Arch : string; dr_Overall : string; dr_GPUVendor : string;
  dr_Checks : list CheckResult; dr_GPUs : list GPU
}.

Definition VendorNvidia : string := "nvidia".
Definition VendorAMD : string := "amd".
Definition VendorApple : string := "apple".
Definition VendorUnknown : string := "unknown".

Definition VRAMUnknown : Z := -1.

Definition GiB : Z := 1024 * 1024 * 1024.
Definition MinimumVRAMBytes : Z := 8 * GiB.
Definition MinimumRAMBytes : Z := 15 * GiB.
Definition MinimumDiskBytes : Z := 40 * GiB.

(** Conversion to [uint64], and its arithmetic. *)
Definition u64 (z : Z) : Z := z mod 2 ^ 64.

(** A card of which only the name, the memory and the driver are known. *)
Definition named_gpu (name : string) (vramMB : Z) (driver : string) : GPU :=
  {| gpu_Name := name; gpu_UUID := ""; gpu_VRAMTotalMB := vramMB; gpu_DriverVersion := driver; gpu_TemperatureC := 0;
     gpu_PowerDrawW := float_of_Z 0; gpu_PowerLimitW := float_of_Z 0; gpu_UtilizationPercent := 0 |}.

Definition bytesToGiB (n : Z) : float64 :=
  fdiv (fdiv (fdiv (float_of_Z n) (float_of_Z 1024)) (float_of_Z 1024)) (float_of_Z 1024).

(** ** Windows display adapters *)

Record VideoController := {
  vc_Name : string; vc_AdapterRAM : option Z; vc_DriverVersion : string; vc_AdapterCompatibility : string
}.

(** The zero [VideoController]. *)
Definition no_controller : VideoController :=
  {| vc_Name := ""; vc_AdapterRAM := None; vc_DriverVersion := ""; vc_AdapterCompatibility := "" |}.

Definition AdapterVRAMBytes (controller : VideoController) : Z * bool :=
  match vc_AdapterRAM controller with
  | None => (VRAMUnknown, false)
  | Some ram =>
      if ram <=? 0 then (VRAMUnknown, false)
      else if 4 * 1024 * 1024 * 1024 - 64 * 1024 * 1024 <=? ram then (VRAMUnknown, false)
      else (ram, true)
  end.

Definition GPUsFromControllers (controllers : list VideoController) : list GPU :=
  (λ controller,
     let '(vram, ok) := AdapterVRAMBytes controller in
     let vramMB := if ok : bool then Z.quot (Z.quot vram 1024) 1024 else VRAMUnknown in
     named_gpu (trim_space (vc_Name controller)) vramMB (trim_space (vc_DriverVersion controller)))
  <$> controllers.

(** ** Apple Silicon *)

Record AppleGPU := {
  ag_gpu_Name : string; ag_gpu_Model : string; ag_gpu_Cores : string; ag_gpu_Vendor : string; ag_gpu_DeviceType : string
}.

Definition AppleGPUMemoryBudgetPercent : Z := 65.

Definition AppleGPUMemoryBudgetMB (totalBytes : Z) : Z :=
  if totalBytes <=? 0 then VRAMUnknown
  else let totalMB := Z.quot (Z.quot totalBytes 1024) 1024 in
       Z.quot (wrap64 (totalMB * AppleGPUMemoryBudgetPercent)) 100.

Definition firstNonEmptyString (values : list string) : string :=
  default "" (head (filter (λ v, is_blank v = false) values)).

(** ** Resources *)

Record HostResources := {
  hr_GPUVendor : string; hr_GPUName : string; hr_VRAMTotalMB : Z; hr_RAMTotalMB : Z; hr_DiskFreeMB : Z
}.
#[export] Instance HostResources_eta : Eta HostResources := λ r,
  {| hr_GPUVendor := hr_GPUVendor r; hr_GPUName := hr_GPUName r; hr_VRAMTotalMB := hr_VRAMTotalMB r;
     hr_RAMTotalMB := hr_RAMTotalMB r; hr_DiskFreeMB := hr_DiskFreeMB r |}.

Definition VRAMKnown (h : HostResources) : bool := 0 <? hr_VRAMTotalMB h.

(** ** The environment of a probe *)

(** What [url.Parse] reads in the endpoint of the web socket. *)
Record WSSURL := { wu_Scheme : string; wu_Host : string; wu_EscapedPath : string; wu_RawQuery : string }.

(** [http.NewRequestWithContext] refuses the URL, or the request fails, or is answered. *)
Inductive HTTPSProbe := BadURL (err : string) | Unreachable (err : string) | Reached (status : Z).

Record Host := {
  ho_GOOS : string;
  ho_GOARCH : string;
  ho_command : string → list string → result string;      (* CommandRunner.Run *)
  ho_totalMemory : result Z;                                (* totalMemoryBytes *)
  ho_freeDisk : string → result Z;                         (* freeDiskBytes *)
  ho_https : string → HTTPSProbe;                          (* HEAD of a URL *)
  ho_dial : string → option string;                        (* tls.Dialer, an error *)
  ho_random : result (list Z);                              (* 16 bytes of crypto/rand *)
  ho_exchange : string → string → result string;           (* request to answer line *)
}.

(** Third-party and library parsers and printers. *)
Class Parsers := {
  read_csv : string → result (list (list string));
  json_controllers : string → result (list VideoController);
  json_controller : string → result VideoController;
  json_displays : string → result (list AppleGPU);
  parse_float : string → option float64;
  parse_url : string → option WSSURL;
  lower_of : Z → Z;
  fixed1 : float64 → string;      (* "%.1f" *)
  quoted : string → string        (* "%q" *)
}.

Definition NvidiaSMIQueryArgs : list string :=
  ["--query-gpu=name,uuid,memory.total,driver_version,temperature.gpu,power.draw,power.limit,utilization.gpu";
   "--format=csv,noheader,nounits"].
Definition WindowsVideoControllerArgs : list string :=
  ["-NoProfile"; "-NonInteractive"; "-Command";
   "Get-CimInstance Win32_VideoController | Select-Object Name, AdapterRAM, DriverVersion, AdapterCompatibility | ConvertTo-Json -Compress"].
Definition AppleDisplaysArgs : list string := ["SPDisplaysDataType"; "-json"].
Definition AppleMemsizeArgs : list string := ["-n"; "hw.memsize"].

Definition wrap_err {A} (ctx : string) (r : result A) : result A :=
  match r with Ok a => Ok a | Err e => Err (ErrWrap ctx e) end.

(** ** Detection *)

Section detection.
Context `{Prs : !Parsers} (host : Host).

(** [parseIntField], [parseFloatField]. *)
Definition parseIntField (value name : string) (row : Z) : result Z :=
  match atoi (trim_space value) with
  | Some v => Ok v
  | None => Err (ErrMsg ("nvidia-smi row " +:+ itoa (row + 1) +:+ " " +:+ name +:+ "=" +:+ quoted value +:+ " is not an integer"))
  end.

Definition parseFloatField (value name : string) (row : Z) : result float64 :=
  match parse_float (trim_space value) with
  | Some v => Ok v
  | None => Err (ErrMsg ("nvidia-smi row " +:+ itoa (row + 1) +:+ " " +:+ name +:+ "=" +:+ quoted value +:+ " is not a number"))
  end.

(** The number, from 1, of the first blank field of a row. *)
Fixpoint blank_field (n : Z) (record : list string) : option Z :=
  match record with
  | [] => None
  | v :: rest => if is_blank v then Some n else blank_field (n + 1) rest
  end.

(** The body of the loop of [ParseNvidiaSMICSV]: nothing for an empty line. *)
Definition parse_gpu (idx : Z) (record : list string) : result (option GPU) :=
  if match record with [v] => is_blank v | _ => false end then Ok None
  else match record with
  | [name; uuid; memory; driver; temperature; draw; limit; util] =>
      match blank_field 1 record with
      | Some n => Err (ErrMsg ("nvidia-smi row " +:+ itoa (idx + 1) +:+ " field " +:+ itoa n +:+ " is empty"))
      | None =>
          vram ← parseIntField memory "memory.total" idx;
          temp ← parseIntField temperature "temperature.gpu" idx;
          powerDraw ← parseFloatField draw "power.draw" idx;
          powerLimit ← parseFloatField limit "power.limit" idx;
          utilization ← parseIntField util "utilization.gpu" idx;
          Ok (Some {| gpu_Name := trim_space name; gpu_UUID := trim_space uuid; gpu_VRAMTotalMB := vram;
                      gpu_DriverVersion := trim_space driver; gpu_TemperatureC := temp; gpu_PowerDrawW := powerDraw;
                      gpu_PowerLimitW := powerLimit; gpu_UtilizationPercent := utilization |})
      end
  | _ => Err (ErrMsg ("nvidia-smi row " +:+ itoa (idx + 1) +:+ " has " +:+ itoa (Z.of_nat (length record)) +:+ " fields, want 8"))
  end.

Fixpoint parse_gpus (idx : Z) (records : list (list string)) : result (list GPU) :=
  match records with
  | [] => Ok []
  | record :: rest =>
      gpu ← parse_gpu idx record;
      gpus ← parse_gpus (idx + 1) rest;
      Ok (option_list gpu ++ gpus)
  end.

Definition ParseNvidiaSMICSV (input : string) : result (list GPU) :=
  records ← wrap_err "parse nvidia-smi csv" (read_csv input);
  gpus ← parse_gpus 0 records;
  match gpus with [] => Err (ErrMsg "nvidia-smi returned no GPU rows") | _ => Ok gpus end.

Definition DetectNvidiaGPUs : result (list GPU) :=
  output ← wrap_err "run nvidia-smi" (ho_command host "nvidia-smi" NvidiaSMIQueryArgs);
  ParseNvidiaSMICSV output.

Definition ParseVideoControllerJSON (input : string) : result (list VideoController) :=
  let trimmed := trim_space input in
  if String.eqb trimmed "" then Err (ErrMsg "Win32_VideoController returned no output")
  else
    controllers ← if has_prefix trimmed "["
                  then wrap_err "parse Win32_VideoController array" (json_controllers trimmed)
                  else single ← wrap_err "parse Win32_VideoController object" (json_controller trimmed); Ok [single];
    match controllers with [] => Err (ErrMsg "Win32_VideoController returned no adapters") | _ => Ok controllers end.

Definition DetectWindowsVideoControllers : result (list VideoController) :=
  output ← wrap_err "query Win32_VideoController" (ho_command host "powershell" WindowsVideoControllerArgs);
  ParseVideoControllerJSON output.

Definition VendorForController (controller : VideoController) : string :=
  let haystack := to_lower lower_of (vc_AdapterCompatibility controller +:+ " " +:+ vc_Name controller) in
  if contains haystack "nvidia" then VendorNvidia
  else if contains haystack "advanced micro devices" || contains haystack "amd" || contains haystack "radeon"
          || contains haystack "ati " then VendorAMD
  else VendorUnknown.

(** The first NVIDIA or AMD adapter; without one the first adapter, of unknown vendor. *)
Definition SelectPrimaryController (controllers : list VideoController) : VideoController * string :=
  let supported c := let vendor := VendorForController c in
                     String.eqb vendor VendorNvidia || String.eqb vendor VendorAMD in
  match filter (λ c, supported c = true) controllers with
  | c :: _ => (c, VendorForController c)
  | [] => (default no_controller (head controllers), VendorUnknown)
  end.

Definition ParseAppleDisplaysJSON (input : string) : result (list AppleGPU) :=
  let trimmed := trim_space input in
  if String.eqb trimmed "" then Err (ErrMsg "SPDisplaysDataType returned no output")
  else
    displays ← wrap_err "parse SPDisplaysDataType" (json_displays trimmed);
    match displays with [] => Err (ErrMsg "SPDisplaysDataType returned no GPUs") | _ => Ok displays end.

Definition DetectAppleGPUs : result (list AppleGPU) :=
  output ← wrap_err "query SPDisplaysDataType" (ho_command host "system_profiler" AppleDisplaysArgs);
  ParseAppleDisplaysJSON output.

Definition IsAppleGPU (gpu : AppleGPU) : bool :=
  contains (to_lower lower_of (ag_gpu_Vendor gpu +:+ " " +:+ ag_gpu_Model gpu +:+ " " +:+ ag_gpu_Name gpu)) "apple".

Definition SelectAppleGPU (gpus : list AppleGPU) : option AppleGPU :=
  head (filter (λ g, IsAppleGPU g = true) gpus).

Definition ParseMemsize (input : string) : result Z :=
  let trimmed := trim_space input in
  if String.eqb trimmed "" then Err (ErrMsg "hw.memsize returned no output")
  else match atoi trimmed with
  | None => Err (ErrMsg ("hw.memsize " +:+ quoted trimmed +:+ " is not an integer"))
  | Some parsed =>
      if parsed <=? 0 then Err (ErrMsg ("hw.memsize " +:+ itoa parsed +:+ " is not a plausible memory size"))
      else Ok parsed
  end.

Definition DetectAppleUnifiedMemoryBytes : result Z :=
  output ← wrap_err "read hw.memsize" (ho_command host "sysctl" AppleMemsizeArgs);
  ParseMemsize output.

(** [err == nil && len(gpus) > 0] *)
Definition nvidia_gpus : option (list GPU) :=
  match DetectNvidiaGPUs with Ok (gpu :: gpus) => Some (gpu :: gpus) | _ => None end.

Definition apple_gpu : option AppleGPU :=
  match DetectAppleGPUs with Ok gpus => SelectAppleGPU gpus | Err _ => None end.

Definition DetectGPUVendor : string :=
  if nvidia_gpus then VendorNvidia
  else if String.eqb (ho_GOOS host) "darwin" then (if apple_gpu then VendorApple else VendorUnknown)
  else if negb (String.eqb (ho_GOOS host) "windows") then VendorUnknown
  else match DetectWindowsVideoControllers with
  | Ok controllers => (SelectPrimaryController controllers).2
  | Err _ => VendorUnknown
  end.

(** The loop over the cards of [DetectHostResources]: the largest one. *)
Definition larger_gpu (resources : HostResources) (gpu : GPU) : HostResources :=
  if hr_VRAMTotalMB resources <? gpu_VRAMTotalMB gpu
  then resources <| hr_VRAMTotalMB := gpu_VRAMTotalMB gpu |> <| hr_GPUName := gpu_Name gpu |>
  else resources.

Definition apple_name (gpu : AppleGPU) : string :=
  trim_space (firstNonEmptyString [ag_gpu_Model gpu; ag_gpu_Name gpu]).

(** The part of [DetectHostResources] about the graphics card. *)
Definition detect_gpu (resources : HostResources) : HostResources :=
  match nvidia_gpus with
  | Some gpus => foldl larger_gpu (resources <| hr_GPUVendor := VendorNvidia |>) gpus
  | None =>
      if String.eqb (ho_GOOS host) "darwin" then
        match apple_gpu with
        | Some gpu =>
            let resources := resources <| hr_GPUVendor := VendorApple |> <| hr_GPUName := apple_name gpu |> in
            match DetectAppleUnifiedMemoryBytes with
            | Ok totalBytes => resources <| hr_VRAMTotalMB := AppleGPUMemoryBudgetMB totalBytes |>
            | Err _ => resources
            end
        | None => resources
        end
      else if String.eqb (ho_GOOS host) "windows" then
        match DetectWindowsVideoControllers with
        | Ok controllers =>
            let '(primary, vendor) := SelectPrimaryController controllers in
            let resources := resources <| hr_GPUVendor := vendor |> <| hr_GPUName := vc_Name primary |> in
            match AdapterVRAMBytes primary with
            | (ram, true) => resources <| hr_VRAMTotalMB := Z.quot (Z.quot ram 1024) 1024 |>
            | (_, false) => resources
            end
        | Err _ => resources
        end
      else resources
  end.

Definition DetectHostResources (diskPath : string) : result HostResources :=
  let diskPath := if String.eqb diskPath "" then "." else diskPath in
  let resources := detect_gpu {| hr_GPUVendor := VendorUnknown; hr_GPUName := ""; hr_VRAMTotalMB := VRAMUnknown;
                                 hr_RAMTotalMB := 0; hr_DiskFreeMB := 0 |} in
  ram ← wrap_err "read system memory" (ho_totalMemory host);
  let resources := resources <| hr_RAMTotalMB := ram / 1024 / 1024 |> in
  disk ← wrap_err ("read free disk at " +:+ diskPath) (ho_freeDisk host diskPath);
  Ok (resources <| hr_DiskFreeMB := disk / 1024 / 1024 |>).

(** ** The checks of the doctor *)

Definition check (name status message remediation : string) : CheckResult :=
  {| cr_Name := name; cr_Status := status; cr_Message := message; cr_Remediation := remediation; cr_Details := ∅ |}.

Definition checkPlatform : CheckResult :=
  let os := ho_GOOS host in
  let arch := ho_GOARCH host in
  if String.eqb os "windows" && String.eqb arch "amd64"
  then check "platform" StatusPass "Windows x64 host platform detected." ""
  else if String.eqb os "darwin" && String.eqb arch "arm64"
  then check "platform" StatusPass "Apple Silicon host platform detected; llama.cpp will use the Metal backend." ""
  else check "platform" StatusUnsupported (os +:+ "/" +:+ arch +:+ " is not a supported host platform for v0.1.")
         "Run the host node on Windows 11 x64 with an NVIDIA or AMD GPU, or on an Apple Silicon Mac.".

Definition float_div1024 (z : Z) : float64 := fdiv (float_of_Z z) (float_of_Z 1024).

Definition checkApple : option (list GPU * list CheckResult) :=
  primary ← apple_gpu;
  let name := apple_name primary in
  let memory := DetectAppleUnifiedMemoryBytes in
  let totalBytes := match memory with Ok b => b | Err _ => 0 end in
  let budgetMB := match memory with Ok b => AppleGPUMemoryBudgetMB b | Err _ => VRAMUnknown end in
  let gpuCheck := check "gpu" StatusPass (name +:+ " detected; llama.cpp will use the Metal backend.") ""
                    <| cr_Details := {[ "vendor" := DText VendorApple; "backend" := DText "metal";
                                        "cores" := DText (trim_space (ag_gpu_Cores primary)) ]} |> in
  if budgetMB <=? 0 then
    Some ([named_gpu name VRAMUnknown ""],
          [gpuCheck;
           check "vram" StatusWarn "Unified memory could not be read, so the GPU working-set budget is unknown."
             "Confirm `sysctl -n hw.memsize` works on this host." <| cr_Details := {[ "vendor" := DText VendorApple ]} |>])
  else
    let vram := check "vram" StatusPass
      ("Apple Silicon shares " +:+ fixed1 (bytesToGiB (u64 totalBytes)) +:+ " GB unified memory; "
       +:+ fixed1 (float_div1024 budgetMB) +:+ " GB (" +:+ itoa AppleGPUMemoryBudgetPercent +:+ "%) is budgeted for the GPU.") ""
      <| cr_Details := {[ "vendor" := DText VendorApple; "unified_memory_gb" := DNumber (bytesToGiB (u64 totalBytes));
                          "gpu_budget_gb" := DNumber (float_div1024 budgetMB);
                          "budget_percent" := DInt AppleGPUMemoryBudgetPercent;
                          "minimum_gb" := DNumber (bytesToGiB MinimumVRAMBytes) ]} |> in
    let vram := if u64 (u64 budgetMB * 1024 * 1024) <? MinimumVRAMBytes
                then vram <| cr_Status := StatusFail |>
                          <| cr_Remediation := "Use an Apple Silicon Mac with more unified memory; the GPU budget is below the 8 GB floor." |>
                else vram in
    Some ([named_gpu name budgetMB ""], [gpuCheck; vram]).

Definition checkAMD : option (list GPU * list CheckResult) :=
  match DetectWindowsVideoControllers with
  | Err _ => None
  | Ok controllers =>
      let '(primary, vendor) := SelectPrimaryController controllers in
      if negb (String.eqb vendor VendorAMD) then None
      else
        let gpuCheck := check "gpu" StatusPass
          ("AMD GPU detected (" +:+ trim_space (vc_Name primary) +:+ "); llama.cpp will use the Vulkan backend.") ""
          <| cr_Details := {[ "vendor" := DText VendorAMD; "backend" := DText "vulkan";
                              "driver_version" := DText (trim_space (vc_DriverVersion primary)) ]} |> in
        let vram := check "vram" StatusWarn
          "AMD VRAM could not be established reliably: Windows reports AdapterRAM as a 32-bit value, so cards above 4 GB are truncated."
          "Confirm the card has at least 8 GB VRAM. Reported capacity is verified from the Vulkan device report when the runtime starts."
          <| cr_Details := {[ "vendor" := DText VendorAMD; "minimum_gb" := DNumber (bytesToGiB MinimumVRAMBytes);
                              "source" := DText "win32_videocontroller" ]} |> in
        let '(vramBytes, known) := AdapterVRAMBytes primary in
        let reported := fixed1 (bytesToGiB (u64 vramBytes)) in
        let vram :=
          if negb known then vram
          else
            let vram := vram <| cr_Details ::= <["reported_gb" := DNumber (bytesToGiB (u64 vramBytes))]> |> in
            if MinimumVRAMBytes <=? u64 vramBytes
            then vram <| cr_Status := StatusPass |> <| cr_Message := "AMD GPU reports " +:+ reported +:+ " GB VRAM." |>
                      <| cr_Remediation := "" |>
            else vram <| cr_Message := "AMD GPU reports " +:+ reported +:+
              " GB VRAM, below the 8 GB floor, but AdapterRAM truncates above 4 GB so this may understate the card." |> in
        Some (GPUsFromControllers controllers, [gpuCheck; vram])
  end.

(** The largest memory of the cards, in bytes: [uint64(gpu.VRAMTotalMB)*1024*1024]. *)
Definition max_vram (gpus : list GPU) : Z :=
  foldl (λ m g, Z.max m (u64 (u64 (gpu_VRAMTotalMB g) * 1024 * 1024))) 0 gpus.

Definition checkNvidia : list GPU * list CheckResult :=
  if negb (String.eqb (ho_GOOS host) "windows") then
    ([], [check "nvidia" StatusUnsupported "NVIDIA host detection is only required on the Windows target platform."
            "Use the fake runtime or macOS CPU demo path locally; run this check on Windows 11 x64 before hosting.";
          check "vram" StatusUnsupported "VRAM eligibility is evaluated through nvidia-smi on Windows."
            "Run on a Windows NVIDIA host with at least 8 GB VRAM."])
  else match DetectNvidiaGPUs with
  | Err e =>
      ([], [check "nvidia" StatusFail (error_string e) "Install or repair the NVIDIA driver and ensure nvidia-smi is on PATH.";
            check "vram" StatusFail "No NVIDIA GPU data was available." "Run nvidia-smi successfully before starting the host node."])
  | Ok gpus =>
      let maxVRAM := max_vram gpus in
      let vram := check "vram" StatusPass ("Largest NVIDIA GPU has " +:+ fixed1 (bytesToGiB maxVRAM) +:+ " GB VRAM.") ""
        <| cr_Details := {[ "minimum_gb" := DNumber (bytesToGiB MinimumVRAMBytes);
                            "largest_gb" := DNumber (bytesToGiB maxVRAM) ]} |> in
      let vram := if maxVRAM <? MinimumVRAMBytes
                  then vram <| cr_Status := StatusFail |> <| cr_Remediation := "Use an NVIDIA GPU with at least 8 GB VRAM." |>
                  else vram in
      (gpus, [check "nvidia" StatusPass
                (itoa (Z.of_nat (length gpus)) +:+ " NVIDIA GPU(s) detected with nvidia-smi CSV query.") ""; vram])
  end.

Definition checkGPU : list GPU * string * list CheckResult :=
  let '(gpus, checks) := checkNvidia in
  match gpus with
  | _ :: _ => (gpus, VendorNvidia, checks)
  | [] =>
      if String.eqb (ho_GOOS host) "darwin" then
        match checkApple with
        | Some (appleGPUs, appleChecks) => (appleGPUs, VendorApple, appleChecks)
        | None => (gpus, VendorUnknown, checks)
        end
      else if negb (String.eqb (ho_GOOS host) "windows") then (gpus, VendorUnknown, checks)
      else match checkAMD with
      | Some (amdGPUs, amdChecks) => (amdGPUs, VendorAMD, amdChecks)
      | None => (gpus, VendorUnknown, checks)
      end
  end.

(** The common part of [checkRAM] and [checkDisk]. *)
Definition floor_check (name : string) (measured : result Z) (floor : Z) (message : Z → string)
    (unread below : string) (details : Z → gmap string Detail) : CheckResult :=
  match measured with
  | Err e => check name StatusWarn (error_string e) unread
  | Ok n =>
      let r := check name StatusPass (message n) "" <| cr_Details := details n |> in
      if n <? floor then r <| cr_Status := StatusFail |> <| cr_Remediation := below |> else r
  end.

Definition checkRAM : CheckResult :=
  floor_check "ram" (ho_totalMemory host) MinimumRAMBytes
    (λ total, "System RAM is " +:+ fixed1 (bytesToGiB total) +:+ " GB.")
    "Confirm the host has at least 16 GB RAM."
    "Use a host with at least 16 GB installed RAM (the check allows for OS-reserved memory)."
    (λ total, {[ "minimum_gb" := DNumber (bytesToGiB MinimumRAMBytes); "total_gb" := DNumber (bytesToGiB total) ]}).

Definition checkDisk (path : string) : CheckResult :=
  floor_check "disk" (ho_freeDisk host path) MinimumDiskBytes
    (λ free, "Free disk at " +:+ path +:+ " is " +:+ fixed1 (bytesToGiB free) +:+ " GB.")
    "Confirm the model cache path has at least 40 GB free."
    "Free at least 40 GB on the configured model cache volume."
    (λ free, {[ "path" := DText path; "minimum_gb" := DNumber (bytesToGiB MinimumDiskBytes);
                "free_gb" := DNumber (bytesToGiB free) ]}).

Definition checkHTTPS (rawurl : string) : CheckResult :=
  if String.eqb rawurl ""
  then check "https" StatusSkipped "No HTTPS endpoint configured for reachability check."
         "Set THIRDSHIFT_DOCTOR_HTTPS_URL or pass --https-url."
  else match ho_https host rawurl with
  | BadURL e => check "https" StatusFail e "Use a valid HTTPS URL."
  | Unreachable e => check "https" StatusFail e "Allow outbound HTTPS traffic."
  | Reached status =>
      if (200 <=? status) && (status <? 500)
      then check "https" StatusPass ("Reached " +:+ rawurl +:+ " with HTTP " +:+ itoa status +:+ ".") ""
      else check "https" StatusFail ("HTTP status " +:+ itoa status +:+ " from " +:+ rawurl +:+ ".") "Verify outbound HTTPS access."
  end.

Definition crlf : string := of_bytes [char_of 13; char_of 10].

(** The upgrade request, with the 16 random bytes of its key. *)
Definition upgrade_request (u : WSSURL) (keyBytes : list Z) : string :=
  let path := if String.eqb (wu_EscapedPath u) "" then "/" else wu_EscapedPath u in
  let path := if negb (String.eqb (wu_RawQuery u) "") then path +:+ "?" +:+ wu_RawQuery u else path in
  "GET " +:+ path +:+ " HTTP/1.1" +:+ crlf +:+ "Host: " +:+ wu_Host u +:+ crlf +:+ "Upgrade: websocket" +:+ crlf
    +:+ "Connection: Upgrade" +:+ crlf +:+ "Sec-WebSocket-Key: " +:+ EncodeToString Std keyBytes +:+ crlf
    +:+ "Sec-WebSocket-Version: 13" +:+ crlf +:+ crlf.

Definition checkWSS (rawurl : string) : CheckResult :=
  if String.eqb rawurl ""
  then check "wss" StatusSkipped "No WSS endpoint configured for reachability check."
         "Set THIRDSHIFT_DOCTOR_WSS_URL or pass --wss-url."
  else match parse_url rawurl with
  | None => check "wss" StatusFail "WSS URL is invalid." "Use a wss:// URL."
  | Some u =>
      if negb (String.eqb (wu_Scheme u) "wss") || String.eqb (wu_Host u) ""
      then check "wss" StatusFail "WSS URL is invalid." "Use a wss:// URL."
      else
        let hostPort := if negb (contains (wu_Host u) ":") then wu_Host u +:+ ":443" else wu_Host u in
        match ho_dial host hostPort with
        | Some e => check "wss" StatusFail e "Allow outbound TLS traffic to the coordinator WebSocket endpoint."
        | None =>
            match ho_random host with
            | Err e => check "wss" StatusFail (error_string e) ""
            | Ok keyBytes =>
                match ho_exchange host hostPort (upgrade_request u keyBytes) with
                | Err e => check "wss" StatusFail (error_string e) "Allow outbound WSS traffic."
                | Ok line =>
                    if contains line " 101 "
                    then check "wss" StatusPass ("Reached " +:+ rawurl +:+ " and received WebSocket upgrade.") ""
                    else check "wss" StatusFail (trim_space line) "Verify the endpoint supports WebSocket upgrades."
                end
            end
        end
  end.

(** The loop of [overallStatus]. *)
Fixpoint overall_from (unsupported warn : bool) (checks : list CheckResult) : string :=
  match checks with
  | [] => if unsupported then StatusUnsupported else if warn then StatusWarn else StatusPass
  | c :: rest =>
      if String.eqb (cr_Status c) StatusFail then StatusFail
      else if String.eqb (cr_Status c) StatusUnsupported then overall_from true warn rest
      else if String.eqb (cr_Status c) StatusWarn || String.eqb (cr_Status c) StatusSkipped then overall_from unsupported true rest
      else overall_from unsupported warn rest
  end.

Definition overallStatus (checks : list CheckResult) : string := overall_from false false checks.

Definition RunDoctor (now : Z) (diskPath httpsURL wssURL : string) : DoctorReport :=
  let diskPath := if String.eqb diskPath "" then "." else diskPath in
  let '(gpus, vendor, gpuChecks) := checkGPU in
  let checks := [checkPlatform] ++ gpuChecks ++ [checkRAM; checkDisk diskPath; checkHTTPS httpsURL; checkWSS wssURL] in
  {| dr_GeneratedAt := now; dr_OS := ho_GOOS host; dr_Arch := ho_GOARCH host; dr_Overall := overallStatus checks;
     dr_GPUVendor := vendor; dr_Checks := checks; dr_GPUs := gpus |}.

End detection.

(** ** The overall status *)

Definition severity (status : string) : Z :=
  if String.eqb status StatusFail then 3
  else if String.eqb status StatusUnsupported then 2
  else if String.eqb status StatusWarn || String.eqb status StatusSkipped then 1 else 0.

Definition worst (checks : list CheckResult) : Z := foldr (λ c m, Z.max (severity (cr_Status c)) m) 0 checks.

Lemma severity_range s : 0 ≤ severity s ≤ 3.
Proof. unfold severity. repeat case_match; lia. Qed.
Lemma worst_range l : 0 ≤ worst l ≤ 3.
Proof. induction l as [|c l IH]; simpl; [lia|]. pose proof (severity_range (cr_Status c)). lia. Qed.

Lemma overall_from_severity u w l :
  severity (overall_from u w l) = Z.max (worst l) (if u : bool then 2 else if w : bool then 1 else 0).
Proof.
  revert u w. induction l as [|c l IH]; intros u w; [by destruct u, w|].
  cbn [overall_from worst foldr]. fold (worst l). pose proof (worst_range l).
  unfold severity at 2.
  destruct (String.eqb (cr_Status c) StatusFail); [change (severity StatusFail) with 3; destruct u, w; lia|].
  destruct (String.eqb (cr_Status c) StatusUnsupported); [rewrite IH; destruct u, w; lia|].
  destruct (_ || _); rewrite IH; destruct u, w; lia.
Qed.

Lemma overall_severity l : severity (overallStatus l) = worst l.
Proof. unfold overallStatus. rewrite overall_from_severity. pose proof (worst_range l). lia. Qed.

Lemma overall_from_status u w l : overall_from u w l ∈ [StatusPass; StatusWarn; StatusUnsupported; StatusFail].
Proof. revert u w. induction l as [|c l IH]; intros u w; simpl; repeat case_match; try apply IH; set_solver. Qed.

Lemma overall_pass_iff l : overallStatus l = StatusPass ↔ Forall (λ c, severity (cr_Status c) = 0) l.
Proof.
  assert (H : overallStatus l = StatusPass ↔ worst l = 0).
  { rewrite <-overall_severity. split; [by intros ->|]. pose proof (overall_from_status false false l) as Hin.
    unfold overallStatus. rewrite !elem_of_cons, elem_of_nil in Hin. by destruct Hin as [E|[E|[E|[E|[]]]]]; rewrite E. }
  rewrite H. clear H. induction l as [|c l IH]; [by split; [constructor|]|].
  rewrite Forall_cons, <-IH. cbn [worst foldr]. fold (worst l).
  pose proof (worst_range l). pose proof (severity_range (cr_Status c)). lia.
Qed.

Lemma worst_perm l1 l2 : l1 ≡ₚ l2 → worst l1 = worst l2.
Proof. unfold worst. induction 1; simpl; [done|congruence|lia|congruence]. Qed.

(** The report's overall status is the worst of its checks', a failure before an
    unsupported platform before a warning, so the order of the checks does not matter. *)
Theorem overall_is_worst checks :
  overallStatus checks ∈ [StatusPass; StatusWarn; StatusUnsupported; StatusFail] ∧
  (∀ c, c ∈ checks → severity (cr_Status c) ≤ severity (overallStatus checks)) ∧
  (severity (overallStatus checks) ≠ 0 → ∃ c, c ∈ checks ∧ severity (cr_Status c) = severity (overallStatus checks)) ∧
  ∀ checks', checks' ≡ₚ checks → overallStatus checks' = overallStatus checks.
Proof.
  assert (Heq : ∀ s1 s2, s1 ∈ [StatusPass; StatusWarn; StatusUnsupported; StatusFail] →
    s2 ∈ [StatusPass; StatusWarn; StatusUnsupported; StatusFail] → severity s1 = severity s2 → s1 = s2).
  { intros s1 s2 H1 H2. rewrite !elem_of_cons, !elem_of_nil in H1, H2.
    by destruct H1 as [->|[->|[->|[->|[]]]]], H2 as [->|[->|[->|[->|[]]]]]. }
  split_and!; [apply overall_from_status| | |].
  - intros c Hc. rewrite overall_severity. unfold worst. induction Hc as [c l|c d l _ IH]; simpl; lia.
  - rewrite overall_severity. clear. induction checks as [|c l IH]; [done|].
    cbn [worst foldr]. fold (worst l). intros Hne.
    destruct (Z.max_spec (severity (cr_Status c)) (worst l)) as [[? E]|[? E]]; rewrite E in Hne |- *.
    + destruct (IH Hne) as (d & Hd & E'). exists d. split; [by right|done].
    + exists c. split; [by left|done].
  - intros l' Hl'. apply Heq; [apply overall_from_status..|]. by rewrite !overall_severity, (worst_perm _ _ Hl').
Qed.

(** ** Memory of a card *)

Lemma AdapterVRAMBytes_known c n : AdapterVRAMBytes c = (n, true) → 0 < n < 4032 * 1024 * 1024.
Proof.
  unfold AdapterVRAMBytes. destruct (vc_AdapterRAM c) as [ram|]; [|done].
  destruct (Z.leb_spec ram 0); [done|]. destruct (Z.leb_spec (4 * 1024 * 1024 * 1024 - 64 * 1024 * 1024) ram); [done|].
  intros [= <-]. lia.
Qed.

(** The share of unified memory: positive sizes give at most 65 percent, without overflow. *)
Lemma AppleGPUMemoryBudgetMB_bounds n :
  0 < n < 2 ^ 63 →
  0 ≤ AppleGPUMemoryBudgetMB n ∧ AppleGPUMemoryBudgetMB n * 1024 * 1024 * 100 ≤ n * 65 ∧
  n * 65 < (AppleGPUMemoryBudgetMB n + 2) * 1024 * 1024 * 100.
Proof.
  intros [Hn Hb]. unfold AppleGPUMemoryBudgetMB, AppleGPUMemoryBudgetPercent.
  rewrite (proj2 (Z.leb_gt n 0)) by lia. cbv zeta. rewrite (Z.quot_div_nonneg n 1024) by lia.
  assert (0 ≤ n / 1024) by (apply Z.div_pos; lia). rewrite (Z.quot_div_nonneg (n / 1024) 1024) by lia.
  rewrite Z.div_div by lia. set (q := n / (1024 * 1024)).
  assert (Hq : 1024 * 1024 * q ≤ n < 1024 * 1024 * (q + 1)).
  { unfold q. pose proof (Z.div_mod n (1024 * 1024)). pose proof (Z.mod_pos_bound n (1024 * 1024)). lia. }
  rewrite wrap64_id by (unfold in_int64; lia). rewrite Z.quot_div_nonneg by lia.
  pose proof (Z.div_mod (q * 65) 100). pose proof (Z.mod_pos_bound (q * 65) 100). lia.
Qed.

Section theory.
Context `{Prs : !Parsers} (host : Host).

(** ** Vendors and resources *)

Lemma foldl_larger_vendor r gpus : hr_GPUVendor (foldl larger_gpu r gpus) = hr_GPUVendor r.
Proof. revert r. induction gpus as [|g l IH]; intros r; simpl; [done|]. rewrite IH. unfold larger_gpu. by case_match. Qed.

(** The largest memory any card reports. *)
Lemma foldl_larger_vram r gpus :
  hr_VRAMTotalMB (foldl larger_gpu r gpus) = foldl (λ m g, Z.max m (gpu_VRAMTotalMB g)) (hr_VRAMTotalMB r) gpus.
Proof.
  revert r. induction gpus as [|g l IH]; intros r; simpl; [done|]. rewrite IH. f_equal. unfold larger_gpu.
  destruct (Z.ltb_spec (hr_VRAMTotalMB r) (gpu_VRAMTotalMB g)); simpl; lia.
Qed.

Lemma DetectHostResources_gpu disk r :
  DetectHostResources host disk = Ok r →
  let g := detect_gpu host {| hr_GPUVendor := VendorUnknown; hr_GPUName := ""; hr_VRAMTotalMB := VRAMUnknown;
                              hr_RAMTotalMB := 0; hr_DiskFreeMB := 0 |} in
  hr_GPUVendor r = hr_GPUVendor g ∧ hr_GPUName r = hr_GPUName g ∧ hr_VRAMTotalMB r = hr_VRAMTotalMB g.
Proof.
  unfold DetectHostResources. destruct (ho_totalMemory host) as [ram|]; [|done].
  cbn [wrap_err mbind result_bind]. destruct (ho_freeDisk host _) as [d|]; [|done]. cbn [wrap_err mbind result_bind].
  by intros [= <-].
Qed.

(** The vendor the runtime is chosen for is the vendor the resources report, so the
    build that is installed and the model that is chosen are for the same card. *)
Theorem vendor_agrees disk r :
  DetectHostResources host disk = Ok r → hr_GPUVendor r = DetectGPUVendor host.
Proof.
  intros (-> & _)%DetectHostResources_gpu. unfold detect_gpu, DetectGPUVendor.
  destruct (nvidia_gpus host) as [gpus|]; [by rewrite foldl_larger_vendor|].
  destruct (String.eqb (ho_GOOS host) "darwin").
  { by destruct (apple_gpu host); [destruct (DetectAppleUnifiedMemoryBytes host)|]. }
  destruct (String.eqb (ho_GOOS host) "windows"); [|done]. simpl.
  destruct (DetectWindowsVideoControllers host) as [cs|]; [|done].
  destruct (SelectPrimaryController cs) as [p v]. by destruct (AdapterVRAMBytes p) as [? []].
Qed.

Lemma windows_vram disk r :
  ho_GOOS host = "windows" → nvidia_gpus host = None → DetectHostResources host disk = Ok r →
  hr_VRAMTotalMB r < 4032.
Proof.
  intros Hos Hnv (_ & _ & ->)%DetectHostResources_gpu. unfold detect_gpu. rewrite Hnv, Hos. simpl.
  destruct (DetectWindowsVideoControllers host) as [cs|]; [|done].
  destruct (SelectPrimaryController cs) as [p v]. destruct (AdapterVRAMBytes p) as [n []] eqn:E; [|done].
  apply AdapterVRAMBytes_known in E. simpl.
  assert (0 ≤ n / 1024) by (apply Z.div_pos; lia).
  rewrite (Z.quot_div_nonneg n 1024), (Z.quot_div_nonneg (n / 1024) 1024), Z.div_div by lia.
  apply Z.div_lt_upper_bound; lia.
Qed.

(** What [runStart] hands to the choice of a model. *)
Definition capacity_of (r : HostResources) : HostCapacity :=
  {| hc_VRAMTotalMB := hr_VRAMTotalMB r; hc_RAMTotalMB := hr_RAMTotalMB r; hc_DiskFreeMB := hr_DiskFreeMB r |}.

(** On a Windows host where [nvidia-smi] reports no card, the node never runs a model that
    needs more than 8192 MB of video memory, whatever the card has and also when the model is
    asked for by name: Windows reports the memory of larger cards as a value the node takes
    for unknown, and an unknown memory counts as 8192 MB. *)
Theorem windows_selection_bound disk r requested manifests sel :
  ho_GOOS host = "windows" → nvidia_gpus host = None → DetectHostResources host disk = Ok r →
  ResolveModel requested manifests (capacity_of r) = Ok sel → vram_of (sl_Manifest sel) ≤ 8192.
Proof.
  intros Hos Hnv Hr HF%ResolveModel_fits. pose proof (windows_vram _ _ Hos Hnv Hr) as Hv.
  unfold Fits, vramKnown, UnmeasuredVRAMFloorMB in HF. cbn [hc_VRAMTotalMB capacity_of] in HF.
  destruct (Z.ltb_spec 0 (hr_VRAMTotalMB r)); case_match; simpl in *; lia.
Qed.

(** ** What a passing report means *)

Definition passes (c : CheckResult) : Prop := severity (cr_Status c) = 0.

Lemma DetectNvidiaGPUs_nonempty gpus : DetectNvidiaGPUs host = Ok gpus → gpus ≠ [].
Proof.
  unfold DetectNvidiaGPUs, ParseNvidiaSMICSV. destruct (ho_command host _ _); [|done]. cbn [wrap_err mbind result_bind].
  destruct (read_csv _) as [rows|]; [|done]. cbn [wrap_err mbind result_bind].
  destruct (parse_gpus 0 rows) as [[]|]; [done| |done]. cbn [mbind result_bind]. by intros [= <-].
Qed.

Lemma max_vram_reaches n gpus :
  0 < n → n ≤ max_vram gpus ↔ ∃ g, g ∈ gpus ∧ n ≤ u64 (u64 (gpu_VRAMTotalMB g) * 1024 * 1024).
Proof.
  intros Hn. unfold max_vram.
  assert (H : ∀ m, n ≤ foldl (λ m g, Z.max m (u64 (u64 (gpu_VRAMTotalMB g) * 1024 * 1024))) m gpus ↔
    n ≤ m ∨ ∃ g, g ∈ gpus ∧ n ≤ u64 (u64 (gpu_VRAMTotalMB g) * 1024 * 1024)).
  { induction gpus as [|g l IH]; intros m; simpl.
    { split; [by left|]. intros [?|(? & Hin & _)]; [done|by apply not_elem_of_nil in Hin]. }
    rewrite IH. setoid_rewrite elem_of_cons. rewrite Z.max_le_iff. naive_solver. }
  rewrite H. split; [|by right]. intros [?|?]; [lia|done].
Qed.

Lemma platform_passes :
  passes (checkPlatform host) ↔
  ho_GOOS host = "windows" ∧ ho_GOARCH host = "amd64" ∨ ho_GOOS host = "darwin" ∧ ho_GOARCH host = "arm64".
Proof.
  unfold checkPlatform, passes.
  destruct (String.eqb_spec (ho_GOOS host) "windows") as [E1|E1], (String.eqb_spec (ho_GOARCH host) "amd64") as [E2|E2],
    (String.eqb_spec (ho_GOOS host) "darwin") as [E3|E3], (String.eqb_spec (ho_GOARCH host) "arm64") as [E4|E4];
    vm_compute; naive_solver.
Qed.

Lemma floor_passes name measured floor message unread below details :
  passes (floor_check name measured floor message unread below details) ↔ ∃ n, measured = Ok n ∧ floor ≤ n.
Proof.
  unfold floor_check, passes. destruct measured as [n|e]; [|split; [done|by intros (? & ? & _)]].
  destruct (Z.ltb_spec n floor); simpl.
  - split; [done|]. intros (? & [= <-] & ?). lia.
  - split; [|done]. intros _. by exists n.
Qed.

Lemma https_passes url :
  passes (checkHTTPS host url) ↔ url ≠ "" ∧ ∃ status, ho_https host url = Reached status ∧ 200 ≤ status < 500.
Proof.
  unfold checkHTTPS, passes. destruct (String.eqb_spec url ""); [by split; [|intros [? _]]|].
  destruct (ho_https host url) as [e|e|status]; [by split; [|intros (_ & ? & ? & _)]..|].
  destruct (Z.leb_spec 200 status), (Z.ltb_spec status 500); simpl; (split; [try done|]);
    try (intros (_ & ? & [= <-] & ?); lia); intros _; split; [done|by exists status].
Qed.

(** The endpoint answered the upgrade request: 101, switching protocols. *)
Definition upgraded (url : string) : Prop :=
  ∃ u keyBytes line, parse_url url = Some u ∧ wu_Scheme u = "wss" ∧ wu_Host u ≠ "" ∧
    let hostPort := if negb (contains (wu_Host u) ":") then wu_Host u +:+ ":443" else wu_Host u in
    ho_dial host hostPort = None ∧ ho_random host = Ok keyBytes ∧
    ho_exchange host hostPort (upgrade_request u keyBytes) = Ok line ∧ contains line " 101 " = true.

Lemma wss_passes url : passes (checkWSS host url) ↔ url ≠ "" ∧ upgraded url.
Proof.
  unfold checkWSS, passes, upgraded. destruct (String.eqb_spec url ""); [by split; [|intros [? _]]|].
  destruct (parse_url url) as [u|]; [|by split; [|intros (_ & ? & ? & ? & ? & _)]].
  destruct (String.eqb_spec (wu_Scheme u) "wss") as [Es|Es]; simpl orb; cycle 1.
  { split; [done|]. intros (_ & ? & ? & ? & [= <-] & ? & _). done. }
  destruct (String.eqb_spec (wu_Host u) "") as [Eh|Eh]; cbv zeta iota.
  { split; [done|]. intros (_ & ? & ? & ? & [= <-] & _ & ? & _). done. }
  set (hp := if negb (contains (wu_Host u) ":") then _ else _).
  destruct (ho_dial host hp) as [e|] eqn:Ed.
  { split; [done|]. intros (_ & ? & ? & ? & [= <-] & _ & _ & Hd & _). fold hp in Hd. by rewrite Hd in Ed. }
  destruct (ho_random host) as [k|e] eqn:Er; cycle 1.
  { split; [done|]. intros (_ & ? & ? & ? & [= <-] & _ & _ & _ & Hr & _). done. }
  destruct (ho_exchange host hp (upgrade_request u k)) as [line|e] eqn:Ee; cycle 1.
  { split; [done|]. intros (_ & ? & ? & ? & [= <-] & _ & _ & _ & [= <-] & Hx & _). fold hp in Hx. by rewrite Hx in Ee. }
  destruct (contains line " 101 ") eqn:Ec.
  - split; [|done]. intros _. split; [done|]. by exists u, k, line.
  - split; [done|]. intros (_ & ? & ? & ? & [= <-] & _ & _ & _ & [= <-] & Hx & Hl). fold hp in Hx. congruence.
Qed.

(** The graphics card a passing report needs. *)
Definition gpu_suffices : Prop :=
  ho_GOOS host = "windows" ∧
    (∃ gpus g, DetectNvidiaGPUs host = Ok gpus ∧ g ∈ gpus ∧ MinimumVRAMBytes ≤ u64 (u64 (gpu_VRAMTotalMB g) * 1024 * 1024)) ∨
  ho_GOOS host = "darwin" ∧
    (∃ gpu n, apple_gpu host = Some gpu ∧ DetectAppleUnifiedMemoryBytes host = Ok n ∧
              MinimumVRAMBytes ≤ AppleGPUMemoryBudgetMB n * 1024 * 1024).

Lemma AMD_never_passes gpus checks : checkAMD host = Some (gpus, checks) → ¬ Forall passes checks.
Proof.
  unfold checkAMD. destruct (DetectWindowsVideoControllers host) as [cs|]; [|done].
  destruct (SelectPrimaryController cs) as [p v]. case_match; [done|]. cbv zeta.
  destruct (AdapterVRAMBytes p) as [n []] eqn:E; simpl negb; cbn iota.
  - apply AdapterVRAMBytes_known in E. unfold u64. rewrite Z.mod_small by lia.
    assert (Hlt : n < MinimumVRAMBytes) by (unfold MinimumVRAMBytes, GiB; lia).
    rewrite (proj2 (Z.leb_gt _ _) Hlt). intros [= _ <-] Hall. apply Forall_cons in Hall as [_ Hall].
    by apply Forall_cons in Hall as [? _].
  - intros [= _ <-] Hall. apply Forall_cons in Hall as [_ Hall]. by apply Forall_cons in Hall as [? _].
Qed.

Lemma memsize_range n : DetectAppleUnifiedMemoryBytes host = Ok n → 0 < n < 2 ^ 63.
Proof.
  unfold DetectAppleUnifiedMemoryBytes, ParseMemsize. destruct (ho_command host _ _); [|done].
  cbn [wrap_err mbind result_bind]. case_match; [done|].
  destruct (atoi _) as [k|] eqn:E; [|done]. destruct (Z.leb_spec k 0); [done|]. intros [= <-].
  apply atoi_range in E. unfold int64 in E. lia.
Qed.

Lemma apple_passes gpus checks :
  checkApple host = Some (gpus, checks) →
  Forall passes checks ↔ ∃ n, DetectAppleUnifiedMemoryBytes host = Ok n ∧
                              MinimumVRAMBytes ≤ AppleGPUMemoryBudgetMB n * 1024 * 1024.
Proof.
  unfold checkApple. destruct (apple_gpu host) as [gpu|]; [|done]. cbn [mbind option_bind].
  destruct (DetectAppleUnifiedMemoryBytes host) as [n|e] eqn:En; cbv zeta; cycle 1.
  { intros [= _ <-]. split; [|by intros (? & ? & _)]. intros [_ [Hw _]%Forall_cons]%Forall_cons. done. }
  pose proof (AppleGPUMemoryBudgetMB_bounds n (memsize_range n En)) as (Hb & Hu & _).
  set (b := AppleGPUMemoryBudgetMB n) in *. destruct (Z.leb_spec b 0) as [H0|H0].
  { intros [= _ <-]. split; [intros [_ [Hw _]%Forall_cons]%Forall_cons; done|].
    intros (? & [= <-] & Hm). fold b in Hm. unfold MinimumVRAMBytes, GiB in Hm. lia. }
  pose proof (memsize_range n En).
  assert (Hu64 : u64 (u64 b * 1024 * 1024) = b * 1024 * 1024) by (unfold u64; rewrite !Z.mod_small; rewrite ?Z.mod_small; lia).
  rewrite Hu64. intros [= _ <-]. destruct (Z.ltb_spec (b * 1024 * 1024) MinimumVRAMBytes) as [Hl|Hl].
  - split; [intros [_ [Hw _]%Forall_cons]%Forall_cons; done|]. intros (? & [= <-] & Hm). fold b in Hm. lia.
  - split; [intros _; by exists n|]. intros _. by repeat constructor.
Qed.

Lemma nvidia_passes gpus :
  ho_GOOS host = "windows" → DetectNvidiaGPUs host = Ok gpus →
  Forall passes (checkNvidia host).2 ↔
  ∃ g, g ∈ gpus ∧ MinimumVRAMBytes ≤ u64 (u64 (gpu_VRAMTotalMB g) * 1024 * 1024).
Proof.
  intros Hos Hd. unfold checkNvidia. rewrite Hos, Hd. cbv zeta.
  rewrite <-max_vram_reaches by (unfold MinimumVRAMBytes, GiB; lia). cbn [String.eqb negb snd].
  destruct (Z.ltb_spec (max_vram gpus) MinimumVRAMBytes).
  - split; [intros [_ [Hw _]%Forall_cons]%Forall_cons; done|lia].
  - split; [done|]. intros _. by repeat constructor.
Qed.

Lemma gpu_passes :
  passes (checkPlatform host) → Forall passes (checkGPU host).2 ↔ gpu_suffices.
Proof.
  rewrite platform_passes. unfold gpu_suffices, checkGPU. intros [[Hos _]|[Hos _]].
  - rewrite Hos. simpl String.eqb. split; cycle 1.
    { intros [[_ (gpus & g & Hd & Hg)]|[? _]]; [|done].
      assert (Hp : Forall passes (checkNvidia host).2) by (apply (nvidia_passes gpus Hos Hd); by exists g).
      pose proof (DetectNvidiaGPUs_nonempty gpus Hd). destruct (checkNvidia host) as [l c] eqn:E.
      assert (l = gpus) as -> by (unfold checkNvidia in E; rewrite Hos, Hd in E; by simplify_eq/=).
      by destruct gpus. }
    destruct (checkNvidia host) as [l c] eqn:E. destruct (DetectNvidiaGPUs host) as [gpus|e] eqn:Hd.
    + assert (l = gpus) as -> by (unfold checkNvidia in E; rewrite Hos, Hd in E; by simplify_eq/=).
      pose proof (DetectNvidiaGPUs_nonempty gpus Hd). pose proof (nvidia_passes gpus Hos Hd) as Hp. rewrite E in Hp.
      destruct gpus as [|g0 gpus]; [done|]. intros (g & Hg & Hm)%Hp. left. split; [done|]. by exists (g0 :: gpus), g.
    + unfold checkNvidia in E. rewrite Hos, Hd in E. injection E as <- <-.
      destruct (checkAMD host) as [[ag ac]|] eqn:Ea; [intros Hall; by apply AMD_never_passes in Ea|].
      intros [Hw _]%Forall_cons. done.
  - rewrite Hos. unfold checkNvidia. rewrite Hos. cbn [String.eqb negb].
    destruct (checkApple host) as [[ag ac]|] eqn:Ea.
    + change (Forall passes ((ag, VendorApple, ac).2)) with (Forall passes ac). rewrite (apple_passes ag ac Ea).
      assert (∃ gpu, apple_gpu host = Some gpu) as [gpu Hg].
      { unfold checkApple in Ea. destruct (apple_gpu host) as [gpu|]; [by exists gpu|done]. }
      rewrite Hg. naive_solver.
    + split; [intros [Hw _]%Forall_cons; done|]. intros [[? _]|[_ (gpu & n & Hg & _)]]; [done|].
      unfold checkApple in Ea. rewrite Hg in Ea. cbn [mbind option_bind] in Ea. by case_match.
Qed.

(** C39. The doctor's report passes exactly on a host that can serve: a supported platform with
    an NVIDIA card of at least 8 GiB on Windows, or an Apple GPU whose share of memory is at
    least 8 GiB; 15 GiB of memory; 40 GiB of free disk; and both endpoints reached. A Windows
    host with an AMD card alone never passes. *)
Theorem doctor_pass_iff now diskPath httpsURL wssURL :
  dr_Overall (RunDoctor host now diskPath httpsURL wssURL) = StatusPass ↔
  (ho_GOOS host = "windows" ∧ ho_GOARCH host = "amd64" ∨ ho_GOOS host = "darwin" ∧ ho_GOARCH host = "arm64") ∧
  gpu_suffices ∧
  (∃ ram, ho_totalMemory host = Ok ram ∧ MinimumRAMBytes ≤ ram) ∧
  (∃ free, ho_freeDisk host (if String.eqb diskPath "" then "." else diskPath) = Ok free ∧ MinimumDiskBytes ≤ free) ∧
  (httpsURL ≠ "" ∧ ∃ status, ho_https host httpsURL = Reached status ∧ 200 ≤ status < 500) ∧
  (wssURL ≠ "" ∧ upgraded wssURL).
Proof.
  unfold RunDoctor. pose proof gpu_passes as Hg. destruct (checkGPU host) as [[gpus vendor] checks]. cbn [snd] in Hg.
  cbn [dr_Overall]. rewrite overall_pass_iff. change (λ c, severity (cr_Status c) = 0) with passes.
  cbn [app]. rewrite Forall_cons, Forall_app, !Forall_cons, <-platform_passes, <-(https_passes httpsURL), <-(wss_passes wssURL).
  unfold checkRAM, checkDisk. rewrite !floor_passes. split.
  - intros (Hp & Hc & Hr & Hd & Hh & Hw & _). split_and!; [done|by apply Hg|done..].
  - intros (Hp & Hc & Hr & Hd & Hh & Hw). split_and!; [done|by apply Hg|done..|constructor].
Qed.
End theory.

(** ** A host *)

Module HardwareExamples.
#[local] Instance parsers : Parsers := {|
  read_csv := λ s, Ok ((λ line, split_on ","%char line) <$> split_on (char_of 10) s);
  json_controllers := λ _, Err (ErrMsg "not an array");
  json_controller := λ s, Ok {| vc_Name := "Radeon RX 7900 XTX"; vc_AdapterRAM := Some 4293918720;
                               vc_DriverVersion := "31.0"; vc_AdapterCompatibility := "Advanced Micro Devices, Inc." |};
  json_displays := λ _, Ok [{| ag_gpu_Name := "Apple M2"; ag_gpu_Model := ""; ag_gpu_Cores := "10";
                              ag_gpu_Vendor := "sppci_vendor_Apple"; ag_gpu_DeviceType := "" |}];
  parse_float := λ s, float_of_Z <$> atoi s;
  parse_url := λ s, Some {| wu_Scheme := "wss"; wu_Host := "api.example"; wu_EscapedPath := ""; wu_RawQuery := "" |};
  lower_of := λ r, r;
  fixed1 := λ _, "n";
  quoted := λ s, s
|}.

(** A machine whose vendor tools answer as [tools] says. *)
Definition machine (os arch : string) (tools : string → result string) : Host := {|
  ho_GOOS := os; ho_GOARCH := arch; ho_command := λ name _, tools name;
  ho_totalMemory := Ok (32 * GiB); ho_freeDisk := λ _, Ok (500 * GiB); ho_https := λ _, Reached 404;
  ho_dial := λ _, None; ho_random := Ok (replicate 16 7); ho_exchange := λ _ _, Ok "HTTP/1.1 101 Switching Protocols"
|}.

Definition nvidia_pc : Host := machine "windows" "amd64" (λ name,
  if String.eqb name "nvidia-smi" then Ok "NVIDIA GeForce RTX 3090,GPU-1,24576,551.1,45,30,350,2" else Err (ErrMsg "not found")).
Definition radeon_pc : Host := machine "windows" "amd64" (λ name,
  if String.eqb name "powershell" then Ok "{...}" else Err (ErrMsg "not found")).
Definition mac (memory : string) : Host := machine "darwin" "arm64" (λ name,
  if String.eqb name "sysctl" then Ok memory else if String.eqb name "system_profiler" then Ok "{...}"
  else Err (ErrMsg "not found")).

Definition overall (h : Host) : string := dr_Overall (RunDoctor h 0 "" "https://api.example" "wss://api.example").

Example nvidia_passes_doctor : overall nvidia_pc = StatusPass.
Proof. vm_compute. reflexivity. Qed.
Example radeon_warns : overall radeon_pc = StatusWarn.
Proof. vm_compute. reflexivity. Qed.
Example mac_16 : overall (mac "17179869184") = StatusPass.
Proof. vm_compute. reflexivity. Qed.
Example mac_8 : overall (mac "8589934592") = StatusFail.
Proof. vm_compute. reflexivity. Qed.
Lemma vendor_agrees_witness :
  ∃ r, DetectHostResources radeon_pc "" = Ok r ∧ hr_GPUVendor r = DetectGPUVendor radeon_pc ∧ hr_GPUVendor r = VendorAMD.
Proof.
  eexists. split; [vm_compute; reflexivity|]. split; [|vm_compute; reflexivity].
  refine (vendor_agrees radeon_pc "" _ _). vm_compute. reflexivity.
Defined.

(** A Radeon with 24 GB, asked for a model that needs 12 GB by name: refused. *)
Definition large (m : Manifest) : Manifest :=
  m <| mf_ModelID := "large" |> <| mf_Hardware ::= λ h, h <| hw_MinVRAMMB := 12000 |> |>.
Definition sample : Manifest := match llama "0.015" with Ok m => m | Err _ => empty_manifest end.
Definition radeon_resources : HostResources :=
  {| hr_GPUVendor := VendorAMD; hr_GPUName := "Radeon RX 7900 XTX"; hr_VRAMTotalMB := VRAMUnknown;
     hr_RAMTotalMB := 32768; hr_DiskFreeMB := 512000 |}.

Example radeon_refused :
  is_ok (ResolveModel "large" [sample; large sample] (capacity_of radeon_resources)) = false.
Proof. vm_compute. reflexivity. Qed.

Lemma windows_selection_bound_witness :
  ∃ sel, DetectHostResources radeon_pc "" = Ok radeon_resources ∧
    ResolveModel "auto" [sample; large sample] (capacity_of radeon_resources) = Ok sel ∧
    vram_of (sl_Manifest sel) ≤ 8192.
Proof.
  eexists. split; [vm_compute; reflexivity|]. split; [vm_compute; reflexivity|].
  refine (windows_selection_bound radeon_pc "" radeon_resources "auto" [sample; large sample] _ _ _ _ _);
    vm_compute; reflexivity.
Defined.
End HardwareExamples.
