(* ===== verification/FileSystem.v ===== *)
(** * Files, paths and downloads

    What the node's delivery code ([runtime/manager.go], [runtime/archive.go],
    [update/update.go], [models/cache.go]) needs of Go's [os], [path/filepath] and
    [net/http]: the lexical operations on slash-separated paths, a Unix file tree with
    symbolic links as the calls of [os] see it, and a [World] that also holds the answers
    of servers, the clock, and the faults the operating system injects. Permissions are not
    modelled; a call they would refuse is a fault. *)
From stdpp Require Import base gmap strings list.
From Stdlib Require Import ZArith Lia Ascii.
From S2P Require Import Prelude GoStrings.

(** ** Lexical paths

    A path is read as whether it is rooted and its components; empty components and ["."]
    say nothing. [Clean] is [filepath.Clean], [path_string] prints a cleaned path. *)
Record Path := { rooted : bool; parts : list string }.

#[export] Instance Path_eq_dec : EqDecision Path.
Proof. solve_decision. Defined.

Definition read_path (s : string) : Path :=
  {| rooted := has_prefix s "/";
     parts := filter (λ c, c ≠ "" ∧ c ≠ ".") (split_on "/"%char s) |}.

(** The components left of a path, the last one first: [..] takes back the one before it,
    is dropped at the root, and is kept at the start of a relative path. *)
Fixpoint clean_from (abs : bool) (stack : list string) (l : list string) : list string :=
  match l with
  | [] => stack
  | c :: l' =>
      if String.eqb c ".." then
        match stack with
        | d :: stack' => if String.eqb d ".." then clean_from abs (".." :: stack) l' else clean_from abs stack' l'
        | [] => clean_from abs (if abs then [] else [".."]) l'
        end
      else clean_from abs (c :: stack) l'
  end.

Definition Clean (p : Path) : Path :=
  {| rooted := rooted p; parts := reverse (clean_from (rooted p) [] (parts p)) |}.

Definition path_string (p : Path) : string :=
  let body := String.concat "/" (parts p) in
  if rooted p then "/" +:+ body else if String.eqb body "" then "." else body.

(** [filepath.Join(p, name)] for a path that is not empty. *)
Definition Join (p : Path) (name : string) : Path :=
  Clean {| rooted := rooted p; parts := parts p ++ parts (read_path name) |}.

(** [filepath.Dir] of a cleaned path, and the last component, [filepath.Base]. *)
Definition Dir (p : Path) : Path := Clean {| rooted := rooted p; parts := removelast (parts p) |}.
Definition Base (s : string) : string :=
  let p := read_path s in
  match last (filter (λ c, c ≠ "") (split_on "/"%char s)) with
  | Some c => c
  | None => if rooted p then "/" else "."
  end.

(** [filepath.IsAbs(clean) || clean == ".." || strings.HasPrefix(clean, "../")]. *)
Definition escapes (p : Path) : bool :=
  rooted p || match parts p with c :: _ => String.eqb c ".." | [] => false end.

Definition plain (l : list string) : Prop := ".." ∉ l.

Lemma clean_from_plain abs stack l : plain l → clean_from abs stack l = reverse l ++ stack.
Proof.
  unfold plain. revert stack. induction l as [|c l IH]; intros stack; [done|].
  rewrite not_elem_of_cons. intros [Hc Hl]. simpl. destruct (String.eqb_spec c ".."); [done|].
  by rewrite IH, reverse_cons, <-app_assoc.
Qed.

Lemma Clean_plain p : plain (parts p) → Clean p = p.
Proof. intros Hp. destruct p as [r l]. unfold Clean. simpl in *. by rewrite clean_from_plain, app_nil_r, reverse_involutive. Qed.

(** What cleaning leaves: [..] only at the start of a relative path. *)
Lemma clean_from_shape (abs : bool) stack l :
  (abs = true → plain stack) → (∃ a b, stack = a ++ b ∧ plain a ∧ Forall (λ c, c = "..") b) →
  (abs = true → plain (clean_from abs stack l)) ∧
  ∃ a b, clean_from abs stack l = a ++ b ∧ plain a ∧ Forall (λ c, c = "..") b.
Proof.
  revert stack. induction l as [|c l IH]; intros stack Habs (a & b & Hs & Ha & Hb).
  { split; [done|]. by exists a, b. }
  simpl. destruct (String.eqb_spec c "..") as [->|Hc].
  - destruct stack as [|d stack'].
    + apply IH.
      * intros ->. by apply not_elem_of_nil.
      * destruct abs.
        -- exists [], []. split_and!; [done|by apply not_elem_of_nil|constructor].
        -- exists [], [".."]. split_and!; [done|by apply not_elem_of_nil|by repeat constructor].
    + destruct (String.eqb_spec d "..") as [->|Hd].
      * assert (a = []) as ->.
        { destruct a as [|x a]; [done|]. injection Hs as <- ->. exfalso. apply Ha. by left. }
        simpl in Hs. subst b. apply IH.
        -- intros ->. exfalso. apply (Habs eq_refl). by left.
        -- exists [], (".." :: ".." :: stack'). split_and!; [done|by apply not_elem_of_nil|by constructor].
      * apply IH.
        -- intros H Hin. apply (Habs H). by right.
        -- destruct a as [|x a].
           { simpl in Hs. subst b. by apply Forall_cons in Hb as [-> _]. }
           injection Hs as <- ->. exists a, b. split_and!; [done| |done]. intros Hin. apply Ha. by right.
  - apply IH.
    + intros H [Hin|Hin]%elem_of_cons; [done|]. by apply (Habs H).
    + exists (c :: a), b. subst. split_and!; [done| |done]. intros [Hin|Hin]%elem_of_cons; [done|]. by apply Ha.
Qed.

Lemma Clean_rooted_plain p : rooted p = true → plain (parts (Clean p)).
Proof.
  intros Hr. unfold Clean. simpl. rewrite Hr.
  destruct (clean_from_shape true [] (parts p)) as [H _].
  - intros _. by apply not_elem_of_nil.
  - exists [], []. split_and!; [done|by apply not_elem_of_nil|constructor].
  - unfold plain. rewrite elem_of_reverse. exact (H eq_refl).
Qed.

(** A cleaned path that does not escape has no [..] at all. *)
Lemma escapes_plain p : escapes (Clean p) = false → rooted p = false ∧ plain (parts (Clean p)).
Proof.
  unfold escapes, Clean. simpl. rewrite orb_false_iff. intros [Hr Hh]. split; [done|]. rewrite Hr in *.
  destruct (clean_from_shape false [] (parts p)) as [_ (a & b & E & Ha & Hb)]; [done| |].
  { exists [], []. split_and!; [done|by apply not_elem_of_nil|constructor]. }
  rewrite E in *. rewrite reverse_app in *. destruct b as [|y b _] using rev_ind.
  { unfold plain. by rewrite reverse_nil, app_nil_l, elem_of_reverse. }
  rewrite reverse_snoc in Hh. simpl in Hh. apply Forall_app in Hb as [_ Hy]. apply Forall_cons in Hy as [-> _]. done.
Qed.

Lemma Join_plain p name : plain (parts p) → plain (parts (read_path name)) →
  Join p name = {| rooted := rooted p; parts := parts p ++ parts (read_path name) |}.
Proof. intros Hp Hn. unfold Join. apply Clean_plain. simpl. unfold plain. rewrite elem_of_app. by intros [?|?]. Qed.

(** A [..] that was kept is never taken back. *)
Lemma clean_from_keeps abs stack l : ".." ∈ stack → ".." ∈ clean_from abs stack l.
Proof.
  revert stack. induction l as [|c l IH]; intros stack Hin; [done|]. simpl.
  destruct (String.eqb_spec c ".."); [|by apply IH; right].
  destruct stack as [|d stack']; [by apply not_elem_of_nil in Hin|].
  destruct (String.eqb_spec d "..") as [->|Hd]; apply IH; [by left|].
  by apply elem_of_cons in Hin as [Hin|Hin].
Qed.

Lemma clean_from_over abs stack t l :
  plain (clean_from false stack l) → clean_from abs (stack ++ t) l = clean_from false stack l ++ t.
Proof.
  revert stack. induction l as [|c l IH]; intros stack Hp; [done|]. simpl in *.
  destruct (String.eqb_spec c "..") as [->|Hc]; [|by apply (IH (c :: stack))].
  destruct stack as [|d stack'].
  - exfalso. apply Hp, clean_from_keeps. by left.
  - simpl. destruct (String.eqb_spec d "..") as [->|Hd]; [|by apply IH].
    exfalso. apply Hp, clean_from_keeps. by left.
Qed.

(** Joining a name that does not escape only goes down. *)
Lemma Join_inside p name :
  plain (parts p) → escapes (Clean (read_path name)) = false →
  Join p name = {| rooted := rooted p; parts := parts p ++ parts (Clean (read_path name)) |} ∧
  plain (parts (Clean (read_path name))).
Proof.
  intros Hp He. pose proof (escapes_plain _ He) as [Hr Hn]. split; [|done].
  unfold Join, Clean. simpl. f_equal.
  assert (Hs : ∀ abs stack a b, clean_from abs stack (a ++ b) = clean_from abs (clean_from abs stack a) b).
  { intros abs stack a. revert stack. induction a as [|c a IHa]; intros stack b; simpl; [done|]. by repeat case_match. }
  rewrite Hs, (clean_from_plain _ _ _ Hp), app_nil_r.
  rewrite <-(app_nil_l (reverse (parts p))), clean_from_over.
  - rewrite reverse_app, reverse_involutive. unfold read_path in *. simpl in *. by rewrite Hr.
  - intros Hin. apply Hn. unfold Clean. cbn [parts]. rewrite Hr. by apply elem_of_reverse.
Qed.

(** ** The file tree

    Keyed by physical path: no component is a link or [..], the root is the empty path and a
    directory. A link holds the path that is read in its target. *)
Notation location := (list string).

Inductive node :=
  | NFile (data : string) (mtime : Z)
  | NDir
  | NLink (target : Path).

#[export] Instance node_eq_dec : EqDecision node.
Proof. solve_decision. Defined.

Notation files := (gmap location node).

Definition node_at (fs : files) (p : location) : option node := if bool_decide (p = []) then Some NDir else fs !! p.

Definition errno (msg : string) : gerror := ErrMsg msg.
Definition ENOENT := errno "no such file or directory".
Definition ENOTDIR := errno "not a directory".
Definition EISDIR := errno "is a directory".
Definition EEXIST := errno "file exists".
Definition ELOOP := errno "too many levels of symbolic links".
Definition EXDEV := errno "invalid cross-device link".
Definition EINVAL := errno "invalid argument".
Definition ENOTEMPTY := errno "directory not empty".
Definition EIO := errno "input/output error".

(** Resolution of a path from the directory [here]. At most [links] links are followed (the
    kernel allows 40), the last component only if [follow] says so; the result may not exist,
    but its directory does. *)
Fixpoint walk (fs : files) (links : nat) : bool → location → list string → result location :=
  fix go (follow : bool) (here : location) (todo : list string) : result location :=
    match todo with
    | [] => Ok here
    | c :: rest =>
        if String.eqb c ".." then go follow (removelast here) rest
        else
          let p := here ++ [c] in
          match fs !! p with
          | None => match rest with [] => Ok p | _ => Err ENOENT end
          | Some NDir => go follow p rest
          | Some (NFile _ _) => match rest with [] => Ok p | _ => Err ENOTDIR end
          | Some (NLink t) =>
              if match rest with [] => negb follow | _ => false end then Ok p
              else match links with
                   | O => Err ELOOP
                   | S n => walk fs n follow (if rooted t then [] else here) (parts t ++ rest)
                   end
          end
    end.

#[global] Arguments walk _ _ _ _ _ : simpl never.

Definition max_links : nat := 40.

Definition below (p k : location) : bool := bool_decide (p `prefix_of` k).

(** The tree without [p] and what is in it, and with it moved to [q]. *)
Definition prune (p : location) (fs : files) : files := filter (λ kv, below p kv.1 = false) fs.
Definition relocate (p q : location) (fs : files) : files :=
  list_to_map ((λ kv, (q ++ drop (length p) kv.1, kv.2)) <$> filter (λ kv, below p kv.1 = true) (map_to_list fs))
    ∪ prune q (prune p fs).

(** ** The world of a node *)

(** What a server does with a request: no answer, or a status and a body, which the connection
    may cut short. *)
Inductive Reply := NoReply | Answer (status : Z) (body : string) (complete : bool).

(** A request the node has sent: for a file from some byte on, or with a body. *)
Inductive Sent := SentGet (url : string) (from : Z) | SentPost (url body : string).

Record World := {
  w_fs : files;
  w_cwd : location;
  w_now : Z;
  w_faults : list (option nat);          (* the fate of the coming calls: [Some n], it fails, a write after n bytes *)
  w_replies : list Reply;
  w_requests : list Sent;                (* latest first *)
  w_names : list string                  (* the random part of temporary names *)
}.
#[export] Instance World_eta : Eta World := λ w,
  {| w_fs := w_fs w; w_cwd := w_cwd w; w_now := w_now w; w_faults := w_faults w; w_replies := w_replies w;
     w_requests := w_requests w; w_names := w_names w |}.

Notation IO := (St World).

(** The fate of the next call. *)
Definition next_fault : IO (option nat) := λ w,
  match w_faults w with
  | [] => (Ok None, w)
  | f :: faults => (Ok f, w <| w_faults := faults |>)
  end.

Definition syscall {A} (m : IO A) : IO A :=
  f ← next_fault;
  match f with Some _ => fail EIO | None => m end.

Definition set_fs (f : files → files) : IO unit := modify (λ w, w <| w_fs ::= f |>).

Definition resolve (follow : bool) (p : Path) : IO location :=
  r ← gets (λ w, walk (w_fs w) max_links follow (if rooted p then [] else w_cwd w) (parts p));
  lift_result r.

Definition node_of (p : location) : IO (option node) := gets (λ w, node_at (w_fs w) p).

(** [os.Stat], [os.Open] and reading to the end, [os.ReadFile]. *)
Definition Stat (p : Path) : IO node := syscall (
  q ← resolve true p;
  n ← node_of q;
  of_option ENOENT n).

Definition Open (p : Path) : IO location := syscall (
  q ← resolve true p;
  n ← node_of q;
  _ ← of_option ENOENT n;
  mret q).

Definition read_all (q : location) : IO string := syscall (
  n ← node_of q;
  match n with
  | Some (NFile data _) => mret data
  | Some _ => fail EISDIR
  | None => mret ""
  end).

Definition ReadFile (p : Path) : IO string := q ← Open p; read_all q.

(** [os.OpenFile] for writing: with [O_CREATE|O_TRUNC], or with [O_CREATE|O_APPEND]. *)
Definition open_write (truncate : bool) (p : Path) : IO location := syscall (
  q ← resolve true p;
  n ← node_of q;
  now ← gets w_now;
  match n with
  | Some NDir => fail EISDIR
  | Some (NLink _) => fail ELOOP
  | Some (NFile data mtime) =>
      if truncate then (_ ← set_fs <[q := NFile "" now]>; mret q) else mret q
  | None => _ ← set_fs <[q := NFile "" now]>; mret q
  end).
Definition Create : Path → IO location := open_write true.

(** A write at the end of an open file; a fault cuts it short. *)
Definition append_to (q : location) (data : string) (now : Z) (fs : files) : files :=
  match fs !! q with
  | Some (NFile old _) => <[q := NFile (old +:+ data) now]> fs
  | _ => fs
  end.

Definition write_all (q : location) (data : string) : IO unit :=
  f ← next_fault;
  now ← gets w_now;
  match f with
  | None => set_fs (append_to q data now)
  | Some n => _ ← set_fs (append_to q (of_bytes (take n (bytes data))) now); fail EIO
  end.

(** [io.Copy] from a reader that gives [data] and then ends or fails. *)
Definition copy_from (q : location) (data : string) (complete : bool) : IO unit :=
  _ ← write_all q data;
  guard_err complete (ErrMsg "unexpected EOF").

(** Opening, creating and copying, with the contexts of the three errors. *)
Definition copy_file (opening creating copying : string) (src dest : Path) : IO unit :=
  input ← wrap opening (Open src);
  out ← wrap creating (Create dest);
  data ← wrap copying (read_all input);
  wrap copying (write_all out data).

Definition WriteFile (p : Path) (data : string) : IO unit :=
  q ← Create p;
  write_all q data.

(** One [mkdir] of [os.MkdirAll]: nothing if the directory is there. *)
Definition mkdir_if_missing (p : Path) : IO unit := syscall (
  q ← resolve true p;
  n ← node_of q;
  match n with
  | Some NDir => mret tt
  | Some _ => fail ENOTDIR
  | None =>
      q' ← resolve false p;
      n' ← node_of q';
      match n' with
      | Some _ => fail EEXIST
      | None => set_fs <[q' := NDir]>
      end
  end).

(** [os.MkdirAll]: from the top down. *)
Definition ancestors (p : Path) : list Path :=
  (λ i, {| rooted := rooted p; parts := take (S i) (parts p) |}) <$> seq 0 (length (parts p)).
Definition MkdirAll (p : Path) : IO unit := for_each mkdir_if_missing (ancestors p).

(** [os.MkdirTemp]: the first name that is not taken. *)
Fixpoint draw_name (dir : Path) (prefix : string) (names : list string) : IO Path :=
  match names with
  | [] => fail EEXIST
  | name :: rest =>
      _ ← modify (λ w, w <| w_names := rest |>);
      let p := {| rooted := rooted dir; parts := parts dir ++ [prefix +:+ name] |} in
      q ← resolve false p;
      n ← node_of q;
      match n with
      | Some _ => draw_name dir prefix rest
      | None => _ ← set_fs <[q := NDir]>; mret p
      end
  end.
Definition MkdirTemp (dir : Path) (prefix : string) : IO Path :=
  syscall (names ← gets w_names; draw_name dir prefix names).

Definition has_children (fs : files) (q : location) : bool :=
  existsb (λ kv, below q kv.1 && negb (bool_decide (kv.1 = q))) (map_to_list fs).

(** [os.Remove], [os.RemoveAll], [os.Symlink], [os.Rename], [os.Chtimes]. *)
Definition Remove (p : Path) : IO unit := syscall (
  q ← resolve false p;
  n ← node_of q;
  fs ← gets w_fs;
  match n with
  | None => fail ENOENT
  | Some NDir => if bool_decide (q = []) || has_children fs q then fail ENOTEMPTY else set_fs (delete q)
  | Some _ => set_fs (delete q)
  end).

Definition RemoveAll (p : Path) : IO unit := syscall (
  w ← gets id;
  match walk (w_fs w) max_links false (if rooted p then [] else w_cwd w) (parts p) with
  | Ok [] => fail EINVAL
  | Ok q => set_fs (prune q)
  | Err e => guard_err (bool_decide (e = ENOENT)) e
  end).

Definition Symlink (target : Path) (p : Path) : IO unit := syscall (
  q ← resolve false p;
  n ← node_of q;
  match n with
  | Some _ => fail EEXIST
  | None => set_fs <[q := NLink target]>
  end).

Definition Chtimes (p : Path) (t : Z) : IO unit := syscall (
  q ← resolve true p;
  n ← node_of q;
  match n with
  | None => fail ENOENT
  | Some (NFile data _) => set_fs <[q := NFile data t]>
  | Some _ => mret tt
  end).

(** [os.Chmod]: only whether it can be done. *)
Definition Chmod (p : Path) : IO unit := _ ← Stat p; mret tt.

(** The names in a directory, in order ([os.ReadDir]). *)
Definition child_name (q k : location) : option string :=
  match last k with
  | Some c => if bool_decide (k = q ++ [c]) then Some c else None
  | None => None
  end.
Definition ReadDir (p : Path) : IO (list (string * node)) := syscall (
  q ← resolve true p;
  n ← node_of q;
  match n with
  | Some NDir => gets (λ w, stable_sort (λ a b, string_ltb a.1 b.1)
                    (omap (λ kv, (λ c, (c, kv.2)) <$> child_name q kv.1) (map_to_list (w_fs w))))
  | Some _ => fail ENOTDIR
  | None => fail ENOENT
  end).

(** [defer cleanup()]. *)
Definition finally {A} (m : IO A) (cleanup : IO unit) : IO A := λ w,
  let '(r, w1) := m w in (r, (cleanup w1).2).

(** The next answer of a server. *)
Definition ask (request : Sent) : IO Reply :=
  _ ← modify (λ w, w <| w_requests ::= cons request |>);
  replies ← gets w_replies;
  match replies with
  | [] => mret NoReply
  | r :: rest => _ ← modify (λ w, w <| w_replies := rest |>); mret r
  end.
Definition http_get (url : string) (offset : Z) : IO Reply := ask (SentGet url offset).
Definition http_post (url body : string) : IO Reply := ask (SentPost url body).

Section rename.
(** The file system a path is on: a rename does not cross two of them. *)
Context (device : location → nat).

Definition Rename (p q : Path) : IO unit := syscall (
  src ← resolve false p;
  n ← node_of src;
  dest ← resolve false q;
  m ← node_of dest;
  match n, m with
  | None, _ => fail ENOENT
  | _, Some NDir => fail EEXIST
  | Some n, _ =>
      if bool_decide (src = dest) then mret tt
      else if below src dest then fail EINVAL
      else if bool_decide (n = NDir) && bool_decide (is_Some m) then fail ENOTDIR
      else if negb (Nat.eqb (device src) (device dest)) then fail EXDEV
      else set_fs (relocate src dest)
  end).
End rename.

(** A call that succeeds ran, with the faults that were left. *)
Lemma syscall_ok {A} (m : IO A) w a w' :
  syscall m w = (Ok a, w') → ∃ faults, m (w <| w_faults := faults |>) = (Ok a, w').
Proof.
  unfold syscall, next_fault, mbind, St_bind. destruct w as [fs cwd now faults replies requests names]. simpl.
  destruct faults as [|[k|] faults]; simpl; [by exists []|done|by exists faults].
Qed.

Lemma resolve_ok f p w q w' :
  resolve f p w = (Ok q, w') ↔ walk (w_fs w) max_links f (if rooted p then [] else w_cwd w) (parts p) = Ok q ∧ w' = w.
Proof. unfold resolve. rewrite bind_ok. setoid_rewrite gets_ok. setoid_rewrite lift_ok. naive_solver. Qed.

(** ** Staying below a directory

    [safe R]: the directory [R] and those above it are real directories, and every link below
    [R] descends: its target is relative and has no [..]. A run is [confined] to [R] if it
    keeps that and changes nothing outside of [R]. *)
Definition descends (t : Path) : Prop := rooted t = false ∧ plain (parts t).

Definition real (fs : files) (R : location) : Prop :=
  plain R ∧ ∀ q, q ≠ [] → q `prefix_of` R → fs !! q = Some NDir.

Definition safe (R : location) (fs : files) : Prop :=
  (R ≠ [] ∧ real fs R) ∧ ∀ p t, R `prefix_of` p → fs !! p = Some (NLink t) → descends t.

Definition same_outside (R : location) (fs fs' : files) : Prop := ∀ p, ¬ R `prefix_of` p → fs' !! p = fs !! p.

Definition confined {A} (R : location) (m : IO A) : Prop := ∀ w,
  safe R (w_fs w) → safe R (w_fs (m w).2) ∧ same_outside R (w_fs w) (w_fs (m w).2).

(** A path below [R], lexically. *)
Definition under (R : location) (p : Path) : Prop :=
  ∃ l, rooted p = true ∧ parts p = R ++ l ∧ plain l.
Definition strictly_under (R : location) (p : Path) : Prop :=
  ∃ l, rooted p = true ∧ parts p = R ++ l ∧ plain l ∧ l ≠ [].

Lemma strictly_under_under R p : strictly_under R p → under R p.
Proof. intros (l & ? & ? & ? & _). by exists l. Qed.

Lemma walk_nil fs n f here : walk fs n f here [] = Ok here.
Proof. by destruct n. Qed.

Lemma walk_cons fs n f here c rest :
  walk fs n f here (c :: rest) =
    if String.eqb c ".." then walk fs n f (removelast here) rest
    else
      let p := here ++ [c] in
      match fs !! p with
      | None => match rest with [] => Ok p | _ => Err ENOENT end
      | Some NDir => walk fs n f p rest
      | Some (NFile _ _) => match rest with [] => Ok p | _ => Err ENOTDIR end
      | Some (NLink t) =>
          if match rest with [] => negb f | _ => false end then Ok p
          else match n with
               | O => Err ELOOP
               | S n' => walk fs n' f (if rooted t then [] else here) (parts t ++ rest)
               end
      end.
Proof. by destruct n. Qed.

(** Real directories are walked through without following anything. *)
Lemma walk_dirs fs n f here suf rest :
  plain suf → (∀ l, l ≠ [] → l `prefix_of` suf → fs !! (here ++ l) = Some NDir) →
  walk fs n f here (suf ++ rest) = walk fs n f (here ++ suf) rest.
Proof.
  revert here. induction suf as [|c suf IH]; intros here Hp Hd; [by rewrite app_nil_r|].
  unfold plain in Hp. rewrite not_elem_of_cons in Hp. destruct Hp as [Hc Hp].
  cbn [app]. rewrite walk_cons. destruct (String.eqb_spec c ".."); [by subst|]. cbv zeta.
  rewrite (Hd [c]) by (done || by exists suf).
  rewrite IH; [by rewrite <-app_assoc|done|].
  intros l Hl [k ->]. rewrite <-app_assoc. apply (Hd ([c] ++ l)); [done|]. by exists k.
Qed.

Lemma walk_real fs n f R l : real fs R → walk fs n f [] (R ++ l) = walk fs n f R l.
Proof. intros [Hp Hd]. by rewrite walk_dirs. Qed.

(** Resolution of a plain path from below [R] ends below [R]. *)
Lemma walk_below fs R n f here l p :
  safe R fs → R `prefix_of` here → plain l → walk fs n f here l = Ok p → R `prefix_of` p.
Proof.
  intros [_ Hlinks]. revert here l. induction n as [n IHn] using lt_wf_ind. intros here l.
  revert here. induction l as [|c l IH]; intros here Hh Hl Hw.
  { rewrite walk_nil in Hw. by injection Hw as <-. }
  unfold plain in Hl. rewrite not_elem_of_cons in Hl. destruct Hl as [Hc Hl].
  assert (Hp : R `prefix_of` here ++ [c]) by by apply prefix_app_r.
  rewrite walk_cons in Hw. destruct (String.eqb_spec c ".."); [by subst|]. cbv zeta in Hw.
  destruct (fs !! (here ++ [c])) as [[d t| |t]|] eqn:E.
  - destruct l; [by injection Hw as <-|done].
  - by apply (IH (here ++ [c])).
  - destruct (match l with [] => negb f | _ => false end); [by injection Hw as <-|].
    destruct n as [|n]; [done|]. destruct (Hlinks _ _ Hp E) as [Hr Ht]. rewrite Hr in Hw.
    apply (IHn n ltac:(lia) _ _ Hh) in Hw; [done|].
    unfold plain. rewrite elem_of_app. by intros [?|?].
  - destruct l; [by injection Hw as <-|done].
Qed.

Lemma walk_under fs R p n f here q :
  safe R fs → under R p → walk fs n f (if rooted p then [] else here) (parts p) = Ok q → R `prefix_of` q.
Proof.
  intros Hs (l & Hr & -> & Hl). rewrite Hr. rewrite walk_real by apply Hs. by apply walk_below.
Qed.

(** Without following the last component, a strictly lower path resolves strictly lower. *)
Lemma walk_strict fs R n here l p :
  safe R fs → R `prefix_of` here → plain l → l ≠ [] → walk fs n false here l = Ok p → R `prefix_of` p ∧ p ≠ R.
Proof.
  intros [_ Hlinks]. revert here l. induction n as [n IHn] using lt_wf_ind. intros here l.
  revert here. induction l as [|c l IH]; intros here Hh Hl Hne Hw; [done|].
  unfold plain in Hl. rewrite not_elem_of_cons in Hl. destruct Hl as [Hc Hl].
  assert (Hp : R `prefix_of` here ++ [c]) by by apply prefix_app_r.
  assert (Hne' : here ++ [c] ≠ R).
  { intros E. apply prefix_length in Hh. apply (f_equal length) in E. rewrite length_app in E. simpl in E. lia. }
  rewrite walk_cons in Hw. destruct (String.eqb_spec c ".."); [by subst|]. cbv zeta in Hw.
  destruct (fs !! (here ++ [c])) as [[d t| |t]|] eqn:E.
  - destruct l; [by injection Hw as <-|done].
  - destruct l as [|c' l]; [|by apply (IH (here ++ [c]))]. rewrite walk_nil in Hw. by injection Hw as <-.
  - destruct l as [|c' l]; [by injection Hw as <-|].
    destruct n as [|n]; [done|]. destruct (Hlinks _ _ Hp E) as [Hr Ht]. rewrite Hr in Hw.
    apply (IHn n ltac:(lia) _ _ Hh) in Hw; [done| |by destruct (parts t)].
    unfold plain. rewrite elem_of_app. by intros [?|?].
  - destruct l; [by injection Hw as <-|done].
Qed.

Lemma walk_strictly_under fs R p n here q :
  safe R fs → strictly_under R p → walk fs n false (if rooted p then [] else here) (parts p) = Ok q →
  R `prefix_of` q ∧ q ≠ R.
Proof.
  intros Hs (l & Hr & -> & Hl & Hne). rewrite Hr. rewrite walk_real by apply Hs. by apply walk_strict.
Qed.

(** *** Updates of the tree *)

Lemma prefix_antisym (p q : location) : p `prefix_of` q → q `prefix_of` p → p = q.
Proof.
  intros [k ->] [k' E]. rewrite <-app_assoc in E. apply (f_equal length) in E. rewrite !length_app in E.
  destruct k; [by rewrite app_nil_r|]. simpl in E. lia.
Qed.

Lemma safe_insert R fs p n :
  safe R fs → R `prefix_of` p → p ≠ R → (∀ t, n = NLink t → descends t) →
  safe R (<[p:=n]> fs) ∧ same_outside R fs (<[p:=n]> fs).
Proof.
  intros [[HR [Hp Hd]] Hl] Hpre Hne Hn. split; [split; [split; [done|split; [done|]]|]|].
  - intros q Hq HqR. rewrite lookup_insert_ne; [by apply Hd|]. intros <-. by apply Hne, prefix_antisym.
  - intros k t Hk. destruct (decide (k = p)) as [->|?].
    + rewrite lookup_insert_eq. intros [= ->]. by apply Hn.
    + rewrite lookup_insert_ne by done. by apply Hl.
  - intros k Hk. rewrite lookup_insert_ne; [done|]. by intros <-.
Qed.

Lemma safe_delete R fs p :
  safe R fs → R `prefix_of` p → p ≠ R → safe R (delete p fs) ∧ same_outside R fs (delete p fs).
Proof.
  intros [[HR [Hp Hd]] Hl] Hpre Hne. split; [split; [split; [done|split; [done|]]|]|].
  - intros q Hq HqR. rewrite lookup_delete_ne; [by apply Hd|]. intros <-. by apply Hne, prefix_antisym.
  - intros k t Hk. rewrite lookup_delete_Some. intros [_ ?]. by eapply Hl.
  - intros k Hk. rewrite lookup_delete_ne; [done|]. by intros <-.
Qed.

Lemma below_true p k : below p k = true ↔ p `prefix_of` k.
Proof. unfold below. apply bool_decide_eq_true. Qed.
Lemma below_false p k : below p k = false ↔ ¬ p `prefix_of` k.
Proof. unfold below. apply bool_decide_eq_false. Qed.

Lemma lookup_prune p fs k : prune p fs !! k = if below p k then None else fs !! k.
Proof.
  unfold prune. destruct (below p k) eqn:E.
  - apply map_lookup_filter_None. right. intros x _. simpl. by rewrite E.
  - destruct (fs !! k) as [n|] eqn:Ek.
    + by apply map_lookup_filter_Some.
    + apply map_lookup_filter_None. by left.
Qed.

Lemma strip_below (p k : location) : p `prefix_of` k → p ++ drop (length p) k = k.
Proof. intros [l ->]. by rewrite drop_app_length. Qed.

Lemma lookup_relocate p q fs k :
  relocate p q fs !! k =
    if below q k then fs !! (p ++ drop (length q) k) else if below p k then None else fs !! k.
Proof.
  unfold relocate. rewrite lookup_union.
  set (moved := (λ kv : location * node, (q ++ drop (length p) kv.1, kv.2)) <$> filter (λ kv, below p kv.1 = true) (map_to_list fs)).
  assert (Hmoved : ∀ k' n, (k', n) ∈ moved ↔ ∃ l, k' = q ++ l ∧ fs !! (p ++ l) = Some n).
  { intros k' n. unfold moved. rewrite list_elem_of_fmap. split.
    - intros ([k0 n0] & [= -> ->] & [Hb Hin]%list_elem_of_filter). simpl in *.
      apply elem_of_map_to_list in Hin. apply below_true in Hb. exists (drop (length p) k0).
      by rewrite strip_below.
    - intros (l & -> & Hl). exists (p ++ l, n). simpl. rewrite drop_app_length. split; [done|].
      apply list_elem_of_filter. split; [|by apply elem_of_map_to_list]. apply below_true. by exists l. }
  assert (Hnd : NoDup (moved.*1)).
  { unfold moved. rewrite <-list_fmap_compose. apply NoDup_fmap_2_strong.
    - intros [k1 n1] [k2 n2] [Hb1 H1]%list_elem_of_filter [Hb2 H2]%list_elem_of_filter E. simpl in *.
      apply app_inv_head in E. apply below_true in Hb1, Hb2. apply elem_of_map_to_list in H1, H2.
      assert (k1 = k2) as -> by (rewrite <-(strip_below p k1), <-(strip_below p k2) by done; by rewrite E).
      congruence.
    - apply NoDup_filter, NoDup_map_to_list. }
  assert (Hget : ∀ n, (list_to_map moved : files) !! k = Some n ↔ (k, n) ∈ moved).
  { intros n. symmetry. by apply elem_of_list_to_map. }
  rewrite !lookup_prune. destruct (below q k) eqn:Eq.
  - rewrite (right_id_L None (∪)). apply below_true in Eq. apply option_eq. intros n. rewrite Hget, Hmoved. split.
    + intros (l & -> & ?). by rewrite drop_app_length.
    + intros H. exists (drop (length q) k). by rewrite strip_below.
  - apply below_false in Eq. assert ((list_to_map moved : files) !! k = None) as ->.
    { apply eq_None_not_Some. intros [n Hn]. apply Hget, Hmoved in Hn as (l & -> & _). apply Eq. by exists l. }
    by rewrite (left_id_L None (∪)).
Qed.

Lemma safe_prune R fs p :
  safe R fs → R `prefix_of` p → p ≠ R → safe R (prune p fs) ∧ same_outside R fs (prune p fs).
Proof.
  intros [[HR [Hp Hd]] Hl] Hpre Hne. split; [split; [split; [done|split; [done|]]|]|].
  - intros q Hq HqR. rewrite lookup_prune. destruct (below p q) eqn:E; [|by apply Hd].
    apply below_true in E. exfalso. apply Hne, prefix_antisym; [|done]. by trans q.
  - intros k t Hk. rewrite lookup_prune. destruct (below p k); [done|]. by apply Hl.
  - intros k Hk. rewrite lookup_prune. destruct (below p k) eqn:E; [|done].
    apply below_true in E. exfalso. apply Hk. by trans p.
Qed.

Lemma safe_relocate R fs p q :
  safe R fs → R `prefix_of` p → p ≠ R → R `prefix_of` q → q ≠ R →
  safe R (relocate p q fs) ∧ same_outside R fs (relocate p q fs).
Proof.
  intros [[HR [Hpl Hd]] Hl] Hp Hpne Hq Hqne. split; [split; [split; [done|split; [done|]]|]|].
  - intros k Hk HkR. rewrite lookup_relocate.
    destruct (below q k) eqn:Eq; [|destruct (below p k) eqn:Ep; [|by apply Hd]].
    + apply below_true in Eq. exfalso. apply Hqne, prefix_antisym; [|done]. by trans k.
    + apply below_true in Ep. exfalso. apply Hpne, prefix_antisym; [|done]. by trans k.
  - intros k t Hk. rewrite lookup_relocate.
    destruct (below q k) eqn:Eq; [|destruct (below p k) eqn:Ep; [done|by apply Hl]].
    apply Hl. by apply prefix_app_r.
  - intros k Hk. rewrite lookup_relocate.
    destruct (below q k) eqn:Eq; [|destruct (below p k) eqn:Ep; [|done]].
    + apply below_true in Eq. exfalso. apply Hk. by trans q.
    + apply below_true in Ep. exfalso. apply Hk. by trans p.
Qed.

(** *** Confined runs *)

Create HintDb confined.

Section confined.
Context (R : location).

(** A run that leaves the tree alone. *)
Definition fs_neutral {A} (m : IO A) : Prop := ∀ w, w_fs (m w).2 = w_fs w.

Lemma neutral_confined {A} (m : IO A) : fs_neutral m → confined R m.
Proof. intros H w Hs. by rewrite H. Qed.

Lemma neutral_resolve f p : fs_neutral (resolve f p).
Proof. by intros w. Qed.
Lemma neutral_fault : fs_neutral next_fault.
Proof. intros w. unfold next_fault. by destruct (w_faults w). Qed.

Lemma confined_ret {A} (a : A) : confined R (mret a).
Proof. by apply neutral_confined. Qed.
Lemma confined_fail {A} e : confined R (fail e : IO A).
Proof. by apply neutral_confined. Qed.
Lemma confined_gets {A} (f : World → A) : confined R (gets f).
Proof. by apply neutral_confined. Qed.
Lemma confined_lift {A} (r : result A) : confined R (lift_result r).
Proof. by apply neutral_confined. Qed.
Lemma confined_option {A} e (o : option A) : confined R (of_option e o).
Proof. apply neutral_confined. by destruct o. Qed.
Lemma confined_guard b e : confined R (guard_err b e).
Proof. apply neutral_confined. by destruct b. Qed.
Lemma confined_resolve f p : confined R (resolve f p).
Proof. apply neutral_confined, neutral_resolve. Qed.

Lemma same_outside_trans fs1 fs2 fs3 : same_outside R fs1 fs2 → same_outside R fs2 fs3 → same_outside R fs1 fs3.
Proof. intros H1 H2 p Hp. by rewrite H2, H1. Qed.

Lemma confined_bind {A B} (m : IO A) (f : A → IO B) :
  confined R m → (∀ a, confined R (f a)) → confined R (m ≫= f).
Proof.
  intros Hm Hf w Hs. specialize (Hm w Hs). unfold mbind, St_bind.
  destruct (m w) as [[a|e] w1]; simpl in *; [|done]. destruct Hm as [Hs1 Ho1].
  destruct (Hf a w1 Hs1) as [Hs2 Ho2]. split; [done|]. by eapply same_outside_trans.
Qed.
Lemma confined_wrap {A} c (m : IO A) : confined R m → confined R (wrap c m).
Proof. intros Hm w Hs. specialize (Hm w Hs). unfold wrap. by destruct (m w) as [[]]. Qed.
Lemma confined_ignore {A} (m : IO A) : confined R m → confined R (ignore_err m).
Proof. intros Hm w Hs. by apply (Hm w). Qed.
Lemma confined_try {A} (m : IO A) : confined R m → confined R (try m).
Proof. intros Hm w Hs. specialize (Hm w Hs). unfold try. by destruct (m w). Qed.
Lemma confined_for_each {A} (f : A → IO unit) l : (∀ x, x ∈ l → confined R (f x)) → confined R (for_each f l).
Proof.
  induction l as [|x l IH]; intros Hf; simpl; [apply confined_ret|].
  apply confined_bind; [apply Hf; by left|]. intros _. apply IH. intros y Hy. apply Hf. by right.
Qed.
Lemma confined_finally {A} (m : IO A) c : confined R m → confined R c → confined R (finally m c).
Proof.
  intros Hm Hc w Hs. specialize (Hm w Hs). unfold finally. destruct (m w) as [r w1]. simpl in *.
  destruct Hm as [Hs1 Ho]. destruct (Hc w1 Hs1) as [Hs2 Ho2]. split; [done|]. by eapply same_outside_trans.
Qed.
Lemma confined_modify f : (∀ w, w_fs (f w) = w_fs w) → confined R (modify f).
Proof. intros Hf. apply neutral_confined. intros w. simpl. apply Hf. Qed.
Lemma confined_syscall {A} (m : IO A) : confined R m → confined R (syscall m).
Proof.
  intros Hm. apply confined_bind; [apply neutral_confined, neutral_fault|].
  intros [n|]; [apply confined_fail|done].
Qed.

(** A call that resolves its path and then changes the tree there. *)
Lemma confined_at {A} (f : bool) (p : Path) (k : location → IO A) (G : files → location → Prop) :
  (∀ (fs : files) (here q : location), safe R fs → walk fs max_links f (if rooted p then [] else here) (parts p) = Ok q → G fs q) →
  (∀ (q : location) w, safe R (w_fs w) → G (w_fs w) q → safe R (w_fs (k q w).2) ∧ same_outside R (w_fs w) (w_fs (k q w).2)) →
  confined R (resolve f p ≫= k).
Proof.
  intros HG Hk w Hs. unfold resolve, mbind, St_bind, gets, lift_result.
  destruct (walk _ _ _ _ _) as [q|e] eqn:E; [|done]. apply Hk; [done|]. by eapply HG.
Qed.

Lemma not_dir_not_R fs q : safe R fs → node_at fs q ≠ Some NDir → q ≠ R.
Proof.
  intros [[_ [_ Hd]] _] Hn ->. apply Hn. unfold node_at. case_bool_decide; [done|]. by apply Hd.
Qed.

Lemma confined_Stat p : confined R (Stat p).
Proof. apply confined_syscall, confined_bind; [apply confined_resolve|]. intros q. apply confined_bind; [apply confined_gets|]. intros. apply confined_option. Qed.
Lemma confined_Chmod p : confined R (Chmod p).
Proof. apply confined_bind; [apply confined_Stat|]. intros. apply confined_ret. Qed.
Lemma confined_Open p : confined R (Open p).
Proof.
  apply confined_syscall, confined_bind; [apply confined_resolve|]. intros q.
  apply confined_bind; [apply confined_gets|]. intros n. apply confined_bind; [apply confined_option|]. intros. apply confined_ret.
Qed.
Lemma confined_read_all q : confined R (read_all q).
Proof. apply confined_syscall, confined_bind; [apply confined_gets|]. intros [[]|]; apply confined_ret || apply confined_fail. Qed.
Lemma confined_ReadFile p : confined R (ReadFile p).
Proof. apply confined_bind; [apply confined_Open|apply confined_read_all]. Qed.
Lemma confined_ask s : confined R (ask s).
Proof.
  apply confined_bind; [by apply confined_modify|]. intros _. apply confined_bind; [apply confined_gets|].
  intros [|r rest]; [apply confined_ret|]. apply confined_bind; [by apply confined_modify|]. intros. apply confined_ret.
Qed.
Lemma confined_http url o : confined R (http_get url o).
Proof. apply confined_ask. Qed.
Lemma confined_ReadDir p : confined R (ReadDir p).
Proof.
  apply confined_syscall, confined_bind; [apply confined_resolve|]. intros q. apply confined_bind; [apply confined_gets|].
  intros [[]|]; apply confined_gets || apply confined_fail.
Qed.

Lemma open_write_result b p w q w' :
  safe R (w_fs w) → under R p → open_write b p w = (Ok q, w') → R `prefix_of` q.
Proof.
  intros Hs Hu (faults & H)%syscall_ok.
  apply bind_ok in H as (q' & w1 & [Hw ->]%resolve_ok & H). simpl in Hw.
  pose proof (walk_under _ _ _ _ _ _ _ Hs Hu Hw) as Hq.
  unfold node_of in H. repeat (step_run; simplify_eq/=). repeat case_match; run_inv; done.
Qed.

Lemma confined_append q data : R `prefix_of` q → ∀ now, confined R (set_fs (append_to q data now)).
Proof.
  intros Hq now w Hs. cbn -[append_to]. unfold append_to.
  destruct (w_fs w !! q) as [[old t| |]|] eqn:E; [|done..].
  apply safe_insert; [done..| |done]. intros ->. destruct Hs as [[HR [_ Hd]] _]. by rewrite (Hd R HR (reflexivity _)) in E.
Qed.
Lemma confined_write_all q data : R `prefix_of` q → confined R (write_all q data).
Proof.
  intros Hq. apply confined_bind; [apply neutral_confined, neutral_fault|]. intros f.
  apply confined_bind; [apply confined_gets|]. intros now. destruct f as [n|]; [|by apply confined_append].
  apply confined_bind; [by apply confined_append|]. intros. apply confined_fail.
Qed.
Lemma confined_copy_from q data c : R `prefix_of` q → confined R (copy_from q data c).
Proof. intros Hq. apply confined_bind; [by apply confined_write_all|]. intros. apply confined_guard. Qed.

Lemma confined_open_write b p : under R p → confined R (open_write b p).
Proof.
  intros Hu. apply confined_syscall.
  eapply (confined_at _ _ _ (λ _ q, R `prefix_of` q)); [intros; by eapply walk_under|].
  intros q w Hs Hq. unfold node_of, mbind, St_bind, gets. simpl.
  destruct (node_at (w_fs w) q) as [[data t| |]|] eqn:E; try done.
  - destruct b; [|done]. simpl. apply safe_insert; [done..| |done]. eapply not_dir_not_R; [done|]. by rewrite E.
  - simpl. apply safe_insert; [done..| |done]. eapply not_dir_not_R; [done|]. by rewrite E.
Qed.

Lemma confined_open_bind {A} b p c (k : location → IO A) :
  under R p → (∀ q, R `prefix_of` q → confined R (k q)) → confined R (wrap c (open_write b p) ≫= k).
Proof.
  intros Hu Hk w Hs. pose proof (confined_open_write b p Hu w Hs) as Hc. unfold mbind, St_bind, wrap.
  destruct (open_write b p w) as [[q|e] w1] eqn:E; simpl in *; [|done].
  assert (Hq : R `prefix_of` q) by (by eapply open_write_result).
  destruct Hc as [Hs1 Ho]. destruct (Hk q Hq w1 Hs1) as [Hs2 Ho2]. split; [done|]. by eapply same_outside_trans.
Qed.
Lemma confined_create_bind {A} b p (k : location → IO A) :
  under R p → (∀ q, R `prefix_of` q → confined R (k q)) → confined R (open_write b p ≫= k).
Proof.
  intros Hu Hk w Hs. pose proof (confined_open_bind b p "" k Hu Hk w Hs) as H. unfold mbind, St_bind, wrap in *.
  by destruct (open_write b p w) as [[q|e] w1].
Qed.

Lemma confined_copy_file c1 c2 c3 src dest : under R dest → confined R (copy_file c1 c2 c3 src dest).
Proof.
  intros Hu. apply confined_bind; [apply confined_wrap, confined_Open|]. intros input.
  apply confined_open_bind; [done|]. intros q Hq.
  apply confined_bind; [apply confined_wrap, confined_read_all|]. intros data. by apply confined_wrap, confined_write_all.
Qed.
Lemma confined_WriteFile p data : under R p → confined R (WriteFile p data).
Proof. intros Hu. apply confined_create_bind; [done|]. intros. by apply confined_write_all. Qed.

Lemma confined_mkdir p : under R p → confined R (mkdir_if_missing p).
Proof.
  intros Hu. apply confined_syscall, confined_bind; [apply confined_resolve|]. intros q.
  apply confined_bind; [apply confined_gets|]. intros [[]|]; [apply confined_fail || apply confined_ret..|].
  eapply (confined_at _ _ _ (λ _ q, R `prefix_of` q)); [intros; by eapply walk_under|].
  intros q' w Hs Hq. unfold node_of, mbind, St_bind, gets. simpl.
  destruct (node_at (w_fs w) q') eqn:E; [done|]. simpl. apply safe_insert; [done..| |done].
  eapply not_dir_not_R; [done|]. by rewrite E.
Qed.

(** The directories above [R] are there. *)
Lemma confined_mkdir_above p : rooted p = true → parts p `prefix_of` R → confined R (mkdir_if_missing p).
Proof.
  intros Hr Hp. apply confined_syscall. intros w Hs. pose proof Hs as [[HR [Hpl Hd]] _].
  unfold resolve, mbind, St_bind, gets, lift_result. rewrite Hr.
  replace (walk (w_fs w) max_links true [] (parts p)) with (Ok (parts p) : result location).
  - simpl. unfold node_of, gets. simpl. replace (node_at (w_fs w) (parts p)) with (Some NDir); [done|].
    unfold node_at. case_bool_decide; [done|]. symmetry. by apply Hd.
  - assert (Hreal : real (w_fs w) (parts p)).
    { split; [intros Hin; apply Hpl; destruct Hp as [k ->]; apply elem_of_app; by left|]. intros q Hq Hqp. apply Hd; [done|]. by trans (parts p). }
    rewrite <-(app_nil_r (parts p)) at 2. by rewrite walk_real, walk_nil.
Qed.

Lemma confined_MkdirAll p : under R p → confined R (MkdirAll p).
Proof.
  intros (l & Hr & Hp & Hl). apply confined_for_each. intros a Ha. unfold ancestors in Ha.
  apply list_elem_of_fmap in Ha as (i & -> & _). rewrite Hp.
  destruct (decide (S i ≤ length R)%nat).
  - apply confined_mkdir_above; [done|]. simpl. rewrite take_app_le by lia. apply prefix_take.
  - apply confined_mkdir. exists (take (S i - length R) l). simpl. split_and!; [done| |].
    + rewrite take_app_ge by lia. done.
    + intros Hin. apply Hl. rewrite <-(take_drop (S i - length R) l), elem_of_app. by left.
Qed.

Lemma confined_MkdirTemp dir prefix :
  under R dir → (∀ name, prefix +:+ name ≠ "..") → confined R (MkdirTemp dir prefix).
Proof.
  intros (l & Hr & Hp & Hl) Hpre. apply confined_syscall, confined_bind; [apply confined_gets|]. intros names.
  induction names as [|name rest IH]; [apply confined_fail|].
  apply confined_bind; [by apply confined_modify|]. intros _.
  eapply (confined_at _ _ _ (λ _ q, R `prefix_of` q)).
  { intros fs here q Hs. apply (walk_under fs R); [done|]. exists (l ++ [prefix +:+ name]). simpl.
    split_and!; [done|by rewrite Hp, <-app_assoc|]. intros [Hin|Hin]%elem_of_app; [done|].
    apply list_elem_of_singleton in Hin. by eapply Hpre. }
  intros q w Hs Hq. unfold node_of, gets, mbind, St_bind. simpl.
  destruct (node_at (w_fs w) q) eqn:E; [by apply IH|]. simpl. apply safe_insert; [done..| |done].
  eapply not_dir_not_R; [done|]. by rewrite E.
Qed.

Lemma confined_Remove p : strictly_under R p → confined R (Remove p).
Proof.
  intros Hu. apply confined_syscall.
  eapply (confined_at _ _ _ (λ _ q, R `prefix_of` q ∧ q ≠ R)); [intros; by eapply walk_strictly_under|].
  intros q w Hs [Hq Hne]. unfold node_of, mbind, St_bind, gets. simpl.
  destruct (node_at (w_fs w) q) as [[]|]; try done; [by apply safe_delete|by case_match; [|apply safe_delete]|by apply safe_delete].
Qed.

Lemma confined_RemoveAll p : strictly_under R p → confined R (RemoveAll p).
Proof.
  intros Hu. apply confined_syscall. intros w Hs. unfold mbind, St_bind, gets, id.
  destruct (walk _ _ _ _ _) as [q|e] eqn:E.
  - pose proof (walk_strictly_under _ _ _ _ _ _ Hs Hu E) as [Hq Hne]. destruct q; [done|]. by apply safe_prune.
  - by case_bool_decide.
Qed.

Lemma confined_Symlink t p : under R p → descends t → confined R (Symlink t p).
Proof.
  intros Hu Ht. apply confined_syscall.
  eapply (confined_at _ _ _ (λ _ q, R `prefix_of` q)); [intros; by eapply walk_under|].
  intros q w Hs Hq. unfold node_of, mbind, St_bind, gets. simpl.
  destruct (node_at (w_fs w) q) eqn:E; [done|]. simpl. apply safe_insert; [done..| |by intros ? [= <-]].
  eapply not_dir_not_R; [done|]. by rewrite E.
Qed.

Lemma confined_Chtimes p t : under R p → confined R (Chtimes p t).
Proof.
  intros Hu. apply confined_syscall.
  eapply (confined_at _ _ _ (λ _ q, R `prefix_of` q)); [intros; by eapply walk_under|].
  intros q w Hs Hq. unfold node_of, mbind, St_bind, gets. simpl.
  destruct (node_at (w_fs w) q) as [[]|] eqn:E; try done. simpl. apply safe_insert; [done..| |done].
  eapply not_dir_not_R; [done|]. by rewrite E.
Qed.

Lemma confined_Rename device p q : strictly_under R p → strictly_under R q → confined R (Rename device p q).
Proof.
  intros Hp Hq. apply confined_syscall.
  eapply (confined_at _ _ _ (λ _ q, R `prefix_of` q ∧ q ≠ R)); [intros fs here x Hs Hw; exact (walk_strictly_under _ _ _ _ _ _ Hs Hp Hw)|].
  intros src w Hs [Hsrc Hne]. revert w Hs.
  apply confined_bind; [apply confined_gets|]. intros n.
  eapply (confined_at _ _ _ (λ _ q, R `prefix_of` q ∧ q ≠ R)); [intros fs here x Hs Hw; exact (walk_strictly_under _ _ _ _ _ _ Hs Hq Hw)|].
  intros dest w Hs [Hd Hdne]. unfold node_of, mbind, St_bind, gets. simpl.
  destruct n as [n|]; [|done]. repeat case_match; try done; by apply safe_relocate.
Qed.
End confined.

#[export] Hint Resolve confined_ret confined_fail confined_gets confined_lift confined_option confined_guard
  confined_Stat confined_Chmod confined_Open confined_read_all confined_ReadFile confined_http confined_ReadDir confined_copy_from
  confined_write_all confined_copy_file confined_WriteFile confined_open_write confined_MkdirAll confined_Symlink
  confined_Chtimes confined_Remove confined_RemoveAll confined_Rename : confined.

(** Walk through a function body; what is left are the paths. *)
Ltac confine :=
  repeat match goal with
  | |- confined _ (wrap _ (open_write _ _) ≫= _) => apply confined_open_bind; [|intros ? ?]
  | |- confined _ (open_write _ _ ≫= _) => apply confined_create_bind; [|intros ? ?]
  | |- confined _ (Create _ ≫= _) => apply confined_create_bind; [|intros ? ?]
  | |- confined _ (wrap _ (Create _) ≫= _) => apply confined_open_bind; [|intros ? ?]
  | |- confined _ (mbind _ _) => apply confined_bind; [|intros ?]
  | |- confined _ (wrap _ _) => apply confined_wrap
  | |- confined _ (ignore_err _) => apply confined_ignore
  | |- confined _ (try _) => apply confined_try
  | |- confined _ (match ?x with _ => _ end) => destruct x eqn:?
  | |- confined _ _ => solve [eauto 3 with confined]
  end.

(** ** Directories without links

    Where there are no links a path names its own location. *)
Definition nolinks (R : location) (fs : files) : Prop :=
  (R ≠ [] ∧ real fs R) ∧ ∀ p t, R `prefix_of` p → fs !! p ≠ Some (NLink t).

Lemma nolinks_safe R fs : nolinks R fs → safe R fs.
Proof. intros [HR Hl]. split; [done|]. intros p t Hp H. by apply Hl in H. Qed.

Lemma walk_nolinks R fs n f here l q :
  nolinks R fs → R `prefix_of` here → plain l → walk fs n f here l = Ok q → q = here ++ l.
Proof.
  intros [_ Hl]. revert here. induction l as [|c l IH]; intros here Hh Hp Hw.
  { rewrite walk_nil in Hw. injection Hw as <-. by rewrite app_nil_r. }
  unfold plain in Hp. rewrite not_elem_of_cons in Hp. destruct Hp as [Hc Hp].
  assert (Hpre : R `prefix_of` here ++ [c]) by by apply prefix_app_r.
  rewrite walk_cons in Hw. destruct (String.eqb_spec c ".."); [by subst|]. cbv zeta in Hw.
  destruct (fs !! (here ++ [c])) as [[]|] eqn:E; [|..|].
  - destruct l; [by injection Hw as <-|done].
  - apply IH in Hw; [|done..]. by rewrite Hw, <-app_assoc.
  - by apply Hl in E.
  - destruct l; [by injection Hw as <-|done].
Qed.

Lemma walk_under_nolinks R fs p n f here q :
  nolinks R fs → under R p → walk fs n f (if rooted p then [] else here) (parts p) = Ok q → q = parts p.
Proof.
  intros Hn (l & Hr & Hp & Hl) Hw. rewrite Hr, Hp in Hw. rewrite walk_real in Hw by apply Hn.
  apply walk_nolinks with (R := R) in Hw; [|done..]. by rewrite Hw, Hp.
Qed.

(** An entry of a real directory that is not a link resolves to itself. *)
Lemma walk_child fs n f R c :
  real fs R → c ≠ ".." → (∀ t, fs !! (R ++ [c]) ≠ Some (NLink t)) → walk fs n f [] (R ++ [c]) = Ok (R ++ [c]).
Proof.
  intros Hr Hc Hl. rewrite walk_real by done. rewrite walk_cons. destruct (String.eqb_spec c ".."); [done|]. cbv zeta.
  destruct (fs !! (R ++ [c])) as [[]|] eqn:E; [done|by rewrite walk_nil|exfalso; by eapply Hl|done].
Qed.

(** *** Runs without faults *)

Lemma syscall_nofault {A} (m : IO A) w : w_faults w = [] → syscall m w = m w.
Proof. intros H. unfold syscall, next_fault, mbind, St_bind. by rewrite H. Qed.

Section child.
Context (R : location) (c : string) (w : World).
Context (Hreal : real (w_fs w) R) (Hc : c ≠ "..") (Hnf : w_faults w = []).
Let p : Path := {| rooted := true; parts := R ++ [c] |}.

Lemma resolve_child f : (∀ t, w_fs w !! (R ++ [c]) ≠ Some (NLink t)) → resolve f p w = (Ok (R ++ [c]), w).
Proof. intros Hl. apply resolve_ok. split; [|done]. by apply walk_child. Qed.

Lemma node_at_child : node_at (w_fs w) (R ++ [c]) = w_fs w !! (R ++ [c]).
Proof. unfold node_at. rewrite bool_decide_false; [done|]. by destruct R. Qed.

Lemma ReadFile_child data t : w_fs w !! (R ++ [c]) = Some (NFile data t) → ReadFile p w = (Ok data, w).
Proof.
  intros E. unfold ReadFile, Open. unfold mbind at 1, St_bind at 1. rewrite syscall_nofault by done.
  unfold mbind at 1, St_bind at 1. rewrite resolve_child by (intros ?; by rewrite E).
  unfold node_of, gets, mbind, St_bind. rewrite node_at_child, E. cbn [of_option mret St_ret].
  unfold read_all. rewrite syscall_nofault by done. unfold node_of, gets, mbind, St_bind. by rewrite node_at_child, E.
Qed.

Lemma WriteFile_child data :
  w_fs w !! (R ++ [c]) = None ∨ (∃ d t, w_fs w !! (R ++ [c]) = Some (NFile d t)) →
  WriteFile p data w = (Ok tt, w <| w_fs ::= <[R ++ [c] := NFile data (w_now w)]> |>).
Proof.
  intros Hn. unfold WriteFile, Create, open_write. unfold mbind at 1, St_bind at 1. rewrite syscall_nofault by done.
  unfold mbind at 1, St_bind at 1.
  rewrite resolve_child by (intros ? E; destruct Hn as [E'|(? & ? & E')]; by rewrite E' in E).
  unfold node_of, gets, mbind, St_bind. rewrite node_at_child.
  destruct Hn as [->|(d & t & ->)]; unfold set_fs, modify; cbn [mret St_ret];
    unfold write_all, next_fault, mbind, St_bind, gets; simpl; rewrite Hnf; unfold set_fs, modify, append_to; simpl;
    rewrite lookup_insert_eq, insert_insert_eq; by destruct w.
Qed.
End child.

Lemma MkdirAll_real R p w :
  real (w_fs w) R → w_faults w = [] → rooted p = true → parts p `prefix_of` R → MkdirAll p w = (Ok tt, w).
Proof.
  intros [HR Hd] Hnf Hr Hp. unfold MkdirAll.
  assert (Hall : Forall (λ a, rooted a = true ∧ parts a `prefix_of` R) (ancestors p)).
  { apply Forall_forall. intros a Ha. unfold ancestors in Ha. apply list_elem_of_fmap in Ha as (i & -> & _).
    split; [done|]. trans (parts p); [apply prefix_take|done]. }
  induction Hall as [|a l [Har Hap] _ IH]; [done|]. cbn [for_each]. unfold mbind at 1, St_bind at 1.
  unfold mkdir_if_missing. rewrite syscall_nofault by done. unfold mbind at 1, St_bind at 1.
  assert (Hreal : real (w_fs w) (parts a)).
  { split; [|intros q Hq Hqp; apply Hd; [done|by trans (parts a)]].
    intros Hin. apply HR. destruct Hap as [k ->]. apply elem_of_app. by left. }
  assert (resolve true a w = (Ok (parts a), w)) as ->.
  { apply resolve_ok. split; [|done]. rewrite Har, <-(app_nil_r (parts a)) at 1. by rewrite walk_real, walk_nil. }
  unfold node_of, gets, mbind, St_bind.
  replace (node_at (w_fs w) (parts a)) with (Some NDir); [apply IH|].
  unfold node_at. case_bool_decide; [done|]. symmetry. by apply Hd.
Qed.

(** ** Entries of real directories *)

Lemma syscall_cases {A} (m : IO A) w r w' :
  syscall m w = (r, w') →
  (∃ e, r = Err e ∧ w_fs w' = w_fs w) ∨ (∃ faults, m (w <| w_faults := faults |>) = (r, w')).
Proof.
  unfold syscall, next_fault, mbind, St_bind. destruct w as [fs cwd now faults replies requests names]. simpl.
  destruct faults as [|[k|] faults]; simpl; [by right; exists []| |by right; exists faults].
  intros [= <- <-]. left. by eexists.
Qed.

(** An entry [c] of the directory [R], lexically. *)
Definition entry (R : location) (c : string) : Path := {| rooted := true; parts := R ++ [c] |}.

Lemma walk_entry fs n R c : real fs R → c ≠ ".." → walk fs n false [] (R ++ [c]) = Ok (R ++ [c]).
Proof.
  intros Hr Hc. rewrite walk_real by done. rewrite walk_cons. destruct (String.eqb_spec c ".."); [done|]. cbv zeta.
  destruct (fs !! (R ++ [c])) as [[]|] eqn:E; [done|by rewrite walk_nil|done|done].
Qed.

Lemma node_at_entry fs (R : location) c : node_at fs (R ++ [c]) = fs !! (R ++ [c]).
Proof. unfold node_at. rewrite bool_decide_false; [done|]. by destruct R. Qed.

Lemma resolve_entry R c w : real (w_fs w) R → c ≠ ".." → resolve false (entry R c) w = (Ok (R ++ [c]), w).
Proof. intros Hr Hc. apply resolve_ok. split; [|done]. by apply walk_entry. Qed.

Section rename_entry.
Context (device : location → nat) (P Q : location) (a b : string).

Lemma Rename_entry w :
  real (w_fs w) P → real (w_fs w) Q → a ≠ ".." → b ≠ ".." →
  w_faults w = [] →
  Rename device (entry P a) (entry Q b) w =
    match w_fs w !! (P ++ [a]), w_fs w !! (Q ++ [b]) with
    | None, _ => (Err ENOENT, w)
    | _, Some NDir => (Err EEXIST, w)
    | Some n, m =>
        if bool_decide (P ++ [a] = Q ++ [b]) then (Ok tt, w)
        else if below (P ++ [a]) (Q ++ [b]) then (Err EINVAL, w)
        else if bool_decide (n = NDir) && bool_decide (is_Some m) then (Err ENOTDIR, w)
        else if negb (Nat.eqb (device (P ++ [a])) (device (Q ++ [b]))) then (Err EXDEV, w)
        else (Ok tt, w <| w_fs ::= relocate (P ++ [a]) (Q ++ [b]) |>)
    end.
Proof.
  intros HP HQ Ha Hb Hnf. unfold Rename. rewrite syscall_nofault by done.
  unfold mbind at 1, St_bind at 1. rewrite resolve_entry by done. unfold node_of, gets. unfold mbind at 1, St_bind at 1.
  unfold mbind at 1, St_bind at 1. rewrite resolve_entry by done. unfold mbind at 1, St_bind at 1.
  rewrite !node_at_entry. repeat case_match; done.
Qed.

Lemma Rename_entry_cases w r w' :
  real (w_fs w) P → real (w_fs w) Q → a ≠ ".." → b ≠ ".." → P ++ [a] ≠ Q ++ [b] →
  Rename device (entry P a) (entry Q b) w = (r, w') →
  (∃ e, r = Err e ∧ w_fs w' = w_fs w) ∨
  (r = Ok tt ∧ w_fs w' = relocate (P ++ [a]) (Q ++ [b]) (w_fs w) ∧ device (P ++ [a]) = device (Q ++ [b]) ∧
   is_Some (w_fs w !! (P ++ [a])) ∧ ¬ (P ++ [a]) `prefix_of` (Q ++ [b])).
Proof.
  intros HP HQ Ha Hb Hne [?|(faults & H)]%syscall_cases; [by left|].
  unfold mbind at 1, St_bind at 1 in H. rewrite resolve_entry in H by done. unfold node_of, gets in H.
  unfold mbind at 1, St_bind at 1 in H. unfold mbind at 1, St_bind at 1 in H. rewrite resolve_entry in H by done.
  unfold mbind at 1, St_bind at 1 in H. rewrite !node_at_entry in H. cbn [w_fs upd_field] in H.
  destruct (w_fs w !! (P ++ [a])) as [n|]; [|injection H as <- <-; left; eexists; split; reflexivity].
  rewrite bool_decide_false in H by done.
  destruct (below (P ++ [a]) (Q ++ [b])) eqn:Eb;
    [repeat case_match; injection H as <- <-; left; eexists; split; reflexivity|].
  apply below_false in Eb.
  destruct (bool_decide (n = NDir) && _);
    [repeat case_match; injection H as <- <-; left; eexists; split; reflexivity|].
  destruct (Nat.eqb_spec (device (P ++ [a])) (device (Q ++ [b]))); cbn [negb] in H;
    [|repeat case_match; injection H as <- <-; left; eexists; split; reflexivity].
  destruct (w_fs w !! (Q ++ [b])) as [[]|]; injection H as <- <-;
    first [left; eexists; split; reflexivity|right; by split_and!].
Qed.
End rename_entry.

Lemma Remove_entry_cases P a w r w' :
  real (w_fs w) P → a ≠ ".." → Remove (entry P a) w = (r, w') →
  w_fs w' = w_fs w ∨ w_fs w' = delete (P ++ [a]) (w_fs w).
Proof.
  intros HP Ha [(e & _ & ?)|(faults & H)]%syscall_cases; [by left|].
  unfold mbind at 1, St_bind at 1 in H. rewrite resolve_entry in H by done. unfold node_of, gets in H.
  unfold mbind at 1, St_bind at 1 in H. unfold mbind at 1, St_bind at 1 in H. rewrite node_at_entry in H. cbn [w_fs upd_field] in H.
  destruct (w_fs w !! (P ++ [a])) as [[]|]; [..|by injection H as <- <-; left].
  - injection H as <- <-. by right.
  - destruct (_ || _); injection H as <- <-; [by left|by right].
  - injection H as <- <-. by right.
Qed.

(** ** What a successful call did *)

Lemma next_fault_ok w f w' : next_fault w = (Ok f, w') → w_fs w' = w_fs w ∧ w_now w' = w_now w.
Proof. unfold next_fault. destruct (w_faults w); by intros [= <- <-]. Qed.

Lemma Open_ok p w q w' :
  Open p w = (Ok q, w') →
  w_fs w' = w_fs w ∧ walk (w_fs w) max_links true (if rooted p then [] else w_cwd w) (parts p) = Ok q ∧
  is_Some (node_at (w_fs w) q).
Proof.
  intros (faults & H)%syscall_ok. apply bind_ok in H as (q' & w1 & [Hw ->]%resolve_ok & H).
  unfold node_of in H. run_inv. split_and!; [done|done|by eexists].
Qed.

Lemma read_all_ok q w d w' :
  read_all q w = (Ok d, w') →
  w_fs w' = w_fs w ∧ ((∃ t, node_at (w_fs w) q = Some (NFile d t)) ∨ node_at (w_fs w) q = None).
Proof.
  intros (faults & H)%syscall_ok. unfold node_of in H.
  apply bind_ok in H as (n & w1 & [-> ->]%gets_ok & H). simpl in H.
  destruct (node_at (w_fs w) q) as [[data t| |]|]; run_inv; (split; [done|]); [left; by eexists|by right].
Qed.

Lemma Stat_ok p w n w' :
  Stat p w = (Ok n, w') →
  w_fs w' = w_fs w ∧ ∃ q, walk (w_fs w) max_links true (if rooted p then [] else w_cwd w) (parts p) = Ok q ∧
    node_at (w_fs w) q = Some n.
Proof.
  intros (faults & H)%syscall_ok. apply bind_ok in H as (q' & w1 & [Hw ->]%resolve_ok & H).
  unfold node_of in H. run_inv. split; [done|]. by eexists.
Qed.

Lemma write_all_ok q d w u w' :
  write_all q d w = (Ok u, w') → w_fs w' = append_to q d (w_now w) (w_fs w) ∧ w_now w' = w_now w.
Proof.
  unfold write_all. intros H. apply bind_ok in H as (f & w1 & Hf%next_fault_ok & H). destruct Hf as [Hfs Hnow].
  apply bind_ok in H as (now & w2 & [-> ->]%gets_ok & H). destruct f as [n|]; unfold set_fs in H.
  - apply bind_ok in H as (? & ? & _ & []%fail_ok).
  - apply modify_ok in H. subst w'. simpl. by rewrite Hfs, Hnow.
Qed.

Lemma copy_from_ok q d c w u w' :
  copy_from q d c w = (Ok u, w') → w_fs w' = append_to q d (w_now w) (w_fs w) ∧ c = true.
Proof.
  intros H. apply bind_ok in H as (? & w1 & Hw%write_all_ok & [-> ->]%guard_ok). by destruct Hw as [-> _].
Qed.

Lemma Create_ok R p w q w' :
  nolinks R (w_fs w) → under R p → Create p w = (Ok q, w') →
  q = parts p ∧ w_fs w' = <[q := NFile "" (w_now w)]> (w_fs w) ∧ w_now w' = w_now w ∧ q ≠ R ∧ w_cwd w' = w_cwd w.
Proof.
  intros Hn Hu (faults & H)%syscall_ok. apply bind_ok in H as (q' & w1 & [Hw ->]%resolve_ok & H). simpl in Hw.
  pose proof (walk_under_nolinks _ _ _ _ _ _ _ Hn Hu Hw) as ->.
  unfold node_of in H. apply bind_ok in H as (n & w1 & [-> ->]%gets_ok & H).
  apply bind_ok in H as (now & w1 & [-> ->]%gets_ok & H). simpl in H.
  assert (HR : node_at (w_fs w) R = Some NDir).
  { destruct Hn as [[HR [_ Hd]] _]. unfold node_at. rewrite bool_decide_false by done. by apply Hd. }
  destruct (node_at (w_fs w) (parts p)) as [[d t| |]|] eqn:E; unfold set_fs in H; run_inv;
    (split_and!; [done..| |done]; intros Hpar; by rewrite Hpar, HR in E).
Qed.

Lemma ask_fs s w : w_fs (ask s w).2 = w_fs w.
Proof. unfold ask, mbind, St_bind, modify, gets. simpl. by destruct (w_replies w). Qed.

Lemma http_get_fs url o w : w_fs (http_get url o w).2 = w_fs w.
Proof. apply ask_fs. Qed.

(** A file created and written holds what was written. *)
Lemma create_write R p w q w1 d u w' :
  nolinks R (w_fs w) → under R p → Create p w = (Ok q, w1) → write_all q d w1 = (Ok u, w') →
  w_fs w' = <[parts p := NFile d (w_now w)]> (w_fs w) ∧ parts p ≠ R.
Proof.
  intros Hn Hu Hc Hw. apply (Create_ok R) in Hc as (-> & Hfs & Hnow & Hne & _); [|done..].
  apply write_all_ok in Hw as [Hw _]. split; [|done].
  rewrite Hw, Hfs, Hnow. unfold append_to. by rewrite lookup_insert_eq, insert_insert_eq.
Qed.

Lemma nolinks_insert R fs p n :
  nolinks R fs → R `prefix_of` p → p ≠ R → (∀ t, n ≠ NLink t) → nolinks R (<[p:=n]> fs).
Proof.
  intros [[HR Hreal] Hl] Hp Hne Hn. split; [split; [done|]|].
  - destruct Hreal as [HRp Hd]. split; [done|].
    intros q Hq HqR. rewrite lookup_insert_ne; [by apply Hd|]. intros <-. by apply Hne, prefix_antisym.
  - intros k t Hk. destruct (decide (k = p)) as [->|?].
    + rewrite lookup_insert_eq. intros [= E]. by apply (Hn t).
    + rewrite lookup_insert_ne by done. by apply Hl.
Qed.

(** Making directories only adds directories where there was nothing. *)
Lemma mkdir_ok (P : files → Prop) p w u w' :
  (∀ fs q, P fs → node_at fs q = None → P (<[q:=NDir]> fs)) →
  mkdir_if_missing p w = (Ok u, w') → P (w_fs w) → P (w_fs w').
Proof.
  intros HP (faults & H)%syscall_ok Hw. apply bind_ok in H as (q & w1 & [_ ->]%resolve_ok & H).
  unfold node_of in H. apply bind_ok in H as (n & w1 & [-> ->]%gets_ok & H). simpl in H.
  destruct (node_at (w_fs w) q) as [[]|]; run_inv; [done|].
  unfold resolve, set_fs in *. run_inv. simpl in *. case_match; run_inv. simpl. by apply HP.
Qed.

Lemma MkdirAll_ok (P : files → Prop) p w u w' :
  (∀ fs q, P fs → node_at fs q = None → P (<[q:=NDir]> fs)) →
  MkdirAll p w = (Ok u, w') → P (w_fs w) → P (w_fs w').
Proof.
  intros HP. unfold MkdirAll. generalize (ancestors p). intros l. revert w.
  induction l as [|a l IH]; intros w H Hw; simpl in H; [by run_inv|].
  apply bind_ok in H as (? & w1 & H1 & H). eapply IH; [exact H|]. by eapply mkdir_ok.
Qed.

Lemma MkdirAll_above_fs R p w : real (w_fs w) R → rooted p = true → parts p `prefix_of` R → w_fs (MkdirAll p w).2 = w_fs w.
Proof.
  intros HR Hr Hp. unfold MkdirAll.
  assert (Hall : Forall (λ a, rooted a = true ∧ parts a `prefix_of` R) (ancestors p)).
  { apply Forall_forall. intros a Ha. unfold ancestors in Ha. apply list_elem_of_fmap in Ha as (i & -> & _).
    split; [done|]. trans (parts p); [apply prefix_take|done]. }
  revert w HR. induction Hall as [|a l [Har Hap] _ IH]; intros w HR; [done|]. cbn [for_each].
  assert (Hone : w_fs (mkdir_if_missing a w).2 = w_fs w).
  { destruct (mkdir_if_missing a w) as [r w1] eqn:E. apply syscall_cases in E as [(e & _ & ?)|(faults & H)]; [done|]. simpl.
    unfold mbind at 1, St_bind at 1 in H.
    assert (Hreal : real (w_fs w) (parts a)).
    { destruct HR as [HR Hd]. split; [|intros q Hq Hqp; apply Hd; [done|by trans (parts a)]].
      intros Hin. apply HR. destruct Hap as [k ->]. apply elem_of_app. by left. }
    assert (resolve true a (w <| w_faults := faults |>) = (Ok (parts a), w <| w_faults := faults |>)) as Hres.
    { apply resolve_ok. split; [|done]. rewrite Har, <-(app_nil_r (parts a)) at 1. by rewrite walk_real, walk_nil. }
    rewrite Hres in H. unfold node_of, gets, mbind, St_bind in H. cbn [w_fs upd_field] in H.
    replace (node_at (w_fs w) (parts a)) with (Some NDir) in H; [by injection H as <- <-|].
    unfold node_at. case_bool_decide; [done|]. symmetry. by apply Hreal. }
  unfold mbind, St_bind. destruct (mkdir_if_missing a w) as [[|] w1]; simpl in *; [|done].
  rewrite IH; [done|]. by rewrite Hone.
Qed.

(** ** Trees that change elsewhere *)

Lemma real_shrink fs fs' R :
  real fs R → (∀ q, q ≠ [] → q `prefix_of` R → fs' !! q = fs !! q) → real fs' R.
Proof. intros [HR Hd] H. split; [done|]. intros q Hq Hqp. rewrite H by done. by apply Hd. Qed.

Lemma real_relocate fs src dest R :
  real fs R → ¬ src `prefix_of` R → ¬ dest `prefix_of` R → real (relocate src dest fs) R.
Proof.
  intros HR Hs Hd. apply (real_shrink fs); [done|]. intros q _ Hq. rewrite lookup_relocate.
  assert (below dest q = false) as -> by (apply below_false; intros ?; apply Hd; by trans q).
  assert (below src q = false) as -> by (apply below_false; intros ?; apply Hs; by trans q). done.
Qed.

Lemma real_delete fs p R : real fs R → ¬ p `prefix_of` R → real (delete p fs) R.
Proof. intros HR Hp. apply (real_shrink fs); [done|]. intros q _ Hq. rewrite lookup_delete_ne; [done|]. by intros <-. Qed.

Lemma siblings_apart (D : location) a b : a ≠ b → ¬ (D ++ [a]) `prefix_of` (D ++ [b]).
Proof.
  intros Hab [k E]. rewrite <-app_assoc in E. apply app_inv_head in E. by injection E as ->.
Qed.

Lemma prefix_child (k P : location) (a : string) : k `prefix_of` P ++ [a] → k `prefix_of` P ∨ k = P ++ [a].
Proof.
  intros [l E]. destruct l as [|x l _] using rev_ind.
  - right. by rewrite E, app_nil_r.
  - rewrite app_assoc in E. apply app_inj_2 in E as [-> _]; [|done]. left. by eexists.
Qed.

Lemma relocate_dest fs (src dest : location) : relocate src dest fs !! dest = fs !! src.
Proof.
  rewrite lookup_relocate. assert (below dest dest = true) as -> by by apply below_true.
  by rewrite drop_all, app_nil_r.
Qed.
Lemma relocate_src fs (src dest : location) : ¬ dest `prefix_of` src → relocate src dest fs !! src = None.
Proof.
  intros H. rewrite lookup_relocate. assert (below dest src = false) as -> by by apply below_false.
  by assert (below src src = true) as -> by by apply below_true.
Qed.
Lemma relocate_other fs (src dest k : location) :
  ¬ dest `prefix_of` k → ¬ src `prefix_of` k → relocate src dest fs !! k = fs !! k.
Proof.
  intros H1 H2. rewrite lookup_relocate. assert (below dest k = false) as -> by by apply below_false.
  by assert (below src k = false) as -> by by apply below_false.
Qed.

(** What [Stat] of an entry says, when it is answered. *)
Lemma Stat_entry P a w :
  real (w_fs w) P → a ≠ ".." → (∀ t, w_fs w !! (P ++ [a]) ≠ Some (NLink t)) →
  ∃ faults, (Stat (entry P a) w).2 = w <| w_faults := faults |> ∧
    ((∀ k, head (w_faults w) ≠ Some (Some k)) →
     (Stat (entry P a) w).1 = match w_fs w !! (P ++ [a]) with Some n => Ok n | None => Err ENOENT end).
Proof.
  intros HP Ha Hl. unfold Stat, syscall, next_fault. destruct w as [fs cwd now faults replies requests names]. simpl in *.
  pose proof (walk_child fs max_links true P a HP Ha Hl) as Hres.
  destruct faults as [|[k|] faults]; unfold mbind, St_bind; simpl.
  - exists []. rewrite Hres, node_at_entry. by destruct (fs !! (P ++ [a])).
  - exists faults. split; [done|]. intros H. by destruct (H k).
  - exists faults. rewrite Hres, node_at_entry. by destruct (fs !! (P ++ [a])).
Qed.

Lemma Stat_nofault P a w : real (w_fs w) P → a ≠ ".." → w_faults w = [] →
  (∀ t, w_fs w !! (P ++ [a]) ≠ Some (NLink t)) →
  Stat (entry P a) w = (match w_fs w !! (P ++ [a]) with Some n => Ok n | None => Err ENOENT end, w).
Proof.
  intros HP Ha Hnf Hl. unfold Stat. rewrite syscall_nofault by done. unfold mbind at 1, St_bind at 1.
  assert (resolve true (entry P a) w = (Ok (P ++ [a]), w)) as ->.
  { apply resolve_ok. split; [|done]. by apply walk_child. }
  unfold node_of, gets, mbind, St_bind. rewrite node_at_entry. by destruct (w_fs w !! (P ++ [a])).
Qed.
