(* ===== verification/FileURL.v ===== *)
(** * File URLs

    [internal/shared/fileurl]: paths of the operating system from file URLs and back. The
    parser and printer of URLs are those of [net/url], parameters. *)
From stdpp Require Import base strings list.
From Stdlib Require Import ZArith Lia Ascii.
From S2P Require Import Prelude GoStrings FileSystem.

(** The fields of [url.URL] the program reads. *)
Record URL := { url_Scheme : string; url_Host : string; url_Path : string }.

#[export] Instance URL_eq_dec : EqDecision URL.
Proof. solve_decision. Defined.

Definition slash : ascii := "/"%char.
Definition backslash : ascii := "\"%char.

(** [strings.ReplaceAll] of one byte by another. *)
Definition replace_byte (a b : ascii) (s : string) : string :=
  of_bytes ((λ c, if bool_decide (c = a) then b else c) <$> bytes s).

(** [filepath.FromSlash]. *)
Definition FromSlash (goos s : string) : string :=
  if String.eqb goos "windows" then replace_byte slash backslash s else s.

Definition toPathFor (goos : string) (parsed : URL) : string :=
  let host := url_Host parsed in
  if negb (String.eqb host "") && negb (String.eqb host "localhost") then
    if String.eqb goos "windows" then String backslash (String backslash (host +:+ FromSlash goos (url_Path parsed)))
    else path_string (Join (read_path (String slash host)) (url_Path parsed))
  else
    let p := url_Path parsed in
    let p := match bytes p with
             | a :: b :: c :: rest =>
                 if String.eqb goos "windows" && bool_decide (a = slash) && bool_decide (c = ":"%char)
                 then of_bytes (b :: c :: rest) else p
             | _ => p
             end in
    FromSlash goos p.

Definition IsLocalRawURL (parsed : URL) : bool :=
  String.eqb (url_Scheme parsed) "" || Nat.eqb (String.length (url_Scheme parsed)) 1.

Definition is_letter (a : ascii) : bool := between 65 90 (byte_of a) || between 97 122 (byte_of a).

Definition isWindowsDrivePath (filename : string) : bool :=
  match bytes filename with
  | a :: b :: c :: _ => bool_decide (b = ":"%char) && bool_decide (c = slash) && is_letter a
  | _ => false
  end.

(** [path.Clean]. *)
Definition slash_clean (s : string) : string := path_string (Clean (read_path s)).

Section from_path.
Context (url_String : URL → string) (quoted : string → string).
(** [filepath.Abs] on the operating system the program runs on. *)
Context (absolute : string → result string).

Definition format (scheme host p : string) : string :=
  url_String {| url_Scheme := scheme; url_Host := host; url_Path := p |}.

Definition FromPath (filename : string) : result string :=
  if is_blank filename then Err (ErrMsg "file path is required")
  else
    let normalized := replace_byte backslash slash filename in
    if isWindowsDrivePath normalized then Ok (format "file" "" ("/" +:+ slash_clean normalized))
    else if has_prefix normalized "//" then
      let withoutPrefix := of_bytes (drop_while (λ a, bool_decide (a = slash)) (bytes normalized)) in
      let '(host, rest) := default (withoutPrefix, "") (cut slash withoutPrefix) in
      if String.eqb host "" then Err (ErrMsg ("file path " +:+ quoted filename +:+ " has an empty UNC host"))
      else Ok (format "file" host (if String.eqb rest "" then "/" else "/" +:+ slash_clean rest))
    else
      found ← if has_prefix normalized "/" then Ok (inl normalized)
              else match absolute filename with
                   | Err e => Err (ErrWrap "absolute file path" e)
                   | Ok abs =>
                       let normalized := replace_byte backslash slash abs in
                       if isWindowsDrivePath normalized then Ok (inr (format "file" "" ("/" +:+ slash_clean normalized)))
                       else Ok (inl normalized)
                   end;
      match found with
      | inr url => Ok url
      | inl normalized =>
          let normalized := if has_prefix normalized "/" then normalized else "/" +:+ normalized in
          Ok (format "file" "" (slash_clean normalized))
      end.
End from_path.

(** ** Round trip *)

Lemma replace_byte_none a b s : a ∉ bytes s → replace_byte a b s = s.
Proof.
  intros H. unfold replace_byte. rewrite <-(of_bytes_bytes s) at 2. f_equal.
  induction (bytes s) as [|c l IH]; [done|]. rewrite not_elem_of_cons in H. destruct H as [Hc Hl].
  csimpl. rewrite bool_decide_false by congruence. by rewrite IH.
Qed.

(** A rooted path comes back cleaned. *)
Theorem file_url_roundtrip url_String quoted absolute (parse_url : string → option URL) filename :
  (∀ u, parse_url (url_String u) = Some u) →
  has_prefix filename "/" = true → has_prefix filename "//" = false → backslash ∉ bytes filename →
  is_blank filename = false →
  ∃ url u, FromPath url_String quoted absolute filename = Ok url ∧ parse_url url = Some u ∧
    url_Scheme u = "file" ∧ toPathFor "linux" u = slash_clean filename.
Proof.
  intros Hlaw Hp Hpp Hb Hne. unfold FromPath. rewrite Hne, replace_byte_none, Hpp, Hp by done.
  assert (isWindowsDrivePath filename = false) as ->.
  { unfold isWindowsDrivePath, has_prefix in *. destruct filename as [|a s]; [done|].
    destruct a as [[] [] [] [] [] [] [] []]; try done. destruct s as [|b [|c s]]; [done..|]. cbn [bytes].
    apply andb_false_intro2. reflexivity. }
  cbn [mbind result_bind]. rewrite Hp. eexists _, _. split; [reflexivity|]. split; [apply Hlaw|].
  split; [done|]. unfold toPathFor. cbn [url_Host url_Path]. simpl negb. cbn iota.
  destruct (bytes (slash_clean filename)) as [|? [|? [|? ?]]]; reflexivity.
Qed.
