(* ===== verification/Releases.v ===== *)
(** * Releases and the runtime manager

    [internal/node/runtime]: signed release manifests and the choice of an artifact
    ([manifest.go]), the extraction of archives ([archive.go]) and the installation of a
    model runtime with its rollback ([manager.go]). The decoders of JSON, of gzip and tar and
    of zip are parameters, as are Ed25519 and the printing of times. *)
From stdpp Require Import base gmap strings list.
From Stdlib Require Import ZArith Lia Ascii.
From S2P Require Import Prelude GoStrings Sha256 Encoding FileSystem FileURL.

(** ** Release manifests *)

Record SupportArtifact := {
  su_Name : string; su_URL : string; su_SHA256 : string; su_SizeBytes : Z; su_ArchiveType : string
}.

Record RuntimeArtifact := {
  rt_URL : string; rt_SHA256 : string; rt_SizeBytes : Z; rt_ArchiveType : string; rt_ExecutablePath : string;
  rt_SupportArtifacts : list SupportArtifact
}.

Record ManifestSignature := { ms_KeyID : string; ms_Value : string }.

Record ReleaseManifest := {
  rm_SchemaVersion : Z; rm_Engine : string; rm_Version : string; rm_BuildID : string;
  rm_Artifacts : gmap string RuntimeArtifact; rm_Signature : ManifestSignature
}.

Record unsignedReleaseManifest := {
  um_SchemaVersion : Z; um_Engine : string; um_Version : string; um_BuildID : string;
  um_Artifacts : gmap string RuntimeArtifact
}.

Definition unsigned (m : ReleaseManifest) : unsignedReleaseManifest := {|
  um_SchemaVersion := rm_SchemaVersion m; um_Engine := rm_Engine m; um_Version := rm_Version m;
  um_BuildID := rm_BuildID m; um_Artifacts := rm_Artifacts m
|}.

Record InstalledRuntime := {
  ir_Engine : string; ir_Version : string; ir_BuildID : string; ir_PlatformKey : string; ir_Path : string;
  ir_ExecutablePath : string; ir_SHA256 : string; ir_InstalledAt : string
}.

(** What the readers of archives give: the entries in order, and the error they end with. *)
Inductive TarType := TypeDir | TypeReg | TypeSymlink | TypeOther.
Record TarEntry := { te_Name : string; te_Type : TarType; te_Linkname : string; te_Body : string; te_Complete : bool }.
Record ZipEntry := { ze_Name : string; ze_IsDir : bool; ze_Open : result unit; ze_Body : string; ze_Complete : bool }.

(** Libraries the delivery code calls. *)
Class Libraries := {
  ed25519_Verify : list Z → string → list Z → bool;
  marshal_unsigned : unsignedReleaseManifest → result string;
  parse_release : string → result ReleaseManifest;
  marshal_installed : InstalledRuntime → string;
  parse_installed : string → result InstalledRuntime;
  parse_url : string → option URL;
  resolve_reference : string → string → option string;      (* URL.ResolveReference, printed *)
  read_tar_gz : string → result (list TarEntry * option gerror);
  read_zip : string → result (list ZipEntry);
  format_rfc3339 : Z → string;
  quoted : string → string
}.

Definition PublicKeySize : Z := 32.
Definition DefaultRuntimePublicKeyBase64 : string := "/Bgu4fQntQGB6q3j18Z+du1L1/yOzU2/wNmSAQWVCMo=".

Definition VendorNvidia : string := "nvidia".
Definition VendorApple : string := "apple".
Definition BackendCUDA : string := "cuda".
Definition BackendVulkan : string := "vulkan".

Section manifest.
Context `{!Libraries} (lower_table : Z → Z).

Definition ParseReleaseManifest (data source : string) : result ReleaseManifest :=
  match parse_release data with
  | Ok m => Ok m
  | Err e => Err (ErrWrap ("parse runtime manifest " +:+ source) e)
  end.

Definition LoadReleaseManifest (p : Path) : IO ReleaseManifest :=
  data ← wrap ("read runtime manifest " +:+ path_string p) (ReadFile p);
  lift_result (ParseReleaseManifest data (path_string p)).

Definition UnsignedBytes (m : ReleaseManifest) : result string := marshal_unsigned (unsigned m).

Definition VerifySignature (m : ReleaseManifest) (publicKey : list Z) : result unit :=
  let n := Z.of_nat (length publicKey) in
  if negb (n =? PublicKeySize) then
    Err (ErrMsg ("runtime manifest public key has " +:+ itoa n +:+ " bytes, want " +:+ itoa PublicKeySize))
  else match DecodeString Std (ms_Value (rm_Signature m)) with
  | Err e => Err (ErrWrap "decode runtime manifest signature" e)
  | Ok signature =>
      body ← UnsignedBytes m;
      if ed25519_Verify publicKey body signature then Ok tt
      else Err (ErrMsg "runtime manifest signature verification failed")
  end.

Definition DecodePublicKey (encoded : string) : result (list Z) :=
  match DecodeString Std encoded with
  | Err e => Err (ErrWrap "decode runtime public key" e)
  | Ok key =>
      let n := Z.of_nat (length key) in
      if negb (n =? PublicKeySize)
      then Err (ErrMsg ("runtime public key has " +:+ itoa n +:+ " bytes, want " +:+ itoa PublicKeySize))
      else Ok key
  end.

Definition DefaultRuntimePublicKey : result (list Z) := DecodePublicKey DefaultRuntimePublicKeyBase64.

Definition BackendForVendor (vendor : string) : string :=
  let v := to_lower lower_table (trim_space vendor) in
  if String.eqb v VendorNvidia then BackendCUDA
  else if String.eqb v VendorApple then ""
  else BackendVulkan.

Definition ArtifactKeys (platformKey vendor : string) : list string :=
  if String.eqb platformKey "" then []
  else
    let backend := BackendForVendor vendor in
    if String.eqb backend "" then [platformKey] else [platformKey +:+ "/" +:+ backend; platformKey].

(** The loop of [SelectArtifact]. *)
Fixpoint first_artifact (m : ReleaseManifest) (keys : list string) : option (RuntimeArtifact * string) :=
  match keys with
  | [] => None
  | key :: rest =>
      match rm_Artifacts m !! key with
      | Some artifact => Some (artifact, key)
      | None => first_artifact m rest
      end
  end.

Definition SelectArtifact (m : ReleaseManifest) (platformKey vendor : string) : result (RuntimeArtifact * string) :=
  match ArtifactKeys platformKey vendor with
  | [] => Err (ErrMsg "runtime artifact platform key is required")
  | keys =>
      match first_artifact m keys with
      | Some found => Ok found
      | None => Err (ErrMsg ("runtime artifact for platform " +:+ String.concat " or " keys +:+ " is not in manifest"))
      end
  end.
End manifest.

(** ** Archives *)

(** [filepath.Rel] of cleaned paths. *)
Fixpoint rel_parts (base targ : list string) : list string * list string :=
  match base, targ with
  | b :: base', t :: targ' => if String.eqb b t then rel_parts base' targ' else (base, targ)
  | _, _ => (base, targ)
  end.
Definition Rel (base targ : Path) : result Path :=
  if negb (Bool.eqb (rooted base) (rooted targ)) then Err (ErrMsg "Rel: can't make path relative")
  else
    let '(b, t) := rel_parts (parts base) (parts targ) in
    if bool_decide (".." ∈ b) then Err (ErrMsg "Rel: can't make path relative")
    else Ok {| rooted := false; parts := replicate (length b) ".." ++ t |}.

Definition starts_up (p : Path) : bool := match parts p with c :: _ => String.eqb c ".." | [] => false end.

Section archive.
Context `{!Libraries}.

Definition safeJoin (root : Path) (name : string) : result Path :=
  let clean := Clean (read_path name) in
  let refused := Err (ErrMsg ("archive path " +:+ quoted name +:+ " escapes destination")) in
  if escapes clean then refused
  else
    let target := Clean {| rooted := rooted root; parts := parts root ++ parts clean |} in
    rel ← Rel root target;
    if starts_up rel then refused else Ok target.

Definition safeSymlinkTarget (linkDir : Path) (linkName : string) : result Path :=
  let clean := Clean (read_path linkName) in
  let refused := Err (ErrMsg ("archive symlink target " +:+ quoted linkName +:+ " escapes destination")) in
  if escapes clean then refused
  else
    let resolved := Clean {| rooted := rooted linkDir; parts := parts linkDir ++ parts clean |} in
    rel ← Rel linkDir resolved;
    if starts_up rel then refused else Ok clean.

(** The body of the loop of [extractTarGz]. *)
Definition extract_tar_entry (destDir : Path) (header : TarEntry) : IO unit :=
  target ← lift_result (safeJoin destDir (te_Name header));
  match te_Type header with
  | TypeDir => MkdirAll target
  | TypeReg =>
      _ ← MkdirAll (Dir target);
      out ← Create target;
      copy_from out (te_Body header) (te_Complete header)
  | TypeSymlink =>
      linkTarget ← lift_result (safeSymlinkTarget (Dir target) (te_Linkname header));
      _ ← MkdirAll (Dir target);
      _ ← ignore_err (Remove target);
      Symlink linkTarget target
  | TypeOther => mret tt
  end.

(** Reading the archive can fail after any entry. *)
Definition extractTarGz (p destDir : Path) : IO unit :=
  file ← wrap "open tar.gz" (Open p);
  data ← wrap "read gzip" (read_all file);
  stream ← wrap "read gzip" (lift_result (read_tar_gz data));
  cut ← next_fault;
  match cut with
  | None =>
      _ ← for_each (extract_tar_entry destDir) stream.1;
      match stream.2 with None => mret tt | Some e => fail (ErrWrap "read tar" e) end
  | Some n =>
      _ ← for_each (extract_tar_entry destDir) (take n stream.1);
      fail (ErrWrap "read tar" EIO)
  end.

Definition extract_zip_entry (destDir : Path) (file : ZipEntry) : IO unit :=
  target ← lift_result (safeJoin destDir (ze_Name file));
  if ze_IsDir file then MkdirAll target
  else
    _ ← MkdirAll (Dir target);
    _ ← lift_result (ze_Open file);
    out ← Create target;
    copy_from out (ze_Body file) (ze_Complete file).

Definition extractZip (p destDir : Path) : IO unit :=
  file ← wrap "open zip" (Open p);
  data ← wrap "open zip" (read_all file);
  entries ← wrap "open zip" (lift_result (read_zip data));
  for_each (extract_zip_entry destDir) entries.

Definition extractArtifact (archivePath : Path) (archiveType : string) (destDir : Path) : IO unit :=
  if String.eqb archiveType "tar.gz" then extractTarGz archivePath destDir
  else if String.eqb archiveType "zip" then extractZip archivePath destDir
  else fail (ErrMsg ("unsupported runtime archive type " +:+ quoted archiveType)).

Definition copyBinaryArtifact (src dest : Path) : IO unit :=
  _ ← MkdirAll (Dir dest);
  input ← Open src;
  out ← Create dest;
  data ← read_all input;
  write_all out data.
End archive.

(** ** Downloads *)

(** [os.Open] of a local file, [os.Create], [io.Copy]. *)
Definition copyLocalFile : Path → Path → IO unit :=
  copy_file "open local runtime artifact" "create runtime artifact temp file" "copy local runtime artifact".

Definition hash_hex (data : string) : string := hex_encode (sum256 (string_bytes data)).

(** The comparison of size and hash all three verifiers make. *)
Definition size_matches (data : string) (expectedSize : Z) : bool :=
  negb ((0 <? expectedSize) && negb (Z.of_nat (String.length data) =? expectedSize)).

Definition verifyFile (p : Path) (expectedSHA256 : string) (expectedSize : Z) : IO unit :=
  file ← wrap "open artifact for verification" (Open p);
  data ← wrap "hash artifact" (read_all file);
  _ ← guard_err (size_matches data expectedSize)
        (ErrMsg ("artifact size = " +:+ itoa (Z.of_nat (String.length data)) +:+ ", want " +:+ itoa expectedSize));
  let expected := trim_prefix expectedSHA256 "sha256:" in
  guard_err (String.eqb (hash_hex data) expected)
    (ErrMsg ("artifact sha256 = " +:+ hash_hex data +:+ ", want " +:+ expected)).

(** [strings.NewReplacer("/", "_", "\", "_", ":", "_", "..", "_")]. *)
Fixpoint safe_bytes (l : list ascii) : list ascii :=
  match l with
  | [] => []
  | a :: l1 =>
      if bool_decide (a = slash) || bool_decide (a = backslash) || bool_decide (a = ":"%char) then "_"%char :: safe_bytes l1
      else match l1 with
           | b :: l2 => if bool_decide (a = "."%char) && bool_decide (b = "."%char) then "_"%char :: safe_bytes l2
                        else a :: safe_bytes l1
           | [] => [a]
           end
  end.
Definition safePathPart (value : string) : string := of_bytes (safe_bytes (bytes value)).

(** ** The manager *)

Record RuntimeManager := { mg_Root : string; mg_PublicKey : list Z; mg_PlatformKey : string; mg_GPUVendor : string }.

Section manager.
Context `{!Libraries} (lower_table : Z → Z) (device : location → nat).
(** [runtime.GOOS] and [runtime.GOARCH]. *)
Context (goos goarch : string).

Definition downloadFile (rawurl : string) (dest : Path) : IO unit :=
  let request :=
    reply ← http_get rawurl 0;
    match reply with
    | NoReply => fail (ErrMsg "download runtime artifact")
    | Answer status body complete =>
        _ ← guard_err (status =? 200) (ErrMsg ("download runtime artifact: HTTP " +:+ itoa status));
        out ← wrap "create runtime artifact temp file" (Create dest);
        wrap "write runtime artifact temp file" (copy_from out body complete)
    end in
  match parse_url rawurl with
  | None => fail (ErrMsg "create runtime download request")
  | Some parsed =>
      if String.eqb (url_Scheme parsed) "file" then copyLocalFile (read_path (toPathFor goos parsed)) dest
      else if IsLocalRawURL parsed then copyLocalFile (read_path rawurl) dest
      else request
  end.

Definition writeJSON (p : Path) (value : InstalledRuntime) : IO unit :=
  _ ← MkdirAll (Dir p);
  WriteFile p (marshal_installed value +:+ of_bytes [char_of 10]).

Definition readInstalledFile (p : Path) : IO (option InstalledRuntime) :=
  data ← try (ReadFile p);
  mret (match data with
        | Err _ => None
        | Ok data =>
            match parse_installed data with
            | Err _ => None
            | Ok installed => if String.eqb (ir_ExecutablePath installed) "" then None else Some installed
            end
        end).

Definition readInstalled (dir : Path) : IO (option InstalledRuntime) := readInstalledFile (Join dir ".thirdshift-runtime.json").
Definition readCurrent (root : Path) : IO (option InstalledRuntime) := readInstalledFile (Join root "current.json").

(** The loop over the support artifacts. *)
Definition install_support (tmpDir extractDir : Path) (idx : nat) (support : SupportArtifact) : IO unit :=
  let base := "support-" +:+ itoa (Z.of_nat idx) in
  let supportPath := Join tmpDir base in
  _ ← downloadFile (su_URL support) supportPath;
  _ ← verifyFile supportPath (su_SHA256 support) (su_SizeBytes support);
  if String.eqb (su_ArchiveType support) "" || String.eqb (su_ArchiveType support) "binary" then
    let name := if String.eqb (su_Name support) "" then base else su_Name support in
    copyBinaryArtifact supportPath (Join extractDir (Base name))
  else extractArtifact supportPath (su_ArchiveType support) extractDir.

Definition install_supports (tmpDir extractDir : Path) (l : list SupportArtifact) : IO unit :=
  for_each (λ numbered, install_support tmpDir extractDir numbered.1 numbered.2) (zip (seq 0 (length l)) l).

(** From the download into the temporary directory to the two records. *)
Definition install (m : RuntimeManager) (manifest : ReleaseManifest) (artifact : RuntimeArtifact)
    (platformKey : string) (root targetDir tmpDir : Path) : IO InstalledRuntime :=
  let downloadPath := Join tmpDir "artifact" in
  _ ← downloadFile (rt_URL artifact) downloadPath;
  _ ← verifyFile downloadPath (rt_SHA256 artifact) (rt_SizeBytes artifact);
  let extractDir := Join tmpDir "extract" in
  _ ← wrap "create extract dir" (MkdirAll extractDir);
  let execPath := Join extractDir (FromSlash goos (rt_ExecutablePath artifact)) in
  _ ← (if String.eqb (rt_ArchiveType artifact) "" || String.eqb (rt_ArchiveType artifact) "binary"
       then copyBinaryArtifact downloadPath execPath
       else extractArtifact downloadPath (rt_ArchiveType artifact) extractDir);
  _ ← install_supports tmpDir extractDir (rt_SupportArtifacts artifact);
  _ ← wrap ("runtime executable " +:+ rt_ExecutablePath artifact +:+ " not found in artifact") (Stat execPath);
  _ ← (if negb (String.eqb goos "windows") then wrap "mark runtime executable" (Chmod execPath) else mret tt);
  _ ← wrap "create runtime target parent" (MkdirAll (Dir targetDir));
  _ ← wrap "replace runtime target" (RemoveAll targetDir);
  _ ← wrap "promote runtime atomically" (Rename device extractDir targetDir);
  now ← gets w_now;
  let installed := {|
    ir_Engine := rm_Engine manifest; ir_Version := rm_Version manifest; ir_BuildID := rm_BuildID manifest;
    ir_PlatformKey := platformKey; ir_Path := path_string targetDir;
    ir_ExecutablePath := path_string (Join targetDir (FromSlash goos (rt_ExecutablePath artifact)));
    ir_SHA256 := rt_SHA256 artifact; ir_InstalledAt := format_rfc3339 now |} in
  _ ← writeJSON (Join targetDir ".thirdshift-runtime.json") installed;
  current ← readCurrent root;
  _ ← (match current with
       | Some c => if negb (String.eqb (ir_Path c) (ir_Path installed)) then writeJSON (Join root "previous.json") c else mret tt
       | None => mret tt
       end);
  _ ← writeJSON (Join root "current.json") installed;
  mret installed.

Definition Ensure (m : RuntimeManager) (manifest : ReleaseManifest) : IO InstalledRuntime :=
  if String.eqb (mg_Root m) "" then fail (ErrMsg "runtime root is required")
  else
    _ ← lift_result (VerifySignature manifest (mg_PublicKey m));
    let platformKey := if String.eqb (mg_PlatformKey m) "" then goos +:+ "/" +:+ goarch else mg_PlatformKey m in
    found ← lift_result (SelectArtifact lower_table manifest platformKey (mg_GPUVendor m));
    let '(artifact, platformKey) := found in
    _ ← guard_err (negb (String.eqb (rt_ExecutablePath artifact) ""))
          (ErrMsg ("runtime artifact for " +:+ platformKey +:+ " has no executable_path"));
    let root := read_path (mg_Root m) in
    let targetDir := Clean {| rooted := rooted root;
      parts := parts root ++ (parts (read_path (safePathPart (rm_Engine manifest))) ++
        parts (read_path (safePathPart (rm_Version manifest))) ++ parts (read_path (safePathPart platformKey))) |} in
    recorded ← readInstalled targetDir;
    match recorded with
    | Some installed =>
        if String.eqb (ir_SHA256 installed) (rt_SHA256 artifact) then
          _ ← ignore_err (writeJSON (Join root "current.json") installed);
          mret installed
        else
          _ ← wrap "create runtime root" (MkdirAll root);
          tmpDir ← wrap "create runtime temp dir" (MkdirTemp root ".install-");
          finally (install m manifest artifact platformKey root targetDir tmpDir) (ignore_err (RemoveAll tmpDir))
    | None =>
        _ ← wrap "create runtime root" (MkdirAll root);
        tmpDir ← wrap "create runtime temp dir" (MkdirTemp root ".install-");
        finally (install m manifest artifact platformKey root targetDir tmpDir) (ignore_err (RemoveAll tmpDir))
    end.

Definition Rollback (m : RuntimeManager) : IO InstalledRuntime :=
  let root := read_path (mg_Root m) in
  previous ← readInstalledFile (Join root "previous.json");
  match previous with
  | None => fail (ErrMsg "no previous runtime is available for rollback")
  | Some previous =>
      current ← readCurrent root;
      _ ← (match current with Some c => writeJSON (Join root "previous.json") c | None => mret tt end);
      _ ← writeJSON (Join root "current.json") previous;
      mret previous
  end.
End manager.
