(* ===== verification/ReleaseTheory.v ===== *)
(** * Extraction and installation of runtimes

    About [Releases]: an archive cannot write outside of its destination, an installation
    changes nothing outside of the runtime root and nothing at all without a valid
    signature, what is installed has the signed hash, and what a rollback brings back. *)
From stdpp Require Import base gmap strings list.
From Stdlib Require Import ZArith Lia Ascii.
From S2P Require Import Prelude GoStrings Sha256 Encoding FileSystem FileURL Releases.

(** ** Names in archives *)

Lemma rel_parts_app base l : rel_parts base (base ++ l) = ([], l).
Proof. induction base as [|b base IH]; simpl; [by destruct l|]. by rewrite String.eqb_refl. Qed.

Lemma plain_app l k : plain l → plain k → plain (l ++ k).
Proof. unfold plain. rewrite elem_of_app. by intros ?? [?|?]. Qed.

Lemma plain_starts_up l r : plain l → starts_up {| rooted := r; parts := l |} = false.
Proof.
  unfold plain, starts_up. destruct l as [|c l]; [done|]. rewrite not_elem_of_cons. intros [Hc _]. simpl.
  apply String.eqb_neq. congruence.
Qed.

Section archive.
Context `{Libs : !Libraries}.

(** The check of the joined path adds nothing to the check of the name. *)
Lemma safeJoin_ok root name target :
  rooted root = true → plain (parts root) → safeJoin root name = Ok target →
  escapes (Clean (read_path name)) = false ∧
  target = {| rooted := true; parts := parts root ++ parts (Clean (read_path name)) |} ∧
  plain (parts (Clean (read_path name))).
Proof.
  intros Hr Hp. unfold safeJoin. destruct (escapes _) eqn:E; [done|]. pose proof (escapes_plain _ E) as [_ Hn].
  rewrite Clean_plain by (simpl; by apply plain_app). cbv zeta. unfold Rel. cbn [rooted parts]. rewrite Hr.
  cbn [Bool.eqb negb]. rewrite rel_parts_app, bool_decide_false by (by apply not_elem_of_nil).
  cbn [mbind result_bind length replicate app]. rewrite plain_starts_up by done. by intros [= <-].
Qed.

Lemma safeSymlinkTarget_ok linkDir name t : safeSymlinkTarget linkDir name = Ok t → descends t.
Proof.
  unfold safeSymlinkTarget. destruct (escapes _) eqn:E; [done|]. pose proof (escapes_plain _ E) as [Hr Hn].
  cbv zeta. destruct (Rel _ _) as [rel|]; [|done]. cbn [mbind result_bind]. destruct (starts_up rel); [done|].
  by intros [= <-].
Qed.

(** ** Extraction *)

Section confined.
Context (R : location).

Lemma confined_MkdirAll_above p : rooted p = true → parts p `prefix_of` R → confined R (MkdirAll p).
Proof.
  intros Hr Hp. apply confined_for_each. intros a Ha. unfold ancestors in Ha.
  apply list_elem_of_fmap in Ha as (i & -> & _). apply confined_mkdir_above; [done|]. simpl.
  trans (parts p); [apply prefix_take|done].
Qed.

Lemma removelast_prefix (l : location) : removelast l `prefix_of` l.
Proof.
  induction l as [|c l IH]; simpl; [done|]. destruct l; [by apply prefix_nil|]. by apply prefix_cons.
Qed.

Lemma under_Dir p : strictly_under R p → plain R → under R (Dir p).
Proof.
  intros (l & Hr & Hp & Hl & Hne) HR. exists (removelast l).
  assert (Hrl : plain (removelast l)).
  { intros Hin. apply Hl. destruct (removelast_prefix l) as [k ->]. apply elem_of_app. by left. }
  unfold Dir. rewrite Hp, removelast_app by done. rewrite Clean_plain by (simpl; by apply plain_app). by rewrite Hr.
Qed.

Lemma confined_MkdirAll_Dir p : under R p → plain R → confined R (MkdirAll (Dir p)).
Proof.
  intros (l & Hr & Hp & Hl) HR. destruct (decide (l = [])) as [->|Hne].
  - rewrite app_nil_r in Hp. assert (HD : Dir p = {| rooted := true; parts := removelast R |}).
    { unfold Dir. rewrite Hp, Hr. apply Clean_plain. simpl. intros Hin. apply HR.
      destruct (removelast_prefix R) as [k ->]. apply elem_of_app. by left. }
    rewrite HD. apply confined_MkdirAll_above; [done|apply removelast_prefix].
  - apply confined_MkdirAll, under_Dir; [by exists l|done].
Qed.

Lemma joined_under dest name target :
  under R dest → plain R → safeJoin dest name = Ok target → under R target.
Proof.
  intros (l & Hr & Hp & Hl) HR H. apply safeJoin_ok in H as (_ & -> & Hn); [|done|rewrite Hp; by apply plain_app].
  eexists. rewrite Hp, <-app_assoc. split_and!; [done|done|]. by apply plain_app.
Qed.

Lemma joined_strict dest name target :
  under R dest → plain R → parts dest ≠ R ∨ parts (Clean (read_path name)) ≠ [] →
  safeJoin dest name = Ok target → strictly_under R target.
Proof.
  intros (l & Hr & Hp & Hl) HR Hne H. apply safeJoin_ok in H as (_ & -> & Hn); [|done|rewrite Hp; by apply plain_app].
  eexists. rewrite Hp, <-app_assoc. split_and!; [done|done|by apply plain_app|].
  destruct l; [|done]. rewrite app_nil_r in Hp. by destruct Hne.
Qed.

(** A link entry that would take the place of the directory [R] itself. *)
Definition self_link (dest : Path) (e : TarEntry) : Prop :=
  te_Type e = TypeSymlink ∧ parts dest = R ∧ parts (Clean (read_path (te_Name e))) = [].

Lemma confined_lift_bind {A B} (r : result A) (f : A → IO B) :
  (∀ a, r = Ok a → confined R (f a)) → confined R (lift_result r ≫= f).
Proof. intros Hf w Hs. unfold mbind, St_bind, lift_result. destruct r as [a|e]; [by apply Hf|done]. Qed.

Lemma confined_decode_bind {A B} c (r : result A) (f : A → IO B) :
  (∀ a, r = Ok a → confined R (f a)) → confined R (wrap c (lift_result r) ≫= f).
Proof. intros Hf w Hs. unfold mbind, St_bind, wrap, lift_result. destruct r as [a|e]; [by apply Hf|done]. Qed.

Lemma confined_tar_entry dest e :
  under R dest → plain R → ¬ self_link dest e → confined R (extract_tar_entry dest e).
Proof.
  intros Hd HR Hself. apply confined_lift_bind. intros target Ht. pose proof (joined_under _ _ _ Hd HR Ht) as Hu.
  destruct (te_Type e) eqn:Et; [by apply confined_MkdirAll| | |apply confined_ret].
  - apply confined_bind; [by apply confined_MkdirAll_Dir|]. intros _. confine; done.
  - apply confined_lift_bind. intros t Ht'%safeSymlinkTarget_ok.
    apply confined_bind; [by apply confined_MkdirAll_Dir|]. intros _. confine.
    apply confined_Remove. apply (joined_strict dest (te_Name e)); [done..| |done]. unfold self_link in Hself.
    destruct (decide (parts dest = R)); [|by left]. right. intros E. by apply Hself.
Qed.

Lemma confined_fault_bind {B} (f : option nat → IO B) : (∀ x, confined R (f x)) → confined R (next_fault ≫= f).
Proof. intros Hf. apply confined_bind; [apply neutral_confined, neutral_fault|done]. Qed.

Lemma confined_extract p dest archiveType :
  under R dest → plain R →
  (parts dest ≠ R ∨ ∀ data entries e, read_tar_gz data = Ok (entries, e) → Forall (λ x, ¬ self_link dest x) entries) →
  confined R (extractArtifact p archiveType dest).
Proof.
  intros Hd HR Hself. unfold extractArtifact. confine.
  - unfold extractTarGz. apply confined_bind; [confine|]. intros file. apply confined_bind; [confine|]. intros data.
    apply confined_decode_bind. intros [entries err] E. apply confined_fault_bind.
    assert (Hall : ∀ y, y ∈ entries → confined R (extract_tar_entry dest y)).
    { intros y Hy. apply confined_tar_entry; [done..|]. destruct Hself as [Hne|Hf]; [by intros (_ & ? & _)|].
      specialize (Hf _ _ _ E). rewrite Forall_forall in Hf. by apply Hf. }
    intros [n|]; (apply confined_bind; [apply confined_for_each; intros y Hy; apply Hall|intros _; confine]); simpl in Hy.
    + rewrite <-(take_drop n entries), elem_of_app. by left.
    + done.
  - unfold extractZip. apply confined_bind; [confine|]. intros file. apply confined_bind; [confine|]. intros data.
    apply confined_bind; [confine|]. intros entries. apply confined_for_each. intros e _. unfold extract_zip_entry.
    apply confined_lift_bind. intros target Ht. pose proof (joined_under _ _ _ Hd HR Ht) as Hu.
    destruct (ze_IsDir e); [by apply confined_MkdirAll|].
    apply confined_bind; [by apply confined_MkdirAll_Dir|]. intros _. confine; done.
Qed.
End confined.

(** C24. Extraction changes nothing outside of the directory [D] the destination is in, whatever
    the archive holds, wherever a fault stops it and whatever links it makes on the way; and
    nothing outside of the destination itself, unless the archive has a link whose name is the
    destination (see [self_link_escapes]). *)
Theorem extraction_stays p archiveType D name dest w :
  rooted dest = true → parts dest = D ++ [name] → plain (D ++ [name]) →
  let w' := (extractArtifact p archiveType dest w).2 in
  (safe D (w_fs w) → ∀ q, ¬ D `prefix_of` q → w_fs w' !! q = w_fs w !! q) ∧
  (safe (D ++ [name]) (w_fs w) →
   (∀ data entries e, read_tar_gz data = Ok (entries, e) →
      Forall (λ x, te_Type x = TypeSymlink → parts (Clean (read_path (te_Name x))) ≠ []) entries) →
   ∀ q, ¬ (D ++ [name]) `prefix_of` q → w_fs w' !! q = w_fs w !! q).
Proof.
  intros Hr Hp Hpl. cbv zeta. split.
  - intros Hs. assert (HD : plain D) by (intros Hin; apply Hpl, elem_of_app; by left).
    apply (confined_extract D p dest archiveType); [|done| |done].
    + exists [name]. split_and!; [done..|]. intros Hin. apply Hpl, elem_of_app. by right.
    + left. rewrite Hp. intros E. apply (f_equal length) in E. rewrite length_app in E. simpl in E. lia.
  - intros Hs Hall. apply (confined_extract (D ++ [name]) p dest archiveType); [|done| |done].
    + exists []. by rewrite app_nil_r; split_and!; [..|apply not_elem_of_nil].
    + right. intros data entries e E. eapply Forall_impl; [by eapply Hall|]. intros x Hx (Ht & _ & Hn). by apply Hx.
Qed.
End archive.

(** ** Installation *)

Lemma safe_bytes_no_slash l : slash ∉ safe_bytes l.
Proof.
  assert (H : ∀ n l, (length l ≤ n)%nat → slash ∉ safe_bytes l); [|by eapply H].
  clear l. induction n as [|n IH]; intros l Hn; [destruct l; [by apply not_elem_of_nil|simpl in Hn; lia]|].
  destruct l as [|a l1]; [by apply not_elem_of_nil|]. cbn [safe_bytes]. simpl in Hn.
  destruct (bool_decide (a = slash)) eqn:Ea; [apply not_elem_of_cons; split; [done|]; apply IH; lia|].
  apply bool_decide_eq_false in Ea. simpl orb.
  destruct (_ || _); [apply not_elem_of_cons; split; [done|]; apply IH; lia|].
  destruct l1 as [|b l2]; [apply not_elem_of_cons; split; [done|by apply not_elem_of_nil]|]. simpl in Hn.
  destruct (_ && _); apply not_elem_of_cons; (split; [done|]); apply IH; simpl; lia.
Qed.

Lemma safe_bytes_head b l : ∃ c r, safe_bytes (b :: l) = c :: r ∧ (c = b ∨ c = "_"%char).
Proof.
  cbn [safe_bytes]. destruct (_ || _); [by eauto 10|]. destruct l as [|d l]; [by eauto|]. destruct (_ && _); by eauto 10.
Qed.

Lemma safe_bytes_dots l : safe_bytes l ≠ ["."%char; "."%char].
Proof.
  destruct l as [|a l]; [done|]. cbn [safe_bytes]. destruct (_ || _); [done|].
  destruct l as [|b l]; [done|]. destruct (bool_decide (a = "."%char)) eqn:Ea; cycle 1.
  { simpl. intros [= -> _]. by apply bool_decide_eq_false in Ea. }
  destruct (bool_decide (b = "."%char)) eqn:Eb; [done|]. apply bool_decide_eq_false in Eb. simpl andb. cbn iota.
  destruct (safe_bytes_head b l) as (c & r & -> & Hc). intros [= _ -> _]. destruct Hc as [<-|?]; done.
Qed.

(** A path part is at most one component, and never [..]. *)
Lemma safePathPart_parts v :
  plain (parts (read_path (safePathPart v))) ∧
  (parts (read_path (safePathPart v)) = [] ∨ parts (read_path (safePathPart v)) = [safePathPart v]).
Proof.
  unfold read_path. cbn [parts]. rewrite split_on_none by (unfold safePathPart; rewrite bytes_of_bytes; apply safe_bytes_no_slash).
  assert (Hdd : safePathPart v ≠ "..").
  { unfold safePathPart. intros E. apply (f_equal bytes) in E. rewrite bytes_of_bytes in E. by apply safe_bytes_dots in E. }
  rewrite filter_cons, filter_nil. case_decide.
  - split; [|by right]. intros Hin%list_elem_of_singleton. congruence.
  - split; [by apply not_elem_of_nil|by left].
Qed.

Lemma safe_bytes_slash l : slash ∈ l → "_"%char ∈ safe_bytes l.
Proof.
  assert (H : ∀ n l, (length l ≤ n)%nat → slash ∈ l → "_"%char ∈ safe_bytes l); [|by eapply H].
  clear l. induction n as [|n IH]; intros l Hn Hin; [destruct l; [by apply not_elem_of_nil in Hin|simpl in Hn; lia]|].
  destruct l as [|a l1]; [by apply not_elem_of_nil in Hin|]. cbn [safe_bytes]. simpl in Hn.
  destruct (bool_decide (a = slash)) eqn:Ea; [by left|]. apply bool_decide_eq_false in Ea. simpl orb.
  apply elem_of_cons in Hin as [<-|Hin]; [done|].
  destruct (_ || _); [by left|]. destruct l1 as [|b l2]; [by apply not_elem_of_nil in Hin|]. simpl in Hn.
  destruct (_ && _); [by left|]. right. apply IH; [simpl; lia|done].
Qed.

(** A platform key that names an operating system and an architecture is a real component. *)
Lemma safePathPart_key v : slash ∈ bytes v → parts (read_path (safePathPart v)) = [safePathPart v].
Proof.
  intros Hin%safe_bytes_slash. unfold read_path. cbn [parts].
  rewrite split_on_none by (unfold safePathPart; rewrite bytes_of_bytes; apply safe_bytes_no_slash).
  rewrite filter_cons, filter_nil, decide_True; [done|].
  split; intros E; apply (f_equal bytes) in E; unfold safePathPart in E; rewrite bytes_of_bytes in E; rewrite E in Hin.
  - by apply not_elem_of_nil in Hin.
  - by apply list_elem_of_singleton in Hin.
Qed.

Lemma MkdirTemp_ok dir prefix w p w' :
  MkdirTemp dir prefix w = (Ok p, w') →
  ∃ name, p = {| rooted := rooted dir; parts := parts dir ++ [prefix +:+ name] |}.
Proof.
  intros (faults & H)%syscall_ok. apply bind_ok in H as (names & w1 & _ & H). revert w1 H.
  induction names as [|name rest IH]; intros w1 H; cbn [draw_name] in H; [by apply fail_ok in H|].
  apply bind_ok in H as (? & w2 & _ & H). apply bind_ok in H as (q & w3 & _ & H).
  apply bind_ok in H as (n & w4 & _ & H). destruct n; [by eapply IH|].
  apply bind_ok in H as (? & w5 & _ & [-> _]%ret_ok). by exists name.
Qed.

Section ensure.
Context `{Libs : !Libraries} (lower_table : Z → Z) (device : location → nat) (goos goarch : string).
Context (R : location) (HR : plain R).

Lemma confined_post_bind {A B} (m : IO A) (f : A → IO B) :
  confined R m → (∀ a w w', m w = (Ok a, w') → confined R (f a)) → confined R (m ≫= f).
Proof.
  intros Hm Hf w Hs. specialize (Hm w Hs). unfold mbind, St_bind.
  destruct (m w) as [[a|e] w1] eqn:E; simpl in *; [|done]. destruct Hm as [Hs1 Ho1].
  destruct (Hf a w w1 E w1 Hs1) as [Hs2 Ho2]. split; [done|]. by eapply same_outside_trans.
Qed.

Lemma confined_downloadFile url dest : under R dest → confined R (downloadFile goos url dest).
Proof. intros Hu. unfold downloadFile, copyLocalFile. confine; done. Qed.

Lemma confined_verifyFile p sha size : confined R (verifyFile p sha size).
Proof. unfold verifyFile. confine. Qed.

Lemma confined_copyBinaryArtifact src dest : under R dest → confined R (copyBinaryArtifact src dest).
Proof.
  intros Hu. unfold copyBinaryArtifact. apply confined_bind; [by apply confined_MkdirAll_Dir|]. intros _. confine; done.
Qed.

Lemma confined_writeJSON p v : under R p → confined R (writeJSON p v).
Proof.
  intros Hu. unfold writeJSON. apply confined_bind; [by apply confined_MkdirAll_Dir|]. intros _. by apply confined_WriteFile.
Qed.

Lemma confined_readInstalledFile p : confined R (readInstalledFile p).
Proof. unfold readInstalledFile. confine. Qed.

Lemma under_join p name : under R p → escapes (Clean (read_path name)) = false → under R (Join p name).
Proof.
  intros (l & Hr & Hp & Hl) He.
  destruct (Join_inside p name) as [-> Hn]; [rewrite Hp; by apply plain_app|done|].
  eexists. rewrite Hp, <-app_assoc. split_and!; [done|done|]. by apply plain_app.
Qed.

Lemma strict_join p c : under R p → read_path c = {| rooted := false; parts := [c] |} → c ≠ ".." → strictly_under R (Join p c).
Proof.
  intros (l & Hr & Hp & Hl) Hc Hdd. assert (Hpl : plain [c]) by (by intros Hin%list_elem_of_singleton).
  rewrite Join_plain, Hc by (rewrite ?Hc, ?Hp; try apply plain_app; done).
  eexists. cbn [parts rooted]. rewrite Hp, <-app_assoc. split_and!; [done|done|by apply plain_app|by destruct l].
Qed.

Lemma split_on_pieces c s w : w ∈ split_on c s → c ∉ bytes w.
Proof.
  revert w. induction s as [|a s IH]; simpl; intros w Hw.
  { apply list_elem_of_singleton in Hw as ->. by apply not_elem_of_nil. }
  destruct (split_on_cons c s) as (v & vs & E). rewrite E in *.
  case_bool_decide as Ha; [apply elem_of_cons in Hw as [->|Hw]; [by apply not_elem_of_nil|by apply IH]|].
  apply elem_of_cons in Hw as [->|Hw]; [|apply IH; by right].
  simpl. apply not_elem_of_cons. split; [congruence|]. apply IH. by left.
Qed.

(** The last component of a name does not lead out of the directory above. *)
Lemma Base_parts name : parts (read_path (Base name)) = [] ∨ ∃ c, parts (read_path (Base name)) = [c].
Proof.
  unfold Base. destruct (last _) as [c|] eqn:E; [|by case_match; left].
  apply last_Some in E as (l & E).
  assert (Hin : c ∈ split_on "/"%char name).
  { assert (H : c ∈ filter (λ c, c ≠ "") (split_on "/"%char name)) by (rewrite E; apply elem_of_app; right; by left).
    by apply list_elem_of_filter in H as [_ ?]. }
  unfold read_path. cbn [parts]. rewrite split_on_none by (by eapply split_on_pieces).
  rewrite filter_cons, filter_nil. case_decide; [right; by eexists|by left].
Qed.

Lemma under_Base p c name : strictly_under R (Join p c) → read_path c = {| rooted := false; parts := [c] |} → c ≠ ".." →
  under R p → under R (Join (Join p c) (Base name)).
Proof.
  intros _ Hc Hdd (l & Hr & Hp & Hl). assert (Hpl : plain [c]) by (by intros Hin%list_elem_of_singleton).
  rewrite (Join_plain p c), Hc by (rewrite ?Hc, ?Hp; try apply plain_app; done). cbn [parts rooted].
  unfold Join. cbn [parts rooted]. rewrite Hp, Hr.
  destruct (Base_parts name) as [->|[d ->]].
  - rewrite app_nil_r. exists (l ++ [c]). rewrite Clean_plain by (simpl; rewrite <-app_assoc; by repeat apply plain_app).
    cbn [parts rooted]. rewrite <-app_assoc. split_and!; [done|done|by apply plain_app].
  - destruct (decide (d = "..")) as [->|Hd].
    + exists l. unfold Clean. cbn [parts rooted].
      assert (Hs : ∀ stack a b, clean_from true stack (a ++ b) = clean_from true (clean_from true stack a) b).
      { intros stack a. revert stack. induction a as [|x a IHa]; intros stack b; simpl; [done|]. by repeat case_match. }
      rewrite Hs, (clean_from_plain true [] ((R ++ l) ++ [c])) by (by repeat apply plain_app).
      rewrite app_nil_r, reverse_snoc. simpl. destruct (String.eqb_spec c ".."); [done|].
      rewrite reverse_involutive. done.
    + assert (Hpd : plain [d]) by (by intros Hin%list_elem_of_singleton; congruence).
      exists (l ++ [c; d]). rewrite Clean_plain by (simpl; rewrite <-!app_assoc; by repeat apply plain_app).
      cbn [parts rooted]. rewrite <-!app_assoc. split_and!; [done|done|]. apply plain_app; [done|]. by apply (plain_app [c] [d]).
Qed.

Section install.
Context (t : string) (Ht : t ≠ "..").
Let tmpDir : Path := {| rooted := true; parts := R ++ [t] |}.

Lemma tmp_under : under R tmpDir.
Proof. exists [t]. split_and!; [done..|]. by intros Hin%list_elem_of_singleton. Qed.

Lemma support_name idx : read_path ("support-" +:+ itoa idx) = {| rooted := false; parts := ["support-" +:+ itoa idx] |}.
Proof.
  unfold read_path. rewrite split_on_none; [done|]. simpl. rewrite !not_elem_of_cons.
  split_and!; try done. apply itoa_bytes; [|done]. intros [|[[[]|[]|]|[[]|[]|]|]]; try done; destruct p; done.
Qed.

Lemma extract_under : strictly_under R (Join tmpDir "extract").
Proof. by apply strict_join; [apply tmp_under|..]. Qed.

Lemma confined_extract_into p archiveType : confined R (extractArtifact p archiveType (Join tmpDir "extract")).
Proof.
  apply confined_extract; [by apply strictly_under_under, extract_under|done|]. left.
  destruct extract_under as (l & _ & -> & _ & Hne). intros E. rewrite <-(app_nil_r R) in E at 2.
  by apply app_inv_head in E.
Qed.

Lemma confined_install_support idx support : confined R (install_support goos tmpDir (Join tmpDir "extract") idx support).
Proof.
  unfold install_support. cbv zeta.
  assert (Hs : under R (Join tmpDir ("support-" +:+ itoa (Z.of_nat idx)))).
  { apply strictly_under_under, strict_join; [apply tmp_under|apply support_name|done]. }
  apply confined_bind; [by apply confined_downloadFile|]. intros _.
  apply confined_bind; [apply confined_verifyFile|]. intros _.
  destruct (_ || _); [|apply confined_extract_into].
  apply confined_copyBinaryArtifact, under_Base; [apply extract_under|done|done|apply tmp_under].
Qed.

Lemma confined_install m manifest artifact key root targetDir :
  rooted root = true → parts root = R → strictly_under R targetDir →
  escapes (Clean (read_path (FromSlash goos (rt_ExecutablePath artifact)))) = false →
  confined R (install device goos m manifest artifact key root targetDir tmpDir).
Proof.
  intros Hr Hroot Htarget Hexec. unfold install. cbv zeta.
  pose proof extract_under as Hex. pose proof (strictly_under_under _ _ Hex) as Hexu.
  assert (Hrootu : under R root) by (exists []; rewrite app_nil_r; split_and!; [done..|apply not_elem_of_nil]).
  assert (Hart : under R (Join tmpDir "artifact")) by (by apply strictly_under_under, strict_join; [apply tmp_under|..]).
  assert (Hbin : under R (Join (Join tmpDir "extract") (FromSlash goos (rt_ExecutablePath artifact)))) by (by apply under_join).
  apply confined_bind; [by apply confined_downloadFile|]. intros _.
  apply confined_bind; [apply confined_verifyFile|]. intros _.
  apply confined_bind; [by apply confined_wrap, confined_MkdirAll|]. intros _.
  apply confined_bind; [destruct (_ || _); [by apply confined_copyBinaryArtifact|apply confined_extract_into]|]. intros _.
  apply confined_bind; [apply confined_for_each; intros; apply confined_install_support|]. intros _.
  apply confined_bind; [confine|]. intros _.
  apply confined_bind; [confine|]. intros _.
  apply confined_bind; [by apply confined_wrap, confined_MkdirAll_Dir; [apply strictly_under_under|]|]. intros _.
  apply confined_bind; [by apply confined_wrap, confined_RemoveAll|]. intros _.
  apply confined_bind; [by apply confined_wrap, confined_Rename|]. intros _.
  apply confined_bind; [confine|]. intros now.
  apply confined_bind; [by apply confined_writeJSON, strictly_under_under, strict_join; [apply strictly_under_under|..]|]. intros _.
  apply confined_bind; [apply confined_readInstalledFile|]. intros current.
  apply confined_bind.
  { destruct current as [c|]; [|confine]. destruct (negb _); [|confine].
    by apply confined_writeJSON, strictly_under_under, strict_join. }
  intros _. apply confined_bind; [by apply confined_writeJSON, strictly_under_under, strict_join|]. intros _. confine.
Qed.
End install.

(** ** The choice of an artifact *)

Lemma first_artifact_some m keys artifact key :
  first_artifact m keys = Some (artifact, key) → rm_Artifacts m !! key = Some artifact ∧ key ∈ keys.
Proof.
  induction keys as [|k keys IH]; simpl; [done|]. destruct (rm_Artifacts m !! k) as [a|] eqn:E.
  - intros [= -> ->]. split; [done|by left].
  - intros [? ?]%IH. split; [done|by right].
Qed.

Lemma SelectArtifact_ok m platformKey vendor artifact key :
  SelectArtifact lower_table m platformKey vendor = Ok (artifact, key) →
  rm_Artifacts m !! key = Some artifact ∧
  (key = platformKey ∨ key = platformKey +:+ "/" +:+ BackendForVendor lower_table vendor).
Proof.
  unfold SelectArtifact. destruct (ArtifactKeys _ _ _) as [|k keys] eqn:Ek; [done|].
  destruct (first_artifact m (k :: keys)) as [[a' k']|] eqn:E; [|done]. intros [= -> ->].
  apply first_artifact_some in E as [? Hin]. split; [done|]. rewrite <-Ek in Hin. unfold ArtifactKeys in Hin.
  destruct (String.eqb platformKey ""); [by apply not_elem_of_nil in Hin|].
  destruct (String.eqb _ _).
  - apply list_elem_of_singleton in Hin. by left.
  - rewrite !elem_of_cons, elem_of_nil in Hin. naive_solver.
Qed.

Definition target_dir (root : Path) (engine version key : string) : Path :=
  Clean {| rooted := rooted root; parts := parts root ++ (parts (read_path (safePathPart engine)) ++
             parts (read_path (safePathPart version)) ++ parts (read_path (safePathPart key))) |}.

Lemma target_dir_under root engine version key :
  rooted root = true → parts root = R → slash ∈ bytes key → strictly_under R (target_dir root engine version key).
Proof.
  intros Hr Hp Hk. unfold target_dir. rewrite Hp, Hr.
  pose proof (safePathPart_parts engine) as [He _]. pose proof (safePathPart_parts version) as [Hv _].
  pose proof (safePathPart_parts key) as [Hkp _].
  rewrite Clean_plain by (simpl; by repeat apply plain_app). eexists. split_and!; [done|done|by repeat apply plain_app|].
  rewrite (safePathPart_key key Hk). by destruct (parts (read_path (safePathPart engine))), (parts (read_path (safePathPart version))).
Qed.

Lemma confined_Ensure m manifest :
  let root := read_path (mg_Root m) in
  rooted root = true → parts root = R → (mg_PlatformKey m = "" ∨ slash ∈ bytes (mg_PlatformKey m)) →
  (∀ key artifact, rm_Artifacts manifest !! key = Some artifact →
     escapes (Clean (read_path (FromSlash goos (rt_ExecutablePath artifact)))) = false) →
  confined R (Ensure lower_table device goos goarch m manifest).
Proof.
  cbv zeta. intros Hr Hp Hkey Hexec. unfold Ensure.
  assert (Hu : under R (read_path (mg_Root m))) by (exists []; rewrite app_nil_r; split_and!; [done..|apply not_elem_of_nil]).
  destruct (String.eqb (mg_Root m) ""); [apply confined_fail|].
  apply confined_bind; [apply confined_lift|]. intros _. cbv zeta. set (pk := if String.eqb (mg_PlatformKey m) "" then _ else _).
  assert (Hpk : slash ∈ bytes pk).
  { unfold pk. destruct Hkey as [->|Hk]; [|destruct (String.eqb_spec (mg_PlatformKey m) "") as [E|]; [rewrite E in Hk; by apply not_elem_of_nil in Hk|done]].
    simpl. rewrite bytes_app. apply elem_of_app. right. by left. }
  apply confined_lift_bind. intros [artifact key] [Ha Hk]%SelectArtifact_ok.
  apply confined_bind; [apply confined_guard|]. intros _.
  assert (Hks : slash ∈ bytes key) by (destruct Hk as [->| ->]; [done|rewrite bytes_app; apply elem_of_app; by left]).
  pose proof (target_dir_under _ (rm_Engine manifest) (rm_Version manifest) key Hr Hp Hks) as Ht.
  change (Clean _) with (target_dir (read_path (mg_Root m)) (rm_Engine manifest) (rm_Version manifest) key).
  apply confined_bind; [apply confined_readInstalledFile|]. intros recorded.
  assert (Hfresh : confined R (
    _ ← wrap "create runtime root" (MkdirAll (read_path (mg_Root m)));
    tmpDir ← wrap "create runtime temp dir" (MkdirTemp (read_path (mg_Root m)) ".install-");
    finally (install device goos m manifest artifact key (read_path (mg_Root m))
      (target_dir (read_path (mg_Root m)) (rm_Engine manifest) (rm_Version manifest) key) tmpDir)
      (ignore_err (RemoveAll tmpDir)))).
  { apply confined_bind; [by apply confined_wrap, confined_MkdirAll|]. intros _.
    apply confined_post_bind; [by apply confined_wrap, confined_MkdirTemp|].
    intros tmpDir w w' (name & ->)%wrap_ok%MkdirTemp_ok. rewrite Hr, Hp.
    apply confined_finally; [apply confined_install; try done; by eapply Hexec|].
    apply confined_ignore, confined_RemoveAll. exists [".install-" +:+ name]. split_and!; [done..| |done].
    by intros Hin%list_elem_of_singleton. }
  destruct recorded as [installed|]; [|done].
  destruct (String.eqb (ir_SHA256 installed) (rt_SHA256 artifact)); [|done].
  apply confined_bind; [|intros; apply confined_ret].
  by apply confined_ignore, confined_writeJSON, strictly_under_under, strict_join.
Qed.
End ensure.

Section installs.
Context `{Libs : !Libraries} (lower_table : Z → Z) (device : location → nat) (goos goarch : string).

(** C20. With a manifest whose signature does not verify under the key, installing a runtime fails
    and does nothing at all: no file, no request. With one whose signature does, it changes no file
    outside of the runtime root, whatever the manifest's archives hold, whatever the servers
    answer and whatever calls fail, under two conditions on what is signed and configured: every
    executable path of the manifest stays inside of its archive, and the platform key, unless it
    is left empty for the host's own, has a slash. The root is an absolute path of real
    directories and no link in it leads out of it. Neither condition is checked by the code: a
    path with [".."] marks a file outside of the root as executable (example
    [executable_escapes]). *)
Theorem Ensure_effects m manifest w :
  let root := read_path (mg_Root m) in
  let '(r, w') := Ensure lower_table device goos goarch m manifest w in
  (VerifySignature manifest (mg_PublicKey m) ≠ Ok tt → is_ok r = false ∧ w' = w) ∧
  (rooted root = true → plain (parts root) → safe (parts root) (w_fs w) →
   (mg_PlatformKey m = "" ∨ slash ∈ bytes (mg_PlatformKey m)) →
   (∀ key artifact, rm_Artifacts manifest !! key = Some artifact →
      escapes (Clean (read_path (FromSlash goos (rt_ExecutablePath artifact)))) = false) →
   ∀ q, ¬ parts root `prefix_of` q → w_fs w' !! q = w_fs w !! q).
Proof.
  cbv zeta. destruct (Ensure _ _ _ _ m manifest w) as [r w'] eqn:E. split.
  - intros Hv. unfold Ensure in E. destruct (String.eqb (mg_Root m) ""); [by injection E as <- <-|].
    destruct (VerifySignature manifest (mg_PublicKey m)) as [[]|e]; [done|]. by injection E as <- <-.
  - intros Hr Hp Hs Hk He.
    pose proof (confined_Ensure lower_table device goos goarch _ Hp m manifest Hr eq_refl Hk He w Hs) as [_ Ho].
    by rewrite E in Ho.
Qed.
End installs.

(** ** Rollback *)

Section rollback.
Context `{Libs : !Libraries}.

(** What a record is written as is read back. *)
Hypothesis installed_law : ∀ v, parse_installed (marshal_installed v +:+ of_bytes [char_of 10]) = Ok v.

Lemma child_join p c : rooted p = true → plain (parts p) → read_path c = {| rooted := false; parts := [c] |} → c ≠ ".." →
  Join p c = {| rooted := true; parts := parts p ++ [c] |}.
Proof.
  intros Hr Hp Hc Hdd. assert (Hpl : plain [c]) by (by intros Hin%list_elem_of_singleton).
  rewrite Join_plain, Hc by (rewrite ?Hc; done). by rewrite Hr.
Qed.

(** The file of a record in a directory, and what it says. *)
Definition record_at (fs : files) (R : location) (c : string) (v : InstalledRuntime) : Prop :=
  ∃ d t, fs !! (R ++ [c]) = Some (NFile d t) ∧ parse_installed d = Ok v ∧ ir_ExecutablePath v ≠ "".

Lemma read_record R c v w :
  real (w_fs w) R → w_faults w = [] → c ≠ ".." → record_at (w_fs w) R c v →
  readInstalledFile {| rooted := true; parts := R ++ [c] |} w = (Ok (Some v), w).
Proof.
  intros HR Hnf Hc (d & t & Hf & Hp & Hx). unfold readInstalledFile, mbind, St_bind, try.
  erewrite ReadFile_child by done. rewrite Hp. by destruct (String.eqb_spec (ir_ExecutablePath v) "").
Qed.

Lemma write_record root c v w :
  real (w_fs w) (parts root) → plain (parts root) → w_faults w = [] → rooted root = true → c ≠ ".." →
  (∃ d t, w_fs w !! (parts root ++ [c]) = Some (NFile d t)) →
  writeJSON {| rooted := true; parts := parts root ++ [c] |} v w =
    (Ok tt, w <| w_fs ::= <[parts root ++ [c] := NFile (marshal_installed v +:+ of_bytes [char_of 10]) (w_now w)]> |>).
Proof.
  intros HR Hpl Hnf Hr Hc Hf. unfold writeJSON. unfold mbind, St_bind.
  rewrite (MkdirAll_real (parts root)); [|done..| |].
  - apply WriteFile_child; [done..|by right].
  - done.
  - unfold Dir. cbn [parts rooted]. rewrite removelast_last, Clean_plain by done. done.
Qed.

Lemma real_insert fs R p n : real fs R → ¬ p `prefix_of` R → real (<[p:=n]> fs) R.
Proof.
  intros [HR Hd] Hp. split; [done|]. intros q Hq Hqp. rewrite lookup_insert_ne; [by apply Hd|]. by intros <-.
Qed.

Lemma child_not_prefix (R : location) c : ¬ (R ++ [c]) `prefix_of` R.
Proof. intros H%prefix_length. rewrite length_app in H. simpl in H. lia. Qed.

Lemma Rollback_run m w a b :
  let root := read_path (mg_Root m) in
  rooted root = true → plain (parts root) → real (w_fs w) (parts root) → w_faults w = [] →
  record_at (w_fs w) (parts root) "previous.json" a → record_at (w_fs w) (parts root) "current.json" b →
  Rollback m w = (Ok a, w <| w_fs ::= λ fs,
    <[parts root ++ ["current.json"] := NFile (marshal_installed a +:+ of_bytes [char_of 10]) (w_now w)]>
    (<[parts root ++ ["previous.json"] := NFile (marshal_installed b +:+ of_bytes [char_of 10]) (w_now w)]> fs) |>).
Proof.
  cbv zeta. intros Hr Hpl HR Hnf Ha Hb. unfold Rollback, readCurrent. set (root := read_path (mg_Root m)) in *.
  rewrite !child_join by done. unfold mbind, St_bind. rewrite (read_record (parts root) _ a) by done.
  rewrite (read_record (parts root) _ b) by done.
  assert (Hpf : ∃ d t, w_fs w !! (parts root ++ ["previous.json"]) = Some (NFile d t)) by (destruct Ha as (d & t & ? & _); by exists d, t).
  rewrite write_record by done.
  rewrite write_record; [by destruct w| |done..|].
  - simpl. apply real_insert; [done|apply child_not_prefix].
  - destruct Hb as (d & t & Hf & _). exists d, t. simpl. rewrite lookup_insert_ne; [done|]. by intros [=]%app_inv_head.
Qed.

(** A rollback returns the runtime recorded as previous and exchanges the two records, so a
    second rollback undoes the first. *)
Theorem rollback_swaps m w previous current :
  let root := read_path (mg_Root m) in
  rooted root = true → plain (parts root) → real (w_fs w) (parts root) → w_faults w = [] →
  record_at (w_fs w) (parts root) "previous.json" previous → record_at (w_fs w) (parts root) "current.json" current →
  let '(r, w') := Rollback m w in
  r = Ok previous ∧
  record_at (w_fs w') (parts root) "current.json" previous ∧ record_at (w_fs w') (parts root) "previous.json" current ∧
  (∀ q, q ≠ parts root ++ ["current.json"] → q ≠ parts root ++ ["previous.json"] → w_fs w' !! q = w_fs w !! q) ∧
  (Rollback m w').1 = Ok current.
Proof.
  cbv zeta. intros Hr Hpl HR Hnf Hprev Hcur. rewrite (Rollback_run m w previous current) by done.
  set (R := parts (read_path (mg_Root m))) in *.
  assert (Hne : R ++ ["current.json"] ≠ R ++ ["previous.json"]) by (by intros [=]%app_inv_head).
  assert (Hrec : ∀ v fs c t, ir_ExecutablePath v ≠ "" →
    record_at (<[R ++ [c] := NFile (marshal_installed v +:+ of_bytes [char_of 10]) t]> fs) R c v).
  { intros v fs c t Hv. eexists _, _. rewrite lookup_insert_eq. by split_and!. }
  assert (H1 : ir_ExecutablePath previous ≠ "") by (by destruct Hprev as (? & ? & _ & _ & ?)).
  assert (H2 : ir_ExecutablePath current ≠ "") by (by destruct Hcur as (? & ? & _ & _ & ?)).
  cbn [w_fs upd_field]. set (fs' := <[_:=_]> (<[_:=_]> (w_fs w))).
  assert (Hc' : record_at fs' R "current.json" previous) by by apply Hrec.
  assert (Hp' : record_at fs' R "previous.json" current).
  { destruct (Hrec current (w_fs w) "previous.json" (w_now w) H2) as (d & t & Hl & ?). exists d, t.
    unfold fs'. by rewrite lookup_insert_ne. }
  split_and!; [done|done|done| |].
  - intros q Hq1 Hq2. unfold fs'. by rewrite !lookup_insert_ne.
  - rewrite (Rollback_run m _ current previous); [done|done|done| |done|done|done].
    simpl. repeat apply real_insert; [done|apply child_not_prefix..].
Qed.
End rollback.
