(* ===== verification/Updates.v ===== *)
(** * The update of the node's own program

    [internal/node/update/update.go]: a signed release manifest is fetched, the artifact it
    names is fetched, verified and unpacked, and the new binary takes the place of the
    running one, which is kept beside it. *)
From stdpp Require Import base gmap strings list.
From Stdlib Require Import ZArith Lia Ascii.
From S2P Require Import Prelude GoStrings Sha256 Encoding FileSystem FileURL Releases.

Definition DefaultReleaseManifestURL : string :=
  "https://github.com/Ani-HQ/thirdshift/releases/latest/download/release-manifest.json".
Definition defaultDownloadedArtifactName : string := "thirdshift-update-artifact".
Definition defaultDownloadedManifestName : string := "thirdshift-release-manifest.json".

Record UpdateManager := {
  up_InstallDir : string; up_CurrentBinary : string; up_PublicKey : list Z; up_PlatformKey : string
}.

Record UpdateResult := {
  ur_Version : string; ur_BuildID : string; ur_InstalledPath : string; ur_PreviousPath : string; ur_ArtifactSHA256 : string
}.

(** [verifyFile] of this package: the case of the hash does not matter. *)
Definition verifyRelease (p : Path) (expectedSHA256 : string) (expectedSize : Z) : IO unit :=
  file ← wrap "open release artifact for verification" (Open p);
  data ← wrap "hash release artifact" (read_all file);
  _ ← guard_err (size_matches data expectedSize)
        (ErrMsg ("release artifact size mismatch: got " +:+ itoa (Z.of_nat (String.length data)) +:+ " want " +:+ itoa expectedSize));
  guard_err (equal_fold (trim_prefix expectedSHA256 "sha256:") (hash_hex data)) (ErrMsg "release artifact sha256 mismatch").

Definition copyFile (src dest : Path) : IO unit :=
  _ ← wrap "create destination parent" (MkdirAll (Dir dest));
  copy_file "open source file" "create destination file" "copy file" src dest.

(** [filepath.Ext], and [strings.TrimSuffix] with it: the last dot of the last component. *)
Fixpoint split_ext (l : list ascii) : option (list ascii * list ascii) :=
  match l with
  | [] => None
  | a :: l' =>
      match split_ext l' with
      | Some (base, ext) => Some (a :: base, ext)
      | None => if bool_decide (a = slash) then None
                else if bool_decide (a = "."%char) && bool_decide (slash ∉ l') then Some ([], a :: l') else None
      end
  end.
Definition previousBinaryPath (currentPath : string) : string :=
  match split_ext (bytes currentPath) with
  | Some (base, ext) => of_bytes base +:+ ".previous" +:+ of_bytes ext
  | None => currentPath +:+ ".previous"
  end.

Definition LoadManifestBytes `{!Libraries} (p : Path) : IO ReleaseManifest :=
  data ← wrap "read release manifest" (ReadFile p);
  wrap "parse release manifest" (lift_result (parse_release data)).

Section update.
Context `{!Libraries} (device : location → nat).
Context (goos goarch : string).
(** [os.TempDir] and [os.Executable]. *)
Context (tempDir : Path) (executable : result string).

Definition download (rawURL : string) (dest : Path) : IO unit :=
  match parse_url rawURL with
  | None => fail (ErrMsg "create update download request")
  | Some parsed =>
      if String.eqb (url_Scheme parsed) "file" then copyFile (read_path (url_Path parsed)) dest
      else if String.eqb (url_Scheme parsed) "" then copyFile (read_path rawURL) dest
      else
        reply ← http_get rawURL 0;
        match reply with
        | NoReply => fail (ErrMsg "download update artifact")
        | Answer status body complete =>
            _ ← guard_err (status =? 200) (ErrMsg ("download update artifact: HTTP " +:+ itoa status));
            out ← wrap "create update download file" (Create dest);
            wrap "write update download file" (copy_from out body complete)
        end
  end.

Definition selectArtifact (manifest : ReleaseManifest) (platformKey : string) : result (RuntimeArtifact * string) :=
  let platformKey := if String.eqb platformKey "" then goos +:+ "/" +:+ goarch else platformKey in
  match rm_Artifacts manifest !! platformKey with
  | Some artifact => Ok (artifact, platformKey)
  | None => Err (ErrMsg ("release artifact for platform " +:+ platformKey +:+ " is not in manifest"))
  end.

(** [URL.ResolveReference] of an address that is not absolute. *)
Definition resolveAgainst (base value : string) : string :=
  match parse_url value with
  | None => value
  | Some parsed =>
      if negb (String.eqb (url_Scheme parsed) "") then value
      else default value (resolve_reference base value)
  end.

Definition VerifyDownloadedArtifact (manifest : ReleaseManifest) (platformKey : string) (artifactPath : Path)
    (publicKey : list Z) : IO unit :=
  _ ← lift_result (VerifySignature manifest publicKey);
  _ ← guard_err (String.eqb (rm_Engine manifest) "thirdshift")
        (ErrMsg ("release manifest engine " +:+ quoted (rm_Engine manifest) +:+ " is not thirdshift"));
  artifact ← of_option (ErrMsg ("release artifact for platform " +:+ platformKey +:+ " is not in manifest"))
               (rm_Artifacts manifest !! platformKey);
  _ ← guard_err (negb (String.eqb (rt_ExecutablePath artifact) ""))
        (ErrMsg ("release artifact for " +:+ platformKey +:+ " has no executable_path"));
  verifyRelease artifactPath (rt_SHA256 artifact) (rt_SizeBytes artifact).

Definition extract_update_entry (dest : Path) (file : ZipEntry) : IO unit :=
  let target := Clean {| rooted := rooted dest; parts := parts dest ++ parts (Clean (read_path (ze_Name file))) |} in
  _ ← guard_err (below (parts (Clean dest)) (parts target))
        (ErrMsg ("release zip contains unsafe path " +:+ quoted (ze_Name file)));
  if ze_IsDir file then wrap "create update zip dir" (MkdirAll target)
  else
    _ ← wrap "create update zip parent" (MkdirAll (Dir target));
    _ ← wrap "open update zip entry" (lift_result (ze_Open file));
    out ← wrap "create update zip entry" (Create target);
    wrap "copy update zip entry" (copy_from out (ze_Body file) (ze_Complete file)).

Definition extractUpdateZip (p dest : Path) : IO unit :=
  file ← wrap "open update zip" (Open p);
  data ← wrap "open update zip" (read_all file);
  entries ← wrap "open update zip" (lift_result (read_zip data));
  for_each (extract_update_entry dest) entries.

Definition extractUpdateArtifact (p : Path) (archiveType executablePath : string) (dest : Path) : IO unit :=
  if String.eqb archiveType "" || String.eqb archiveType "binary" then
    if String.eqb executablePath "" then fail (ErrMsg "binary release artifact requires executable_path")
    else copyFile p (Join dest (FromSlash goos executablePath))
  else if String.eqb archiveType "zip" then extractUpdateZip p dest
  else fail (ErrMsg ("unsupported release archive type " +:+ quoted archiveType)).

(** The current binary and the directory it is installed in. *)
Definition currentPath (m : UpdateManager) : result (string * string) :=
  current ← (if String.eqb (up_CurrentBinary m) "" then
               match executable with Ok e => Ok e | Err e => Err (ErrWrap "locate current executable" e) end
             else Ok (up_CurrentBinary m));
  let installDir := if String.eqb (up_InstallDir m) "" then path_string (Dir (Clean (read_path current))) else up_InstallDir m in
  let current := if String.eqb (Base current) current then path_string (Join (read_path installDir) current) else current in
  Ok (current, installDir).

Definition promoteBinary (newBinary currentPath previousPath : Path) : IO unit :=
  present ← try (Stat currentPath);
  _ ← (match present with
       | Ok _ =>
           _ ← ignore_err (Remove previousPath);
           wrap "retain previous binary" (Rename device currentPath previousPath)
       | Err _ => mret tt
       end);
  promoted ← try (Rename device newBinary currentPath);
  match promoted with
  | Ok _ => mret tt
  | Err e =>
      kept ← try (Stat previousPath);
      _ ← (match kept with
           | Ok _ => ignore_err (Rename device previousPath currentPath)
           | Err _ => mret tt
           end);
      fail (ErrWrap "promote updated binary" e)
  end.

(** From the download of the manifest to the promotion, in the temporary directory. *)
Definition update_in (m : UpdateManager) (manifestLocation : string) (tmpDir : Path) : IO UpdateResult :=
  let manifestPath := Join tmpDir defaultDownloadedManifestName in
  _ ← download manifestLocation manifestPath;
  manifest ← LoadReleaseManifest manifestPath;
  _ ← lift_result (VerifySignature manifest (up_PublicKey m));
  _ ← guard_err (String.eqb (rm_Engine manifest) "thirdshift")
        (ErrMsg ("release manifest engine " +:+ quoted (rm_Engine manifest) +:+ " is not thirdshift"));
  found ← lift_result (selectArtifact manifest (up_PlatformKey m));
  let '(artifact, platformKey) := found in
  let artifactURL := resolveAgainst manifestLocation (rt_URL artifact) in
  let artifactPath := Join tmpDir defaultDownloadedArtifactName in
  _ ← download artifactURL artifactPath;
  _ ← VerifyDownloadedArtifact manifest platformKey artifactPath (up_PublicKey m);
  let extractDir := Join tmpDir "extract" in
  _ ← wrap "create update extract dir" (MkdirAll extractDir);
  _ ← extractUpdateArtifact artifactPath (rt_ArchiveType artifact) (rt_ExecutablePath artifact) extractDir;
  let newBinary := Join extractDir (FromSlash goos (rt_ExecutablePath artifact)) in
  _ ← wrap ("updated binary " +:+ rt_ExecutablePath artifact +:+ " not found in artifact") (Stat newBinary);
  _ ← (if negb (String.eqb goos "windows") then wrap "mark updated binary executable" (Chmod newBinary) else mret tt);
  paths ← lift_result (currentPath m);
  let '(current, installDir) := paths in
  _ ← wrap "create install dir" (MkdirAll (read_path installDir));
  let previousPath := previousBinaryPath current in
  _ ← promoteBinary newBinary (read_path current) (read_path previousPath);
  mret {| ur_Version := rm_Version manifest; ur_BuildID := rm_BuildID manifest; ur_InstalledPath := current;
          ur_PreviousPath := previousPath; ur_ArtifactSHA256 := rt_SHA256 artifact |}.

Definition Update (m : UpdateManager) (manifestLocation : string) : IO UpdateResult :=
  let manifestLocation := if String.eqb manifestLocation "" then DefaultReleaseManifestURL else manifestLocation in
  tmpDir ← wrap "create update temp dir" (MkdirTemp tempDir "thirdshift-update-");
  finally (update_in m manifestLocation tmpDir) (ignore_err (RemoveAll tmpDir)).
End update.
