(* ===== verification/UpdateTheory.v ===== *)
(** * Updates of the node's program

    About [Updates]: what is installed comes from an artifact with the signed hash, a binary
    is never lost, and an update succeeds only when the temporary directory and the
    installation are on one file system. *)
From stdpp Require Import base gmap strings list.
From Stdlib Require Import ZArith Lia Ascii.
From S2P Require Import Prelude GoStrings Sha256 Encoding FileSystem FileURL Releases ReleaseTheory Updates.

Lemma Stat_fs p w : w_fs (Stat p w).2 = w_fs w.
Proof.
  destruct (Stat p w) as [r w'] eqn:E. apply syscall_cases in E as [(e & _ & ?)|(faults & H)]; [done|].
  unfold mbind, St_bind, resolve, node_of, gets, lift_result in H. simpl in *. unfold mbind, St_bind in H. simpl in H.
  destruct (walk _ _ _ _ _) as [q|]; [|by injection H as _ <-].
  destruct (node_at _ q); by injection H as _ <-.
Qed.

Section promote.
Context (device : location → nat) (N D : location) (x b b' : string).
Let new : location := N ++ [x].
Let cur : location := D ++ [b].
Let prev : location := D ++ [b'].
Context (Hx : x ≠ "..") (Hb : b ≠ "..") (Hb' : b' ≠ "..") (Hbb : b ≠ b').
Context (Hnc : ¬ new `prefix_of` cur) (Hnp : ¬ new `prefix_of` prev)
  (Hcn : ¬ cur `prefix_of` new) (Hpn : ¬ prev `prefix_of` new).

Lemma dirs_apart : ¬ new `prefix_of` D ∧ ¬ cur `prefix_of` N ∧ ¬ prev `prefix_of` N.
Proof.
  split_and!; intros H.
  - apply Hnc. by apply prefix_app_r.
  - apply Hcn. by apply prefix_app_r.
  - apply Hpn. by apply prefix_app_r.
Qed.

Lemma retained fs old t nd :
  real fs D → real fs N → fs !! cur = Some (NFile old t) → fs !! new = Some nd →
  let fs' := relocate cur prev fs in
  real fs' D ∧ real fs' N ∧ fs' !! cur = None ∧ fs' !! prev = Some (NFile old t) ∧ fs' !! new = Some nd.
Proof.
  intros HD HN Hcur Hnew. cbv zeta. destruct dirs_apart as (H1 & H2 & H3). split_and!.
  - apply real_relocate; [done|apply child_not_prefix..].
  - by apply real_relocate.
  - apply relocate_src. by apply siblings_apart.
  - by rewrite relocate_dest.
  - by rewrite relocate_other.
Qed.

Lemma delete_prev fs old t nd fs' :
  real fs D → real fs N → fs !! cur = Some (NFile old t) → fs !! new = Some nd →
  fs' = fs ∨ fs' = delete prev fs →
  real fs' D ∧ real fs' N ∧ fs' !! cur = Some (NFile old t) ∧ fs' !! new = Some nd.
Proof.
  intros HD HN Hcur Hnew [->| ->]; [done|]. destruct dirs_apart as (H1 & H2 & H3). split_and!.
  - apply real_delete; [done|apply child_not_prefix].
  - by apply real_delete.
  - rewrite lookup_delete_ne; [done|]. intros E. apply Hbb. unfold prev, cur in E. apply app_inv_head in E. by injection E.
  - rewrite lookup_delete_ne; [done|]. intros E. by apply Hpn; rewrite E.
Qed.

(** What the promotion may leave of an installed binary and the one beside it. *)
Definition binary_kept (fs : files) (old : node) : Prop :=
  fs !! cur = Some old ∨ fs !! cur = None ∧ fs !! prev = Some old.

(** The promotion once the current binary was looked at. *)
Lemma promote_seen w w1 n old t nd :
  Stat (entry D b) w = (Ok n, w1) → w_fs w1 = w_fs w →
  real (w_fs w) D → real (w_fs w) N → w_fs w !! cur = Some (NFile old t) → w_fs w !! new = Some nd →
  let '(r, w') := promoteBinary device (entry N x) (entry D b) (entry D b') w in
  (r = Ok tt → w_fs w' !! cur = Some nd ∧ w_fs w' !! prev = Some (NFile old t)) ∧
  (r ≠ Ok tt → binary_kept (w_fs w') (NFile old t)).
Proof.
  intros E1 Hfs1 HD HN Hcur Hnew. unfold promoteBinary.
  unfold mbind at 1, St_bind at 1, try at 1. rewrite E1. cbn match. clear E1.
  destruct (Remove (entry D b') w1) as [r2 w2] eqn:E2.
  pose proof (Remove_entry_cases D b' w1 r2 w2 ltac:(by rewrite Hfs1) Hb' E2) as Hw2. rewrite Hfs1 in Hw2.
  destruct (delete_prev (w_fs w) old t nd (w_fs w2) HD HN Hcur Hnew Hw2) as (HD2 & HN2 & Hcur2 & Hnew2).
  destruct (Rename device (entry D b) (entry D b') w2) as [r3 w3] eqn:E3.
  unfold mbind at 1, St_bind at 1, mbind at 1, St_bind at 1, ignore_err at 1, wrap at 1. rewrite E2. cbn [snd]. rewrite E3.
  apply Rename_entry_cases in E3; [|done..|]; cycle 1.
  { intros E%app_inv_head. by injection E. }
  destruct E3 as [(e & -> & Hfs3)|(-> & Hfs3 & _)].
  { split; [done|]. intros _. left. by rewrite Hfs3. }
  destruct (retained (w_fs w2) old t nd HD2 HN2 Hcur2 Hnew2) as (HD3 & HN3 & Hcur3 & Hprev3 & Hnew3).
  fold cur prev in Hfs3. rewrite <-Hfs3 in HD3, HN3, Hcur3, Hprev3, Hnew3.
  destruct (Rename device (entry N x) (entry D b) w3) as [r4 w4] eqn:E4.
  unfold mbind at 1, St_bind at 1, try at 1. rewrite E4.
  apply Rename_entry_cases in E4; [|done..|]; cycle 1. { intros E. apply Hnc. unfold new, cur. by rewrite E. }
  destruct E4 as [(e & -> & Hfs4)|(-> & Hfs4 & _)]; cycle 1.
  { split; [|done]. intros _. simpl. rewrite Hfs4. fold new cur. rewrite relocate_dest, relocate_other; [done|..].
    - by apply siblings_apart.
    - done. }
  pose proof (Stat_fs (entry D b') w4) as Hfs5. destruct (Stat (entry D b') w4) as [r5 w5] eqn:E5. cbn [snd] in Hfs5.
  unfold mbind at 1, St_bind at 1, try at 1. rewrite E5. unfold mbind at 1, St_bind at 1. rewrite Hfs4 in Hfs5.
  destruct r5 as [n5|e5]; cycle 1.
  { split; [done|]. intros _. right. simpl. by rewrite Hfs5. }
  unfold ignore_err. destruct (Rename device (entry D b') (entry D b) w5) as [r6 w6] eqn:E6.
  cbn. split; [done|]. intros _.
  apply Rename_entry_cases in E6; [|by rewrite ?Hfs5..|]; cycle 1.
  { intros E%app_inv_head. by injection E. }
  destruct E6 as [(e6 & _ & Hfs6)|(_ & Hfs6 & _)].
  - right. by rewrite Hfs6, Hfs5.
  - left. rewrite Hfs6. fold prev cur. by rewrite relocate_dest, Hfs5.
Qed.

(** The promotion when the system fails to look at the current binary: it is not kept beside. *)
Lemma promote_unseen w w1 e nd :
  Stat (entry D b) w = (Err e, w1) → w_fs w1 = w_fs w →
  real (w_fs w) D → real (w_fs w) N → w_fs w !! new = Some nd →
  let '(r, w') := promoteBinary device (entry N x) (entry D b) (entry D b') w in
  (r = Ok tt → w_fs w' !! cur = Some nd) ∧
  (r ≠ Ok tt → w_fs w' !! cur = w_fs w !! cur ∨ is_Some (w_fs w !! prev) ∧ w_fs w' !! cur = w_fs w !! prev).
Proof.
  intros E1 Hfs1 HD HN Hnew. unfold promoteBinary.
  unfold mbind at 1, St_bind at 1, try at 1. rewrite E1. cbn match. clear E1.
  unfold mbind at 1, St_bind at 1, mret at 1, St_ret at 1.
  destruct (Rename device (entry N x) (entry D b) w1) as [r4 w4] eqn:E4.
  unfold mbind at 1, St_bind at 1, try at 1. rewrite E4.
  apply Rename_entry_cases in E4; [|by rewrite ?Hfs1..|]; cycle 1. { intros E. apply Hnc. unfold new, cur. by rewrite E. }
  rewrite Hfs1 in E4. destruct E4 as [(e4 & -> & Hfs4)|(-> & Hfs4 & _)]; cycle 1.
  { split; [|done]. intros _. simpl. rewrite Hfs4. fold new cur. by rewrite relocate_dest. }
  pose proof (Stat_fs (entry D b') w4) as Hfs5. destruct (Stat (entry D b') w4) as [r5 w5] eqn:E5. cbn [snd] in Hfs5.
  unfold mbind at 1, St_bind at 1, try at 1. rewrite E5. unfold mbind at 1, St_bind at 1. rewrite Hfs4 in Hfs5.
  destruct r5 as [n5|e5]; cycle 1. { split; [done|]. intros _. left. simpl. by rewrite Hfs5. }
  unfold ignore_err. destruct (Rename device (entry D b') (entry D b) w5) as [r6 w6] eqn:E6.
  cbn. split; [done|]. intros _.
  apply Rename_entry_cases in E6; [|by rewrite ?Hfs5..|]; cycle 1.
  { intros E%app_inv_head. by injection E. }
  rewrite Hfs5 in E6. destruct E6 as [(e6 & _ & Hfs6)|(_ & Hfs6 & _ & Hsome & _)].
  - left. by rewrite Hfs6.
  - right. rewrite Hfs6. fold prev cur. by rewrite relocate_dest.
Qed.

(** C29. The promotion of a new binary never leaves the host without one, whichever system calls
    fail: when it succeeds the new binary is in place; when it fails there is a binary in place,
    the old one or, where one was beside it before, that one, or else the old one is beside. If
    the first call, which looks at the old binary, does not fail, the old one is not lost: on
    success it is beside the new one, on failure in place or, if putting it back failed too,
    beside. (If that call fails the old binary is taken for absent, and is overwritten.) *)
Theorem promote_keeps_binary w old t nd :
  real (w_fs w) D → real (w_fs w) N → w_fs w !! cur = Some (NFile old t) → w_fs w !! new = Some nd →
  let '(r, w') := promoteBinary device (entry N x) (entry D b) (entry D b') w in
  (r = Ok tt → w_fs w' !! cur = Some nd) ∧
  (r ≠ Ok tt → binary_kept (w_fs w') (NFile old t) ∨
               is_Some (w_fs w !! prev) ∧ w_fs w' !! cur = w_fs w !! prev) ∧
  ((∀ k, head (w_faults w) ≠ Some (Some k)) →
   (r = Ok tt → w_fs w' !! prev = Some (NFile old t)) ∧ (r ≠ Ok tt → binary_kept (w_fs w') (NFile old t))).
Proof.
  intros HD HN Hcur Hnew.
  destruct (Stat_entry D b w HD Hb) as (fl & Hw1 & Hr1); [intros ?; fold cur; by rewrite Hcur|].
  fold cur in Hr1. rewrite Hcur in Hr1. destruct (Stat (entry D b) w) as [[n|e] w1] eqn:E1; cbn [fst snd] in Hw1, Hr1.
  - pose proof (promote_seen w w1 n old t nd E1 ltac:(by rewrite Hw1) HD HN Hcur Hnew) as H.
    destruct (promoteBinary _ _ _ _ w) as [r w']. destruct H as [Hok Herr].
    split_and!; [intros E; by apply Hok|intros E; left; by apply Herr|]. intros _. split; [intros E; by apply Hok|exact Herr].
  - pose proof (promote_unseen w w1 e nd E1 ltac:(by rewrite Hw1) HD HN Hnew) as H.
    destruct (promoteBinary _ _ _ _ w) as [r w']. destruct H as [Hok Herr]. split_and!; [exact Hok| |].
    + intros E. destruct (Herr E) as [Hc|Hc]; [|by right]. left. left. by rewrite Hc.
    + intros Hstat. by specialize (Hr1 Hstat).
Qed.

Lemma Remove_file w : real (w_fs w) D → w_faults w = [] →
  w_fs w !! prev = None ∨ (∃ d t, w_fs w !! prev = Some (NFile d t)) →
  ∃ r, Remove (entry D b') w = (r, w <| w_fs ::= delete prev |>).
Proof.
  intros HD Hnf Hp. unfold Remove. rewrite syscall_nofault by done. unfold mbind at 1, St_bind at 1.
  rewrite resolve_entry by done. unfold node_of, gets, mbind, St_bind. rewrite node_at_entry. fold prev.
  destruct Hp as [Hp|(d & t & Hp)]; rewrite Hp.
  - eexists. unfold fail. f_equal. destruct w. simpl in *. f_equal. symmetry. by apply delete_id.
  - by eexists.
Qed.

(** Without any fault the promotion succeeds exactly when the new binary and the installed one
    are on the same file system. The new binary is unpacked in the system's directory for
    temporary files, so where that is a file system of its own every update fails, and the old
    binary stays. *)
Theorem promote_needs_one_device w old t data t' :
  real (w_fs w) D → real (w_fs w) N → w_fs w !! cur = Some (NFile old t) → w_fs w !! new = Some (NFile data t') →
  w_faults w = [] → w_fs w !! prev = None ∨ (∃ d t, w_fs w !! prev = Some (NFile d t)) → device cur = device prev →
  let '(r, w') := promoteBinary device (entry N x) (entry D b) (entry D b') w in
  if Nat.eqb (device new) (device cur)
  then r = Ok tt ∧ w_fs w' !! cur = Some (NFile data t') ∧ w_fs w' !! prev = Some (NFile old t) ∧ w_fs w' !! new = None
  else r = Err (ErrWrap "promote updated binary" EXDEV) ∧ w_fs w' !! cur = Some (NFile old t) ∧
       w_fs w' !! new = Some (NFile data t').
Proof.
  intros HD HN Hcur Hnew Hnf Hprev Hdev. unfold promoteBinary.
  unfold mbind at 1, St_bind at 1, try at 1. rewrite Stat_nofault by (first [done|fold cur; intros ?; by rewrite Hcur]).
  fold cur. rewrite Hcur. destruct (Remove_file w HD Hnf Hprev) as [r2 E2].
  unfold mbind at 1, St_bind at 1, mbind at 1, St_bind at 1, ignore_err at 1, wrap at 1. rewrite E2. cbn [snd].
  set (w2 := w <| w_fs ::= delete prev |>).
  destruct (delete_prev (w_fs w) old t (NFile data t') (w_fs w2) HD HN Hcur Hnew ltac:(by right)) as (HD2 & HN2 & Hcur2 & Hnew2).
  assert (Hprev2 : w_fs w2 !! prev = None) by (apply lookup_delete_eq).
  assert (Hcp : cur ≠ prev) by (intros E%app_inv_head; by injection E).
  assert (Hcpp : below cur prev = false) by (apply below_false; by apply siblings_apart).
  rewrite (Rename_entry device D D b b' w2) by done. fold cur prev.
  rewrite Hcur2, Hprev2, bool_decide_false, Hcpp by done. simpl andb. rewrite Hdev, Nat.eqb_refl. cbn [negb].
  set (w3 := w2 <| w_fs ::= relocate cur prev |>).
  destruct (retained (w_fs w2) old t _ HD2 HN2 Hcur2 Hnew2) as (HD3 & HN3 & Hcur3 & Hprev3 & Hnew3).
  change (relocate cur prev (w_fs w2)) with (w_fs w3) in *.
  assert (Hnc' : new ≠ cur) by (intros E; apply Hnc; by rewrite E).
  assert (Hncb : below new cur = false) by by apply below_false.
  unfold mbind at 1, St_bind at 1, try at 1. rewrite (Rename_entry device N D x b w3) by done. fold new cur.
  rewrite Hnew3, Hcur3, bool_decide_false, Hncb by done. simpl andb. rewrite <-Hdev.
  destruct (Nat.eqb (device new) (device cur)); cbn [negb].
  - cbn. change (upd_field w_fs _ w3) with (w3 <| w_fs ::= relocate new cur |>). split; [done|].
    change (w_fs (w3 <| w_fs ::= relocate new cur |>)) with (relocate new cur (w_fs w3)).
    split_and!; [by rewrite relocate_dest| |].
    + by rewrite relocate_other; [|apply siblings_apart|].
    + by rewrite relocate_src.
  - unfold mbind at 1, St_bind at 1, try at 1. rewrite Stat_nofault by (first [done|fold prev; intros ?; by rewrite Hprev3]).
    fold prev. rewrite Hprev3. unfold mbind at 1, St_bind at 1, ignore_err.
    assert (Hpcb : below prev cur = false) by (apply below_false; by apply siblings_apart).
    rewrite (Rename_entry device D D b' b w3) by done. fold cur prev.
    rewrite Hprev3, Hcur3, bool_decide_false, Hpcb by done. simpl andb. rewrite Hdev, Nat.eqb_refl. cbn.
    split_and!; [done|by rewrite relocate_dest|].
    rewrite relocate_other; [done| |]; done.
Qed.
End promote.

(** ** What an update installs *)

(** Every entry is in a directory. *)
Definition tree (fs : files) : Prop := ∀ (p : location) c, is_Some (fs !! (p ++ [c])) → node_at fs p = Some NDir.

Lemma tree_missing fs p k : tree fs → node_at fs p = None → p `prefix_of` k → fs !! k = None.
Proof.
  intros Ht Hp [l ->]. induction l as [|c l IH] using rev_ind.
  { rewrite app_nil_r. unfold node_at in Hp. by case_bool_decide. }
  apply eq_None_not_Some. intros Hs. rewrite app_assoc in Hs. apply Ht in Hs. unfold node_at in Hs.
  case_bool_decide as E; [|by rewrite IH in Hs].
  apply app_eq_nil in E as [-> _]. unfold node_at in Hp. by rewrite bool_decide_true in Hp.
Qed.

Section install.
Context `{Libs : !Libraries} (device : location → nat) (goos goarch : string) (tempDir : Path) (executable : result string).

(** Whatever an update downloads is one file, at the place it asked for. *)
Lemma download_ok K c url w u w' :
  nolinks K (w_fs w) → c ≠ ".." → download url (entry K c) w = (Ok u, w') →
  ∃ d t, w_fs w' = <[K ++ [c] := NFile d t]> (w_fs w).
Proof.
  intros Hn Hc. assert (Hu : under K (entry K c)) by (exists [c]; split_and!; [done..|by intros Hin%list_elem_of_singleton]).
  assert (HK : plain K) by apply Hn.
  assert (Hcopy : ∀ src, copyFile src (entry K c) w = (Ok u, w') → ∃ d t, w_fs w' = <[K ++ [c] := NFile d t]> (w_fs w)).
  { intros src H. apply bind_ok in H as (? & w1 & H1%wrap_ok & H).
    assert (Hfs1 : w_fs w1 = w_fs w).
    { pose proof (MkdirAll_above_fs K (Dir (entry K c)) w) as Hm. rewrite H1 in Hm. cbn [snd] in Hm. apply Hm; [apply Hn|done|].
      unfold Dir, entry. cbn [parts rooted]. rewrite removelast_last, Clean_plain by done. done. }
    apply bind_ok in H as (input & w2 & H2%wrap_ok & H). apply Open_ok in H2 as (Hfs2 & _).
    apply bind_ok in H as (out & w3 & H3%wrap_ok & H).
    apply bind_ok in H as (data & w4 & H4%wrap_ok & H5%wrap_ok).
    assert (Hn2 : nolinks K (w_fs w2)) by (by rewrite Hfs2, Hfs1).
    apply (Create_ok K) in H3 as (-> & Hfs3 & _); [|done..].
    apply read_all_ok in H4 as (Hfs4 & _). apply write_all_ok in H5 as [Hfs5 _].
    rewrite Hfs5, Hfs4, Hfs3, Hfs2, Hfs1. unfold append_to. cbn [parts entry]. rewrite lookup_insert_eq, insert_insert_eq. by eexists _, _. }
  unfold download. destruct (parse_url url) as [parsed|]; [|by intros []%fail_ok].
  destruct (String.eqb (url_Scheme parsed) "file"); [apply Hcopy|]. destruct (String.eqb (url_Scheme parsed) ""); [apply Hcopy|].
  intros H. apply bind_ok in H as (reply & w1 & H1 & H).
  assert (Hfs1 : w_fs w1 = w_fs w).
  { change w1 with ((Ok reply, w1).2). rewrite <-H1. apply http_get_fs. }
  destruct reply as [|status body complete]; [by apply fail_ok in H|].
  apply bind_ok in H as (? & w2 & [_ ->]%guard_ok & H).
  apply bind_ok in H as (out & w3 & H3%wrap_ok & H4%wrap_ok).
  apply (Create_ok K) in H3 as (-> & Hfs3 & _); [|by rewrite Hfs1|done].
  apply copy_from_ok in H4 as [Hfs4 _]. rewrite Hfs4, Hfs3, Hfs1. unfold append_to. cbn [parts entry].
  rewrite lookup_insert_eq, insert_insert_eq. by eexists _, _.
Qed.

Lemma verifyRelease_ok K c sha size w u w' :
  nolinks K (w_fs w) → c ≠ ".." → is_Some (w_fs w !! (K ++ [c])) →
  verifyRelease (entry K c) sha size w = (Ok u, w') →
  w_fs w' = w_fs w ∧ ∃ d t, w_fs w !! (K ++ [c]) = Some (NFile d t) ∧ size_matches d size = true ∧
    equal_fold (trim_prefix sha "sha256:") (hash_hex d) = true.
Proof.
  intros Hn Hc Hs H. apply bind_ok in H as (q & w1 & H1%wrap_ok & H). apply Open_ok in H1 as (Hfs1 & Hw & _).
  assert (q = K ++ [c]) as ->.
  { refine (walk_under_nolinks K (w_fs w) (entry K c) max_links true (w_cwd w) q Hn _ Hw). exists [c].
    split_and!; [done..|by intros Hin%list_elem_of_singleton]. }
  apply bind_ok in H as (d & w2 & H2%wrap_ok & H). apply read_all_ok in H2 as (Hfs2 & Hd).
  apply bind_ok in H as (? & w3 & [Hsz ->]%guard_ok & [Hh ->]%guard_ok).
  split; [by rewrite Hfs2|]. rewrite Hfs1, node_at_entry in Hd. destruct Hd as [[t Hd]|Hd]; [|by rewrite Hd in Hs; destruct Hs].
  by exists d, t.
Qed.

(** The state of the temporary directory while an artifact is unpacked: the artifact [a], and below
    [extract] only files of the archive; the directory [D] of the installation is there. *)
Definition unpacking (K D : location) (art : string) (a : string) (bodies : list string) (fs : files) : Prop :=
  nolinks K fs ∧ (∃ t, fs !! (K ++ [art]) = Some (NFile a t)) ∧
  (∀ p d t, (K ++ ["extract"]) `prefix_of` p → fs !! p = Some (NFile d t) → d ∈ bodies) ∧ real fs D.

Lemma unpacking_mkdir K D art a bodies fs q :
  unpacking K D art a bodies fs → node_at fs q = None → unpacking K D art a bodies (<[q:=NDir]> fs).
Proof.
  intros (Hn & [t Ha] & Hf & HD) Hq. unfold node_at in Hq. case_bool_decide as Hq0; [done|]. split_and!.
  - destruct Hn as [[HK [Hpl Hd]] Hl]. split; [split; [done|split; [done|]]|].
    + intros p Hp HpK. destruct (decide (p = q)) as [->|?]; [apply lookup_insert_eq|].
      rewrite lookup_insert_ne by done. by apply Hd.
    + intros p t' Hp. destruct (decide (p = q)) as [->|?]; [by rewrite lookup_insert_eq|].
      rewrite lookup_insert_ne by done. by apply Hl.
  - exists t. rewrite lookup_insert_ne; [done|]. intros ->. by rewrite Hq in Ha.
  - intros p d t' Hp. destruct (decide (p = q)) as [->|?]; [by rewrite lookup_insert_eq|].
    rewrite lookup_insert_ne by done. by apply Hf.
  - destruct HD as [HDp HD]. split; [done|]. intros k Hk HkD. destruct (decide (k = q)) as [->|?]; [apply lookup_insert_eq|].
    rewrite lookup_insert_ne by done. by apply HD.
Qed.

Lemma unpacking_file K D art a bodies fs p d t :
  ¬ K `prefix_of` D → art ≠ "extract" → unpacking K D art a bodies fs → (K ++ ["extract"]) `prefix_of` p → d ∈ bodies →
  unpacking K D art a bodies (<[p:=NFile d t]> fs).
Proof.
  intros HKD Hart (Hn & [t' Ha] & Hf & HD) Hp Hd. split_and!.
  - apply nolinks_insert; [done| | |done].
    + trans (K ++ ["extract"]); [by eexists|done].
    + intros ->. by apply child_not_prefix in Hp.
  - exists t'. rewrite lookup_insert_ne; [done|]. intros ->. apply siblings_apart in Hp; congruence.
  - intros k d' t'' Hk. destruct (decide (k = p)) as [->|?].
    + rewrite lookup_insert_eq. by intros [= <- _].
    + rewrite lookup_insert_ne by done. by apply Hf.
  - apply real_insert; [done|]. intros HpD. apply HKD. trans (K ++ ["extract"]); [by eexists|]. by trans p.
Qed.

(** One write below [extract]. *)
Lemma unpacking_write K D art a bodies p w q w1 d u w' :
  ¬ K `prefix_of` D → art ≠ "extract" → unpacking K D art a bodies (w_fs w) → (K ++ ["extract"]) `prefix_of` parts p → under K p → d ∈ bodies →
  Create p w = (Ok q, w1) → write_all q d w1 = (Ok u, w') → unpacking K D art a bodies (w_fs w').
Proof.
  intros HKD Hart Hun Hp Hu Hd Hc Hw. pose proof Hun as (Hn & _).
  destruct (create_write K p w q w1 d u w' Hn Hu Hc Hw) as [-> _]. by apply unpacking_file.
Qed.

Lemma unpacking_MkdirAll K D art a bodies p w u w' :
  unpacking K D art a bodies (w_fs w) → MkdirAll p w = (Ok u, w') → unpacking K D art a bodies (w_fs w').
Proof. intros Hun H. eapply (MkdirAll_ok (unpacking K D art a bodies)); [|exact H|done]. intros. by apply unpacking_mkdir. Qed.

(** Reading the artifact gives the artifact. *)
Lemma unpacking_read K D art a bodies w q w1 d w' :
  art ≠ ".." → unpacking K D art a bodies (w_fs w) → Open (entry K art) w = (Ok q, w1) →
  (∃ fs1, w_fs fs1 = w_fs w1 ∧ read_all q fs1 = (Ok d, w')) → d = a.
Proof.
  intros Ha (Hn & [t Hf] & _) Ho (w2 & Hfs & Hr). apply Open_ok in Ho as (Hfs1 & Hw & _).
  assert (q = K ++ [art]) as ->.
  { refine (walk_under_nolinks K (w_fs w) (entry K art) max_links true (w_cwd w) q Hn _ Hw). exists [art].
    split_and!; [done..|by intros Hin%list_elem_of_singleton]. }
  apply read_all_ok in Hr as (_ & Hd). rewrite Hfs, Hfs1, node_at_entry, Hf in Hd. destruct Hd as [[t' Hd]|Hd]; congruence.
Qed.

Lemma extract_entry_ok K D art a bodies dest e w u w' :
  ¬ K `prefix_of` D → art ≠ "extract" → plain K → dest = {| rooted := true; parts := K ++ ["extract"] |} → ze_Body e ∈ bodies →
  unpacking K D art a bodies (w_fs w) → extract_update_entry dest e w = (Ok u, w') → unpacking K D art a bodies (w_fs w').
Proof.
  intros HKD Hart HK -> Hb Hun H. unfold extract_update_entry in H.
  set (target := Clean _) in H.
  assert (Hplain : plain (parts target)) by by apply Clean_rooted_plain.
  apply bind_ok in H as (? & w1 & [Hg ->]%guard_ok & H).
  assert (Hbelow : (K ++ ["extract"]) `prefix_of` parts target).
  { apply below_true. rewrite Clean_plain in Hg; [done|]. apply plain_app; [done|]. by intros Hin%list_elem_of_singleton. }
  assert (Hu : under K target).
  { destruct Hbelow as [l Hl]. exists ("extract" :: l). split_and!; [done|by rewrite Hl, <-app_assoc|].
    rewrite Hl, <-app_assoc in Hplain. intros Hin. apply Hplain. apply elem_of_app. by right. }
  destruct (ze_IsDir e).
  { apply wrap_ok in H. by eapply unpacking_MkdirAll. }
  apply bind_ok in H as (? & w2 & H2%wrap_ok & H). apply bind_ok in H as (? & w3 & [_ ->]%wrap_ok%lift_ok & H).
  apply bind_ok in H as (q & w4 & H4%wrap_ok & H5%wrap_ok). apply bind_ok in H5 as (? & w5 & H5 & [_ ->]%guard_ok).
  eapply unpacking_write; [done|done| |exact Hbelow|done|exact Hb|exact H4|exact H5]. by eapply unpacking_MkdirAll.
Qed.

(** What unpacking an artifact leaves: copies of it, or the bodies of its entries. *)
Definition unpacked_bodies (archiveType a : string) : list string :=
  if String.eqb archiveType "" || String.eqb archiveType "binary" then [a]
  else match read_zip a with Ok entries => ze_Body <$> entries | Err _ => [] end.

Lemma extractUpdateArtifact_ok K D art a artifact w u w' :
  ¬ K `prefix_of` D → art ≠ "extract" → art ≠ ".." → plain K →
  escapes (Clean (read_path (FromSlash goos (rt_ExecutablePath artifact)))) = false →
  let bodies := unpacked_bodies (rt_ArchiveType artifact) a in
  unpacking K D art a bodies (w_fs w) →
  extractUpdateArtifact goos (entry K art) (rt_ArchiveType artifact) (rt_ExecutablePath artifact) (entry K "extract") w = (Ok u, w') →
  unpacking K D art a bodies (w_fs w').
Proof.
  intros HKD Hart Hdd HK He. cbv zeta. intros Hun H. unfold extractUpdateArtifact in H.
  assert (HKe : plain (K ++ ["extract"])) by (apply plain_app; [done|]; by intros Hin%list_elem_of_singleton).
  unfold unpacked_bodies in *. destruct (String.eqb (rt_ArchiveType artifact) "" || _) eqn:Ebin.
  - destruct (String.eqb (rt_ExecutablePath artifact) ""); [by apply fail_ok in H|].
    destruct (Join_inside (entry K "extract") (FromSlash goos (rt_ExecutablePath artifact)) HKe He) as [Hj Hjp].
    rewrite Hj in H. cbn [parts entry rooted] in H. set (l := parts (Clean _)) in *. set (dest := {| rooted := true; parts := _ |}) in H.
    apply bind_ok in H as (? & w1 & H1%wrap_ok & H).
    assert (Hun1 : unpacking K D art a [a] (w_fs w1)) by by eapply unpacking_MkdirAll.
    apply bind_ok in H as (q0 & w2 & H2%wrap_ok & H).
    pose proof H2 as (Hfs2 & Hw2 & _)%Open_ok. pose proof Hun1 as (Hn1 & [ta Ha] & _).
    assert (q0 = K ++ [art]) as ->.
    { refine (walk_under_nolinks K (w_fs w1) (entry K art) max_links true (w_cwd w1) q0 Hn1 _ Hw2). exists [art].
      split_and!; [done..|by intros Hin%list_elem_of_singleton]. }
    apply bind_ok in H as (q & w3 & H3%wrap_ok & H). apply bind_ok in H as (data & w4 & H4%wrap_ok & H5%wrap_ok).
    assert (Hun2 : unpacking K D art a [a] (w_fs w2)) by by rewrite Hfs2.
    assert (Hu : under K dest) by (exists ("extract" :: l); split_and!; [done|unfold dest; cbn [parts]; by rewrite <-app_assoc|by apply (plain_app ["extract"] l); [intros Hin%list_elem_of_singleton|]]).
    assert (Hbelow : (K ++ ["extract"]) `prefix_of` parts dest) by (by exists l).
    apply (Create_ok K) in H3 as (-> & Hfs3 & Hnow3 & Hne & _); [|by destruct Hun2|done].
    apply read_all_ok in H4 as (Hfs4 & Hd). rewrite Hfs3, node_at_entry, lookup_insert_ne, Hfs2, Ha in Hd; cycle 1.
    { intros E. rewrite E in Hbelow. apply siblings_apart in Hbelow; congruence. }
    destruct Hd as [[td Hd]|Hd]; [|done]. injection Hd as <- _.
    apply write_all_ok in H5 as [Hfs5 _]. rewrite Hfs5, Hfs4, Hfs3. unfold append_to. rewrite lookup_insert_eq, insert_insert_eq.
    apply unpacking_file; [done|done|done|done|by left].
  - destruct (String.eqb (rt_ArchiveType artifact) "zip"); [|by apply fail_ok in H].
    apply bind_ok in H as (q0 & w1 & H1%wrap_ok & H). apply bind_ok in H as (data & w2 & H2%wrap_ok & H).
    assert (data = a) as -> by (eapply unpacking_read; [exact Hdd|exact Hun|exact H1|by exists w1]).
    pose proof H1 as (Hfs1 & _)%Open_ok. pose proof H2 as (Hfs2 & _)%read_all_ok.
    apply bind_ok in H as (entries & w3 & [Hz ->]%wrap_ok%lift_ok & H). rewrite Hz in *.
    assert (Hun2 : unpacking K D art a (ze_Body <$> entries) (w_fs w2)) by (by rewrite Hfs2, Hfs1).
    assert (Hgen : ∀ l w u w', (∀ e, e ∈ l → e ∈ entries) → unpacking K D art a (ze_Body <$> entries) (w_fs w) →
      for_each (extract_update_entry (entry K "extract")) l w = (Ok u, w') → unpacking K D art a (ze_Body <$> entries) (w_fs w')).
    { clear -Hart HK HKD. induction l as [|e l IH]; intros w u w' Hin Hun H; simpl in H; [by run_inv|].
      apply bind_ok in H as (? & w1 & H1 & H). eapply IH; [|by eapply extract_entry_ok; [..|exact H1];
        [done|done|done|done|apply list_elem_of_fmap; exists e; split; [done|apply Hin; by left]|done]|exact H].
      intros e' He'. apply Hin. by right. }
    by eapply Hgen; [| |exact H].
Qed.

(** *** The promotion *)

Lemma Rename_ok p q w u w' :
  Rename device p q w = (Ok u, w') → ∃ src dest,
    walk (w_fs w) max_links false (if rooted p then [] else w_cwd w) (parts p) = Ok src ∧
    walk (w_fs w) max_links false (if rooted q then [] else w_cwd w) (parts q) = Ok dest ∧
    is_Some (node_at (w_fs w) src) ∧ (src = dest ∧ w_fs w' = w_fs w ∨ w_fs w' = relocate src dest (w_fs w)).
Proof.
  intros (faults & H)%syscall_ok. apply bind_ok in H as (src & w1 & [Hs ->]%resolve_ok & H).
  unfold node_of in H. apply bind_ok in H as (n & w1 & [-> ->]%gets_ok & H).
  apply bind_ok in H as (dest & w1 & [Hd ->]%resolve_ok & H). apply bind_ok in H as (m & w1 & [-> ->]%gets_ok & H).
  simpl in *. exists src, dest. split; [done|]. split; [done|].
  destruct (node_at (w_fs w) src) as [n|]; [|by apply fail_ok in H]. split; [by eexists|].
  repeat case_match; unfold set_fs in H; run_inv; simpl; try (by left; case_bool_decide); by right.
Qed.

Section promoted.
Context (K D : location) (b b' : string).
Let cur : location := D ++ [b].
Let prev : location := D ++ [b'].
Context (Hb : b ≠ "..") (Hb' : b' ≠ "..") (Hbb : b ≠ b').
Context (HKc : ¬ K `prefix_of` cur) (HKp : ¬ K `prefix_of` prev) (HcK : ¬ cur `prefix_of` K) (HpK : ¬ prev `prefix_of` K).

(** A path below [K] has nothing to do with one beside it. *)
Lemma apart (p k : location) : ¬ K `prefix_of` p → ¬ p `prefix_of` K → K `prefix_of` k → ¬ p `prefix_of` k.
Proof.
  intros H1 H2 [l ->] [m E]. destruct (decide (length p ≤ length K)%nat).
  - apply H2. exists (drop (length p) K). assert (Ht : take (length p) (K ++ l) = take (length p) (p ++ m)) by by rewrite E.
    rewrite take_app_le, take_app_length in Ht by lia. by rewrite <-Ht at 1; rewrite take_drop.
  - apply H1. exists (drop (length K) p). assert (Ht : take (length K) (K ++ l) = take (length K) (p ++ m)) by by rewrite E.
    rewrite take_app_length, take_app_le in Ht by lia. by rewrite Ht at 1; rewrite take_drop.
Qed.

(** What is below [K] is not touched when the old binary is put aside. *)
Definition same_below (fs fs' : files) : Prop := ∀ k, K `prefix_of` k ∨ k `prefix_of` K → fs' !! k = fs !! k.

Lemma same_below_nolinks fs fs' : same_below fs fs' → nolinks K fs → nolinks K fs'.
Proof.
  intros Hs [[HK [Hpl Hd]] Hl]. split; [split; [done|split; [done|]]|].
  - intros q Hq HqK. rewrite Hs by (by right). by apply Hd.
  - intros p t Hp. rewrite Hs by (by left). by apply Hl.
Qed.

Lemma aside_below fs fs1 fs' :
  fs1 = fs ∨ fs1 = delete prev fs → fs' = fs1 ∨ fs' = relocate cur prev fs1 → same_below fs fs'.
Proof.
  intros H1 H2 k Hk.
  assert (Hpk : ¬ prev `prefix_of` k).
  { destruct Hk as [Hk|Hk]; [by apply apart|]. intros Hp. apply HpK. by trans k. }
  assert (Hck : ¬ cur `prefix_of` k).
  { destruct Hk as [Hk|Hk]; [by apply apart|]. intros Hp. apply HcK. by trans k. }
  assert (E1 : fs1 !! k = fs !! k).
  { destruct H1 as [->| ->]; [done|]. rewrite lookup_delete_ne; [done|]. by intros <-. }
  destruct H2 as [->| ->]; [done|]. by rewrite relocate_other.
Qed.

Lemma promote_ok l w u w' :
  real (w_fs w) D → nolinks K (w_fs w) → plain l → l ≠ [] →
  promoteBinary device {| rooted := true; parts := K ++ l |} (entry D b) (entry D b') w = (Ok u, w') →
  w_fs w' !! cur = w_fs w !! (K ++ l) ∧ is_Some (w_fs w !! (K ++ l)) ∧ real (w_fs w') K.
Proof.
  intros HD HK Hl Hne H. unfold promoteBinary in H.
  unfold mbind at 1, St_bind at 1, try at 1 in H.
  pose proof (Stat_fs (entry D b) w) as Hfs1. destruct (Stat (entry D b) w) as [r1 w1]. simpl in Hfs1.
  apply bind_ok in H as (u2 & w2 & H2 & H).
  assert (Haside : ∃ fsm, (fsm = w_fs w ∨ fsm = delete prev (w_fs w)) ∧ (w_fs w2 = fsm ∨ w_fs w2 = relocate cur prev fsm)).
  { destruct r1 as [n|e]; [|apply ret_ok in H2 as [_ ->]; exists (w_fs w); split; [by left|by left]].
    apply bind_ok in H2 as (? & w1' & H1%ignore_err_ok & H2%wrap_ok).
    destruct (Remove (entry D b') w1) as [rr wr] eqn:Er. simpl in H1. subst wr.
    pose proof (Remove_entry_cases D b' w1 rr w1' ltac:(by rewrite Hfs1) Hb' Er) as Hrm. rewrite Hfs1 in Hrm.
    exists (w_fs w1'). split; [done|]. apply Rename_entry_cases in H2; [| | |done..|]; cycle 1.
    - destruct Hrm as [->| ->]; [done|]. apply real_delete; [done|apply child_not_prefix].
    - destruct Hrm as [->| ->]; [done|]. apply real_delete; [done|apply child_not_prefix].
    - intros E%app_inv_head. by injection E.
    - destruct H2 as [(e & [=] & _)|(_ & ? & _)]. by right. }
  destruct Haside as (fsm & Hm1 & Hm2). pose proof (aside_below _ _ _ Hm1 Hm2) as Hsame.
  assert (HD2 : real (w_fs w2) D).
  { assert (real fsm D) by (destruct Hm1 as [->| ->]; [done|apply real_delete; [done|apply child_not_prefix]]).
    destruct Hm2 as [->| ->]; [done|]. apply real_relocate; [done|apply child_not_prefix..]. }
  assert (HK2 : nolinks K (w_fs w2)) by by eapply same_below_nolinks.
  unfold mbind at 1, St_bind at 1, try at 1 in H. destruct (Rename device _ _ w2) as [[u3|e] w3] eqn:E3; cycle 1.
  { exfalso. unfold mbind at 1, St_bind at 1, try at 1 in H. destruct (Stat _ w3) as [r4 w4].
    apply bind_ok in H as (? & w5 & _ & []%fail_ok). }
  apply ret_ok in H as [_ ->]. apply Rename_ok in E3 as (src & dest & Hs & Hd & Hsome & E3).
  assert (src = K ++ l) as ->.
  { refine (walk_under_nolinks K (w_fs w2) {| rooted := true; parts := K ++ l |} max_links false (w_cwd w2) src HK2 _ Hs).
    by exists l. }
  cbn [rooted entry parts] in Hd. rewrite walk_entry in Hd by done. injection Hd as <-.
  rewrite <-(Hsame (K ++ l)) by (left; by eexists).
  destruct E3 as [[E _]|E3]; [exfalso; apply HKc; unfold cur; rewrite <-E; by eexists|]. split_and!.
  - rewrite E3. apply relocate_dest.
  - destruct Hsome as [n Hn]. exists n. unfold node_at in Hn. rewrite bool_decide_false in Hn; [done|].
    intros E. apply Hne. by apply app_eq_nil in E as [_ ?].
  - rewrite E3. apply real_relocate; [apply HK2| |done]. intros [k E]. apply (f_equal length) in E.
    rewrite !length_app in E. destruct l; [done|simpl in E; lia].
Qed.
End promoted.

(** *** The whole update *)

Lemma MkdirTemp_fresh dir prefix w p w' :
  real (w_fs w) (parts dir) → rooted dir = true → parts dir ≠ [] → (∀ name, prefix +:+ name ≠ "..") → tree (w_fs w) →
  MkdirTemp dir prefix w = (Ok p, w') →
  ∃ name, p = entry (parts dir) (prefix +:+ name) ∧ w_fs w' = <[parts dir ++ [prefix +:+ name] := NDir]> (w_fs w) ∧
    ∀ k, (parts dir ++ [prefix +:+ name]) `prefix_of` k → w_fs w !! k = None.
Proof.
  intros HT Hr HTne Hpre Htree (faults & H)%syscall_ok. apply bind_ok in H as (names & w1 & [_ ->]%gets_ok & H).
  assert (Hgen : ∀ w1, w_fs w1 = w_fs w → draw_name dir prefix names w1 = (Ok p, w') →
    ∃ name, p = entry (parts dir) (prefix +:+ name) ∧ w_fs w' = <[parts dir ++ [prefix +:+ name] := NDir]> (w_fs w) ∧
      ∀ k, (parts dir ++ [prefix +:+ name]) `prefix_of` k → w_fs w !! k = None); [|by eapply Hgen; [|exact H]].
  clear H. induction names as [|name rest IH]; intros w1 Hfs H; cbn [draw_name] in H; [by apply fail_ok in H|].
  apply bind_ok in H as (? & w2 & Hm%modify_ok & H). rewrite Hr in H.
  apply bind_ok in H as (q & w3 & [Hw ->]%resolve_ok & H). cbn [rooted parts] in Hw.
  assert (Hfs2 : w_fs w2 = w_fs w) by by rewrite Hm.
  rewrite walk_entry in Hw; [|by rewrite Hfs2|apply Hpre]. injection Hw as <-.
  unfold node_of in H. apply bind_ok in H as (n & w4 & [-> ->]%gets_ok & H). rewrite node_at_entry in H.
  destruct (w_fs w2 !! (parts dir ++ [prefix +:+ name])) as [n|] eqn:En; [by apply (IH w2)|].
  apply bind_ok in H as (? & w5 & H5%modify_ok & [-> ->]%ret_ok). exists name. split; [done|].
  rewrite H5. cbn [w_fs upd_field]. rewrite Hfs2. split; [done|]. intros k Hk. eapply tree_missing; [done| |done].
  by rewrite node_at_entry, <-Hfs2.
Qed.

(** The released artifact that was verified. *)
Definition released (m : UpdateManager) (artifact : RuntimeArtifact) (data version : string) : Prop :=
  ∃ manifest key, VerifySignature manifest (up_PublicKey m) = Ok tt ∧ rm_Engine manifest = "thirdshift" ∧
    rm_Artifacts manifest !! key = Some artifact ∧ rm_Version manifest = version ∧
    size_matches data (rt_SizeBytes artifact) = true ∧
    equal_fold (trim_prefix (rt_SHA256 artifact) "sha256:") (hash_hex data) = true.

Lemma VerifyDownloaded_ok m manifest key artifact K c w u w' :
  nolinks K (w_fs w) → c ≠ ".." → is_Some (w_fs w !! (K ++ [c])) → rm_Artifacts manifest !! key = Some artifact →
  VerifyDownloadedArtifact manifest key (entry K c) (up_PublicKey m) w = (Ok u, w') →
  w_fs w' = w_fs w ∧ ∃ d t, w_fs w !! (K ++ [c]) = Some (NFile d t) ∧ released m artifact d (rm_Version manifest).
Proof.
  intros Hn Hc Hs Ha H. apply bind_ok in H as (uv & w1 & [Hv ->]%lift_ok & H).
  apply bind_ok in H as (? & w2 & [He ->]%guard_ok & H). apply bind_ok in H as (a & w3 & [Ha' ->]%of_option_ok & H).
  rewrite Ha in Ha'. injection Ha' as <-. apply bind_ok in H as (? & w4 & [_ ->]%guard_ok & H).
  apply (verifyRelease_ok K) in H as (Hfs & d & t & Hd & Hsz & Hh); [|done..]. split; [done|].
  exists d, t. split; [done|]. apply String.eqb_eq in He. destruct uv. exists manifest, key. by split_and!.
Qed.

Lemma child_not_above (K D : location) c : ¬ K `prefix_of` D → ¬ (K ++ [c]) `prefix_of` D.
Proof. intros H Hp. apply H. trans (K ++ [c]); [by eexists|done]. Qed.

Lemma LoadReleaseManifest_fs p w m w' : LoadReleaseManifest p w = (Ok m, w') → w_fs w' = w_fs w.
Proof.
  intros H. apply bind_ok in H as (d & w1 & H%wrap_ok & [_ ->]%lift_ok).
  apply bind_ok in H as (q & w2 & H1 & H2). apply Open_ok in H1 as [H1 _]. apply read_all_ok in H2 as [H2 _].
  by rewrite H2.
Qed.

Lemma Chmod_fs p w u w' : Chmod p w = (Ok u, w') → w_fs w' = w_fs w.
Proof.
  intros H. apply bind_ok in H as (n & w1 & H & [_ ->]%ret_ok). pose proof (Stat_fs p w) as Hs. by rewrite H in Hs.
Qed.

Lemma entry_join K c : plain K → read_path c = {| rooted := false; parts := [c] |} → c ≠ ".." → Join {| rooted := true; parts := K |} c = entry K c.
Proof. intros HK Hc Hdd. apply child_join; done. Qed.

(** Where the new binary ends up, for a given temporary directory [K]. *)
Lemma update_in_ok m loc K D b b' current installDir w res w' :
  let cur := D ++ [b] in let prev := D ++ [b'] in
  nolinks K (w_fs w) → (∀ k, K `prefix_of` k → k ≠ K → w_fs w !! k = None) → real (w_fs w) D →
  currentPath executable m = Ok (current, installDir) →
  read_path current = entry D b → read_path (previousBinaryPath current) = entry D b' →
  b ≠ ".." → b' ≠ ".." → b ≠ b' →
  ¬ K `prefix_of` cur → ¬ K `prefix_of` prev → ¬ cur `prefix_of` K → ¬ prev `prefix_of` K → ¬ K `prefix_of` D →
  update_in device goos goarch executable m loc {| rooted := true; parts := K |} w = (Ok res, w') →
  ∃ artifact data, released m artifact data (ur_Version res) ∧
    (escapes (Clean (read_path (FromSlash goos (rt_ExecutablePath artifact)))) = false →
     real (w_fs w') K ∧ is_Some (w_fs w' !! cur) ∧
     ∀ d t, w_fs w' !! cur = Some (NFile d t) → d ∈ unpacked_bodies (rt_ArchiveType artifact) data).
Proof.
  cbv zeta. intros HK Hempty HD Hcp Hrc Hrp Hb Hb' Hbb HKc HKp HcK HpK HKD H.
  assert (HKpl : plain K) by apply HK. assert (HKne : K ≠ []) by apply HK.
  unfold update_in in H. rewrite !entry_join in H by done. cbv zeta in H.
  apply bind_ok in H as (? & w1 & H1 & H). apply (download_ok K) in H1 as (d1 & t1 & Hfs1); [|done..].
  apply bind_ok in H as (manifest & w2 & Hfs2%LoadReleaseManifest_fs & H).
  apply bind_ok in H as (? & w3 & [Hv ->]%lift_ok & H). apply bind_ok in H as (? & w3 & [He ->]%guard_ok & H).
  apply bind_ok in H as ([artifact key] & w3 & [Hsel ->]%lift_ok & H).
  assert (Hart : rm_Artifacts manifest !! key = Some artifact).
  { unfold selectArtifact in Hsel. destruct (rm_Artifacts manifest !! _) eqn:E; [|done]. by injection Hsel as <- <-. }
  assert (HK2 : nolinks K (w_fs w2)).
  { rewrite Hfs2, Hfs1. apply nolinks_insert; [done|by eexists| |done]. intros E. apply (f_equal length) in E.
    rewrite length_app in E. simpl in E. lia. }
  apply bind_ok in H as (? & w4 & H4 & H). apply (download_ok K) in H4 as (d4 & t4 & Hfs4); [|done..].
  assert (HK4 : nolinks K (w_fs w4)).
  { rewrite Hfs4. apply nolinks_insert; [done|by eexists| |done]. intros E. apply (f_equal length) in E.
    rewrite length_app in E. simpl in E. lia. }
  apply bind_ok in H as (? & w5 & H5 & H).
  apply (VerifyDownloaded_ok m manifest key artifact K) in H5 as (Hfs5 & data & t & Hdata & Hrel);
    [|done|done|by rewrite Hfs4, lookup_insert_eq|done].
  apply bind_ok in H as (? & w6 & H6%wrap_ok & H).
  set (bodies := unpacked_bodies (rt_ArchiveType artifact) data).
  assert (Hun5 : unpacking K D defaultDownloadedArtifactName data bodies (w_fs w5)).
  { rewrite Hfs5. split_and!; [done|by exists t| |]; cycle 1.
    { rewrite Hfs4, Hfs2, Hfs1. by repeat apply real_insert; [|apply child_not_above..]. }
    intros p d t' Hp. rewrite Hfs4, Hfs2, Hfs1.
    rewrite !lookup_insert_ne, Hempty; [done| | | |].
    - trans (K ++ ["extract"]); [by eexists|done].
    - intros ->. by apply child_not_prefix in Hp.
    - intros <-. apply siblings_apart in Hp; [done|]. done.
    - intros <-. apply siblings_apart in Hp; [done|]. done. }
  assert (Hun6 : unpacking K D defaultDownloadedArtifactName data bodies (w_fs w6)) by by eapply unpacking_MkdirAll.
  apply bind_ok in H as (? & w7 & H7 & H).
  apply bind_ok in H as (nb & w8 & H8%wrap_ok & H). apply bind_ok in H as (? & w9 & H9 & H).
  apply bind_ok in H as ([current' installDir'] & w10 & [Hcp' ->]%lift_ok & H). rewrite Hcp in Hcp'. injection Hcp' as <- <-.
  apply bind_ok in H as (? & w11 & H11%wrap_ok & H). rewrite Hrc, Hrp in H.
  apply bind_ok in H as (? & w12 & H12 & [-> ->]%ret_ok). cbn [ur_Version].
  exists artifact, data. split; [done|]. intros Hesc.
  assert (HKe : plain (K ++ ["extract"])) by (apply plain_app; [done|]; by intros Hin%list_elem_of_singleton).
  apply (extractUpdateArtifact_ok K D defaultDownloadedArtifactName data artifact) in H7; [|done..].
  fold bodies in H7.
  assert (Hun9 : unpacking K D defaultDownloadedArtifactName data bodies (w_fs w9)).
  { pose proof (Stat_fs (Join (entry K "extract") (FromSlash goos (rt_ExecutablePath artifact))) w7) as Hs. rewrite H8 in Hs. simpl in Hs.
    destruct (negb _); [apply wrap_ok, Chmod_fs in H9|apply ret_ok in H9 as [_ ->]]; congruence. }
  assert (Hun11 : unpacking K D defaultDownloadedArtifactName data bodies (w_fs w11)) by by eapply unpacking_MkdirAll.
  assert (HD11 : real (w_fs w11) D) by apply Hun11.
  destruct (Join_inside (entry K "extract") (FromSlash goos (rt_ExecutablePath artifact)) HKe Hesc) as [Hj Hjp].
  rewrite Hj in H12. cbn [rooted parts entry] in H12. set (l := parts (Clean _)) in *. rewrite <-app_assoc in H12.
  apply (promote_ok K D b b' Hb Hb' Hbb HKc HKp HcK HpK) in H12 as (Hcur & Hsome & HK12); [|done|by destruct Hun11|by apply (plain_app ["extract"] l); [intros Hin%list_elem_of_singleton|]|done].
  rewrite Hcur. split_and!; [done..|]. intros d t'. destruct Hun11 as (_ & _ & Hf & _). apply Hf.
  rewrite app_assoc. by eexists.
Qed.

(** Removing the temporary directory. *)
Lemma RemoveAll_entry T a w :
  real (w_fs w) T → a ≠ ".." →
  w_fs (RemoveAll (entry T a) w).2 = w_fs w ∨ w_fs (RemoveAll (entry T a) w).2 = prune (T ++ [a]) (w_fs w).
Proof.
  intros HT Ha. unfold RemoveAll, syscall, next_fault, mbind, St_bind, gets. destruct w as [fs cwd now faults replies requests names].
  simpl in *. destruct faults as [|[k|] faults]; simpl; [|by left|];
    rewrite walk_entry by done; destruct (T ++ [a]) eqn:E; simpl; [by left|by right|by left|by right].
Qed.

(** C16. A successful update has installed a program of a signed release: [Update] only succeeds with an
    artifact that a manifest names that is signed with the release key, and whose size and SHA-256 hash
    were checked. When the executable path the manifest gives for it stays inside of what is
    unpacked (it does not climb out with [".."]), there is a file where the node's program was,
    and its contents come from that artifact. The code does not check the path: one that
    climbs installs a file of the host (example [update_installs_local_file]). The temporary
    directory and the one of the program are absolute paths of real directories, apart from
    each other. *)
Theorem update_installs_signed m loc D b b' current installDir w res w' :
  let cur := D ++ [b] in let prev := D ++ [b'] in
  rooted tempDir = true → parts tempDir ≠ [] → real (w_fs w) (parts tempDir) → tree (w_fs w) → real (w_fs w) D →
  currentPath executable m = Ok (current, installDir) →
  read_path current = entry D b → read_path (previousBinaryPath current) = entry D b' →
  b ≠ ".." → b' ≠ ".." → b ≠ b' →
  ¬ parts tempDir `prefix_of` D → ¬ cur `prefix_of` parts tempDir → ¬ prev `prefix_of` parts tempDir →
  Update device goos goarch tempDir executable m loc w = (Ok res, w') →
  ∃ artifact data, released m artifact data (ur_Version res) ∧
    (escapes (Clean (read_path (FromSlash goos (rt_ExecutablePath artifact)))) = false →
     is_Some (w_fs w' !! cur) ∧
     ∀ d t, w_fs w' !! cur = Some (NFile d t) → d ∈ unpacked_bodies (rt_ArchiveType artifact) data).
Proof.
  cbv zeta. intros Hr HTne HT Htree HD Hcp Hrc Hrp Hb Hb' Hbb HTD HcT HpT H. unfold Update in H.
  apply bind_ok in H as (tmp & w1 & Htmp%wrap_ok & H).
  apply MkdirTemp_fresh in Htmp as (name & -> & Hfs1 & Hfresh); [|done..]. set (a := "thirdshift-update-" +:+ name) in *.
  set (T := parts tempDir) in *. unfold finally in H.
  destruct (update_in _ _ _ _ _ _ _ w1) as [r w2] eqn:E. injection H as -> <-.
  assert (HKne : T ++ [a] ≠ []) by (by intros [_ [=]]%app_eq_nil).
  assert (HK : nolinks (T ++ [a]) (w_fs w1)).
  { rewrite Hfs1. split; [split; [done|split]|].
    - apply plain_app; [apply HT|]. by intros Hin%list_elem_of_singleton.
    - intros q Hq HqK. destruct (decide (q = T ++ [a])) as [->|Hne]; [apply lookup_insert_eq|].
      rewrite lookup_insert_ne by done. apply HT; [done|]. by apply prefix_child in HqK as [?| ->].
    - intros p t Hp. destruct (decide (p = T ++ [a])) as [->|Hne]; [by rewrite lookup_insert_eq|].
      rewrite lookup_insert_ne, Hfresh by done. done. }
  assert (Hside : ∀ x, ¬ (T ++ [a]) `prefix_of` (D ++ [x])).
  { intros x [Hp| E']%prefix_child; apply HTD; [|apply app_inj_2 in E' as [-> _]; done]. trans (T ++ [a]); [by eexists|done]. }
  assert (Hside' : ∀ x, ¬ (D ++ [x]) `prefix_of` T → ¬ (D ++ [x]) `prefix_of` (T ++ [a])).
  { intros x Hx [Hp|E']%prefix_child; [done|]. apply app_inj_2 in E' as [-> _]; [|done]. by apply HTD. }
  apply (update_in_ok m _ (T ++ [a]) D b b' current installDir w1 res w2) in E as (artifact & data & Hrel & Hin); try done; cycle 1.
  { intros k Hk Hne. rewrite Hfs1, lookup_insert_ne by done. by apply Hfresh. }
  { rewrite Hfs1. apply real_insert; [done|]. by apply child_not_above. }
  { by apply Hside'. } { by apply Hside'. } { by apply child_not_above. }
  exists artifact, data. split; [done|]. intros Hesc. specialize (Hin Hesc) as ([HKpl HK2] & Hcur).
  assert (HT2 : real (w_fs w2) T).
  { split; [apply HT|]. intros q Hq Hqp. apply HK2; [done|]. by apply prefix_app_r. }
  unfold ignore_err. rewrite (surjective_pairing (RemoveAll _ w2)). cbn [snd].
  destruct (RemoveAll_entry T a w2 HT2) as [->| ->]; [done..|]. rewrite lookup_prune.
  assert (below (T ++ [a]) (D ++ [b]) = false) as ->; [by apply below_false|done].
Qed.
End install.
