(* ===== verification/ModelCache.v ===== *)
(** * The cache of model files

    [internal/node/models/cache.go]: a model is downloaded to a file named after its SHA-256
    hash, resuming what an earlier download left, renamed into place once size and hash are
    checked, and the files used longest ago are removed when the cache is over its quota. *)
From stdpp Require Import base gmap strings list sorting.
From Stdlib Require Import ZArith Lia Ascii.
From S2P Require Import Prelude GoStrings Sha256 Encoding FileSystem FileURL Releases.

Record Cache := { ca_Dir : string; ca_QuotaBytes : Z }.

Record Artifact := { ar_URL : string; ar_SHA256 : string; ar_SizeBytes : Z }.

Record CacheFile := { cf_path : Path; cf_name : string; cf_size : Z; cf_atime : Z }.

(** [sort.Slice]: some sorted permutation; the order of equal elements is not specified. *)
Class SortSlice (A : Type) := {
  sort_slice : (A → A → bool) → list A → list A;
  sort_slice_perm (lt : A → A → bool) l : sort_slice lt l ≡ₚ l;
  sort_slice_sorted (lt : A → A → bool) l :
    (∀ x y, lt x y = true → lt y x = false) → (∀ x y z, lt y x = false → lt z y = false → lt z x = false) →
    StronglySorted (λ a b, lt b a = false) (sort_slice lt l)
}.

#[export] Program Instance insertion_sort A : SortSlice A := {| sort_slice := stable_sort |}.
Next Obligation. intros. apply stable_sort_perm. Qed.
Next Obligation.
  intros A lt l H1 H2. apply (stable_sort_sorted lt (λ _, True)); [by eauto..|]. by apply Forall_true.
Qed.

Definition strip_sha (sha : string) : string := trim_prefix sha "sha256:".

(** [info.Size()]. The size of a directory only decides how opening it for writing fails. *)
Definition node_size (n : node) : Z := match n with NFile data _ => Z.of_nat (String.length data) | _ => 0 end.

Definition verifyExisting (p : Path) (expectedSHA256 : string) (expectedSize : Z) : IO unit :=
  file ← Open p;
  data ← read_all file;
  _ ← guard_err (size_matches data expectedSize)
        (ErrMsg ("size = " +:+ itoa (Z.of_nat (String.length data)) +:+ ", want " +:+ itoa expectedSize));
  guard_err (String.eqb (hash_hex data) (strip_sha expectedSHA256))
    (ErrMsg ("sha256 = " +:+ hash_hex data +:+ ", want " +:+ expectedSHA256)).

Definition copyModelFile : Path → Path → IO unit :=
  copy_file "open local model artifact" "create partial model" "copy local model artifact".

(** [out.Truncate(0)] and [out.Seek(0, io.SeekStart)]; writes append to the file that is left. *)
Definition Truncate (q : location) : IO unit := syscall (
  n ← node_of q;
  now ← gets w_now;
  match n with Some (NFile _ _) => set_fs <[q := NFile "" now]> | _ => mret tt end).
Definition Seek : IO unit := syscall (mret tt).

(** [entry.Info()]. *)
Definition Lstat (p : Path) : IO node := syscall (
  q ← resolve false p;
  n ← node_of q;
  of_option ENOENT n).

Section cache.
Context `{!Libraries} `{!SortSlice CacheFile} (device : location → nat) (goos : string).
(** Size and modification time of a link, and the size of a directory. *)
Context (other_info : node → Z * Z).

(** The part of [downloadResumable] that asks a server. *)
Definition fetch_model (parses : bool) (rawurl : string) (dest : Path) (expectedSize : Z) : IO unit :=
  info ← try (Stat dest);
  let offset := match info with Ok n => node_size n | Err _ => 0 end in
  out ← wrap "open partial model" (open_write (negb (0 <? offset)) dest);
  _ ← guard_err parses (ErrMsg "create model download request");
  reply ← http_get rawurl offset;
  match reply with
  | NoReply => fail (ErrMsg "download model artifact")
  | Answer status body complete =>
      offset ←
        (if (0 <? offset) && (status =? 206) then mret offset
         else if (0 <? offset) && (status =? 200) then
           _ ← wrap "restart partial model" (Truncate out);
           _ ← wrap "seek partial model" Seek;
           mret 0
         else if (offset =? 0) && (status =? 200) then mret offset
         else fail (ErrMsg ("download model artifact: HTTP " +:+ itoa status)));
      _ ← wrap "write model artifact" (copy_from out body complete);
      let got := offset + Z.of_nat (String.length body) in
      guard_err (negb ((0 <? expectedSize) && negb (got =? expectedSize)))
        (ErrMsg ("model artifact is incomplete: got " +:+ itoa got +:+ " bytes, want " +:+ itoa expectedSize))
  end.

Definition downloadResumable (rawurl : string) (dest : Path) (expectedSize : Z) : IO unit :=
  match parse_url rawurl with
  | Some parsed =>
      if String.eqb (url_Scheme parsed) "file" then copyModelFile (read_path (toPathFor goos parsed)) dest
      else if IsLocalRawURL parsed then copyModelFile (read_path rawurl) dest
      else fetch_model true rawurl dest expectedSize
  | None => fetch_model false rawurl dest expectedSize
  end.

(** The [.gguf] files of the directory, in its order; [total] is the sum of their sizes. *)
Fixpoint cache_files (dir : Path) (entries : list (string * node)) : IO (list CacheFile) :=
  match entries with
  | [] => mret []
  | (name, n) :: rest =>
      if bool_decide (n = NDir) || negb (has_suffix name ".gguf") then cache_files dir rest
      else
        info ← Lstat (Join dir name);
        let '(size, mtime) := match info with NFile data t => (Z.of_nat (String.length data), t) | _ => other_info info end in
        files ← cache_files dir rest;
        mret ({| cf_path := Join dir name; cf_name := trim_suffix name ".gguf"; cf_size := size; cf_atime := mtime |} :: files)
  end.

Fixpoint evict_files (quota : Z) (active : string) (total : Z) (files : list CacheFile) : IO unit :=
  match files with
  | [] => mret tt
  | file :: rest =>
      if total <=? quota then mret tt
      else if String.eqb (cf_name file) active then evict_files quota active total rest
      else
        _ ← wrap ("evict model " +:+ cf_name file) (Remove (cf_path file));
        evict_files quota active (total - cf_size file) rest
  end.

Definition older (a b : CacheFile) : bool := cf_atime a <? cf_atime b.

Definition evict (c : Cache) (activeSHA256 : string) : IO unit :=
  if ca_QuotaBytes c <=? 0 then mret tt
  else
    let active := strip_sha activeSHA256 in
    let dir := read_path (ca_Dir c) in
    entries ← ReadDir dir;
    files ← cache_files dir entries;
    evict_files (ca_QuotaBytes c) active (sum_list cf_size files) (sort_slice older files).

(** The time of the last use is kept as the modification time. *)
Definition used_now (p : Path) : IO unit := now ← gets w_now; ignore_err (Chtimes p now).

Definition Ensure (c : Cache) (artifact : Artifact) (activeSHA256 : string) : IO Path :=
  _ ← guard_err (negb (String.eqb (ca_Dir c) "")) (ErrMsg "model cache directory is required");
  let sha := strip_sha (ar_SHA256 artifact) in
  _ ← guard_err (negb (String.eqb sha "")) (ErrMsg "model artifact sha256 is required");
  let dir := read_path (ca_Dir c) in
  _ ← wrap "create model cache directory" (MkdirAll dir);
  let finalPath := Join dir (sha +:+ ".gguf") in
  existing ← try (verifyExisting finalPath sha (ar_SizeBytes artifact));
  match existing with
  | Ok _ =>
      _ ← used_now finalPath;
      _ ← evict c activeSHA256;
      mret finalPath
  | Err _ =>
      let partialPath := Join dir (sha +:+ ".partial") in
      _ ← downloadResumable (ar_URL artifact) partialPath (ar_SizeBytes artifact);
      _ ← verifyExisting partialPath sha (ar_SizeBytes artifact);
      _ ← wrap "promote model artifact" (Rename device partialPath finalPath);
      _ ← used_now finalPath;
      _ ← evict c activeSHA256;
      mret finalPath
  end.

Definition EnsureLicense (c : Cache) (artifactSHA256 text : string) : IO Path :=
  let sha := strip_sha artifactSHA256 in
  _ ← guard_err (negb (String.eqb sha "")) (ErrMsg "license artifact sha256 is required");
  _ ← guard_err (negb (String.eqb text "")) (ErrMsg "license text is required");
  let finalPath := Join (read_path (ca_Dir c)) (sha +:+ ".LICENSE.txt") in
  existing ← try (ReadFile finalPath);
  if match existing with Ok data => String.eqb data text | Err _ => false end then mret finalPath
  else
    let tempPath := Join (read_path (ca_Dir c)) (sha +:+ ".LICENSE.txt.partial") in
    _ ← wrap "write model license" (WriteFile tempPath text);
    _ ← wrap "promote model license" (Rename device tempPath finalPath);
    mret finalPath.
End cache.
