(* ===== verification/CacheTheory.v ===== *)
(** * The cache of model files keeps its promises

    About [ModelCache]: a model that is used has the hash it was asked for, a download that was
    interrupted goes on where it stopped, and what is evicted. *)
From stdpp Require Import base gmap strings list sorting.
From Stdlib Require Import ZArith Lia Ascii.
From S2P Require Import Prelude GoStrings Sha256 Encoding FileSystem FileURL Releases ReleaseTheory ModelCache.

(** ** Names *)

Lemma simple_name s suf :
  slash ∉ bytes s → slash ∉ bytes suf → (3 ≤ String.length suf)%nat →
  read_path (s +:+ suf) = {| rooted := false; parts := [s +:+ suf] |} ∧ s +:+ suf ≠ "..".
Proof.
  intros Hs Hsuf Hlen.
  assert (Hn : slash ∉ bytes (s +:+ suf)) by (rewrite bytes_app, elem_of_app; tauto).
  assert (Hl : (3 ≤ String.length (s +:+ suf))%nat) by (rewrite <-length_bytes, bytes_app, length_app, !length_bytes; lia).
  split; [|intros E; rewrite E in Hl; simpl in Hl; lia].
  unfold read_path. rewrite split_on_none by done. f_equal.
  - unfold has_prefix. destruct (s +:+ suf) as [|a r] eqn:E; [done|]. simpl. case_match; subst; [|done].
    exfalso. apply Hn. by left.
  - rewrite filter_cons_True, filter_nil; [done|]. by split; intros E; rewrite E in Hl; simpl in Hl; lia.
Qed.

(** The directory of the cache, and a name in it. *)
Lemma cache_entry dir s suf :
  rooted dir = true → plain (parts dir) → slash ∉ bytes s → slash ∉ bytes suf → (3 ≤ String.length suf)%nat →
  Join dir (s +:+ suf) = entry (parts dir) (s +:+ suf) ∧ s +:+ suf ≠ "..".
Proof.
  intros Hr Hp Hs Hsuf Hl. destruct (simple_name s suf Hs Hsuf Hl) as [E Hne]. split; [|done].
  rewrite (child_join dir (s +:+ suf)) by done. done.
Qed.

(** ** What eviction chooses *)
Fixpoint victims (quota : Z) (active : string) (total : Z) (files : list CacheFile) : list CacheFile :=
  match files with
  | [] => []
  | f :: rest =>
      if total <=? quota then []
      else if String.eqb (cf_name f) active then victims quota active total rest
      else f :: victims quota active (total - cf_size f) rest
  end.

Section victims.
Context (quota : Z) (active : string).

Lemma victims_in total files f : f ∈ victims quota active total files → f ∈ files ∧ cf_name f ≠ active.
Proof.
  revert total. induction files as [|g files IH]; intros total; simpl; [by intros ?%elem_of_nil|].
  destruct (total <=? quota); [by intros ?%elem_of_nil|]. destruct (String.eqb_spec (cf_name g) active) as [|Hne].
  - intros [Hin ?]%IH. split; [by right|done].
  - intros [->|[Hin ?]%IH]%elem_of_cons; (split; [|done]); [by left|by right].
Qed.

Lemma victims_enough total files :
  total - sum_list cf_size (victims quota active total files) ≤ quota ∨
  ∀ f, f ∈ files → f ∈ victims quota active total files ∨ cf_name f = active.
Proof.
  revert total. induction files as [|g files IH]; intros total; simpl; [right; by intros ? ?%elem_of_nil|].
  destruct (Z.leb_spec total quota); [left; simpl; lia|]. destruct (String.eqb_spec (cf_name g) active) as [Ha|Hne].
  - destruct (IH total) as [?|H']; [by left|]. right. intros f [->|Hf]%elem_of_cons; [by right|by apply H'].
  - rewrite sum_list_cons. destruct (IH (total - cf_size g)) as [?|H']; [left; lia|]. right.
    intros f [->|Hf]%elem_of_cons; [left; by left|]. destruct (H' f Hf); [left; by right|by right].
Qed.

Lemma victims_oldest total files a b :
  StronglySorted (λ x y, older y x = false) files →
  a ∈ victims quota active total files → b ∈ files → b ∉ victims quota active total files → cf_name b ≠ active →
  cf_atime a ≤ cf_atime b.
Proof.
  revert total. induction files as [|g files IH]; intros total Hs; simpl; [by intros ?%elem_of_nil|].
  apply StronglySorted_inv in Hs as [Hs Hg]. destruct (total <=? quota); [by intros ?%elem_of_nil|].
  destruct (String.eqb_spec (cf_name g) active) as [Ha|Hne].
  - intros Hv [->|Hb]%elem_of_cons; [done|]. by apply IH.
  - rewrite not_elem_of_cons. intros [->|Hv]%elem_of_cons [->|Hb]%elem_of_cons [Hn1 Hn2]; try done.
    + intros _. rewrite Forall_forall in Hg. specialize (Hg b Hb). unfold older in Hg. lia.
    + by eapply IH.
Qed.

(** Each of them was needed. *)
Lemma victims_needed total files l f :
  victims quota active total files = l ++ [f] → quota < total - sum_list cf_size l.
Proof.
  revert total l. induction files as [|g files IH]; intros total l; simpl; [by destruct l|].
  destruct (Z.leb_spec total quota); [by destruct l|]. destruct (String.eqb _ _); [apply IH|].
  destruct l as [|x l]; [simpl; lia|]. intros [= <- Hv]. rewrite sum_list_cons. apply IH in Hv. lia.
Qed.

Lemma victims_sublist total files : victims quota active total files `sublist_of` files.
Proof.
  revert total. induction files as [|g files IH]; intros total; simpl; [done|].
  destruct (total <=? quota); [apply sublist_nil_l|].
  destruct (String.eqb _ _); [by apply sublist_cons|by apply sublist_skip].
Qed.
End victims.

(** ** Calls that only write one file *)
Section keeps.
Context (R q : location) (P : files → Prop).
Context (HPn : ∀ fs, P fs → nolinks R fs) (HPi : ∀ fs d t, P fs → P (<[q:=NFile d t]> fs)).
Let K (w : World) : Prop := P (w_fs w).

Lemma keeps_neutral {A} (m : IO A) : fs_neutral m → preserves K m.
Proof. intros H w Hw. unfold K. by rewrite H. Qed.
Lemma keeps_fault : preserves K next_fault.
Proof. apply keeps_neutral, neutral_fault. Qed.
Lemma keeps_resolve f p : preserves K (resolve f p).
Proof. apply keeps_neutral, neutral_resolve. Qed.
Lemma keeps_node k : preserves K (node_of k).
Proof. apply preserves_gets. Qed.
#[local] Hint Resolve keeps_fault keeps_resolve keeps_node : inv.

Lemma keeps_syscall {A} (m : IO A) : preserves K m → preserves K (syscall m).
Proof. intros Hm. unfold syscall. solve_inv. Qed.
Lemma keeps_open p : preserves K (Open p).
Proof. apply keeps_syscall. solve_inv. Qed.
Lemma keeps_read k : preserves K (read_all k).
Proof. apply keeps_syscall. solve_inv. Qed.
Lemma keeps_stat p : preserves K (Stat p).
Proof. apply keeps_syscall. solve_inv. Qed.
Lemma keeps_lstat p : preserves K (Lstat p).
Proof. apply keeps_syscall. solve_inv. Qed.
Lemma keeps_readdir p : preserves K (ReadDir p).
Proof. apply keeps_syscall. solve_inv. Qed.
Lemma keeps_ask s : preserves K (ask s).
Proof. unfold ask. solve_inv. Qed.
Lemma keeps_http url o : preserves K (http_get url o).
Proof. apply keeps_ask. Qed.

Lemma keeps_append data now : preserves K (set_fs (append_to q data now)).
Proof.
  intros w Hw. unfold K, set_fs, modify, append_to in *. cbn. destruct (w_fs w !! q) as [[]|]; [by apply HPi|done..].
Qed.
Lemma keeps_write data : preserves K (write_all q data).
Proof. unfold write_all. solve_inv; apply keeps_append. Qed.
Lemma keeps_truncate : preserves K (Truncate q).
Proof. apply keeps_syscall. solve_inv. intros w Hw. by apply HPi. Qed.
#[local] Hint Resolve keeps_open keeps_read keeps_stat keeps_lstat keeps_readdir keeps_http keeps_write keeps_truncate : inv.
Lemma keeps_copy_from data c : preserves K (copy_from q data c).
Proof. unfold copy_from. solve_inv. Qed.

Context (p : Path) (Hp : under R p) (Hq : parts p = q).

Lemma keeps_open_write {A} b c (k : location → IO A) : preserves K (k q) → preserves K (wrap c (open_write b p) ≫= k).
Proof.
  intros Hk w Hw.
  assert (H : K (open_write b p w).2 ∧ ∀ q', (open_write b p w).1 = Ok q' → q' = q).
  { destruct (open_write b p w) as [r w1] eqn:E. apply syscall_cases in E as [(e & -> & Hfs)|(faults & H)].
    { unfold K in *. cbn [snd]. by rewrite Hfs. }
    unfold mbind at 1, St_bind at 1, resolve, gets, lift_result in H.
    unfold mbind at 1, St_bind at 1 in H. cbn [w_fs upd_field] in H.
    destruct (walk _ _ _ _ _) as [q'|] eqn:Ew; [|by injection H as <- <-].
    apply (walk_under_nolinks R) in Ew; [|by apply HPn|done]. rewrite Hq in Ew. subst q'.
    unfold node_of, gets in H. repeat (unfold mbind at 1, St_bind at 1 in H; cbn [w_fs upd_field] in H).
    destruct (node_at _ _) as [[]|]; [destruct b| | |]; injection H as <- <-; (split; [|by intros ? [=]]); try done; by apply HPi. }
  unfold mbind, St_bind, wrap. destruct (open_write b p w) as [[q'|e] w1]; cbn in *; [|by apply H].
  destruct H as [H1 H2]. rewrite (H2 q') by done. by apply Hk.
Qed.

Lemma keeps_copy_file c1 c2 c3 src : preserves K (copy_file c1 c2 c3 src p).
Proof. unfold copy_file. apply preserves_bind; [solve_inv|intros input]. apply keeps_open_write. solve_inv. Qed.

Lemma keeps_WriteFile data : preserves K (WriteFile p data).
Proof.
  intros w Hw. pose proof (keeps_open_write true "" (λ q, write_all q data) (keeps_write data) w Hw) as H.
  unfold WriteFile, Create, mbind, St_bind, wrap in *. by destruct (open_write true p w) as [[]].
Qed.

Lemma keeps_download `{!Libraries} goos url size : preserves K (downloadResumable goos url p size).
Proof.
  assert (Hf : ∀ b, preserves K (fetch_model b url p size)).
  { intros b. unfold fetch_model. apply preserves_bind; [solve_inv|intros info]. apply keeps_open_write.
    apply preserves_bind; [solve_inv|intros _]. apply preserves_bind; [solve_inv|intros [|status body complete]]; [solve_inv|].
    apply preserves_bind; [|intros o; apply preserves_bind; [apply preserves_wrap, keeps_copy_from|intros; solve_inv]].
    unfold Seek. repeat (apply preserves_if || apply preserves_bind || intros); solve_inv. by apply keeps_syscall, preserves_ret. }
  unfold downloadResumable. destruct (parse_url url) as [u|]; [|done].
  destruct (String.eqb _ _); [apply keeps_copy_file|]. destruct (IsLocalRawURL u); [apply keeps_copy_file|done].
Qed.
End keeps.

(** ** Eviction *)

Lemma prefix_bytes p s : has_prefix s p = true → ∃ k, bytes s = bytes p ++ k.
Proof.
  unfold has_prefix. revert s. induction p as [|a p IH]; intros s H; [by exists (bytes s)|].
  destruct s as [|b s]; [done|]. simpl in H. case_match; [|done]. subst. destruct (IH s H) as [k E]. exists k.
  simpl. by rewrite E.
Qed.

Lemma has_suffix_split s p : has_suffix s p = true → s = trim_suffix s p +:+ p.
Proof.
  intros H. unfold trim_suffix. rewrite H. unfold has_suffix in H. apply prefix_bytes in H as [k E].
  rewrite !bytes_of_bytes in E. assert (Es : bytes s = reverse k ++ bytes p).
  { by rewrite <-(reverse_involutive (bytes s)), E, reverse_app, reverse_involutive. }
  rewrite Es, length_app, Nat.add_sub, take_app_length, <-(of_bytes_bytes s), Es.
  rewrite <-(of_bytes_bytes (of_bytes (reverse k) +:+ p)), bytes_app, bytes_of_bytes. done.
Qed.

(** Names in a directory have no slash. *)
Definition named (D : location) (fs : files) : Prop := ∀ c, is_Some (fs !! (D ++ [c])) → slash ∉ bytes c.

Section evict.
Context `{SortSlice CacheFile} (other_info : node → Z * Z) (dir : Path).
Let D := parts dir.
Context (Hrooted : rooted dir = true).

(** A model file of the directory. *)
Definition listed (fs : files) (f : CacheFile) : Prop :=
  ∃ name, is_Some (fs !! (D ++ [name])) ∧ fs !! (D ++ [name]) ≠ Some NDir ∧ name = cf_name f +:+ ".gguf" ∧
    cf_path f = entry D name ∧ name ≠ "..".

Lemma listed_name fs name :
  plain D → named D fs → is_Some (fs !! (D ++ [name])) → has_suffix name ".gguf" = true →
  Join dir name = entry D name ∧ name ≠ ".." ∧ name = trim_suffix name ".gguf" +:+ ".gguf".
Proof.
  intros HD Hn Hs Hsuf. pose proof (has_suffix_split _ _ Hsuf) as E. specialize (Hn name Hs).
  assert (Hno : slash ∉ bytes (trim_suffix name ".gguf")).
  { rewrite E, bytes_app, elem_of_app in Hn. tauto. }
  destruct (cache_entry dir (trim_suffix name ".gguf") ".gguf") as [Hj Hne]; try done.
  { by apply (bool_decide_unpack _). }
  { simpl. lia. }
  by rewrite <-E in Hj, Hne.
Qed.

Lemma ReadDir_ok w l w' :
  real (w_fs w) D → ReadDir dir w = (Ok l, w') →
  w_fs w' = w_fs w ∧ ∀ c n, (c, n) ∈ l → w_fs w !! (D ++ [c]) = Some n.
Proof.
  intros HD (faults & Hr)%syscall_ok. apply bind_ok in Hr as (q & w1 & [Hw ->]%resolve_ok & Hr).
  cbn [w_fs upd_field] in Hw. rewrite Hrooted in Hw. fold D in Hw.
  rewrite <-(app_nil_r D), walk_real, walk_nil in Hw by done. injection Hw as <-.
  unfold node_of in Hr. apply bind_ok in Hr as (n & w1 & [-> ->]%gets_ok & Hr).
  destruct (node_at _ _) as [[]|]; [by apply fail_ok in Hr| |by apply fail_ok in Hr|by apply fail_ok in Hr].
  apply gets_ok in Hr as [-> ->]. split; [done|]. intros c n Hin. apply elem_of_stable_sort in Hin.
  apply list_elem_of_omap in Hin as ([k n'] & Hk & Hc). apply elem_of_map_to_list in Hk. cbn in Hc, Hk.
  unfold child_name in Hc. destruct (last k) as [c'|]; [|done]. case_bool_decide as E; [|done]. simpl in Hc.
  injection Hc as <- <-. by rewrite <-E.
Qed.

Lemma Lstat_fs p w : w_fs (Lstat p w).2 = w_fs w.
Proof. pose proof (keeps_lstat (λ fs, fs = w_fs w) p) as K. by apply K. Qed.

Lemma cache_files_ok w entries files w' :
  plain D → named D (w_fs w) → (∀ c n, (c, n) ∈ entries → w_fs w !! (D ++ [c]) = Some n) →
  cache_files other_info dir entries w = (Ok files, w') → w_fs w' = w_fs w ∧ ∀ f, f ∈ files → listed (w_fs w) f.
Proof.
  intros HD. revert w files. induction entries as [|[name n] entries IH]; intros w files Hn He Hr; cbn [cache_files] in Hr.
  { apply ret_ok in Hr as [-> ->]. split; [done|]. by intros f ?%elem_of_nil. }
  assert (Hn0 : w_fs w !! (D ++ [name]) = Some n) by (apply He; by left).
  destruct (bool_decide (n = NDir)) eqn:Ed; simpl in Hr; [apply IH in Hr; [done..|intros; apply He; by right]|].
  apply bool_decide_eq_false in Ed.
  destruct (has_suffix name ".gguf") eqn:Esuf; cbn [negb] in Hr; [|apply IH in Hr; [done..|intros; apply He; by right]].
  apply bind_ok in Hr as (info & w1 & H1 & Hr).
  assert (Hfs : w_fs w1 = w_fs w) by (pose proof (Lstat_fs (Join dir name) w) as E; by rewrite H1 in E).
  destruct (match info with NFile data t => _ | _ => _ end) as [size mtime].
  apply bind_ok in Hr as (files' & w2 & H2 & [-> ->]%ret_ok).
  apply IH in H2 as [Hfs2 Hl]; [|by rewrite Hfs|intros c n' Hc; rewrite Hfs; apply He; by right].
  rewrite Hfs2, Hfs. split; [done|]. rewrite Hfs in Hl. intros f [->|Hf]%elem_of_cons; [|by apply Hl].
  destruct (listed_name (w_fs w) name) as (Hj & Hdd & E); [done|done|by eexists|done|].
  exists name. cbn [cf_path cf_name]. rewrite Hn0. split_and!; [by eexists| |done..]. congruence.
Qed.

(** Whatever happens, only inactive models are removed. *)
Definition spared (active : string) (fs fs' : files) : Prop :=
  ∀ k, fs' !! k = fs !! k ∨
    (fs' !! k = None ∧ fs !! k ≠ Some NDir ∧ ∃ name, k = D ++ [name +:+ ".gguf"] ∧ name ≠ active).

Lemma spared_refl active fs : spared active fs fs.
Proof. intros k. by left. Qed.

Lemma spared_trans active fs1 fs2 fs3 : spared active fs1 fs2 → spared active fs2 fs3 → spared active fs1 fs3.
Proof.
  intros H1 H2 k. destruct (H2 k) as [E2|(E2 & Hd & Hk)]; destruct (H1 k) as [E1|(E1 & Hd1 & Hk1)].
  - left. by rewrite E2.
  - right. rewrite E2. done.
  - right. rewrite <-E1. done.
  - right. done.
Qed.

Lemma spared_real active fs fs' : real fs D → spared active fs fs' → real fs' D.
Proof.
  intros HD Hs. apply (real_shrink fs); [done|]. intros k _ Hk. destruct (Hs k) as [?|(_ & _ & name & -> & _)]; [done|].
  by apply child_not_prefix in Hk.
Qed.

Lemma evict_files_spares quota active total files w :
  real (w_fs w) D → (∀ f, f ∈ files → ∃ name, cf_path f = entry D (cf_name f +:+ ".gguf") ∧ name = cf_name f +:+ ".gguf" ∧ name ≠ ".." ∧ w_fs w !! (D ++ [name]) ≠ Some NDir) →
  spared active (w_fs w) (w_fs (evict_files quota active total files w).2).
Proof.
  revert total w. induction files as [|f files IH]; intros total w HD Hl; cbn [evict_files]; [apply spared_refl|].
  destruct (total <=? quota); [apply spared_refl|].
  destruct (String.eqb_spec (cf_name f) active) as [|Hne]; [apply IH; [done|intros; apply Hl; by right]|].
  destruct (Hl f) as (name & Hp & -> & Hdd & Hnd); [by left|]. unfold mbind, St_bind, wrap.
  destruct (Remove (cf_path f) w) as [r w1] eqn:E. rewrite Hp in E.
  assert (Hs : spared active (w_fs w) (w_fs w1)).
  { apply Remove_entry_cases in E as [->| ->]; [apply spared_refl| |done|done].
    intros k. destruct (decide (k = D ++ [cf_name f +:+ ".gguf"])) as [->|].
    - right. rewrite lookup_delete_eq. split_and!; [done..|]. by eexists.
    - left. by rewrite lookup_delete_ne. }
  destruct r as [u|e]; [|exact Hs]. eapply spared_trans; [exact Hs|]. apply IH; [by eapply spared_real|].
  intros g Hg. destruct (Hl g) as (name & Hp' & -> & Hdd' & Hnd'); [by right|]. eexists. split_and!; [done..|].
  destruct (Hs (D ++ [cf_name g +:+ ".gguf"])) as [->|(-> & _)]; done.
Qed.

Lemma evict_spares c active w :
  read_path (ca_Dir c) = dir → real (w_fs w) D → named D (w_fs w) →
  spared (strip_sha active) (w_fs w) (w_fs (evict other_info c active w).2).
Proof.
  intros Hdir HD Hn. unfold evict. destruct (ca_QuotaBytes c <=? 0); [apply spared_refl|]. cbv zeta. rewrite Hdir.
  unfold mbind at 1, St_bind at 1. destruct (ReadDir dir w) as [[entries|e] w1] eqn:E1; cycle 1.
  { pose proof (keeps_readdir (λ fs, fs = w_fs w) dir w eq_refl) as K. rewrite E1 in K. cbn in *. rewrite K. apply spared_refl. }
  apply ReadDir_ok in E1 as [Hfs1 He]; [|done]. unfold mbind at 1, St_bind at 1.
  destruct (cache_files other_info dir entries w1) as [[files|e] w2] eqn:E2; cycle 1.
  { assert (K : preserves (λ w', w_fs w' = w_fs w) (cache_files other_info dir entries)).
    { clear -H. induction entries as [|[name n] entries IH]; cbn [cache_files]; solve_inv; try done. apply (keeps_lstat (λ fs, fs = w_fs w)). }
    specialize (K w1 Hfs1). rewrite E2 in K. cbn in *. rewrite K. apply spared_refl. }
  apply cache_files_ok in E2 as [Hfs2 Hl]; [|apply HD|by rewrite Hfs1|intros c0 n Hc; rewrite Hfs1; by apply He].
  assert (Hfs : w_fs w2 = w_fs w) by by rewrite Hfs2, Hfs1. rewrite <-Hfs. apply evict_files_spares; [by rewrite Hfs|].
  intros f Hf. rewrite sort_slice_perm in Hf. destruct (Hl f Hf) as (name & Hs & Hnd & -> & Hp & Hdd).
  exists (cf_name f +:+ ".gguf"). split_and!; [done..|]. by rewrite Hfs2.
Qed.
End evict.

(** ** What [Ensure] returns and leaves behind *)

Lemma verifyExisting_fs p sha size w : w_fs (verifyExisting p sha size w).2 = w_fs w.
Proof.
  assert (K : preserves (λ w', w_fs w' = w_fs w) (verifyExisting p sha size)).
  { unfold verifyExisting. apply preserves_bind; [apply (keeps_open (λ fs, fs = w_fs w))|intros q].
    apply preserves_bind; [apply (keeps_read (λ fs, fs = w_fs w))|intros d]. solve_inv. }
  by apply K.
Qed.

Lemma verifyExisting_ok D c sha size w u w' :
  nolinks D (w_fs w) → c ≠ ".." → verifyExisting (entry D c) sha size w = (Ok u, w') →
  ∃ d t, w_fs w !! (D ++ [c]) = Some (NFile d t) ∧ size_matches d size = true ∧ hash_hex d = strip_sha sha.
Proof.
  intros Hn Hc H. apply bind_ok in H as (q & w1 & H1 & H). apply Open_ok in H1 as (Hfs & Hw & Hs).
  assert (q = D ++ [c]) as ->.
  { refine (walk_under_nolinks D (w_fs w) (entry D c) max_links true (w_cwd w) q Hn _ Hw). exists [c].
    split_and!; [done..|by intros Hin%list_elem_of_singleton]. }
  apply bind_ok in H as (d & w2 & [Hfs2 Hd]%read_all_ok & H).
  apply bind_ok in H as (? & w3 & [Hsz ->]%guard_ok & [Hh ->]%guard_ok). rewrite Hfs in Hd.
  rewrite node_at_entry in Hd, Hs. destruct Hd as [[t Hd]|Hd]; [|rewrite Hd in Hs; by destruct Hs].
  exists d, t. apply String.eqb_eq in Hh. done.
Qed.

(** Marking a file as used keeps what it holds. *)
Lemma used_now_fs D c w :
  nolinks D (w_fs w) → c ≠ ".." → ∃ u w', used_now (entry D c) w = (Ok u, w') ∧
    (w_fs w' = w_fs w ∨ ∃ d t t', w_fs w !! (D ++ [c]) = Some (NFile d t) ∧ w_fs w' = <[D ++ [c] := NFile d t']> (w_fs w)).
Proof.
  intros Hn Hc. eexists _, _. split; [reflexivity|]. cbn [snd].
  destruct (Chtimes (entry D c) (w_now w) w) as [r w1] eqn:E. cbn [snd].
  apply syscall_cases in E as [(e & _ & Hfs)|(faults & H)]; [by left|].
  unfold mbind at 1, St_bind at 1, resolve, gets, lift_result in H. unfold mbind at 1, St_bind at 1 in H. cbn [w_fs upd_field] in H.
  destruct (walk _ _ _ _ _) as [q|] eqn:Ew; [|injection H as <- <-; by left].
  apply (walk_under_nolinks D) in Ew; [|done|exists [c]; split_and!; [done..|by intros Hin%list_elem_of_singleton]].
  cbn [parts entry] in Ew. subst q. unfold node_of, gets in H. unfold mbind at 1, St_bind at 1 in H. rewrite node_at_entry in H.
  cbn [w_fs upd_field] in H. destruct (w_fs w !! (D ++ [c])) as [[d t| |]|] eqn:En; injection H as <- <-; [|by left..].
  right. exists d, t, (w_now w). split; [done|]. done.
Qed.

(** *** Eviction without faults *)
Section evict_exact.
Context `{!SortSlice CacheFile} (other_info : node → Z * Z) (dir : Path).
Let D := parts dir.
Context (Hrooted : rooted dir = true).

Definition listing (fs : files) : list (string * node) :=
  stable_sort (λ a b : string * node, string_ltb a.1 b.1)
    (omap (λ kv : location * node, (λ c, (c, kv.2)) <$> child_name D kv.1) (map_to_list fs)).

Lemma listing_in fs c n : (c, n) ∈ listing fs → fs !! (D ++ [c]) = Some n.
Proof.
  intros Hin. apply elem_of_stable_sort in Hin.
  apply list_elem_of_omap in Hin as ([k n'] & Hk & Hc). apply elem_of_map_to_list in Hk. cbn in Hc, Hk.
  unfold child_name in Hc. destruct (last k) as [c'|]; [|done]. case_bool_decide as E; [|done]. simpl in Hc.
  injection Hc as <- <-. by rewrite <-E.
Qed.

Lemma listing_names fs : NoDup (listing fs).*1.
Proof.
  unfold listing. rewrite stable_sort_perm. pose proof (NoDup_fst_map_to_list fs) as Hnd.
  induction (map_to_list fs) as [|[k n] l IH]; [by constructor|]. cbn in Hnd. apply NoDup_cons in Hnd as [Hk Hnd].
  cbn. destruct (child_name D k) as [c|] eqn:E; cbn; [|by apply IH]. constructor; [|by apply IH].
  intros Hin. apply Hk. apply list_elem_of_fmap in Hin as ([c' n'] & [= ->] & Hin).
  apply list_elem_of_omap in Hin as ([k' n''] & Hin & Hc). cbn in Hc. destruct (child_name D k') as [c''|] eqn:E'; [|done].
  injection Hc as -> ->. assert (Hname : ∀ k c, child_name D k = Some c → k = D ++ [c]).
  { clear. intros k c. unfold child_name. destruct (last k); [|done]. case_bool_decide; [|done]. by intros [= <-]. }
  apply Hname in E as ->. apply Hname in E' as ->. apply list_elem_of_fmap. by exists (D ++ [c'], n').
Qed.

Lemma ReadDir_nofault w : real (w_fs w) D → w_faults w = [] → ReadDir dir w = (Ok (listing (w_fs w)), w).
Proof.
  intros HD Hnf. unfold ReadDir. rewrite syscall_nofault by done. unfold mbind at 1, St_bind at 1.
  assert (resolve true dir w = (Ok D, w)) as ->.
  { apply resolve_ok. split; [|done]. rewrite Hrooted. fold D. rewrite <-(app_nil_r D) at 1. by rewrite walk_real, walk_nil. }
  unfold node_of, gets. unfold mbind at 1, St_bind at 1.
  replace (node_at (w_fs w) D) with (Some NDir); [done|]. unfold node_at. case_bool_decide; [done|]. symmetry. by apply HD.
Qed.

Lemma Lstat_nofault P a n w : real (w_fs w) P → a ≠ ".." → w_faults w = [] → w_fs w !! (P ++ [a]) = Some n →
  Lstat (entry P a) w = (Ok n, w).
Proof.
  intros HP Ha Hnf Hn. unfold Lstat. rewrite syscall_nofault by done. unfold mbind at 1, St_bind at 1.
  rewrite resolve_entry by done. unfold node_of, gets, mbind, St_bind. by rewrite node_at_entry, Hn.
Qed.

Lemma Remove_nofault P a n w : real (w_fs w) P → a ≠ ".." → w_faults w = [] → w_fs w !! (P ++ [a]) = Some n → n ≠ NDir →
  Remove (entry P a) w = (Ok tt, w <| w_fs ::= delete (P ++ [a]) |>).
Proof.
  intros HP Ha Hnf Hn Hnd. unfold Remove. rewrite syscall_nofault by done. unfold mbind at 1, St_bind at 1.
  rewrite resolve_entry by done. unfold node_of, gets, mbind, St_bind. rewrite node_at_entry, Hn. by destruct n.
Qed.

Lemma cache_files_nofault w entries :
  real (w_fs w) D → w_faults w = [] → named D (w_fs w) → (∀ c n, (c, n) ∈ entries → w_fs w !! (D ++ [c]) = Some n) → NoDup entries.*1 →
  ∃ files, cache_files other_info dir entries w = (Ok files, w) ∧ NoDup (cf_name <$> files) ∧
    ∀ f, f ∈ files → listed dir (w_fs w) f ∧ cf_name f +:+ ".gguf" ∈ entries.*1.
Proof.
  intros HD Hnf Hn. induction entries as [|[name n] entries IH]; intros He Hnd; cbn [cache_files].
  { exists []. split_and!; [done|constructor|]. by intros f ?%elem_of_nil. }
  assert (Hn0 : w_fs w !! (D ++ [name]) = Some n) by (apply He; by left).
  cbn in Hnd. apply NoDup_cons in Hnd as [Hnin Hnd].
  destruct IH as (files & E & Hnd' & Hl); [intros; apply He; by right|done|].
  assert (Hskip : ∃ files, cache_files other_info dir entries w = (Ok files, w) ∧ NoDup (cf_name <$> files) ∧
    ∀ f, f ∈ files → listed dir (w_fs w) f ∧ cf_name f +:+ ".gguf" ∈ name :: entries.*1).
  { exists files. split_and!; [done..|]. intros f Hf. destruct (Hl f Hf). split; [done|by right]. }
  destruct (bool_decide (n = NDir)) eqn:Ed; cbn [orb]; [done|]. apply bool_decide_eq_false in Ed.
  destruct (has_suffix name ".gguf") eqn:Esuf; cbn [negb]; [|done].
  destruct (listed_name dir Hrooted (w_fs w) name) as (Hj & Hdd & En); [apply HD|done|by eexists|done|].
  unfold mbind at 1, St_bind at 1. rewrite Hj, (Lstat_nofault D name n) by done.
  destruct (match n with NFile data t => _ | _ => _ end) as [size mtime]. unfold mbind, St_bind. rewrite E.
  eexists. split; [reflexivity|]. split.
  - constructor; [|done]. cbn. intros Hin. apply list_elem_of_fmap in Hin as (f & Hf & Hin). apply Hnin.
    destruct (Hl f Hin) as [_ Hin']. rewrite <-Hf in Hin'. rewrite En. exact Hin'.
  - intros f [->|Hf]%elem_of_cons; [|destruct (Hl f Hf); split; [done|by right]]. cbn [cf_name]. rewrite <-En. split; [|by left].
    exists name. cbn [cf_path cf_name]. split_and!; [by eexists|fold D; rewrite Hn0; congruence|done..].
Qed.

Definition without (gone : list CacheFile) (fs : files) : files := foldl (λ fs f, delete (parts (cf_path f)) fs) fs gone.

Lemma evict_files_nofault quota active total files w :
  real (w_fs w) D → w_faults w = [] → NoDup (cf_name <$> files) → (∀ f, f ∈ files → listed dir (w_fs w) f) →
  evict_files quota active total files w = (Ok tt, w <| w_fs ::= without (victims quota active total files) |>).
Proof.
  assert (Hid : ∀ w : World, (Ok tt, w) = (Ok tt, w <| w_fs ::= without [] |>)) by by intros [].
  revert total w. induction files as [|f files IH]; intros total w HD Hnf Hnd Hl; cbn [evict_files victims]; [apply Hid|].
  cbn in Hnd. apply NoDup_cons in Hnd as [Hnin Hnd].
  destruct (total <=? quota); [apply Hid|].
  destruct (String.eqb _ _); [apply IH; [done..|intros; apply Hl; by right]|].
  destruct (Hl f) as (name & [n Hn] & Hndir & Hname & Hp & Hdd); [by left|]. unfold mbind, St_bind, wrap. rewrite Hp.
  rewrite (Remove_nofault D name n) by (try done; congruence). rewrite IH; [|..].
  - unfold without. cbn [foldl]. rewrite Hp. by destruct w.
  - cbn. apply real_delete; [done|apply child_not_prefix].
  - done.
  - done.
  - intros g Hg. destruct (Hl g) as (name' & Hs' & Hnd' & Hname' & Hp' & Hdd'); [by right|]. exists name'.
    assert (D ++ [name] ≠ D ++ [name']).
    { intros E%app_inv_head. injection E as E. apply Hnin. apply list_elem_of_fmap. exists g. split; [|done].
      rewrite E, Hname' in Hname. apply (f_equal bytes) in Hname. rewrite !bytes_app in Hname. apply app_inv_tail in Hname.
      by rewrite <-(of_bytes_bytes (cf_name f)), <-Hname, of_bytes_bytes. }
    cbn. change (upd_field _ _ _ ) with (w <| w_fs ::= delete (D ++ [name]) |>). cbn. rewrite lookup_delete_ne by done. done.
Qed.

Lemma evict_run c active w :
  read_path (ca_Dir c) = dir → real (w_fs w) D → named D (w_fs w) → w_faults w = [] → 0 < ca_QuotaBytes c →
  ∃ files,
    (ReadDir dir ≫= cache_files other_info dir) w = (Ok files, w) ∧
    evict other_info c active w = (Ok tt, w <| w_fs ::= without
      (victims (ca_QuotaBytes c) (strip_sha active) (sum_list cf_size files) (sort_slice older files)) |>).
Proof.
  intros Hdir HD Hn Hnf Hq.
  destruct (cache_files_nofault w (listing (w_fs w)) HD Hnf Hn (listing_in (w_fs w)) (listing_names _)) as (files & E & Hnd & Hl).
  exists files. split.
  - unfold mbind, St_bind. by rewrite ReadDir_nofault.
  - unfold evict. destruct (Z.leb_spec (ca_QuotaBytes c) 0); [lia|]. cbv zeta. rewrite Hdir.
    unfold mbind at 1, St_bind at 1. rewrite ReadDir_nofault by done. unfold mbind at 1, St_bind at 1. rewrite E.
    apply evict_files_nofault; [done..| |].
    + by rewrite sort_slice_perm.
    + intros f. rewrite sort_slice_perm. intros Hf. by apply Hl.
Qed.

(** Eviction keeps the quota by removing the models used longest ago: without faults it succeeds,
    the active model stays, what is left fits the quota unless every model left is active, no model that is
    kept was used before one that is removed, and none is removed that need not be. *)
Theorem evict_spec c active w :
  read_path (ca_Dir c) = dir → real (w_fs w) D → named D (w_fs w) → w_faults w = [] → 0 < ca_QuotaBytes c →
  ∃ files gone,
    (ReadDir dir ≫= cache_files other_info dir) w = (Ok files, w) ∧
    evict other_info c active w = (Ok tt, w <| w_fs ::= without gone |>) ∧
    (∀ f, f ∈ gone → f ∈ files ∧ cf_name f ≠ strip_sha active) ∧
    (sum_list cf_size files - sum_list cf_size gone ≤ ca_QuotaBytes c ∨
     ∀ f, f ∈ files → f ∈ gone ∨ cf_name f = strip_sha active) ∧
    (∀ a b, a ∈ gone → b ∈ files → b ∉ gone → cf_name b ≠ strip_sha active → cf_atime a ≤ cf_atime b) ∧
    (∀ l f, gone = l ++ [f] → ca_QuotaBytes c < sum_list cf_size files - sum_list cf_size l).
Proof.
  intros Hdir HD Hn Hnf Hq. destruct (evict_run c active w Hdir HD Hn Hnf Hq) as (files & E & Hrun).
  set (sorted := sort_slice older files) in *.
  assert (Hperm : sorted ≡ₚ files) by apply sort_slice_perm.
  eexists files, _. split_and!; [done|exact Hrun|..].
  - intros f [Hf ?]%victims_in. by rewrite Hperm in Hf.
  - destruct (victims_enough (ca_QuotaBytes c) (strip_sha active) (sum_list cf_size files) sorted) as [?|H]; [by left|right].
    intros f Hf. apply H. by rewrite Hperm.
  - intros a b Ha Hb Hnb Hne. eapply victims_oldest; [|exact Ha| |exact Hnb|done]; [|by rewrite Hperm].
    apply sort_slice_sorted; unfold older; lia.
  - intros l f Hv. by eapply victims_needed.
Qed.
End evict_exact.

Section ensure.
Context `{!Libraries} `{!SortSlice CacheFile} (device : location → nat) (goos : string) (other_info : node → Z * Z).
Context (c : Cache) (active sha : string).
Let dir := read_path (ca_Dir c).
Let D := parts dir.
Let fin := sha +:+ ".gguf".
Let par := sha +:+ ".partial".
Context (Hdir : ca_Dir c ≠ "") (Hrooted : rooted dir = true) (Hslash : slash ∉ bytes sha).

Lemma fin_entry : plain D → Join dir fin = entry D fin ∧ fin ≠ "..".
Proof. intros HD. apply cache_entry; try done; [by apply (bool_decide_unpack _)|simpl; lia]. Qed.
Lemma par_entry : plain D → Join dir par = entry D par ∧ par ≠ "..".
Proof. intros HD. apply cache_entry; try done; [by apply (bool_decide_unpack _)|simpl; lia]. Qed.
Lemma fin_par : fin ≠ par.
Proof.
  intros E. apply (f_equal bytes) in E. unfold fin, par in E. rewrite !bytes_app in E. apply (f_equal length) in E.
  rewrite !length_app in E. simpl in E. lia.
Qed.
Lemma no_slash suf : slash ∉ bytes suf → slash ∉ bytes (sha +:+ suf).
Proof. intros Hsuf. rewrite bytes_app, elem_of_app. tauto. Qed.

Lemma finish_ok w :
  nolinks D (w_fs w) → named D (w_fs w) →
  let '(r, w') := (_ ← used_now (entry D fin); _ ← evict other_info c active; mret (entry D fin)) w in
  (∀ k, k ≠ D ++ [fin] → w_fs w' !! k = w_fs w !! k ∨
     (w_fs w' !! k = None ∧ w_fs w !! k ≠ Some NDir ∧ ∃ name, k = D ++ [name +:+ ".gguf"] ∧ name ≠ strip_sha active)) ∧
  (∀ d t, w_fs w' !! (D ++ [fin]) = Some (NFile d t) → ∃ t0, w_fs w !! (D ++ [fin]) = Some (NFile d t0)) ∧
  (∀ p, r = Ok p → p = entry D fin) ∧
  (strip_sha active = sha ∨ ca_QuotaBytes c ≤ 0 →
   ∀ d t, w_fs w !! (D ++ [fin]) = Some (NFile d t) → ∃ t', w_fs w' !! (D ++ [fin]) = Some (NFile d t')).
Proof.
  intros Hn Hnd. destruct (fin_entry) as [_ Hfin]; [apply Hn|].
  destruct (used_now_fs D fin w Hn Hfin) as (u & w1 & E1 & Hfs1). unfold mbind at 1, St_bind at 1. rewrite E1.
  assert (HD1 : real (w_fs w1) D).
  { destruct Hfs1 as [->|(d & t & t' & _ & ->)]; [apply Hn|]. apply real_insert; [apply Hn|apply child_not_prefix]. }
  assert (Hnd1 : named D (w_fs w1)).
  { destruct Hfs1 as [->|(d & t & t' & Hd & ->)]; [done|]. intros x Hx. apply Hnd.
    destruct (decide (D ++ [x] = D ++ [fin])) as [E|]; [rewrite E, Hd; by eexists|]. by rewrite lookup_insert_ne in Hx. }
  assert (Hold : ∀ k, k ≠ D ++ [fin] → w_fs w1 !! k = w_fs w !! k).
  { intros k Hk. destruct Hfs1 as [->|(d & t & t' & Hd & ->)]; [done|]. by rewrite lookup_insert_ne. }
  assert (Hcont : ∀ d t, w_fs w1 !! (D ++ [fin]) = Some (NFile d t) → ∃ t0, w_fs w !! (D ++ [fin]) = Some (NFile d t0)).
  { intros d t. destruct Hfs1 as [->|(d' & t0 & t' & Hd & ->)]; [by eexists|]. rewrite lookup_insert_eq. intros [= <- _]. by eexists. }
  assert (Hcont' : ∀ d t, w_fs w !! (D ++ [fin]) = Some (NFile d t) → ∃ t', w_fs w1 !! (D ++ [fin]) = Some (NFile d t')).
  { intros d t Hf. destruct Hfs1 as [->|(d' & t0 & t' & Hd & ->)]; [by eexists|]. rewrite lookup_insert_eq.
    rewrite Hf in Hd. injection Hd as <- _. by eexists. }
  pose proof (evict_spares other_info dir Hrooted c active w1 eq_refl HD1 Hnd1) as Hs. fold D in Hs.
  assert (Hkeep : strip_sha active = sha ∨ ca_QuotaBytes c ≤ 0 →
    w_fs (evict other_info c active w1).2 !! (D ++ [fin]) = w_fs w1 !! (D ++ [fin])).
  { intros [Ha|Hq].
    - destruct (Hs (D ++ [fin])) as [?|(_ & _ & name & E & Hne)]; [done|]. exfalso. apply Hne. rewrite Ha.
      apply app_inv_head in E. injection E as E. unfold fin in E. symmetry.
      apply (f_equal bytes) in E. rewrite !bytes_app in E. apply app_inv_tail in E.
      by rewrite <-(of_bytes_bytes sha), E, of_bytes_bytes.
    - unfold evict. by rewrite (proj2 (Z.leb_le _ _) Hq). }
  unfold mbind, St_bind. destruct (evict other_info c active w1) as [r2 w2]. cbn [snd] in *.
  assert (Hres : ∀ r : result Path, (∀ p, r = Ok p → p = entry D fin) →
    (∀ k, k ≠ D ++ [fin] → w_fs w2 !! k = w_fs w !! k ∨
     (w_fs w2 !! k = None ∧ w_fs w !! k ≠ Some NDir ∧ ∃ name, k = D ++ [name +:+ ".gguf"] ∧ name ≠ strip_sha active)) ∧
    (∀ d t, w_fs w2 !! (D ++ [fin]) = Some (NFile d t) → ∃ t0, w_fs w !! (D ++ [fin]) = Some (NFile d t0)) ∧
    (∀ p, r = Ok p → p = entry D fin) ∧
    (strip_sha active = sha ∨ ca_QuotaBytes c ≤ 0 →
     ∀ d t, w_fs w !! (D ++ [fin]) = Some (NFile d t) → ∃ t', w_fs w2 !! (D ++ [fin]) = Some (NFile d t'))).
  { intros r Hr. split_and!; [|  |done|].
    - intros k Hk. rewrite <-Hold by done. apply Hs.
    - intros d t Hf. destruct (Hs (D ++ [fin])) as [E|(E & _)]; rewrite E in Hf; [|done]. by eapply Hcont.
    - intros Ha d t Hf. rewrite Hkeep by done. by eapply Hcont'. }
  destruct r2; apply Hres; [by intros ? [= <-]|done].
Qed.

(** What a run of [Ensure] from the tree [fs] promises, whatever it returns. *)
Definition verified (size : Z) (d : string) : Prop := size_matches d size = true ∧ hash_hex d = strip_sha sha.
Definition promised (size : Z) (fs : files) (r : result Path) (fs' : files) : Prop :=
  (∀ d t, fs' !! (D ++ [fin]) = Some (NFile d t) → verified size d ∨ ∃ t0, fs !! (D ++ [fin]) = Some (NFile d t0)) ∧
  (∀ p, r = Ok p → strip_sha active = sha ∨ ca_QuotaBytes c ≤ 0 →
     p = entry D fin ∧ ∃ d t, fs' !! (D ++ [fin]) = Some (NFile d t) ∧ verified size d) ∧
  (∀ k, ¬ (D ++ [fin]) `prefix_of` k → ¬ (D ++ [par]) `prefix_of` k →
     fs' !! k = fs !! k ∨
     (fs' !! k = None ∧ fs !! k ≠ Some NDir ∧ ∃ name, k = D ++ [name +:+ ".gguf"] ∧ name ≠ strip_sha active)).

Lemma promised_err size fs e fs' : (∀ k, k ≠ D ++ [par] → fs' !! k = fs !! k) → promised size fs (Err e) fs'.
Proof.
  intros Hfs'. split_and!; [|done|].
  - intros d t. rewrite Hfs'; [intros ?; right; by eexists|]. intros E%app_inv_head. injection E. apply fin_par.
  - intros k _ Hk. left. apply Hfs'. by intros ->.
Qed.

(** The end of a run, from a tree where the model is in place. *)
Lemma promised_finish size fs w d t :
  nolinks D (w_fs w) → named D (w_fs w) → w_fs w !! (D ++ [fin]) = Some (NFile d t) → verified size d →
  (∀ k, ¬ (D ++ [fin]) `prefix_of` k → ¬ (D ++ [par]) `prefix_of` k → w_fs w !! k = fs !! k) →
  let '(r, w') := (_ ← used_now (entry D fin); _ ← evict other_info c active; mret (entry D fin)) w in
  promised size fs r (w_fs w').
Proof.
  intros Hn Hnd Hd Hv Hold. pose proof (finish_ok w Hn Hnd) as Hf.
  destruct ((_ ← used_now (entry D fin); _) w) as [r w']. destruct Hf as (H1 & H2 & H3 & H4). split_and!.
  - intros d' t' Hd'. left. apply H2 in Hd' as [t0 Hd']. rewrite Hd in Hd'. by injection Hd' as <- _.
  - intros p Hp Hq. split; [by apply H3|]. destruct (H4 Hq d t Hd) as [t' Hd']. by exists d, t'.
  - intros k Hk Hkp. rewrite <-Hold by done. apply H1. by intros ->.
Qed.

Lemma promoted_tree fs :
  nolinks D fs → named D fs →
  nolinks D (relocate (D ++ [par]) (D ++ [fin]) fs) ∧ named D (relocate (D ++ [par]) (D ++ [fin]) fs).
Proof.
  intros [[HD Hr] Hl] Hn. split; [split; [split; [done|]|]|].
  - apply real_relocate; [done|apply child_not_prefix..].
  - intros k t Hk. rewrite lookup_relocate. destruct (below (D ++ [fin]) k).
    + apply Hl. rewrite <-app_assoc. by apply prefix_app_r.
    + destruct (below _ k); [done|by apply Hl].
  - intros x. rewrite lookup_relocate. destruct (below (D ++ [fin]) (D ++ [x])) eqn:E.
    + intros _. apply below_true, prefix_child in E as [E|E]; [by apply child_not_prefix in E|].
      apply app_inv_head in E. injection E as <-. apply no_slash. by apply (bool_decide_unpack _).
    + destruct (below (D ++ [par]) (D ++ [x])); [by intros []|]. exact (Hn x).
Qed.

(** C17. A model the cache hands out is the one that was asked for: its file holds bytes with the requested
    SHA-256 hash and size, as long as it is the active model or the cache has no quota. No fault and no answer of
    a server puts anything else under the name of a model, and beside its own two files
    [Ensure] changes nothing but to remove models that are not active. *)
Theorem cache_holds_verified a w :
  nolinks D (w_fs w) → named D (w_fs w) → sha ≠ "" → strip_sha (ar_SHA256 a) = sha →
  let '(r, w') := Ensure device goos other_info c a active w in promised (ar_SizeBytes a) (w_fs w) r (w_fs w').
Proof.
  intros HK Hnd Hsha Ha. destruct fin_entry as [Hfj Hfin]; [apply HK|]. destruct par_entry as [Hpj Hpar]; [apply HK|].
  pose proof fin_par as Hfp. assert (Hpf : D ++ [par] ≠ D ++ [fin]) by (intros E%app_inv_head; injection E; congruence).
  unfold Ensure. fold dir. rewrite Ha. fold fin par.
  destruct (String.eqb_spec (ca_Dir c) ""); [done|]. destruct (String.eqb_spec sha ""); [done|].
  rewrite !bind_guard. cbv zeta. rewrite Hfj, Hpj. unfold mbind at 1, St_bind at 1, wrap at 1.
  pose proof (MkdirAll_above_fs D dir w ltac:(apply HK) Hrooted ltac:(done)) as Hfs1.
  destruct (MkdirAll dir w) as [[u1|e1] w1]; cbn [snd] in Hfs1; [|apply promised_err; intros; by rewrite Hfs1].
  unfold mbind at 1, St_bind at 1, try at 1. pose proof (verifyExisting_fs (entry D fin) sha (ar_SizeBytes a) w1) as Hfs2.
  destruct (verifyExisting (entry D fin) sha (ar_SizeBytes a) w1) as [r2 w2] eqn:E2. cbn [snd] in Hfs2. rewrite Hfs1 in Hfs2.
  destruct r2 as [u2|e2].
  { apply (verifyExisting_ok D) in E2 as (d & t & Hd & Hg); [|by rewrite Hfs1|done]. rewrite Hfs1 in Hd.
    eapply promised_finish; try done; rewrite ?Hfs2; done. }
  set (P := λ fs' : files, nolinks D fs' ∧ ∀ k, k ≠ D ++ [par] → fs' !! k = w_fs w !! k).
  assert (HPi : ∀ fs d t, P fs → P (<[D ++ [par]:=NFile d t]> fs)).
  { intros fs d t [Hn Hk]. split; [|intros k Hne; rewrite lookup_insert_ne by done; by apply Hk].
    apply nolinks_insert; [done|by eexists| |done]. intros E. apply (f_equal length) in E. rewrite length_app in E. simpl in E. lia. }
  assert (Hunder : under D (entry D par)) by (exists [par]; split_and!; [done..|by intros Hin%list_elem_of_singleton]).
  pose proof (keeps_download D (D ++ [par]) P ltac:(by intros ? []) HPi (entry D par) Hunder eq_refl goos (ar_URL a) (ar_SizeBytes a) w2) as H3.
  cbv beta in H3. rewrite Hfs2 in H3. specialize (H3 (conj HK (λ _ _, eq_refl))).
  unfold mbind at 1, St_bind at 1. destruct (downloadResumable goos (ar_URL a) (entry D par) (ar_SizeBytes a) w2) as [[u3|e3] w3]; cbn [snd] in H3; destruct H3 as [HK3 Hk3]; [|by apply promised_err].
  unfold mbind at 1, St_bind at 1. pose proof (verifyExisting_fs (entry D par) sha (ar_SizeBytes a) w3) as Hfs4.
  destruct (verifyExisting (entry D par) sha (ar_SizeBytes a) w3) as [[u4|e4] w4] eqn:E4; cbn [snd] in Hfs4; [|apply promised_err; by rewrite Hfs4].
  apply (verifyExisting_ok D) in E4 as (d & t & Hd & Hg); [|done..].
  unfold mbind at 1, St_bind at 1, wrap at 1.
  destruct (Rename device (entry D par) (entry D fin) w4) as [r5 w5] eqn:E5.
  apply Rename_entry_cases in E5 as [(e5 & -> & Hfs5)|(-> & Hfs5 & _)]; [by apply promised_err; rewrite Hfs5, Hfs4| |rewrite Hfs4; apply HK3..|done|done|done].
  rewrite Hfs4 in Hfs5.
  assert (Hnd3 : named D (w_fs w3)).
  { intros x Hx. destruct (decide (x = par)) as [->|Hne]; [apply no_slash; by apply (bool_decide_unpack _)|].
    apply Hnd. rewrite <-Hk3; [done|]. intros E%app_inv_head. by injection E. }
  destruct (promoted_tree (w_fs w3) HK3 Hnd3) as [HK5 Hnd5]. rewrite <-Hfs5 in HK5, Hnd5.
  eapply promised_finish; try done.
  - by rewrite Hfs5, relocate_dest.
  - intros k H1 H2. rewrite Hfs5, relocate_other by done. apply Hk3. by intros ->.
Qed.

(** *** Downloads that are interrupted *)

Lemma verifyExisting_nofault x s size w :
  real (w_fs w) D → x ≠ ".." → w_faults w = [] → (∀ t, w_fs w !! (D ++ [x]) ≠ Some (NLink t)) →
  verifyExisting (entry D x) s size w =
    (match w_fs w !! (D ++ [x]) with
     | Some (NFile d _) =>
         if size_matches d size then
           if String.eqb (hash_hex d) (strip_sha s) then Ok tt else Err (ErrMsg ("sha256 = " +:+ hash_hex d +:+ ", want " +:+ s))
         else Err (ErrMsg ("size = " +:+ itoa (Z.of_nat (String.length d)) +:+ ", want " +:+ itoa size))
     | Some _ => Err EISDIR
     | None => Err ENOENT
     end, w).
Proof.
  intros HD Hx Hnf Hl. unfold verifyExisting, Open, read_all.
  assert (Hres : resolve true (entry D x) w = (Ok (D ++ [x]), w)) by by apply resolve_child.
  unfold mbind at 1, St_bind at 1. rewrite syscall_nofault by done. unfold mbind at 1, St_bind at 1. rewrite Hres.
  unfold node_of, gets, mbind at 1, St_bind at 1, mbind at 1, St_bind at 1. rewrite node_at_entry.
  destruct (w_fs w !! (D ++ [x])) as [n|] eqn:E; [|done]. cbn [of_option mret St_ret].
  unfold mbind at 1, St_bind at 1. rewrite syscall_nofault by done. unfold mbind at 1, St_bind at 1. rewrite node_at_entry, E.
  destruct n as [d t| |t]; [|done..]. cbn [mret St_ret]. rewrite !bind_guard. destruct (size_matches d size); [|done].
  unfold guard_err. by destruct (String.eqb _ _).
Qed.

(** The bytes of a partial download; none if there is no file. *)
Definition partial (fs : files) (d : string) : Prop :=
  (d = "" ∧ fs !! (D ++ [par]) = None) ∨ ∃ t, fs !! (D ++ [par]) = Some (NFile d t).

Lemma partial_nolink fs d t : partial fs d → fs !! (D ++ [par]) ≠ Some (NLink t).
Proof. by intros [[_ ->]|[t' ->]]. Qed.

(** What is asked for and what is there after the partial file is opened. *)
Definition opened (d : string) (url : string) (w : World) : World :=
  w <| w_fs ::= (if String.eqb d "" then <[D ++ [par] := NFile "" (w_now w)]> else id) |>
    <| w_requests ::= cons (SentGet url (Z.of_nat (String.length d))) |> <| w_replies ::= tail |>.

Lemma length_pos d : (0 <? Z.of_nat (String.length d)) = negb (String.eqb d "").
Proof. destruct d; [done|]. cbn [String.length String.eqb negb]. apply Z.ltb_lt. lia. Qed.

Lemma fetch_opens url size d status body complete rest w :
  real (w_fs w) D → par ≠ ".." → w_faults w = [] → partial (w_fs w) d → w_replies w = Answer status body complete :: rest →
  fetch_model true url (entry D par) size w =
    (offset ←
       (let offset := Z.of_nat (String.length d) in
        if (0 <? offset) && (status =? 206) then mret offset
        else if (0 <? offset) && (status =? 200) then
          _ ← wrap "restart partial model" (Truncate (D ++ [par]));
          _ ← wrap "seek partial model" Seek;
          mret 0
        else if (offset =? 0) && (status =? 200) then mret offset
        else fail (ErrMsg ("download model artifact: HTTP " +:+ itoa status)));
     _ ← wrap "write model artifact" (copy_from (D ++ [par]) body complete);
     let got := offset + Z.of_nat (String.length body) in
     guard_err (negb ((0 <? size) && negb (got =? size)))
       (ErrMsg ("model artifact is incomplete: got " +:+ itoa got +:+ " bytes, want " +:+ itoa size))) (opened d url w).
Proof.
  intros HD Hpar Hnf Hp Hr. unfold fetch_model.
  assert (Hl : ∀ t, w_fs w !! (D ++ [par]) ≠ Some (NLink t)) by (intros t; by apply (partial_nolink _ d)).
  unfold mbind at 1, St_bind at 1, try at 1. rewrite Stat_nofault by done.
  assert (Hoff : (match match w_fs w !! (D ++ [par]) with Some n => Ok n | None => Err ENOENT end with
                  | Ok n => node_size n | Err _ => 0 end) = Z.of_nat (String.length d)).
  { by destruct Hp as [[-> ->]|[t ->]]. }
  cbv zeta. rewrite Hoff, length_pos. rewrite negb_involutive.
  assert (Hopen : open_write (String.eqb d "") (entry D par) w =
    (Ok (D ++ [par]), w <| w_fs ::= (if String.eqb d "" then <[D ++ [par] := NFile "" (w_now w)]> else id) |>)).
  { unfold open_write. rewrite syscall_nofault by done. unfold mbind at 1, St_bind at 1.
    rewrite (resolve_child D par w) by done. unfold node_of, gets. do 3 (unfold mbind at 1, St_bind at 1). rewrite node_at_entry.
    destruct Hp as [[-> ->]|[t ->]]; cbn [String.eqb]; [done|]. destruct (String.eqb d "") eqn:Ed; [done|]. by destruct w. }
  unfold mbind at 1, St_bind at 1, wrap at 1. rewrite Hopen. cbn match. unfold guard_err at 1.
  unfold mbind at 1, St_bind at 1. cbn [mret St_ret]. unfold http_get, ask.
  do 2 (unfold mbind at 1, St_bind at 1). unfold modify at 1. unfold mbind at 1, St_bind at 1, gets at 1. cbn [w_replies upd_field].
  unfold opened. destruct w as [fs cwd now faults replies requests names]. cbn in Hr, Hnf |- *. subst replies. reflexivity.
Qed.

Lemma opened_file d url w : partial (w_fs w) d → ∃ t, w_fs (opened d url w) !! (D ++ [par]) = Some (NFile d t).
Proof.
  intros Hp. unfold opened. cbn. destruct (String.eqb_spec d "") as [->|Hne].
  - rewrite lookup_insert_eq. by eexists.
  - destruct Hp as [[? _]|[t Ht]]; [done|]. by exists t.
Qed.

(** The next bytes are added to what was there. *)
Lemma fetch_appends url size d status body complete rest w :
  real (w_fs w) D → par ≠ ".." → w_faults w = [] → partial (w_fs w) d → w_replies w = Answer status body complete :: rest →
  status = (if String.eqb d "" then 200 else 206) → (0 < size → complete = true → Z.of_nat (String.length d) + Z.of_nat (String.length body) = size) →
  fetch_model true url (entry D par) size w =
    ((if complete then Ok tt else Err (ErrWrap "write model artifact" (ErrMsg "unexpected EOF"))),
     opened d url w <| w_fs ::= <[D ++ [par] := NFile (d +:+ body) (w_now w)]> |>).
Proof.
  intros HD Hpar Hnf Hp Hr Hst Hsz. erewrite fetch_opens by done. cbv zeta. rewrite length_pos.
  destruct (opened_file d url w Hp) as [t Ht].
  assert (Hnow : w_now (opened d url w) = w_now w) by done.
  assert (Hoff : (if negb (String.eqb d "") && (status =? 206) then mret (Z.of_nat (String.length d))
    else if negb (String.eqb d "") && (status =? 200) then
      _ ← wrap "restart partial model" (Truncate (D ++ [par])); _ ← wrap "seek partial model" Seek; mret 0
    else if (Z.of_nat (String.length d) =? 0) && (status =? 200) then mret (Z.of_nat (String.length d))
    else fail (ErrMsg ("download model artifact: HTTP " +:+ itoa status)) : IO Z) = mret (Z.of_nat (String.length d))).
  { subst status. by destruct (String.eqb_spec d "") as [->|]. }
  cbv zeta. rewrite Hoff. unfold mbind at 1, St_bind at 1. cbn [mret St_ret].
  assert (Hw : write_all (D ++ [par]) body (opened d url w) =
    (Ok tt, opened d url w <| w_fs ::= <[D ++ [par] := NFile (d +:+ body) (w_now w)]> |>)).
  { unfold write_all, next_fault, mbind, St_bind, gets, set_fs, modify.
    change (w_faults (opened d url w)) with (w_faults w). rewrite Hnf, Hnow. f_equal.
    assert (Ha : append_to (D ++ [par]) body (w_now w) (w_fs (opened d url w)) = <[D ++ [par] := NFile (d +:+ body) (w_now w)]> (w_fs (opened d url w))).
    { unfold append_to. by rewrite Ht. }
    generalize dependent (opened d url w). intros [fs cwd now faults replies requests names] _ _ Ha. cbn in *. by rewrite Ha. }
  unfold mbind at 1, St_bind at 1, wrap at 1, copy_from. unfold mbind at 1, St_bind at 1. rewrite Hw.
  unfold guard_err. destruct complete; [|done]. cbn [mret St_ret].
  destruct (Z.ltb_spec 0 size); [|done]. cbn [andb]. rewrite Hsz by done. by rewrite Z.eqb_refl.
Qed.

(** A server that has no such bytes is an error, and nothing changes. *)
Lemma fetch_refused url size d status body complete rest w :
  real (w_fs w) D → par ≠ ".." → w_faults w = [] → partial (w_fs w) d → w_replies w = Answer status body complete :: rest →
  d ≠ "" → status ≠ 200 → status ≠ 206 →
  fetch_model true url (entry D par) size w =
    (Err (ErrMsg ("download model artifact: HTTP " +:+ itoa status)), opened d url w).
Proof.
  intros HD Hpar Hnf Hp Hr Hd H200 H206. erewrite fetch_opens by done. cbv zeta. rewrite length_pos.
  rewrite (proj2 (Z.eqb_neq _ _) H200), (proj2 (Z.eqb_neq _ _) H206). destruct (String.eqb_spec d ""); [done|].
  cbn [negb andb]. rewrite !andb_false_r. done.
Qed.

Lemma used_now_nofault d t w :
  nolinks D (w_fs w) → fin ≠ ".." → w_faults w = [] → w_fs w !! (D ++ [fin]) = Some (NFile d t) →
  used_now (entry D fin) w = (Ok tt, w <| w_fs ::= <[D ++ [fin] := NFile d (w_now w)]> |>).
Proof.
  intros Hn Hf Hnf Hd. unfold used_now, mbind at 1, St_bind at 1, gets at 1, ignore_err, Chtimes.
  rewrite syscall_nofault by done. unfold mbind at 1, St_bind at 1.
  rewrite (resolve_child D fin w); [|apply Hn|done..|intros ?; by rewrite Hd].
  unfold node_of, gets, mbind at 1, St_bind at 1. rewrite node_at_entry, Hd. done.
Qed.

Lemma finish_nofault d t w :
  nolinks D (w_fs w) → named D (w_fs w) → w_faults w = [] → w_fs w !! (D ++ [fin]) = Some (NFile d t) →
  strip_sha active = sha →
  ∃ w' t', (_ ← used_now (entry D fin); _ ← evict other_info c active; mret (entry D fin)) w = (Ok (entry D fin), w') ∧
    w_fs w' !! (D ++ [fin]) = Some (NFile d t') ∧ (w_fs w !! (D ++ [par]) = None → w_fs w' !! (D ++ [par]) = None).
Proof.
  intros Hn Hnd Hnf Hd Ha. destruct (fin_entry) as [_ Hfin]; [apply Hn|].
  pose proof (finish_ok w Hn Hnd) as Hok.
  assert (Hrun : ∃ w', (_ ← used_now (entry D fin); _ ← evict other_info c active; mret (entry D fin)) w = (Ok (entry D fin), w')).
  { unfold mbind at 1, St_bind at 1. rewrite (used_now_nofault d t) by done. set (w1 := w <| w_fs ::= _ |>).
    destruct (Z.leb_spec (ca_QuotaBytes c) 0) as [Hq|Hq].
    { unfold evict. rewrite (proj2 (Z.leb_le _ _) Hq). by eexists. }
    destruct (evict_run other_info dir Hrooted c active w1) as (files & _ & E); try done.
    - cbn. apply real_insert; [apply Hn|apply child_not_prefix].
    - cbn. intros x Hx. destruct (decide (x = fin)) as [->|Hne]; [apply Hnd; by rewrite Hd; eexists|].
      rewrite lookup_insert_ne in Hx; [by apply Hnd|]. intros E%app_inv_head. by injection E.
    - unfold mbind, St_bind. rewrite E. by eexists. }
  destruct Hrun as [w' Hrun]. rewrite Hrun in Hok. destruct Hok as (H1 & _ & _ & H4).
  destruct (H4 (or_introl Ha) d t Hd) as [t' Hd']. exists w', t'. split_and!; [done..|].
  intros Hp. destruct (H1 (D ++ [par])) as [->|(-> & _)]; [|done..].
  intros E%app_inv_head. injection E as E. by apply fin_par.
Qed.

(** A server that serves ranges of [content] and may lose the connection after [k] bytes. *)
Definition first (n : nat) (s : string) : string := of_bytes (take n (bytes s)).
Definition size_of (s : string) : nat := length (bytes s).
Definition honest (content : string) (n k : nat) : Reply :=
  if Nat.eqb n 0 then Answer 200 (first k content) (Nat.leb (size_of content) k)
  else if Nat.ltb n (size_of content)
       then Answer 206 (of_bytes (take k (drop n (bytes content)))) (Nat.leb (size_of content) (n + k))
  else Answer 416 "" true.

(** [n] bytes of the model are there, and nothing else is wrong. *)
Definition downloading (content : string) (n : nat) (w : World) : Prop :=
  nolinks D (w_fs w) ∧ named D (w_fs w) ∧ w_faults w = [] ∧ w_fs w !! (D ++ [fin]) = None ∧
  partial (w_fs w) (first n content).

Definition remote (url : string) : Prop :=
  ∃ u, parse_url url = Some u ∧ url_Scheme u ≠ "file" ∧ IsLocalRawURL u = false.

Lemma first_empty n content : (n ≤ size_of content)%nat → String.eqb (first n content) "" = Nat.eqb n 0.
Proof.
  unfold first, size_of. destruct n; [done|]. destruct (bytes content) as [|b l]; simpl; [lia|done].
Qed.
Lemma first_length n content : (n ≤ size_of content)%nat → Z.of_nat (String.length (first n content)) = Z.of_nat n.
Proof. intros Hn. unfold first, size_of in *. rewrite <-length_bytes, bytes_of_bytes, length_take. lia. Qed.
Lemma first_all k content : (size_of content ≤ k)%nat → first k content = content.
Proof. intros Hk. unfold first. rewrite take_ge by done. apply of_bytes_bytes. Qed.
Lemma first_app n k content : first n content +:+ of_bytes (take k (drop n (bytes content))) = first (n + k) content.
Proof.
  unfold first. rewrite <-(take_take_drop (bytes content) n k), <-(of_bytes_bytes (_ +:+ _)), bytes_app, !bytes_of_bytes. done.
Qed.

(** One attempt at a download of which [n] bytes are there, when the server sends [k] more. *)
Lemma fetch_honest url size content n k rs w :
  let n' := (n + k)%nat in
  real (w_fs w) D → par ≠ ".." → w_faults w = [] → partial (w_fs w) (first n content) → (n ≤ size_of content)%nat →
  n = 0%nat ∨ (n < size_of content)%nat → size ≤ 0 ∨ size = Z.of_nat (size_of content) → w_replies w = honest content n k :: rs →
  fetch_model true url (entry D par) size w =
    ((if Nat.leb (size_of content) n' then Ok tt else Err (ErrWrap "write model artifact" (ErrMsg "unexpected EOF"))),
     opened (first n content) url w <| w_fs ::= <[D ++ [par] := NFile (first n' content) (w_now w)]> |>).
Proof.
  cbv zeta. intros HD Hpar Hnf Hp Hn Hlt Hsz Hr.
  assert (Hbody : honest content n k = Answer (if String.eqb (first n content) "" then 200 else 206)
    (of_bytes (take k (drop n (bytes content)))) (Nat.leb (size_of content) (n + k))).
  { unfold honest. rewrite first_empty by done. destruct (Nat.eqb_spec n 0) as [->|]; [by rewrite drop_0|].
    destruct Hlt as [?|Hlt]; [done|]. by rewrite (proj2 (Nat.ltb_lt _ _) Hlt). }
  rewrite Hbody in Hr. rewrite <-first_app. apply (fetch_appends url size _ _ _ _ rs w HD Hpar Hnf Hp Hr eq_refl).
  intros Hpos Hall%Nat.leb_le. destruct Hsz as [?| ->]; [lia|].
  rewrite first_length by done. rewrite <-length_bytes, bytes_of_bytes, length_take, length_drop.
  unfold size_of in *. lia.
Qed.

Section attempts.
Context (a : Artifact) (content : string).
Context (Hsha : sha ≠ "") (Ha : strip_sha (ar_SHA256 a) = sha) (Hurl : remote (ar_URL a)) (Hact : strip_sha active = sha)
  (Hhash : hash_hex content = strip_sha sha)
  (Hsize : ar_SizeBytes a ≤ 0 ∨ ar_SizeBytes a = Z.of_nat (size_of content))
  (Hdev : device (D ++ [par]) = device (D ++ [fin])).

(** What [Ensure] does in a directory where the model is not there yet. *)
Lemma Ensure_missing n w :
  downloading content n w →
  Ensure device goos other_info c a active w =
    (_ ← fetch_model true (ar_URL a) (entry D par) (ar_SizeBytes a);
     _ ← verifyExisting (entry D par) sha (ar_SizeBytes a);
     _ ← wrap "promote model artifact" (Rename device (entry D par) (entry D fin));
     _ ← used_now (entry D fin);
     _ ← evict other_info c active;
     mret (entry D fin)) w.
Proof.
  intros (HK & Hnd & Hnf & Hnone & Hp).
  destruct fin_entry as [Hfj Hfin]; [apply HK|]. destruct par_entry as [Hpj Hpar]; [apply HK|].
  unfold Ensure. fold dir. rewrite Ha. fold fin par.
  destruct (String.eqb_spec (ca_Dir c) ""); [done|]. destruct (String.eqb_spec sha ""); [done|].
  rewrite !bind_guard. cbv zeta. rewrite Hfj, Hpj. unfold mbind at 1, St_bind at 1, wrap at 1.
  rewrite (MkdirAll_real D) by (try done; apply HK). unfold mbind at 1, St_bind at 1, try at 1.
  rewrite verifyExisting_nofault by (try done; try apply HK; intros ?; by rewrite Hnone). rewrite Hnone.
  destruct Hurl as (u & Hu & Hf & Hlocal). unfold downloadResumable. rewrite Hu, Hlocal.
  by rewrite (proj2 (String.eqb_neq _ _) Hf).
Qed.

Lemma opened_tree d w : (if String.eqb d "" then <[D ++ [par] := NFile "" (w_now w)]> else id) (w_fs w) = w_fs (opened d (ar_URL a) w).
Proof. done. Qed.

(** The tree while a download is under way. *)
Lemma downloading_insert n n' d t w w' :
  downloading content n w → w_fs w' = <[D ++ [par] := NFile d t]> (w_fs (opened (first n content) (ar_URL a) w)) →
  w_faults w' = w_faults w → d = first n' content → downloading content n' w'.
Proof.
  intros (HK & Hnd & Hnf & Hnone & Hp) Hfs Hf ->.
  assert (Hfs' : w_fs w' = <[D ++ [par] := NFile (first n' content) t]> (w_fs w)).
  { rewrite Hfs. unfold opened. cbn. destruct (String.eqb _ _); [by rewrite insert_insert_eq|done]. }
  assert (Hpf : D ++ [par] ≠ D ++ [fin]) by (intros E%app_inv_head; injection E as E; by apply fin_par).
  split_and!; [| |by rewrite Hf| |].
  - rewrite Hfs'. apply nolinks_insert; [done|by exists [par]| |done]. intros E. apply (f_equal length) in E.
    rewrite length_app in E. simpl in E. lia.
  - rewrite Hfs'. intros x Hx. destruct (decide (x = par)) as [->|Hne]; [apply no_slash; by apply (bool_decide_unpack _)|].
    rewrite lookup_insert_ne in Hx; [by apply Hnd|]. intros E%app_inv_head. by injection E.
  - by rewrite Hfs', lookup_insert_ne.
  - right. exists t. by rewrite Hfs', lookup_insert_eq.
Qed.

Definition attempted (n k : nat) (rs : list Reply) (r : result Path) (w' : World) : Prop :=
  if Nat.leb (size_of content) n && negb (Nat.eqb n 0)
  then r = Err (ErrMsg ("download model artifact: HTTP " +:+ itoa 416)) ∧ downloading content n w' ∧ w_replies w' = rs
  else if Nat.leb (size_of content) (n + k)
  then r = Ok (entry D fin) ∧ (∃ t, w_fs w' !! (D ++ [fin]) = Some (NFile content t)) ∧ w_fs w' !! (D ++ [par]) = None
  else r = Err (ErrWrap "write model artifact" (ErrMsg "unexpected EOF")) ∧ downloading content (n + k) w' ∧ w_replies w' = rs.

Lemma attempt n k rs w :
  downloading content n w → (n ≤ size_of content)%nat → w_replies w = honest content n k :: rs →
  let '(r, w') := Ensure device goos other_info c a active w in attempted n k rs r w'.
Proof.
  intros Hd Hn Hr. rewrite (Ensure_missing n) by done. pose proof Hd as (HK & Hnd & Hnf & Hnone & Hp).
  destruct fin_entry as [_ Hfin]; [apply HK|]. destruct par_entry as [_ Hpar]; [apply HK|].
  unfold attempted. destruct (Nat.leb (size_of content) n && negb (Nat.eqb n 0)) eqn:Efull.
  - apply andb_true_iff in Efull as [Hfull%Nat.leb_le Hn0%negb_true_iff].
    assert (Hd0 : first n content ≠ "") by (apply String.eqb_neq; by rewrite first_empty).
    assert (Hh : honest content n k = Answer 416 "" true).
    { unfold honest. rewrite Hn0. by rewrite (proj2 (Nat.ltb_ge _ _) Hfull). }
    rewrite Hh in Hr. unfold mbind at 1, St_bind at 1.
    rewrite (fetch_refused _ _ (first n content) 416 "" true rs) by (try done; apply HK).
    split; [done|]. unfold opened. rewrite (proj2 (String.eqb_neq _ _) Hd0). split; [by destruct w|].
    cbn. by rewrite Hr.
  - assert (Hok : n = 0%nat ∨ (n < size_of content)%nat).
    { apply andb_false_iff in Efull as [E0%Nat.leb_gt|E0%negb_false_iff%Nat.eqb_eq]; [by right|by left]. }
    unfold mbind at 1, St_bind at 1. rewrite (fetch_honest _ _ content n k rs) by (try done; apply HK).
    set (w1 := opened _ _ w <| w_fs ::= _ |>).
    assert (Hd1 : downloading content (n + k) w1) by (by eapply (downloading_insert n (n + k))).
    assert (Hr1 : w_replies w1 = rs) by (unfold w1, opened; cbn; by rewrite Hr).
    destruct (Nat.leb_spec (size_of content) (n + k)) as [Hall|?]; [|done].
    pose proof Hd1 as (HK1 & Hnd1 & Hnf1 & Hnone1 & _).
    assert (Hfile : w_fs w1 !! (D ++ [par]) = Some (NFile content (w_now w))).
    { unfold w1. cbn. rewrite lookup_insert_eq, first_all; done. }
    unfold mbind at 1, St_bind at 1.
    rewrite verifyExisting_nofault by (try done; try apply HK1; intros ?; by rewrite Hfile). rewrite Hfile.
    assert (Hsm : size_matches content (ar_SizeBytes a) = true).
    { unfold size_matches. rewrite <-length_bytes. destruct Hsize as [Hs|Hs].
      - by rewrite (proj2 (Z.ltb_ge _ _) Hs).
      - unfold size_of in Hs. rewrite Hs, Z.eqb_refl. by rewrite andb_false_r. }
    rewrite Hsm, Hhash, String.eqb_refl. unfold mbind at 1, St_bind at 1, wrap at 1.
    assert (Hpf : D ++ [par] ≠ D ++ [fin]) by (intros E%app_inv_head; injection E as E; by apply fin_par).
    rewrite Rename_entry by (try done; apply HK1). rewrite Hfile, Hnone1, bool_decide_false by done.
    assert (below (D ++ [par]) (D ++ [fin]) = false) as ->.
    { apply below_false, siblings_apart. intros E. by apply fin_par. }
    rewrite (bool_decide_false (NFile _ _ = NDir)) by done. rewrite Hdev, Nat.eqb_refl. cbn [andb negb].
    destruct (promoted_tree (w_fs w1) HK1 Hnd1) as [HK2 Hnd2].
    destruct (finish_nofault content (w_now w) (w1 <| w_fs ::= relocate (D ++ [par]) (D ++ [fin]) |>)) as (w' & t' & E & Hfin' & Hpar');
      [done..|by cbn; rewrite relocate_dest|done|].
    rewrite E. split_and!; [done|by exists t'|]. apply Hpar'. cbn. apply relocate_src, siblings_apart, fin_par.
Qed.

(** Asking again until it works, at most [m] times. *)
Fixpoint retry (m : nat) : IO Path :=
  match m with
  | O => fail (ErrMsg "no attempt left")
  | S m' =>
      r ← try (Ensure device goos other_info c a active);
      match r with Ok p => mret p | Err _ => retry m' end
  end.

(** What the server sends to attempts of which the connections last for [ks] bytes. *)
Fixpoint replies (n : nat) (ks : list nat) : list Reply :=
  match ks with
  | [] => []
  | k :: ks' => honest content n k :: replies (n + k) ks'
  end.

(** C37. Interrupted downloads complete: when a server serves ranges of the model and the connections together last for
    what is missing, then asking again, once for each connection, ends with the model in place, however
    short each connection was; no attempt starts over. *)
Theorem downloads_complete n ks rs w :
  downloading content n w → (n < size_of content)%nat → w_replies w = replies n ks ++ rs →
  (size_of content ≤ n + list_sum ks)%nat →
  ∃ w', retry (length ks) w = (Ok (entry D fin), w') ∧
    (∃ t, w_fs w' !! (D ++ [fin]) = Some (NFile content t)) ∧ w_fs w' !! (D ++ [par]) = None.
Proof.
  revert n w. induction ks as [|k ks IH]; intros n w Hd Hn Hr Hsum; [simpl in Hsum; lia|].
  cbn [retry length]. unfold mbind, St_bind, try.
  pose proof (attempt n k (replies (n + k) ks ++ rs) w Hd ltac:(lia) Hr) as Hat.
  destruct (Ensure device goos other_info c a active w) as [r w']. unfold attempted in Hat.
  rewrite (proj2 (Nat.leb_gt _ _) Hn) in Hat. cbn [andb] in Hat.
  destruct (Nat.leb_spec (size_of content) (n + k)) as [Hall|Hmore].
  - destruct Hat as (-> & Hf & Hp). by exists w'.
  - destruct Hat as (-> & Hd' & Hr'). apply (IH (n + k)%nat); [done..|]. simpl in Hsum. lia.
Qed.

(** A partial file with all the bytes is never used and never removed: the request for the bytes after the last one
    is refused with 416, and this stays so however often the model is asked for. One is left when the node stops,
    or the renaming fails, between the end of a download and the renaming. *)
Theorem full_partial_stuck m rs w :
  downloading content (size_of content) w → (0 < size_of content)%nat →
  w_replies w = replicate m (honest content (size_of content) 0) ++ rs →
  ∃ e w', retry m w = (Err e, w') ∧ downloading content (size_of content) w' ∧ w_replies w' = rs.
Proof.
  revert w. induction m as [|m IH]; intros w Hd Hpos Hr; [by eexists _, _|].
  cbn [retry]. unfold mbind, St_bind, try.
  pose proof (attempt (size_of content) 0 (replicate m (honest content (size_of content) 0) ++ rs) w Hd ltac:(lia) Hr) as Hat.
  destruct (Ensure device goos other_info c a active w) as [r w']. unfold attempted in Hat.
  rewrite Nat.leb_refl in Hat. destruct (Nat.eqb_spec (size_of content) 0); [lia|]. cbn [andb negb] in Hat.
  destruct Hat as (-> & Hd' & Hr'). by apply IH.
Qed.
End attempts.
End ensure.

(** ** License texts *)

Lemma ReadFile_entry_ok D x d w w' :
  nolinks D (w_fs w) → x ≠ ".." → ReadFile (entry D x) w = (Ok d, w') → ∃ t, w_fs w !! (D ++ [x]) = Some (NFile d t).
Proof.
  intros Hn Hx H. apply bind_ok in H as (q & w1 & (Hfs & Hw & Hs)%Open_ok & [_ Hd]%read_all_ok).
  assert (q = D ++ [x]) as ->.
  { refine (walk_under_nolinks D (w_fs w) (entry D x) max_links true (w_cwd w) q Hn _ Hw). exists [x].
    split_and!; [done..|by intros Hin%list_elem_of_singleton]. }
  rewrite Hfs, node_at_entry in Hd. rewrite node_at_entry in Hs. destruct Hd as [Hd|Hd]; [done|]. rewrite Hd in Hs. by destruct Hs.
Qed.

Lemma ReadFile_fs p w : w_fs (ReadFile p w).2 = w_fs w.
Proof.
  assert (K : preserves (λ w', w_fs w' = w_fs w) (ReadFile p)).
  { apply preserves_bind; [apply (keeps_open (λ fs, fs = w_fs w))|intros q; apply (keeps_read (λ fs, fs = w_fs w))]. }
  by apply K.
Qed.

Section license.
Context (device : location → nat) (c : Cache) (sha text : string).
Let dir := read_path (ca_Dir c).
Let D := parts dir.
Let fin := sha +:+ ".LICENSE.txt".
Let par := sha +:+ ".LICENSE.txt.partial".
Context (Hrooted : rooted dir = true) (Hslash : slash ∉ bytes sha).

Lemma license_entries : plain D →
  Join dir fin = entry D fin ∧ fin ≠ ".." ∧ Join dir par = entry D par ∧ par ≠ ".." ∧ fin ≠ par.
Proof.
  intros HD. destruct (cache_entry dir sha ".LICENSE.txt") as [H1 H2]; try done; [by apply (bool_decide_unpack _)|simpl; lia|].
  destruct (cache_entry dir sha ".LICENSE.txt.partial") as [H3 H4]; try done; [by apply (bool_decide_unpack _)|simpl; lia|].
  split_and!; try done. intros E. apply (f_equal bytes) in E. unfold fin, par in E. rewrite !bytes_app in E.
  apply (f_equal length) in E. rewrite !length_app in E. simpl in E. lia.
Qed.

(** The license of a model is written as a whole or not at all: whatever fails, the file is what it was or
    the whole text, and when [EnsureLicense] returns it is the text. *)
Theorem license_atomic a w :
  nolinks D (w_fs w) → strip_sha a = sha →
  let '(r, w') := EnsureLicense device c a text w in
  (w_fs w' !! (D ++ [fin]) = w_fs w !! (D ++ [fin]) ∨ ∃ t, w_fs w' !! (D ++ [fin]) = Some (NFile text t)) ∧
  (∀ p, r = Ok p → p = entry D fin ∧ ∃ t, w_fs w' !! (D ++ [fin]) = Some (NFile text t)).
Proof.
  intros HK Ha. destruct (license_entries ltac:(apply HK)) as (Hfj & Hfin & Hpj & Hpar & Hne).
  assert (Hpf : D ++ [par] ≠ D ++ [fin]) by (intros E%app_inv_head; injection E; congruence).
  set (post := λ (r : result Path) (fs' : files),
    (fs' !! (D ++ [fin]) = w_fs w !! (D ++ [fin]) ∨ ∃ t, fs' !! (D ++ [fin]) = Some (NFile text t)) ∧
    (∀ p, r = Ok p → p = entry D fin ∧ ∃ t, fs' !! (D ++ [fin]) = Some (NFile text t))).
  change (let '(r, w') := EnsureLicense device c a text w in post r (w_fs w')).
  assert (Herr : ∀ e fs', fs' !! (D ++ [fin]) = w_fs w !! (D ++ [fin]) → post (Err e) fs') by (intros; split; [by left|done]).
  unfold EnsureLicense. rewrite Ha. fold dir fin par. rewrite Hfj, Hpj. cbv zeta. rewrite bind_guard.
  destruct (negb (String.eqb sha "")); [|by apply Herr]. rewrite bind_guard.
  destruct (negb (String.eqb text "")); [|by apply Herr]. unfold mbind at 1, St_bind at 1, try at 1.
  pose proof (ReadFile_fs (entry D fin) w) as Hfs1. destruct (ReadFile (entry D fin) w) as [r1 w1] eqn:E1. cbn [snd] in Hfs1.
  destruct (match r1 with Ok data => String.eqb data text | Err _ => false end) eqn:Esame.
  { destruct r1 as [d|e]; [|done]. apply String.eqb_eq in Esame as ->. apply ReadFile_entry_ok in E1 as [t Ht]; [|done..].
    unfold post, mret, St_ret. rewrite Hfs1. split; [by left|]. intros p [= <-]. split; [done|by exists t]. }
  set (P := λ fs' : files, nolinks D fs' ∧ ∀ k, k ≠ D ++ [par] → fs' !! k = w_fs w !! k).
  assert (HPi : ∀ fs d t, P fs → P (<[D ++ [par]:=NFile d t]> fs)).
  { intros fs d t [Hn Hk]. split; [|intros k Hnk; rewrite lookup_insert_ne by done; by apply Hk].
    apply nolinks_insert; [done|by exists [par]| |done]. intros E. apply (f_equal length) in E. rewrite length_app in E. simpl in E. lia. }
  assert (Hunder : under D (entry D par)) by (exists [par]; split_and!; [done..|by intros Hin%list_elem_of_singleton]).
  pose proof (keeps_WriteFile D (D ++ [par]) P ltac:(by intros ? []) HPi (entry D par) Hunder eq_refl text w1) as H2.
  cbv beta in H2. rewrite Hfs1 in H2. specialize (H2 (conj HK (λ _ _, eq_refl))).
  unfold mbind at 1, St_bind at 1, wrap at 1. destruct (WriteFile (entry D par) text w1) as [[u2|e2] w2] eqn:E2; cbn [snd] in H2;
    destruct H2 as [HK2 Hk2]; [|by apply Herr, Hk2].
  unfold mbind at 1, St_bind at 1, wrap at 1. destruct (Rename device (entry D par) (entry D fin) w2) as [r3 w3] eqn:E3.
  apply Rename_entry_cases in E3 as [(e3 & -> & Hfs3)|(-> & Hfs3 & _)]; [apply Herr; rewrite Hfs3; by apply Hk2| |apply HK2..|done|done|done].
  apply bind_ok in E2 as (q & w1' & Hc & Hw).
  destruct (create_write D (entry D par) w1 q w1' text u2 w2 ltac:(by rewrite Hfs1) Hunder Hc Hw) as [Hfs2 _].
  assert (Hf : w_fs w3 !! (D ++ [fin]) = Some (NFile text (w_now w1))).
  { rewrite Hfs3, relocate_dest, Hfs2. apply lookup_insert_eq. }
  split; [right; by eexists|]. intros p [= <-]. split; [done|by eexists].
Qed.
End license.
