(* ===== verification/DeliveryExamples.v ===== *)
(** * Examples of deliveries

    Concrete file trees, servers and libraries on which the theorems about releases, updates and
    the model cache are applied, and runs that show what the code does in corner cases. *)
From stdpp Require Import base gmap strings list.
From Stdlib Require Import ZArith Lia Ascii.
From S2P Require Import Prelude GoStrings Sha256 Encoding FileSystem FileURL Releases ReleaseTheory Updates UpdateTheory ModelCache CacheTheory.

(** ** Deciding what a tree is like *)
Definition realb (fs : files) (R : location) : bool :=
  bool_decide (".." ∉ R) && forallb (λ i, bool_decide (fs !! take (S i) R = Some NDir)) (seq 0 (length R)).
Definition is_link (n : node) : bool := match n with NLink _ => true | _ => false end.
Definition nolinksb (R : location) (fs : files) : bool :=
  bool_decide (R ≠ []) && realb fs R && forallb (λ kv, negb (is_link kv.2)) (map_to_list fs).
Definition treeb (fs : files) : bool := forallb (λ kv, bool_decide (node_at fs (removelast kv.1) = Some NDir)) (map_to_list fs).
Definition namedb (fs : files) : bool :=
  forallb (λ kv, match last kv.1 with Some c => bool_decide (slash ∉ bytes c) | None => true end) (map_to_list fs).

Lemma realb_ok fs R : realb fs R = true → real fs R.
Proof.
  unfold realb. rewrite andb_true_iff, bool_decide_eq_true, forallb_forall. intros [Hp Hd]. split; [done|].
  intros q Hq [k ->]. destruct (length q) as [|n] eqn:E; [by destruct q|].
  specialize (Hd n). rewrite bool_decide_eq_true in Hd. rewrite <-Hd.
  - f_equal. by rewrite <-E, take_app_length.
  - apply in_seq. rewrite length_app. lia.
Qed.

Lemma nolinksb_ok R fs : nolinksb R fs = true → nolinks R fs.
Proof.
  unfold nolinksb. rewrite !andb_true_iff, bool_decide_eq_true, forallb_forall. intros [[HR Hr] Hl].
  split; [split; [done|by apply realb_ok]|]. intros p t _ Hp.
  assert (Hin : (p, NLink t) ∈ map_to_list fs) by by apply elem_of_map_to_list.
  apply list_elem_of_In, Hl in Hin. done.
Qed.

Lemma treeb_ok fs : treeb fs = true → tree fs.
Proof.
  unfold treeb. rewrite forallb_forall. intros H p c [n Hn].
  assert (Hin : (p ++ [c], n) ∈ map_to_list fs) by by apply elem_of_map_to_list.
  apply list_elem_of_In, H in Hin. cbn in Hin. rewrite removelast_last in Hin. by apply bool_decide_eq_true in Hin.
Qed.

Lemma namedb_ok D fs : namedb fs = true → named D fs.
Proof.
  unfold namedb. rewrite forallb_forall. intros H c [n Hn].
  assert (Hin : (D ++ [c], n) ∈ map_to_list fs) by by apply elem_of_map_to_list.
  apply list_elem_of_In, H in Hin. cbn in Hin. rewrite last_snoc in Hin. by apply bool_decide_eq_true in Hin.
Qed.

(** ** Libraries that can be computed with *)

(** A record of fields, each byte behind an [x], each field closed by a dot. *)
Definition mark : ascii := "x"%char.
Definition stop : ascii := "."%char.
Definition put_field (s : string) : list ascii := (b ← bytes s; [mark; b]) ++ [stop].
Fixpoint get_field (l : list ascii) : list ascii * list ascii :=
  match l with
  | a :: r => if bool_decide (a = stop) then ([], r)
              else match r with b :: r' => let '(f, rest) := get_field r' in (b :: f, rest) | [] => ([], []) end
  | [] => ([], [])
  end.

Lemma get_put s r : get_field (put_field s ++ r) = (bytes s, r).
Proof.
  unfold put_field. induction (bytes s) as [|b l IH]; [done|]. cbn in IH |- *. by rewrite IH.
Qed.

Definition put_installed (v : InstalledRuntime) : string :=
  of_bytes (put_field (ir_Engine v) ++ put_field (ir_Version v) ++ put_field (ir_BuildID v) ++ put_field (ir_PlatformKey v) ++
    put_field (ir_Path v) ++ put_field (ir_ExecutablePath v) ++ put_field (ir_SHA256 v) ++ put_field (ir_InstalledAt v)).
Definition get_installed (s : string) : result InstalledRuntime :=
  let '(a, l) := get_field (bytes s) in let '(b, l) := get_field l in let '(c, l) := get_field l in
  let '(d, l) := get_field l in let '(e, l) := get_field l in let '(f, l) := get_field l in
  let '(g, l) := get_field l in let '(h, _) := get_field l in
  Ok {| ir_Engine := of_bytes a; ir_Version := of_bytes b; ir_BuildID := of_bytes c; ir_PlatformKey := of_bytes d;
        ir_Path := of_bytes e; ir_ExecutablePath := of_bytes f; ir_SHA256 := of_bytes g; ir_InstalledAt := of_bytes h |}.

Lemma get_put_installed v : get_installed (put_installed v +:+ of_bytes [char_of 10]) = Ok v.
Proof.
  unfold get_installed, put_installed. rewrite bytes_app, !bytes_of_bytes, <-!app_assoc, !get_put, !of_bytes_bytes. by destruct v.
Qed.

Definition program : string := "program".
Definition program_hash : string := Eval vm_compute in hash_hex program.

Definition program_artifact : RuntimeArtifact := {|
  rt_URL := "http://releases/thirdshift"; rt_SHA256 := "sha256:" +:+ program_hash; rt_SizeBytes := 7; rt_ArchiveType := "binary";
  rt_ExecutablePath := "bin/thirdshift"; rt_SupportArtifacts := [] |}.
Definition release : ReleaseManifest := {|
  rm_SchemaVersion := 1; rm_Engine := "thirdshift"; rm_Version := "v2"; rm_BuildID := "b2";
  rm_Artifacts := {["linux/amd64" := program_artifact]}; rm_Signature := {| ms_KeyID := "k"; ms_Value := "c2ln" |} |}.

(** A signed release whose program is not in its archive. *)
Definition archive : string := "archive".
Definition archive_hash : string := Eval vm_compute in hash_hex archive.
Definition escaping_artifact (archiveType executablePath : string) : RuntimeArtifact := {|
  rt_URL := "http://releases/thirdshift"; rt_SHA256 := "sha256:" +:+ archive_hash; rt_SizeBytes := 7; rt_ArchiveType := archiveType;
  rt_ExecutablePath := executablePath; rt_SupportArtifacts := [] |}.
Definition escaping_release (archiveType executablePath : string) : ReleaseManifest := {|
  rm_SchemaVersion := 1; rm_Engine := "thirdshift"; rm_Version := "v3"; rm_BuildID := "b3";
  rm_Artifacts := {["linux/amd64" := escaping_artifact archiveType executablePath]};
  rm_Signature := {| ms_KeyID := "k"; ms_Value := "c2ln" |} |}.

Definition link_entry (name target : string) : TarEntry :=
  {| te_Name := name; te_Type := TypeSymlink; te_Linkname := target; te_Body := ""; te_Complete := true |}.
Definition file_entry (name body : string) : TarEntry :=
  {| te_Name := name; te_Type := TypeReg; te_Linkname := ""; te_Body := body; te_Complete := true |}.

#[local] Instance toy : Libraries := {|
  ed25519_Verify := λ _ _ signature, bool_decide (signature = [115; 105; 103]);
  marshal_unsigned := λ m, Ok (um_Version m);
  parse_release := λ s, if String.eqb s "release" then Ok release
                        else if String.eqb s "escaping release" then Ok (escaping_release "zip" "../../local")
                        else Err (ErrMsg "invalid character");
  marshal_installed := put_installed;
  parse_installed := get_installed;
  parse_url := λ s, Some {| url_Scheme := if has_prefix s "http://" then "http" else ""; url_Host := ""; url_Path := s |};
  resolve_reference := λ _ s, Some s;
  read_tar_gz := λ s, if String.eqb s "self" then Ok ([link_entry "." "other"; file_entry "f" "data"], None)
                      else Ok ([file_entry "bin/x" "data"; link_entry "lib/a" "b"; link_entry "c" "../../etc"], None);
  read_zip := λ s, if String.eqb s archive then Ok [{| ze_Name := "bin/x"; ze_IsDir := false; ze_Open := Ok tt; ze_Body := "data"; ze_Complete := true |}]
                   else Err (ErrMsg "zip: not a valid zip file");
  format_rfc3339 := λ t, itoa t;
  quoted := λ s, s
|}.

Definition dirs (l : list location) : files := list_to_map ((λ p, (p, NDir)) <$> l).
Definition world (fs : files) (replies : list Reply) : World := {|
  w_fs := fs; w_cwd := []; w_now := 1000; w_faults := []; w_replies := replies; w_requests := []; w_names := ["0"; "1"; "2"]
|}.
Definition one_device (_ : location) : nat := 0.

(** [~ (p `prefix_of` q)] for paths that are known. *)
Ltac decide_now := by apply (bool_decide_unpack _); vm_compute.

Module DeliveryExamples.

(** ** Archives *)

Definition unpack_world : World :=
  world (<[["srv"; "a"] := NFile "tar" 0]> (dirs [["srv"]; ["srv"; "dest"]; ["srv"; "other"]])) [].
Definition dest : Path := {| rooted := true; parts := ["srv"; "dest"] |}.

Lemma extraction_stays_witness :
  nolinks ["srv"; "dest"] (w_fs unpack_world) ∧
  ∀ q, ¬ ["srv"] `prefix_of` q →
    w_fs (extractArtifact (read_path "/srv/a") "tar.gz" dest unpack_world).2 !! q = w_fs unpack_world !! q.
Proof.
  assert (Hn : nolinks ["srv"; "dest"] (w_fs unpack_world)) by (apply nolinksb_ok; vm_compute; reflexivity).
  split; [exact Hn|].
  destruct (extraction_stays (read_path "/srv/a") "tar.gz" ["srv"] "dest" dest unpack_world eq_refl eq_refl) as [H _].
  - decide_now.
  - apply H. apply nolinks_safe, nolinksb_ok. vm_compute. reflexivity.
Defined.

(** A name that climbs is refused; what came before it is unpacked. *)
Example climbing_link :
  let '(r, w') := extractArtifact (read_path "/srv/a") "tar.gz" dest unpack_world in
  is_ok r = false ∧ w_fs w' !! ["srv"; "dest"; "bin"; "x"] = Some (NFile "data" 1000) ∧
  w_fs w' !! ["srv"; "dest"; "lib"; "a"] = Some (NLink {| rooted := false; parts := ["b"] |}) ∧
  w_fs w' !! ["srv"; "dest"; "c"] = None.
Proof. vm_compute. repeat split. Qed.

(** A link whose name is the destination takes the place of the (empty) destination: the next entry
    is unpacked beside it. *)
Example self_link_escapes :
  let w := unpack_world <| w_fs ::= <[["srv"; "a"] := NFile "self" 0]> |> in
  let '(r, w') := extractArtifact (read_path "/srv/a") "tar.gz" dest w in
  r = Ok tt ∧ w_fs w' !! ["srv"; "dest"] = Some (NLink {| rooted := false; parts := ["other"] |}) ∧
  w_fs w' !! ["srv"; "other"; "f"] = Some (NFile "data" 1000).
Proof. vm_compute. repeat split. Qed.

(** ** The runtime manager *)

Definition key32 : list Z := replicate 32 7.
Definition manager : RuntimeManager :=
  {| mg_Root := "/srv/runtime"; mg_PublicKey := key32; mg_PlatformKey := ""; mg_GPUVendor := "apple" |}.
Definition same_runes (r : Z) : Z := r.
Definition ensure_now := Releases.Ensure same_runes one_device "linux" "amd64" manager.
Definition runtime_world : World := world (dirs [["srv"]; ["srv"; "runtime"]; ["etc"]])
  [Answer 200 program true; Answer 200 program true].

Lemma Ensure_effects_witness :
  is_ok (ensure_now release runtime_world).1 = true ∧
  ∀ q, ¬ ["srv"; "runtime"] `prefix_of` q → w_fs (ensure_now release runtime_world).2 !! q = w_fs runtime_world !! q.
Proof.
  split; [vm_compute; reflexivity|].
  pose proof (Ensure_effects same_runes one_device "linux" "amd64" manager release runtime_world) as H.
  unfold ensure_now. destruct (Releases.Ensure _ _ _ _ _ _ _) as [r w']. destruct H as [_ H]. apply H.
  - reflexivity.
  - decide_now.
  - apply nolinks_safe, nolinksb_ok. vm_compute. reflexivity.
  - by left.
  - apply (bool_decide_unpack (map_Forall (λ _ artifact,
      escapes (Clean (read_path (FromSlash "linux" (rt_ExecutablePath artifact)))) = false) (rm_Artifacts release))).
    vm_compute. reflexivity.
Defined.

(** An executable path that climbs: the binary of a signed release is written beside the root. *)
Example executable_escapes :
  let '(r, w') := ensure_now (escaping_release "binary" "../../../../etc/server")
    (runtime_world <| w_replies := [Answer 200 archive true] |>) in
  w_fs runtime_world !! ["etc"; "server"] = None ∧ w_fs w' !! ["etc"; "server"] = Some (NFile archive 1000).
Proof. vm_compute. repeat split. Qed.

Definition installed (version : string) : InstalledRuntime := {|
  ir_Engine := "llama.cpp"; ir_Version := version; ir_BuildID := ""; ir_PlatformKey := "linux/amd64"; ir_Path := "/srv/runtime/" +:+ version;
  ir_ExecutablePath := "/srv/runtime/" +:+ version +:+ "/server"; ir_SHA256 := ""; ir_InstalledAt := "" |}.
Definition record_node (v : InstalledRuntime) : node := NFile (put_installed v +:+ of_bytes [char_of 10]) 0.
Definition two_runtimes : World := world
  (<[["srv"; "runtime"; "current.json"] := record_node (installed "2")]>
     (<[["srv"; "runtime"; "previous.json"] := record_node (installed "1")]> (dirs [["srv"]; ["srv"; "runtime"]]))) [].

Lemma rollback_swaps_witness :
  let '(r, w') := Rollback manager two_runtimes in
  r = Ok (installed "1") ∧ (Rollback manager w').1 = Ok (installed "2").
Proof.
  pose proof (rollback_swaps get_put_installed manager two_runtimes (installed "1") (installed "2") eq_refl) as H.
  destruct (Rollback manager two_runtimes) as [r w'].
  destruct H as (H1 & _ & _ & _ & H2); [decide_now|apply realb_ok; vm_compute; reflexivity|reflexivity|..|split; [exact H1|exact H2]].
  - eexists _, _. split; [vm_compute; reflexivity|]. split; [vm_compute; reflexivity|done].
  - eexists _, _. split; [vm_compute; reflexivity|]. split; [vm_compute; reflexivity|done].
Defined.

(** A runtime that is already installed becomes current without becoming the one to go back to: after
    1, 2, 1 a rollback stays at 1. *)
Definition installed_in (v : InstalledRuntime) : InstalledRuntime := {|
  ir_Engine := ir_Engine v; ir_Version := ir_Version v; ir_BuildID := ir_BuildID v; ir_PlatformKey := ir_PlatformKey v;
  ir_Path := ir_Path v; ir_ExecutablePath := ir_ExecutablePath v; ir_SHA256 := rt_SHA256 program_artifact; ir_InstalledAt := ir_InstalledAt v |}.
Definition versions (version : string) : ReleaseManifest := {|
  rm_SchemaVersion := 1; rm_Engine := "llama.cpp"; rm_Version := version; rm_BuildID := "b"; rm_Artifacts := rm_Artifacts release;
  rm_Signature := rm_Signature release |}.

Definition version_of (r : result InstalledRuntime) : string := match r with Ok v => ir_Version v | Err _ => "" end.

Example rollback_forgets :
  let w1 := (ensure_now (versions "1") runtime_world).2 in
  let w2 := (ensure_now (versions "2") w1).2 in
  let '(r3, w3) := ensure_now (versions "1") w2 in
  version_of r3 = "1" ∧ version_of (Rollback manager w2).1 = "1" ∧ version_of (Rollback manager w3).1 = "1".
Proof. vm_compute. repeat split. Qed.

(** ** Updates *)

Definition node_tree : files :=
  <[["opt"; "thirdshift"] := NFile "old" 5]> (dirs [["opt"]; ["tmp"]; ["tmp"; "new"]]).
Definition update_world : World := world node_tree [Answer 200 "release" true; Answer 200 program true].
Definition updater : UpdateManager :=
  {| up_InstallDir := ""; up_CurrentBinary := "/opt/thirdshift"; up_PublicKey := key32; up_PlatformKey := "" |}.
Definition tmp : Path := {| rooted := true; parts := ["tmp"] |}.
Definition update_on (device : location → nat) : result UpdateResult * World :=
  Update device "linux" "amd64" tmp (Err ENOENT) updater "http://releases/manifest" update_world.

Lemma update_installs_signed_witness :
  is_ok (update_on one_device).1 = true ∧
  ∃ artifact data, released updater artifact data "v2" ∧
    (escapes (Clean (read_path (FromSlash "linux" (rt_ExecutablePath artifact)))) = false →
     ∃ d t, w_fs (update_on one_device).2 !! ["opt"; "thirdshift"] = Some (NFile d t) ∧ d ∈ unpacked_bodies (rt_ArchiveType artifact) data).
Proof.
  assert (Hr : match (update_on one_device).1 with Ok res => ur_Version res = "v2" | Err _ => False end ∧
    ∃ d t, w_fs (update_on one_device).2 !! ["opt"; "thirdshift"] = Some (NFile d t)).
  { split; [vm_compute; reflexivity|]. exists program, 1000. vm_compute. reflexivity. }
  pose proof (λ res w', update_installs_signed one_device "linux" "amd64" tmp (Err ENOENT) updater "http://releases/manifest"
    ["opt"] "thirdshift" "thirdshift.previous" "/opt/thirdshift" "/opt" update_world res w' eq_refl ltac:(done)
    ltac:(apply realb_ok; vm_compute; reflexivity) ltac:(apply treeb_ok; vm_compute; reflexivity)
    ltac:(apply realb_ok; vm_compute; reflexivity) eq_refl eq_refl eq_refl ltac:(done) ltac:(done) ltac:(done)
    ltac:(decide_now) ltac:(decide_now) ltac:(decide_now)) as H.
  unfold update_on in *. destruct (Update _ _ _ _ _ _ _ _) as [r w']. cbn [fst snd] in Hr.
  destruct r as [res|e]; [|exact (False_ind _ (proj1 Hr))]. split; [reflexivity|]. destruct Hr as (Hv & d & t & Hd).
  destruct (H res w' eq_refl) as (artifact & data & Hrel & Hin).
  exists artifact, data. rewrite Hv in Hrel. split; [exact Hrel|]. intros Hesc. destruct (Hin Hesc) as [_ Hb].
  exists d, t. split; [exact Hd|exact (Hb d t Hd)].
Defined.

(** What such an update leaves: the program, the one before it beside it, and nothing in the
    temporary directory. *)
Example update_tree :
  let w' := (update_on one_device).2 in
  w_fs w' !! ["opt"; "thirdshift"] = Some (NFile program 1000) ∧
  w_fs w' !! ["opt"; "thirdshift.previous"] = Some (NFile "old" 5) ∧
  w_fs w' !! ["tmp"; "thirdshift-update-0"] = None.
Proof. vm_compute. repeat split. Qed.

(** The executable path of a signed manifest may lead out of what was unpacked: then a file that
    was on the host before is installed in place of a part of the artifact. *)
Example update_installs_local_file :
  let w := update_world <| w_fs ::= <[["tmp"; "local"] := NFile "local file" 3]> |>
    <| w_replies := [Answer 200 "escaping release" true; Answer 200 archive true] |> in
  let '(r, w') := Update one_device "linux" "amd64" tmp (Err ENOENT) updater "http://releases/manifest" w in
  is_ok r = true ∧ w_fs w' !! ["opt"; "thirdshift"] = Some (NFile "local file" 3) ∧
  "local file" ∉ unpacked_bodies "zip" archive.
Proof. vm_compute. split; [reflexivity|]. split; [reflexivity|]. intros H. by repeat (apply elem_of_cons in H as [[=]|H] || apply not_elem_of_nil in H). Qed.

(** The temporary directory is on a file system of its own. *)
Definition tmpfs (p : location) : nat := if bool_decide (["tmp"] `prefix_of` p) then 1 else 0.
Example update_across_devices :
  let '(r, w') := update_on tmpfs in
  r = Err (ErrWrap "promote updated binary" EXDEV) ∧ w_fs w' !! ["opt"; "thirdshift"] = Some (NFile "old" 5).
Proof. vm_compute. repeat split. Qed.

Definition promote_world : World := world (<[["tmp"; "new"; "bin"] := NFile program 9]> node_tree) [].

Lemma promote_keeps_binary_witness :
  let '(r, w') := promoteBinary one_device (entry ["tmp"; "new"] "bin") (entry ["opt"] "thirdshift") (entry ["opt"] "thirdshift.previous")
    (promote_world <| w_faults := [None; None; None; Some 0%nat] |>) in
  r ≠ Ok tt ∧
  (w_fs w' !! ["opt"; "thirdshift"] = Some (NFile "old" 5) ∨
   w_fs w' !! ["opt"; "thirdshift"] = None ∧ w_fs w' !! ["opt"; "thirdshift.previous"] = Some (NFile "old" 5)).
Proof.
  pose proof (promote_keeps_binary one_device ["tmp"; "new"] ["opt"] "bin" "thirdshift" "thirdshift.previous"
    ltac:(done) ltac:(done) ltac:(done) ltac:(done) ltac:(decide_now) ltac:(decide_now) ltac:(decide_now) ltac:(decide_now)
    (promote_world <| w_faults := [None; None; None; Some 0%nat] |>) "old" 5 (NFile program 9)) as H.
  destruct (promoteBinary _ _ _ _ _) as [r w'] eqn:E.
  assert (Hr : r ≠ Ok tt) by (change r with ((r, w').1); rewrite <-E; vm_compute; discriminate).
  split; [done|]. destruct H as (_ & _ & H); [apply realb_ok; vm_compute; reflexivity..|reflexivity|reflexivity|].
  destruct H as [_ H]; [done|]. apply H. done.
Defined.

(** The call that looks at the installed binary fails: the new one overwrites it, and no copy is kept. *)
Example binary_overwritten :
  let '(r, w') := promoteBinary one_device (entry ["tmp"; "new"] "bin") (entry ["opt"] "thirdshift") (entry ["opt"] "thirdshift.previous")
    (promote_world <| w_faults := [Some 0%nat] |>) in
  r = Ok tt ∧ w_fs w' !! ["opt"; "thirdshift"] = Some (NFile program 9) ∧ w_fs w' !! ["opt"; "thirdshift.previous"] = None.
Proof. vm_compute. repeat split. Qed.

Lemma promote_needs_one_device_witness :
  let '(r, w') := promoteBinary tmpfs (entry ["tmp"; "new"] "bin") (entry ["opt"] "thirdshift") (entry ["opt"] "thirdshift.previous") promote_world in
  r = Err (ErrWrap "promote updated binary" EXDEV) ∧ w_fs w' !! ["opt"; "thirdshift"] = Some (NFile "old" 5).
Proof.
  pose proof (promote_needs_one_device tmpfs ["tmp"; "new"] ["opt"] "bin" "thirdshift" "thirdshift.previous"
    ltac:(done) ltac:(done) ltac:(done) ltac:(done) ltac:(decide_now) ltac:(decide_now) ltac:(decide_now) ltac:(decide_now)
    promote_world "old" 5 program 9) as H.
  destruct (promoteBinary _ _ _ _ _) as [r w'].
  assert (Hd : Nat.eqb (tmpfs (["tmp"; "new"] ++ ["bin"])) (tmpfs (["opt"] ++ ["thirdshift"])) = false) by reflexivity.
  rewrite Hd in H. destruct H as (H1 & H2 & _); [apply realb_ok; vm_compute; reflexivity..|reflexivity|reflexivity|reflexivity|by left|reflexivity|].
  split; [exact H1|exact H2].
Defined.

(** ** The model cache *)

Definition weights : string := "weights".
Definition weights_hash : string := Eval vm_compute in hash_hex weights.
Definition cache : Cache := {| ca_Dir := "/models"; ca_QuotaBytes := 12 |}.
Definition model : Artifact := {| ar_URL := "http://models/w"; ar_SHA256 := "sha256:" +:+ weights_hash; ar_SizeBytes := 7 |}.
Definition no_info (_ : node) : Z * Z := (0, 0).
Definition models_tree : files :=
  <[["models"; "a.gguf"] := NFile "aaaa" 1]> (<[["models"; "b.gguf"] := NFile "bbbb" 2]> (dirs [["models"]])).
Definition ensure_model := ModelCache.Ensure one_device "linux" no_info cache model weights_hash.

Lemma cache_holds_verified_witness :
  let '(r, w') := ensure_model (world models_tree [Answer 200 weights true]) in
  is_ok r = true ∧ ∃ d t, w_fs w' !! ["models"; weights_hash +:+ ".gguf"] = Some (NFile d t) ∧ hash_hex d = weights_hash.
Proof.
  set (w := world models_tree [Answer 200 weights true]).
  pose proof (cache_holds_verified one_device "linux" no_info cache weights_hash weights_hash
    ltac:(done) eq_refl ltac:(decide_now) model w) as H. unfold ensure_model.
  destruct (ModelCache.Ensure _ _ _ _ _ _ w) as [r w'] eqn:E.
  assert (Hr : is_ok r = true) by (change r with ((r, w').1); rewrite <-E; vm_compute; reflexivity).
  split; [done|]. destruct r as [p|e]; [|done].
  destruct H as (_ & H & _); [apply nolinksb_ok; vm_compute; reflexivity|apply namedb_ok; vm_compute; reflexivity|done|reflexivity|].
  destruct (H p eq_refl) as (_ & d & t & Hd & _ & Hh); [by left|]. exists d, t. split; [exact Hd|]. rewrite Hh. vm_compute. reflexivity.
Defined.

(** The oldest model made room for the new one. *)
Example cache_evicts_oldest :
  let w' := (ensure_model (world models_tree [Answer 200 weights true])).2 in
  w_fs w' !! ["models"; "a.gguf"] = None ∧ w_fs w' !! ["models"; "b.gguf"] = Some (NFile "bbbb" 2).
Proof. vm_compute. repeat split. Qed.

Lemma evict_spec_witness :
  ∃ gone, evict no_info {| ca_Dir := "/models"; ca_QuotaBytes := 4 |} "a" (world models_tree []) =
    (Ok tt, world models_tree [] <| w_fs ::= without gone |>).
Proof.
  destruct (evict_spec no_info (read_path "/models") eq_refl {| ca_Dir := "/models"; ca_QuotaBytes := 4 |} "a" (world models_tree []))
    as (files & gone & _ & H & _); [reflexivity|apply realb_ok; vm_compute; reflexivity|apply namedb_ok; vm_compute; reflexivity|reflexivity|reflexivity|].
  exists gone. exact H.
Defined.

Definition interrupted (ks : list nat) : World := world models_tree (replies weights 0 ks).
Definition retry_model := retry one_device "linux" no_info cache weights_hash model.

Lemma downloading_start w : w_fs w = models_tree → w_faults w = [] → downloading cache weights_hash weights 0 w.
Proof.
  intros Hfs Hf. unfold downloading. rewrite Hfs. split_and!; [apply nolinksb_ok; vm_compute; reflexivity|
    apply namedb_ok; vm_compute; reflexivity|done|vm_compute; reflexivity|]. left. split; vm_compute; reflexivity.
Qed.

Lemma remote_model : remote (ar_URL model).
Proof. by eexists. Qed.

Lemma downloads_complete_witness :
  ∃ w', retry_model 3 (interrupted [3; 2; 2]%nat) = (Ok (entry ["models"] (weights_hash +:+ ".gguf")), w') ∧
    (∃ t, w_fs w' !! ["models"; weights_hash +:+ ".gguf"] = Some (NFile weights t)).
Proof.
  destruct (downloads_complete one_device "linux" no_info cache weights_hash weights_hash ltac:(done) eq_refl ltac:(decide_now)
    model weights ltac:(done) eq_refl remote_model eq_refl ltac:(vm_compute; reflexivity) ltac:(right; reflexivity) eq_refl
    0 [3; 2; 2]%nat [] (interrupted [3; 2; 2]%nat)) as (w' & H1 & H2 & _).
  - by apply downloading_start.
  - vm_compute. lia.
  - reflexivity.
  - vm_compute. lia.
  - exists w'. split; [exact H1|exact H2].
Defined.

(** All the bytes are there, but not the renaming. *)
Definition stuck_world : World := world
  (<[["models"; weights_hash +:+ ".partial"] := NFile weights 3]> models_tree) (replicate 5 (honest weights 7 0)).

Lemma full_partial_stuck_witness :
  ∃ e w', retry_model 5 stuck_world = (Err e, w') ∧ downloading cache weights_hash weights 7 w'.
Proof.
  destruct (full_partial_stuck one_device "linux" no_info cache weights_hash weights_hash ltac:(done) eq_refl ltac:(decide_now)
    model weights ltac:(done) eq_refl remote_model eq_refl ltac:(vm_compute; reflexivity) ltac:(right; reflexivity) eq_refl
    5 [] stuck_world) as (e & w' & H1 & H2 & _).
  - split_and!; [apply nolinksb_ok; vm_compute; reflexivity|apply namedb_ok; vm_compute; reflexivity|reflexivity|vm_compute; reflexivity|].
    right. exists 3. vm_compute. reflexivity.
  - vm_compute. lia.
  - reflexivity.
  - exists e, w'. split; [exact H1|exact H2].
Defined.

Lemma license_atomic_witness :
  let '(r, w') := EnsureLicense one_device cache "abc" "License" (world models_tree []) in
  ∃ t, w_fs w' !! ["models"; "abc.LICENSE.txt"] = Some (NFile "License" t).
Proof.
  pose proof (license_atomic one_device cache "abc" "License" eq_refl ltac:(decide_now) "abc" (world models_tree [])) as H.
  destruct (EnsureLicense _ _ _ _ _) as [r w'] eqn:E.
  assert (Hr : is_ok r = true) by (change r with ((r, w').1); rewrite <-E; vm_compute; reflexivity).
  destruct r as [p|e]; [|done]. destruct H as [_ H]; [apply nolinksb_ok; vm_compute; reflexivity|reflexivity|].
  destruct (H p eq_refl) as [_ Ht]. exact Ht.
Defined.
End DeliveryExamples.
