(* ===== verification/NodeConfig.v ===== *)
(** * The configuration of a node

    [internal/node/config/config.go]: the file [config.toml] in the node's data directory, what
    is read from it and written to it, and what the environment overrides. Durations are in
    nanoseconds, Go's unit. *)
From stdpp Require Import base gmap strings list pretty.
From Stdlib Require Import ZArith Lia Ascii.
From S2P Require Import Prelude GoStrings Sha256 Encoding FileSystem FileURL.

(** ** Printing with ["%q"] *)

(** [strconv.IsPrint] for runes that are not ASCII. *)
Class Unicode := is_print : Z → bool.

Section quote.
Context `{!Unicode}.

Definition printable (r : Z) : bool := if r <? 0x80 then between 0x20 0x7e r else is_print r.
Definition backslashed (a : ascii) : list ascii := [backslash; a].
Definition quote_mark : ascii := char_of 34.

(** [appendEscapedRune]. *)
Definition escape_rune (seg : Z * list ascii) : list ascii :=
  let '(r, text) := seg in
  let hex (l : list Z) := bytes (hex_encode l) in
  if (r =? rune_error) && Nat.eqb (length text) 1 then
    backslashed "x"%char ++ hex (byte_of <$> text)
  else if (r =? 34) || (r =? 92) then backslash :: text
  else if printable r then text
  else if r =? 7 then backslashed "a"%char
  else if r =? 8 then backslashed "b"%char
  else if r =? 12 then backslashed "f"%char
  else if r =? 10 then backslashed "n"%char
  else if r =? 13 then backslashed "r"%char
  else if r =? 9 then backslashed "t"%char
  else if r =? 11 then backslashed "v"%char
  else if (r <? 0x20) || (r =? 0x7f) then backslashed "x"%char ++ hex [r]
  else if r <? 0x10000 then backslashed "u"%char ++ hex [r / 256; r mod 256]
  else backslashed "U"%char ++ hex [0; r / 65536; r / 256 mod 256; r mod 256].

(** [strconv.Quote]. *)
Definition Quote (s : string) : string :=
  of_bytes ([quote_mark] ++ mjoin (escape_rune <$> decode_runes (bytes s)) ++ [quote_mark]).
End quote.

(** ** Lines of a file *)

(** [bufio.ScanLines] with the scanner's limit of 65536 bytes. *)
Definition strip_cr (l : string) : string :=
  match reverse (bytes l) with
  | a :: rest => if bool_decide (a = char_of 13) then of_bytes (reverse rest) else l
  | [] => l
  end.
Definition too_long (l : string) : bool := 65536 <=? Z.of_nat (String.length l).
Definition ErrTooLong : gerror := ErrMsg "bufio.Scanner: token too long".

Fixpoint scan (pieces : list string) : list string * option gerror :=
  match pieces with
  | [] => ([], None)
  | piece :: rest =>
      if match rest with [] => String.eqb piece "" | _ => false end then ([], None)
      else if too_long piece then ([], Some ErrTooLong)
      else let '(lines, err) := scan rest in (strip_cr piece :: lines, err)
  end.
Definition scan_lines (data : string) : list string * option gerror := scan (split_on (char_of 10) data).

(** ** The configuration *)

Record Config := {
  cg_DataDir : string; cg_CoordinatorURL : string; cg_ModelID : string; cg_HeartbeatInterval : Z;
  cg_ScheduleFrom : string; cg_ScheduleUntil : string; cg_MaxTempC : Z; cg_HardTempC : Z; cg_ThermalHysteresis : Z;
  cg_PauseIdleTimeout : Z
}.
#[export] Instance Config_eta : Eta Config := λ c,
  {| cg_DataDir := cg_DataDir c; cg_CoordinatorURL := cg_CoordinatorURL c; cg_ModelID := cg_ModelID c;
     cg_HeartbeatInterval := cg_HeartbeatInterval c; cg_ScheduleFrom := cg_ScheduleFrom c;
     cg_ScheduleUntil := cg_ScheduleUntil c; cg_MaxTempC := cg_MaxTempC c; cg_HardTempC := cg_HardTempC c;
     cg_ThermalHysteresis := cg_ThermalHysteresis c; cg_PauseIdleTimeout := cg_PauseIdleTimeout c |}.

Definition Second : Z := 1000000000.

Definition envDataDir : string := "THIRDSHIFT_NODE_DATA_DIR".
Definition envCoordinatorURL : string := "THIRDSHIFT_COORDINATOR_URL".
Definition envModelID : string := "THIRDSHIFT_MODEL_ID".
Definition envScheduleFrom : string := "THIRDSHIFT_SCHEDULE_FROM".
Definition envScheduleUntil : string := "THIRDSHIFT_SCHEDULE_UNTIL".
Definition envMaxTempC : string := "THIRDSHIFT_MAX_TEMP_C".
Definition envHardTempC : string := "THIRDSHIFT_HARD_TEMP_C".
Definition envHysteresisC : string := "THIRDSHIFT_THERMAL_HYSTERESIS_C".
Definition envPauseIdleSec : string := "THIRDSHIFT_PAUSE_IDLE_TIMEOUT_SECONDS".

(** [time.Duration(seconds) * time.Second], and [int(d.Seconds())]: the whole seconds. *)
Definition duration_of (seconds : Z) : Z := wrap64 (seconds * Second).
Definition seconds_of (d : Z) : Z := Z.quot d Second.

Section config.
Context `{!Unicode}.
(** [os.Getenv] and [os.UserConfigDir]. *)
Context (getenv : string → string) (userConfigDir : result string).

Definition DefaultDataDir : string :=
  match userConfigDir with
  | Err _ => ".thirdshift"
  | Ok base => path_string (Join (read_path base) "thirdshift")
  end.

Definition config_path (dataDir : string) : Path := Join (read_path dataDir) "config.toml".

(** The assignment of one key. *)
Definition assign (where_ key value : string) (cfg : Config) : result Config :=
  let number (what : string) (set : Z → Config) :=
    match atoi value with
    | Some n => Ok (set n)
    | None => Err (ErrMsg (where_ +:+ ": " +:+ what +:+ " must be an integer"))
    end in
  if String.eqb key "coordinator_url" then Ok (cfg <| cg_CoordinatorURL := value |>)
  else if String.eqb key "model_id" then Ok (cfg <| cg_ModelID := value |>)
  else if String.eqb key "heartbeat_interval_seconds" then number key (λ n, cfg <| cg_HeartbeatInterval := duration_of n |>)
  else if String.eqb key "schedule_from" then Ok (cfg <| cg_ScheduleFrom := value |>)
  else if String.eqb key "schedule_until" then Ok (cfg <| cg_ScheduleUntil := value |>)
  else if String.eqb key "max_temp_c" then number key (λ n, cfg <| cg_MaxTempC := n |>)
  else if String.eqb key "hard_temp_c" then number key (λ n, cfg <| cg_HardTempC := n |>)
  else if String.eqb key "thermal_hysteresis_c" then number key (λ n, cfg <| cg_ThermalHysteresis := n |>)
  else if String.eqb key "pause_idle_timeout_seconds" then number key (λ n, cfg <| cg_PauseIdleTimeout := duration_of n |>)
  else Err (ErrMsg (where_ +:+ ": unknown config key " +:+ Quote key)).

Definition blank_or_comment (line : string) : bool := String.eqb line "" || has_prefix line "#".

Definition parse_config_line (path : string) (lineNo : Z) (raw : string) (cfg : Config) : result Config :=
  let line := trim_space raw in
  let where_ := path +:+ ":" +:+ itoa lineNo in
  if blank_or_comment line then Ok cfg
  else match cut "="%char line with
  | None => Err (ErrMsg (where_ +:+ ": expected key = value"))
  | Some (key, value) => assign where_ (trim_space key) (trim_set [quote_mark] (trim_space value)) cfg
  end.

Fixpoint parse_config (path : string) (lineNo : Z) (lines : list string) (cfg : Config) : result Config :=
  match lines with
  | [] => Ok cfg
  | line :: rest => cfg ← parse_config_line path lineNo line cfg; parse_config path (lineNo + 1) rest cfg
  end.

Definition parseFile (p : Path) (cfg : Config) : IO Config :=
  file ← wrap "open config file" (Open p);
  read ← try (read_all file);
  let '(lines, err) := match read with Ok data => scan_lines data | Err e => ([], Some e) end in
  cfg ← lift_result (parse_config (path_string p) 1 lines cfg);
  match err with Some e => fail (ErrWrap "read config file" e) | None => mret cfg end.

(** [if value := os.Getenv(name); value != ""], for a string and for an integer. *)
Definition env_text (name : string) (set : string → Config → Config) (cfg : Config) : Config :=
  if String.eqb (getenv name) "" then cfg else set (getenv name) cfg.
Definition env_int (name : string) (set : Z → Config → Config) : Config → Config :=
  env_text name (λ value cfg, match atoi value with Some n => set n cfg | None => cfg end).

Definition applyEnv (cfg : Config) : Config :=
  let cfg := env_text envDataDir (λ v c, c <| cg_DataDir := v |>) cfg in
  let cfg := env_text envCoordinatorURL (λ v c, c <| cg_CoordinatorURL := v |>) cfg in
  let cfg := env_text envModelID (λ v c, c <| cg_ModelID := v |>) cfg in
  let cfg := env_text envScheduleFrom (λ v c, c <| cg_ScheduleFrom := v |>) cfg in
  let cfg := env_text envScheduleUntil (λ v c, c <| cg_ScheduleUntil := v |>) cfg in
  let cfg := env_int envMaxTempC (λ n c, c <| cg_MaxTempC := n |>) cfg in
  let cfg := env_int envHardTempC (λ n c, c <| cg_HardTempC := n |>) cfg in
  let cfg := env_int envHysteresisC (λ n c, c <| cg_ThermalHysteresis := n |>) cfg in
  env_int envPauseIdleSec (λ n c, c <| cg_PauseIdleTimeout := duration_of n |>) cfg.

Definition default_config (dataDir : string) : Config := {|
  cg_DataDir := if String.eqb dataDir "" then DefaultDataDir else dataDir; cg_CoordinatorURL := "";
  cg_ModelID := "thirdshift-tiny-chat-v1"; cg_HeartbeatInterval := 15 * Second; cg_ScheduleFrom := "00:00";
  cg_ScheduleUntil := "00:00"; cg_MaxTempC := 78; cg_HardTempC := 88; cg_ThermalHysteresis := 5;
  cg_PauseIdleTimeout := 300 * Second |}.

Definition Load (dataDir : string) : IO Config :=
  let cfg := default_config dataDir in
  let p := config_path (cg_DataDir cfg) in
  found ← try (Stat p);
  cfg ← (match found with
         | Ok _ => parseFile p cfg
         | Err e => if bool_decide (e = ENOENT) then mret cfg else fail (ErrWrap "stat config file" e)
         end);
  mret (applyEnv cfg).

(** The values [Save] writes for a configuration. *)
Definition saved_config (cfg : Config) : Config :=
  let cfg := if String.eqb (cg_DataDir cfg) "" then cfg <| cg_DataDir := DefaultDataDir |> else cfg in
  let cfg := if cg_HeartbeatInterval cfg <=? 0 then cfg <| cg_HeartbeatInterval := 15 * Second |> else cfg in
  let cfg := if String.eqb (cg_ScheduleFrom cfg) "" then cfg <| cg_ScheduleFrom := "00:00" |> else cfg in
  let cfg := if String.eqb (cg_ScheduleUntil cfg) "" then cfg <| cg_ScheduleUntil := "00:00" |> else cfg in
  let cfg := if cg_MaxTempC cfg <=? 0 then cfg <| cg_MaxTempC := 78 |> else cfg in
  let cfg := if cg_HardTempC cfg <=? 0 then cfg <| cg_HardTempC := wrap64 (cg_MaxTempC cfg + 10) |> else cfg in
  let cfg := if cg_HardTempC cfg <=? cg_MaxTempC cfg then cfg <| cg_HardTempC := wrap64 (cg_MaxTempC cfg + 10) |> else cfg in
  let cfg := if cg_ThermalHysteresis cfg <=? 0 then cfg <| cg_ThermalHysteresis := 5 |> else cfg in
  if cg_PauseIdleTimeout cfg <=? 0 then cfg <| cg_PauseIdleTimeout := 300 * Second |> else cfg.

(** One line of the file, and the file. *)
Definition setting (key value : string) : string := key +:+ " = " +:+ value.
Definition config_lines (cfg : Config) : list string := [
  setting "coordinator_url" (Quote (cg_CoordinatorURL cfg));
  setting "model_id" (Quote (cg_ModelID cfg));
  setting "heartbeat_interval_seconds" (itoa (seconds_of (cg_HeartbeatInterval cfg)));
  setting "schedule_from" (Quote (cg_ScheduleFrom cfg));
  setting "schedule_until" (Quote (cg_ScheduleUntil cfg));
  setting "max_temp_c" (itoa (cg_MaxTempC cfg));
  setting "hard_temp_c" (itoa (cg_HardTempC cfg));
  setting "thermal_hysteresis_c" (itoa (cg_ThermalHysteresis cfg));
  setting "pause_idle_timeout_seconds" (itoa (seconds_of (cg_PauseIdleTimeout cfg)))
].
Definition config_body (cfg : Config) : string := of_bytes (mjoin ((λ l, bytes l ++ [char_of 10]) <$> config_lines cfg)).

Definition Save (cfg : Config) : IO unit :=
  let cfg := saved_config cfg in
  _ ← wrap "create node data dir" (MkdirAll (read_path (cg_DataDir cfg)));
  wrap "write config file" (WriteFile (config_path (cg_DataDir cfg)) (config_body cfg)).

(** Whether a line sets the schedule. *)
Definition sets_schedule (raw : string) : bool :=
  let line := trim_space raw in
  if blank_or_comment line then false
  else match cut "="%char line with
  | None => false
  | Some (key, _) => bool_decide (trim_space key ∈ ["schedule_from"; "schedule_until"])
  end.

Definition HasScheduleOverride (dataDir : string) : IO bool :=
  if negb (String.eqb (getenv envScheduleFrom) "") || negb (String.eqb (getenv envScheduleUntil) "") then mret true
  else
    let dataDir := if String.eqb dataDir "" then DefaultDataDir else dataDir in
    file ← try (Open (config_path dataDir));
    match file with
    | Err _ => mret false
    | Ok file =>
        read ← try (read_all file);
        mret (match read with Ok data => existsb sets_schedule (scan_lines data).1 | Err _ => false end)
    end.
End config.
