(* ===== verification/ConfigTheory.v ===== *)
(** * A node's configuration is read as it was written

    About [NodeConfig]: what [Save] writes is what [Load] reads, for values without quotes,
    backslashes and control characters, and what else a saved file means. *)
From stdpp Require Import base gmap strings list pretty.
From Stdlib Require Import ZArith Lia Ascii.
From S2P Require Import Prelude GoStrings Sha256 Encoding FileSystem FileURL Releases ReleaseTheory NodeConfig.

(** Text that ["%q"] prints as it is. *)
Definition plain_char (a : ascii) : Prop := 0x20 ≤ byte_of a ≤ 0x7e ∧ a ≠ quote_mark ∧ a ≠ backslash.
Definition plain_text (s : string) : Prop := Forall plain_char (bytes s).

Lemma plain_char_ascii a : plain_char a → byte_of a < 0x80.
Proof. intros [? _]. lia. Qed.

Lemma byte_of_inj a b : byte_of a = byte_of b → a = b.
Proof.
  intros H. unfold byte_of in H. apply N2Z.inj in H. rewrite <-(Ascii.ascii_N_embedding a), H. apply Ascii.ascii_N_embedding.
Qed.

Section config_theory.
Context `{!Unicode}.

Lemma escape_plain a : plain_char a → escape_rune (byte_of a, [a]) = [a].
Proof.
  intros (Hr & Hq & Hb). unfold escape_rune.
  assert (byte_of a =? rune_error = false) as -> by (apply Z.eqb_neq; unfold rune_error; lia). cbn [andb].
  assert (byte_of a =? 34 = false) as ->.
  { apply Z.eqb_neq. intros E. apply Hq, byte_of_inj. by rewrite E. }
  assert (byte_of a =? 92 = false) as ->.
  { apply Z.eqb_neq. intros E. apply Hb, byte_of_inj. by rewrite E. }
  cbn [orb]. unfold printable, between. rewrite (proj2 (Z.ltb_lt _ _)), !(proj2 (Z.leb_le _ _)) by lia. done.
Qed.

Lemma Quote_plain s : plain_text s → Quote s = of_bytes ([quote_mark] ++ bytes s ++ [quote_mark]).
Proof.
  intros Hs. unfold Quote. rewrite decode_plain by (by eapply Forall_impl; [exact Hs|apply plain_char_ascii]).
  do 3 f_equal. induction Hs as [|a l Ha _ IH]; [done|]. rewrite !fmap_cons.
  change (escape_rune (byte_of a, [a]) ++ mjoin (escape_rune <$> ((λ a, (byte_of a, [a])) <$> l)) = a :: l).
  by rewrite escape_plain, IH.
Qed.

(** ** Lines *)

Definition line_char (a : ascii) : Prop := 0x20 ≤ byte_of a ≤ 0x7e.
Definition clean_line (l : string) : Prop := Forall line_char (bytes l) ∧ l ≠ "" ∧ Z.of_nat (String.length l) < 65536.

Lemma line_char_not a n : line_char a → n < 0x20 → 0 ≤ n → a ≠ char_of n.
Proof.
  intros Ha Hn H0 ->. unfold line_char in Ha. rewrite byte_of_char in Ha; [lia|]. unfold is_byte. lia.
Qed.

Lemma strip_cr_clean l : Forall line_char (bytes l) → strip_cr l = l.
Proof.
  intros Hl. unfold strip_cr. destruct (reverse (bytes l)) as [|a rest] eqn:E; [done|].
  rewrite bool_decide_false; [done|]. apply (line_char_not a 13); [|lia..].
  rewrite Forall_forall in Hl. apply Hl. rewrite <-elem_of_reverse, E. by left.
Qed.

Lemma scan_clean lines :
  Forall clean_line lines → scan_lines (of_bytes (mjoin ((λ l, bytes l ++ [char_of 10]) <$> lines))) = (lines, None).
Proof.
  unfold scan_lines. induction 1 as [|l lines (Hl & Hne & Hlen) _ IH]; [done|]. cbn [fmap list_fmap mjoin list_join].
  rewrite <-app_assoc. cbn [app].
  assert (E : of_bytes (bytes l ++ char_of 10 :: mjoin ((λ l, bytes l ++ [char_of 10]) <$> lines)) =
    l +:+ String (char_of 10) (of_bytes (mjoin ((λ l, bytes l ++ [char_of 10]) <$> lines)))).
  { rewrite <-(of_bytes_bytes (l +:+ _)), bytes_app. cbn [bytes]. by rewrite bytes_of_bytes. }
  etransitivity; [apply (f_equal (λ s, scan (split_on (char_of 10) s)) E)|]. rewrite split_on_app; cycle 1.
  { intros Hin. rewrite Forall_forall in Hl. by apply (line_char_not (char_of 10) 10 (Hl _ Hin)). }
  cbn [scan]. rewrite IH. unfold too_long. rewrite (proj2 (Z.leb_gt _ _)) by lia. rewrite strip_cr_clean by done.
  destruct (split_on _ _) eqn:Es; [|done]. destruct (split_on_cons (char_of 10) (of_bytes (mjoin ((λ l, bytes l ++ [char_of 10]) <$> lines)))) as (w & ws & Ew).
  by rewrite Ew in Es.
Qed.

(** ** Settings *)

(** A printed value: what is between the quotes, or a number. *)
Definition word (m : list ascii) : Prop :=
  Forall line_char m ∧ m ≠ [] ∧ (∀ a, head m = Some a → is_space (byte_of a) = false) ∧
  (∀ a, last m = Some a → is_space (byte_of a) = false).

Lemma word_trim l m r : Forall line_char (l ++ r) → Forall (λ a, is_space (byte_of a) = true) (l ++ r) → word m →
  trim_space (of_bytes (l ++ m ++ r)) = of_bytes m.
Proof.
  intros Hlr Hs (Hm & Hne & Hh & Ht). apply trim_space_between; [|done..].
  apply Forall_app in Hlr as [Hl Hr]. unfold plain_ascii. rewrite !Forall_app. split_and!; (eapply Forall_impl; [eassumption|]);
    unfold line_char; intros; lia.
Qed.

(** How a line of the file is taken apart. *)
Lemma setting_cut key m :
  word (bytes key) → "="%char ∉ bytes key → head (bytes key) ≠ Some "#"%char → word m →
  trim_space (setting key (of_bytes m)) = setting key (of_bytes m) ∧
  blank_or_comment (setting key (of_bytes m)) = false ∧
  ∃ k v, cut "="%char (setting key (of_bytes m)) = Some (k, v) ∧ trim_space k = key ∧ trim_space v = of_bytes m.
Proof.
  intros Hk Heq Hhash Hm. unfold setting.
  assert (Hline : trim_space (key +:+ " = " +:+ of_bytes m) = key +:+ " = " +:+ of_bytes m).
  { assert (E : key +:+ " = " +:+ of_bytes m = of_bytes ([] ++ (bytes key ++ bytes " = " ++ m) ++ [])).
    { rewrite app_nil_l, app_nil_r, <-(of_bytes_bytes (key +:+ _)), !bytes_app, bytes_of_bytes. done. }
    rewrite E. transitivity (of_bytes (bytes key ++ bytes " = " ++ m)); [|by rewrite app_nil_l, app_nil_r].
    apply word_trim; [constructor|constructor|]. destruct Hk as (Hk & Hkne & Hkh & _). destruct Hm as (Hm & Hmne & _ & Hmt).
    split_and!.
    - rewrite !Forall_app. split_and!; [done| |done]. repeat constructor; vm_compute; congruence.
    - destruct (bytes key); [done|]. done.
    - intros a Ha. apply Hkh. destruct (bytes key); [done|]. exact Ha.
    - intros a Ha. apply Hmt. rewrite app_assoc, last_app in Ha. by destruct (last m) eqn:El; [|apply last_None in El]. }
  split; [exact Hline|]. split.
  { unfold blank_or_comment. destruct (String.eqb_spec (key +:+ " = " +:+ of_bytes m) "") as [E|_]; [by destruct key|].
    destruct key as [|a key]; [done|]. unfold has_prefix. simpl. case_match; [subst; by exfalso; apply Hhash|done]. }
  exists (key +:+ " "), (" " +:+ of_bytes m). split_and!.
  - change (" = " +:+ of_bytes m) with (" " +:+ String "="%char (" " +:+ of_bytes m)).
    assert (Ea : key +:+ (" " +:+ String "="%char (" " +:+ of_bytes m)) = (key +:+ " ") +:+ String "="%char (" " +:+ of_bytes m)).
    { rewrite <-(of_bytes_bytes (key +:+ (" " +:+ _))), <-(of_bytes_bytes ((key +:+ " ") +:+ _)), !bytes_app. by rewrite <-app_assoc. }
    rewrite Ea. apply cut_app. rewrite bytes_app, elem_of_app. intros [?|Hin]; [done|]. by apply list_elem_of_singleton in Hin.
  - rewrite <-(of_bytes_bytes (key +:+ " ")), bytes_app. etransitivity; [apply (word_trim [] (bytes key) (bytes " "));
      [..|done]; repeat constructor; vm_compute; congruence|apply of_bytes_bytes].
  - rewrite <-(of_bytes_bytes (" " +:+ of_bytes m)), bytes_app, bytes_of_bytes.
    rewrite <-(app_nil_r m) at 1. apply (word_trim (bytes " ") m []); [..|done]; repeat constructor; vm_compute; congruence.
Qed.

Lemma setting_parsed path n key m cfg :
  word (bytes key) → "="%char ∉ bytes key → head (bytes key) ≠ Some "#"%char → word m →
  parse_config_line path n (setting key (of_bytes m)) cfg =
    assign (path +:+ ":" +:+ itoa n) key (trim_set [quote_mark] (of_bytes m)) cfg.
Proof.
  intros Hk Heq Hhash Hm. unfold parse_config_line. destruct (setting_cut key m) as (-> & -> & k & v & -> & -> & ->); done.
Qed.

(** The two kinds of values. *)
Lemma quoted_word s : plain_text s → word ([quote_mark] ++ bytes s ++ [quote_mark]).
Proof.
  intros Hs. assert (Hq : line_char quote_mark) by (vm_compute; split; congruence). split_and!.
  - rewrite !Forall_app. split_and!; [by repeat constructor| |by repeat constructor].
    eapply Forall_impl; [exact Hs|by intros a []].
  - done.
  - intros a Ha. cbn in Ha. by injection Ha as <-.
  - intros a Ha. rewrite app_assoc, last_snoc in Ha. by injection Ha as <-.
Qed.

Lemma trim_quotes s : plain_text s → trim_set [quote_mark] (of_bytes ([quote_mark] ++ bytes s ++ [quote_mark])) = s.
Proof.
  intros Hs. unfold trim_set. rewrite bytes_of_bytes. cbn [app drop_while]. rewrite bool_decide_true by by left.
  assert (Hno : ∀ a, a ∈ bytes s → bool_decide (a ∈ [quote_mark]) = false).
  { intros a Ha. apply bool_decide_eq_false. intros ->%list_elem_of_singleton. unfold plain_text in Hs. rewrite Forall_forall in Hs.
    by destruct (Hs _ Ha) as (_ & ? & _). }
  destruct (bytes s) as [|a l] eqn:E.
  { cbn. rewrite <-(of_bytes_bytes s), E. reflexivity. }
  rewrite (drop_while_none _ ((a :: l) ++ [quote_mark])) by (intros b Hb; cbn in Hb; injection Hb as <-; apply Hno; by left).
  rewrite reverse_snoc. cbn [drop_while]. rewrite bool_decide_true by by left.
  rewrite drop_while_none; [by rewrite reverse_involutive, <-E, of_bytes_bytes|].
  intros b Hb. apply Hno. rewrite head_reverse in Hb. by apply last_Some_elem_of in Hb.
Qed.

Lemma parse_digits_all acc l n : parse_digits acc l = Some n → Forall (λ a, is_Some (digit_val a)) l.
Proof.
  revert acc. induction l as [|a l IH]; intros acc Hp; [constructor|]. cbn in Hp.
  destruct (digit_val a) as [d|] eqn:E; [|done]. constructor; [by eexists|]. by eapply IH.
Qed.

Lemma itoa_chars z : 0 ≤ z → bytes (itoa z) ≠ [] ∧ Forall (λ a, 48 ≤ byte_of a ≤ 57) (bytes (itoa z)).
Proof.
  intros Hz. pose proof (parse_pretty (Z.to_N z)) as Hp.
  assert (E : itoa z = pretty (Z.to_N z)) by (unfold itoa; destruct z; [done|done|lia]). rewrite <-E in Hp. split.
  - intros Hnil. rewrite Hnil in Hp. cbn in Hp. injection Hp as Hp. rewrite E, <-(Z2N.id z), <-Hp in Hnil by lia. done.
  - eapply Forall_impl; [by eapply parse_digits_all|]. intros a [d Hd]. unfold digit_val, between in Hd.
    destruct (Z.leb_spec 48 (byte_of a)), (Z.leb_spec (byte_of a) 57); cbn in Hd; by try lia.
Qed.

Lemma digit_clean a : 48 ≤ byte_of a ≤ 57 → line_char a ∧ is_space (byte_of a) = false ∧ a ≠ quote_mark.
Proof.
  intros Ha. split_and!.
  - unfold line_char. lia.
  - unfold is_space, between. repeat match goal with |- context [?x <=? ?y] => destruct (Z.leb_spec x y); try lia
      | |- context [?x =? ?y] => destruct (Z.eqb_spec x y); try lia end; done.
  - intros ->. assert (byte_of quote_mark = 34) by reflexivity. lia.
Qed.

Lemma number_word z : 0 ≤ z → word (bytes (itoa z)).
Proof.
  intros [Hne Hall]%itoa_chars. rewrite Forall_forall in Hall. split_and!; [|done| |].
  - apply Forall_forall. intros a Ha. by apply digit_clean, Hall.
  - intros a Ha. apply digit_clean, Hall. by apply head_Some_elem_of.
  - intros a Ha. apply digit_clean, Hall. by apply last_Some_elem_of.
Qed.

Lemma trim_number z : 0 ≤ z → trim_set [quote_mark] (itoa z) = itoa z.
Proof.
  intros [_ Hall]%itoa_chars. unfold trim_set. rewrite Forall_forall in Hall.
  assert (Hno : ∀ a, a ∈ bytes (itoa z) → bool_decide (a ∈ [quote_mark]) = false).
  { intros a Ha. apply bool_decide_eq_false. intros ->%list_elem_of_singleton. by destruct (digit_clean _ (Hall _ Ha)) as (_ & _ & ?). }
  rewrite (drop_while_none _ (bytes (itoa z))) by (intros a Ha; by apply Hno, head_Some_elem_of).
  rewrite drop_while_none; [by rewrite reverse_involutive, of_bytes_bytes|].
  intros a Ha. rewrite head_reverse in Ha. by apply Hno, last_Some_elem_of.
Qed.

Lemma text_line path n key s cfg :
  word (bytes key) → "="%char ∉ bytes key → head (bytes key) ≠ Some "#"%char → plain_text s →
  parse_config_line path n (setting key (Quote s)) cfg = assign (path +:+ ":" +:+ itoa n) key s cfg.
Proof.
  intros Hk He Hh Hs. rewrite Quote_plain, setting_parsed by (try done; by apply quoted_word). by rewrite trim_quotes.
Qed.

Lemma number_line path n key z cfg :
  word (bytes key) → "="%char ∉ bytes key → head (bytes key) ≠ Some "#"%char → 0 ≤ z →
  parse_config_line path n (setting key (itoa z)) cfg = assign (path +:+ ":" +:+ itoa n) key (itoa z) cfg.
Proof.
  intros Hk He Hh Hz. rewrite <-(of_bytes_bytes (itoa z)) at 1. rewrite setting_parsed by (try done; by apply number_word).
  by rewrite of_bytes_bytes, trim_number.
Qed.

(** ** The whole file *)

(** What can be stored: short texts without quotes, backslashes and control characters, and
    numbers that are not negative. *)
Record storable (c : Config) : Prop := {
  st_text : Forall (λ s, plain_text s ∧ Z.of_nat (String.length s) < 60000)
              [cg_CoordinatorURL c; cg_ModelID c; cg_ScheduleFrom c; cg_ScheduleUntil c];
  st_number : Forall (λ z, 0 ≤ z < 2 ^ 63)
              [cg_MaxTempC c; cg_HardTempC c; cg_ThermalHysteresis c; cg_HeartbeatInterval c; cg_PauseIdleTimeout c]
}.

(** Durations are stored in whole seconds. *)
Definition in_seconds (c : Config) : Config :=
  c <| cg_HeartbeatInterval ::= λ d, duration_of (seconds_of d) |> <| cg_PauseIdleTimeout ::= λ d, duration_of (seconds_of d) |>.

Lemma seconds_bound d : 0 ≤ d < 2 ^ 63 → 0 ≤ seconds_of d < 2 ^ 63.
Proof.
  intros Hd. unfold seconds_of, Second. rewrite Z.quot_div_nonneg by lia. split; [apply Z.div_pos; lia|].
  apply Z.div_lt_upper_bound; lia.
Qed.

(** A key: letters and underscores would do. *)
Definition key_char (a : ascii) : bool :=
  between 0x21 0x7e (byte_of a) && negb (bool_decide (a = "="%char)) && negb (bool_decide (a = "#"%char)).
Definition good_key (key : string) : bool := negb (String.eqb key "") && forallb key_char (bytes key).

Lemma key_char_spec a : key_char a = true → line_char a ∧ is_space (byte_of a) = false ∧ a ≠ "="%char ∧ a ≠ "#"%char.
Proof.
  unfold key_char, line_char, between. rewrite !andb_true_iff, !negb_true_iff, !bool_decide_eq_false, !Z.leb_le.
  intros (([? ?] & ?) & ?). split_and!; [lia|lia| |done..]. unfold is_space, between.
  repeat match goal with |- context [?x <=? ?y] => destruct (Z.leb_spec x y); try lia
      | |- context [?x =? ?y] => destruct (Z.eqb_spec x y); try lia end; done.
Qed.

Lemma good_key_spec key : good_key key = true → word (bytes key) ∧ "="%char ∉ bytes key ∧ head (bytes key) ≠ Some "#"%char.
Proof.
  unfold good_key. rewrite andb_true_iff, negb_true_iff. intros [Hne Hall].
  assert (Hc : ∀ a, a ∈ bytes key → line_char a ∧ is_space (byte_of a) = false ∧ a ≠ "="%char ∧ a ≠ "#"%char).
  { intros a Ha. apply key_char_spec. rewrite forallb_forall in Hall. apply Hall. by apply list_elem_of_In. }
  split_and!; [split_and!| |].
  - apply Forall_forall. intros a Ha. by apply Hc.
  - intros Hn. destruct key; [done|]. by cbn in Hn.
  - intros a Ha. by apply Hc, head_Some_elem_of.
  - intros a Ha. by apply Hc, last_Some_elem_of.
  - intros Hin. by destruct (Hc _ Hin) as (_ & _ & ? & _).
  - intros Hh%head_Some_elem_of. by destruct (Hc _ Hh) as (_ & _ & _ & ?).
Qed.

Section parse_saved.
Context (p : string).

Lemma parse_text n key s cfg rest cfg' :
  good_key key = true → plain_text s → assign (p +:+ ":" +:+ itoa n) key s cfg = Ok cfg' →
  parse_config p n (setting key (Quote s) :: rest) cfg = parse_config p (n + 1) rest cfg'.
Proof. intros (Hk & He & Hh)%good_key_spec Hs Ha. cbn [parse_config]. rewrite text_line by done. by rewrite Ha. Qed.

Lemma parse_number n key z cfg rest cfg' :
  good_key key = true → 0 ≤ z → assign (p +:+ ":" +:+ itoa n) key (itoa z) cfg = Ok cfg' →
  parse_config p n (setting key (itoa z) :: rest) cfg = parse_config p (n + 1) rest cfg'.
Proof. intros (Hk & He & Hh)%good_key_spec Hz Ha. cbn [parse_config]. rewrite number_line by done. by rewrite Ha. Qed.

Lemma parse_saved c base : storable c → cg_DataDir base = cg_DataDir c →
  parse_config p 1 (config_lines c) base = Ok (in_seconds c).
Proof.
  intros [Ht Hn] Hd. rewrite !Forall_cons in Ht. rewrite !Forall_cons in Hn.
  destruct Ht as ([Hu _] & [Hm _] & [Hf _] & [Hl _] & _), Hn as (Hmax & Hhard & Hhys & Hbeat%seconds_bound & Hpause%seconds_bound & _).
  unfold config_lines.
  do 2 (erewrite parse_text; [|reflexivity|done|reflexivity]).
  erewrite parse_number; [|reflexivity|lia|unfold assign; simpl; rewrite atoi_itoa by done; reflexivity].
  do 2 (erewrite parse_text; [|reflexivity|done|reflexivity]).
  do 4 (erewrite parse_number; [|reflexivity|lia|unfold assign; simpl; rewrite atoi_itoa by done; reflexivity]).
  cbn [parse_config]. unfold in_seconds. destruct c, base. cbn in Hd. subst. reflexivity.
Qed.
End parse_saved.

Lemma setting_clean key m : good_key key = true → Z.of_nat (String.length key) < 100 → word m → Z.of_nat (length m) < 60100 →
  clean_line (setting key (of_bytes m)).
Proof.
  intros ((Hk & _) & _ & _)%good_key_spec Hlen (Hm & _) Hl. unfold clean_line, setting.
  rewrite <-length_bytes, !bytes_app, bytes_of_bytes, !length_app. split_and!.
  - apply Forall_app; split; [done|]. apply Forall_app; split; [repeat constructor; vm_compute; congruence|done].
  - by destruct key.
  - rewrite length_bytes. cbn [bytes length]. lia.
Qed.

Lemma text_clean key s : good_key key = true → Z.of_nat (String.length key) < 100 →
  plain_text s ∧ Z.of_nat (String.length s) < 60000 → clean_line (setting key (Quote s)).
Proof.
  intros Hk Hlen [Hs Hl]. rewrite Quote_plain by done. apply setting_clean; [done..|by apply quoted_word|].
  rewrite !length_app, length_bytes. cbn [length]. lia.
Qed.

(** Numbers of 64 bits have at most nineteen digits. *)
Lemma digits_bound k x s : (x < 10 ^ N.of_nat k)%N → (String.length (pretty_N_go x s) ≤ String.length s + k)%nat.
Proof.
  revert x s. induction k as [|k IH]; intros x s Hx.
  { assert (x = 0%N) as -> by (change (10 ^ N.of_nat 0)%N with 1%N in Hx; lia). rewrite pretty_N_go_0. lia. }
  destruct (decide (x = 0)%N) as [->|Hn]; [rewrite pretty_N_go_0; lia|]. rewrite pretty_N_go_step by lia.
  specialize (IH (x `div` 10)%N (String (pretty_N_char (x `mod` 10)) s)). cbn [String.length] in IH.
  rewrite Nat2N.inj_succ, N.pow_succ_r' in Hx. assert (x `div` 10 < 10 ^ N.of_nat k)%N by (apply N.Div0.div_lt_upper_bound; lia).
  specialize (IH ltac:(done)). lia.
Qed.

Lemma itoa_length z : 0 ≤ z < 2 ^ 63 → Z.of_nat (String.length (itoa z)) ≤ 19.
Proof.
  intros Hz. assert (E : itoa z = pretty (Z.to_N z)) by (unfold itoa; destruct z; [done|done|lia]). rewrite E.
  unfold pretty, pretty_N. case_decide; [done|]. pose proof (digits_bound 19 (Z.to_N z) "") as Hb. cbn [String.length] in Hb.
  change (10 ^ N.of_nat 19)%N with 10000000000000000000%N in Hb. specialize (Hb ltac:(lia)). lia.
Qed.

Lemma number_clean key z : good_key key = true → Z.of_nat (String.length key) < 100 → 0 ≤ z < 2 ^ 63 → clean_line (setting key (itoa z)).
Proof.
  intros Hk Hlen Hz. rewrite <-(of_bytes_bytes (itoa z)). apply setting_clean; [done..|apply number_word; lia|].
  rewrite length_bytes. pose proof (itoa_length z Hz). lia.
Qed.

Lemma config_clean c : storable c → Forall clean_line (config_lines c).
Proof.
  intros [Ht Hn]. rewrite !Forall_cons in Ht. rewrite !Forall_cons in Hn.
  destruct Ht as (? & ? & ? & ? & _), Hn as (Hmax & Hhard & Hhys & Hbeat%seconds_bound & Hpause%seconds_bound & _).
  unfold config_lines. repeat (apply Forall_cons; split; [(by apply text_clean) || (by apply number_clean)|]). constructor.
Qed.

(** ** Writing and reading the file *)

Section file.
Context (R : location) (w : World) (data : string) (t : Z).
Context (Hreal : real (w_fs w) R) (Hnf : w_faults w = []).
Let p : Path := {| rooted := true; parts := R ++ ["config.toml"] |}.
Context (Hfile : w_fs w !! (R ++ ["config.toml"]) = Some (NFile data t)).

Lemma Open_config : Open p w = (Ok (R ++ ["config.toml"]), w).
Proof.
  unfold Open, p. rewrite syscall_nofault by done. unfold mbind at 1, St_bind at 1.
  rewrite resolve_child by (done || intros ?; by rewrite Hfile).
  unfold node_of, gets, mbind, St_bind. by rewrite node_at_child, Hfile.
Qed.

Lemma read_config : read_all (R ++ ["config.toml"]) w = (Ok data, w).
Proof.
  unfold read_all. rewrite syscall_nofault by done. unfold node_of, gets, mbind, St_bind. by rewrite node_at_child, Hfile.
Qed.

Lemma Stat_config : Stat p w = (Ok (NFile data t), w).
Proof.
  unfold Stat, p. rewrite syscall_nofault by done. unfold mbind at 1, St_bind at 1.
  rewrite resolve_child by (done || intros ?; by rewrite Hfile).
  unfold node_of, gets, mbind, St_bind. by rewrite node_at_child, Hfile.
Qed.
End file.

Context (getenv : string → string) (userConfigDir : result string).

Lemma config_path_at dir : rooted (read_path dir) = true → plain (parts (read_path dir)) →
  config_path dir = {| rooted := true; parts := parts (read_path dir) ++ ["config.toml"] |}.
Proof. intros. unfold config_path. by apply child_join. Qed.

Lemma Save_run cfg w :
  let c := saved_config userConfigDir cfg in
  let R := parts (read_path (cg_DataDir c)) in
  rooted (read_path (cg_DataDir c)) = true → real (w_fs w) R → w_faults w = [] →
  (w_fs w !! (R ++ ["config.toml"]) = None ∨ ∃ d t, w_fs w !! (R ++ ["config.toml"]) = Some (NFile d t)) →
  Save userConfigDir cfg w = (Ok tt, w <| w_fs ::= <[R ++ ["config.toml"] := NFile (config_body c) (w_now w)]> |>).
Proof.
  cbv zeta. intros Hr HR Hnf Hf. unfold Save. set (c := saved_config userConfigDir cfg) in *.
  unfold mbind, St_bind, wrap. rewrite (MkdirAll_real (parts (read_path (cg_DataDir c)))) by done.
  rewrite config_path_at by (done || apply HR). by rewrite WriteFile_child.
Qed.

Lemma saved_schedule c : plain_text (cg_ScheduleFrom c) → existsb sets_schedule (config_lines c) = true.
Proof.
  intros Hf. apply existsb_exists. exists (setting "schedule_from" (Quote (cg_ScheduleFrom c))). split.
  - apply list_elem_of_In. unfold config_lines. do 3 right. left.
  - destruct (good_key_spec "schedule_from" eq_refl) as (Hk & He & Hh). rewrite Quote_plain by done.
    unfold sets_schedule. destruct (setting_cut "schedule_from" _ Hk He Hh (quoted_word _ Hf)) as (-> & -> & k & v & -> & -> & _).
    by apply bool_decide_eq_true_2; left.
Qed.

(** C30. What [Save] writes is what [Load] reads, before the environment is applied, for a
    configuration that is [storable]: its texts are printable ASCII without quotes and backslashes
    and short enough for a line of the file, its numbers are not negative, and its durations come
    back in whole seconds. The directory is real and the operating system fails no call. And from
    then on the node has a schedule of its own: [HasScheduleOverride] holds, whether or not
    a schedule was ever set, so no schedule of the fleet is applied to it. *)
Theorem config_roundtrip cfg w :
  let c := saved_config userConfigDir cfg in
  let R := parts (read_path (cg_DataDir c)) in
  storable c → rooted (read_path (cg_DataDir c)) = true → real (w_fs w) R → w_faults w = [] →
  (w_fs w !! (R ++ ["config.toml"]) = None ∨ ∃ d t, w_fs w !! (R ++ ["config.toml"]) = Some (NFile d t)) →
  let '(r, w') := Save userConfigDir cfg w in
  r = Ok tt ∧
  Load getenv userConfigDir (cg_DataDir c) w' = (Ok (applyEnv getenv (in_seconds c)), w') ∧
  HasScheduleOverride getenv userConfigDir (cg_DataDir c) w' = (Ok true, w').
Proof.
  cbv zeta. intros Hst Hr HR Hnf Hf. rewrite Save_run by done. set (c := saved_config userConfigDir cfg) in *.
  set (R := parts (read_path (cg_DataDir c))) in *. split; [done|].
  set (w' := w <| w_fs ::= _ |>).
  assert (HR' : real (w_fs w') R) by (apply real_insert; [done|apply child_not_prefix]).
  assert (Hf' : w_fs w' !! (R ++ ["config.toml"]) = Some (NFile (config_body c) (w_now w))) by (unfold w'; cbn; by rewrite lookup_insert_eq).
  assert (Hnf' : w_faults w' = []) by done.
  assert (Hne : String.eqb (cg_DataDir c) "" = false) by (destruct (String.eqb_spec (cg_DataDir c) "") as [E|]; [by rewrite E in Hr|done]).
  assert (Hscan : scan_lines (config_body c) = (config_lines c, None)) by by apply scan_clean, config_clean.
  split.
  - unfold Load. assert (Hd : cg_DataDir (default_config userConfigDir (cg_DataDir c)) = cg_DataDir c) by (unfold default_config; cbn; by rewrite Hne).
    rewrite Hd, config_path_at by (done || apply HR). fold R. unfold mbind, St_bind, try. rewrite (Stat_config R w' _ _ HR' Hnf' Hf').
    unfold parseFile, mbind, St_bind, try, wrap. rewrite (Open_config R w' _ _ HR' Hnf' Hf').
    rewrite (read_config R w' _ _ HR' Hnf' Hf'), Hscan. unfold lift_result. by rewrite parse_saved.
  - unfold HasScheduleOverride. destruct (_ || _); [done|]. rewrite Hne, config_path_at by (done || apply HR). fold R.
    unfold mbind, St_bind, try. rewrite (Open_config R w' _ _ HR' Hnf' Hf'), (read_config R w' _ _ HR' Hnf' Hf'), Hscan.
    unfold mret, St_ret. repeat f_equal. cbn [fst]. apply saved_schedule. destruct Hst as [Ht _]. rewrite !Forall_cons in Ht. apply Ht.
Qed.
End config_theory.
