(* ===== verification/NodeLogin.v ===== *)
(** * The identity of a node and its login

    [internal/node/identity/identity.go]: the key pair and the credentials in the node's data
    directory. [internal/node/registration/client.go]: the login with an invite, the login
    without one and the renewal of an access token, which call the coordinator's registration
    service ([Registration.v], [NodeAuth.v]) over HTTP. *)
From stdpp Require Import base gmap strings list.
From Stdlib Require Import ZArith Lia Ascii.
From S2P Require Import Prelude GoStrings Sha256 Encoding NodeAuth FileSystem NodeConfig.

(** ** Data *)

Record KeyFile := { kf_PublicKey : string; kf_PrivateKey : string }.

Record Credentials := {
  cr_NodeID : string; cr_CoordinatorURL : string; cr_PublicKey : string; cr_AccessToken : string;
  cr_AccessTokenExpiresAt : Z; cr_HardwareFingerprintHash : string
}.
#[export] Instance Credentials_eta : Eta Credentials := λ c,
  {| cr_NodeID := cr_NodeID c; cr_CoordinatorURL := cr_CoordinatorURL c; cr_PublicKey := cr_PublicKey c;
     cr_AccessToken := cr_AccessToken c; cr_AccessTokenExpiresAt := cr_AccessTokenExpiresAt c;
     cr_HardwareFingerprintHash := cr_HardwareFingerprintHash c |}.

Record registerRequest := { rq_InviteToken : string; rq_PublicKey : string; rq_HardwareFingerprintHash : string }.
Record fleetSchedule := { fs_From : string; fs_Until : string; fs_Timezone : string }.
Record registerResponse := {
  rs_NodeID : string; rs_BootstrapToken : string; rs_BootstrapTokenExpiresAt : Z; rs_FleetSchedule : option fleetSchedule
}.
Record tokenRequest := { tq_NodeID : string; tq_BootstrapToken : string }.
Record tokenResponse := { tr_AccessToken : string; tr_AccessTokenExpiresAt : Z }.

(** The JSON of the files and of the messages, [url.ParseRequestURI], what
    [http.NewRequestWithContext] says of an address, the status line of an answer, Ed25519 and
    RFC 3339. *)
Class Identities := {
  parse_key_file : string → result KeyFile;
  marshal_key_file : KeyFile → string;
  parse_credentials : string → result Credentials;
  marshal_credentials : Credentials → result string;
  marshal_register : registerRequest → string;
  marshal_token : tokenRequest → string;
  marshal_refresh : RefreshRequest → string;
  decode_register : string → result registerResponse;
  decode_token : string → result tokenResponse;
  decode_api_error : string → string;
  ParseRequestURI : string → result unit;
  NewRequest : string → result unit;
  status_line : Z → string;
  node_Sign : list Z → list Z → list Z;
  rfc3339 : Z → string
}.

Section identity.
Context `{!Identities}.

Definition keyFileName : string := "node-key.json".
Definition credentialsFileName : string := "credentials.json".
Definition KeyPath (dataDir : string) : Path := Join (read_path dataDir) keyFileName.
Definition CredentialsPath (dataDir : string) : Path := Join (read_path dataDir) credentialsFileName.

Definition err_data_dir : gerror := ErrMsg "data dir is required".

(** What a key file says. *)
Definition decode_key (data : string) : result (list Z * string) :=
  match parse_key_file data with
  | Err e => Err (ErrWrap "decode key file" e)
  | Ok keyFile =>
      match DecodeString Std (kf_PrivateKey keyFile) with
      | Err e => Err (ErrWrap "decode private key" e)
      | Ok privateKey =>
          if blen privateKey =? PrivateKeySize then Ok (privateKey, kf_PublicKey keyFile)
          else Err (ErrMsg ("private key has " +:+ itoa (blen privateKey) +:+ " bytes, want " +:+ itoa PrivateKeySize))
      end
  end.

Definition key_file_of (publicKey privateKey : list Z) : KeyFile :=
  {| kf_PublicKey := EncodeToString Std publicKey; kf_PrivateKey := EncodeToString Std privateKey |}.

(** [generated] is what [ed25519.GenerateKey(rand.Reader)] gives: the public and the private
    key. *)
Definition LoadOrCreateKey (generated : result (list Z * list Z)) (dataDir : string) : IO (list Z * string) :=
  if String.eqb dataDir "" then fail err_data_dir
  else
    let p := KeyPath dataDir in
    read ← try (ReadFile p);
    match read with
    | Ok data => lift_result (decode_key data)
    | Err e =>
        if negb (bool_decide (e = ENOENT)) then fail (ErrWrap "read key file" e)
        else
          pair ← wrap "generate ed25519 keypair" (lift_result generated);
          let '(publicKey, privateKey) := pair in
          _ ← wrap "create data dir" (MkdirAll (read_path dataDir));
          _ ← wrap "write key file" (WriteFile p (marshal_key_file (key_file_of publicKey privateKey)));
          mret (privateKey, EncodeToString Std publicKey)
    end.

Definition SaveCredentials (dataDir : string) (creds : Credentials) : IO unit :=
  if String.eqb dataDir "" then fail err_data_dir
  else
    _ ← wrap "create data dir" (MkdirAll (read_path dataDir));
    body ← wrap "marshal credentials" (lift_result (marshal_credentials creds));
    wrap "write credentials" (WriteFile (CredentialsPath dataDir) body).

(** Whether stored credentials can be used. *)
Definition incomplete (c : Credentials) : bool :=
  String.eqb (cr_NodeID c) "" || String.eqb (cr_AccessToken c) "" || String.eqb (cr_CoordinatorURL c) "".

Definition LoadCredentials (dataDir : string) : IO Credentials :=
  if String.eqb dataDir "" then fail err_data_dir
  else
    data ← wrap "read credentials" (ReadFile (CredentialsPath dataDir));
    creds ← wrap "decode credentials" (lift_result (parse_credentials data));
    if incomplete creds
    then fail (ErrMsg "stored credentials are incomplete; run thirdshift login --invite again")
    else mret creds.

Definition HardwareFingerprintHash (goos goarch hostname : string) : string :=
  sha256_string (goos +:+ "|" +:+ goarch +:+ "|" +:+ hostname).

(** ** Calls to the coordinator *)

Definition success (status : Z) : bool := (200 <=? status) && (status <? 300).

Definition postJSON {T} (decode : string → result T) (endpoint body : string) : IO T :=
  _ ← lift_result (NewRequest endpoint);
  reply ← http_post endpoint body;
  match reply with
  | NoReply => fail (ErrMsg "post")
  | Answer status answer _ =>
      if success status then wrap "decode response" (lift_result (decode answer))
      else
        let said := decode_api_error answer in
        let said := if String.eqb said "" then status_line status else said in
        fail (ErrMsg (endpoint +:+ ": " +:+ trim_space said))
  end.

Definition refresh (coordinatorURL : string) (privateKey : list Z) (nodeID : string) (now : Z) : IO tokenResponse :=
  req ← lift_result (SignRefresh node_Sign rfc3339 privateKey nodeID now);
  postJSON decode_token (coordinatorURL +:+ "/v1/node/token/refresh") (marshal_refresh req).

(** ** Login *)

Record LoginOptions := { lo_DataDir : string; lo_CoordinatorURL : string; lo_InviteToken : string }.
Record Result := { lr_Credentials : Credentials; lr_Registered : bool; lr_Refreshed : bool }.

Context `{!Unicode} (getenv : string → string) (userConfigDir : result string).
Context (goos goarch hostname : string).

(** The schedule of the fleet, for a node without one of its own. *)
Definition fleet_schedule (registered : registerResponse) (cfg : Config) : IO Config :=
  match rs_FleetSchedule registered with
  | None => mret cfg
  | Some s =>
      override ← HasScheduleOverride getenv userConfigDir (cg_DataDir cfg);
      mret (if negb override && negb (String.eqb (fs_From s) "") && negb (String.eqb (fs_Until s) "")
            then cfg <| cg_ScheduleFrom := fs_From s |> <| cg_ScheduleUntil := fs_Until s |>
            else cfg)
  end.

(** Without an invite: the stored credentials with a new token. *)
Definition login_again (opts : LoginOptions) (cfg : Config) (privateKey : list Z) : IO Result :=
  creds ← LoadCredentials (cg_DataDir cfg);
  let creds := if String.eqb (lo_CoordinatorURL opts) "" then creds else creds <| cr_CoordinatorURL := lo_CoordinatorURL opts |> in
  now ← gets w_now;
  refreshed ← refresh (cg_CoordinatorURL cfg) privateKey (cr_NodeID creds) now;
  let creds := creds <| cr_AccessToken := tr_AccessToken refreshed |>
                     <| cr_AccessTokenExpiresAt := tr_AccessTokenExpiresAt refreshed |> in
  _ ← Save userConfigDir cfg;
  _ ← SaveCredentials (cg_DataDir cfg) creds;
  mret {| lr_Credentials := creds; lr_Registered := false; lr_Refreshed := true |}.

(** With one: registration, and the bootstrap token for an access token. *)
Definition login_first (opts : LoginOptions) (cfg : Config) (publicKey : string) : IO Result :=
  let fingerprint := HardwareFingerprintHash goos goarch hostname in
  registered ← postJSON decode_register (cg_CoordinatorURL cfg +:+ "/v1/node/register")
    (marshal_register {| rq_InviteToken := lo_InviteToken opts; rq_PublicKey := publicKey;
                         rq_HardwareFingerprintHash := fingerprint |});
  cfg ← fleet_schedule registered cfg;
  token ← postJSON decode_token (cg_CoordinatorURL cfg +:+ "/v1/node/token")
    (marshal_token {| tq_NodeID := rs_NodeID registered; tq_BootstrapToken := rs_BootstrapToken registered |});
  let creds := {| cr_NodeID := rs_NodeID registered; cr_CoordinatorURL := cg_CoordinatorURL cfg; cr_PublicKey := publicKey;
                  cr_AccessToken := tr_AccessToken token; cr_AccessTokenExpiresAt := tr_AccessTokenExpiresAt token;
                  cr_HardwareFingerprintHash := fingerprint |} in
  _ ← Save userConfigDir cfg;
  _ ← SaveCredentials (cg_DataDir cfg) creds;
  mret {| lr_Credentials := creds; lr_Registered := true; lr_Refreshed := false |}.

Definition Login (generated : result (list Z * list Z)) (opts : LoginOptions) : IO Result :=
  cfg ← Load getenv userConfigDir (lo_DataDir opts);
  let cfg := if String.eqb (lo_CoordinatorURL opts) "" then cfg else cfg <| cg_CoordinatorURL := lo_CoordinatorURL opts |> in
  if String.eqb (cg_CoordinatorURL cfg) ""
  then fail (ErrMsg "coordinator URL is required; pass --coordinator or set THIRDSHIFT_COORDINATOR_URL")
  else
    _ ← wrap "invalid coordinator URL" (lift_result (ParseRequestURI (cg_CoordinatorURL cfg)));
    key ← LoadOrCreateKey generated (cg_DataDir cfg);
    let '(privateKey, publicKey) := key in
    if String.eqb (lo_InviteToken opts) "" then login_again opts cfg privateKey else login_first opts cfg publicKey.

(** ** Renewal while the agent runs *)

Record RefreshOptions := { ro_CoordinatorURL : string; ro_NodeID : string; ro_PrivateKey : list Z; ro_DataDir : string }.

Definition RefreshAccessToken (opts : RefreshOptions) : IO (string * Z) :=
  now ← gets w_now;
  refreshed ← refresh (ro_CoordinatorURL opts) (ro_PrivateKey opts) (ro_NodeID opts) now;
  _ ← (if String.eqb (ro_DataDir opts) "" then mret tt
       else
         stored ← try (LoadCredentials (ro_DataDir opts));
         match stored with
         | Ok creds =>
             ignore_err (SaveCredentials (ro_DataDir opts)
               (creds <| cr_AccessToken := tr_AccessToken refreshed |>
                      <| cr_AccessTokenExpiresAt := tr_AccessTokenExpiresAt refreshed |>))
         | Err _ => mret tt
         end);
  mret (tr_AccessToken refreshed, tr_AccessTokenExpiresAt refreshed).
End identity.
