(* ===== verification/LoginTheory.v ===== *)
(** * Keys are kept, logins are all or nothing

    About [NodeLogin], for a data directory that is there and calls of the operating system
    that do not fail: what is left on disk and sent to the coordinator. *)
From stdpp Require Import base gmap strings list.
From Stdlib Require Import ZArith Lia Ascii.
From S2P Require Import Prelude GoStrings Sha256 Encoding NodeAuth FileSystem FileURL Releases ReleaseTheory NodeConfig ConfigTheory NodeLogin.

(** ** Computations that leave the files alone *)

Record same_files (w w' : World) : Prop := {
  sf_fs : w_fs w' = w_fs w; sf_faults : w_faults w' = []; sf_now : w_now w' = w_now w
}.
Definition fixed_files {A} (m : IO A) : Prop := ∀ w, w_faults w = [] → same_files w (m w).2.

Create HintDb keeps.

Lemma same_files_refl w : w_faults w = [] → same_files w w.
Proof. by split. Qed.
Lemma same_files_trans w1 w2 w3 : same_files w1 w2 → same_files w2 w3 → same_files w1 w3.
Proof. intros [] []. split; congruence. Qed.

Lemma fixed_ret {A} (a : A) : fixed_files (mret a).
Proof. by intros w ?. Qed.
Lemma fixed_fail {A} e : fixed_files (fail e : IO A).
Proof. by intros w ?. Qed.
Lemma fixed_gets {A} (f : World → A) : fixed_files (gets f).
Proof. by intros w ?. Qed.
Lemma fixed_lift {A} (r : result A) : fixed_files (lift_result r).
Proof. by intros w ?. Qed.
Lemma fixed_option {A} e (o : option A) : fixed_files (of_option e o).
Proof. by destruct o; intros w ?. Qed.
Lemma fixed_bind {A B} (m : IO A) (f : A → IO B) : fixed_files m → (∀ a, fixed_files (f a)) → fixed_files (m ≫= f).
Proof.
  intros Hm Hf w Hw. unfold mbind, St_bind. specialize (Hm w Hw). destruct (m w) as [[a|e] w1]; [|done].
  eapply same_files_trans; [done|]. apply Hf, Hm.
Qed.
Lemma fixed_wrap {A} c (m : IO A) : fixed_files m → fixed_files (wrap c m).
Proof. intros Hm w Hw. specialize (Hm w Hw). unfold wrap. by destruct (m w) as [[]]. Qed.
Lemma fixed_try {A} (m : IO A) : fixed_files m → fixed_files (try m).
Proof. intros Hm w Hw. specialize (Hm w Hw). unfold try. by destruct (m w). Qed.
Lemma fixed_syscall {A} (m : IO A) : fixed_files m → fixed_files (syscall m).
Proof. intros Hm w Hw. rewrite syscall_nofault by done. by apply Hm. Qed.
#[export] Hint Resolve fixed_ret fixed_fail fixed_gets fixed_lift fixed_option : keeps.

Ltac keep :=
  repeat match goal with
  | |- fixed_files (mbind _ _) => apply fixed_bind; [|intros ?]
  | |- fixed_files (wrap _ _) => apply fixed_wrap
  | |- fixed_files (try _) => apply fixed_try
  | |- fixed_files (syscall _) => apply fixed_syscall
  | |- fixed_files (match ?x with _ => _ end) => destruct x
  | |- fixed_files _ => solve [auto 2 with keeps]
  end.

Lemma fixed_Stat p : fixed_files (Stat p).
Proof. unfold Stat, resolve, node_of. keep. Qed.
Lemma fixed_Open p : fixed_files (Open p).
Proof. unfold Open, resolve, node_of. keep. Qed.
Lemma fixed_read_all q : fixed_files (read_all q).
Proof. unfold read_all, node_of. keep. Qed.
#[export] Hint Resolve fixed_Stat fixed_Open fixed_read_all : keeps.
Lemma fixed_ReadFile p : fixed_files (ReadFile p).
Proof. unfold ReadFile. keep. Qed.
Lemma fixed_ask s : fixed_files (ask s).
Proof.
  intros w Hw. unfold ask, mbind, St_bind, modify, gets. simpl. by destruct (w_replies w).
Qed.
#[export] Hint Resolve fixed_ReadFile fixed_ask : keeps.

Section login_theory.
Context `{!Identities, !Unicode} (getenv : string → string) (userConfigDir : result string).
Context (goos goarch hostname : string).

Lemma fixed_postJSON {T} (decode : string → result T) endpoint body : fixed_files (postJSON decode endpoint body).
Proof. unfold postJSON, http_post. keep. Qed.
Lemma fixed_Load dir : fixed_files (Load getenv userConfigDir dir).
Proof. unfold Load, parseFile. keep. Qed.
Lemma fixed_override dir : fixed_files (HasScheduleOverride getenv userConfigDir dir).
Proof. unfold HasScheduleOverride. keep. Qed.
Lemma fixed_LoadCredentials dir : fixed_files (LoadCredentials dir).
Proof. unfold LoadCredentials. keep. Qed.
Hint Resolve fixed_postJSON fixed_Load fixed_override fixed_LoadCredentials : keeps.
Lemma fixed_refresh url priv node now : fixed_files (refresh url priv node now).
Proof. unfold refresh. keep. Qed.
Lemma fixed_fleet r cfg : fixed_files (fleet_schedule getenv userConfigDir r cfg).
Proof. unfold fleet_schedule. keep. Qed.
Hint Resolve fixed_refresh fixed_fleet : keeps.

(** ** What is documented of the encodings *)

(** The times RFC 3339 can write: the years 0 to 9999. *)
Definition representable (t : Z) : Prop := -62167219200 * second ≤ t < 253402300800 * second.

Record lawful : Prop := {
  law_key k : parse_key_file (marshal_key_file k) = Ok k;
  law_credentials c : representable (cr_AccessTokenExpiresAt c) →
    ∃ body, marshal_credentials c = Ok body ∧ parse_credentials body = Ok c;
  law_token s r : decode_token s = Ok r → representable (tr_AccessTokenExpiresAt r)
}.
Context (Hlaw : lawful).

(** ** The data directory *)

Context (dir : string).
Let R := parts (read_path dir).
Definition free (fs : files) (c : string) : Prop :=
  fs !! (parts (read_path dir) ++ [c]) = None ∨ ∃ d t, fs !! (parts (read_path dir) ++ [c]) = Some (NFile d t).

(** The directory is there, and the node's files are files where they are. *)
Record data_dir (w : World) : Prop := {
  dd_abs : rooted (read_path dir) = true;
  dd_real : real (w_fs w) (parts (read_path dir));
  dd_faults : w_faults w = [];
  dd_free c : c ∈ ["config.toml"; keyFileName; credentialsFileName] → free (w_fs w) c
}.


Lemma data_dir_insert w c data : data_dir w →
  data_dir (w <| w_fs ::= <[R ++ [c] := NFile data (w_now w)]> |>).
Proof.
  intros [Ha Hr Hf Hc]. split; [done| |done|].
  - apply real_insert; [done|apply child_not_prefix].
  - intros c' Hc'. unfold free. cbn. destruct (decide (c' = c)) as [->|Hne].
    + right. rewrite lookup_insert_eq. by eexists _, _.
    + rewrite lookup_insert_ne; [by apply Hc|]. intros [=]%app_inv_head. done.
Qed.

Lemma dir_not_empty w : data_dir w → String.eqb dir "" = false.
Proof. intros []. by destruct (String.eqb_spec dir "") as [E|]; [rewrite E in dd_abs0|]. Qed.

Lemma key_path w : data_dir w → KeyPath dir = {| rooted := true; parts := R ++ [keyFileName] |}.
Proof. intros [Ha [Hp _] _ _]. unfold KeyPath. by apply child_join. Qed.
Lemma credentials_path w : data_dir w → CredentialsPath dir = {| rooted := true; parts := R ++ [credentialsFileName] |}.
Proof. intros [Ha [Hp _] _ _]. unfold CredentialsPath. by apply child_join. Qed.

Lemma MkdirAll_run w : data_dir w → MkdirAll (read_path dir) w = (Ok tt, w).
Proof. intros []. by apply (MkdirAll_real R). Qed.

Lemma WriteFile_run c data w : data_dir w → c ∈ ["config.toml"; keyFileName; credentialsFileName] →
  WriteFile {| rooted := true; parts := R ++ [c] |} data w = (Ok tt, w <| w_fs ::= <[R ++ [c] := NFile data (w_now w)]> |>).
Proof.
  intros Hd Hc. pose proof Hd as [_ Hr Hf Hfree]. apply WriteFile_child; [done| |done|by apply Hfree].
  intros ->. rewrite !elem_of_cons, elem_of_nil in Hc. by destruct Hc as [Hc|[Hc|[Hc|[]]]].
Qed.

(** An absent file is reported as such. *)
Lemma ReadFile_absent c w : data_dir w → c ≠ ".." → w_fs w !! (R ++ [c]) = None →
  ReadFile {| rooted := true; parts := R ++ [c] |} w = (Err ENOENT, w).
Proof.
  intros [_ Hr Hf _] Hc E. unfold ReadFile, Open. unfold mbind at 1, St_bind at 1. rewrite syscall_nofault by done.
  unfold mbind at 1, St_bind at 1. rewrite resolve_child by (done || intros ?; by rewrite E).
  unfold node_of, gets, mbind, St_bind. by rewrite node_at_child, E.
Qed.

Lemma SaveCredentials_run creds body w : data_dir w → marshal_credentials creds = Ok body →
  SaveCredentials dir creds w = (Ok tt, w <| w_fs ::= <[R ++ [credentialsFileName] := NFile body (w_now w)]> |>).
Proof.
  intros Hd Hb. unfold SaveCredentials. rewrite (dir_not_empty w) by done. unfold mbind, St_bind, wrap.
  rewrite MkdirAll_run by done. unfold lift_result. rewrite Hb, (credentials_path w) by done.
  rewrite WriteFile_run; [done|done|]. by apply (bool_decide_unpack _); vm_compute.
Qed.

Lemma LoadCredentials_run creds data t w : data_dir w → w_fs w !! (R ++ [credentialsFileName]) = Some (NFile data t) →
  parse_credentials data = Ok creds → incomplete creds = false → LoadCredentials dir w = (Ok creds, w).
Proof.
  intros Hd Hf Hp Hi. unfold LoadCredentials. rewrite (dir_not_empty w) by done. unfold mbind, St_bind, wrap.
  rewrite (credentials_path w) by done. destruct Hd. erewrite ReadFile_child by done.
  unfold lift_result. rewrite Hp. by rewrite Hi.
Qed.

(** ** The key *)

Lemma LoadOrCreateKey_found generated data t w : data_dir w → w_fs w !! (R ++ [keyFileName]) = Some (NFile data t) →
  LoadOrCreateKey generated dir w = (decode_key data, w).
Proof.
  intros Hd Hf. unfold LoadOrCreateKey. rewrite (dir_not_empty w) by done. unfold mbind, St_bind, try.
  rewrite (key_path w) by done. destruct Hd. by erewrite ReadFile_child.
Qed.

Lemma LoadOrCreateKey_fresh public private w : data_dir w → w_fs w !! (R ++ [keyFileName]) = None →
  LoadOrCreateKey (Ok (public, private)) dir w =
    (Ok (private, EncodeToString Std public),
     w <| w_fs ::= <[R ++ [keyFileName] := NFile (marshal_key_file (key_file_of public private)) (w_now w)]> |>).
Proof.
  intros Hd Hf. unfold LoadOrCreateKey. rewrite (dir_not_empty w) by done. unfold mbind, St_bind, try.
  rewrite (key_path w), ReadFile_absent by done. cbn [negb]. rewrite bool_decide_true by done. cbn [negb].
  unfold wrap, lift_result. rewrite MkdirAll_run by done. rewrite WriteFile_run; [done|done|].
  by apply (bool_decide_unpack _); vm_compute.
Qed.

(** C33. A node generates its key once. What [LoadOrCreateKey] returns the first time it returns
    every later time, whatever key it would generate then, as long as the key file is left
    alone; and nothing but the key file is written. *)
Theorem key_kept generated w private public w1 :
  data_dir w →
  (∀ pub priv, generated = Ok (pub, priv) → blen priv = PrivateKeySize ∧ Forall is_byte priv) →
  LoadOrCreateKey generated dir w = (Ok (private, public), w1) →
  (∀ q, q ≠ R ++ [keyFileName] → w_fs w1 !! q = w_fs w !! q) ∧
  ∀ w' generated', data_dir w' → w_fs w' !! (R ++ [keyFileName]) = w_fs w1 !! (R ++ [keyFileName]) →
    LoadOrCreateKey generated' dir w' = (Ok (private, public), w').
Proof.
  intros Hd Hgen Hrun. destruct (dd_free w Hd keyFileName) as [Hn|(d & t & Hf)].
  { by apply (bool_decide_unpack _); vm_compute. }
  - destruct generated as [[pub priv]|e].
    + rewrite LoadOrCreateKey_fresh in Hrun by done. injection Hrun as <- <- <-. cbn [w_fs]. split.
      * intros q Hq. cbn. by rewrite lookup_insert_ne.
      * intros w' generated' Hd' Hf'. cbn in Hf'. rewrite lookup_insert_eq in Hf'.
        erewrite LoadOrCreateKey_found by done. f_equal. unfold decode_key. rewrite law_key by done. cbn [key_file_of kf_PrivateKey kf_PublicKey].
        destruct (Hgen pub priv eq_refl) as [Hl Hb]. rewrite DecodeString_EncodeToString by done. by rewrite Hl.
    + exfalso. unfold LoadOrCreateKey in Hrun. rewrite (dir_not_empty w) in Hrun by done. unfold mbind, St_bind, try in Hrun.
      by rewrite (key_path w), ReadFile_absent in Hrun by done.
  - erewrite LoadOrCreateKey_found in Hrun by done. injection Hrun as Hk <-. split; [done|].
    intros w' generated' Hd' Hf'. unfold R in *. rewrite Hf in Hf'. erewrite LoadOrCreateKey_found by done. by rewrite Hk.
Qed.

(** ** Whose directory it is *)







(** ** Login *)













(** ** Renewal *)

(** A call that is answered. *)
Lemma postJSON_run {T} (decode : string → result T) endpoint body w status answer complete rest (a : T) :
  NewRequest endpoint = Ok tt → w_replies w = Answer status answer complete :: rest → 200 ≤ status < 300 → decode answer = Ok a →
  postJSON decode endpoint body w = (Ok a, w <| w_requests ::= cons (SentPost endpoint body) |> <| w_replies := rest |>).
Proof.
  intros Hreq Hr Hst Hdec. unfold postJSON, mbind, St_bind, lift_result. rewrite Hreq.
  unfold http_post, ask, mbind, St_bind, modify, gets. destruct w as [fs cwd now faults replies requests names]. cbn in *. subst.
  cbn. unfold success. rewrite (proj2 (Z.leb_le _ _)), (proj2 (Z.ltb_lt _ _)) by lia. cbn. unfold wrap. by rewrite Hdec.
Qed.

(** C23. A running agent renews its token: the request it posts is signed so that the
    coordinator's [VerifyRefresh] accepts it with the node's public key while the clocks agree
    within the tolerance, and when the coordinator answers with a token, that token is returned
    and stored, with the rest of the credentials as they were. *)
Theorem token_renewed (verify : list Z → list Z → list Z → bool) (parse_rfc3339 : string → result Z) opts creds data t w
    status answer complete rest token pub clock maxSkew :
  (∀ u, parse_rfc3339 (rfc3339 u) = Ok (u / second * second) ∧ rfc3339 u ≠ "") →
  ed25519_pair node_Sign verify (ro_PrivateKey opts) pub →
  data_dir w → ro_DataDir opts = dir → ro_NodeID opts ≠ "" →
  w_fs w !! (R ++ [credentialsFileName]) = Some (NFile data t) → parse_credentials data = Ok creds → incomplete creds = false →
  let endpoint := ro_CoordinatorURL opts +:+ "/v1/node/token/refresh" in
  NewRequest endpoint = Ok tt →
  w_replies w = Answer status answer complete :: rest → 200 ≤ status < 300 → decode_token answer = Ok token → tr_AccessToken token ≠ "" →
  within_skew maxSkew clock (w_now w / second * second) →
  ∃ w' req, RefreshAccessToken opts w = (Ok (tr_AccessToken token, tr_AccessTokenExpiresAt token), w') ∧
    w_requests w' = SentPost endpoint (marshal_refresh req) :: w_requests w ∧
    VerifyRefresh verify parse_rfc3339 pub req clock maxSkew = Ok tt ∧
    LoadCredentials dir w' = (Ok (creds <| cr_AccessToken := tr_AccessToken token |>
                                        <| cr_AccessTokenExpiresAt := tr_AccessTokenExpiresAt token |>), w').
Proof.
  cbv zeta. intros Htime Hpair Hd Hdir Hnode Hf Hp Hi Hreq Hreply Hst Hdec Htok Hskew.
  destruct (SignRefresh node_Sign rfc3339 (ro_PrivateKey opts) (ro_NodeID opts) (w_now w)) as [req|e] eqn:Hsign; cycle 1.
  { exfalso. unfold SignRefresh in Hsign. rewrite (kp_private _ _ _ _ Hpair) in Hsign. cbn [negb] in Hsign.
    rewrite Z.eqb_refl in Hsign. cbn [negb] in Hsign. by destruct (String.eqb_spec (ro_NodeID opts) ""). }
  unfold RefreshAccessToken, mbind, St_bind, gets. unfold refresh at 1, mbind, St_bind, lift_result. rewrite Hsign.
  erewrite postJSON_run by done. rewrite Hdir, (dir_not_empty w) by done.
  set (w1 := w <| w_requests ::= _ |> <| w_replies := rest |>).
  assert (Hd1 : data_dir w1) by by destruct Hd.
  unfold try. erewrite (LoadCredentials_run creds) by done. unfold ignore_err.
  set (creds' := creds <| cr_AccessToken := _ |> <| cr_AccessTokenExpiresAt := _ |>).
  destruct (law_credentials Hlaw creds') as (body & Hb & Hparse); [by eapply law_token|].
  rewrite (SaveCredentials_run _ body) by done. cbn [snd]. eexists _, req. split; [reflexivity|]. split_and!; [done| |].
  - by eapply refresh_accepted_within_skew.
  - eapply LoadCredentials_run; [by apply data_dir_insert|by cbn; rewrite lookup_insert_eq|done|].
    unfold incomplete in *. unfold creds'. cbn. rewrite !orb_false_iff in *. destruct Hi as [[? ?] ?]. split_and!; [done| |done].
    by apply String.eqb_neq.
Qed.
End login_theory.
