(* ===== verification/AgentSession.v ===== *)
(** * The sessions of a running agent

    [internal/node/session/backoff.go] and the part of [internal/node/agent/agent.go] between
    the start of the agent and the operations of [Agent.v]: the access token of a session, the
    dial, the handshake, the loop that serves a session, and the loop that reconnects. The
    agent's disk and its calls to the coordinator are those of [NodeLogin.v]. *)
From stdpp Require Import base gmap strings list.
From Stdlib Require Import ZArith Lia SpecFloat Ascii.
From S2P Require Import Prelude GoStrings Float64 NodeState Schedule Protocol Agent NodeAuth FileSystem FileURL NodeConfig NodeLogin.

(** ** Backoff *)

Record Backoff := { bo_Base : Z; bo_Max : Z; bo_Jitter : float64 }.

(** [int64(x)] of a finite value: towards zero. *)
Definition trunc_to_Z (x : float64) : Z :=
  match x with
  | S754_finite s m e =>
      let r := if 0 <=? e then Z.pos m * 2 ^ e else Z.pos m / 2 ^ (- e) in
      if s : bool then - r else r
  | _ => 0
  end.

(** [for i := 0; i < attempt && delay < maxDelay; i++]. *)
Fixpoint doubled (attempt : nat) (delay maxDelay : Z) : Z :=
  match attempt with
  | O => delay
  | S n =>
      if delay <? maxDelay then
        let delay := wrap64 (delay * 2) in
        if maxDelay <? delay then maxDelay else doubled n delay maxDelay
      else delay
  end.

Definition backoff_base (b : Backoff) : Z := if bo_Base b <=? 0 then Second else bo_Base b.
Definition backoff_max (b : Backoff) : Z := if bo_Max b <=? 0 then 60 * Second else bo_Max b.
Definition backoff_jitter (b : Backoff) : float64 :=
  let jitter := if fle (bo_Jitter b) (float_of_Z 0) then float_of_ratio 2 10 else bo_Jitter b in
  if flt (float_of_Z 1) jitter then float_of_Z 1 else jitter.

(** [spread] and the delay before the jitter. *)
Definition backoff_delay (b : Backoff) (attempt : Z) : Z := doubled (Z.to_nat attempt) (backoff_base b) (backoff_max b).
Definition backoff_spread (b : Backoff) (attempt : Z) : Z :=
  trunc_to_Z (fmul (float_of_Z (backoff_delay b attempt)) (backoff_jitter b)).

(** [rand] is [rand.Int64N]. *)
Definition Delay (rand : Z → Z) (b : Backoff) (attempt : Z) : Z :=
  let delay := backoff_delay b attempt in
  let spread := backoff_spread b attempt in
  if spread <=? 0 then delay
  else
    let got := delay + (rand (spread * 2 + 1) - spread) in
    if got <? 0 then 0
    else if backoff_max b <? got then backoff_max b
    else got.

(** ** The coordinator, seen from the agent *)

(** The first message after [node.hello]. *)
Inductive Greeting :=
  | GreetError (e : gerror)
  | GreetInvalid (e : gerror)
  | GreetOther (type : string)
  | GreetMalformed (e : gerror)
  | GreetAccepted (nodeID sessionID : string).

(** What happens during a session: a tick of the heartbeat; an offer, the start of its job and
    its end; another message, or a failed read; an operation of another goroutine; the end of
    the process. *)
Inductive LoopEvent :=
  | LpTick (tele : option GPUStatus)
  | LpOffer (offer : JobOfferPayload)
  | LpStart
  | LpFinish (completion : result CompletionResponse)
  | LpMessage (type : string)
  | LpRead (e : gerror)
  | LpOther (e : Event)
  | LpDone.

(** What a dial meets: no connection, with the status of a refused upgrade; or a connection,
    whether [node.hello] could be written, and the rest. *)
Inductive Dial :=
  | DialRefused (status : option Z) (e : gerror)
  | DialOpen (hello : result unit) (greeting : Greeting) (first : option GPUStatus) (events : list LoopEvent).

Record Session := {
  sn_disk : World;
  sn_agent : Agent.World;
  sn_token : string;
  sn_expires : Z;
  sn_dials : list Dial;
  sn_dialled : list (string * string);    (* endpoint and token of the dials made, latest first *)
  sn_stopped : bool;                      (* the context is cancelled *)
  sn_waits : list Z                       (* the delays waited for, latest first *)
}.
#[export] Instance Session_eta : Eta Session := λ s,
  {| sn_disk := sn_disk s; sn_agent := sn_agent s; sn_token := sn_token s; sn_expires := sn_expires s;
     sn_dials := sn_dials s; sn_dialled := sn_dialled s; sn_stopped := sn_stopped s; sn_waits := sn_waits s |}.

(** A computation on the disk, one on the agent, and an operation of the agent. *)
Definition on_disk {A} (m : IO A) : St Session A := λ s,
  let '(r, d) := m (sn_disk s) in (r, s <| sn_disk := d |>).
Definition with_agent {A} (m : St Agent.World A) : St Session A := λ s,
  let '(r, a) := m (sn_agent s) in (r, s <| sn_agent := a |>).

(** [url.Parse] and [URL.String] with the query dropped, on the parts that matter here. *)
Class SessionURL := { split_url : string → option URL; join_url : URL → string }.

Section session.
Context `{!Identities, !SessionURL}.
Context (o : Options) (sign : JobCompletedPayload → result NodeSignature).
Context (coordinatorURL dataDir : string) (privateKey : option (list Z)).
Context (backoff : Backoff) (rand : Z → Z).

Definition sessionURL (base : string) : result string :=
  match split_url base with
  | None => Err (ErrMsg "parse coordinator URL")
  | Some parsed =>
      let path := trim_right_byte (url_Path parsed) "/"%char +:+ "/v1/node/session" in
      let at_ (scheme : string) := Ok (join_url {| url_Scheme := scheme; url_Host := url_Host parsed; url_Path := path |}) in
      let scheme := url_Scheme parsed in
      if String.eqb scheme "http" then at_ "ws"
      else if String.eqb scheme "https" then at_ "wss"
      else if String.eqb scheme "ws" || String.eqb scheme "wss" then at_ scheme
      else Err (ErrMsg "coordinator URL must use http, https, ws, or wss")
  end.

(** ** The access token *)

Definition accessTokenRefreshBuffer : Z := 10 * minute.

(** Whether the token in hand will do. *)
Definition token_will_do (token : string) (expires now : Z) : bool :=
  (negb (String.eqb token "") && is_zero_time expires) ||
  (negb (is_zero_time expires) && (now + accessTokenRefreshBuffer <? expires)).

Definition ensureAccessToken (force : bool) : St Session unit :=
  match privateKey with
  | None => mret tt
  | Some key =>
      if String.eqb (o_NodeID o) "" then mret tt
      else
        s ← gets id;
        if negb force && token_will_do (sn_token s) (sn_expires s) (w_now (sn_disk s)) then mret tt
        else
          renewed ← wrap "refresh access token" (on_disk (RefreshAccessToken {|
            ro_CoordinatorURL := coordinatorURL; ro_NodeID := o_NodeID o; ro_PrivateKey := key; ro_DataDir := dataDir |}));
          modify (λ s, s <| sn_token := renewed.1 |> <| sn_expires := renewed.2 |>)
  end.

(** ** The dial *)

Definition dialSession (endpoint : string) : St Session Dial :=
  s ← gets id;
  _ ← modify (λ s, s <| sn_dialled ::= cons (endpoint, sn_token s) |>);
  match sn_dials s with
  | [] => mret (DialRefused None (ErrMsg "no route to host"))
  | d :: rest => _ ← modify (λ s, s <| sn_dials := rest |>); mret d
  end.

(** A dial that a renewed token may still save. *)
Definition unauthorized (d : Dial) : option gerror :=
  match d with DialRefused (Some status) e => if status =? 401 then Some e else None | _ => None end.

(** Both dials of [runSession]. *)
Definition connect (endpoint : string) : St Session Dial :=
  _ ← ensureAccessToken false;
  d ← dialSession endpoint;
  match unauthorized d with
  | Some e =>
      refreshed ← try (ensureAccessToken true);
      match refreshed with
      | Err r => fail (ErrMsg ("connect websocket: " +:+ error_string e +:+ " (token refresh also failed: " +:+ error_string r +:+ ")"))
      | Ok _ => dialSession endpoint
      end
  | None => mret d
  end.

(** ** A session *)

(** The messages the node knows but does not act on. *)
Definition ignored_messages : list string :=
  ["job.cancel"; "node.config.updated"; "model.assign"; "model.unload"; "node.drain"; "runtime.update.available"].

(** One event of a session: [None] while it goes on, [Some None] when it ends quietly. *)
Definition loop_event (e : LoopEvent) : St Session (option (option gerror)) :=
  let ends (m : St Agent.World unit) : St Session (option (option gerror)) :=
    r ← try (with_agent m);
    mret (match r with Ok _ => None | Err e => Some (Some e) end) in
  match e with
  | LpTick tele => ends (sendHeartbeat o tele)
  | LpOffer offer => ends (offer_claim offer)
  | LpStart => ends offer_start
  | LpFinish completion => ends (offer_finish sign completion)
  | LpMessage type =>
      if bool_decide (type ∈ ignored_messages) then mret None
      else mret (Some (Some (ErrMsg ("unsupported coordinator message " +:+ type))))
  | LpRead e => mret (Some (Some e))
  | LpOther e => _ ← modify (λ s, s <| sn_agent ::= agent_event o sign e |>); mret None
  | LpDone => _ ← modify (λ s, s <| sn_stopped := true |>); mret (Some None)
  end.

(** [for { select { ... } }]; when the events are over the connection is. *)
Fixpoint serve (events : list LoopEvent) : St Session unit :=
  match events with
  | [] => fail (ErrMsg "EOF")
  | e :: rest =>
      ended ← loop_event e;
      match ended with
      | None => serve rest
      | Some None => mret tt
      | Some (Some e) => fail e
      end
  end.

(** The answer to [node.hello]: the session's identifier. *)
Definition greeted (g : Greeting) : result string :=
  match g with
  | GreetError e => Err (ErrWrap "read session.accepted" e)
  | GreetInvalid e => Err e
  | GreetOther type => Err (ErrMsg ("expected session.accepted, got " +:+ type))
  | GreetMalformed e => Err (ErrWrap "decode session.accepted" e)
  | GreetAccepted nodeID sessionID =>
      if String.eqb nodeID (o_NodeID o) then Ok sessionID
      else Err (ErrMsg ("session accepted for node " +:+ nodeID +:+ ", want " +:+ o_NodeID o))
  end.

Definition on_event (e : Event) : St Session unit := modify (λ s, s <| sn_agent ::= agent_event o sign e |>).

Definition runSession : St Session unit :=
  endpoint ← lift_result (sessionURL coordinatorURL);
  d ← connect endpoint;
  match d with
  | DialRefused _ e => fail (ErrWrap "connect websocket" e)
  | DialOpen hello greeting first events =>
      _ ← lift_result hello;
      sessionID ← lift_result (greeted greeting);
      _ ← on_event (EvConnected sessionID);
      _ ← with_agent (sendHeartbeat o first);
      serve events
  end.

(** ** Reconnecting *)

(** A round of the loop: whether the process ends while its session is opened or served (in
    addition to an [LpStop] the session sees), what other goroutines do in the wait after it, and
    whether the process ends in the wait. *)
Record Wait := { wt_ended : bool; wt_events : list Event; wt_cancelled : bool }.

Definition on_events (l : list Event) : St Session unit := for_each on_event l.

(** [Run] from [attempt := 0] on, over its waits: whether it has returned. *)
Fixpoint run_loop (attempt : Z) (waits : list Wait) : St Session bool :=
  stopped ← gets sn_stopped;
  if stopped : bool then _ ← on_event EvShutdown; _ ← on_event EvDisconnected; mret true
  else
    match waits with
    | [] => mret false
    | w :: rest =>
        r ← try runSession;
        _ ← (if wt_ended w then modify (λ s, s <| sn_stopped := true |>) else mret tt);
        _ ← on_event EvDisconnected;
        stopped ← gets sn_stopped;
        if stopped : bool then _ ← on_event EvShutdown; mret true
        else
          _ ← match r with Err e => on_event (EvError (error_string e)) | Ok _ => mret tt end;
          let delay := Delay rand backoff attempt in
          _ ← modify (λ s, s <| sn_waits ::= cons delay |>);
          _ ← on_events (wt_events w);
          if wt_cancelled w then _ ← modify (λ s, s <| sn_stopped := true |>); _ ← on_event EvShutdown; mret true
          else
            _ ← on_event (EvTime (Z.quot delay 1000));
            _ ← modify (λ s, s <| sn_disk ::= λ d, d <| w_now ::= λ t, t + Z.quot delay 1000 |> |>);
            run_loop (attempt + 1) rest
    end.

(** [Run]: preparation, and sessions until the process ends. [prepare] is what the runtime
    provider's [Prepare] answers, [meanwhile] what other goroutines do until then. *)
Definition on_start (f : Agent → result unit * Agent) : St Session unit :=
  with_agent (λ w, let '(r, a) := f (w_agent w) in (r, w <| w_agent := a |>)).

Definition Run (meanwhile : list Event) (prepare : result RuntimeStatus) (waits : list Wait) : St Session bool :=
  _ ← on_disk (wrap "create data dir" (MkdirAll (read_path dataDir)));
  _ ← on_start run_begin;
  _ ← on_events meanwhile;
  _ ← on_start (run_ready prepare);
  run_loop 0 waits.
End session.
