(* ===== verification/ReconnectTheory.v ===== *)
(** * How an agent keeps its session

    About [AgentSession]: the waits between sessions, what a run may do to the agent, how it
    ends, and the recovery from an expired token. *)
From stdpp Require Import base gmap strings list.
From Stdlib Require Import ZArith Lia SpecFloat.
From S2P Require Import Prelude GoStrings Float64 NodeState Schedule Protocol Agent NodeAuth FileSystem FileURL NodeConfig NodeLogin AgentSession.

(** ** Waits *)

Lemma backoff_base_pos b : 0 < backoff_base b.
Proof. unfold backoff_base, Second. case_match; lia. Qed.
Lemma backoff_max_pos b : 0 < backoff_max b.
Proof. unfold backoff_max, Second. case_match; lia. Qed.

(** The delay doubles up to its maximum. *)
Lemma doubled_min n d m : 0 < d ≤ m → m < 2 ^ 62 → doubled n d m = Z.min (d * 2 ^ Z.of_nat n) m.
Proof.
  intros Hd Hm. revert d Hd. induction n as [|n IH]; intros d Hd; [cbn; lia|].
  cbn [doubled]. rewrite Nat2Z.inj_succ, Z.pow_succ_r by lia. pose proof (Z.pow_pos_nonneg 2 (Z.of_nat n)).
  destruct (Z.ltb_spec d m).
  - rewrite wrap64_id by (unfold in_int64; lia). destruct (Z.ltb_spec m (d * 2)).
    + rewrite Z.min_r; [done|]. nia.
    + rewrite IH by lia. f_equal. lia.
  - rewrite Z.min_r; [lia|]. nia.
Qed.

Definition fair (rand : Z → Z) : Prop := ∀ n, 0 < n → 0 ≤ rand n < n.

Lemma Delay_spread rand b attempt :
  fair rand → 0 ≤ backoff_delay b attempt ≤ backoff_max b → backoff_spread b attempt ≤ backoff_delay b attempt →
  backoff_delay b attempt - Z.max 0 (backoff_spread b attempt) ≤ Delay rand b attempt ≤
    Z.min (backoff_max b) (backoff_delay b attempt + Z.max 0 (backoff_spread b attempt)).
Proof.
  intros Hr Hd Hs. unfold Delay. set (d := backoff_delay b attempt) in *. set (s := backoff_spread b attempt) in *.
  pose proof (backoff_max_pos b). destruct (Z.leb_spec s 0); [lia|]. specialize (Hr (s * 2 + 1) ltac:(lia)).
  destruct (Z.ltb_spec (d + (rand (s * 2 + 1) - s)) 0); [lia|].
  destruct (Z.ltb_spec (backoff_max b) (d + (rand (s * 2 + 1) - s))); lia.
Qed.

(** The backoff of an agent: one second, at most a minute, a fifth of jitter. *)
Definition default_backoff : Backoff := {| bo_Base := 0; bo_Max := 0; bo_Jitter := S754_zero false |}.

Lemma default_delay attempt : 0 ≤ attempt → backoff_delay default_backoff attempt = Z.min (Second * 2 ^ attempt) (60 * Second).
Proof.
  intros Ha. unfold backoff_delay. change (backoff_base default_backoff) with Second. change (backoff_max default_backoff) with (60 * Second).
  rewrite doubled_min by (unfold Second; lia). by rewrite Z2Nat.id.
Qed.

Lemma default_late attempt : 6 ≤ attempt → backoff_delay default_backoff attempt = 60 * Second.
Proof.
  intros Ha. rewrite default_delay by lia. apply Z.min_r.
  assert (2 ^ 6 ≤ 2 ^ attempt) by (apply Z.pow_le_mono_r; lia). unfold Second in *. change (2 ^ 6) with 64 in *. lia.
Qed.

Lemma default_waits rand attempt : fair rand → 0 ≤ attempt →
  let d := Z.min (Second * 2 ^ attempt) (60 * Second) in
  d - d / 5 ≤ Delay rand default_backoff attempt ≤ Z.min (60 * Second) (d + d / 5).
Proof.
  intros Hr Ha d. assert (Hd : backoff_delay default_backoff attempt = d) by by apply default_delay.
  assert (Hs : backoff_spread default_backoff attempt = d / 5).
  { unfold backoff_spread. rewrite Hd. unfold d. destruct (decide (6 ≤ attempt)) as [Hl|Hl].
    - rewrite <-default_delay, default_late by lia. vm_compute. reflexivity.
    - assert (attempt = 0 ∨ attempt = 1 ∨ attempt = 2 ∨ attempt = 3 ∨ attempt = 4 ∨ attempt = 5) as Hc by lia.
      destruct_or!; subst; vm_compute; reflexivity. }
  assert (0 ≤ d ≤ 60 * Second).
  { unfold d, Second. pose proof (Z.pow_nonneg 2 attempt). lia. }
  pose proof (Z.div_pos d 5 ltac:(lia) ltac:(lia)). pose proof (Z.div_le_upper_bound d 5 d ltac:(lia) ltac:(lia)).
  pose proof (Delay_spread rand default_backoff attempt Hr) as Hb. rewrite Hd, Hs in Hb.
  change (backoff_max default_backoff) with (60 * Second) in Hb. rewrite Z.max_r in Hb by done. by apply Hb.
Qed.

Section run.
Context `{!Identities, !SessionURL}.
Context (o : Options) (sign : JobCompletedPayload → result NodeSignature).
Context (coordinatorURL dataDir : string) (privateKey : option (list Z)).
Context (backoff : Backoff) (rand : Z → Z).

Notation loop := (run_loop o sign coordinatorURL dataDir privateKey backoff rand).
Notation session := (runSession o sign coordinatorURL dataDir privateKey).
Notation run := (Run o sign coordinatorURL dataDir privateKey backoff rand).

(** ** Waits of a run *)

Lemma leaves_disk {T} (f : Session → T) {A} (m : IO A) : (∀ s d, f (s <| sn_disk := d |>) = f s) → leaves f (on_disk m).
Proof. intros Hf s. unfold on_disk. destruct (m (sn_disk s)). apply Hf. Qed.
Lemma leaves_agent {T} (f : Session → T) {A} (m : St Agent.World A) :
  (∀ s d, f (s <| sn_agent := d |>) = f s) → leaves f (with_agent m).
Proof. intros Hf s. unfold with_agent. destruct (m (sn_agent s)). apply Hf. Qed.

Ltac keepit :=
  repeat (progress solve_leaves || match goal with
  | |- leaves _ (on_disk _) => apply leaves_disk; by intros [] ?
  | |- leaves _ (with_agent _) => apply leaves_agent; by intros [] ?
  | |- leaves _ (on_event _ _ _) => unfold on_event
  end).

Lemma serve_waits events : leaves sn_waits (serve o sign events).
Proof. induction events as [|e l IH]; cbn [serve]; [done|]. unfold loop_event. keepit; done. Qed.

Lemma session_waits : leaves sn_waits session.
Proof. unfold runSession, connect, ensureAccessToken, dialSession. keepit; apply serve_waits. Qed.

(** What a run waits: the delays of the attempts [attempt], [attempt + 1], … *)
Definition waited (attempt : Z) (k : nat) : list Z := (λ i, Delay rand backoff (attempt + Z.of_nat i)) <$> seq 0 k.

Lemma on_event_run e s : on_event o sign e s = (Ok tt, s <| sn_agent ::= agent_event o sign e |>).
Proof. done. Qed.

Definition after (l : list Event) (w : Agent.World) : Agent.World := foldl (λ w e, agent_event o sign e w) w l.

Lemma on_events_run l s : on_events o sign l s = (Ok tt, s <| sn_agent ::= after l |>).
Proof.
  revert s. induction l as [|e l IH]; intros s; [by destruct s|]. unfold on_events in *. cbn [for_each].
  unfold mbind, St_bind. rewrite on_event_run, IH. by destruct s.
Qed.

(** The agent and the time after a wait. *)
Definition waiting (attempt : Z) (r : result unit) (l : list Event) (s : Session) : Session :=
  s <| sn_agent ::= λ w, after l (match r with
         | Err e => agent_event o sign (EvError (error_string e)) (agent_event o sign EvDisconnected w)
         | Ok _ => agent_event o sign EvDisconnected w end) |>
    <| sn_waits ::= cons (Delay rand backoff attempt) |>.
Definition woken (attempt : Z) (s : Session) : Session :=
  s <| sn_agent ::= agent_event o sign (EvTime (Z.quot (Delay rand backoff attempt) 1000)) |>
    <| sn_disk ::= λ d, d <| w_now ::= λ t, t + Z.quot (Delay rand backoff attempt) 1000 |> |>.
Definition shut (s : Session) : Session := s <| sn_agent ::= agent_event o sign EvShutdown |>.

Definition ended (w : Wait) (s : Session) : Session := if wt_ended w then s <| sn_stopped := true |> else s.
Lemma ended_agent w s : sn_agent (ended w s) = sn_agent s.
Proof. unfold ended. by destruct (wt_ended w). Qed.
Lemma ended_waits w s : sn_waits (ended w s) = sn_waits s.
Proof. unfold ended. by destruct (wt_ended w). Qed.

(** One round of the loop. *)
Lemma loop_round attempt waits s :
  loop attempt waits s =
    if sn_stopped s then (Ok true, s <| sn_agent ::= λ w, agent_event o sign EvDisconnected (agent_event o sign EvShutdown w) |>)
    else
      match waits with
      | [] => (Ok false, s)
      | w :: rest =>
          let '(r, s0) := session s in
          let s1 := ended w s0 in
          if sn_stopped s1 then (Ok true, shut (s1 <| sn_agent ::= agent_event o sign EvDisconnected |>))
          else
            let s2 := waiting attempt r (wt_events w) s1 in
            if wt_cancelled w then (Ok true, shut (s2 <| sn_stopped := true |>))
            else loop (attempt + 1) rest (woken attempt s2)
      end.
Proof.
  destruct waits as [|w rest]; cbn [run_loop]; unfold mbind, St_bind, gets.
  { by destruct s as [? ? ? ? ? ? [] ?]. }
  destruct (sn_stopped s); [by destruct s|]. unfold try. destruct (session s) as [r s0]. cbv zeta.
  assert (He : (if wt_ended w then modify (λ s, s <| sn_stopped := true |>) else mret tt) s0 = (Ok tt, ended w s0))
    by (unfold ended; by destruct (wt_ended w)).
  rewrite He. clear He. set (s1 := ended w s0). clearbody s1. rewrite on_event_run.
  change (sn_stopped (s1 <| sn_agent ::= agent_event o sign EvDisconnected |>)) with (sn_stopped s1).
  destruct (sn_stopped s1); [done|]. destruct r as [u|e]; cbn [mret St_ret]; rewrite ?on_event_run; unfold modify;
    rewrite on_events_run; destruct (wt_cancelled w); rewrite ?on_event_run; by destruct s1.
Qed.

Lemma loop_waits waits attempt s : ∃ k, sn_waits (loop attempt waits s).2 = reverse (waited attempt k) ++ sn_waits s.
Proof.
  revert attempt s. induction waits as [|w rest IH]; intros attempt s; rewrite loop_round.
  - exists 0%nat. by destruct (sn_stopped s).
  - destruct (sn_stopped s); [by exists 0%nat|]. pose proof (session_waits s) as Hs. destruct (session s) as [r s0].
    cbn [snd] in Hs. cbv zeta. rewrite <-(ended_waits w) in Hs. set (s1 := ended w s0) in *. clearbody s1. destruct (sn_stopped s1); [by exists 0%nat|].
    assert (Hw : sn_waits (waiting attempt r (wt_events w) s1) = Delay rand backoff attempt :: sn_waits s) by by rewrite <-Hs.
    destruct (wt_cancelled w); [exists 1%nat|].
    + unfold waited. cbn. rewrite Z.add_0_r. exact Hw.
    + destruct (IH (attempt + 1) (woken attempt (waiting attempt r (wt_events w) s1))) as [k Hk]. exists (S k).
      rewrite Hk. change (sn_waits (woken attempt _)) with (sn_waits (waiting attempt r (wt_events w) s1)). rewrite Hw.
      unfold waited. cbn [seq fmap list_fmap]. rewrite reverse_cons, <-app_assoc, Z.add_0_r. f_equal. f_equal.
      rewrite <-fmap_S_seq, <-list_fmap_compose. apply list_fmap_ext. intros i x _. cbn. f_equal. lia.
Qed.

Lemma Run_waits meanwhile prepare waits s :
  ∃ k, sn_waits (run meanwhile prepare waits s).2 = reverse (waited 0 k) ++ sn_waits s.
Proof.
  unfold Run. assert (Hk : ∀ {A} (m : St Session A) (g : A → St Session bool) s, leaves sn_waits m →
    (∀ a s, ∃ k, sn_waits (g a s).2 = reverse (waited 0 k) ++ sn_waits s) → ∃ k, sn_waits ((m ≫= g) s).2 = reverse (waited 0 k) ++ sn_waits s).
  { intros A m g s' Hm Hg. unfold mbind, St_bind. specialize (Hm s'). destruct (m s') as [[a|e] s1]; cbn [snd] in *.
    - rewrite <-Hm. apply Hg.
    - exists 0%nat. cbn. by rewrite Hm. }
  apply Hk; [keepit|]. intros _ s1. apply Hk; [unfold on_start; keepit|]. intros _ s2.
  apply Hk; [unfold on_events; keepit|]. intros _ s3. apply Hk; [unfold on_start; keepit|]. intros _ s4. apply loop_waits.
Qed.

(** ** What a run does to the agent *)

Section agent_property.
Context (P : Agent.World → Prop) (HP : ∀ e w, P w → P (agent_event o sign e w)).
Notation ok := (λ s, P (sn_agent s)).

Lemma agent_disk {A} (m : IO A) : preserves ok (on_disk m).
Proof. intros s Hs. unfold on_disk. by destruct (m (sn_disk s)). Qed.
Lemma agent_op (m : St Agent.World unit) e : (∀ w, (m w).2 = agent_event o sign e w) → preserves ok (with_agent m).
Proof. intros Hm s Hs. unfold with_agent. specialize (Hm (sn_agent s)). destruct (m (sn_agent s)) as [r w]. cbn in *. subst. by apply HP. Qed.
Lemma agent_on_event e : preserves ok (on_event o sign e).
Proof. intros s Hs. by apply HP. Qed.

Lemma agent_serve events : preserves ok (serve o sign events).
Proof.
  induction events as [|e l IH]; cbn [serve]; [apply preserves_fail|]. apply preserves_bind; [|intros [[e'|]|]; [apply preserves_fail|apply preserves_ret|done]].
  assert (Hends : ∀ m ev, (∀ w, (m w).2 = agent_event o sign ev w) →
    preserves ok (r ← try (with_agent m); mret (match r : result unit with Ok _ => None | Err e => Some (Some e) end))).
  { intros m ev Hm. apply preserves_bind; [by eapply preserves_try, agent_op|intros; apply preserves_ret]. }
  destruct e as [tele|offer| |completion|type|e|e|]; cbn [loop_event].
  - exact (Hends _ (EvHeartbeat tele) (λ w, eq_refl)).
  - exact (Hends _ (EvOffer offer) (λ w, eq_refl)).
  - exact (Hends _ EvOfferStart (λ w, eq_refl)).
  - exact (Hends _ (EvFinish completion) (λ w, eq_refl)).
  - case_match; apply preserves_ret.
  - apply preserves_ret.
  - apply preserves_bind; [|intros; apply preserves_ret]. intros s Hs. by apply HP.
  - apply preserves_bind; [|intros; apply preserves_ret]. by intros s Hs.
Qed.

Lemma agent_session : preserves ok session.
Proof.
  assert (Htoken : ∀ force, preserves ok (ensureAccessToken o coordinatorURL dataDir privateKey force)).
  { intros force. unfold ensureAccessToken. repeat first [apply agent_disk | apply preserves_wrap | apply preserves_bind; [|intros]
      | apply preserves_ret | apply preserves_gets | by intros s Hs | case_match]. }
  assert (Hdial : ∀ endpoint, preserves ok (dialSession endpoint)).
  { intros endpoint. unfold dialSession. repeat first [apply preserves_bind; [|intros] | apply preserves_ret | apply preserves_gets | by intros s Hs | case_match]. }
  unfold runSession, connect.
  repeat first [apply agent_serve | apply agent_on_event | apply Htoken | apply Hdial | apply preserves_try | apply preserves_bind; [|intros]
    | apply preserves_ret | apply preserves_fail | apply preserves_lift | refine (agent_op _ (EvHeartbeat _) (λ w, eq_refl)) | case_match].
Qed.

Lemma agent_after l w : P w → P (after l w).
Proof. revert w. induction l as [|e l IH]; intros w Hw; [done|]. cbn. by apply IH, HP. Qed.

Lemma agent_loop attempt waits : preserves ok (loop attempt waits).
Proof.
  revert attempt. induction waits as [|w rest IH]; intros attempt s Hs; rewrite loop_round.
  - destruct (sn_stopped s); [|done]. exact (HP EvDisconnected _ (HP EvShutdown _ Hs)).
  - destruct (sn_stopped s); [exact (HP EvDisconnected _ (HP EvShutdown _ Hs))|].
    pose proof (agent_session s Hs) as H1. destruct (session s) as [r s0]. change (P (sn_agent s0)) in H1.
    cbv zeta. rewrite <-(ended_agent w) in H1. set (s1 := ended w s0) in *. clearbody s1.
    destruct (sn_stopped s1); [exact (HP EvShutdown _ (HP EvDisconnected _ H1))|].
    assert (H2 : P (sn_agent (waiting attempt r (wt_events w) s1))).
    { change (P (after (wt_events w) (match r with
        | Err e => agent_event o sign (EvError (error_string e)) (agent_event o sign EvDisconnected (sn_agent s1))
        | Ok _ => agent_event o sign EvDisconnected (sn_agent s1) end))).
      apply agent_after. destruct r; [exact (HP EvDisconnected _ H1)|exact (HP (EvError _) _ (HP EvDisconnected _ H1))]. }
    destruct (wt_cancelled w); [exact (HP EvShutdown _ H2)|]. apply IH. exact (HP (EvTime _) _ H2).
Qed.
End agent_property.

(** ** A node that has left the unregistered state never returns to it *)

Definition registered (a : Agent) : Prop := ag_state a ≠ Unregistered.

Lemma registered_force to a : to ≠ Unregistered → registered a → registered (forceStateLocked to a).
Proof. intros Ht Ha. unfold registered, forceStateLocked. cbn. by destruct (forceState_cases (ag_state a) to) as [->| ->]. Qed.
Lemma registered_transition to a : to ≠ Unregistered → registered a → registered (transition to a).2.
Proof. intros Ht Ha. unfold transition. by repeat case_match. Qed.

Create HintDb registered.
#[local] Hint Resolve registered_force registered_transition : registered.
#[local] Hint Extern 1 (_ ≠ Unregistered) => discriminate : registered.
Ltac reg := repeat case_match; try assumption; eauto with registered.

Lemma registered_drain a : registered a → registered (thermal_drain a).
Proof. intros Ha. unfold thermal_drain. reg. Qed.
Lemma registered_cancel a : registered a → registered (call_cancel a).
Proof. intros Ha. unfold call_cancel. by case_match. Qed.
#[local] Hint Resolve registered_drain registered_cancel : registered.
Lemma registered_guard a : registered a → registered (guard_switch a).
Proof. intros Ha. unfold guard_switch. reg. Qed.
Lemma registered_unload op now a : registered a → registered (pause_idle_unload op now a).
Proof. intros Ha. unfold pause_idle_unload. by repeat case_match. Qed.
#[local] Hint Resolve registered_guard registered_unload : registered.
Lemma registered_evaluate op gpu reason now a : registered a → registered (evaluateGuards op gpu reason now a).2.
Proof.
  intros Ha. unfold evaluateGuards. set (a1 := a <| ag_scheduleState := _ |> <| ag_thermalState := _ |>).
  assert (H1 : registered (pause_idle_unload op now (guard_switch a1))) by (apply registered_unload, registered_guard; exact Ha).
  by destruct (_ || _).
Qed.
Lemma registered_claim offer now a : registered a → registered (claimJob offer now a).2.
Proof. intros Ha. unfold claimJob. by repeat case_match. Qed.
Lemma registered_release now a : registered a → registered (releaseJob now a).
Proof.
  intros Ha. unfold releaseJob. set (a1 := a <| ag_activeJobID := _ |> <| ag_activeJobCancel := _ |>).
  assert (H1 : registered a1) by exact Ha.
  assert (H2 : registered (if ag_pauseRequested a1 then forceStateLocked Paused (a1 <| ag_pausedAt := Some now |>)
    else if bool_decide (ag_scheduleState a1 = StateOutOfWindow) || thermally_blocked (ag_thermalState a1) then forceStateLocked Idle a1
    else match ag_state a1 with Busy | Draining => forceStateLocked Available a1 | _ => a1 end)).
  { case_match; [by apply registered_force|]. reg. }
  exact H2.
Qed.
Lemma registered_pause now a : registered a → registered (control_pause now a).
Proof. intros Ha. unfold control_pause. repeat case_match; try done; by apply registered_force. Qed.
Lemma registered_resume a : registered a → registered (resume_begin a).2.
Proof. intros Ha. unfold resume_begin. repeat case_match; try done. by apply registered_force. Qed.
Lemma registered_prepared p a : registered a → registered (resume_prepared p a).2.
Proof. intros Ha. destruct p; [exact Ha|]. by apply registered_transition. Qed.
Lemma registered_settle a : registered a → registered (resume_settle a).
Proof. intros Ha. apply (registered_force (if _ : bool then Idle else Available)); [by case_match|done]. Qed.

Notation reg_world := (λ w : Agent.World, registered (w_agent w)).
Lemma registered_write msg : preserves reg_world (writeEnvelope msg).
Proof. intros w Hw. unfold writeEnvelope. by destruct (w_wire w) as [|[] ?]. Qed.
Lemma registered_write_opt {A} (f : A → Message) m : preserves reg_world (write_opt f m).
Proof. destruct m; [apply registered_write|apply preserves_ret]. Qed.
Lemma registered_on f : (∀ a, registered a → registered (f a)) → preserves reg_world (on_agent f).
Proof. intros Hf w Hw. by apply Hf. Qed.

Lemma registered_heartbeat op tele : preserves reg_world (sendHeartbeat op tele).
Proof.
  unfold sendHeartbeat. repeat first [apply registered_write | apply registered_write_opt | apply preserves_gets
    | apply registered_on; first [exact (λ _ Ha, Ha) | exact (λ _, registered_evaluate _ _ _ _ _)] | apply preserves_bind; [|intros]].
Qed.

Lemma registered_start : preserves reg_world offer_start.
Proof.
  intros w Hw. unfold offer_start. destruct (w_running w) as [rj|]; [|done]. destruct (rj_started rj); [done|].
  assert (H1 : preserves reg_world (offer_sends (rj_offer rj) (Agent.w_now w))).
  { unfold offer_sends. apply preserves_bind; [|intros]; apply registered_write. }
  specialize (H1 w Hw). destruct (offer_sends (rj_offer rj) (Agent.w_now w) w) as [[u|e] w']; [exact H1|]. by apply registered_release.
Qed.

Lemma registered_monitor op tele : preserves reg_world (monitor_tick op tele).
Proof.
  intros w Hw. unfold monitor_tick. destruct (w_running w) as [rj|], tele as [gpu|]; try done.
  destruct (_ || _); [done|]. destruct (_ || _); [done|].
  set (w1 := w <| w_agent ::= _ |>). assert (H1 : registered (w_agent w1)) by by apply (registered_force Draining).
  exact (registered_write (MsgSafetyEvent _) w1 H1).
Qed.

Lemma registered_finish completion : preserves reg_world (offer_finish sign completion).
Proof.
  intros w Hw. unfold offer_finish. destruct (w_running w) as [rj|]; [|done]. destruct (negb _); [done|].
  set (msg := job_report _ _ _ _ _). pose proof (registered_write msg w Hw) as H1. destruct (writeEnvelope msg w) as [r w1].
  by apply registered_release.
Qed.

Lemma registered_offer offer : preserves reg_world (offer_claim offer).
Proof.
  intros w Hw. unfold offer_claim. pose proof (registered_claim offer (Agent.w_now w) (w_agent w) Hw) as H1.
  destruct (claimJob offer (Agent.w_now w) (w_agent w)) as [[rs|reason] a]; [exact H1|]. by apply registered_write.
Qed.

Lemma registered_event e w : registered (w_agent w) → registered (w_agent (agent_event o sign e w)).
Proof.
  intros Hw. destruct e as [tele|offer| |tele|completion| | |p| |sid| |m| |d]; cbn [agent_event].
  - by apply registered_heartbeat.
  - by apply registered_offer.
  - by apply registered_start.
  - by apply registered_monitor.
  - by apply registered_finish.
  - by apply registered_pause.
  - unfold world_resume. pose proof (registered_resume _ Hw) as H1. by destruct (resume_begin (w_agent w)) as [[[]|] a].
  - unfold world_prepared. destruct (w_preparing w); [done|]. pose proof (registered_prepared p _ Hw) as H1.
    destruct (resume_prepared p (w_agent w)) as [r a]. by destruct (is_ok r).
  - unfold world_settle. destruct (w_settling w); [done|]. by apply registered_settle.
  - done.
  - done.
  - done.
  - by apply registered_transition.
  - done.
Qed.

(** Stopping an agent that is registered takes it offline. *)
Lemma shutdown_offline w : registered (w_agent w) → ag_state (w_agent (agent_event o sign EvShutdown w)) = Offline.
Proof.
  intros Hw. cbn. unfold transition, Transition, registered in *.
  assert (CanTransition (ag_state (w_agent w)) Offline = true) as -> by by destruct (ag_state (w_agent w)). done.
Qed.

Lemma loop_offline attempt waits s r s' : registered (w_agent (sn_agent s)) →
  loop attempt waits s = (r, s') → r = Ok true → ag_state (w_agent (sn_agent s')) = Offline.
Proof.
  revert attempt s. induction waits as [|w rest IH]; intros attempt s Hs Hrun Hr; rewrite loop_round in Hrun; subst r.
  - destruct (sn_stopped s); [|done]. injection Hrun as <-. exact (shutdown_offline _ Hs).
  - destruct (sn_stopped s); [injection Hrun as <-; exact (shutdown_offline _ Hs)|].
    pose proof (agent_session reg_world registered_event s Hs) as H1. destruct (session s) as [r s0].
    change (registered (w_agent (sn_agent s0))) in H1. cbv zeta in Hrun. rewrite <-(ended_agent w) in H1.
    set (s1 := ended w s0) in *. clearbody s1.
    destruct (sn_stopped s1); [injection Hrun as <-; exact (shutdown_offline _ (registered_event EvDisconnected _ H1))|].
    assert (H2 : registered (w_agent (sn_agent (waiting attempt r (wt_events w) s1)))).
    { change (registered (w_agent (after (wt_events w) (match r with
        | Err e => agent_event o sign (EvError (error_string e)) (agent_event o sign EvDisconnected (sn_agent s1))
        | Ok _ => agent_event o sign EvDisconnected (sn_agent s1) end)))).
      apply (agent_after reg_world registered_event). by destruct r. }
    destruct (wt_cancelled w); [injection Hrun as <-; exact (shutdown_offline _ H2)|].
    eapply IH; [|exact Hrun|done]. exact (registered_event (EvTime _) _ H2).
Qed.

(** What a loop that returns has seen, and when it returns. *)
Lemma loop_stopped attempt waits s b s' : loop attempt waits s = (Ok b, s') → b = sn_stopped s'.
Proof.
  revert attempt s. induction waits as [|w rest IH]; intros attempt s; rewrite loop_round; destruct (sn_stopped s) eqn:Es.
  - by intros [= <- <-].
  - by intros [= <- <-].
  - by intros [= <- <-].
  - destruct (session s) as [r s0]. cbv zeta. set (s1 := ended w s0). clearbody s1.
    destruct (sn_stopped s1) eqn:E1; [by intros [= <- <-]|]. destruct (wt_cancelled w); [by intros [= <- <-]|]. apply IH.
Qed.

(** The rounds in which the process ends. *)
Definition stops_in (w : Wait) : bool := wt_ended w || wt_cancelled w.

Lemma loop_returns attempt waits s : sn_stopped s || existsb stops_in waits = true → (loop attempt waits s).1 = Ok true.
Proof.
  revert attempt s. induction waits as [|w rest IH]; intros attempt s; rewrite loop_round; destruct (sn_stopped s) eqn:Es; [done..|].
  cbn [orb existsb]. intros Hc. destruct (session s) as [r s0]. cbv zeta. unfold ended. unfold stops_in at 1 in Hc.
  destruct (wt_ended w); [done|]. destruct (sn_stopped s0); [done|]. destruct (wt_cancelled w); [done|].
    cbn [orb] in Hc. apply IH. by rewrite Hc, orb_true_r.
Qed.

Lemma registered_on_start f : (∀ a, registered a → registered (f a).2) → preserves (λ s, registered (w_agent (sn_agent s))) (on_start f).
Proof.
  intros Hf s Hs. unfold on_start, with_agent. specialize (Hf _ Hs). by destruct (f (w_agent (sn_agent s))).
Qed.

(** Before its loop a run neither dials nor stops. *)
Lemma started_fields m : (∃ l, m = on_events o sign l) ∨ (∃ f, m = on_start f) ∨ (∃ n : IO unit, m = on_disk n) →
  leaves sn_stopped m ∧ leaves sn_dialled m.
Proof.
  intros [[l ->]|[[f ->]|[n ->]]]; (split; intros s).
  1, 2: by rewrite on_events_run.
  1, 2: by unfold on_start, with_agent; destruct (f (w_agent (sn_agent s))).
  all: by unfold on_disk; destruct (n (sn_disk s)).
Qed.

(** A run up to its loop: it fails on the way, or the loop starts from a state in which the
    process has ended if it had before, and nothing was dialled. *)
Lemma Run_start meanwhile prepare waits s : registered (w_agent (sn_agent s)) →
  ∃ s1, registered (w_agent (sn_agent s1)) ∧ sn_stopped s1 = sn_stopped s ∧ sn_dialled s1 = sn_dialled s ∧
    ((∃ e, run meanwhile prepare waits s = (Err e, s1)) ∨
     is_ok prepare = true ∧ run meanwhile prepare waits s = loop 0 waits s1).
Proof.
  assert (Hbegin : ∀ a, registered a → registered (run_begin a).2).
  { intros a Ha. unfold run_begin. pose proof (registered_transition Starting a ltac:(done) Ha) as H1.
    destruct (transition Starting a) as [[u|e] a1]; [by apply registered_transition|done]. }
  assert (Hready : ∀ a, registered a → registered (run_ready prepare a).2).
  { intros a Ha. unfold run_ready. destruct prepare; [by apply registered_transition|]. by apply (registered_transition Error). }
  set (Q := λ (m : St Session bool), ∀ s, registered (w_agent (sn_agent s)) →
    ∃ s1, registered (w_agent (sn_agent s1)) ∧ sn_stopped s1 = sn_stopped s ∧ sn_dialled s1 = sn_dialled s ∧
      ((∃ e, m s = (Err e, s1)) ∨ is_ok prepare = true ∧ m s = loop 0 waits s1)).
  assert (HQ : ∀ (m : St Session unit) (g : unit → St Session bool), preserves (λ s, registered (w_agent (sn_agent s))) m →
    leaves sn_stopped m ∧ leaves sn_dialled m → (∀ a s s1, m s = (Ok a, s1) → Q (g a)) → Q (m ≫= g)).
  { intros m g Hm [Hf Hd] Hg s0 Hs0. unfold mbind, St_bind. specialize (Hm s0 Hs0). specialize (Hf s0). specialize (Hd s0).
    destruct (m s0) as [[a|e] s2] eqn:E; cbn [snd] in *.
    - destruct (Hg a _ _ E s2 Hm) as (s1 & H1 & E1 & E2 & H3). exists s1. rewrite E1, E2. by split_and!.
    - exists s2. split_and!; [done..|]. left. by exists e. }
  revert s. change (Q (run meanwhile prepare waits)). unfold Run.
  apply HQ; [apply (agent_disk reg_world)|apply started_fields; eauto|intros _ _ _ _].
  apply HQ; [by apply registered_on_start|apply started_fields; eauto|intros _ _ _ _].
  apply HQ; [|apply started_fields; eauto|intros _ _ _ _].
  - intros s Hs. rewrite on_events_run. exact (agent_after reg_world registered_event meanwhile _ Hs).
  - apply HQ; [by apply registered_on_start|apply started_fields; eauto|].
    intros [] s s1 Hr s2 H2. exists s2. split_and!; [done..|]. right. split; [|done].
    unfold on_start, with_agent, run_ready in Hr. by destruct prepare.
Qed.

(** C21. A run that is stopped ends offline. Once the model is prepared, [Run] returns without an
    error exactly when the process has ended, and then the node is in the state OFFLINE; and it
    does return when the process ends in a round of its loop: while the session is dialled,
    renews its token, is greeted or served, however it fails, or in the wait after it. A run
    whose preparation fails, which is also what a stop during the preparation does, is not
    stopped in this way: it returns an error and has dialled nothing (the node is then not
    OFFLINE but, unless something else happened meanwhile, in the state ERROR: example
    [stopped_preparing]). *)
Theorem run_ends_offline meanwhile prepare waits s :
  registered (w_agent (sn_agent s)) →
  let '(r, s') := run meanwhile prepare waits s in
  (∀ b, r = Ok b → b = sn_stopped s' ∧ (b = true → ag_state (w_agent (sn_agent s')) = Offline)) ∧
  (is_ok r = true → sn_stopped s || existsb stops_in waits = true → r = Ok true) ∧
  (is_ok prepare = false → is_ok r = false ∧ sn_dialled s' = sn_dialled s).
Proof.
  intros Hs. destruct (Run_start meanwhile prepare waits s Hs) as (s1 & H1 & Hst & Hd & [[e ->]|[Hp ->]]); [done|].
  destruct (loop 0 waits s1) as [r s'] eqn:E. split_and!.
  - intros b ->. split; [by eapply loop_stopped|]. intros ->. by eapply loop_offline.
  - intros _. rewrite <-Hst. intros Hc%(loop_returns 0). by rewrite E in Hc.
  - by rewrite Hp.
Qed.

(** C32. An expired token does not keep a node away. When the coordinator refuses a dial with 401,
    the agent renews its token once and dials again with the new one; if that dial is accepted
    for this node, the session begins as any other, connected and with a heartbeat. *)
Theorem expired_token_recovers key endpoint s e sid first events rest renewed disk :
  sessionURL coordinatorURL = Ok endpoint → privateKey = Some key → o_NodeID o ≠ "" →
  token_will_do (sn_token s) (sn_expires s) (w_now (sn_disk s)) = true →
  sn_dials s = DialRefused (Some 401) e :: DialOpen (Ok tt) (GreetAccepted (o_NodeID o) sid) first events :: rest →
  RefreshAccessToken {| ro_CoordinatorURL := coordinatorURL; ro_NodeID := o_NodeID o; ro_PrivateKey := key; ro_DataDir := dataDir |}
    (sn_disk s) = (Ok renewed, disk) →
  let s1 := s <| sn_dials := rest |> <| sn_dialled ::= λ l, (endpoint, renewed.1) :: (endpoint, sn_token s) :: l |>
              <| sn_disk := disk |> <| sn_token := renewed.1 |> <| sn_expires := renewed.2 |>
              <| sn_agent ::= agent_event o sign (EvConnected sid) |> in
  session s = (_ ← with_agent (sendHeartbeat o first); serve o sign events) s1 ∧
  ag_connected (w_agent (sn_agent s1)) = true ∧ ag_sessionID (w_agent (sn_agent s1)) = sid.
Proof.
  intros Hurl Hkey Hnode Hdo Hdials Hrun. split; [|done]. unfold runSession, mbind at 1, St_bind at 1, lift_result at 1. rewrite Hurl.
  assert (Hn : String.eqb (o_NodeID o) "" = false) by by apply String.eqb_neq.
  destruct s as [d a token expires dials dialled stopped ws]. cbn [sn_disk sn_token sn_expires sn_dials] in *. subst dials.
  unfold connect, ensureAccessToken, dialSession, mbind, St_bind, gets, modify, wrap, on_disk, try, id. rewrite Hkey, Hn.
  cbn. rewrite Hdo. cbn. rewrite Hrun. cbn. by rewrite String.eqb_refl.
Qed.

Lemma lookup_reverse_waited k i d : reverse (reverse (waited 0 k)) !! i = Some d → d = Delay rand backoff (Z.of_nat i).
Proof.
  rewrite reverse_involutive. unfold waited. rewrite list_lookup_fmap. intros Hl.
  destruct (seq 0 k !! i) as [x|] eqn:E; [|done]. apply lookup_seq in E as [-> _]. by injection Hl as <-.
Qed.

(** C38. The waits of a run double from one second to a minute, give or take a fifth, and they
    never start over: the wait after the (i+1)-th session is that of attempt i, however long the
    sessions between lasted, so from the seventh on the agent stays away for at least 48 seconds
    after every loss of its connection. *)
Theorem reconnect_waits meanwhile prepare waits s i d :
  backoff = default_backoff → fair rand → sn_waits s = [] →
  reverse (sn_waits (run meanwhile prepare waits s).2) !! i = Some d →
  let e := Z.min (Second * 2 ^ Z.of_nat i) (60 * Second) in
  e - e / 5 ≤ d ≤ Z.min (60 * Second) (e + e / 5) ∧ ((6 ≤ i)%nat → 48 * Second ≤ d).
Proof.
  intros Hb Hr Hs Hl. destruct (Run_waits meanwhile prepare waits s) as [k Hk]. rewrite Hk, Hs, app_nil_r in Hl.
  apply lookup_reverse_waited in Hl as ->. rewrite Hb. pose proof (default_waits rand (Z.of_nat i) Hr ltac:(lia)) as Hw.
  cbv zeta in *. split; [done|]. intros Hi. rewrite <-default_delay, default_late in Hw by lia. unfold Second in *.
  change (60 * 1000000000 / 5) with 12000000000 in Hw. lia.
Qed.
End run.
