(* ===== verification/CatalogFiles.v ===== *)
(** * The catalog on disk

    [internal/node/models]: the files of the catalog directory and the catalog compiled into
    the binary, and the manifests read from them ([LoadCatalogManifest], [ReadCatalogFile],
    [ParseManifestFile], [LoadSelectableManifests]). The reader itself is [Catalog.v]. *)
From stdpp Require Import base gmap strings list.
From Stdlib Require Import ZArith Lia Ascii.
From S2P Require Import Prelude GoStrings Float64 Catalog FileSystem NodeConfig.

(** [go:embed *.yaml] of [models/catalog]: the names, in order, and the texts; and the license
    texts of [models/licenses]. *)
Class Embedded := { embedded_catalog : list (string * string); embedded_license : string → option string }.

Section files.
Context `{!Embedded, !Unicode} (ParseFloat : string → result float64).

Definition embedded_file (name : string) : option string :=
  snd <$> head (filter (λ f, f.1 = name) embedded_catalog).

(** [bufio.NewScanner] over a text. *)
Definition scanner_of (data : string) : scanner := let '(lines, err) := scan_lines data in {| sc_lines := lines; sc_err := err |}.
Definition parse_text (data : string) : result Manifest := parseManifest ParseFloat Quote (scanner_of data).

(** The text and where it came from. *)
Definition ReadCatalogFile (catalogDir : Path) (name : string) : IO (string * string) :=
  let p := Join catalogDir name in
  read ← try (ReadFile p);
  match read with
  | Ok data => mret (data, path_string p)
  | Err _ =>
      match embedded_file name with
      | Some data => mret (data, "embedded:" +:+ name)
      | None => fail (ErrMsg ("catalog file " +:+ name +:+ " not found on disk (" +:+ path_string p +:+ ") or in the embedded catalog"))
      end
  end.

Definition LoadCatalogManifest (catalogDir : Path) (modelID : string) : IO (Manifest * string) :=
  file ← ReadCatalogFile catalogDir (modelID +:+ ".yaml");
  manifest ← lift_result (parse_text file.1);
  mret (manifest, file.2).

Definition ParseManifestFile (p : Path) : IO Manifest :=
  file ← wrap ("open model manifest " +:+ path_string p) (Open p);
  read ← try (read_all file);
  lift_result (match read with
    | Ok data => parse_text data
    | Err e => parseManifest ParseFloat Quote {| sc_lines := []; sc_err := Some e |}
    end).

(** The entries of a directory that are manifests. *)
Definition manifest_names (entries : list (string * node)) : list string :=
  fst <$> filter (λ e, e.2 ≠ NDir ∧ has_suffix e.1 ".yaml" = true) entries.

Definition catalogManifestNames (catalogDir : Path) : IO (list string) :=
  entries ← try (ReadDir catalogDir);
  let names := match entries with Ok entries => manifest_names entries | Err _ => [] end in
  match names with
  | _ :: _ => mret names
  | [] =>
      match filter (λ n, has_suffix n ".yaml" = true) (fst <$> embedded_catalog) with
      | [] => fail (ErrMsg ("no model manifests found on disk (" +:+ path_string catalogDir +:+ ") or in the embedded catalog"))
      | names => mret names
      end
  end.

(** What is not readable, not parseable or hidden is skipped. *)
Definition selectable (catalogDir : Path) (found : list Manifest) (name : string) : IO (list Manifest) :=
  file ← try (ReadCatalogFile catalogDir name);
  mret (match file with
    | Ok (data, _) =>
        match parse_text data with
        | Ok m => if String.eqb (ListingStatus m) ListingHidden then found else found ++ [m]
        | Err _ => found
        end
    | Err _ => found
    end).

Definition LoadSelectable (catalogDir : Path) : IO (list Manifest) :=
  names ← catalogManifestNames catalogDir;
  fold_st (selectable catalogDir) [] names.
End files.
