(* ===== verification/Launcher.v ===== *)
(** * Starting and stopping the model server

    [internal/node/runtime]: [launcher.go] and [log.go]. What the operating system does with
    the process is a parameter: the port it gives out, whether the process starts, and what is
    seen of it while its health is polled. *)
From stdpp Require Import base gmap strings list.
From Stdlib Require Import ZArith Lia Ascii.
From S2P Require Import Prelude GoStrings FileSystem FileURL Releases NodeConfig.

(** ** The log *)

Record rotatingLogWriter := { lw_path : Path; lw_maxBytes : Z; lw_redactions : list string }.

(** [bytes.ReplaceAll] of a text that is not empty; [skip] bytes belong to a match. *)
Fixpoint replace_from (old new : list ascii) (skip : nat) (l : list ascii) : list ascii :=
  match l with
  | [] => []
  | a :: l' =>
      match skip with
      | S k => replace_from old new k l'
      | O => if bool_decide (old `prefix_of` l) then new ++ replace_from old new (length old - 1) l'
             else a :: replace_from old new 0 l'
      end
  end.
Definition redact_one (data : string) (secret : string) : string :=
  if String.eqb secret "" then data else of_bytes (replace_from (bytes secret) (bytes "[REDACTED]") 0 (bytes data)).
Definition redact (redactions : list string) (data : string) : string := foldl redact_one data redactions.

Section log.
Context (device : location → nat).

(** The path with [".1"] at its end. *)
Definition rotated (p : Path) : Path :=
  {| rooted := rooted p; parts := removelast (parts p) ++ match last (parts p) with Some c => [c +:+ ".1"] | None => [] end |}.

Definition newRotatingLogWriter (p : Path) (maxBytes : Z) (redactions : list string) : IO rotatingLogWriter :=
  _ ← MkdirAll (Dir p);
  mret {| lw_path := p; lw_maxBytes := maxBytes; lw_redactions := redactions |}.

Definition file_length (n : node) : Z := match n with NFile data _ => Z.of_nat (String.length data) | _ => 0 end.

Definition rotateIfNeeded (w : rotatingLogWriter) (nextBytes : Z) : IO unit :=
  if lw_maxBytes w <=? 0 then mret tt
  else
    info ← try (Stat (lw_path w));
    match info with
    | Err e => if bool_decide (e = ENOENT) then mret tt else fail e
    | Ok n =>
        if file_length n + nextBytes <=? lw_maxBytes w then mret tt
        else
          _ ← ignore_err (Remove (rotated (lw_path w)));
          Rename device (lw_path w) (rotated (lw_path w))
    end.

(** [Write]; the number of bytes it reports. *)
Definition log_write (w : rotatingLogWriter) (p : string) : IO Z :=
  let redacted := redact (lw_redactions w) p in
  _ ← rotateIfNeeded w (Z.of_nat (String.length redacted));
  file ← open_write false (lw_path w);
  _ ← write_all file redacted;
  mret (Z.of_nat (String.length p)).
End log.

(** ** The server *)

Record ApprovedArgs := {
  aa_ContextSize : Z; aa_BatchSize : Z; aa_GPULayers : string; aa_Device : string; aa_Parallel : Z; aa_Host : string;
  aa_Port : Z
}.

(** The fields of [LaunchConfig] that are ever set to something but their default. *)
Record LaunchConfig := {
  lc_ExecutablePath : string; lc_ModelPath : string; lc_WorkDir : string; lc_LogDir : string; lc_Args : ApprovedArgs;
  lc_MaxLogBytes : Z; lc_Redactions : list string
}.

Definition defaultMaxLogBytes : Z := 1048576.

Definition buildLlamaArgs (cfg : LaunchConfig) (port : Z) : list string :=
  let a := lc_Args cfg in
  ["--host"; aa_Host a; "--port"; itoa port; "--model"; lc_ModelPath cfg]
  ++ (if 0 <? aa_ContextSize a then ["--ctx-size"; itoa (aa_ContextSize a)] else [])
  ++ (if 0 <? aa_BatchSize a then ["--batch-size"; itoa (aa_BatchSize a)] else [])
  ++ (if String.eqb (aa_GPULayers a) "" then [] else ["--n-gpu-layers"; aa_GPULayers a])
  ++ (if String.eqb (aa_Device a) "" then [] else ["--device"; aa_Device a])
  ++ (if 0 <? aa_Parallel a then ["--parallel"; itoa (aa_Parallel a)] else []).

(** What the loop of [waitForHealth] sees, one look after the other: that the process has
    exited, that the time is up, or the answer of the health check and then a tick. *)
Inductive Look := LookExited (e : option gerror) | LookDeadline | LookHealth (status : option Z).

Definition exited_early (e : option gerror) : gerror :=
  let message := "llama-server process exited before health check passed" in
  match e with Some e => ErrWrap message e | None => ErrMsg message end.
Definition health_timeout : gerror := ErrWrap "llama-server health check timed out" (ErrMsg "context deadline exceeded").

(** The looks end with the deadline. *)
Fixpoint waitForHealth (looks : list Look) : result unit :=
  match looks with
  | [] => Err health_timeout
  | LookExited e :: _ => Err (exited_early e)
  | LookDeadline :: _ => Err health_timeout
  | LookHealth (Some status) :: rest => if (200 <=? status) && (status <? 300) then Ok tt else waitForHealth rest
  | LookHealth None :: rest => waitForHealth rest
  end.

(** The processes of the machine: a free port; what comes of starting a program with arguments
    in a directory, and what is seen of it then. *)
Class Processes := {
  free_loopback_port : World → result Z;
  start_process : string → list string → string → World → result (list Look)
}.

Record RunningRuntime := { rn_BaseURL : string; rn_Port : Z; rn_Executable : string; rn_Arguments : list string }.

(** Whether a started server is stopped again, as an event. *)
Inductive Process := Started (r : RunningRuntime) | Stopped (r : RunningRuntime).

Section server.
Context `{!Processes, !Unicode}.

(** [StartLlamaServer]: the running server, and the processes started and stopped. *)
Definition StartLlamaServer (cfg : LaunchConfig) : IO (result RunningRuntime * list Process) :=
  if String.eqb (lc_ExecutablePath cfg) "" then fail (ErrMsg "runtime executable path is required")
  else if String.eqb (lc_ModelPath cfg) "" then fail (ErrMsg "model path is required")
  else if negb (String.eqb (aa_Host (lc_Args cfg)) "127.0.0.1")
  then fail (ErrMsg ("runtime host " +:+ Quote (aa_Host (lc_Args cfg)) +:+ " is rejected; llama-server must bind to 127.0.0.1"))
  else
    let maxLogBytes := if lc_MaxLogBytes cfg =? 0 then defaultMaxLogBytes else lc_MaxLogBytes cfg in
    let workDir := if String.eqb (lc_WorkDir cfg) "" then path_string (Dir (Clean (read_path (lc_ExecutablePath cfg)))) else lc_WorkDir cfg in
    let logDir := if String.eqb (lc_LogDir cfg) "" then workDir else lc_LogDir cfg in
    free ← gets free_loopback_port;
    port ← (if aa_Port (lc_Args cfg) =? 0 then wrap "choose loopback port" (lift_result free) else mret (aa_Port (lc_Args cfg)));
    _ ← newRotatingLogWriter (Join (read_path logDir) "llama-server.log") maxLogBytes (lc_Redactions cfg);
    let args := buildLlamaArgs cfg port in
    started ← gets (start_process (lc_ExecutablePath cfg) args workDir);
    looks ← wrap "start llama-server" (lift_result started);
    let running := {| rn_BaseURL := "http://127.0.0.1:" +:+ itoa port; rn_Port := port;
                      rn_Executable := lc_ExecutablePath cfg; rn_Arguments := args |} in
    mret (match waitForHealth looks with
      | Ok _ => (Ok running, [Started running])
      | Err e => (Err e, [Started running; Stopped running])
      end).
End server.
