(* ===== verification/LocalRuntime.v ===== *)
(** * The node's own runtime

    [internal/node/agent/local_runtime.go]: [LocalRuntimeProvider], which turns a model id into
    a running server. It composes the catalog ([CatalogFiles.v]), the runtime releases
    ([Releases.v]), the model cache ([ModelCache.v]) and the launcher ([Launcher.v]); what it
    returns is what the agent reports in its heartbeats ([Agent.v]). [internal/node/local/run.go]
    does the same for one prompt. *)
From stdpp Require Import base gmap strings list.
From Stdlib Require Import ZArith Lia Ascii.
From S2P Require Import Prelude GoStrings Float64 Agent Catalog FileSystem FileURL Releases ModelCache NodeConfig CatalogFiles Launcher.

(** [canonicalSHA256]. *)
Definition canonicalSHA256 (value : string) : string :=
  let value := trim_space value in
  if String.eqb value "" then "" else if has_prefix value "sha256:" then value else "sha256:" +:+ value.

(** [parsePort]. *)
Definition parsePort (value : string) : result Z :=
  if String.eqb value "" || String.eqb value "dynamic" then Ok 0
  else match atoi value with
  | Some n => Ok n
  | None => Err (ErrMsg "runtime.arguments.port must be dynamic or an integer")
  end.

Definition defaultModelQuotaBytes : Z := 20 * 1024 * 1024 * 1024.

(** [lp_running]: the server in use. [lp_processes]: what was started and stopped, latest
    first. *)
Record LocalRuntimeProvider := {
  lp_CatalogDir : string; lp_DataDir : string; lp_RuntimeRoot : string; lp_ModelCacheDir : string;
  lp_ModelQuotaBytes : Z; lp_RuntimePublicKey : option (list Z); lp_GPUVendor : string;
  lp_running : option RunningRuntime; lp_processes : list Process
}.
#[export] Instance LocalRuntimeProvider_eta : Eta LocalRuntimeProvider := λ p,
  {| lp_CatalogDir := lp_CatalogDir p; lp_DataDir := lp_DataDir p; lp_RuntimeRoot := lp_RuntimeRoot p;
     lp_ModelCacheDir := lp_ModelCacheDir p; lp_ModelQuotaBytes := lp_ModelQuotaBytes p;
     lp_RuntimePublicKey := lp_RuntimePublicKey p; lp_GPUVendor := lp_GPUVendor p; lp_running := lp_running p;
     lp_processes := lp_processes p |}.

(** The paths and the quota that are not given. *)
Definition with_defaults (p : LocalRuntimeProvider) : LocalRuntimeProvider :=
  let or_default (v d : string) := if String.eqb v "" then d else v in
  let p := p <| lp_CatalogDir ::= λ v, or_default v "models/catalog" |> <| lp_DataDir ::= λ v, or_default v ".thirdshift" |> in
  p <| lp_RuntimeRoot ::= λ v, or_default v (path_string (Join (read_path (lp_DataDir p)) "runtimes")) |>
    <| lp_ModelCacheDir ::= λ v, or_default v (path_string (Join (read_path (lp_DataDir p)) "models")) |>
    <| lp_ModelQuotaBytes ::= λ q, if q =? 0 then defaultModelQuotaBytes else q |>.

Section prepare.
Context `{!Libraries, !SortSlice CacheFile, !Embedded, !Unicode, !Processes}.
Context (lower_table : Z → Z) (device : location → nat) (goos goarch : string) (other_info : node → Z * Z).
Context (ParseFloat : string → result float64).

(** The release of the runtime a manifest names. *)
Definition runtime_release (catalogDir : Path) (name : string) : IO ReleaseManifest :=
  if has_prefix name "/" then LoadReleaseManifest (read_path name)
  else
    file ← ReadCatalogFile catalogDir name;
    lift_result (ParseReleaseManifest file.1 file.2).

Definition LicenseTextFor (identifier : string) : option string :=
  if has_license_text identifier then embedded_license "licenses/llama-3.2-community-license.txt" else None.

(** What is on disk before the server is started: the manifest, the runtime, the model file. *)
Definition fetch_all (p : LocalRuntimeProvider) (modelID : string) : IO (Manifest * InstalledRuntime * Path) :=
  let catalogDir := read_path (lp_CatalogDir p) in
  found ← LoadCatalogManifest ParseFloat catalogDir modelID;
  let manifest := found.1 in
  release ← runtime_release catalogDir (ru_ReleaseManifest (mf_Runtime manifest));
  publicKey ← lift_result (match lp_RuntimePublicKey p with Some key => Ok key | None => DefaultRuntimePublicKey end);
  installed ← Releases.Ensure lower_table device goos goarch
    {| mg_Root := lp_RuntimeRoot p; mg_PublicKey := publicKey; mg_PlatformKey := ""; mg_GPUVendor := lp_GPUVendor p |} release;
  let cache := {| ca_Dir := lp_ModelCacheDir p; ca_QuotaBytes := lp_ModelQuotaBytes p |} in
  let source := mf_Source manifest in
  modelPath ← ModelCache.Ensure device goos other_info cache
    {| ar_URL := so_URL source; ar_SHA256 := so_SHA256 source; ar_SizeBytes := so_SizeBytes source |} (so_SHA256 source);
  _ ← (if lc_DistributeWithModel (mf_License manifest) then
         match LicenseTextFor (lc_Identifier (mf_License manifest)) with
         | None => fail (ErrMsg ("model " +:+ mf_ModelID manifest +:+ " requires license distribution but no vendored text for "
                                +:+ Quote (lc_Identifier (mf_License manifest))))
         | Some text => _ ← EnsureLicense device cache (so_SHA256 source) text; mret tt
         end
       else mret tt);
  mret (manifest, installed, modelPath).

Definition launch_config (p : LocalRuntimeProvider) (manifest : Manifest) (installed : InstalledRuntime) (modelPath : Path)
    (port : Z) : LaunchConfig :=
  let a := ru_Arguments (mf_Runtime manifest) in
  {| lc_ExecutablePath := ir_ExecutablePath installed; lc_ModelPath := path_string modelPath;
     lc_WorkDir := path_string (Dir (Clean (read_path (ir_ExecutablePath installed))));
     lc_LogDir := path_string (Join (read_path (lp_DataDir p)) "logs");
     lc_Args := {| aa_ContextSize := ra_ContextSize a; aa_BatchSize := ra_BatchSize a; aa_GPULayers := ra_GPULayers a;
                   aa_Device := ra_Device a; aa_Parallel := ra_Parallel a; aa_Host := ra_Host a; aa_Port := port |};
     lc_MaxLogBytes := 0; lc_Redactions := [] |}.

(** [Prepare], on the provider and the world. The server in use is stopped once the new one
    answers. *)
Definition Prepare (p : LocalRuntimeProvider) (modelID : string) : IO (result RuntimeStatus * LocalRuntimeProvider) :=
  let p := with_defaults p in
  prepared ← try (
    found ← fetch_all p modelID;
    let '(manifest, installed, modelPath) := found in
    port ← lift_result (parsePort (ra_Port (ru_Arguments (mf_Runtime manifest))));
    started ← StartLlamaServer (launch_config p manifest installed modelPath port);
    mret (manifest, installed, started));
  mret (match prepared with
    | Err e => (Err e, p)
    | Ok (manifest, installed, (Err e, processes)) => (Err e, p <| lp_processes ::= λ l, reverse processes ++ l |>)
    | Ok (manifest, installed, (Ok running, processes)) =>
        let stops := match lp_running p with Some old => [Stopped old] | None => [] end in
        (Ok {| rs_ModelID := mf_ModelID manifest; rs_RuntimeHash := canonicalSHA256 (ir_SHA256 installed);
               rs_ModelHash := canonicalSHA256 (so_SHA256 (mf_Source manifest)); rs_BaseURL := rn_BaseURL running |},
         p <| lp_running := Some running |> <| lp_processes ::= λ l, stops ++ reverse processes ++ l |>)
    end).

Definition Close (p : LocalRuntimeProvider) : LocalRuntimeProvider :=
  p <| lp_running := None |> <| lp_processes ::= λ l, match lp_running p with Some r => Stopped r :: l | None => l end |>.
End prepare.
