(* ===== verification/CatalogSync.v ===== *)
(** * The catalog in the database

    [internal/coordinator/jobs/store.go]: [SyncCatalog], [upsertManifest] and
    [upsertRuntimeArtifacts], which store the manifests of the catalog directory ([Catalog.v],
    [CatalogFiles.v]) and the hashes of the runtime releases they name ([Releases.v]) in the
    tables the job store reads ([JobStore.v]). *)
From stdpp Require Import base gmap strings list.
From Stdlib Require Import ZArith Lia Ascii.
From S2P Require Import Prelude GoStrings Float64 Sha256 Database JobStore Catalog FileSystem FileURL Releases NodeConfig CatalogFiles.

(** ** Conversions *)

Definition rawSHA256 (value : string) : string := trim_prefix value "sha256:".
Definition usdToMicrodollars (value : float64) : Z := round_to_Z (fmul value (float_of_Z 1000000)).
Definition clampRate (value : float64) : float64 :=
  if flt value (float_of_Z 0) then float_of_Z 0 else if flt (float_of_Z 1) value then float_of_Z 1 else value.

(** A [float8] stored in a [numeric] column of so many decimals, as a count of its last digit;
    [None] if it does not fit. *)
Class Numeric := to_numeric : Z → float64 → option Z.

(** ** Upserts *)

(** [INSERT ... ON CONFLICT (...) DO UPDATE ... RETURNING id]: [same] are the rows with the key
    of the conflict. *)
Definition upsert {V} (same : V → bool) (update : V → V) (id : string) (row : V) (tbl : gmap string V) :
    result (string * gmap string V) :=
  match rows_where (λ _, same) tbl with
  | (k, v) :: _ => Ok (k, <[k := update v]> tbl)
  | [] => if fresh_key tbl id then Ok (id, <[id := row]> tbl) else Err (ErrConstraint "pkey")
  end.

Definition upsert_in {V} (get : DB → gmap string V) (set : gmap string V → DB → DB)
    (same : V → bool) (update : V → V) (id : string) (row : V) : St DB string := λ db,
  match upsert same update id row (get db) with
  | Ok (k, tbl) => (Ok k, set tbl db)
  | Err e => (Err e, db)
  end.

Definition catalog_statuses : list string := ["alpha"; "active"; "deprecated"; "disabled"].
Definition in_int4 (z : Z) : bool := (- 2 ^ 31 <=? z) && (z <? 2 ^ 31).

(** [NULLIF($n, '')]. *)
Definition nullif (s : string) : option string := if String.eqb s "" then None else Some s.

Definition or_positive (n def : Z) : Z := if n <=? 0 then def else n.

Section rows.
Context `{!Numeric}.

(** What the manifest says of a model in the catalog. *)
Definition listing_of (m : Manifest) (expected : option Z) : ModelListing :=
  let market := li_MarketComparison (mf_Listing m) in
  let attribution (f : LicenseAttribution → string) := lc_Attribution (mf_License m) ≫= λ a, nullif (f a) in
  {| ls_description := nullif (CatalogDescription m); ls_listing_status := ListingStatus m;
     ls_expected_output_tokens_per_second := expected;
     ls_market_typical_input_per_million_microdollars := (λ c, usdToMicrodollars (mc_TypicalInputPerMillionUSD c)) <$> market;
     ls_market_typical_output_per_million_microdollars := (λ c, usdToMicrodollars (mc_TypicalOutputPerMillionUSD c)) <$> market;
     ls_market_comparison_source_note := market ≫= λ c, nullif (mc_SourceNote c);
     ls_attribution_display_text := attribution la_DisplayText; ls_attribution_notice_text := attribution la_NoticeText;
     ls_attribution_license_url := attribution la_LicenseURL; ls_attribution_aup_url := attribution la_AUPURL |}.

Definition model_row (m : Manifest) (expected : option Z) : ModelRow :=
  {| md_display_name := mf_DisplayName m; md_status := mf_Status m;
     md_data_class := (if String.eqb (po_DataClass (mf_Policy m)) "" then "public_or_non_sensitive" else po_DataClass (mf_Policy m));
     md_listing := listing_of m expected |}.

Definition positive_or_null (o : option Z) : bool := match o with Some z => 0 <? z | None => true end.

Definition upsert_model (m : Manifest) : St DB unit :=
  expected ← (match li_ExpectedOutputTokensPerSecond (mf_Listing m) with
    | None => mret None
    | Some x => n ← of_option (ErrMsg "numeric field overflow") (to_numeric 2 x); mret (Some n)
    end);
  let row := model_row m expected in
  _ ← constraint (bool_decide (md_status row ∈ catalog_statuses)) "models_status_check";
  let l := md_listing row in
  _ ← constraint (positive_or_null (ls_expected_output_tokens_per_second l) &&
        positive_or_null (ls_market_typical_input_per_million_microdollars l) &&
        positive_or_null (ls_market_typical_output_per_million_microdollars l)) "models_check";
  modify (λ d, d <| db_models ::= <[mf_ModelID m := row]> |>).

Definition release_row (m : Manifest) : RuntimeReleaseRow := {|
  rl_engine := ru_Engine (mf_Runtime m); rl_version := ru_BuildID (mf_Runtime m);
  rl_manifest_url := ru_ReleaseManifest (mf_Runtime m); rl_binary_sha256 := rawSHA256 (ru_BinarySHA256 (mf_Runtime m));
  rl_signature_key_id := "catalog-sync"; rl_signature_value := "catalog-sync"; rl_status := "active" |}.

Definition upsert_release (m : Manifest) : St DB string :=
  id ← ids_New "rt";
  let row := release_row m in
  upsert_in db_runtime_releases (λ t d, d <| db_runtime_releases := t |>)
    (λ r, String.eqb (rl_engine r) (rl_engine row) && String.eqb (rl_version r) (rl_version row)) (λ _, row) id row.

(** The version of a model: its revision, or the build of its runtime. *)
Definition version_of (m : Manifest) : string :=
  if String.eqb (so_Revision (mf_Source m)) "" then ru_BuildID (mf_Runtime m) else so_Revision (mf_Source m).

Definition version_row (m : Manifest) (manifestHash releaseID : string) (now : Z) : ModelVersionRow := {|
  mv_model_id := mf_ModelID m; mv_version := version_of m; mv_repository := so_Repository (mf_Source m);
  mv_revision := so_Revision (mf_Source m); mv_license_identifier := lc_Identifier (mf_License m);
  mv_manifest_sha256 := manifestHash; mv_runtime_release_id := Some releaseID; mv_status := mf_Status m;
  mv_created_at := now |}.

(** On a conflict everything but the date is replaced. *)
Definition upsert_version (m : Manifest) (manifestHash releaseID : string) : St DB string :=
  id ← ids_New "mv";
  now ← sql_now;
  let row := version_row m manifestHash releaseID now in
  _ ← constraint (bool_decide (mv_status row ∈ catalog_statuses)) "model_versions_status_check";
  upsert_in db_model_versions (λ t d, d <| db_model_versions := t |>)
    (λ r, String.eqb (mv_model_id r) (mf_ModelID m) && String.eqb (mv_version r) (version_of m))
    (λ r, row <| mv_created_at := mv_created_at r |>) id row.

Definition upsert_model_artifact (m : Manifest) (versionID : string) : St DB unit :=
  id ← ids_New "artifact";
  let s := mf_Source m in
  let row := {| ma_model_version_id := versionID; ma_artifact_type := "gguf"; ma_url := so_URL s;
                ma_sha256 := rawSHA256 (so_SHA256 s); ma_byte_size := so_SizeBytes s |} in
  _ ← constraint (0 <? ma_byte_size row) "model_artifacts_byte_size_check";
  _ ← upsert_in db_model_artifacts (λ t d, d <| db_model_artifacts := t |>)
    (λ r, String.eqb (ma_model_version_id r) versionID && String.eqb (ma_artifact_type r) "gguf" &&
          String.eqb (ma_sha256 r) (ma_sha256 row))
    (λ _, row) id row;
  mret tt.

Definition upsert_profile (m : Manifest) (versionID : string) : St DB unit :=
  id ← ids_New "mhp";
  now ← sql_now;
  let h := mf_Hardware m in
  let row := {| mh_model_version_id := versionID; mh_hardware_class := "alpha-default"; mh_min_vram_mb := hw_MinVRAMMB h;
                mh_min_ram_mb := hw_MinRAMMB h; mh_tokens_per_second := None;
                mh_max_context_tokens := ml_MaxInputTokens (mf_Limits m); mh_created_at := now |} in
  _ ← guard_err (in_int4 (mh_min_vram_mb row) && in_int4 (mh_min_ram_mb row) && in_int4 (mh_max_context_tokens row))
        (ErrMsg "integer out of range");
  _ ← constraint ((0 <=? mh_min_vram_mb row) && (0 <? mh_min_ram_mb row) && (0 <? mh_max_context_tokens row))
        "model_hardware_profiles_check";
  _ ← upsert_in db_model_hardware_profiles (λ t d, d <| db_model_hardware_profiles := t |>)
    (λ r, String.eqb (mh_model_version_id r) versionID && String.eqb (mh_hardware_class r) "alpha-default")
    (λ r, row <| mh_tokens_per_second := mh_tokens_per_second r |> <| mh_created_at := mh_created_at r |>) id row;
  mret tt.

Definition upsert_price (m : Manifest) (versionID : string) : St DB unit :=
  id ← ids_New "price";
  now ← sql_now;
  let p := mf_Pricing m in
  let row := {| mp_model_version_id := versionID; mp_price_version := "alpha";
                mp_customer_input_per_million_microdollars := usdToMicrodollars (mp_CustomerInputPerMillionUSD p);
                mp_customer_output_per_million_microdollars := usdToMicrodollars (mp_CustomerOutputPerMillionUSD p);
                mp_host_credit_per_million_output_microdollars := usdToMicrodollars (mp_HostCreditPerMillionAcceptedOutputUSD p);
                mp_effective_from := now; mp_effective_until := None |} in
  _ ← constraint ((0 <=? mp_customer_input_per_million_microdollars row) &&
        (0 <=? mp_customer_output_per_million_microdollars row) &&
        (0 <=? mp_host_credit_per_million_output_microdollars row)) "model_prices_check";
  _ ← upsert_in db_model_prices (λ t d, d <| db_model_prices := t |>)
    (λ r, String.eqb (mp_model_version_id r) versionID && String.eqb (mp_price_version r) "alpha")
    (λ r, row <| mp_effective_from := mp_effective_from r |> <| mp_effective_until := mp_effective_until r |>) id row;
  mret tt.

(** The names the marshalled capabilities map to [true]. *)
Definition capabilities_of (m : Manifest) : list string :=
  let c := mf_Capabilities m in
  (if cp_ChatCompletions c then ["chat_completions"] else []) ++ (if cp_Embeddings c then ["embeddings"] else []) ++
  (if cp_Streaming c then ["streaming"] else []) ++ (if cp_Tools c then ["tools"] else []).

Definition upsert_limits (m : Manifest) : St DB unit :=
  let l := mf_Limits m in
  let maxInput := or_positive (or_positive (ml_MaxInputTokens l) (ra_ContextSize (ru_Arguments (mf_Runtime m)))) 4096 in
  let maxOutput := or_positive (ml_MaxOutputTokens l) 1024 in
  let maxBytes := or_positive (ml_MaxRequestBytes l) (256 * 1024) in
  let rate (x : float64) : St DB Z := of_option (ErrMsg "numeric field overflow") (to_numeric 4 (clampRate x)) in
  duplicate ← rate (mv_DuplicateSampleRate (mf_Verification m));
  challenge ← rate (mv_ChallengeRate (mf_Verification m));
  _ ← guard_err (in_int4 maxInput && in_int4 maxOutput && in_int4 maxBytes) (ErrMsg "integer out of range");
  modify (λ d, d <| db_model_manifest_limits ::= <[mf_ModelID m := {|
    ml_max_input_tokens := maxInput; ml_max_output_tokens := maxOutput; ml_max_request_bytes := maxBytes;
    ml_capabilities := capabilities_of m; ml_content_filter_profile := po_ContentFilterProfile (mf_Policy m);
    ml_price_version := "alpha"; ml_duplicate_sample_rate := duplicate; ml_challenge_rate := challenge |}]> |>).

(** One platform's binary of a release. *)
Definition upsert_artifact (releaseID modelID : string) (entry : string * RuntimeArtifact) : St DB unit :=
  let '(platformKey, artifact) := entry in
  id ← ids_New "rra";
  let row := {| rra_runtime_release_id := releaseID; rra_platform_key := platformKey; rra_sha256 := rawSHA256 (rt_SHA256 artifact) |} in
  _ ← wrap ("upsert runtime artifact " +:+ modelID +:+ "/" +:+ platformKey)
    (upsert_in db_runtime_artifacts (λ t d, d <| db_runtime_artifacts := t |>)
      (λ r, String.eqb (rra_runtime_release_id r) releaseID && String.eqb (rra_platform_key r) platformKey)
      (λ _, row) id row);
  mret tt.

(** The statements of [upsertManifest], in three parts: those before the release manifest is
    read, its artifacts, and those after the manifest's file is hashed. *)
Definition rows_before (m : Manifest) : St DB string :=
  _ ← wrap "upsert model" (upsert_model m);
  wrap "upsert runtime release" (upsert_release m).

Definition rows_release (m : Manifest) (releaseID : string) (release : option ReleaseManifest) : St DB unit :=
  match release with
  | Some r => for_each (upsert_artifact releaseID (mf_ModelID m)) (map_to_list (rm_Artifacts r))
  | None => mret tt
  end.

Definition rows_after (m : Manifest) (releaseID manifestHash : string) : St DB unit :=
  versionID ← wrap "upsert model version" (upsert_version m manifestHash releaseID);
  _ ← wrap "upsert model artifact" (upsert_model_artifact m versionID);
  _ ← wrap "upsert model hardware profile" (upsert_profile m versionID);
  _ ← wrap "upsert model price" (upsert_price m versionID);
  wrap "upsert model manifest limits" (upsert_limits m).
End rows.

(** ** The sync *)

(** The coordinator's database and the disk it runs on. *)
Record Coordinator := { co_db : DB; co_disk : World }.
#[export] Instance Coordinator_eta : Eta Coordinator := λ c, {| co_db := co_db c; co_disk := co_disk c |}.

Definition on_db {A} (m : St DB A) : St Coordinator A := λ c, let '(r, d) := m (co_db c) in (r, c <| co_db := d |>).
Definition on_files {A} (m : IO A) : St Coordinator A := λ c, let '(r, d) := m (co_disk c) in (r, c <| co_disk := d |>).

(** [BeginTx], body, [Commit], as [Database.transaction], around a body that also reads files. *)
Definition in_transaction {A} (m : St Coordinator A) : St Coordinator A := λ c,
  let undo (c' : Coordinator) := c' <| co_db := co_db c <| db_entropy := db_entropy (co_db c') |> |> in
  match m c with
  | (Ok a, c') =>
      match commit_check (co_db c') with
      | Ok _ => (Ok a, c')
      | Err e => (Err (ErrWrap "commit catalog sync" e), undo c')
      end
  | (Err e, c') => (Err e, undo c')
  end.

Section sync.
Context `{!Numeric, !Libraries, !Embedded, !Unicode} (ParseFloat : string → result float64).

Definition manifestSHA256 (p : Path) : IO string :=
  read ← try (ReadFile p);
  mret (match read with Ok data => hex_encode (sum256 (string_bytes data)) | Err _ => path_string p end).

(** The release manifest that [upsertRuntimeArtifacts] reads. *)
Definition named_release (m : Manifest) (manifestPath : Path) : IO (option ReleaseManifest) :=
  let name := ru_ReleaseManifest (mf_Runtime m) in
  if String.eqb name "" then mret None
  else
    let context := "read runtime release manifest for " +:+ mf_ModelID m in
    file ← (if has_prefix name "/" then data ← wrap context (ReadFile (read_path name)); mret (data, name)
            else wrap context (ReadCatalogFile (Dir manifestPath) name));
    release ← lift_result (ParseReleaseManifest file.1 file.2);
    mret (Some release).

(** The files are read inside the transaction; an error anywhere undoes the rows. *)
Definition upsertManifest (m : Manifest) (manifestPath : Path) : St Coordinator unit := in_transaction (
  releaseID ← on_db (rows_before m);
  release ← on_files (named_release m manifestPath);
  _ ← on_db (rows_release m releaseID release);
  hash ← on_files (manifestSHA256 manifestPath);
  on_db (rows_after m releaseID hash)).

(** One entry of the directory: the count, and the first manifest that was skipped. *)
Definition sync_entry (catalogDir : Path) (acc : Z * option gerror) (entry : string * node) : St Coordinator (Z * option gerror) :=
  let '(name, n) := entry in
  if bool_decide (n = NDir) || negb (has_suffix name ".yaml") then mret acc
  else
    let p := Join catalogDir name in
    parsed ← on_files (try (ParseManifestFile ParseFloat p));
    match parsed with
    | Err e => mret (acc.1, match acc.2 with Some e' => Some e' | None => Some e end)
    | Ok m => _ ← upsertManifest m p; mret (acc.1 + 1, acc.2)
    end.

Definition SyncCatalog (catalogDir : string) : St Coordinator Z :=
  let dir := read_path (if String.eqb catalogDir "" then "models/catalog" else catalogDir) in
  entries ← on_files (wrap "read catalog dir" (ReadDir dir));
  acc ← fold_st (sync_entry dir) (0, None) entries;
  match acc.2 with
  | Some e => if acc.1 =? 0 then fail (ErrWrap "no valid model manifests synced; first skipped manifest" e) else mret acc.1
  | None => mret acc.1
  end.
End sync.
