(* ===== verification/SyncTheory.v ===== *)
(** * What a catalog sync means for the nodes

    About [CatalogSync]: the hashes the coordinator accepts after a manifest was stored, and
    that a node which prepares the same manifest ([LocalRuntime.v]) reports them. *)
From stdpp Require Import base gmap strings list.
From Stdlib Require Import ZArith Lia Ascii.
From S2P Require Import Prelude GoStrings Float64 Sha256 Database JobStore Agent Catalog FileSystem FileURL Releases ModelCache NodeConfig CatalogFiles Launcher LocalRuntime CatalogSync.

(** ** Upserts *)

Section upsert.
Context {V : Type} (same : V → bool) (update : V → V) (id : string) (row : V).

(** The row that is left, and how it came about. *)
Lemma upsert_ok (tbl : gmap string V) k tbl' : upsert same update id row tbl = Ok (k, tbl') →
  ∃ v', tbl' = <[k := v']> tbl ∧
    ((∃ v, tbl !! k = Some v ∧ same v = true ∧ v' = update v) ∨
     ((∀ k v, tbl !! k = Some v → same v = false) ∧ k = id ∧ tbl !! id = None ∧ v' = row)).
Proof.
  unfold upsert. destruct (rows_where _ tbl) as [|[k0 v0] l] eqn:E.
  - unfold fresh_key. case_bool_decide as Hf; [|done]. intros [= <- <-]. exists row. split; [done|]. right. split_and!; [|done..].
    intros k v Hk. apply not_true_iff_false. intros Hs.
    assert (Hin : (k, v) ∈ rows_where (λ _, same) tbl) by by apply elem_of_rows_where. rewrite E in Hin. by apply not_elem_of_nil in Hin.
  - intros [= <- <-]. exists (update v0). split; [done|]. left. exists v0.
    assert (Hin : (k0, v0) ∈ rows_where (λ _, same) tbl) by (rewrite E; left). apply elem_of_rows_where in Hin as [? ?]. done.
Qed.
End upsert.

Lemma upsert_in_ok {V} (get : DB → gmap string V) set same update id row db k db' :
  upsert_in get set same update id row db = (Ok k, db') →
  ∃ tbl', upsert same update id row (get db) = Ok (k, tbl') ∧ db' = set tbl' db.
Proof. unfold upsert_in. destruct (upsert _ _ _ _ _) as [[k' t]|e]; [|done]. intros [= <- <-]. by exists t. Qed.

Lemma leaves_upsert {V T} (f : DB → T) (get : DB → gmap string V) set same update id row :
  (∀ t d, f (set t d) = f d) → leaves f (upsert_in get set same update id row).
Proof. intros Hf d. unfold upsert_in. destruct (upsert _ _ _ _ _) as [[k t]|e]; [apply Hf|done]. Qed.

Lemma leaves_ids {T} (f : DB → T) prefix : (∀ d l, f (d <| db_entropy := l |>) = f d) → leaves f (ids_New prefix).
Proof. intros Hf d. unfold ids_New. destruct (db_entropy d); [done|apply Hf]. Qed.

Lemma ids_ok prefix db id db' : ids_New prefix db = (Ok id, db') → ∃ l, db' = db <| db_entropy := l |>.
Proof. unfold ids_New. destruct (db_entropy db) as [|b l]; [done|]. intros [= _ <-]. by exists l. Qed.

Ltac leave :=
  repeat (progress solve_leaves || match goal with
  | |- leaves _ (constraint _ _) => apply leaves_guard
  | |- leaves _ sql_now => apply leaves_gets
  | |- leaves _ (ids_New _) => apply leaves_ids; by intros []
  | |- leaves _ (upsert_in _ _ _ _ _ _) => apply leaves_upsert; by intros ? []
  end).

Section sync_theory.
Context `{!Numeric}.

(** ** The three parts *)

Section parts.
Context (m : Manifest).

Lemma before_versions : leaves db_model_versions (rows_before m).
Proof. unfold rows_before, upsert_model, upsert_release. leave. Qed.
Lemma before_files : leaves db_model_artifacts (rows_before m).
Proof. unfold rows_before, upsert_model, upsert_release. leave. Qed.
Lemma before_now : leaves db_now (rows_before m).
Proof. unfold rows_before, upsert_model, upsert_release. leave. Qed.

Lemma artifact_versions releaseID e : leaves db_model_versions (upsert_artifact releaseID (mf_ModelID m) e).
Proof. unfold upsert_artifact. leave. Qed.
Lemma artifact_files releaseID e : leaves db_model_artifacts (upsert_artifact releaseID (mf_ModelID m) e).
Proof. unfold upsert_artifact. leave. Qed.
Lemma artifact_now releaseID e : leaves db_now (upsert_artifact releaseID (mf_ModelID m) e).
Proof. unfold upsert_artifact. leave. Qed.

Lemma release_versions releaseID r : leaves db_model_versions (rows_release m releaseID r).
Proof. unfold rows_release. destruct r; [apply leaves_for_each, artifact_versions|apply leaves_ret]. Qed.
Lemma release_files releaseID r : leaves db_model_artifacts (rows_release m releaseID r).
Proof. unfold rows_release. destruct r; [apply leaves_for_each, artifact_files|apply leaves_ret]. Qed.
Lemma release_now releaseID r : leaves db_now (rows_release m releaseID r).
Proof. unfold rows_release. destruct r; [apply leaves_for_each, artifact_now|apply leaves_ret]. Qed.

(** The hash of a platform's binary is among those of the release. *)
Definition stored (releaseID platformKey sha : string) (db : DB) : Prop :=
  ∃ id, db_runtime_artifacts db !! id =
    Some {| rra_runtime_release_id := releaseID; rra_platform_key := platformKey; rra_sha256 := sha |}.

Lemma artifact_stores releaseID platformKey a db u db' :
  upsert_artifact releaseID (mf_ModelID m) (platformKey, a) db = (Ok u, db') → stored releaseID platformKey (rawSHA256 (rt_SHA256 a)) db'.
Proof.
  unfold upsert_artifact. intros H0. run_inv.
  match goal with H : upsert_in _ _ _ _ _ _ _ = _ |- _ => apply upsert_in_ok in H as (t & Hu & ->) end.
  apply upsert_ok in Hu as (v' & -> & [(v & _ & _ & ->)|(_ & _ & _ & ->)]); eexists; simpl; by rewrite lookup_insert_eq.
Qed.

Lemma artifact_keeps releaseID entry platformKey sha db u db' :
  entry.1 ≠ platformKey → upsert_artifact releaseID (mf_ModelID m) entry db = (Ok u, db') →
  stored releaseID platformKey sha db → stored releaseID platformKey sha db'.
Proof.
  destruct entry as [key a]. cbn [fst]. intros Hne H0 [id Hid]. unfold upsert_artifact in H0. run_inv.
  match goal with H : ids_New _ _ = _ |- _ => apply (leaves_run db_runtime_artifacts) in H; [|by leave]; rewrite <-H in Hid end.
  match goal with H : upsert_in _ _ _ _ _ _ _ = _ |- _ => apply upsert_in_ok in H as (t & Hu & ->) end.
  apply upsert_ok in Hu as (v' & -> & Hcase). exists id. simpl. rewrite lookup_insert_ne; [done|].
  intros ->. destruct Hcase as [(v & Hv & Hsame & _)|(_ & -> & Hnone & _)]; [|congruence].
  rewrite Hid in Hv. injection Hv as <-. cbn in Hsame. apply andb_true_iff in Hsame as [_ Hk%String.eqb_eq]. congruence.
Qed.

Lemma release_stores releaseID r db u db' platformKey a :
  rows_release m releaseID (Some r) db = (Ok u, db') → rm_Artifacts r !! platformKey = Some a →
  stored releaseID platformKey (rawSHA256 (rt_SHA256 a)) db'.
Proof.
  unfold rows_release. intros Hrun Ha%elem_of_map_to_list. pose proof (NoDup_fst_map_to_list (rm_Artifacts r)) as Hnd.
  revert db Hrun Ha Hnd. induction (map_to_list (rm_Artifacts r)) as [|e l IH]; intros db Hrun Ha Hnd; [by apply not_elem_of_nil in Ha|].
  cbn [for_each] in Hrun. apply bind_ok in Hrun as (u1 & db1 & He & Hl). rewrite fmap_cons, NoDup_cons in Hnd. destruct Hnd as [Hnot Hnd].
  apply elem_of_cons in Ha as [<-|Ha]; [|by apply (IH db1)].
  apply artifact_stores in He. clear IH Hnd. revert db1 Hl He. induction l as [|e l IH]; intros db1 Hl He.
  - cbn in Hl. by injection Hl as _ <-.
  - cbn [for_each] in Hl. apply bind_ok in Hl as (u2 & db2 & He2 & Hl). rewrite fmap_cons, not_elem_of_cons in Hnot. destruct Hnot as [Hne Hnot].
    apply (IH Hnot db2 Hl). eapply artifact_keeps; [|done|done]. cbn in Hne. by intros E; apply Hne.
Qed.
End parts.

Definition is_version (m : Manifest) (v : ModelVersionRow) : Prop := mv_model_id v = mf_ModelID m ∧ mv_version v = version_of m.

(** The statements after the release: the version, its one file, and what is left alone. *)
Lemma after_rows m releaseID hash db u db' : rows_after m releaseID hash db = (Ok u, db') →
  ∃ k v i file,
    db_model_versions db' = <[k := v]> (db_model_versions db) ∧ is_version m v ∧ mv_runtime_release_id v = Some releaseID ∧
    ((∃ v0, db_model_versions db !! k = Some v0 ∧ is_version m v0 ∧ mv_created_at v = mv_created_at v0) ∨
     ((∀ k0 v0, db_model_versions db !! k0 = Some v0 → ¬ is_version m v0) ∧ db_model_versions db !! k = None ∧ mv_created_at v = db_now db)) ∧
    db_model_artifacts db' = <[i := file]> (db_model_artifacts db) ∧ ma_model_version_id file = k ∧ ma_artifact_type file = "gguf" ∧
    ma_sha256 file = rawSHA256 (so_SHA256 (mf_Source m)) ∧ db_runtime_artifacts db' = db_runtime_artifacts db.
Proof.
  intros Hrun. unfold rows_after in Hrun. apply bind_ok in Hrun as (k & db1 & Hv%wrap_ok & Hrun).
  apply bind_ok in Hrun as ([] & db2 & Hf%wrap_ok & Hrun).
  assert (Hrest : ∀ {T} (f : DB → T), (∀ d l, f (d <| db_entropy := l |>) = f d) → (∀ d t, f (d <| db_model_hardware_profiles := t |>) = f d) →
    (∀ d t, f (d <| db_model_prices := t |>) = f d) → (∀ d t, f (d <| db_model_manifest_limits ::= t |>) = f d) → f db' = f db2).
  { intros T f H1 H2 H3 H4. eapply (leaves_run f); [|exact Hrun]. unfold upsert_profile, upsert_price, upsert_limits.
    repeat (progress solve_leaves || match goal with
    | |- leaves _ (constraint _ _) => apply leaves_guard
    | |- leaves _ sql_now => apply leaves_gets
    | |- leaves _ (ids_New _) => by apply leaves_ids
    | |- leaves _ (upsert_in _ _ _ _ _ _) => apply leaves_upsert; intros; (apply H2 || apply H3)
    | |- leaves _ (modify _) => apply leaves_modify; intros; apply H4
    end). }
  rewrite (Hrest _ db_model_versions), (Hrest _ db_model_artifacts), (Hrest _ db_runtime_artifacts) by by intros [].
  clear Hrun Hrest. unfold upsert_model_artifact in Hf. apply bind_ok in Hf as (i0 & db3 & (l1 & ->)%ids_ok & Hf).
  apply bind_ok in Hf as ([] & db4 & [_ ->]%guard_ok & Hf). apply bind_ok in Hf as (i & db5 & Hf & Hr).
  apply ret_ok in Hr as [_ ->]. apply upsert_in_ok in Hf as (files & Hf & ->). apply upsert_ok in Hf as (file & -> & Hf).
  unfold upsert_version in Hv. apply bind_ok in Hv as (k0 & db6 & (l2 & ->)%ids_ok & Hv).
  apply bind_ok in Hv as (now & db7 & [-> ->]%gets_ok & Hv). apply bind_ok in Hv as ([] & db8 & [_ ->]%guard_ok & Hv).
  apply upsert_in_ok in Hv as (versions & Hv & ->). apply upsert_ok in Hv as (v & -> & Hv). cbn in Hf, Hv |- *.
  exists k, v, i, file. split; [done|].
  assert (Hver : is_version m v ∧ mv_runtime_release_id v = Some releaseID).
  { destruct Hv as [(v0 & _ & _ & ->)|(_ & _ & _ & ->)]; by split_and!. }
  destruct Hver as [Hver Hrel]. split; [done|]. split; [done|].
  assert (Hsame : ∀ v0, String.eqb (mv_model_id v0) (mf_ModelID m) && String.eqb (mv_version v0) (version_of m) = true ↔ is_version m v0).
  { intros v0. unfold is_version. by rewrite andb_true_iff, !String.eqb_eq. }
  split.
  { destruct Hv as [(v0 & Hv0 & Hs & ->)|(Hno & -> & Hnone & ->)].
    - left. exists v0. split_and!; [done|by apply Hsame|done].
    - right. split_and!; [|done|done]. intros k1 v1 H1 His%Hsame. by rewrite (Hno k1 v1 H1) in His. }
  destruct Hf as [(f0 & _ & _ & ->)|(_ & _ & _ & ->)]; by split_and!.
Qed.

(** When a manifest's version was, or would be, published. *)
Definition published (m : Manifest) (db : DB) (t : Z) : Prop :=
  (∃ k v, db_model_versions db !! k = Some v ∧ is_version m v ∧ t = mv_created_at v) ∨
  ((∀ k v, db_model_versions db !! k = Some v → ¬ is_version m v) ∧ t = db_now db).

(** What the tables must hold for a sync to take effect: the unique index of the versions and
    the foreign key of the files, that the version is newer than the others of its model, and
    that it has no other file. *)
Record publishable (m : Manifest) (db : DB) : Prop := {
  pb_unique k1 k2 v1 v2 : db_model_versions db !! k1 = Some v1 → db_model_versions db !! k2 = Some v2 →
    is_version m v1 → is_version m v2 → k1 = k2;
  pb_files i f : db_model_artifacts db !! i = Some f → ma_artifact_type f = "gguf" →
    ∃ v, db_model_versions db !! ma_model_version_id f = Some v ∧
      (is_version m v → ma_sha256 f = rawSHA256 (so_SHA256 (mf_Source m)));
  pb_newest k v t : db_model_versions db !! k = Some v → mv_model_id v = mf_ModelID m → ¬ is_version m v →
    published m db t → mv_created_at v < t
}.

Lemma publishable_same m db db' : publishable m db → db_model_versions db' = db_model_versions db →
  db_model_artifacts db' = db_model_artifacts db → db_now db' = db_now db → publishable m db'.
Proof.
  intros [Hu Hf Hn] Ev Ef En. split; unfold published in *; rewrite ?Ev, ?Ef, ?En; [exact Hu|exact Hf|exact Hn].
Qed.

Lemma elem_of_model_files db modelID k v f :
  (k, (v, f)) ∈ model_files db modelID ↔
  db_model_versions db !! k = Some v ∧ mv_model_id v = modelID ∧
  ∃ i, db_model_artifacts db !! i = Some f ∧ ma_model_version_id f = k ∧ ma_artifact_type f = "gguf".
Proof.
  unfold model_files. rewrite list_elem_of_bind. setoid_rewrite list_elem_of_bind. setoid_rewrite list_elem_of_singleton. split.
  - intros ([k' v'] & ([i f'] & Heq & Hf%elem_of_rows_where) & Hv%elem_of_rows_where). cbn in *. simplify_eq.
    destruct Hf as [Hf [E1%String.eqb_eq E2%String.eqb_eq]%andb_true_iff], Hv as [Hv E3%String.eqb_eq]. split_and!; [done..|]. by exists i.
  - intros (Hv & Hm & i & Hf & Hk & Ht). exists (k, v). split; [exists (i, f); split; [done|]|]; apply elem_of_rows_where; cbn.
    + split; [done|]. by rewrite Hk, Ht, String.eqb_refl.
    + split; [done|]. by apply String.eqb_eq.
Qed.

(** The hashes the coordinator accepts once the rows are written. *)
Lemma after_hashes m releaseID hash db u db' : publishable m db → rows_after m releaseID hash db = (Ok u, db') →
  ModelHashes (mf_ModelID m) db' = (Ok {| mhs_ModelHash := sha_tag (rawSHA256 (so_SHA256 (mf_Source m)));
    mhs_RuntimeHashes := runtime_hashes db releaseID |}, db').
Proof.
  intros [Hu Hf Hn] (k & v & i & file & Ev & Hver & Hrel & Hv & Ef & Hk & Ht & Hsha & Er)%after_rows.
  unfold ModelHashes, mbind, St_bind, gets, id.
  assert (Hours : (k, (v, file)) ∈ model_files db' (mf_ModelID m)).
  { apply elem_of_model_files. rewrite Ev, lookup_insert_eq. split_and!; [done|apply Hver|]. exists i. by rewrite Ef, lookup_insert_eq. }
  destruct (latest _ (model_files db' (mf_ModelID m))) as [[k' [v' f']]|] eqn:El; cycle 1.
  { unfold latest in El. pose proof (proj2 (elem_of_order_by (desc (λ f, mv_created_at f.1)) _ _) Hours) as Hin.
    destruct (order_by _ _); [by apply not_elem_of_nil in Hin|done]. }
  assert (Hmax := latest_max _ _ _ _ El Hours). apply latest_elem in El. cbn in Hmax.
  apply elem_of_model_files in El as (Hv' & Hm' & i' & Hf' & Hk' & Ht').
  assert (Hpub : published m db (mv_created_at v)).
  { destruct Hv as [(v0 & Hv0 & His & ->)|(Hno & _ & ->)]; [left; by exists k, v0|by right]. }
  assert (Hwhich : k' = k).
  { rewrite Ev in Hv'. apply lookup_insert_Some in Hv' as [[-> _]|[Hne Hv']]; [done|].
    destruct (decide (mv_version v' = version_of m)) as [E|E].
    - destruct Hv as [(v0 & Hv0 & His & _)|(Hno & _)]; [by apply (Hu k' k v' v0)|]. exfalso. by apply (Hno k' v' Hv').
    - exfalso. assert (mv_created_at v' < mv_created_at v); [|lia]. apply (Hn k'); [done|done|by intros []|done]. }
  rewrite Hwhich in Hv', Hk'. assert (v' = v) as -> by (rewrite Ev, lookup_insert_eq in Hv'; congruence).
  assert (Hsha' : ma_sha256 f' = rawSHA256 (so_SHA256 (mf_Source m))).
  { rewrite Ef in Hf'. apply lookup_insert_Some in Hf' as [[_ <-]|[_ Hf']]; [done|].
    destruct (Hf i' f' Hf' Ht') as (v0 & Hv0 & Hs). rewrite Hk' in Hv0.
    destruct Hv as [(v1 & Hv1 & His & _)|(_ & Hnone & _)]; [|congruence]. apply Hs. congruence. }
  rewrite Hrel, Hsha'. unfold runtime_hashes. by rewrite Er.
Qed.

(** All the rows of a manifest and of the release it names. *)
Definition sync_rows (m : Manifest) (release : option ReleaseManifest) (hash : string) : St DB unit :=
  releaseID ← rows_before m;
  _ ← rows_release m releaseID release;
  rows_after m releaseID hash.

Lemma sync_hashes m r hash db db' : publishable m db → sync_rows m (Some r) hash db = (Ok tt, db') →
  ∃ hashes, ModelHashes (mf_ModelID m) db' = (Ok hashes, db') ∧
    mhs_ModelHash hashes = sha_tag (rawSHA256 (so_SHA256 (mf_Source m))) ∧
    ∀ platformKey a, rm_Artifacts r !! platformKey = Some a →
      RuntimeHashValid hashes (sha_tag (rawSHA256 (rt_SHA256 a))) = true.
Proof.
  intros Hp Hrun. unfold sync_rows in Hrun. apply bind_ok in Hrun as (releaseID & db1 & Hb & Hrun).
  apply bind_ok in Hrun as ([] & db2 & Hr & Hrun).
  assert (Hp2 : publishable m db2).
  { eapply publishable_same; [exact Hp|..].
    - by rewrite (leaves_run _ _ _ _ _ (release_versions m releaseID _) Hr), (leaves_run _ _ _ _ _ (before_versions m) Hb).
    - by rewrite (leaves_run _ _ _ _ _ (release_files m releaseID _) Hr), (leaves_run _ _ _ _ _ (before_files m) Hb).
    - by rewrite (leaves_run _ _ _ _ _ (release_now m releaseID _) Hr), (leaves_run _ _ _ _ _ (before_now m) Hb). }
  eexists. split; [by eapply after_hashes|]. split; [done|]. intros platformKey a Ha.
  destruct (release_stores _ _ _ _ _ _ _ _ Hr Ha) as [rid Hid]. unfold RuntimeHashValid. cbn [mhs_RuntimeHashes].
  apply existsb_exists. exists (sha_tag (rawSHA256 (rt_SHA256 a))). split; [|apply String.eqb_refl].
  apply list_elem_of_In. unfold runtime_hashes. apply list_elem_of_fmap. exists (rid, {| rra_runtime_release_id := releaseID; rra_platform_key := platformKey; rra_sha256 := rawSHA256 (rt_SHA256 a) |}).
  split; [done|].
  apply elem_of_rows_where. split; [exact Hid|]. apply String.eqb_refl.
Qed.
End sync_theory.

(** ** What a sync does not touch *)

(** The database without the tables of the catalog and the stream of identifiers. *)
Definition catalog_erased (db : DB) : DB :=
  db <| db_models := ∅ |> <| db_runtime_releases := ∅ |> <| db_model_versions := ∅ |> <| db_model_artifacts := ∅ |>
     <| db_model_hardware_profiles := ∅ |> <| db_model_prices := ∅ |> <| db_model_manifest_limits := ∅ |>
     <| db_runtime_artifacts := ∅ |> <| db_entropy := [] |>.

Section sync_frame.
Context `{!Numeric, !Libraries, !Embedded, !Unicode} (ParseFloat : string → result float64).

Lemma before_erased m : leaves catalog_erased (rows_before m).
Proof. unfold rows_before, upsert_model, upsert_release. leave. Qed.
Lemma release_erased m releaseID r : leaves catalog_erased (rows_release m releaseID r).
Proof. unfold rows_release, upsert_artifact. leave. Qed.
Lemma after_erased m releaseID hash : leaves catalog_erased (rows_after m releaseID hash).
Proof.
  unfold rows_after, upsert_version, upsert_model_artifact, upsert_profile, upsert_price, upsert_limits. leave.
Qed.

Lemma leaves_on_db {A} (m : St DB A) : leaves catalog_erased m → leaves (λ c, catalog_erased (co_db c)) (on_db m).
Proof. intros Hm c. unfold on_db. specialize (Hm (co_db c)). by destruct (m (co_db c)). Qed.
Lemma leaves_on_files {A} (m : IO A) : leaves (λ c, catalog_erased (co_db c)) (on_files m).
Proof. intros c. unfold on_files. by destruct (m (co_disk c)). Qed.
Lemma leaves_transaction {A} (m : St Coordinator A) :
  leaves (λ c, catalog_erased (co_db c)) m → leaves (λ c, catalog_erased (co_db c)) (in_transaction m).
Proof.
  intros Hm c. specialize (Hm c). unfold in_transaction. destruct (m c) as [[a|e] c']; [|by destruct c as [[]]].
  destruct (commit_check (co_db c')); [exact Hm|by destruct c as [[]]].
Qed.
#[local] Hint Resolve before_erased release_erased after_erased leaves_on_db leaves_on_files : core.

(** A sync writes the tables of the catalog and no other: accounts, jobs, nodes and sessions are
    as before, whatever the manifests hold and however many of them are refused. *)
Theorem sync_keeps_trade dir c :
  catalog_erased (co_db (SyncCatalog ParseFloat dir c).2) = catalog_erased (co_db c).
Proof.
  enough (leaves (λ c, catalog_erased (co_db c)) (SyncCatalog ParseFloat dir)) as Hsync by apply Hsync.
  assert (Hm : ∀ m p, leaves (λ c, catalog_erased (co_db c)) (upsertManifest m p)).
  { intros m p. apply leaves_transaction. repeat (apply leaves_bind; [by auto|intros ?]). auto. }
  assert (He : ∀ d acc e, leaves (λ c, catalog_erased (co_db c)) (sync_entry ParseFloat d acc e)).
  { intros d acc [name n]. unfold sync_entry. destruct (_ || _); [apply leaves_ret|]. apply leaves_bind; [by auto|intros [p|e]].
    - apply leaves_bind; [apply Hm|intros ?]. apply leaves_ret.
    - apply leaves_ret. }
  apply leaves_bind; [by auto|intros entries]. apply leaves_bind; [|intros acc; solve_leaves].
  generalize (0, None : option gerror). induction entries as [|e l IH]; intros acc; [apply leaves_ret|].
  apply leaves_bind; [apply He|intros ?; apply IH].
Qed.
End sync_frame.
