(* ===== verification/ServingTheory.v ===== *)
(** * A node that serves a synced model

    Node and coordinator together: what [LocalRuntime.Prepare] reports is what
    [CatalogSync.upsertManifest] stored, so that a node which prepared the manifest the
    coordinator has synced is served jobs and has its results accepted. And what becomes of the
    servers a node starts. *)
From stdpp Require Import base gmap strings list.
From Stdlib Require Import ZArith Lia Ascii.
From S2P Require Import Prelude GoStrings Float64 Sha256 Database JobStore Agent Catalog FileSystem FileURL Releases ReleaseTheory ModelCache NodeConfig CatalogFiles Launcher LocalRuntime CatalogSync SyncTheory.

(** ** Hashes are written in one way *)

Lemma has_prefix_inv p s : has_prefix s p = true → ∃ k, s = p +:+ k.
Proof.
  unfold has_prefix. revert s. induction p as [|a p IH]; intros s Hp; [by exists s|].
  destruct s as [|b s]; [done|]. cbn in Hp. destruct (ascii_dec a b) as [->|]; [|done].
  destruct (IH s Hp) as [k ->]. by exists k.
Qed.

Lemma canonical_tag v : trim_space v = v → v ≠ "" → canonicalSHA256 v = sha_tag (rawSHA256 v).
Proof.
  intros Ht Hne. unfold canonicalSHA256, sha_tag, rawSHA256. rewrite Ht, (proj2 (String.eqb_neq _ _) Hne).
  destruct (has_prefix v "sha256:") eqn:E.
  - apply has_prefix_inv in E as [w ->]. by rewrite trim_prefix_app.
  - unfold trim_prefix. by rewrite E.
Qed.

Section serving.
Context `{!Numeric, !Libraries, !SortSlice CacheFile, !Embedded, !Unicode, !Processes}.
Context (lower_table : Z → Z) (device : location → nat) (goos goarch : string) (other_info : node → Z * Z).
Context (ParseFloat : string → result float64).

Notation prepare := (Prepare lower_table device goos goarch other_info ParseFloat).

(** ** What an installed runtime is recorded with *)

Lemma finally_ok {A} (m : IO A) c w a w' : finally m c w = (Ok a, w') → ∃ w1, m w = (Ok a, w1).
Proof. unfold finally. destruct (m w) as [r w1]. intros [= -> _]. by exists w1. Qed.

Lemma install_sha m manifest artifact key root target tmp w i w' :
  install device goos m manifest artifact key root target tmp w = (Ok i, w') → ir_SHA256 i = rt_SHA256 artifact.
Proof.
  unfold install. intros Hrun. do 15 (apply bind_ok in Hrun as (? & ? & _ & Hrun)). apply ret_ok in Hrun as [-> _]. done.
Qed.

Lemma Ensure_sha m manifest w i w' : Releases.Ensure lower_table device goos goarch m manifest w = (Ok i, w') →
  ∃ platformKey a, rm_Artifacts manifest !! platformKey = Some a ∧ ir_SHA256 i = rt_SHA256 a.
Proof.
  unfold Releases.Ensure. case_match; [done|]. intros Hrun. apply bind_ok in Hrun as (? & ? & _ & Hrun).
  apply bind_ok in Hrun as ([artifact key] & w1 & [Hsel ->]%lift_ok & Hrun). apply (SelectArtifact_ok _ device) in Hsel as [Ha _].
  apply bind_ok in Hrun as (? & ? & _ & Hrun). apply bind_ok in Hrun as (recorded & w2 & _ & Hrun).
  exists key, artifact. split; [done|].
  assert (Hfresh : ∀ (k : Path → IO InstalledRuntime) c w3, (∀ tmp w i w', k tmp w = (Ok i, w') → ir_SHA256 i = rt_SHA256 artifact) →
    (_ ← wrap "create runtime root" (MkdirAll (read_path (mg_Root m)));
     tmpDir ← wrap "create runtime temp dir" (MkdirTemp (read_path (mg_Root m)) ".install-");
     finally (k tmpDir) (c tmpDir)) w3 = (Ok i, w') → ir_SHA256 i = rt_SHA256 artifact).
  { intros k c w3 Hk Hr. apply bind_ok in Hr as (? & ? & _ & Hr). apply bind_ok in Hr as (tmp & ? & _ & Hr).
    apply finally_ok in Hr as [w4 Hr]. by eapply Hk. }
  destruct recorded as [r|].
  - destruct (String.eqb_spec (ir_SHA256 r) (rt_SHA256 artifact)) as [E|_].
    + apply bind_ok in Hrun as (? & ? & _ & Hrun). by apply ret_ok in Hrun as [-> _].
    + revert Hrun. apply (Hfresh (λ tmp, install device goos m manifest artifact key _ _ tmp) (λ tmp, ignore_err (RemoveAll tmp))).
      intros. by eapply install_sha.
  - revert Hrun. apply (Hfresh (λ tmp, install device goos m manifest artifact key _ _ tmp) (λ tmp, ignore_err (RemoveAll tmp))).
    intros. by eapply install_sha.
Qed.

(** ** A prepared node *)

(** The manifest and the release a node reads for a model, in a state of its disk. *)
Definition reads (p : LocalRuntimeProvider) (modelID : string) (m : Manifest) (r : ReleaseManifest) (w : World) : Prop :=
  ∃ source w1, LoadCatalogManifest ParseFloat (read_path (lp_CatalogDir (with_defaults p))) modelID w = (Ok (m, source), w1) ∧
    (runtime_release (read_path (lp_CatalogDir (with_defaults p))) (ru_ReleaseManifest (mf_Runtime m)) w1).1 = Ok r.

Lemma fetch_all_ok p modelID w m i path w' :
  fetch_all lower_table device goos goarch other_info ParseFloat (with_defaults p) modelID w = (Ok (m, i, path), w') →
  ∃ r platformKey a, reads p modelID m r w ∧ rm_Artifacts r !! platformKey = Some a ∧ ir_SHA256 i = rt_SHA256 a.
Proof.
  unfold fetch_all. intros Hrun. apply bind_ok in Hrun as ([m0 source] & w1 & Hload & Hrun). cbn [fst] in Hrun.
  apply bind_ok in Hrun as (r & w2 & Hrel & Hrun). apply bind_ok in Hrun as (key & w3 & _ & Hrun).
  apply bind_ok in Hrun as (i0 & w4 & (platformKey & a & Ha & Hsha)%Ensure_sha & Hrun).
  apply bind_ok in Hrun as (path0 & w5 & _ & Hrun). apply bind_ok in Hrun as (? & ? & _ & Hrun). apply ret_ok in Hrun as [[= <- <- <-] _].
  exists r, platformKey, a. split_and!; [|done..]. exists source, w1. split; [done|]. by rewrite Hrel.
Qed.

Lemma prepared_hashes p modelID w status p' w' : prepare p modelID w = (Ok (Ok status, p'), w') →
  ∃ m r platformKey a, reads p modelID m r w ∧ rm_Artifacts r !! platformKey = Some a ∧
    rs_ModelID status = mf_ModelID m ∧ rs_ModelHash status = canonicalSHA256 (so_SHA256 (mf_Source m)) ∧
    rs_RuntimeHash status = canonicalSHA256 (rt_SHA256 a).
Proof.
  unfold Prepare. intros Hrun. apply bind_ok in Hrun as (prepared & w1 & Ht & Hrun). apply ret_ok in Hrun as [Hrun _].
  unfold try in Ht. destruct prepared as [[[m i] started]|e]; [|by destruct lp_running].
  match type of Ht with (let '(r, s') := ?b in _) = _ => destruct b as [r0 w2] eqn:Eb end. injection Ht as -> ->.
  apply bind_ok in Eb as ([[m0 i0] path] & w3 & Hf & Eb). apply bind_ok in Eb as (port & w4 & _ & Eb).
  apply bind_ok in Eb as (st & w5 & _ & Eb). apply ret_ok in Eb as [[= <- <- <-] _].
  apply fetch_all_ok in Hf as (r & platformKey & a & Hr & Ha & Hsha). destruct started as [[running|e] processes]; [|done].
  injection Hrun as -> _. exists m, r, platformKey, a. cbn. by rewrite Hsha.
Qed.

(** ** What the coordinator has stored *)

Lemma upsertManifest_ok m path c c' : upsertManifest m path c = (Ok tt, c') →
  ∃ release disk hash, named_release m path (co_disk c) = (Ok release, disk) ∧
    sync_rows m release hash (co_db c) = (Ok tt, co_db c').
Proof.
  unfold upsertManifest, in_transaction. intros Hrun.
  match type of Hrun with match ?b with _ => _ end = _ => destruct b as [[[]|e] c1] eqn:Eb; [|done] end.
  destruct (commit_check (co_db c1)); [|done]. injection Hrun as ->.
  apply bind_ok in Eb as (releaseID & c2 & Hb & Eb). apply bind_ok in Eb as (release & c3 & Hr & Eb).
  apply bind_ok in Eb as ([] & c4 & Hrr & Eb). apply bind_ok in Eb as (hash & c5 & Hh & Ha).
  unfold on_db, on_files in *. exists release, (co_disk c3), hash.
  destruct (rows_before m (co_db c)) as [rb db1] eqn:E1. injection Hb as -> <-. cbn [co_disk co_db upd_field] in *.
  destruct (named_release m path (co_disk c)) as [rr d1] eqn:E2. injection Hr as -> <-. cbn [co_disk co_db upd_field] in *.
  destruct (rows_release m releaseID release db1) as [r3 db3] eqn:E3. injection Hrr as -> <-. cbn [co_disk co_db upd_field] in *.
  destruct (manifestSHA256 path d1) as [r4 d4] eqn:E4. injection Hh as -> <-. cbn [co_disk co_db upd_field] in *.
  destruct (rows_after m releaseID hash db3) as [r5 db5] eqn:E5. injection Ha as -> <-. cbn [co_disk co_db upd_field].
  split; [done|]. unfold sync_rows, mbind, St_bind. by rewrite E1, E3, E5.
Qed.

(** A hash without blanks around it. *)
Definition plain_sha (v : string) : Prop := trim_space v = v ∧ v ≠ "".

(** C10. Node and coordinator agree on a model. What a node reports after it prepared a model (the
    model file it verified, the runtime of its platform) is what the coordinator accepts once it
    has synced the same manifest and release: [ModelHashes], against which results are checked,
    has the node's model hash and lists the node's runtime hash. This takes two things. The
    synced version is the one the coordinator looks up ([publishable]): no other version of the
    model was created after it, no other model file is stored for it, and its row, if there is
    one, is the only one of its name; a manifest that goes back to an older version is not
    looked up (example [catalog_revert_ignored]). And the two hashes, of the model file and of
    the artifact that was installed, are written without blanks around them ([plain_sha]): the
    node cuts such blanks off, the coordinator does not. *)
Theorem prepared_node_accepted p modelID w status p' w' :
  prepare p modelID w = (Ok (Ok status, p'), w') →
  ∃ m r key artifact, reads p modelID m r w ∧ rm_Artifacts r !! key = Some artifact ∧
    (plain_sha (so_SHA256 (mf_Source m)) → plain_sha (rt_SHA256 artifact) →
     ∀ path c c' disk, named_release m path (co_disk c) = (Ok (Some r), disk) → publishable m (co_db c) →
       upsertManifest m path c = (Ok tt, c') →
       ∃ hashes, ModelHashes (rs_ModelID status) (co_db c') = (Ok hashes, co_db c') ∧
         mhs_ModelHash hashes = rs_ModelHash status ∧ RuntimeHashValid hashes (rs_RuntimeHash status) = true).
Proof.
  intros (m & r & platformKey & a & Hr & Ha & Hid & Hm & Hrt)%prepared_hashes. exists m, r, platformKey, a.
  split; [done|]. split; [done|]. intros [Hs1 Hs2] [Ha1 Ha2] path c c' disk Hrel Hpub (release & disk' & hash & Hrel' & Hrows)%upsertManifest_ok.
  rewrite Hrel in Hrel'. injection Hrel' as <- <-.
  destruct (sync_hashes m r hash _ _ Hpub Hrows) as (hashes & Hh & Hmodel & Hruntime). exists hashes.
  rewrite Hid, Hm, Hrt, !canonical_tag by done. split_and!; [done..|]. by eapply Hruntime.
Qed.

(** ** The servers a node starts *)

Definition starts (l : list Process) : list RunningRuntime := omap (λ e, match e with Started r => Some r | Stopped _ => None end) l.
Definition stops (l : list Process) : list RunningRuntime := omap (λ e, match e with Stopped r => Some r | Started _ => None end) l.

(** Every server that was started is in use or has been stopped, once. *)
Definition accounted (p : LocalRuntimeProvider) : Prop :=
  starts (lp_processes p) ≡ₚ stops (lp_processes p) ++ option_list (lp_running p).

Lemma StartLlamaServer_processes cfg w r processes w' : StartLlamaServer cfg w = (Ok (r, processes), w') →
  ∃ running, (r = Ok running ∧ processes = [Started running]) ∨ ((∃ e, r = Err e) ∧ processes = [Started running; Stopped running]).
Proof.
  unfold StartLlamaServer. repeat (case_match; [done|]). intros Hrun. do 5 (apply bind_ok in Hrun as (? & ? & _ & Hrun)).
  apply ret_ok in Hrun as [Hrun _]. eexists. destruct (waitForHealth _); injection Hrun as -> ->; [by left|right; split; [by eexists|done]].
Qed.

Lemma starts_app l k : starts (l ++ k) = starts l ++ starts k.
Proof. apply omap_app. Qed.
Lemma stops_app l k : stops (l ++ k) = stops l ++ stops k.
Proof. apply omap_app. Qed.

(** More processes, and another server in use. *)
Lemma accounted_more p p' l : accounted p → lp_processes p' = l ++ lp_processes p →
  starts l ++ option_list (lp_running p) ≡ₚ stops l ++ option_list (lp_running p') → accounted p'.
Proof.
  unfold accounted. intros Hp -> Hl.
  rewrite starts_app, stops_app, Hp, (Permutation_app_comm (stops (lp_processes p))), app_assoc, Hl.
  rewrite <-!app_assoc. f_equiv. apply Permutation_app_comm.
Qed.

Lemma Close_accounted p : accounted p → accounted (Close p).
Proof.
  unfold accounted, Close. destruct p as [cd dd rr mc q k v running l]. cbn. destruct running as [old|]; cbn; [|done].
  intros Hp. rewrite app_nil_r, Hp. symmetry. apply Permutation_cons_append.
Qed.

(** C31. No server is leaked. However often a node prepares a model, with whatever outcome, every
    server process that was started is the one in use or has been stopped exactly once; and
    after [Close] all of them have been stopped. *)
Theorem servers_accounted p modelID w p' w' r :
  accounted p →
  (prepare p modelID w = (Ok (r, p'), w') → accounted p') ∧ accounted (Close p) ∧ lp_running (Close p) = None.
Proof.
  intros Hp. split_and!; [|by apply Close_accounted|done].
  assert (Hp0 : accounted (with_defaults p)) by exact Hp. unfold Prepare. set (q := with_defaults p) in *.
  intros Hrun. apply bind_ok in Hrun as (prepared & w1 & Ht & Hrun). apply ret_ok in Hrun as [Hrun _]. unfold try in Ht.
  destruct prepared as [[[m i] started]|e]; [|by injection Hrun as _ ->].
  match type of Ht with (let '(r, s') := ?b in _) = _ => destruct b as [r0 w2] eqn:Eb end. injection Ht as -> ->.
  apply bind_ok in Eb as ([[m0 i0] path] & w3 & _ & Eb). apply bind_ok in Eb as (port & w4 & _ & Eb).
  apply bind_ok in Eb as ([sr processes] & w5 & Hs & Eb). apply ret_ok in Eb as [[= -> -> ->] _].
  apply StartLlamaServer_processes in Hs as [running [[-> ->]|[[e ->] ->]]]; injection Hrun as _ ->.
  - apply (accounted_more q _ (match lp_running q with Some old => [Stopped old] | None => [] end ++ [Started running]) Hp0).
    + change (lp_running q) with (lp_running p). change (lp_processes q) with (lp_processes p).
      cbn [lp_processes]. by destruct (lp_running p).
    + change (lp_running q) with (lp_running p). cbn [lp_running].
      destruct (lp_running p) as [old|]; cbn; [apply Permutation_swap|done].
  - by apply (accounted_more q _ [Stopped running; Started running] Hp0).
Qed.
End serving.
