(* ===== verification/NodeExamples.v ===== *)
(** * Examples of a node at home

    A data directory, a coordinator that answers and identities that can be computed with, on
    which the theorems about the configuration, the login, the renewal of tokens and the
    reconnecting agent are applied; and runs that show what happens in corner cases. *)
From stdpp Require Import base gmap strings list countable.
From Stdlib Require Import ZArith Lia Ascii SpecFloat.
From S2P Require Import Prelude GoStrings Float64 Sha256 Encoding NodeState Schedule Protocol Agent NodeAuth FileSystem FileURL Releases ReleaseTheory ModelCache DeliveryExamples NodeConfig ConfigTheory NodeLogin LoginTheory AgentSession ReconnectTheory.

#[local] Instance plain_char_dec a : Decision (plain_char a).
Proof. unfold plain_char. apply _. Defined.
#[local] Instance plain_text_dec s : Decision (plain_text s).
Proof. unfold plain_text. apply _. Defined.

#[local] Instance toy_unicode : Unicode := λ _, true.

(** ** Identities *)

(** Codes of records in place of JSON. *)
Definition code {A} `{Countable A} (x : A) : string := bytes_string (toy_encode x).
Definition uncode {A} `{Countable A} (s : string) : result A := toy_decode (string_bytes s).

Lemma uncode_code {A} `{Countable A} (x : A) : uncode (code x) = Ok x.
Proof. unfold uncode, code. rewrite string_bytes_string by apply pos_bits_bytes. apply toy_roundtrip. Qed.

Definition on_ok {A B} (f : A → B) (r : result A) : result B := match r with Ok a => Ok (f a) | Err e => Err e end.

Definition code_credentials (c : Credentials) : string :=
  code (cr_NodeID c, cr_CoordinatorURL c, cr_PublicKey c, cr_AccessToken c, cr_AccessTokenExpiresAt c, cr_HardwareFingerprintHash c).
Definition uncode_credentials (s : string) : result Credentials :=
  on_ok (λ '(a, b, c, d, e, f), {| cr_NodeID := a; cr_CoordinatorURL := b; cr_PublicKey := c; cr_AccessToken := d;
    cr_AccessTokenExpiresAt := e; cr_HardwareFingerprintHash := f |}) (uncode s).

#[local] Instance representable_dec t : Decision (representable t).
Proof. unfold representable. apply _. Defined.

#[local] Instance toy_identities : Identities := {|
  parse_key_file := λ s, on_ok (λ '(a, b), {| kf_PublicKey := a; kf_PrivateKey := b |}) (uncode s);
  marshal_key_file := λ k, code (kf_PublicKey k, kf_PrivateKey k);
  parse_credentials := uncode_credentials;
  marshal_credentials := λ c, Ok (code_credentials c);
  marshal_register := λ r, code (rq_InviteToken r, rq_PublicKey r, rq_HardwareFingerprintHash r);
  marshal_token := λ r, code (tq_NodeID r, tq_BootstrapToken r);
  marshal_refresh := λ r, code (rr_NodeID r, rr_Timestamp r, rr_Signature r);
  decode_register := λ s, on_ok (λ '(a, b), {| rs_NodeID := a; rs_BootstrapToken := b; rs_BootstrapTokenExpiresAt := 0;
                                               rs_FleetSchedule := None |}) (uncode s);
  decode_token := λ s, match uncode s with
    | Ok (t, e) => if bool_decide (representable e) then Ok {| tr_AccessToken := t; tr_AccessTokenExpiresAt := e |} else Err (ErrMsg "year")
    | Err e => Err e
    end;
  decode_api_error := λ s, s;
  ParseRequestURI := λ _, Ok tt;
  NewRequest := λ _, Ok tt;
  status_line := itoa;
  node_Sign := toy_Sign;
  rfc3339 := toy_format
|}.

Lemma toy_lawful : lawful.
Proof.
  split.
  - intros [a b]. cbn. by rewrite uncode_code.
  - intros [a b c d e f] _. cbn. eexists. split; [done|]. unfold uncode_credentials, code_credentials. by rewrite uncode_code.
  - intros s r. cbn. destruct (uncode s) as [[t e]|e]; [|done]. case_bool_decide; [|done]. by intros [= <-].
Qed.

(** ** A data directory *)

Module NodeExamples.

Definition home : string := "/home/.thirdshift".
Definition home_tree : files := dirs [["home"]; ["home"; ".thirdshift"]].
Definition node_world (replies : list Reply) : World := world home_tree replies.
Definition no_env (_ : string) : string := "".
Definition no_config_dir : result string := Err (ErrMsg "HOME is not defined").

Lemma home_dir replies : data_dir home (node_world replies).
Proof.
  split; [done|apply realb_ok; vm_compute; reflexivity|done|]. intros c Hc. left.
  repeat rewrite elem_of_cons in Hc. rewrite elem_of_nil in Hc. by destruct Hc as [->|[->|[->|[]]]].
Qed.

(** ** Configuration *)

Definition sample_config : Config := default_config no_config_dir home <| cg_CoordinatorURL := "https://coordinator.example" |>.

Lemma config_roundtrip_witness :
  let c := saved_config no_config_dir sample_config in
  let '(r, w') := Save no_config_dir sample_config (node_world []) in
  r = Ok tt ∧ Load no_env no_config_dir (cg_DataDir c) w' = (Ok (applyEnv no_env (in_seconds c)), w') ∧
  HasScheduleOverride no_env no_config_dir (cg_DataDir c) w' = (Ok true, w').
Proof.
  refine (config_roundtrip no_env no_config_dir sample_config (node_world []) _ eq_refl _ eq_refl _).
  - split.
    + decide_now.
    + decide_now.
  - apply realb_ok. vm_compute. reflexivity.
  - left. reflexivity.
Defined.

(** The environment is written into the file by the next login: an address tried once for a
    test stays. *)
Example environment_is_persisted :
  let env (name : string) := if String.eqb name envCoordinatorURL then "http://test.example" else "" in
  let m : IO Config :=
    cfg ← Load env no_config_dir home;
    _ ← Save no_config_dir cfg;
    Load no_env no_config_dir home in
  on_ok cg_CoordinatorURL (m (node_world [])).1 = Ok "http://test.example".
Proof. vm_compute. reflexivity. Qed.

(** A backslash doubles at every save: the file is written with ["%q"] and read by cutting the
    quotes off. *)
Example backslash_doubles :
  let m : IO Config :=
    _ ← Save no_config_dir (sample_config <| cg_ModelID := "a" |>);
    cfg ← Load no_env no_config_dir home;
    _ ← Save no_config_dir cfg;
    Load no_env no_config_dir home in
  on_ok cg_ModelID (m (node_world [])).1 = Ok "a\\b".
Proof. vm_compute. reflexivity. Qed.

(** A heartbeat interval below a second is stored as zero. *)
Example subsecond_interval_lost :
  let m : IO Config :=
    _ ← Save no_config_dir (sample_config <| cg_HeartbeatInterval := 500000000 |>);
    Load no_env no_config_dir home in
  on_ok cg_HeartbeatInterval (m (node_world [])).1 = Ok 0.
Proof. vm_compute. reflexivity. Qed.

(** ** The key *)

Definition generated : result (list Z * list Z) := Ok (toy_public, toy_private).

Lemma key_kept_witness :
  let '(r, w1) := LoadOrCreateKey generated home (node_world []) in
  r = Ok (toy_private, EncodeToString Std toy_public) ∧
  ∀ w' generated', data_dir home w' → w_fs w' !! ["home"; ".thirdshift"; keyFileName] = w_fs w1 !! ["home"; ".thirdshift"; keyFileName] →
    LoadOrCreateKey generated' home w' = (Ok (toy_private, EncodeToString Std toy_public), w').
Proof.
  destruct (LoadOrCreateKey generated home (node_world [])) as [r w1] eqn:E.
  assert (Hr : r = Ok (toy_private, EncodeToString Std toy_public)) by (change r with ((r, w1).1); rewrite <-E; vm_compute; reflexivity).
  split; [exact Hr|]. rewrite Hr in E.
  destruct (key_kept toy_lawful home generated (node_world []) toy_private (EncodeToString Std toy_public) w1 (home_dir [])) as [_ H].
  - intros pub priv [= <- <-]. split; [reflexivity|]. decide_now.
  - exact E.
  - exact H.
Defined.

(** The key file is not written atomically: a write that is cut short leaves a file that is
    not a key, and the node cannot start or log in until it is removed by hand. *)
Example torn_key :
  let w := node_world [] <| w_faults := [None; None; None; None; Some 3%nat] |> in
  let '(r1, w1) := LoadOrCreateKey generated home w in
  is_ok r1 = false ∧ is_ok (LoadOrCreateKey generated home (w1 <| w_faults := [] |>)).1 = false.
Proof. vm_compute. split; reflexivity. Qed.

(** ** Login *)

Definition login_options (invite : string) : LoginOptions :=
  {| lo_DataDir := home; lo_CoordinatorURL := "https://coordinator.example"; lo_InviteToken := invite |}.
Definition login (invite : string) : IO Result :=
  Login no_env no_config_dir "linux" "amd64" "host" generated (login_options invite).

Definition registered_reply : Reply := Answer 201 (code ("node_1", "boot")) true.
Definition token_reply (token : string) : Reply := Answer 200 (code (token, 4000000000 * second)) true.


(** Only the network can fail without a trace. When the operating system fails the write of the
    credentials after that of the configuration, the login has failed and the new configuration stays. *)
Example login_torn :
  let w := node_world [registered_reply; token_reply "t1"] <| w_faults := replicate 12 None ++ [Some 0%nat] |> in
  let '(r, w') := login "invite" w in
  is_ok r = false ∧ is_Some (w_fs w' !! ["home"; ".thirdshift"; "config.toml"]) ∧
  w_fs w' !! ["home"; ".thirdshift"; credentialsFileName] = None.
Proof. vm_compute. split; [reflexivity|]. split; [by eexists|reflexivity]. Qed.

(** An invite is spent when the node registers. If the answer to the next call is lost, the
    node has no credentials, and the invite does not open the door again. *)
Example invite_lost :
  let '(r, w') := login "invite" (node_world [registered_reply; NoReply]) in
  is_ok r = false ∧ w_fs w' !! ["home"; ".thirdshift"; credentialsFileName] = None ∧
  w_requests w' = [SentPost "https://coordinator.example/v1/node/token" (code ("node_1", "boot"));
                   SentPost "https://coordinator.example/v1/node/register"
                     (code ("invite", EncodeToString Std toy_public, HardwareFingerprintHash "linux" "amd64" "host"))].
Proof. vm_compute. repeat split. Qed.

(** ** Renewal *)

Definition home_credentials : Credentials := {|
  cr_NodeID := "node_1"; cr_CoordinatorURL := "https://coordinator.example"; cr_PublicKey := "pub"; cr_AccessToken := "t1";
  cr_AccessTokenExpiresAt := second; cr_HardwareFingerprintHash := "fp" |}.
Definition logged_in (replies : list Reply) : World :=
  node_world replies <| w_fs ::= <[["home"; ".thirdshift"; credentialsFileName] := NFile (code_credentials home_credentials) 1]> |>.
Definition refresh_options : RefreshOptions := {|
  ro_CoordinatorURL := "https://coordinator.example"; ro_NodeID := "node_1"; ro_PrivateKey := toy_private; ro_DataDir := home |}.

Lemma logged_in_dir replies : data_dir home (logged_in replies).
Proof.
  split; [done|apply realb_ok; vm_compute; reflexivity|done|]. intros c Hc.
  repeat rewrite elem_of_cons in Hc. rewrite elem_of_nil in Hc. destruct Hc as [->|[->|[->|[]]]]; [by left|by left|].
  right. eexists _, _. vm_compute. reflexivity.
Qed.

Lemma toy_time u : toy_parse (toy_format u) = Ok (u / second * second) ∧ toy_format u ≠ "".
Proof.
  split; [|done]. unfold toy_format, toy_parse.
  change (drop_string 1 ("T" +:+ bytes_string (toy_encode (u / second)))) with (bytes_string (toy_encode (u / second))).
  rewrite string_bytes_string by apply pos_bits_bytes. by rewrite toy_roundtrip.
Qed.

Lemma token_renewed_witness :
  ∃ w' req, RefreshAccessToken refresh_options (logged_in [token_reply "t2"]) = (Ok ("t2", 4000000000 * second), w') ∧
    VerifyRefresh toy_Verify toy_parse toy_public req 0 0 = Ok tt ∧
    LoadCredentials home w' = (Ok (home_credentials <| cr_AccessToken := "t2" |> <| cr_AccessTokenExpiresAt := 4000000000 * second |>), w').
Proof.
  destruct (token_renewed toy_lawful home toy_Verify toy_parse refresh_options home_credentials (code_credentials home_credentials) 1
    (logged_in [token_reply "t2"]) 200 (code ("t2", 4000000000 * second)) true []
    {| tr_AccessToken := "t2"; tr_AccessTokenExpiresAt := 4000000000 * second |} toy_public 0 0
    toy_time toy_pair (logged_in_dir _) eq_refl ltac:(done)) as (w' & req & H1 & _ & H2 & H3).
  - vm_compute. reflexivity.
  - cbn. unfold uncode_credentials, code_credentials. by rewrite uncode_code.
  - reflexivity.
  - reflexivity.
  - reflexivity.
  - lia.
  - vm_compute. reflexivity.
  - done.
  - vm_compute. split; congruence.
  - exists w', req. split; [exact H1|]. split; [exact H2|exact H3].
Defined.

(** ** Sessions *)

#[local] Instance toy_urls : SessionURL := {|
  split_url := λ s, Some {| url_Scheme := if has_prefix s "http://" then "http" else "https"; url_Host := "coordinator.example"; url_Path := "" |};
  join_url := λ u, url_Scheme u +:+ "://" +:+ url_Host u +:+ url_Path u
|}.

Definition coordinator : string := "https://coordinator.example".
Definition endpoint : string := "wss://coordinator.example/v1/node/session".
Definition middle (n : Z) : Z := n / 2.

Lemma middle_fair : fair middle.
Proof. intros n Hn. unfold middle. split; [apply Z.div_pos; lia|apply Z.div_lt; lia]. Qed.

Definition fresh_agent : Agent.World := sample_world <| w_agent := initial_agent sample_window 0 |>.
Definition at_home (disk : FileSystem.World) (a : Agent.World) (dials : list Dial) : Session := {|
  sn_disk := disk; sn_agent := a; sn_token := "t1"; sn_expires := 4000000000 * second; sn_dials := dials;
  sn_dialled := []; sn_stopped := false; sn_waits := [] |}.

(** Two sessions, one lost and one refused; the process ends while the agent waits after the second. *)
Definition accepting (events : list LoopEvent) : Dial :=
  DialOpen (Ok tt) (GreetAccepted "node_1" "sess_1") (Some (sample_gpu 60)) events.
Definition broken_run : result bool * Session :=
  Run sample_options no_sign coordinator home (Some toy_private) default_backoff middle [] (Ok sample_runtime)
    [{| wt_ended := false; wt_events := []; wt_cancelled := false |}; {| wt_ended := false; wt_events := []; wt_cancelled := true |}]
    (at_home (node_world []) fresh_agent [accepting [LpOffer sample_offer]; DialRefused None (ErrMsg "connection refused")]).

Lemma run_ends_offline_witness : broken_run.1 = Ok true ∧ ag_state (w_agent (sn_agent broken_run.2)) = Offline.
Proof.
  pose proof (run_ends_offline sample_options no_sign coordinator home (Some toy_private) default_backoff middle [] (Ok sample_runtime)
    [{| wt_ended := false; wt_events := []; wt_cancelled := false |}; {| wt_ended := false; wt_events := []; wt_cancelled := true |}]
    (at_home (node_world []) fresh_agent [accepting [LpOffer sample_offer]; DialRefused None (ErrMsg "connection refused")])
    ltac:(discriminate)) as H.
  change (Run _ _ _ _ _ _ _ _ _ _ _) with broken_run in H. rewrite (surjective_pairing broken_run) in H. destruct H as (H1 & H2 & _).
  assert (Hok : broken_run.1 = Ok true) by (apply H2; vm_compute; reflexivity). split; [exact Hok|].
  destruct (H1 true Hok) as [_ H]. exact (H eq_refl).
Defined.

(** The process ends while the agent dials. *)
Example stopped_dialling :
  let '(r, s) := Run sample_options no_sign coordinator home (Some toy_private) default_backoff middle [] (Ok sample_runtime)
    [{| wt_ended := true; wt_events := []; wt_cancelled := false |}]
    (at_home (node_world []) fresh_agent [DialRefused None (ErrMsg "context canceled")]) in
  r = Ok true ∧ ag_state (w_agent (sn_agent s)) = Offline ∧ sn_waits s = [].
Proof. vm_compute. repeat split. Qed.

(** The process ends while the model is prepared: [Prepare] fails, and so does the run, in ERROR. *)
Example stopped_preparing :
  let '(r, s) := Run sample_options no_sign coordinator home (Some toy_private) default_backoff middle [] (Err (ErrMsg "context canceled"))
    [{| wt_ended := true; wt_events := []; wt_cancelled := false |}] (at_home (node_world []) fresh_agent []) in
  r = Err (ErrMsg "context canceled") ∧ ag_state (w_agent (sn_agent s)) = Error.
Proof. vm_compute. repeat split. Qed.

(** The job whose session was lost runs on: the disconnect only marks the agent. *)
Example lost_session_keeps_job :
  ag_activeJobID (w_agent (sn_agent broken_run.2)) = Some "job_1" ∧ sn_dialled broken_run.2 = [(endpoint, "t1"); (endpoint, "t1")] ∧
  sn_waits broken_run.2 = [2 * Second; Second].
Proof. vm_compute. repeat split. Qed.

Lemma reconnect_waits_witness :
  sn_waits broken_run.2 = [2 * Second; Second] ∧ Second - Second / 5 ≤ Second ≤ Second + Second / 5.
Proof.
  assert (Hw : sn_waits broken_run.2 = [2 * Second; Second]) by (vm_compute; reflexivity). split; [exact Hw|].
  assert (Hl : reverse (sn_waits broken_run.2) !! 0%nat = Some Second) by (rewrite Hw; reflexivity).
  pose proof (reconnect_waits sample_options no_sign coordinator home (Some toy_private) default_backoff middle [] (Ok sample_runtime)
    [{| wt_ended := false; wt_events := []; wt_cancelled := false |}; {| wt_ended := false; wt_events := []; wt_cancelled := true |}]
    (at_home (node_world []) fresh_agent [accepting [LpOffer sample_offer]; DialRefused None (ErrMsg "connection refused")])
    0%nat Second eq_refl middle_fair eq_refl Hl) as H.
  exact (proj1 H).
Defined.

(** A dial with a token that is refused, a renewal and a second dial. *)
Definition refused_then_accepted : Session :=
  at_home (logged_in [token_reply "t2"]) sample_world [DialRefused (Some 401) (ErrMsg "bad handshake"); accepting []].

Lemma expired_token_recovers_witness :
  (runSession sample_options no_sign coordinator home (Some toy_private) refused_then_accepted).1 = Err (ErrMsg "EOF") ∧
  sn_dialled (runSession sample_options no_sign coordinator home (Some toy_private) refused_then_accepted).2 =
    [(endpoint, "t2"); (endpoint, "t1")].
Proof.
  destruct (RefreshAccessToken {| ro_CoordinatorURL := coordinator; ro_NodeID := "node_1"; ro_PrivateKey := toy_private; ro_DataDir := home |}
    (logged_in [token_reply "t2"])) as [r disk] eqn:E.
  assert (Hr : r = Ok ("t2", 4000000000 * second)) by (change r with ((r, disk).1); rewrite <-E; vm_compute; reflexivity).
  rewrite Hr in E.
  assert (Hurl : sessionURL coordinator = Ok endpoint) by (vm_compute; reflexivity).
  assert (Hdo : token_will_do (sn_token refused_then_accepted) (sn_expires refused_then_accepted) (w_now (sn_disk refused_then_accepted)) = true)
    by (vm_compute; reflexivity).
  destruct (expired_token_recovers sample_options no_sign coordinator home (Some toy_private) toy_private endpoint refused_then_accepted
    (ErrMsg "bad handshake") "sess_1" (Some (sample_gpu 60)) [] [] ("t2", 4000000000 * second) disk
    Hurl eq_refl ltac:(discriminate) Hdo eq_refl E) as [H _].
  rewrite H. split; vm_compute; reflexivity.
Defined.
End NodeExamples.
