(* ===== verification/SyncExamples.v ===== *)
(** * Examples of a synced catalog

    A catalog directory with one manifest and the release it names, read by a coordinator that
    syncs it and by a node that prepares it, and what happens when the manifest changes. *)
From stdpp Require Import base gmap strings list.
From Stdlib Require Import ZArith Lia Ascii SpecFloat.
From S2P Require Import Prelude GoStrings Float64 Sha256 Encoding Protocol Database Scheduler Agent Ledger LedgerTheory LedgerExamples JobStore JobExamples Catalog FileSystem FileURL Releases ReleaseTheory ModelCache DeliveryExamples NodeConfig CatalogFiles Launcher LocalRuntime CatalogSync SyncTheory ServingTheory.

#[local] Existing Instance toy.
#[local] Instance all_letters : Unicode := λ _, true.

(** Rounding to so many decimals. *)
#[local] Instance toy_numeric : Numeric := λ digits x, Some (round_to_Z (fmul x (float_of_Z (10 ^ digits)))).
#[local] Instance nothing_embedded : Embedded := {| embedded_catalog := []; embedded_license := λ _, None |}.

(** Every program that is started answers the second health check. *)
#[local] Instance toy_processes : Processes := {|
  free_loopback_port := λ _, Ok 40000;
  start_process := λ _ _ _ _, Ok [LookHealth None; LookHealth (Some 200)]
|}.

Definition newline : string := of_bytes [char_of 10].
Definition text_of (lines : list string) : string := String.concat newline lines +:+ newline.

(** The manifest of the model [llama], in a revision. *)
Definition model_yaml (revision sha : string) : string := text_of [
  "schema_version: 1"; "model_id: llama"; "display_name: Llama"; "status: alpha";
  "source:"; "  url: http://models/w"; "  revision: " +:+ revision; "  sha256: " +:+ sha; "  size_bytes: 7";
  "license:"; "  identifier: mit";
  "runtime:"; "  engine: llama.cpp"; "  build_id: b1"; "  release_manifest: runtime.json"; "  binary_sha256: " +:+ program_hash;
  "  arguments:"; "    context_size: 4096"; "    host: 127.0.0.1"; "    port: dynamic"; "    parallel: 1";
  "hardware:"; "  min_vram_mb: 4096"; "  min_ram_mb: 4096";
  "limits:"; "  max_input_tokens: 2048"; "capabilities:"; "  chat_completions: true";
  "pricing:"; "  customer_input_per_million_usd: 0.01"; "verification:"; "  challenge_rate: 0.01"].

Module SyncExamples.

Definition catalog_tree (manifest : string) : files :=
  <[["srv"; "catalog"; "llama.yaml"] := NFile manifest 0]>
    (<[["srv"; "catalog"; "runtime.json"] := NFile "release" 0]> (dirs [["srv"]; ["srv"; "catalog"]; ["srv"; "node"]])).
Definition good_yaml : string := model_yaml "r2" ("sha256:" +:+ DeliveryExamples.weights_hash).

(** ** A node that prepares the model *)

Definition provider : LocalRuntimeProvider := {|
  lp_CatalogDir := "/srv/catalog"; lp_DataDir := "/srv/node"; lp_RuntimeRoot := ""; lp_ModelCacheDir := ""; lp_ModelQuotaBytes := 0;
  lp_RuntimePublicKey := Some DeliveryExamples.key32; lp_GPUVendor := "apple"; lp_running := None; lp_processes := [] |}.
Definition node_disk : World := world (catalog_tree good_yaml) [Answer 200 program true; Answer 200 DeliveryExamples.weights true].
Definition prepare_llama (p : LocalRuntimeProvider) : IO (result RuntimeStatus * LocalRuntimeProvider) :=
  Prepare DeliveryExamples.same_runes one_device "linux" "amd64" DeliveryExamples.no_info toy_ParseFloat p "llama".


Definition good_manifest : Manifest := match parse_text toy_ParseFloat good_yaml with Ok m => m | Err _ => empty_manifest end.

Lemma loaded_inj {A B C} (a a' : A) (b b' : B) (c c' : C) : (@Ok (A * B) (a, b), c) = (Ok (a', b'), c') → a = a' ∧ c = c'.
Proof. by intros [= -> _ ->]. Qed.
Lemma ok_inj {A} (a a' : A) : Ok a = Ok a' → a = a'.
Proof. by intros [= ->]. Qed.

Lemma node_reads m r : reads toy_ParseFloat provider "llama" m r node_disk → m = good_manifest ∧ r = release.
Proof.
  intros (source & w1 & Hm & Hr). change (lp_CatalogDir (with_defaults provider)) with "/srv/catalog" in Hm, Hr.
  assert (Hl : LoadCatalogManifest toy_ParseFloat (read_path "/srv/catalog") "llama" node_disk =
    (Ok (good_manifest, "/srv/catalog/llama.yaml"), node_disk)) by (vm_compute; reflexivity).
  rewrite Hl in Hm. apply loaded_inj in Hm as [<- <-]. split; [done|].
  assert (Hrel : (runtime_release (read_path "/srv/catalog") (ru_ReleaseManifest (mf_Runtime good_manifest)) node_disk).1 = Ok release)
    by (vm_compute; reflexivity).
  rewrite Hrel in Hr. by apply ok_inj in Hr.
Qed.

(** ** A coordinator that syncs it *)

Definition fresh_names : list string := (λ n, itoa (Z.of_nat n)) <$> seq 100 30.
Definition coordinator_at (now : Z) (manifest : string) (db : DB) : Coordinator :=
  {| co_db := db <| db_now := now |> <| db_entropy := fresh_names |>; co_disk := world (catalog_tree manifest) [] |}.
Definition manifest_path : Path := read_path "/srv/catalog/llama.yaml".

Lemma coordinator_versions now manifest db : db_model_versions (co_db (coordinator_at now manifest db)) = db_model_versions db.
Proof. reflexivity. Qed.
Lemma coordinator_files now manifest db : db_model_artifacts (co_db (coordinator_at now manifest db)) = db_model_artifacts db.
Proof. reflexivity. Qed.
Lemma coordinator_now now manifest db : db_now (co_db (coordinator_at now manifest db)) = now.
Proof. reflexivity. Qed.

Lemma market_publishable : publishable good_manifest (co_db (coordinator_at hour good_yaml market_db)).
Proof.
  assert (Hone : map_Forall (λ k v, k = "mv_1" ∧ mv_version v = "1" ∧ mv_created_at v = 0) (db_model_versions market_db)) by decide_now.
  assert (Hfile : map_Forall (λ _ f, ma_model_version_id f = "mv_1") (db_model_artifacts market_db)) by decide_now.
  assert (Hmv : is_Some (db_model_versions market_db !! "mv_1")) by (eexists; vm_compute; reflexivity).
  assert (Hver : version_of good_manifest = "r2") by (vm_compute; reflexivity).
  assert (Hnot : ∀ k v, db_model_versions market_db !! k = Some v → ¬ is_version good_manifest v).
  { intros k v (_ & E & _)%Hone [_ E2]. rewrite E, Hver in E2. discriminate E2. }
  split; unfold published; rewrite ?coordinator_versions, ?coordinator_files, ?coordinator_now.
  - intros k1 k2 v1 v2 H1 _ His _. destruct (Hnot _ _ H1 His).
  - intros i f Hi _. rewrite (Hfile i f Hi). destruct Hmv as [v Hv]. exists v. split; [exact Hv|]. intros His. destruct (Hnot _ _ Hv His).
  - intros k v t Hk _ _ Ht. destruct (Hone k v Hk) as (_ & _ & ->).
    destruct Ht as [(k0 & v0 & H0 & His & _)|[_ ->]]; [destruct (Hnot _ _ H0 His)|]. vm_compute. reflexivity.
Qed.

Lemma prepared_ok (x : result (result RuntimeStatus * LocalRuntimeProvider) * World) url :
  match x.1 with Ok (Ok status, _) => String.eqb (rs_BaseURL status) url | _ => false end = true →
  ∃ status p' w', x = (Ok (Ok status, p'), w') ∧ rs_BaseURL status = url.
Proof. destruct x as [[[[status|e] p']|e] w']; [|done..]. intros E%String.eqb_eq. by exists status, p', w'. Qed.

Lemma node_prepares : ∃ status p' w',
  Prepare DeliveryExamples.same_runes one_device "linux" "amd64" DeliveryExamples.no_info toy_ParseFloat provider "llama" node_disk =
    (Ok (Ok status, p'), w') ∧ rs_BaseURL status = "http://127.0.0.1:40000".
Proof. apply prepared_ok. vm_compute. reflexivity. Qed.
Lemma coordinator_syncs : ∃ u c', upsertManifest good_manifest manifest_path (coordinator_at hour good_yaml market_db) = (Ok u, c').
Proof. apply run_ok. vm_compute. reflexivity. Qed.
Lemma coordinator_reads : named_release good_manifest manifest_path (co_disk (coordinator_at hour good_yaml market_db)) =
  (Ok (Some release), co_disk (coordinator_at hour good_yaml market_db)).
Proof. vm_compute. reflexivity. Qed.
Lemma manifest_sha : plain_sha (so_SHA256 (mf_Source good_manifest)).
Proof. split; [vm_compute; reflexivity|vm_compute; discriminate]. Qed.
Lemma release_sha k a : rm_Artifacts release !! k = Some a → plain_sha (rt_SHA256 a).
Proof.
  assert (H : map_Forall (λ _ a, trim_space (rt_SHA256 a) = rt_SHA256 a ∧ rt_SHA256 a ≠ "") (rm_Artifacts release)) by decide_now.
  apply H.
Qed.

Lemma prepared_node_accepted_witness :
  ∃ status hashes c', upsertManifest good_manifest manifest_path (coordinator_at hour good_yaml market_db) = (Ok tt, c') ∧
    ModelHashes (rs_ModelID status) (co_db c') = (Ok hashes, co_db c') ∧
    mhs_ModelHash hashes = rs_ModelHash status ∧ RuntimeHashValid hashes (rs_RuntimeHash status) = true ∧
    rs_BaseURL status = "http://127.0.0.1:40000".
Proof.
  destruct node_prepares as (status & p' & w' & Hp & Hurl). destruct coordinator_syncs as ([] & c' & Hu).
  destruct (prepared_node_accepted DeliveryExamples.same_runes one_device "linux" "amd64" DeliveryExamples.no_info toy_ParseFloat
    provider "llama" node_disk status p' w' Hp) as (m & r & key & a & [-> ->]%node_reads & Ha & H).
  destruct (H manifest_sha (release_sha _ _ Ha) manifest_path _ c' _ coordinator_reads market_publishable Hu) as (hashes & H1 & H2 & H3).
  exists status, hashes, c'. split_and!; assumption.
Defined.

(** ** Servers *)

(** The provider after each of a list of calls of [Prepare]. *)
Definition after_call (s : LocalRuntimeProvider * World) (modelID : string) : LocalRuntimeProvider * World :=
  let '(p, w) := s in
  match Prepare DeliveryExamples.same_runes one_device "linux" "amd64" DeliveryExamples.no_info toy_ParseFloat p modelID w with
  | (Ok (_, p'), w') => (p', w')
  | (Err _, w') => (p, w')
  end.

Lemma servers_accounted_witness : accounted (foldl after_call (provider, node_disk) ["llama"; "other"; "llama"]).1 ∧
  accounted (Close (foldl after_call (provider, node_disk) ["llama"; "other"; "llama"]).1).
Proof.
  assert (H : ∀ l p w, accounted p → accounted (foldl after_call (p, w) l).1).
  { intros l. induction l as [|m l IH]; intros p w Hp; [exact Hp|]. cbn [foldl].
    destruct (after_call (p, w) m) as [p1 w1] eqn:E. apply IH. cbv beta iota delta [after_call] in E.
    destruct (Prepare _ _ _ _ _ _ p m w) as [[[r p2]|e] w2] eqn:Ep; injection E as <- <-; [|exact Hp].
    exact (proj1 (servers_accounted DeliveryExamples.same_runes one_device "linux" "amd64" DeliveryExamples.no_info toy_ParseFloat
      p m w p2 w2 r Hp) Ep). }
  assert (H1 := H ["llama"; "other"; "llama"] provider node_disk (Permutation_refl [])). split; [exact H1|].
  exact (proj1 (proj2 (servers_accounted DeliveryExamples.same_runes one_device "linux" "amd64" DeliveryExamples.no_info toy_ParseFloat
    (foldl after_call (provider, node_disk) ["llama"; "other"; "llama"]).1 "llama" node_disk
    (foldl after_call (provider, node_disk) ["llama"; "other"; "llama"]).1 node_disk (Err ENOENT) H1))).
Defined.

(** A second call starts a second server and stops the first; a model that is unknown changes nothing. *)
Example servers_of_three_calls :
  let p := (foldl after_call (provider, node_disk) ["llama"; "other"; "llama"]).1 in
  length (starts (lp_processes p)) = 2%nat ∧ length (stops (lp_processes p)) = 1%nat ∧
  length (stops (lp_processes (Close p))) = 2%nat.
Proof. vm_compute. repeat split. Qed.

(** ** Manifests that change *)

Definition sync_at (now : Z) (manifest : string) (c : Coordinator) : Coordinator :=
  (SyncCatalog toy_ParseFloat "/srv/catalog"
     (c <| co_db ::= λ d, d <| db_now := now |> |> <| co_disk := world (catalog_tree manifest) [] |>)).2.
Definition accepted_hash (c : Coordinator) : string :=
  match (ModelHashes "llama" (co_db c)).1 with Ok h => mhs_ModelHash h | Err _ => "" end.
Definition market : Coordinator := coordinator_at second good_yaml market_db.
Definition first_yaml : string := model_yaml "r1" "sha256:one".
Definition second_yaml : string := model_yaml "r2" "sha256:two".

(** A catalog that goes back to an earlier revision of a model stays, in the database, on the
    later one: the row of the earlier revision keeps its date. *)
Example catalog_revert_ignored :
  let c2 := sync_at (2 * hour) second_yaml (sync_at hour first_yaml market) in
  accepted_hash (sync_at hour first_yaml market) = "sha256:one" ∧ accepted_hash c2 = "sha256:two" ∧
  accepted_hash (sync_at (3 * hour) first_yaml c2) = "sha256:two".
Proof. vm_compute. repeat split. Qed.

(** A file that is replaced under the same revision leaves the row of the old one. *)
Example old_file_stays :
  let c2 := sync_at (2 * hour) (model_yaml "r1" "sha256:zero") (sync_at hour first_yaml market) in
  length (filter (λ f, ma_url f.2 = "http://models/w") (map_to_list (db_model_artifacts (co_db c2)))) = 2%nat.
Proof. vm_compute. reflexivity. Qed.

(** A node that still has the version before the synced one is chosen for jobs, though results
    with its model hash are no longer accepted. *)
Example stale_node_eligible :
  let c := sync_at hour second_yaml market in
  (Scheduler.NodeID <$> eligible_nodes (co_db c) "llama" 0) = ["node_c"] ∧
  hr_model_hash (sample_heartbeat "node_c" "sess_c") = Some "sha256:gguf" ∧ accepted_hash c = "sha256:two".
Proof. vm_compute. repeat split. Qed.

(** A manifest without a limit for the input stops the sync of the whole directory, although
    the limits of the model would fall back on the context size. *)
Example missing_input_limit_aborts :
  let text := text_of ["model_id: llama"; "status: alpha"; "source:"; "  url: http://models/w"; "  sha256: one"; "  size_bytes: 7";
    "  revision: r9"; "hardware:"; "  min_ram_mb: 4096"; "runtime:"; "  arguments:"; "    context_size: 4096"] in
  let '(r, c) := SyncCatalog toy_ParseFloat "/srv/catalog" (coordinator_at hour text market_db) in
  is_ok r = false ∧ db_models (co_db c) = db_models market_db.
Proof. vm_compute. split; reflexivity. Qed.
End SyncExamples.
