(* ===== verification/Startup.v ===== *)
(** * How a coordinator starts

    [internal/coordinator/config/config.go], the settings read from the environment, and
    [internal/coordinator/database/migrations.go], the schema migrations applied before it
    serves. What a migration's SQL does to the schema is a parameter; a migration is taken
    neither to write [schema_migrations] itself nor to end its own transaction. *)
From stdpp Require Import base gmap strings list sorting.
From Stdlib Require Import ZArith Lia Ascii.
From S2P Require Import Prelude GoStrings Float64 Sha256 Scheduler OperatorReports FileSystem ModelCache NodeConfig.

Lemma list_filter_iff_forall {A} (P Q : A → Prop) `{!∀ x, Decision (P x), !∀ x, Decision (Q x)} (l : list A) :
  (∀ x, x ∈ l → P x ↔ Q x) → filter P l = filter Q l.
Proof.
  induction l as [|x l IH]; intros Hi; [done|]. rewrite !filter_cons, IH by (intros; apply Hi; by right).
  assert (P x ↔ Q x) as HPQ by (apply Hi; left). destruct (decide (P x)), (decide (Q x)); tauto || done.
Qed.

(** ** Settings *)

Definition defaultCoordinatorAddr : string := ":8080".

Record Config := {
  cc_Addr : string; cc_DatabaseURL : string; cc_DatabaseURLSource : string; cc_Version : string; cc_OperatorToken : string;
  cc_AccessTokenSecret : string; cc_HeartbeatInterval : Z; cc_SessionStaleAfter : Z; cc_StaleSweepInterval : Z;
  cc_SchedulerWeights : SchedulerWeights; cc_CreditHold : Z; cc_Alerts : AlertConfig; cc_RequesterRegionHeader : string;
  cc_CairoHost : string; cc_CairoWriteKey : string; cc_CairoNamespace : string
}.

Section settings.
(** [os.Getenv] and [strconv.ParseFloat]. *)
Context (os_Getenv : string → string) (ParseFloat : string → result float64).

Definition getenv (key fallback : string) : string :=
  let value := os_Getenv key in if String.eqb value "" then fallback else value.

Definition intEnv (key : string) (fallback : Z) : Z :=
  let value := os_Getenv key in
  if String.eqb value "" then fallback
  else match atoi value with
  | Some parsed => if parsed <=? 0 then fallback else parsed
  | None => fallback
  end.

Definition durationSeconds (key : string) (fallback : Z) : Z :=
  let value := os_Getenv key in
  if String.eqb value "" then fallback
  else match atoi value with
  | Some seconds => if seconds <=? 0 then fallback else duration_of seconds
  | None => fallback
  end.

Definition floatEnv (key : string) (fallback : float64) : float64 :=
  let value := os_Getenv key in
  if String.eqb value "" then fallback
  else match ParseFloat value with Ok parsed => parsed | Err _ => fallback end.

(** The address of the database, and the variable it came from. *)
Definition database_url : string * string :=
  let first := os_Getenv "THIRDSHIFT_DATABASE_URL" in
  let second := os_Getenv "DATABASE_URL" in
  if negb (String.eqb first "") then (first, "THIRDSHIFT_DATABASE_URL")
  else if negb (String.eqb second "") then (second, "DATABASE_URL")
  else ("", "").

(** Durations are in nanoseconds, but for the windows of the alerts, which are not read here. *)
Definition LoadConfig (defaultVersion : string) : Config :=
  let weights := DefaultSchedulerWeights in
  let alerts := DefaultAlertConfig in
  {| cc_Addr := getenv "THIRDSHIFT_COORDINATOR_ADDR" defaultCoordinatorAddr;
     cc_DatabaseURL := database_url.1; cc_DatabaseURLSource := database_url.2;
     cc_Version := getenv "THIRDSHIFT_VERSION" defaultVersion;
     cc_OperatorToken := os_Getenv "THIRDSHIFT_OPERATOR_TOKEN";
     cc_AccessTokenSecret := os_Getenv "THIRDSHIFT_ACCESS_TOKEN_SECRET";
     cc_HeartbeatInterval := durationSeconds "THIRDSHIFT_HEARTBEAT_INTERVAL_SECONDS" (15 * Second);
     cc_SessionStaleAfter := durationSeconds "THIRDSHIFT_SESSION_STALE_AFTER_SECONDS" (45 * Second);
     cc_StaleSweepInterval := durationSeconds "THIRDSHIFT_STALE_SWEEP_INTERVAL_SECONDS" (15 * Second);
     cc_SchedulerWeights := {|
       wWarmModelBonus := floatEnv "THIRDSHIFT_SCHEDULER_WEIGHT_WARM_MODEL" (wWarmModelBonus weights);
       wRollingSuccessRate := floatEnv "THIRDSHIFT_SCHEDULER_WEIGHT_SUCCESS_RATE" (wRollingSuccessRate weights);
       wNormalizedTokensPerSecond := floatEnv "THIRDSHIFT_SCHEDULER_WEIGHT_TOKENS_PER_SECOND" (wNormalizedTokensPerSecond weights);
       wLowRecentFailureBonus := floatEnv "THIRDSHIFT_SCHEDULER_WEIGHT_RECENT_FAILURE" (wLowRecentFailureBonus weights);
       wThermalHeadroom := floatEnv "THIRDSHIFT_SCHEDULER_WEIGHT_THERMAL" (wThermalHeadroom weights);
       wHostFairness := floatEnv "THIRDSHIFT_SCHEDULER_WEIGHT_FAIRNESS" (wHostFairness weights);
       wRegionalPreference := floatEnv "THIRDSHIFT_SCHEDULER_WEIGHT_REGION" (wRegionalPreference weights) |};
     cc_CreditHold := durationSeconds "THIRDSHIFT_CREDIT_HOLD_SECONDS" (24 * 3600 * Second);
     cc_Alerts := {|
       al_DisconnectSpikeWindow := al_DisconnectSpikeWindow alerts;
       al_DisconnectSpikeThreshold := intEnv "THIRDSHIFT_ALERT_DISCONNECT_SPIKE_THRESHOLD" (al_DisconnectSpikeThreshold alerts);
       al_JobFailureWindow := al_JobFailureWindow alerts;
       al_JobFailureRateThreshold := floatEnv "THIRDSHIFT_ALERT_JOB_FAILURE_RATE" (al_JobFailureRateThreshold alerts);
       al_RuntimeCrashWindow := al_RuntimeCrashWindow alerts;
       al_RuntimeCrashThreshold := intEnv "THIRDSHIFT_ALERT_RUNTIME_CRASH_THRESHOLD" (al_RuntimeCrashThreshold alerts);
       al_OverTempWindow := al_OverTempWindow alerts; al_NoCapacityWindow := al_NoCapacityWindow alerts;
       al_AuthAnomalyWindow := al_AuthAnomalyWindow alerts;
       al_AuthAnomalyThreshold := intEnv "THIRDSHIFT_ALERT_AUTH_ANOMALY_THRESHOLD" (al_AuthAnomalyThreshold alerts);
       al_LedgerImbalanceCheck := true; al_NoCapacityForModelEnabled := true |};
     cc_RequesterRegionHeader := getenv "THIRDSHIFT_REQUESTER_REGION_HEADER" "X-Geo-Region";
     cc_CairoHost := os_Getenv "CAIRO_HOST"; cc_CairoWriteKey := os_Getenv "CAIRO_WRITE_KEY";
     cc_CairoNamespace := getenv "CAIRO_NAMESPACE" "default" |}.
End settings.

(** ** Migrations *)

Record AppliedMigration := { am_Version : string; am_Name : string }.
Record migrationFile := { mg_Version : string; mg_Name : string; mg_File : string; mg_Checksum : string; mg_SQL : string }.

(** A row of [schema_migrations]: the name and the checksum. *)
Record MigrationRow := { mr_name : string; mr_checksum : string }.

(** The schema, and [schema_migrations] once it exists. *)
Record Migrated (S : Type) := { md_schema : S; md_table : option (gmap string MigrationRow) }.
Arguments md_schema {S} _.
Arguments md_table {S} _.
Definition rows_of {S} (m : Migrated S) : gmap string MigrationRow := default ∅ (md_table m).

Section migrations.
Context `{!Unicode, !SortSlice migrationFile} {S : Type} (exec_sql : string → S → result S).

(** One entry of the directory; [strings.SplitN(name, "_", 2)]. *)
Definition load_migration (dir : string) (files : list migrationFile) (entry : string * node) : IO (list migrationFile) :=
  let '(name, n) := entry in
  if bool_decide (n = NDir) || negb (has_suffix name ".up.sql") then mret files
  else match cut "_"%char name with
  | None => fail (ErrMsg ("migration " +:+ Quote name +:+ " must start with a numeric version and underscore"))
  | Some (version, rest) =>
      let p := Join (read_path dir) name in
      contents ← wrap ("read migration " +:+ Quote (path_string p)) (ReadFile p);
      mret (files ++ [{| mg_Version := version; mg_Name := trim_suffix rest ".up.sql"; mg_File := path_string p;
                         mg_Checksum := hex_encode (sum256 (string_bytes contents)); mg_SQL := contents |}])
  end.

Definition before (a b : migrationFile) : bool := string_ltb (mg_Version a) (mg_Version b).

Definition loadMigrationFiles (dir : string) : IO (list migrationFile) :=
  entries ← wrap ("read migrations directory " +:+ Quote dir) (ReadDir (read_path dir));
  files ← fold_st (load_migration dir) [] entries;
  mret (sort_slice before files).

(** One transaction: whether the migration was run now. An error leaves nothing of it. *)
Definition applyOne (file : migrationFile) : St (Migrated S) bool := λ m,
  match rows_of m !! mg_Version file with
  | Some row =>
      if String.eqb (mr_checksum row) (mg_Checksum file) then (Ok false, m)
      else (Err (ErrMsg ("migration " +:+ mg_Version file +:+ " checksum mismatch; refusing to run changed migration")), m)
  | None =>
      match exec_sql (mg_SQL file) (md_schema m) with
      | Err e => (Err (ErrWrap ("apply migration " +:+ mg_Version file +:+ " (" +:+ mg_File file +:+ ")") e), m)
      | Ok schema =>
          (Ok true, {| md_schema := schema;
                       md_table := Some (<[mg_Version file := {| mr_name := mg_Name file; mr_checksum := mg_Checksum file |}]> (rows_of m)) |})
      end
  end.

(** [CREATE TABLE IF NOT EXISTS schema_migrations]. *)
Definition ensure_table : St (Migrated S) unit :=
  modify (λ m, {| md_schema := md_schema m; md_table := Some (rows_of m) |}).

(** The loop of [Apply]. *)
Fixpoint apply_files (files : list migrationFile) : St (Migrated S) (list AppliedMigration) :=
  match files with
  | [] => mret []
  | file :: rest =>
      changed ← applyOne file;
      applied ← apply_files rest;
      mret (if changed : bool then {| am_Version := mg_Version file; am_Name := mg_Name file |} :: applied else applied)
  end.

(** [Apply], on the disk with the migrations and the database. *)
Definition Apply (dir : string) : St (World * Migrated S) (list AppliedMigration) := λ '(w, m),
  match loadMigrationFiles dir w with
  | (Err e, w') => (Err e, (w', m))
  | (Ok files, w') => let '(r, m') := (_ ← ensure_table; apply_files files) m in (r, (w', m'))
  end.

(** ** What is applied, and when *)

Lemma applyOne_cases file m r m' : applyOne file m = (r, m') →
  (∃ e, r = Err e ∧ m' = m) ∨
  (r = Ok false ∧ m' = m ∧ ∃ row, rows_of m !! mg_Version file = Some row ∧ mr_checksum row = mg_Checksum file) ∨
  (r = Ok true ∧ rows_of m !! mg_Version file = None ∧ exec_sql (mg_SQL file) (md_schema m) = Ok (md_schema m') ∧
   rows_of m' = <[mg_Version file := {| mr_name := mg_Name file; mr_checksum := mg_Checksum file |}]> (rows_of m)).
Proof.
  unfold applyOne. destruct (rows_of m !! mg_Version file) as [row|] eqn:E.
  - destruct (String.eqb_spec (mr_checksum row) (mg_Checksum file)) as [Hc|Hc]; intros [= <- <-]; [right; left|left; by eexists].
    split_and!; [done..|]. by exists row.
  - destruct (exec_sql _ _) as [schema|e] eqn:Es; intros [= <- <-]; [right; right|left; by eexists]. split_and!; done.
Qed.

(** A recorded migration stays recorded as it is. *)
Lemma applyOne_keeps file m : rows_of m ⊆ rows_of (applyOne file m).2.
Proof.
  destruct (applyOne file m) as [r m'] eqn:E. apply applyOne_cases in E as [(e & _ & ->)|[(_ & -> & _)|(_ & Hn & _ & Hr)]]; [done..|].
  cbn. rewrite Hr. by apply insert_subseteq.
Qed.

Lemma apply_files_keeps files m : rows_of m ⊆ rows_of (apply_files files m).2.
Proof.
  revert m. induction files as [|f files IH]; intros m; [done|]. cbn [apply_files]. unfold mbind, St_bind.
  pose proof (applyOne_keeps f m) as H1. destruct (applyOne f m) as [[changed|e] m1]; [|exact H1]. cbn [snd] in H1.
  pose proof (IH m1) as H2. destruct (apply_files files m1) as [[l|e] m2]; cbn [snd] in *; by etrans.
Qed.

(** A file whose migration is recorded as it is. *)
Definition recorded (m : Migrated S) (file : migrationFile) : Prop :=
  ∃ row, rows_of m !! mg_Version file = Some row ∧ mr_checksum row = mg_Checksum file.

Lemma recorded_mono m m' file : rows_of m ⊆ rows_of m' → recorded m file → recorded m' file.
Proof. intros Hs (row & Hr & Hc). exists row. split; [by eapply lookup_weaken|done]. Qed.

Lemma apply_files_recorded files m l m' : apply_files files m = (Ok l, m') → Forall (recorded m') files.
Proof.
  revert m l. induction files as [|f files IH]; intros m l Hrun; [constructor|]. cbn [apply_files] in Hrun.
  apply bind_ok in Hrun as (changed & m1 & H1 & Hrun). apply bind_ok in Hrun as (applied & m2 & H2 & Hrun).
  apply ret_ok in Hrun as [_ ->]. constructor; [|by eapply IH].
  pose proof (apply_files_keeps files m1) as Hk. rewrite H2 in Hk. eapply recorded_mono; [exact Hk|].
  apply applyOne_cases in H1 as [(e & ? & _)|[(_ & -> & Hr)|(_ & _ & _ & Hr)]]; [done|exact Hr|].
  eexists. rewrite Hr, lookup_insert_eq. by split.
Qed.

Lemma apply_recorded files m : Forall (recorded m) files → apply_files files m = (Ok [], m).
Proof.
  induction 1 as [|f files (row & Hr & Hc) Hf IH]; [done|]. cbn [apply_files]. unfold mbind, St_bind.
  unfold applyOne. by rewrite Hr, Hc, String.eqb_refl, IH.
Qed.

(** The SQL of the migrations that were run, one after the other. *)
Definition run_sql (sqls : list string) (schema : S) : result S :=
  foldl (λ r sql, r ≫= exec_sql sql) (Ok schema) sqls.

Lemma run_sql_cons sql sqls schema : run_sql (sql :: sqls) schema = exec_sql sql schema ≫= run_sql sqls.
Proof.
  unfold run_sql. cbn. destruct (exec_sql sql schema) as [s|e]; [done|]. cbn. by induction sqls.
Qed.

(** The migrations of a list that a database has not recorded. *)
Definition pending (m : Migrated S) (files : list migrationFile) : list migrationFile :=
  filter (λ f, rows_of m !! mg_Version f = None) files.

Lemma apply_files_runs files m l m' : NoDup (mg_Version <$> files) → apply_files files m = (Ok l, m') →
  l = (λ f, {| am_Version := mg_Version f; am_Name := mg_Name f |}) <$> pending m files ∧
  run_sql (mg_SQL <$> pending m files) (md_schema m) = Ok (md_schema m').
Proof.
  revert m l. induction files as [|f files IH]; intros m l Hnd Hrun; [by apply ret_ok in Hrun as [-> ->]|].
  cbn [apply_files] in Hrun. apply bind_ok in Hrun as (changed & m1 & H1 & Hrun).
  apply bind_ok in Hrun as (applied & m2 & H2 & Hrun). apply ret_ok in Hrun as [-> ->].
  cbn [fmap list_fmap] in Hnd. apply NoDup_cons in Hnd as [Hf Hnd]. destruct (IH _ _ Hnd H2) as [-> Hsql].
  unfold pending in *. rewrite !filter_cons. apply applyOne_cases in H1 as [(e & ? & _)|[([= ->] & -> & row & Hr & _)|([= ->] & Hn & Hx & Hr)]]; [done|..].
  - rewrite decide_False by congruence. by split.
  - rewrite decide_True by done.
    assert (Hp : filter (λ f0, rows_of m1 !! mg_Version f0 = None) files = filter (λ f0, rows_of m !! mg_Version f0 = None) files).
    { apply list_filter_iff_forall. intros g Hg. rewrite Hr, lookup_insert_ne; [done|].
      intros E. apply Hf. rewrite E. by apply list_elem_of_fmap_2. }
    rewrite Hp in *. cbn [fmap list_fmap]. rewrite run_sql_cons, Hx. by split.
Qed.

(** A run that fails has succeeded on the files before. *)
Lemma apply_files_stops files m e m' : apply_files files m = (Err e, m') →
  ∃ done rest l, files = done ++ rest ∧ rest ≠ [] ∧ apply_files done m = (Ok l, m').
Proof.
  revert m. induction files as [|f files IH]; intros m Hrun; [done|]. cbn [apply_files] in Hrun.
  unfold mbind, St_bind in Hrun. destruct (applyOne f m) as [[changed|e1] m1] eqn:E1.
  - destruct (apply_files files m1) as [[l|e2] m2] eqn:E2; [done|]. injection Hrun as -> ->.
    destruct (IH m1 E2) as (done & rest & l & -> & Hr & Hd). eexists (f :: done), rest, _. split_and!; [done|done|].
    cbn [apply_files]. unfold mbind, St_bind. by rewrite E1, Hd.
  - apply applyOne_cases in E1 as [(e2 & _ & ->)|[(? & _)|(? & _)]]; [|done..]. injection Hrun as _ ->.
    by exists [], (f :: files), [].
Qed.

Lemma before_order (a b c : migrationFile) : (before a b = true → before b a = false) ∧
  (before b a = false → before c b = false → before c a = false).
Proof.
  unfold before. split; [apply string_ltb_asym|]. intros H1 H2. apply not_true_iff_false. intros H3.
  destruct (string_ltb (mg_Version a) (mg_Version b)) eqn:E.
  - by rewrite (string_ltb_trans _ _ _ H3 E) in H2.
  - pose proof (string_ltb_total _ _ E H1) as Heq. congruence.
Qed.

Lemma loaded_sorted dir w files w' : loadMigrationFiles dir w = (Ok files, w') →
  StronglySorted (λ a b, string_ltb (mg_Version b) (mg_Version a) = false) files.
Proof.
  unfold loadMigrationFiles. intros Hrun. apply bind_ok in Hrun as (? & ? & _ & Hrun). apply bind_ok in Hrun as (l & ? & _ & Hrun).
  apply ret_ok in Hrun as [-> _]. apply (sort_slice_sorted before).
  - intros a b. apply (before_order a b a).
  - intros a b c. apply (before_order a b c).
Qed.

(** C40. Migrations are applied once, in the order of their versions. A run that succeeds has
    executed exactly the migrations that were not recorded, in that order, and recorded them, so
    that a second run executes nothing. A run that fails has done so for the migrations before
    the one that failed, and for no other. Whatever happens, a recorded migration is never run
    again, changed or forgotten. *)
Theorem migrations_applied_once dir w m files w' :
  loadMigrationFiles dir w = (Ok files, w') → NoDup (mg_Version <$> files) →
  let '(r, (_, m')) := Apply dir (w, m) in
  StronglySorted (λ a b, string_ltb (mg_Version b) (mg_Version a) = false) files ∧ rows_of m ⊆ rows_of m' ∧
  ∃ done rest, files = done ++ rest ∧ (is_ok r = true ↔ rest = []) ∧ Forall (recorded m') done ∧
    run_sql (mg_SQL <$> pending m done) (md_schema m) = Ok (md_schema m') ∧
    ∀ l, r = Ok l → l = (λ f, {| am_Version := mg_Version f; am_Name := mg_Name f |}) <$> pending m files ∧
      ∀ w2 w3, loadMigrationFiles dir w2 = (Ok files, w3) → (Apply dir (w2, m')).1 = Ok [].
Proof.
  intros Hl Hnd. pose proof (loaded_sorted _ _ _ _ Hl) as Hsort. unfold Apply. rewrite Hl.
  set (m0 := {| md_schema := md_schema m; md_table := Some (rows_of m) |}).
  change ((_ ← ensure_table; apply_files files) m) with (apply_files files m0).
  pose proof (apply_files_keeps files m0) as Hk. destruct (apply_files files m0) as [[l|e] m'] eqn:E; (split_and!; [done|exact Hk|]).
  - destruct (apply_files_runs _ _ _ _ Hnd E) as [-> Hsql]. pose proof (apply_files_recorded _ _ _ _ E) as Hrec.
    exists files, []. rewrite app_nil_r. split_and!; [done|done|exact Hrec|exact Hsql|]. intros l [= <-]. split; [done|].
    intros w2 w3 Hl2. rewrite Hl2. unfold ensure_table, modify, mbind, St_bind. rewrite apply_recorded; [done|].
    eapply Forall_impl; [exact Hrec|]. intros f Hf. exact Hf.
  - destruct (apply_files_stops _ _ _ _ E) as (done & rest & l & -> & Hr & Hd). rewrite fmap_app in Hnd. apply NoDup_app in Hnd as [Hnd _].
    destruct (apply_files_runs _ _ _ _ Hnd Hd) as [_ Hsql]. exists done, rest. split_and!; [done| |by eapply apply_files_recorded|exact Hsql|done].
    by split.
Qed.
End migrations.
