(* ===== verification/NodeCommands.v ===== *)
(** * The commands of a node

    [cmd/thirdshift/main.go]: what [configure], [start], [update] and [card] do once their
    flags are parsed, by the packages of the node. Printing is left out; [start] ends with the
    options it runs the agent with. *)
From stdpp Require Import base gmap strings list.
From Stdlib Require Import ZArith Lia Ascii.
From S2P Require Import Prelude GoStrings Float64 Schedule Catalog Hardware FileSystem FileURL Releases Updates NodeConfig NodeLogin LoginTheory CatalogFiles.

(** ** [configure] *)

Record ConfigureFlags := {
  fl_dataDir : string; fl_from : string; fl_until : string; fl_maxTemp : Z; fl_hardTemp : Z; fl_hysteresis : Z;
  fl_pauseIdleTimeout : Z
}.

Definition set_text (v : string) (set : string → NodeConfig.Config → NodeConfig.Config) (c : NodeConfig.Config) : NodeConfig.Config :=
  if String.eqb v "" then c else set v c.
Definition set_positive (v : Z) (set : Z → NodeConfig.Config → NodeConfig.Config) (c : NodeConfig.Config) : NodeConfig.Config :=
  if 0 <? v then set v c else c.

(** The flags over the stored configuration: the schedule, and the temperatures. *)
Definition configured_schedule (f : ConfigureFlags) (cfg : NodeConfig.Config) : NodeConfig.Config :=
  set_text (fl_until f) (λ v c, c <| cg_ScheduleUntil := v |>) (set_text (fl_from f) (λ v c, c <| cg_ScheduleFrom := v |>) cfg).
Definition configured_limits (f : ConfigureFlags) (cfg : NodeConfig.Config) : NodeConfig.Config :=
  let cfg := set_positive (fl_maxTemp f) (λ v c, c <| cg_MaxTempC := v |>) cfg in
  let cfg := set_positive (fl_hardTemp f) (λ v c, c <| cg_HardTempC := v |>) cfg in
  let cfg := set_positive (fl_hysteresis f) (λ v c, c <| cg_ThermalHysteresis := v |>) cfg in
  set_positive (fl_pauseIdleTimeout f) (λ v c, c <| cg_PauseIdleTimeout := v |>) cfg.

(** ** [start] *)

Record StartFlags := {
  sf_dataDir : string; sf_coordinatorURL : string; sf_modelID : string; sf_catalogDir : string; sf_runtimeBaseURL : string;
  sf_heartbeatInterval : Z
}.

(** The options of the agent; [la_ExistingRuntime] is the address of a server that runs already. *)
Record Launch := {
  la_DataDir : string; la_CatalogDir : string; la_CoordinatorURL : string; la_ModelID : string; la_AccessToken : string;
  la_NodeID : string; la_HeartbeatInterval : Z; la_ExistingRuntime : option string; la_ScheduleFrom : string;
  la_ScheduleUntil : string; la_MaxTempC : Z; la_HardTempC : Z; la_ThermalHysteresis : Z; la_PauseIdleTimeout : Z;
  la_GPUVendor : string
}.

(** Whether a model was asked for by name. *)
Definition explicit_model (requested : string) : bool :=
  negb (String.eqb requested "") && negb (equal_fold (trim_space requested) AutoModelID).

(** ** [update] *)

Record UpdateFlags := {
  uf_manifestURL : string; uf_installDir : string; uf_currentBinary : string; uf_publicKey : string; uf_platform : string;
  uf_verifyOnly : bool; uf_artifact : string
}.

(** ** [card] *)

Record CardFlags := { kf_dataDir : string; kf_coordinatorURL : string; kf_node : string }.
Record contributionCard := {
  kc_NodeID : string; kc_NodeName : string; kc_NightsActive : Z; kc_JobsAccepted : Z; kc_TokensServed : Z;
  kc_CreditEarnedMicrodollars : Z
}.

(** [url.PathEscape], and the JSON of a card. *)
Class Cards := { PathEscape : string → string; decode_card : string → result contributionCard }.

(** ["%06d"]. *)
Definition pad6 (z : Z) : string :=
  let s := itoa (Z.abs z) in
  let zeros := if z <? 0 then 5%nat else 6%nat in
  (if z <? 0 then "-" else "") +:+ of_bytes (replicate (zeros - String.length s) "0"%char) +:+ s.

Definition formatMicrodollars (value : Z) : string :=
  let '(sign, value) := if value <? 0 then ("-", wrap64 (- value)) else ("", value) in
  sign +:+ "$" +:+ itoa (Z.quot value 1000000) +:+ "." +:+ pad6 (Z.rem value 1000000).

Definition dash (value : string) : string := if String.eqb value "" then "-" else value.

Section commands.
Context `{!Identities, !Unicode, !Embedded, !Libraries, !Parsers, !Cards}.
Context (getenv : string → string) (userConfigDir : result string) (goos goarch hostname : string) (host : Host).
Context (ParseFloat : string → result float64) (device : location → nat) (tempDir : Path) (executable : result string).

(** The configuration that was asked for; what is stored is [saved_config] of it. *)
Definition runConfigure (f : ConfigureFlags) : IO NodeConfig.Config :=
  cfg ← Load getenv userConfigDir (fl_dataDir f);
  let cfg := configured_schedule f cfg in
  _ ← guard_err (negb (String.eqb (cg_ScheduleFrom cfg) "") && negb (String.eqb (cg_ScheduleUntil cfg) ""))
        (ErrMsg "schedule requires both --from and --until in HH:MM");
  _ ← lift_result (ParseWindow (cg_ScheduleFrom cfg) (cg_ScheduleUntil cfg));
  let cfg := configured_limits f cfg in
  _ ← Save userConfigDir cfg;
  mret cfg.

Definition runStart (generated : result (list Z * list Z)) (f : StartFlags) : IO Launch :=
  cfg ← Load getenv userConfigDir (sf_dataDir f);
  let cfg := set_text (sf_coordinatorURL f) (λ v c, c <| cg_CoordinatorURL := v |>) cfg in
  login ← Login getenv userConfigDir goos goarch hostname generated
    {| lo_DataDir := cg_DataDir cfg; lo_CoordinatorURL := cg_CoordinatorURL cfg; lo_InviteToken := "" |};
  resources ← wrap "detect host resources" (lift_result (DetectHostResources host (cg_DataDir cfg)));
  manifests ← LoadSelectable ParseFloat (read_path (sf_catalogDir f));
  selection ← lift_result (ResolveModel (sf_modelID f) manifests (capacity_of resources));
  let cfg := if explicit_model (sf_modelID f) then cfg <| cg_ModelID := sl_ModelID selection |> else cfg in
  _ ← Save userConfigDir cfg;
  let creds := lr_Credentials login in
  mret {| la_DataDir := cg_DataDir cfg; la_CatalogDir := sf_catalogDir f; la_CoordinatorURL := cr_CoordinatorURL creds;
          la_ModelID := sl_ModelID selection; la_AccessToken := cr_AccessToken creds; la_NodeID := cr_NodeID creds;
          la_HeartbeatInterval := sf_heartbeatInterval f;
          la_ExistingRuntime := if String.eqb (sf_runtimeBaseURL f) "" then None else Some (sf_runtimeBaseURL f);
          la_ScheduleFrom := cg_ScheduleFrom cfg; la_ScheduleUntil := cg_ScheduleUntil cfg; la_MaxTempC := cg_MaxTempC cfg;
          la_HardTempC := cg_HardTempC cfg; la_ThermalHysteresis := cg_ThermalHysteresis cfg;
          la_PauseIdleTimeout := cg_PauseIdleTimeout cfg; la_GPUVendor := hr_GPUVendor resources |}.

Definition runtimePlatformKey : string := goos +:+ "/" +:+ goarch.

(** [None]: an artifact was verified, and nothing installed. *)
Definition runUpdate (f : UpdateFlags) : IO (option UpdateResult) :=
  publicKey ← lift_result (DecodePublicKey (uf_publicKey f));
  if uf_verifyOnly f then
    _ ← guard_err (negb (String.eqb (uf_artifact f) "")) (ErrMsg "--artifact is required with --verify-only");
    manifest ← LoadManifestBytes (read_path (uf_manifestURL f));
    let key := if String.eqb (uf_platform f) "" then runtimePlatformKey else uf_platform f in
    _ ← VerifyDownloadedArtifact manifest key (read_path (uf_artifact f)) publicKey;
    mret None
  else
    updated ← Update device goos goarch tempDir executable
      {| up_InstallDir := uf_installDir f; up_CurrentBinary := uf_currentBinary f; up_PublicKey := publicKey;
         up_PlatformKey := uf_platform f |} (uf_manifestURL f);
    mret (Some updated).

Definition fetchContributionCard (coordinatorURL nodeID : string) : IO contributionCard :=
  if String.eqb coordinatorURL "" then fail (ErrMsg "coordinator URL is required")
  else if String.eqb nodeID "" then fail (ErrMsg "node id is required")
  else
    let endpoint := trim_right_byte coordinatorURL "/"%char +:+ "/v1/nodes/" +:+ PathEscape nodeID +:+ "/card" in
    _ ← lift_result (NewRequest endpoint);
    reply ← http_get endpoint 0;
    match reply with
    | NoReply => fail (ErrMsg "get")
    | Answer status answer _ =>
        if success status then wrap "decode contribution card" (lift_result (decode_card answer))
        else
          let said := decode_api_error answer in
          fail (ErrMsg ("contribution card request failed: " +:+ (if String.eqb said "" then status_line status else said)))
    end.

Definition runCard (f : CardFlags) : IO contributionCard :=
  cfg ← Load getenv userConfigDir (kf_dataDir f);
  let url := if String.eqb (kf_coordinatorURL f) "" then cg_CoordinatorURL cfg else kf_coordinatorURL f in
  target ← (if String.eqb (kf_node f) "" || String.eqb url "" then
              creds ← LoadCredentials (cg_DataDir cfg);
              mret (if String.eqb url "" then cr_CoordinatorURL creds else url,
                    if String.eqb (kf_node f) "" then cr_NodeID creds else kf_node f)
            else mret (url, kf_node f));
  fetchContributionCard target.1 target.2.

(** ** What [start] starts *)

Lemma selectable_listed found name catalogDir w found' w' :
  selectable ParseFloat catalogDir found name w = (Ok found', w') →
  Forall (λ m, ListingStatus m ≠ ListingHidden) found → Forall (λ m, ListingStatus m ≠ ListingHidden) found'.
Proof.
  unfold selectable. intros Hrun Hf. apply bind_ok in Hrun as (file & w1 & _ & Hrun). apply ret_ok in Hrun as [-> _].
  destruct file as [[data s]|e]; [|done]. destruct (parse_text ParseFloat data) as [m|e]; [|done].
  destruct (String.eqb_spec (ListingStatus m) ListingHidden) as [E|E]; [done|]. apply Forall_app. by repeat constructor.
Qed.

Lemma LoadSelectable_listed catalogDir w l w' : LoadSelectable ParseFloat catalogDir w = (Ok l, w') →
  Forall (λ m, ListingStatus m ≠ ListingHidden) l.
Proof.
  unfold LoadSelectable. intros Hrun. apply bind_ok in Hrun as (names & w1 & _ & Hrun). revert w1 Hrun.
  assert (Hnil : Forall (λ m, ListingStatus m ≠ ListingHidden) []) by constructor. revert Hnil. generalize (@nil Manifest).
  induction names as [|n names IH]; intros acc Hacc w1 Hrun; [by apply ret_ok in Hrun as [-> _]|].
  cbn [fold_st] in Hrun. apply bind_ok in Hrun as (acc' & w2 & Hs & Hrun). eapply IH; [|exact Hrun]. by eapply selectable_listed.
Qed.

Lemma ResolveModel_member requested l cap sel : ResolveModel requested l cap = Ok sel →
  sl_Manifest sel ∈ l ∧ sl_ModelID sel = mf_ModelID (sl_Manifest sel).
Proof.
  unfold ResolveModel. destruct (_ || _).
  - unfold SelectModel. destruct (last _) as [m0|]; [|done]. destruct (filter (λ m, Fits m cap = true) _) as [|m rest] eqn:E; [done|].
    intros [= <-].
    assert (Hin : m ∈ filter (λ m, Fits m cap = true) (bySizeDescending (filter (λ m, ListingStatus m ≠ ListingHidden) l)))
      by (rewrite E; left).
    apply list_elem_of_filter in Hin as [_ Hin%elem_of_stable_sort]. apply list_elem_of_filter in Hin as [_ Hin].
    unfold auto_selection. by destruct (vramKnown cap).
  - destruct (filter _ l) as [|m rest] eqn:E; [done|]. destruct (Fits m cap); [|done]. intros [= <-]. split; [|done].
    assert (Hin : m ∈ filter (λ m, mf_ModelID m = trim_space requested) l) by (rewrite E; left).
    by apply list_elem_of_filter in Hin as [_ Hin].
Qed.

Lemma set_text_dir v cfg : cg_DataDir (set_text v (λ v c, c <| cg_CoordinatorURL := v |>) cfg) = cg_DataDir cfg ∧
  cg_ModelID (set_text v (λ v c, c <| cg_CoordinatorURL := v |>) cfg) = cg_ModelID cfg.
Proof. unfold set_text. by destruct (String.eqb v ""). Qed.

(** C25. A node that starts serves a model of the catalog that is listed and fits the host, under
    the identity it logged in with and with the runtime of the card that was found; and a model is
    stored in its configuration only when it was asked for by name. *)
Theorem start_spec generated f w l w' : runStart generated f w = (Ok l, w') →
  ∃ cfg w1 login w2 resources m manifests w3 w4,
    Load getenv userConfigDir (sf_dataDir f) w = (Ok cfg, w1) ∧
    Login getenv userConfigDir goos goarch hostname generated {| lo_DataDir := cg_DataDir cfg;
      lo_CoordinatorURL := cg_CoordinatorURL (set_text (sf_coordinatorURL f) (λ v c, c <| cg_CoordinatorURL := v |>) cfg);
      lo_InviteToken := "" |} w1 = (Ok login, w2) ∧
    la_NodeID l = cr_NodeID (lr_Credentials login) ∧ la_AccessToken l = cr_AccessToken (lr_Credentials login) ∧
    DetectHostResources host (cg_DataDir cfg) = Ok resources ∧ la_GPUVendor l = DetectGPUVendor host ∧
    LoadSelectable ParseFloat (read_path (sf_catalogDir f)) w2 = (Ok manifests, w3) ∧
    m ∈ manifests ∧ mf_ModelID m = la_ModelID l ∧ ListingStatus m ≠ ListingHidden ∧ Fits m (capacity_of resources) = true ∧
    ∃ cfg', Save userConfigDir cfg' w4 = (Ok tt, w') ∧
      cg_ModelID cfg' = if explicit_model (sf_modelID f) then la_ModelID l else cg_ModelID cfg.
Proof.
  unfold runStart. intros Hrun. apply bind_ok in Hrun as (cfg & w1 & Hload & Hrun). apply bind_ok in Hrun as (login & w2 & Hlogin & Hrun).
  destruct (set_text_dir (sf_coordinatorURL f) cfg) as [Hdir Hmodel]. rewrite Hdir in Hlogin.
  apply bind_ok in Hrun as (resources & w2' & Hres & Hrun). apply wrap_ok in Hres. apply lift_ok in Hres as [Hres ->]. rewrite Hdir in Hres.
  apply bind_ok in Hrun as (manifests & w3 & Hman & Hrun). apply bind_ok in Hrun as (sel & w4 & [Hsel ->]%lift_ok & Hrun).
  apply bind_ok in Hrun as ([] & w5 & Hsave & Hrun). apply ret_ok in Hrun as [-> ->].
  destruct (ResolveModel_member _ _ _ _ Hsel) as [Hin Hid]. pose proof (LoadSelectable_listed _ _ _ _ Hman) as Hl.
  rewrite Forall_forall in Hl. exists cfg, w1, login, w2, resources, (sl_Manifest sel), manifests, w3, w3.
  split_and!; [done|done|done|done|done|by eapply vendor_agrees|done|done|done|by apply Hl|by eapply ResolveModel_fits|].
  eexists. split; [exact Hsave|]. by destruct (explicit_model (sf_modelID f)).
Qed.

(** ** What [configure] stores *)

Lemma limits_schedule f cfg : cg_ScheduleFrom (configured_limits f cfg) = cg_ScheduleFrom cfg ∧
  cg_ScheduleUntil (configured_limits f cfg) = cg_ScheduleUntil cfg ∧
  (0 < fl_maxTemp f → cg_MaxTempC (configured_limits f cfg) = fl_maxTemp f) ∧
  (0 < fl_hardTemp f → cg_HardTempC (configured_limits f cfg) = fl_hardTemp f).
Proof.
  unfold configured_limits, set_positive. destruct cfg.
  destruct (Z.ltb_spec 0 (fl_maxTemp f)), (Z.ltb_spec 0 (fl_hardTemp f)), (0 <? fl_hysteresis f), (0 <? fl_pauseIdleTimeout f);
    cbn; split_and!; done || lia.
Qed.

Lemma flags_schedule f cfg : (fl_from f ≠ "" → cg_ScheduleFrom (configured_schedule f cfg) = fl_from f) ∧
  (fl_until f ≠ "" → cg_ScheduleUntil (configured_schedule f cfg) = fl_until f).
Proof.
  unfold configured_schedule, set_text. destruct (String.eqb_spec (fl_from f) ""), (String.eqb_spec (fl_until f) ""); by split.
Qed.

(** A schedule that is not one is never stored: [configure] with one fails and leaves every file
    as it was. When it succeeds, what it has stored is a window that parses and the limits that
    were given, over what was stored before. *)
Theorem configure_checks f w cfg w1 : w_faults w = [] → Load getenv userConfigDir (fl_dataDir f) w = (Ok cfg, w1) →
  let c := configured_schedule f cfg in
  (is_ok (ParseWindow (cg_ScheduleFrom c) (cg_ScheduleUntil c)) = false →
     is_ok (runConfigure f w).1 = false ∧ same_files w (runConfigure f w).2) ∧
  (∀ cfg' w', runConfigure f w = (Ok cfg', w') →
     is_ok (ParseWindow (cg_ScheduleFrom cfg') (cg_ScheduleUntil cfg')) = true ∧
     (fl_from f ≠ "" → cg_ScheduleFrom cfg' = fl_from f) ∧ (fl_until f ≠ "" → cg_ScheduleUntil cfg' = fl_until f) ∧
     (0 < fl_maxTemp f → cg_MaxTempC cfg' = fl_maxTemp f) ∧ (0 < fl_hardTemp f → cg_HardTempC cfg' = fl_hardTemp f) ∧
     Save userConfigDir cfg' w1 = (Ok tt, w')).
Proof.
  intros Hw Hload. cbv zeta. pose proof (fixed_Load getenv userConfigDir (fl_dataDir f) w Hw) as Hs. rewrite Hload in Hs. cbn [snd] in Hs.
  unfold runConfigure, mbind, St_bind. rewrite Hload. set (c := configured_schedule f cfg). split.
  - intros Hbad. unfold guard_err. destruct (_ && _); [|by split]. unfold mret, St_ret, lift_result.
    destruct (ParseWindow _ _); [done|]. by split.
  - intros cfg' w'. destruct (guard_err _ _ w1) as [[[]|e] w2] eqn:Eg; [|done]. apply guard_ok in Eg as [_ ->].
    unfold lift_result. destruct (ParseWindow (cg_ScheduleFrom c) (cg_ScheduleUntil c)) as [window|e] eqn:Ew; [|done].
    destruct (Save userConfigDir (configured_limits f c) w1) as [[[]|e] w3] eqn:Esave; [|done]. intros [= <- <-].
    destruct (limits_schedule f c) as (Hfrom & Huntil & Hmax & Hhard), (flags_schedule f cfg) as [Hf Hu]. rewrite Hfrom, Huntil, Ew. by split_and!.
Qed.
End commands.
