(* ===== verification/StartExamples.v ===== *)
(** * Examples of a start

    Migrations of a small schema, and the commands of a node on a host with a home, a catalog and a
    coordinator that answers. *)
From stdpp Require Import base gmap strings list sorting.
From Stdlib Require Import ZArith Lia Ascii SpecFloat.
From S2P Require Import Prelude GoStrings Float64 Sha256 Encoding Schedule Scheduler OperatorReports Catalog Hardware FileSystem FileURL Releases ModelCache DeliveryExamples NodeConfig NodeLogin LoginTheory CatalogFiles NodeExamples SyncExamples Startup NodeCommands.

#[local] Existing Instance DeliveryExamples.toy.
#[local] Existing Instance NodeExamples.toy_identities.
#[local] Existing Instance SyncExamples.nothing_embedded.
#[local] Existing Instance Hardware.HardwareExamples.parsers.
#[local] Instance every_letter : Unicode := λ _, true.
#[local] Instance no_cards : Cards := {| PathEscape := λ s, s; decode_card := λ _, Err (ErrMsg "EOF") |}.

Module StartExamples.

(** ** Migrations *)

(** A schema is the list of what was executed; a statement ["bad"] is refused. *)
Definition toy_sql (sql : string) (schema : list string) : result (list string) :=
  if String.eqb sql "bad" then Err (ErrMsg "syntax error") else Ok (schema ++ [sql]).
Definition migrations_world (l : list (string * string)) : World :=
  world (foldr (λ '(name, sql) fs, <[["srv"; "migrations"; name] := NFile sql 0]> fs) (dirs [["srv"]; ["srv"; "migrations"]]) l) [].
Definition empty_database : Migrated (list string) := {| md_schema := []; md_table := None |}.
Definition migrate (l : list (string * string)) (m : Migrated (list string)) : result (list AppliedMigration) * Migrated (list string) :=
  let '(r, (_, m')) := Apply toy_sql "/srv/migrations" (migrations_world l, m) in (r, m').
Definition two_migrations : list (string * string) := [("0002_jobs.up.sql", "jobs"); ("0001_init.up.sql", "init"); ("0001_init.down.sql", "drop")].

Lemma migrations_applied_once_witness :
  let '(r, (_, m')) := Apply toy_sql "/srv/migrations" (migrations_world two_migrations, empty_database) in
  r = Ok [{| am_Version := "0001"; am_Name := "init" |}; {| am_Version := "0002"; am_Name := "jobs" |}] ∧
  md_schema m' = ["init"; "jobs"] ∧ (Apply toy_sql "/srv/migrations" (migrations_world two_migrations, m')).1 = Ok [].
Proof.
  destruct (loadMigrationFiles "/srv/migrations" (migrations_world two_migrations)) as [r0 w0] eqn:El.
  assert (Hl : ∃ files, r0 = Ok files ∧ NoDup (mg_Version <$> files)).
  { exists (match r0 with Ok l => l | Err _ => [] end).
    assert (Hb : (match r0 with Ok l => bool_decide (NoDup (mg_Version <$> l)) | Err _ => false end) = true)
      by (change r0 with ((r0, w0).1); rewrite <-El; vm_compute; reflexivity).
    destruct r0; [|discriminate Hb]. split; [reflexivity|exact (bool_decide_eq_true_1 _ Hb)]. }
  destruct Hl as (files & -> & Hnd).
  pose proof (migrations_applied_once toy_sql "/srv/migrations" (migrations_world two_migrations) empty_database files w0 El Hnd) as H.
  destruct (Apply toy_sql "/srv/migrations" (migrations_world two_migrations, empty_database)) as [r [w1 m']] eqn:E.
  assert (Hr : r = Ok [{| am_Version := "0001"; am_Name := "init" |}; {| am_Version := "0002"; am_Name := "jobs" |}])
    by (change r with ((r, (w1, m')).1); rewrite <-E; vm_compute; reflexivity).
  assert (Hs : md_schema m' = ["init"; "jobs"]) by (change m' with ((r, (w1, m')).2.2); rewrite <-E; vm_compute; reflexivity).
  split; [exact Hr|]. split; [exact Hs|].
  destruct H as (_ & _ & done & rest & _ & _ & _ & _ & H). destruct (H _ Hr) as [_ Hagain]. exact (Hagain _ _ El).
Defined.

(** A migration that fails stops the run; what came before it stays applied. *)
Example failing_migration :
  let '(r, m) := migrate [("1_a.up.sql", "a"); ("2_b.up.sql", "bad"); ("3_c.up.sql", "c")] empty_database in
  is_ok r = false ∧ md_schema m = ["a"].
Proof. vm_compute. split; reflexivity. Qed.

(** Versions are compared as text: a tenth migration whose number is not padded runs before the second. *)
Example unpadded_versions :
  md_schema (migrate [("2_b.up.sql", "b"); ("10_c.up.sql", "c"); ("1_a.up.sql", "a")] empty_database).2 = ["a"; "c"; "b"].
Proof. vm_compute. reflexivity. Qed.

(** A version need not be a number, although the message for a name without one says so. *)
Example version_not_numeric : is_ok (migrate [("next_a.up.sql", "a")] empty_database).1 = true.
Proof. vm_compute. reflexivity. Qed.

(** ** Settings *)

(** A number of seconds that does not fit a duration becomes a negative one. *)
Example heartbeat_overflows :
  durationSeconds (λ _, "9300000000") "THIRDSHIFT_HEARTBEAT_INTERVAL_SECONDS" (15 * Second) < 0.
Proof. vm_compute. reflexivity. Qed.

(** ** Commands *)

Definition home_with_catalog (replies : list Reply) : World :=
  NodeExamples.logged_in replies <| w_fs ::= λ fs, fs ∪ SyncExamples.catalog_tree SyncExamples.good_yaml |>.
Definition start_flags (model : string) : StartFlags := {|
  sf_dataDir := NodeExamples.home; sf_coordinatorURL := "https://coordinator.example"; sf_modelID := model; sf_catalogDir := "/srv/catalog";
  sf_runtimeBaseURL := ""; sf_heartbeatInterval := 15 * Second |}.
Definition start (model : string) : IO Launch :=
  runStart NodeExamples.no_env NodeExamples.no_config_dir "windows" "amd64" "host" Hardware.HardwareExamples.nvidia_pc toy_ParseFloat NodeExamples.generated (start_flags model).

Lemma start_spec_witness :
  ∃ l w', start "" (home_with_catalog [NodeExamples.token_reply "t2"]) = (Ok l, w') ∧ la_GPUVendor l = DetectGPUVendor Hardware.HardwareExamples.nvidia_pc.
Proof.
  destruct (start "" (home_with_catalog [NodeExamples.token_reply "t2"])) as [r w'] eqn:E.
  assert (Hr : is_ok r = true) by (change r with ((r, w').1); rewrite <-E; vm_compute; reflexivity).
  destruct r as [l|e]; [|discriminate Hr]. exists l, w'. split; [reflexivity|].
  destruct (start_spec NodeExamples.no_env NodeExamples.no_config_dir "windows" "amd64" "host" Hardware.HardwareExamples.nvidia_pc toy_ParseFloat
    NodeExamples.generated (start_flags "") (home_with_catalog [NodeExamples.token_reply "t2"]) l w' E)
    as (cfg & w1 & login & w2 & resources & m & manifests & w3 & w4 & _ & _ & _ & _ & _ & Hv & _). exact Hv.
Defined.

(** The token it runs with is the renewed one. *)
Example start_renews :
  match (start "" (home_with_catalog [NodeExamples.token_reply "t2"])).1 with
  | Ok l => la_AccessToken l = "t2" ∧ la_ModelID l = "llama" ∧ la_GPUVendor l = "nvidia"
  | Err _ => False
  end.
Proof. vm_compute. repeat split. Qed.

(** A blank name chooses the model as no name does, but is stored like a name. *)
Example blank_model_is_stored :
  let stored (model : string) := match (x ← start model; Load NodeExamples.no_env NodeExamples.no_config_dir NodeExamples.home)
    (home_with_catalog [NodeExamples.token_reply "t2"]) with (Ok cfg, _) => cg_ModelID cfg | (Err _, _) => "" end in
  stored "" = "thirdshift-tiny-chat-v1" ∧ stored "auto" = "thirdshift-tiny-chat-v1" ∧ stored " " = "llama".
Proof. vm_compute. repeat split. Qed.

Definition configure_flags (from until : string) (maxTemp : Z) : ConfigureFlags := {|
  fl_dataDir := NodeExamples.home; fl_from := from; fl_until := until; fl_maxTemp := maxTemp; fl_hardTemp := 0; fl_hysteresis := 0;
  fl_pauseIdleTimeout := 0 |}.
Definition configure (f : ConfigureFlags) : IO NodeConfig.Config := runConfigure NodeExamples.no_env NodeExamples.no_config_dir f.

Lemma configure_checks_witness :
  is_ok (configure (configure_flags "25:00" "08:00" 0) (NodeExamples.node_world [])).1 = false ∧
  same_files (NodeExamples.node_world []) (configure (configure_flags "25:00" "08:00" 0) (NodeExamples.node_world [])).2.
Proof.
  destruct (Load NodeExamples.no_env NodeExamples.no_config_dir NodeExamples.home (NodeExamples.node_world [])) as [r w1] eqn:E.
  assert (Hr : r = Ok (default_config NodeExamples.no_config_dir NodeExamples.home))
    by (change r with ((r, w1).1); rewrite <-E; vm_compute; reflexivity).
  rewrite Hr in E.
  apply (configure_checks NodeExamples.no_env NodeExamples.no_config_dir (configure_flags "25:00" "08:00" 0) (NodeExamples.node_world [])
    (default_config NodeExamples.no_config_dir NodeExamples.home) w1 eq_refl E). vm_compute. reflexivity.
Defined.

(** The limits that are printed are those asked for, not those stored: a soft limit above the stored
    hard one moves the hard one, which is printed as it was. *)
Example configure_prints_old_limit :
  let m : IO (Z * Z) := cfg ← configure (configure_flags "" "" 90);
    now ← Load NodeExamples.no_env NodeExamples.no_config_dir NodeExamples.home; mret (cg_HardTempC cfg, cg_HardTempC now) in
  (m (NodeExamples.node_world [])).1 = Ok (88, 100).
Proof. vm_compute. reflexivity. Qed.

Example credit_printed : formatMicrodollars (-1234567) = "-$1.234567" ∧ formatMicrodollars 42 = "$0.000042".
Proof. vm_compute. split; reflexivity. Qed.

(** The least integer is its own opposite. *)
Example least_credit_printed : formatMicrodollars (- 2 ^ 63) = "-$-9223372036854.-775808".
Proof. vm_compute. reflexivity. Qed.
End StartExamples.
